(* ===== verification/_CoqProject ===== *)
-Q . S2P
Prelude.v
Errors.v
WasmMemory.v
CoreTypes.v
Dna.v
Storage.v
Action.v
Instances.v
ContentStore.v
Agent.v
Network.v
Nucleus.v
ZomeCalls.v
AspectMap.v
DhtStore.v
DhtReducers.v
HoldingQueue.v
GetEntry.v
NetworkHandlers.v
Instance.v
Config.v
Conductor.v
ConductorBoot.v
ConductorAdmin.v
Rpc.v
Regex.v
Times.v
Lib3h.v
Sim2h.v
Switchboard.v
Sim2hWorker.v
MemoryNet.v
Async.v
Ribosome.v
Futures.v
Steps.v
Packages.v
Validation.v
Workflows.v
Startup.v
MessageHandler.v
NestedCalls.v
ZomeApi.v
Dpki.v
Keystores.v
Streams.v
