(* ===== verification/Prelude.v ===== *)
(** * Holochain, verified

    This library models Holochain's Rust implementation, the crates under
    [src/crates]: the core that runs an application, the conductor that runs a
    node's applications, the keys of its agents, and the switchboard that connects
    nodes with the workers that nodes use to reach it; and it proves properties of
    them.  Paths below are relative to that directory.

    ** The program

    An instance runs one application (a DNA) for one agent.  Everything it does
    is an [Action] put into one queue; the action loop reduces the state by one
    action at a time ([core/src/instance.rs], [core/src/state.rs]).  The state
    has four slices: the agent's source chain, the nucleus (the DNA, its
    initialization and the calls of its functions), the DHT (the entries this
    node holds for others and the validations still to run) and the network
    (requests that wait for an answer).  The reducers also write to a
    content-addressable storage and an entity-attribute-value storage, which the
    slices share.  Workflows, network handlers and worker threads run
    concurrently; they read the state and dispatch actions.

    A conductor runs the instances of a node from one configuration: it creates
    them with their keys and with bridges to each other, offers them to clients
    through interfaces, routes their signals, and is itself administered through
    interfaces ([conductor_lib/src]).

    Nodes talk through a switchboard, sim2h ([sim2h/src]).  Its store knows which
    agents joined which space at which address and which aspects of entries they
    hold.  Handlers and spawned tasks work on copies of the store; changes go
    through a log that one task applies, and each leads to a new copy.  A node
    reaches it through a worker in a thread, which buffers what the core sends until
    it is acknowledged ([net/src/sim2h_worker.rs]); nodes of one process can
    talk through a server in memory instead ([net/src/in_memory]).

    The keys and seeds of agents are in keystores, encrypted with a passphrase
    ([dpki/src], [conductor_lib/src/keystore.rs]).

    ** Files, from the data to the whole

    - [Prelude]: results, panics and fuel, lists, the hint databases.
    - [Errors]: [core_types/src/error], [bits_n_pieces.rs]: errors and the 64-bit
      codes that cross the wasm boundary.
    - [WasmMemory]: [wasm_utils/src/memory]: the stack allocator in linear memory.
    - [CoreTypes]: entries, headers, links, capabilities, aspects.  The class
      [Addressing] is what the code uses of serde and multihash.
    - [Dna]: [core_types/src/dna], [core/src/entry/mod.rs]: the lookups in a DNA,
      and whether an entry type is published.
    - [Storage]: attributes and CRUD status, and the classes [Storage] and
      [StorageLaws] for the persistence crates.
    - [Action]: the actions, their keys, and pending validations.
    - [Instances]: an implementation of [Addressing] for concrete examples.
    - [ContentStore], [Agent]: [core/src/content_store.rs], [core/src/agent]: the
      source chain.
    - [Network]: [core/src/network/state.rs], [core/src/network/reducers],
      [core/src/scheduled_jobs/timeouts.rs]: requests, publishing, timeouts.
    - [Nucleus], [ZomeCalls]: [core/src/nucleus/state.rs], its reducers and
      [actions/call_zome_function.rs]: initialization; who may call a function;
      the life of a call as a step relation over queue, pool and futures.
    - [AspectMap], [DhtStore], [DhtReducers], [HoldingQueue]:
      [net/src/aspect_map.rs], [core/src/dht], [core/src/network/handler/store.rs]
      and the decisions of the holding loop.
    - [GetEntry]: [core/src/workflows/get_entry_result.rs] and what it calls.
    - [NetworkHandlers]: [core/src/network/handler]: answers, queries, fetches and
      authoring lists.
    - [Instance]: [core/src/state.rs], [persister.rs], [consistency.rs], and the
      processing of an action: the composition of all of the above.
    - [Config]: [conductor_lib/src/config.rs]: the configuration and its checks.
    - [Conductor], [ConductorBoot]: [conductor_lib/src/conductor/base.rs],
      [holochain.rs] and the handlers of [interface.rs]: the conductor's state and
      operations as a monad over it, two logics for them, and what booting does.
    - [ConductorAdmin]: [conductor/admin.rs], [ui_admin.rs], [test_admin.rs]: the
      calls that change a running conductor.
    - [Rpc]: the methods of [interface.rs] and [conductor_api]: requests of
      clients, down to the check of zome calls in [ZomeCalls].
    - [Regex], [Times]: [core_types/src/time.rs]: a backtracking matcher, and the
      periods, timeouts and timestamps that are parsed with it.
    - [Lib3h]: the messages of the lib3h protocol, between the core and the
      workers and between the workers and the switchboard.
    - [Sim2h], [Switchboard]: [sim2h_im_state.rs], [naive_sharding.rs] and the
      handlers of [sim2h/src/lib.rs]: store, sharding, messages and tasks as a step
      relation; and the theorems about them.
    - [Sim2hWorker]: [net/src/sim2h_worker.rs] and the loop of
      [connection/net_connection_thread.rs]: programs over the worker that ask the
      socket, the clock and the signing service.
    - [MemoryNet]: [net/src/in_memory]: server, channels and workers of a process.
    - [Async], [Steps]: programs for the [async] code of [core], which reads the
      state, dispatches actions, awaits futures and runs callbacks; what a context
      gives it ([core/src/context.rs]); a program logic for what programs may do
      and in which order.
    - [Ribosome]: [core/src/wasm_engine/run_dna.rs], [memory.rs], [runtime.rs] and
      [callback]: calls into wasm, and values in its memory.
    - [Futures]: the action creators and their futures ([core/src/agent/actions],
      [core/src/network/actions], [core/src/dht/actions],
      [core/src/nucleus/actions/initialize.rs]).
    - [Packages]: [core/src/nucleus/actions/build_validation_package.rs],
      [nucleus/validation/build_from_dht.rs], [callback/validation_package.rs],
      [callback/links_utils.rs] and the workflows that read entries and links:
      validation packages, built by the author or from the DHT.
    - [Validation]: [core/src/nucleus/validation] and
      [actions/run_validation_callback.rs].
    - [Workflows]: [core/src/workflows] and the task of the holding loop: holding,
      authoring, answering direct messages.
    - [Startup]: [workflows/application.rs], [nucleus/actions/initialize.rs],
      [call_init.rs], [network/actions/initialize_network.rs].
    - [MessageHandler]: [core/src/network/handler/mod.rs], [send.rs], [store.rs]:
      what a message of the network starts.
    - [NestedCalls]: zome functions that call zome functions ([local_call] of
      [core/src/wasm_engine/api/call.rs]), over the system of [ZomeCalls].
    - [ZomeApi]: [core/src/wasm_engine/api], [runtime.rs], the JSON-RPC client of
      [conductor_api], [wasm_utils/src/api_serialization]: the functions that the
      code of an application may call.
    - [Dpki]: [dpki/src]: encryption with passphrases, key pairs, seeds and
      mnemonics, and the blobs of secrets.
    - [Keystores]: [conductor_lib/src/keystore.rs], [key_loaders.rs],
      [conductor/passphrase_manager.rs] and the keystore methods of [interface.rs].
    - [Streams]: [in_stream/src]: [tcp.rs], [tls.rs], [ws.rs] and [ws/frame.rs], the
      streams that do not block, as programs that ask the sockets below and the
      clock.

    ** Conventions

    Constructors are named [<Type>_<Variant>], methods keep their names.  A call
    that can fail returns a [Result]; one that can panic an [Outcome].  A state
    that a reducer changes in place is passed and returned; what was written to
    a storage before an error stays written.  Times are integers in nanoseconds,
    hash maps are [gmap]s, ordered maps association lists.  Error texts are kept
    except for the debug output of values in them.  Machine integers are kept at
    their width where the code computes with them ([Errors], [WasmMemory], the
    pagination of [DhtStore], [Times]); the sharding of [Sim2h] computes with the
    64-bit floats of [SpecFloat].

    Asynchronous code is a [Prog]: a tree of calls to its surroundings with a
    continuation for every answer.  Nothing relates one answer to another, so a
    theorem about all runs holds under every interleaving with the reducers and
    with other code; where a theorem is about a node at rest ([at_rest]), it says
    that the state and the answers of the network do not change.  A future is a
    function of what one poll observes.  A program does not see that the action
    channel is closed when it dispatches, only when it awaits.

    Code that is not part of the crates is a class or a variable: hashing and
    JSON ([Addressing], with [AddressingLaws]: a header can be read back from
    its text), the storages ([StorageLaws]: what is added can be fetched, a
    failed addition changes nothing, queries return matching records), signing,
    the clock, the transport, glob patterns, the wasm interpreter, topological
    sorting ([Toposort], implemented by [kahn]), and the conductor's files,
    keystores and services ([ConductorEnv], [AdminEnv]), the locations of hashes
    ([Locations]), the character classes of Unicode ([Unicode]), the JSON of
    callbacks and API functions ([JsonApi], [ZomeHost]), and the agent, keys and
    cryptography of a node ([Node]), libsodium with HCID and BIP39 ([Sodium], with
    [SodiumLaws]: what is encrypted or encoded is read back), and the passphrase
    service, random bytes and files of a keystore ([KeystoreEnv]).  Theorems
    about stored chains also assume that hashing has no collisions, that no agent
    key is a hash and, where snapshots matter, that no address is that of a snapshot.
    [memory_storage], [toy_addressing], [toy_sodium] and [toy_keystore_env] satisfy
    these laws, and the examples of the theorems compute with them.

    ** What is proved

    - The instance ([Instance]): along every run of actions, lost locks, skipped or
      failed saves and restarts, the source chain stays readable, it is only extended
      but for falling back to what was saved on a restart, no validation is pending
      twice and every request has a timeout.  A restart from a saved state gives back
      chain, DNA and pending validations.  What a publication promises
      to the consistency harness is what its validators announce.
    - The source chain ([Agent]): a commit extends the chain by one well-linked
      header or changes nothing; queries are filters of the chain; the header of
      a published header does not depend on when it is built.
    - Validation ([Validation], [Packages], [Workflows]): nothing is held or
      committed unless a complete validation of it with its package succeeded
      before, and nothing private is published, under every interleaving; the package
      built from the DHT agrees with that of the author, for what the application
      asked for, but for later headers; a package that is given away has exactly the
      published entries of the author's headers ([MessageHandler]);
      but an entry that the application cannot decode panics its validators, a
      validation that panics blocks its aspect, unsigned headers are held, and a
      peer can keep a validator reading headers forever.
    - Applications ([ZomeApi], [Ribosome]): whatever a zome calls, it cannot commit
      an entry unvalidated, capability tokens apart, publish a private one, or
      start a function without the check of its capability, and which requests to
      the conductor, messages and signals each function makes; its queries are
      answered from the whole chain; a JSON text survives the memory of wasm.
    - Commits and starting ([Futures], [Startup]): a commit is answered once it is
      reduced, but two concurrent ones can wait forever; the order of what an
      instance does at its first start and at later ones.
    - Holding ([DhtReducers], [DhtStore], [HoldingQueue]): a held aspect is
      recorded in both storages; an attempt gets its result, except on one path;
      a free validation is found if the dependencies are acyclic, and never on a
      cycle; a validation moves between queues without loss; retries back off
      within bounds; pruning loses aspects that only share an entry.
    - Calls ([ZomeCalls], [Nucleus]): exactly the public, own and granted calls
      are admitted, and which signatures make the check panic; at most ten calls
      run at once; every queued call whose function returns is run to its result,
      and is removed afterwards; an initialized nucleus went through its
      initialization.  Functions that call functions can block all places for good
      ([NestedCalls]).
    - The network ([Network], [NetworkHandlers]): the timeout job resolves what
      has expired and keeps what was answered; the authoring list is exactly the
      published content and all headers; queries do not reveal private entries
      but fetches do; which answers make a handler panic; messages for another
      application or agent start nothing ([MessageHandler]).
    - Reading ([GetEntry], [Packages]): the result is the chain of updates, the
      loop does not end on a cycle of updates, and the program that queries the
      network computes the same.
    - The conductor ([Config], [ConductorBoot], [ConductorAdmin]): the check of a
      configuration accepts exactly the consistent ones, and instances are sorted
      after those they call; a checked configuration boots to all its instances
      if keys, storages and services work; admin calls keep the configuration
      consistent, and which of them leave it alone when they fail; what interfaces
      expose and where signals go; and operations that cannot succeed: restarting
      an instance, adding one after another was stopped, booting a DPKI instance
      that has a bridge.
    - Its clients ([Rpc]): all sequences of requests keep the configuration
      consistent; which functions a client can call with which token, when it
      leaves the signing to the conductor.
    - The switchboard ([Switchboard]): whatever is logged, an address in the store
      leads to an agent connected at it; the two ways to find missing aspects agree; queries go to
      at most three agents, holders first; in every interleaving a message about a
      space only goes where this agent was asked to be joined to it, the answers to
      debug requests apart, which reveal all spaces to anyone; joining is not
      authenticated, and copies of the store can be written out of order.
    - The workers ([Sim2hWorker], [MemoryNet]): whatever the connection does, what the
      core hands over waits until its receipt has come, a direct message at most until
      there is a new connection, or is handed back to the core, as long as the worker
      has not panicked; but a write that fails panics it, and its backoff has no bound.
      The server in memory does not panic for clients that behave, and sends what is
      published to all of them; but a client that is gone without having left blocks
      the others.
    - Keys ([Dpki], [Keystores]): secrets are read back from blobs, and encrypted seeds from
      mnemonics; while the service gives one passphrase, no use of a keystore changes
      or loses a secret, restarts included, and its signatures verify; but a wrong
      passphrase is not refused, a changed one leaves the secrets behind, seeds of another
      size panic, and decrypted messages are followed by stray bytes.
    - Streams ([Streams]): whatever the network does, each layer hands on what was
      written to it in order and once, and does not panic; a silent peer is given
      up after the time set, not before; but flushing a web socket whose handshake
      failed does not return.
    - Times ([Times]): every period is read back from its text; the conversion to
      a timeout saturates without overflow, except by truncation in 32 bits; and
      inputs the parsers accept although they should not.
    - Data ([Errors], [WasmMemory], [Storage], [CoreTypes], [Action],
      [AspectMap]): the allocator refines a stack of blocks; round trips of
      encodings and texts, with the values that do not survive; sets of aspects
      form the expected algebra.

    ** Fuel

    Following the links of a chain is not structural; such functions take fuel
    and answer [NoFuel] without it.  The theorems require more fuel than the
    length of the chain and prove that the call returns then ([run_iter_yields]
    in [Agent]).  The loop over updates takes fuel for its rounds; the theorem on
    cycles says that no amount of it is enough.  Programs run such loops with
    [node_fuel], which is a parameter of the node: theorems about a chain ask for
    more than its length, the others hold for every amount; the theorem on the
    loop over headers of the DHT says when no amount is enough.  A flush ([Streams])
    waits for the network: its theorems hold for every amount, and one says that
    no amount is enough.

    ** What is not modelled

    The code of applications and the wasm interpreter (their answers are
    parameters), and the HDK compiled into it; the threads of an instance: its
    action loop is a sequence of actions, its holding loop the decisions of one
    round and the task it spawns; wakers and observers; sockets, TLS and the web
    socket protocol, which the streams of [Streams] take as parameters, their
    listeners and the streams in memory; that the workers and the switchboard use these
    streams; the switchboard's connections and parsing of messages; lib3h and the choice of a
    network backend ([net/src/p2p_network.rs]); arithmetic on timestamps, which is
    that of chrono; the passphrase services, which read a terminal or a socket; the
    conductor's servers, statistics and debugging; that the conductor of
    [Conductor] uses the keystores of [Keystores], which it takes as a
    parameter; logging, metrics and tracing, which the rest does not depend on;
    binaries, test tools and the instrumented locks. *)

From stdpp Require Export base gmap sets list strings.
From stdpp Require Export sorting.
From Stdlib Require Export ZArith Lia.

(** ** Results and panics

    Rust's [Result], and the ways a call can end: returning a value, unwinding
    ([panic!], a failed [unwrap], an index out of range, a trap of the wasm
    machine) or, for the loops whose recursion is not structural, exhausting the
    fuel the model runs them with. *)

Inductive Result (E T : Type) : Type :=
| Ok (t : T)
| Err (e : E).

Arguments Ok {E T} t.
Arguments Err {E T} e.

Inductive Outcome (T : Type) : Type :=
| Ret (t : T)
| Panic
| NoFuel.

Arguments Ret {T} t.
Arguments Panic {T}.
Arguments NoFuel {T}.

#[export] Instance Result_ret {E} : MRet (Result E) := λ _ x, Ok x.
#[export] Instance Result_bind {E} : MBind (Result E) := λ _ _ f r,
  match r with Ok x => f x | Err e => Err e end.
#[export] Instance Result_fmap {E} : FMap (Result E) := λ _ _ f r,
  match r with Ok x => Ok (f x) | Err e => Err e end.
#[export] Instance Outcome_ret : MRet Outcome := λ _ x, Ret x.
#[export] Instance Outcome_bind : MBind Outcome := λ _ _ f r,
  match r with Ret x => f x | Panic => Panic | NoFuel => NoFuel end.
#[export] Instance Outcome_fmap : FMap Outcome := λ _ _ f r,
  match r with Ret x => Ret (f x) | Panic => Panic | NoFuel => NoFuel end.

#[export] Instance Result_eq_dec {E T} `{!EqDecision E, !EqDecision T} :
  EqDecision (Result E T).
Proof. solve_decision. Defined.

#[export] Instance Outcome_eq_dec {T} `{!EqDecision T} : EqDecision (Outcome T).
Proof. solve_decision. Defined.

(** [Result::map_err], [Result::ok], [Option::ok_or], [Option::unwrap]. *)
Definition map_err {E F T} (f : E → F) (r : Result E T) : Result F T :=
  match r with Ok x => Ok x | Err e => Err (f e) end.

Definition result_ok {E T} (r : Result E T) : option T :=
  match r with Ok x => Some x | Err _ => None end.

Definition ok_or {E T} (e : E) (o : option T) : Result E T :=
  match o with Some x => Ok x | None => Err e end.

Definition unwrap {T} (o : option T) : Outcome T :=
  match o with Some x => Ret x | None => Panic end.

Definition is_ok {E T} (r : Result E T) : bool :=
  match r with Ok _ => true | Err _ => false end.

(** ** Machine integers

    A [w]-bit unsigned integer is a [Z] in [0, 2^w); casts truncate. *)

Declare Scope hc_scope.
Delimit Scope hc_scope with hc.

Definition u16_wrap (z : Z) : Z := (z mod 2 ^ 16)%Z.
Definition u32_wrap (z : Z) : Z := (z mod 2 ^ 32)%Z.
Definition u64_wrap (z : Z) : Z := (z mod 2 ^ 64)%Z.

Definition is_u16 (z : Z) : Prop := (0 ≤ z < 2 ^ 16)%Z.
Definition is_u32 (z : Z) : Prop := (0 ≤ z < 2 ^ 32)%Z.
Definition is_u64 (z : Z) : Prop := (0 ≤ z < 2 ^ 64)%Z.

Notation "x +u32 y" := (u32_wrap (x + y)) (at level 50, left associativity) : hc_scope.

(** The development's hint database: lemmas that close side conditions. *)
Create HintDb hc.

Lemma u16_wrap_id z : is_u16 z → u16_wrap z = z.
Proof. unfold is_u16, u16_wrap. intros; apply Z.mod_small; lia. Qed.

Lemma u32_wrap_id z : is_u32 z → u32_wrap z = z.
Proof. unfold is_u32, u32_wrap. intros; apply Z.mod_small; lia. Qed.

Lemma u64_wrap_id z : is_u64 z → u64_wrap z = z.
Proof. unfold is_u64, u64_wrap. intros; apply Z.mod_small; lia. Qed.

Lemma is_u32_wrap z : is_u32 (u32_wrap z).
Proof. unfold is_u32, u32_wrap. apply Z.mod_pos_bound. lia. Qed.

#[export] Hint Resolve is_u32_wrap : hc.
Create Rewrite HintDb hc_wrap.
#[export] Hint Rewrite u16_wrap_id u32_wrap_id u64_wrap_id using (unfold is_u16, is_u32, is_u64 in *; lia) : hc_wrap.

(** The high and low halves of a word glued by shift and or are the sum of
    their arithmetic weights. *)
Lemma land_shiftl_low hi lo n :
  (0 ≤ n)%Z → (0 ≤ lo < 2 ^ n)%Z → Z.land (Z.shiftl hi n) lo = 0%Z.
Proof.
  intros Hn Hlo. apply Z.bits_inj'; intros m Hm. rewrite Z.land_spec, Z.bits_0.
  destruct (Z.lt_ge_cases m n) as [Hl|Hg].
  - rewrite Z.shiftl_spec_low by lia. done.
  - assert (Hlo' : Z.testbit lo m = false).
    { rewrite <- (Z.mod_small lo (2 ^ n)) by lia. apply Z.mod_pow2_bits_high. lia. }
    rewrite Hlo'. apply andb_false_r.
Qed.

Lemma lor_shiftl_add hi lo n :
  (0 ≤ n)%Z → (0 ≤ lo < 2 ^ n)%Z →
  Z.lor (Z.shiftl hi n) lo = (hi * 2 ^ n + lo)%Z.
Proof.
  intros Hn Hlo. rewrite <- Z.shiftl_mul_pow2 by lia.
  pose proof (land_shiftl_low hi lo n Hn Hlo) as Hland.
  rewrite Z.add_nocarry_lxor by done. symmetry. by apply Z.lxor_lor.
Qed.

(** ** Tactics *)

(** Case on the scrutinee of a [match] or [if] of the goal or of a hypothesis. *)
Ltac case_match_goal :=
  match goal with
  | |- context [ match ?x with _ => _ end ] => destruct x eqn:?
  end.

Ltac case_match_hyp H :=
  match type of H with
  | context [ match ?x with _ => _ end ] => destruct x eqn:?
  end.

(** Split every match of [H], closing the branches that contradict it. *)
Ltac cases_in H := repeat (case_match_hyp H; simplify_eq/=).

(** Unfold the monadic glue of the error monads. *)
Ltac unfold_monads :=
  unfold mret, mbind, fmap, Result_ret, Result_bind, Result_fmap,
    Outcome_ret, Outcome_bind, Outcome_fmap in *.

(** [lia] extended with the defining equations of [/] and [mod]. *)
Ltac div_lia := Z.div_mod_to_equations; lia.

(** ** Lists *)

Lemma list_filter_all {A} (P : A → Prop) `{!∀ x, Decision (P x)} (l : list A) :
  (∀ x, x ∈ l → P x) → filter P l = l.
Proof.
  induction l as [|x l IH]; [done|]. intros HP. rewrite filter_cons_True by set_solver.
  by rewrite IH by set_solver.
Qed.

(** [Iterator::find]: the first element with a property. *)
Definition find_by {A} (P : A → Prop) `{!∀ x, Decision (P x)} (l : list A) : option A :=
  snd <$> list_find P l.

Lemma find_by_Some {A} (P : A → Prop) `{!∀ x, Decision (P x)} l x :
  find_by P l = Some x → x ∈ l ∧ P x.
Proof.
  unfold find_by. intros ((i & ?) & (?%list_elem_of_lookup_2 & ? & ?)%list_find_Some & ->)%fmap_Some.
  done.
Qed.

Lemma find_by_is_Some {A} (P : A → Prop) `{!∀ x, Decision (P x)} l :
  is_Some (find_by P l) ↔ ∃ x, x ∈ l ∧ P x.
Proof.
  split.
  - intros [x ?%find_by_Some]. eauto.
  - intros (x & Hx & HP). unfold find_by. rewrite fmap_is_Some. by apply (list_find_elem_of P l x).
Qed.

Lemma find_by_None {A} (P : A → Prop) `{!∀ x, Decision (P x)} l :
  find_by P l = None ↔ ∀ x, x ∈ l → ¬ P x.
Proof.
  rewrite eq_None_not_Some, find_by_is_Some. naive_solver.
Qed.

(** With distinct keys, the element with a key is found by it. *)
Lemma find_by_key {A K} `{EqDecision K} (key : A → K) (l : list A) x :
  NoDup (key <$> l) → x ∈ l → find_by (λ y, key y = key x) l = Some x.
Proof.
  intros Hnd Hx. destruct (find_by_is_Some (λ y, key y = key x) l) as [_ [y Hy]]; [eauto|].
  rewrite Hy. apply find_by_Some in Hy as [Hin Hk]. f_equal.
  apply list_elem_of_lookup in Hx as [i Hi]. apply list_elem_of_lookup in Hin as [j Hj].
  assert (j = i) as ->; [|congruence].
  eapply NoDup_lookup; [exact Hnd| |]; rewrite list_lookup_fmap.
  - rewrite Hj. done.
  - rewrite Hi. cbn. by rewrite Hk.
Qed.

(** [for x in l { f(x)?; }]: stop at the first error. *)
Fixpoint try_each {E A} (f : A → Result E ()) (l : list A) : Result E () :=
  match l with
  | [] => Ok ()
  | x :: l => match f x with Ok _ => try_each f l | Err e => Err e end
  end.

Lemma try_each_ok {E A} (f : A → Result E ()) l :
  try_each f l = Ok () ↔ ∀ x, x ∈ l → f x = Ok ().
Proof.
  induction l as [|x l IH]; cbn; [set_solver|].
  destruct (f x) as [[]|e] eqn:Hf.
  - rewrite IH. set_solver.
  - split; [done|]. intros Hall. rewrite Hall in Hf by left. done.
Qed.

(** A sequence of two checks passes when both do. *)
Lemma bind_ok {E A B} (r : Result E A) (k : A → Result E B) b :
  r ≫= k = Ok b ↔ ∃ a, r = Ok a ∧ k a = Ok b.
Proof. destruct r; cbn; naive_solver. Qed.

Lemma map_err_ok {E F A} (f : E → F) (r : Result E A) a : map_err f r = Ok a ↔ r = Ok a.
Proof. destruct r; cbn; naive_solver. Qed.

Lemma ok_or_ok {E A} (e : E) (o : option A) a : ok_or e o = Ok a ↔ o = Some a.
Proof. destruct o; cbn; naive_solver. Qed.

(** [condition.ok_or_else(..)?]. *)
Definition ensure {E} (b : bool) (e : E) : Result E () := if b then Ok () else Err e.

Lemma ensure_ok {E} b (e : E) u : ensure b e = Ok u ↔ b = true.
Proof. destruct u, b; cbn; naive_solver. Qed.

Lemma ensure_decide_ok {E} (P : Prop) `{!Decision P} (e : E) u : ensure (bool_decide P) e = Ok u ↔ P.
Proof. by rewrite ensure_ok, bool_decide_eq_true. Qed.
