(* ===== verification/Errors.v ===== *)
(** * Errors of the core and their wasm encoding

    Models [src/crates/core_types/src/bits_n_pieces.rs] (splitting and merging
    the halves of machine words), [src/crates/core_types/src/error/mod.rs]
    ([HolochainError]), [error/dna_error.rs] and [error/ribosome_error.rs] (the
    64-bit code through which a zome function and the host exchange a success,
    an error or a memory allocation).  The theorems give the exact round-trip
    behaviour of the code: which values survive encoding and decoding. *)

From S2P Require Import Prelude.

Local Open Scope Z_scope.
Set Warnings "-register-all".

(** ** bits_n_pieces.rs *)

Definition U16_MAX : Z := 65535.
Definition U32_MAX : Z := 4294967295.

Definition u32_high_bits (i : Z) : Z := u16_wrap (Z.shiftr i 16).
Definition u32_low_bits (i : Z) : Z := u16_wrap i.
Definition u32_split_bits (i : Z) : Z * Z := (u32_high_bits i, u32_low_bits i).
Definition u32_merge_bits (high low : Z) : Z :=
  Z.lor (u32_wrap (Z.shiftl high 16)) low.

Definition u64_high_bits (i : Z) : Z := u32_wrap (Z.shiftr i 32).
Definition u64_low_bits (i : Z) : Z := u32_wrap i.
Definition u64_split_bits (i : Z) : Z * Z := (u64_high_bits i, u64_low_bits i).
Definition u64_merge_bits (high low : Z) : Z :=
  Z.lor (u64_wrap (Z.shiftl high 32)) low.

#[global] Arguments u32_split_bits : simpl never.
#[global] Arguments u64_split_bits : simpl never.
#[global] Arguments u64_merge_bits : simpl never.

(** ** Error types *)

Inductive DnaError : Type :=
| DnaError_ZomeNotFound (msg : string)
| DnaError_TraitNotFound (msg : string)
| DnaError_ZomeFunctionNotFound (msg : string).

Definition DnaError_fmt (e : DnaError) : string :=
  match e with
  | DnaError_ZomeNotFound err_msg => err_msg
  | DnaError_TraitNotFound err_msg => err_msg
  | DnaError_ZomeFunctionNotFound err_msg => err_msg
  end.

(** [lib3h_crypto_api::CryptoError] is a third-party type; the code uses it
    only through its [Display] string. *)
Record CryptoError : Type := { CryptoError_display : string }.

Inductive RibosomeErrorCode : Type :=
| Unspecified
| ArgumentDeserializationFailed
| OutOfMemory
| ReceivedWrongActionResult
| CallbackFailed
| RecursiveCallForbidden
| ResponseSerializationFailed
| NotAnAllocation
| ZeroSizedAllocation
| UnknownEntryType
| MismatchWasmCallDataType
| EntryNotFound
| WorkflowFailed.

#[export] Instance RibosomeErrorCode_eq_dec : EqDecision RibosomeErrorCode.
Proof. solve_decision. Defined.

Inductive HolochainError : Type :=
| HolochainError_ErrorGeneric (msg : string)
| HolochainError_CryptoError (e : CryptoError)
| HolochainError_CryptoServiceError (msg : string)
| HolochainError_NotImplemented (msg : string)
| HolochainError_LoggingError
| HolochainError_DnaMissing
| HolochainError_Dna (e : DnaError)
| HolochainError_IoError (msg : string)
| HolochainError_SerializationError (msg : string)
| HolochainError_InvalidOperationOnSysEntry
| HolochainError_CapabilityCheckFailed
| HolochainError_ValidationFailed (msg : string)
| HolochainError_ValidationPending
| HolochainError_Ribosome (code : RibosomeErrorCode)
| HolochainError_RibosomeFailed (msg : string)
| HolochainError_ConfigError (msg : string)
| HolochainError_Timeout (msg : string)
| HolochainError_InitializationFailed (msg : string)
| HolochainError_LifecycleError (msg : string)
| HolochainError_DnaHashMismatch (hash1 hash2 : string)
| HolochainError_EntryNotFoundLocally
| HolochainError_EntryIsPrivate
| HolochainError_List (errors : list HolochainError).

Definition HolochainError_new (msg : string) : HolochainError :=
  HolochainError_ErrorGeneric msg.

(** [RibosomeErrorCode as u64]: the discriminants of the enum. *)
Definition RibosomeErrorCode_discriminant (c : RibosomeErrorCode) : Z :=
  match c with
  | Unspecified => Z.shiftl 1 32
  | ArgumentDeserializationFailed => Z.shiftl 2 32
  | OutOfMemory => Z.shiftl 3 32
  | ReceivedWrongActionResult => Z.shiftl 4 32
  | CallbackFailed => Z.shiftl 5 32
  | RecursiveCallForbidden => Z.shiftl 6 32
  | ResponseSerializationFailed => Z.shiftl 7 32
  | NotAnAllocation => Z.shiftl 8 32
  | ZeroSizedAllocation => Z.shiftl 9 32
  | UnknownEntryType => Z.shiftl 10 32
  | MismatchWasmCallDataType => Z.shiftl 11 32
  | EntryNotFound => Z.shiftl 12 32
  | WorkflowFailed => Z.shiftl 13 32
  end.

Definition RibosomeErrorCode_as_str (c : RibosomeErrorCode) : string :=
  match c with
  | Unspecified => "Unspecified"
  | ArgumentDeserializationFailed => "Argument deserialization failed"
  | OutOfMemory => "Out of memory"
  | ReceivedWrongActionResult => "Received wrong action result"
  | CallbackFailed => "Callback failed"
  | RecursiveCallForbidden => "Recursive call forbidden"
  | ResponseSerializationFailed => "Response serialization failed"
  | NotAnAllocation => "Not an allocation"
  | ZeroSizedAllocation => "Zero-sized allocation"
  | UnknownEntryType => "Unknown entry type"
  | MismatchWasmCallDataType => "Mismatched WasmCallData type"
  | EntryNotFound => "Entry Could Not Be Found"
  | WorkflowFailed => "Workflow failed"
  end.

(** [impl Display for HolochainError]; the list variant joins its errors with
    newlines. *)
Fixpoint HolochainError_fmt (e : HolochainError) : string :=
  match e with
  | HolochainError_ErrorGeneric err_msg => err_msg
  | HolochainError_CryptoError crypto_error => CryptoError_display crypto_error
  | HolochainError_CryptoServiceError service_error => service_error
  | HolochainError_NotImplemented description => "not implemented: " +:+ description
  | HolochainError_LoggingError => "logging failed"
  | HolochainError_DnaMissing => "DNA is missing"
  | HolochainError_Dna dna_err => DnaError_fmt dna_err
  | HolochainError_IoError err_msg => err_msg
  | HolochainError_SerializationError err_msg => err_msg
  | HolochainError_InvalidOperationOnSysEntry =>
      "operation cannot be done on a system entry type"
  | HolochainError_CapabilityCheckFailed =>
      "Caller does not have Capability to make that call"
  | HolochainError_ValidationFailed fail_msg => fail_msg
  | HolochainError_ValidationPending => "Entry validation could not be completed"
  | HolochainError_Ribosome err_code => RibosomeErrorCode_as_str err_code
  | HolochainError_RibosomeFailed fail_msg => fail_msg
  | HolochainError_ConfigError err_msg => err_msg
  | HolochainError_Timeout s => "timeout " +:+ s
  | HolochainError_InitializationFailed err_msg => err_msg
  | HolochainError_LifecycleError err_msg => err_msg
  | HolochainError_DnaHashMismatch hash1 hash2 =>
      "Provided DNA hash does not match actual DNA hash! " +:+ hash1 +:+ " != " +:+ hash2
  | HolochainError_EntryNotFoundLocally =>
      "The requested entry could not be found locally"
  | HolochainError_EntryIsPrivate =>
      "The requested entry is private and should not be shared via gossip"
  | HolochainError_List l =>
      "A list of errors has been generated " +:+
      String.concat (String (Ascii.ascii_of_nat 10) EmptyString) (map HolochainError_fmt l)
  end.

Definition RibosomeErrorCode_from_error (error : HolochainError) : RibosomeErrorCode :=
  match error with
  | HolochainError_ErrorGeneric _ => Unspecified
  | HolochainError_CryptoError _ => Unspecified
  | HolochainError_CryptoServiceError _ => Unspecified
  | HolochainError_NotImplemented _ => CallbackFailed
  | HolochainError_LoggingError => Unspecified
  | HolochainError_DnaMissing => Unspecified
  | HolochainError_Dna _ => Unspecified
  | HolochainError_IoError _ => Unspecified
  | HolochainError_SerializationError _ => ArgumentDeserializationFailed
  | HolochainError_InvalidOperationOnSysEntry => UnknownEntryType
  | HolochainError_CapabilityCheckFailed => Unspecified
  | HolochainError_ValidationFailed _ => CallbackFailed
  | HolochainError_ValidationPending => Unspecified
  | HolochainError_Ribosome e => e
  | HolochainError_RibosomeFailed _ => CallbackFailed
  | HolochainError_ConfigError _ => Unspecified
  | HolochainError_Timeout _ => Unspecified
  | HolochainError_InitializationFailed _ => Unspecified
  | HolochainError_LifecycleError _ => Unspecified
  | HolochainError_DnaHashMismatch _ _ => Unspecified
  | HolochainError_EntryNotFoundLocally => Unspecified
  | HolochainError_EntryIsPrivate => Unspecified
  | HolochainError_List _ => Unspecified
  end.

(** [from_code_int] panics on 0. *)
Definition RibosomeErrorCode_from_code_int (code : Z) : Outcome RibosomeErrorCode :=
  match code with
  | 0 => Panic
  | 2 => Ret ArgumentDeserializationFailed
  | 3 => Ret OutOfMemory
  | 4 => Ret ReceivedWrongActionResult
  | 5 => Ret CallbackFailed
  | 6 => Ret RecursiveCallForbidden
  | 7 => Ret ResponseSerializationFailed
  | 8 => Ret NotAnAllocation
  | 9 => Ret ZeroSizedAllocation
  | 10 => Ret UnknownEntryType
  | 12 => Ret EntryNotFound
  | 13 => Ret WorkflowFailed
  | _ => Ret Unspecified
  end.

Definition RibosomeErrorCode_from_str (s : string) : Result HolochainError RibosomeErrorCode :=
  match s with
  | "Unspecified" => Ok Unspecified
  | "Argument deserialization failed" => Ok ArgumentDeserializationFailed
  | "Out of memory" => Ok OutOfMemory
  | "Received wrong action result" => Ok ReceivedWrongActionResult
  | "Callback failed" => Ok CallbackFailed
  | "Recursive call forbidden" => Ok RecursiveCallForbidden
  | "Response serialization failed" => Ok ResponseSerializationFailed
  | "Not an allocation" => Ok NotAnAllocation
  | "Zero-sized allocation" => Ok ZeroSizedAllocation
  | "Unknown entry type" => Ok UnknownEntryType
  | "Entry Could Not Be Found" => Ok EntryNotFound
  | "Workflow failed" => Ok WorkflowFailed
  | _ => Err (HolochainError_ErrorGeneric "Unknown RibosomeErrorCode")
  end%string.

(** ** The encoded value exchanged with wasm *)

Record RibosomeEncodedAllocation : Type := { encoded_allocation_bits : Z }.

Inductive RibosomeEncodedValue : Type :=
| Success
| Allocation (a : RibosomeEncodedAllocation)
| Failure (c : RibosomeErrorCode).

Definition RibosomeEncodedValue_to_bits (v : RibosomeEncodedValue) : Z :=
  match v with
  | Success => 0
  | Allocation allocation => encoded_allocation_bits allocation
  | Failure code => RibosomeErrorCode_discriminant code
  end.

Definition RibosomeEncodedValue_from_bits (i : Z) : Outcome RibosomeEncodedValue :=
  if Z.eqb i 0 then Ret Success
  else
    let '(code_int, maybe_allocation_length) := u64_split_bits i in
    if Z.eqb maybe_allocation_length 0 then
      c ← RibosomeErrorCode_from_code_int code_int; Ret (Failure c)
    else Ret (Allocation {| encoded_allocation_bits := i |}).

(** [i64] view of the same bits, as wasm sees it. *)
Definition RibosomeEncodedValue_to_runtime_bits (v : RibosomeEncodedValue) : Z :=
  let bits := RibosomeEncodedValue_to_bits v in
  if Z.ltb bits (2 ^ 63) then bits else bits - 2 ^ 64.

Definition RibosomeEncodedValue_from_error (error : HolochainError) : RibosomeEncodedValue :=
  Failure (RibosomeErrorCode_from_error error).

Definition RibosomeErrorCode_from_return_code (ret_code : RibosomeEncodedValue) :
    Outcome RibosomeErrorCode :=
  match ret_code with
  | Failure rib_err => Ret rib_err
  | _ => Panic
  end.

(** [FromStr for RibosomeEncodedValue]. *)
Definition RibosomeEncodedValue_from_str (s : string) :
    Result HolochainError RibosomeEncodedValue :=
  match s with
  | "Success"%string => Ok Success
  | _ => c ← RibosomeErrorCode_from_str s; Ok (Failure c)
  end.

(** ** Theorems *)

Lemma u64_merge_bits_add h l :
  is_u32 h → is_u32 l → u64_merge_bits h l = h * 2 ^ 32 + l.
Proof.
  unfold is_u32; intros Hh Hl. unfold u64_merge_bits.
  rewrite u64_wrap_id; [apply lor_shiftl_add; lia|].
  rewrite Z.shiftl_mul_pow2 by lia. unfold is_u64. lia.
Qed.

Lemma u32_merge_bits_add h l :
  is_u16 h → is_u16 l → u32_merge_bits h l = h * 2 ^ 16 + l.
Proof.
  unfold is_u16; intros Hh Hl. unfold u32_merge_bits.
  rewrite u32_wrap_id; [apply lor_shiftl_add; lia|].
  rewrite Z.shiftl_mul_pow2 by lia. unfold is_u32. lia.
Qed.

Lemma u64_high_bits_div i : is_u64 i → u64_high_bits i = i / 2 ^ 32.
Proof.
  unfold is_u64, u64_high_bits; intros Hi. rewrite Z.shiftr_div_pow2 by lia.
  apply u32_wrap_id. unfold is_u32. div_lia.
Qed.

Lemma u32_high_bits_div i : is_u32 i → u32_high_bits i = i / 2 ^ 16.
Proof.
  unfold is_u32, u32_high_bits; intros Hi. rewrite Z.shiftr_div_pow2 by lia.
  apply u16_wrap_id. unfold is_u16. div_lia.
Qed.

Lemma u64_merge_bits_range h l : is_u32 h → is_u32 l → is_u64 (u64_merge_bits h l).
Proof. intros. rewrite u64_merge_bits_add by done. unfold is_u32, is_u64 in *. lia. Qed.

Lemma u64_split_merge h l :
  is_u32 h → is_u32 l → u64_split_bits (u64_merge_bits h l) = (h, l).
Proof.
  intros Hh Hl. pose proof (u64_merge_bits_range h l Hh Hl) as Hr.
  unfold u64_split_bits, u64_low_bits. rewrite u64_high_bits_div by done.
  rewrite u64_merge_bits_add by done. unfold is_u32, u32_wrap in *. f_equal; div_lia.
Qed.

Lemma u64_merge_split i :
  is_u64 i → u64_merge_bits (u64_split_bits i).1 (u64_split_bits i).2 = i.
Proof.
  intros Hi. unfold u64_split_bits; simpl.
  rewrite u64_merge_bits_add by (unfold u64_high_bits, u64_low_bits; apply is_u32_wrap).
  rewrite u64_high_bits_div by done. unfold u64_low_bits, u32_wrap, is_u64 in *. div_lia.
Qed.

Lemma u32_split_merge h l :
  is_u16 h → is_u16 l → u32_split_bits (u32_merge_bits h l) = (h, l).
Proof.
  intros Hh Hl. unfold u32_split_bits, u32_low_bits.
  rewrite u32_high_bits_div, u32_merge_bits_add by
    (rewrite ?u32_merge_bits_add by done; unfold is_u16, is_u32 in *; lia || done).
  unfold is_u16, u16_wrap in *. f_equal; div_lia.
Qed.

Lemma u32_merge_split i :
  is_u32 i → u32_merge_bits (u32_split_bits i).1 (u32_split_bits i).2 = i.
Proof.
  intros Hi. unfold u32_split_bits; simpl.
  rewrite u32_merge_bits_add by
    (unfold u32_high_bits, u32_low_bits, is_u16, u16_wrap; apply Z.mod_pos_bound; lia).
  rewrite u32_high_bits_div by done. unfold u32_low_bits, u16_wrap, is_u32 in *. div_lia.
Qed.

#[export] Hint Resolve u64_merge_bits_range u64_split_merge u64_merge_split : hc.

Lemma discriminant_split c :
  ∃ k, 1 ≤ k ≤ 13 ∧ u64_split_bits (RibosomeErrorCode_discriminant c) = (k, 0) ∧
       RibosomeErrorCode_discriminant c = k * 2 ^ 32.
Proof. destruct c; vm_compute; eexists; repeat split; congruence. Qed.

Lemma from_code_int_total k :
  k ≠ 0 → ∃ c, RibosomeErrorCode_from_code_int k = Ret c.
Proof. intros Hk. unfold RibosomeErrorCode_from_code_int. repeat case_match; eauto; done. Qed.

(** The code that survives the trip of [c] through the wasm boundary. *)
Definition surviving_code (c : RibosomeErrorCode) : RibosomeErrorCode :=
  if decide (c = MismatchWasmCallDataType) then Unspecified else c.

(** Splitting a 64-bit word and merging its halves are inverse to each
    other: [u64_split_bits] undoes [u64_merge_bits] on every pair of 32-bit
    halves, [u64_merge_bits] undoes [u64_split_bits] on every 64-bit word, and
    likewise for the 32-bit functions and 16-bit halves. *)
Theorem split_merge_inverse :
  (∀ h l, is_u32 h → is_u32 l → u64_split_bits (u64_merge_bits h l) = (h, l)) ∧
  (∀ i, is_u64 i → u64_merge_bits (u64_split_bits i).1 (u64_split_bits i).2 = i) ∧
  (∀ h l, is_u16 h → is_u16 l → u32_split_bits (u32_merge_bits h l) = (h, l)) ∧
  (∀ i, is_u32 i → u32_merge_bits (u32_split_bits i).1 (u32_split_bits i).2 = i).
Proof.
  split_and!; auto using u64_split_merge, u64_merge_split, u32_split_merge, u32_merge_split.
Qed.

(** What an error code becomes when it is returned to wasm as a 64-bit
    value and decoded on the other side.  Every code but
    [MismatchWasmCallDataType] comes back unchanged; that one is decoded as
    [Unspecified], because [from_code_int] has no case for 11.  The string form
    behaves the same way: it parses back for every code but that one. *)
Theorem error_code_round_trip : ∀ c,
  RibosomeEncodedValue_from_bits (RibosomeEncodedValue_to_bits (Failure c)) =
    Ret (Failure (surviving_code c)) ∧
  (RibosomeErrorCode_from_str (RibosomeErrorCode_as_str c) = Ok c ↔
     c ≠ MismatchWasmCallDataType).
Proof. intros []; vm_compute; split; done || (split; congruence). Qed.

Lemma from_bits_total i :
  is_u64 i → ∃ v, RibosomeEncodedValue_from_bits i = Ret v.
Proof.
  intros Hi. unfold RibosomeEncodedValue_from_bits.
  destruct (Z.eqb_spec i 0) as [->|Hne]; [eauto|].
  destruct (u64_split_bits i) as [h l] eqn:Hs.
  destruct (Z.eqb_spec l 0) as [->|Hl]; [|eauto].
  destruct (from_code_int_total h) as [c ->]; [|simpl; eauto].
  intros ->. apply Hne. rewrite <- (u64_merge_split i) by done. by rewrite Hs.
Qed.

(** Decoding is total on 64-bit values: the panic of [from_code_int] on a
    zero code is unreachable from [RibosomeEncodedValue::from].  Moreover a
    value decoded as success or as an allocation re-encodes to the bits it came
    from, and a value is decoded as an allocation exactly when its low half
    (the length) is not zero. *)
Theorem encoded_value_decoding i :
  is_u64 i →
  ∃ v, RibosomeEncodedValue_from_bits i = Ret v ∧
       ((∀ c, v ≠ Failure c) → RibosomeEncodedValue_to_bits v = i) ∧
       (u64_low_bits i ≠ 0 ↔ v = Allocation {| encoded_allocation_bits := i |}).
Proof.
  intros Hi. destruct (from_bits_total i Hi) as [v Hv]. exists v. split; [done|].
  unfold RibosomeEncodedValue_from_bits in Hv. change (u64_low_bits i) with (u64_split_bits i).2.
  destruct (Z.eqb_spec i 0) as [->|Hne]; [naive_solver|].
  destruct (u64_split_bits i) as [h l] eqn:Hs; simpl.
  destruct (Z.eqb_spec l 0) as [->|Hl]; [|naive_solver].
  unfold_monads. case_match; simplify_eq. split; [|split]; congruence || naive_solver.
Qed.

Lemma encoded_value_decoding_witness :
  ∃ v, RibosomeEncodedValue_from_bits (Z.shiftl 7 32 + 5) = Ret v ∧
       ((∀ c, v ≠ Failure c) → RibosomeEncodedValue_to_bits v = Z.shiftl 7 32 + 5) ∧
       (u64_low_bits (Z.shiftl 7 32 + 5) ≠ 0 ↔
          v = Allocation {| encoded_allocation_bits := Z.shiftl 7 32 + 5 |}).
Proof. apply (encoded_value_decoding (Z.shiftl 7 32 + 5)). vm_compute. split; congruence. Defined.
