(* ===== verification/WasmMemory.v ===== *)
(** * The wasm memory stack of zomes

    Models [src/crates/wasm_utils/src/memory/]: allocations
    ([allocation.rs]), the stack they live on ([stack.rs]), their 64-bit
    encoding ([ribosome.rs]) and the reads and writes of strings through them
    ([read.rs], [write.rs]).

    Offsets and lengths are [u32] values, kept as [Z]; the linear memory is the
    list of its bytes, so that an access past its end is a trap ([Panic]).
    Strings are the list of their UTF-8 bytes.

    The theorems: an allocation value always denotes a non-empty range inside
    the 32-bit address space; its encoding round-trips in both directions; the
    stack implements an abstract stack of contiguous allocations; a string
    written to fresh memory is read back; and a string followed by another one
    is not, because reads run to the next NUL byte and ignore the length. *)

From S2P Require Import Prelude Errors.

Local Open Scope Z_scope.
Local Open Scope hc_scope.

Definition MEMORY_INT_MAX : Z := U32_MAX.

(** ** allocation.rs *)

Inductive AllocationError : Type :=
| OutOfBounds
| ZeroLength
| BadStackAlignment
| Serialization.

#[export] Instance AllocationError_eq_dec : EqDecision AllocationError.
Proof. solve_decision. Defined.

Definition AllocationError_to_string (allocation_error : AllocationError) : string :=
  match allocation_error with
  | OutOfBounds => "Allocation out of bounds"
  | ZeroLength => "Allocation is zero length"
  | BadStackAlignment => "Allocation not aligned with stack"
  | Serialization => "Allocation could not serialize data"
  end.

Definition AllocationError_to_HolochainError (e : AllocationError) : HolochainError :=
  HolochainError_ErrorGeneric (AllocationError_to_string e).

Record WasmAllocation : Type := { offset : Z; length_ : Z }.

#[export] Instance WasmAllocation_eq_dec : EqDecision WasmAllocation.
Proof. solve_decision. Defined.

(** [WasmAllocation::new]; the sum is computed in 64 bits. *)
Definition WasmAllocation_new (offset length : Z) : Result AllocationError WasmAllocation :=
  if Z.ltb MEMORY_INT_MAX (offset + length) then Err OutOfBounds
  else if Z.eqb length 0 then Err ZeroLength
  else Ok {| offset := offset; length_ := length |}.

(** ** stack.rs *)

Record WasmStack : Type := { top : Z }.

Definition WasmStack_max : Z := MEMORY_INT_MAX.
Definition WasmStack_min : Z := 0.
Definition WasmStack_new : WasmStack := {| top := WasmStack_min |}.

Definition next_allocation (self : WasmStack) (length : Z) :
    Result AllocationError WasmAllocation :=
  WasmAllocation_new (top self) length.

(** [&mut self] methods return the result and the stack afterwards. *)
Definition allocate (self : WasmStack) (allocation : WasmAllocation) :
    Result AllocationError Z * WasmStack :=
  if negb (Z.eqb (top self) (offset allocation)) then (Err BadStackAlignment, self)
  else if Z.ltb WasmStack_max (top self + length_ allocation) then (Err OutOfBounds, self)
  else (Ok (top self), {| top := offset allocation +u32 length_ allocation |}).

Definition deallocate (self : WasmStack) (allocation : WasmAllocation) :
    Result AllocationError Z * WasmStack :=
  if negb (Z.eqb (top self) (offset allocation +u32 length_ allocation)) then
    (Err BadStackAlignment, self)
  else if Z.ltb (offset allocation) WasmStack_min then (Err OutOfBounds, self)
  else (Ok (top self), {| top := offset allocation |}).

Definition WasmStack_try_from (allocation : WasmAllocation) :
    Result AllocationError WasmStack :=
  let stack := {| top := offset allocation |} in
  match allocate stack allocation with
  | (Err e, _) => Err e
  | (Ok _, stack) => Ok stack
  end.

(** ** ribosome.rs *)

Definition WasmAllocation_try_from (a : RibosomeEncodedAllocation) :
    Result AllocationError WasmAllocation :=
  let '(offset, length) := u64_split_bits (encoded_allocation_bits a) in
  WasmAllocation_new offset length.

Definition RibosomeEncodedAllocation_from (a : WasmAllocation) : RibosomeEncodedAllocation :=
  {| encoded_allocation_bits := u64_merge_bits (offset a) (length_ a) |}.

Definition RibosomeErrorCode_from_allocation_error (e : AllocationError) : RibosomeErrorCode :=
  match e with
  | OutOfBounds => OutOfMemory
  | ZeroLength => ZeroSizedAllocation
  | BadStackAlignment => NotAnAllocation
  | Serialization => NotAnAllocation
  end.

Definition AllocationError_as_ribosome_encoding (e : AllocationError) : Z :=
  RibosomeEncodedValue_to_bits (Failure (RibosomeErrorCode_from_allocation_error e)).

Definition WasmAllocation_try_from_ribosome_encoding (encoded_value : Z) :
    Outcome (Result AllocationError WasmAllocation) :=
  v ← RibosomeEncodedValue_from_bits encoded_value;
  Ret match v with
      | Success => Err ZeroLength
      | Failure _ => Err OutOfBounds
      | Allocation ribosome_allocation => WasmAllocation_try_from ribosome_allocation
      end.

Definition WasmAllocation_as_ribosome_encoding (self : WasmAllocation) : Z :=
  RibosomeEncodedValue_to_bits (Allocation (RibosomeEncodedAllocation_from self)).

Definition WasmStack_try_from_ribosome_encoding (maybe_encoded_allocation : Z) :
    Outcome (Result RibosomeEncodedValue WasmStack) :=
  r ← WasmAllocation_try_from_ribosome_encoding maybe_encoded_allocation;
  match (a ← r; WasmStack_try_from a) with
  | Ok stack => Ret (Ok stack)
  | Err e =>
      v ← RibosomeEncodedValue_from_bits (AllocationError_as_ribosome_encoding e);
      Ret (Err v)
  end.

Definition return_code_for_allocation_result (result : Result AllocationError WasmAllocation) :
    RibosomeEncodedValue :=
  match result with
  | Ok allocation => Allocation (RibosomeEncodedAllocation_from allocation)
  | Err allocation_error => Failure (RibosomeErrorCode_from_allocation_error allocation_error)
  end.

(** ** read.rs and write.rs *)

(** [CStr::from_ptr]: the bytes up to the next NUL; running off the end of the
    memory traps. *)
Fixpoint cstr_bytes (mem : list Z) : option (list Z) :=
  match mem with
  | [] => None
  | b :: rest => if Z.eqb b 0 then Some [] else cons b <$> cstr_bytes rest
  end.

(** A UTF-8 continuation byte. *)
Definition utf8_cont (b : Z) : bool := Z.leb 128 b && Z.leb b 191.

(** [str::from_utf8] accepts exactly the well-formed UTF-8 sequences. *)
Fixpoint utf8_valid (bs : list Z) : bool :=
  match bs with
  | [] => true
  | b :: bs1 =>
      if Z.leb 0 b && Z.leb b 127 then utf8_valid bs1
      else if Z.leb 194 b && Z.leb b 223 then
        match bs1 with c1 :: r => utf8_cont c1 && utf8_valid r | _ => false end
      else if Z.leb 224 b && Z.leb b 239 then
        match bs1 with
        | c1 :: c2 :: r =>
            utf8_cont c1 && utf8_cont c2 &&
            (negb (Z.eqb b 224) || Z.leb 160 c1) && (negb (Z.eqb b 237) || Z.leb c1 159) &&
            utf8_valid r
        | _ => false
        end
      else if Z.leb 240 b && Z.leb b 244 then
        match bs1 with
        | c1 :: c2 :: c3 :: r =>
            utf8_cont c1 && utf8_cont c2 && utf8_cont c3 &&
            (negb (Z.eqb b 240) || Z.leb 144 c1) && (negb (Z.eqb b 244) || Z.leb c1 143) &&
            utf8_valid r
        | _ => false
        end
      else false
  end.

Definition read_to_string (mem : list Z) (self : WasmAllocation) : Outcome (list Z) :=
  bs ← unwrap (cstr_bytes (drop (Z.to_nat (offset self)) mem));
  if utf8_valid bs then Ret bs else Panic.

(** The copying loop: [i] is the index of the next byte of the slice of
    [length] bytes at [ptr]; an index out of the slice panics, an address out
    of the memory traps. *)
Fixpoint write_bytes (mem : list Z) (ptr length i : nat) (bytes : list Z) : Outcome (list Z) :=
  match bytes with
  | [] => Ret mem
  | byte :: rest =>
      if Nat.ltb i length && Nat.ltb (ptr + i) (List.length mem) then
        write_bytes (<[(ptr + i)%nat := byte]> mem) ptr length (S i) rest
      else Panic
  end.

Definition write_in_wasm_memory (self : WasmStack) (mem : list Z) (bytes : list Z) (length : Z) :
    Outcome (Result AllocationError WasmAllocation * WasmStack * list Z) :=
  match next_allocation self length with
  | Err e => Ret (Err e, self, mem)
  | Ok next =>
      match allocate self next with
      | (Err e, self) => Ret (Err e, self, mem)
      | (Ok ptr, self) =>
          mem ← write_bytes mem (Z.to_nat ptr) (Z.to_nat length) 0 bytes;
          Ret (WasmAllocation_new ptr length, self, mem)
      end
  end.

Definition write_string (self : WasmStack) (mem : list Z) (bytes : list Z) :
    Outcome (Result AllocationError WasmAllocation * WasmStack * list Z) :=
  let length := u32_wrap (Z.of_nat (Nat.max (List.length bytes) 1)) in
  if Z.ltb WasmStack_max length then Ret (Err OutOfBounds, self, mem)
  else write_in_wasm_memory self mem bytes length.

(** [write_json]: serialization ([try_into] a [JsonString]) is a third-party
    call whose result is the argument [json]. *)
Definition write_json (self : WasmStack) (mem : list Z) (json : option (list Z)) :
    Outcome (Result AllocationError WasmAllocation * WasmStack * list Z) :=
  match json with
  | None => Ret (Err Serialization, self, mem)
  | Some json_bytes =>
      let json_bytes_len := u32_wrap (Z.of_nat (Nat.max (List.length json_bytes) 1)) in
      if Z.ltb WasmStack_max json_bytes_len then Ret (Err OutOfBounds, self, mem)
      else write_in_wasm_memory self mem json_bytes json_bytes_len
  end.

Definition load_ribosome_encoded_string (mem : list Z) (encoded_value : Z) :
    Outcome (Result HolochainError (list Z)) :=
  v ← RibosomeEncodedValue_from_bits encoded_value;
  match v with
  | Success => Ret (Err (HolochainError_Ribosome ZeroSizedAllocation))
  | Failure err_code => Ret (Err (HolochainError_Ribosome err_code))
  | Allocation ribosome_allocation =>
      match WasmAllocation_try_from ribosome_allocation with
      | Err e => Ret (Err (AllocationError_to_HolochainError e))
      | Ok a => s ← read_to_string mem a; Ret (Ok s)
      end
  end.

(** ** Allocations *)

(** The values [WasmAllocation::new] builds: a non-empty range of addresses
    whose end is a 32-bit address. *)
Record wf_allocation (a : WasmAllocation) : Prop := {
  wf_offset : 0 ≤ offset a;
  wf_length : 0 < length_ a;
  wf_end : offset a + length_ a ≤ U32_MAX;
}.

Lemma WasmAllocation_new_ok o l :
  0 ≤ o → 0 < l → o + l ≤ U32_MAX →
  WasmAllocation_new o l = Ok {| offset := o; length_ := l |}.
Proof.
  intros. unfold WasmAllocation_new, MEMORY_INT_MAX.
  destruct (Z.ltb_spec U32_MAX (o + l)); [lia|].
  destruct (Z.eqb_spec l 0); [lia|done].
Qed.

Lemma WasmAllocation_new_inv o l a :
  0 ≤ o → 0 ≤ l → WasmAllocation_new o l = Ok a →
  a = {| offset := o; length_ := l |} ∧ wf_allocation a.
Proof.
  unfold WasmAllocation_new, MEMORY_INT_MAX. intros Ho Hl H.
  destruct (Z.ltb_spec U32_MAX (o + l)); [done|].
  destruct (Z.eqb_spec l 0); simplify_eq. split; [done|]. constructor; simpl; lia.
Qed.

Lemma wf_allocation_u32 a : wf_allocation a → is_u32 (offset a) ∧ is_u32 (length_ a).
Proof. intros []. unfold U32_MAX, is_u32 in *. lia. Qed.

Lemma wf_end_u32 a : wf_allocation a → offset a +u32 length_ a = offset a + length_ a.
Proof. intros []. apply u32_wrap_id. unfold U32_MAX, is_u32 in *. lia. Qed.

#[export] Hint Resolve wf_allocation_u32 : hc.

(** An allocation decoded from 64 bits is well-formed and encodes back to
    them. *)
Lemma decode_encode_allocation i a :
  is_u64 i → WasmAllocation_try_from_ribosome_encoding i = Ret (Ok a) →
  wf_allocation a ∧ WasmAllocation_as_ribosome_encoding a = i.
Proof.
  intros Hi. unfold WasmAllocation_try_from_ribosome_encoding, RibosomeEncodedValue_from_bits.
  destruct (Z.eqb_spec i 0); [by intros|].
  destruct (u64_split_bits i) as [h l] eqn:Hs.
  destruct (Z.eqb_spec l 0).
  { unfold_monads. destruct (RibosomeErrorCode_from_code_int h); by intros. }
  unfold_monads. unfold WasmAllocation_try_from; cbn [encoded_allocation_bits]. rewrite Hs. intros [= H].
  assert (is_u32 h ∧ is_u32 l) as [Hh Hl].
  { unfold u64_split_bits, u64_high_bits, u64_low_bits in Hs. simplify_eq.
    split; apply is_u32_wrap. }
  apply WasmAllocation_new_inv in H as [-> Hwf]; [|unfold is_u32 in *; lia..].
  split; [done|]. unfold WasmAllocation_as_ribosome_encoding; simpl.
  pose proof (u64_merge_split i Hi) as Hm. by rewrite Hs in Hm.
Qed.

Lemma encode_decode_allocation a :
  wf_allocation a →
  WasmAllocation_try_from_ribosome_encoding (WasmAllocation_as_ribosome_encoding a) = Ret (Ok a).
Proof.
  intros Hwf. destruct (wf_allocation_u32 a Hwf) as [Ho Hl].
  unfold WasmAllocation_try_from_ribosome_encoding, WasmAllocation_as_ribosome_encoding,
    RibosomeEncodedValue_from_bits; cbn [RibosomeEncodedValue_to_bits RibosomeEncodedAllocation_from
      encoded_allocation_bits].
  pose proof (u64_split_merge _ _ Ho Hl) as Hs. rewrite Hs.
  pose proof (u64_merge_bits_add _ _ Ho Hl) as Hm. destruct Hwf as [? ? ?].
  destruct (Z.eqb_spec (u64_merge_bits (offset a) (length_ a)) 0); [unfold is_u32 in *; lia|].
  destruct (Z.eqb_spec (length_ a) 0); [lia|].
  unfold_monads. unfold WasmAllocation_try_from; cbn [encoded_allocation_bits]. rewrite Hs.
  rewrite WasmAllocation_new_ok by lia. by destruct a.
Qed.

(** The 64-bit encoding of allocations is a bijection between the
    well-formed allocations and the words that decode to an allocation: every
    well-formed allocation survives encoding and decoding, and every word that
    decodes to an allocation yields a well-formed one that encodes to the same
    word. *)
Theorem allocation_encoding_bijection :
  (∀ a, wf_allocation a →
     WasmAllocation_try_from_ribosome_encoding (WasmAllocation_as_ribosome_encoding a) =
       Ret (Ok a)) ∧
  (∀ i a, is_u64 i → WasmAllocation_try_from_ribosome_encoding i = Ret (Ok a) →
     wf_allocation a ∧ WasmAllocation_as_ribosome_encoding a = i).
Proof. split; eauto using encode_decode_allocation, decode_encode_allocation. Qed.

(** ** The stack as an abstract stack of allocations *)

(** [l] lists the live allocations, the most recent first: each starts where
    the previous one ends, the oldest at the stack's base. *)
Fixpoint stack_rep (t base : Z) (l : list WasmAllocation) : Prop :=
  match l with
  | [] => t = base
  | a :: l => wf_allocation a ∧ offset a + length_ a = t ∧ stack_rep (offset a) base l
  end.

Lemma stack_rep_base t base l : stack_rep t base l → base ≤ t.
Proof.
  revert t. induction l as [|a l IH]; simpl; intros t; [lia|].
  intros (Hwf & <- & Hl). apply IH in Hl. destruct Hwf. lia.
Qed.

Lemma stack_rep_bounds t base l a :
  stack_rep t base l → a ∈ l → base ≤ offset a ∧ offset a + length_ a ≤ t.
Proof.
  revert t. induction l as [|b l IH]; simpl; intros t; [set_solver|].
  intros (Hwf & <- & Hl) [->|Ha]%elem_of_cons.
  - apply stack_rep_base in Hl. lia.
  - destruct (IH _ Hl Ha). destruct Hwf. lia.
Qed.

Lemma allocate_next s len a base l :
  stack_rep (top s) base l → 0 ≤ base → 0 ≤ len → next_allocation s len = Ok a →
  ∃ s', allocate s a = (Ok (top s), s') ∧ stack_rep (top s') base (a :: l).
Proof.
  intros Hl Hb Hlen Hn. apply stack_rep_base in Hl as Htop.
  apply WasmAllocation_new_inv in Hn as [-> Hwf]; [|lia..].
  pose proof (wf_end_u32 _ Hwf) as Hend. destruct Hwf as [? ? He]; simpl in *.
  unfold allocate; simpl. rewrite Z.eqb_refl; simpl.
  destruct (Z.ltb_spec WasmStack_max (top s + len));
    [unfold WasmStack_max, MEMORY_INT_MAX in *; lia|].
  eexists; split; [done|]. simpl. rewrite Hend. by repeat split.
Qed.

Lemma deallocate_aligned s a :
  wf_allocation a →
  deallocate s a =
    if Z.eqb (top s) (offset a + length_ a) then (Ok (top s), {| top := offset a |})
    else (Err BadStackAlignment, s).
Proof.
  intros Hwf. unfold deallocate. rewrite wf_end_u32 by done.
  destruct (Z.eqb _ _); simpl; [|done].
  destruct (Z.ltb_spec (offset a) WasmStack_min); [|done].
  destruct Hwf. unfold WasmStack_min in *. lia.
Qed.

Lemma stack_rep_wf t base l a : stack_rep t base l → a ∈ l → wf_allocation a.
Proof.
  revert t. induction l as [|b l IH]; simpl; intros t; [set_solver|].
  intros (? & ? & ?) [->|?]%elem_of_cons; eauto.
Qed.

(** the stack implements an abstract stack of allocations.  If the live
    allocations [l] tile the addresses from [base] to the top, then: allocating
    the next [len] bytes fails exactly when [len] is zero or the end would pass
    the 32-bit range, and otherwise pushes an allocation disjoint from (above)
    every live one, the top staying a 32-bit address; and deallocating a live
    allocation succeeds exactly when it is the most recent one, which it pops,
    and otherwise leaves the stack unchanged. *)
Theorem stack_refines_abstract_stack s base l :
  0 ≤ base → stack_rep (top s) base l →
  (∀ len, is_u32 len →
     match next_allocation s len with
     | Ok a => ∃ s', allocate s a = (Ok (top s), s') ∧ stack_rep (top s') base (a :: l) ∧
                     is_u32 (top s') ∧ ∀ b, b ∈ l → offset b + length_ b ≤ offset a
     | Err e => (e = OutOfBounds ∧ U32_MAX < top s + len) ∨ (e = ZeroLength ∧ len = 0)
     end) ∧
  (∀ a, a ∈ l →
     if decide (head l = Some a)
     then ∃ s', deallocate s a = (Ok (top s), s') ∧ stack_rep (top s') base (tail l)
     else deallocate s a = (Err BadStackAlignment, s)).
Proof.
  intros Hb Hl. split.
  - intros len [Hlen _]. destruct (next_allocation s len) as [a|e] eqn:Hn.
    + destruct (allocate_next s len a base l) as (s' & Ha & Hl'); try done.
      exists s'. split_and!; try done.
      * apply stack_rep_base in Hl' as ?. destruct Hl' as ([] & <- & _).
        unfold is_u32, U32_MAX in *. lia.
      * intros b Hin. apply (stack_rep_bounds _ _ _ _ Hl) in Hin.
        apply stack_rep_base in Hl.
        apply WasmAllocation_new_inv in Hn as [-> _]; simpl; lia.
    + unfold next_allocation, WasmAllocation_new, MEMORY_INT_MAX in Hn.
      destruct (Z.ltb_spec U32_MAX (top s + len)); simplify_eq; [by left|].
      destruct (Z.eqb_spec len 0); simplify_eq. by right.
  - intros a Hin. rewrite deallocate_aligned by eauto using stack_rep_wf.
    destruct l as [|b l]; [set_solver|]. destruct Hl as (Hwf & Ht & Hl); simpl.
    case_decide as Hd.
    + simplify_eq. rewrite Ht, Z.eqb_refl. eauto.
    + apply elem_of_cons in Hin as [->|Hin]; [done|].
      apply (stack_rep_bounds _ _ _ _ Hl) in Hin. destruct Hwf.
      by destruct (Z.eqb_spec (top s) (offset a + length_ a)); [lia|].
Qed.

Lemma stack_refines_abstract_stack_witness :
  let a := {| offset := 0; length_ := 5 |} in
  let b := {| offset := 5; length_ := 3 |} in
  let s := {| top := 8 |} in
  (∀ len, is_u32 len →
     match next_allocation s len with
     | Ok c => ∃ s', allocate s c = (Ok (top s), s') ∧ stack_rep (top s') 0 [c; b; a] ∧
                     is_u32 (top s') ∧ ∀ d, d ∈ [b; a] → offset d + length_ d ≤ offset c
     | Err e => (e = OutOfBounds ∧ U32_MAX < top s + len) ∨ (e = ZeroLength ∧ len = 0)
     end) ∧
  (∀ c, c ∈ [b; a] →
     if decide (head [b; a] = Some c)
     then ∃ s', deallocate s c = (Ok (top s), s') ∧ stack_rep (top s') 0 (tail [b; a])
     else deallocate s c = (Err BadStackAlignment, s)).
Proof.
  intros a b s. apply (stack_refines_abstract_stack s 0 [b; a]); [lia|].
  simpl. repeat split; unfold U32_MAX; simpl; lia.
Defined.

(** ** Reading back what was written *)

Lemma write_bytes_spec mem ptr len i bytes :
  (i + length bytes ≤ len)%nat → (ptr + i + length bytes ≤ length mem)%nat →
  write_bytes mem ptr len i bytes =
    Ret (take (ptr + i) mem ++ bytes ++ drop (ptr + i + length bytes) mem).
Proof.
  revert mem i. induction bytes as [|b bytes IH]; intros mem i Hi Hm; cbn [write_bytes].
  - simpl. rewrite Nat.add_0_r. by rewrite take_drop.
  - simpl in Hi, Hm.
    rewrite (proj2 (Nat.ltb_lt _ _)), (proj2 (Nat.ltb_lt _ _)) by lia. cbn [andb].
    rewrite IH by (rewrite ?length_insert; lia). f_equal.
    rewrite drop_insert_lt by lia. replace (ptr + S i)%nat with (S (ptr + i)) by lia.
    rewrite (take_S_r _ _ b) by (apply list_lookup_insert_eq; lia).
    rewrite take_insert_ge by lia. rewrite <- (assoc_L app). simpl.
    by replace (S (ptr + i + length bytes)) with (ptr + i + S (length bytes))%nat by lia.
Qed.

Lemma cstr_bytes_app s mem :
  Forall (λ b, b ≠ 0) s → cstr_bytes (s ++ mem) = app s <$> cstr_bytes mem.
Proof.
  induction 1 as [|b s Hb _ IH]; simpl; [by destruct (cstr_bytes mem)|].
  destruct (Z.eqb_spec b 0); [done|]. rewrite IH. by destruct (cstr_bytes mem).
Qed.

Lemma cstr_bytes_zero mem : cstr_bytes (0 :: mem) = Some [].
Proof. done. Qed.

(** The length [write_string] asks for. *)
Definition written_length (s : list Z) : Z := Z.of_nat (Nat.max (length s) 1).

Lemma write_string_ok st mem s :
  is_u32 (top st) → top st + written_length s ≤ U32_MAX →
  (Z.to_nat (top st) + length s ≤ length mem)%nat →
  write_string st mem s =
    Ret (Ok {| offset := top st; length_ := written_length s |},
         {| top := top st + written_length s |},
         take (Z.to_nat (top st)) mem ++ s ++ drop (Z.to_nat (top st) + length s) mem).
Proof.
  unfold is_u32. intros [Ht _] Hlen Hm.
  assert (0 < written_length s) by (unfold written_length; lia).
  assert (Hw : u32_wrap (Z.of_nat (length s `max` 1)) = written_length s).
  { apply u32_wrap_id. unfold is_u32, U32_MAX in *. fold (written_length s). lia. }
  unfold write_string. rewrite Hw.
  destruct (Z.ltb_spec WasmStack_max (written_length s));
    [unfold WasmStack_max, MEMORY_INT_MAX in *; lia|].
  unfold write_in_wasm_memory, next_allocation. rewrite WasmAllocation_new_ok by lia.
  unfold allocate; cbn [offset length_]. rewrite Z.eqb_refl; cbn [negb].
  destruct (Z.ltb_spec WasmStack_max (top st + written_length s));
    [unfold WasmStack_max, MEMORY_INT_MAX in *; lia|].
  rewrite write_bytes_spec by (unfold written_length; lia). unfold_monads.
  rewrite WasmAllocation_new_ok by lia. rewrite Nat.add_0_r.
  by rewrite u32_wrap_id by (unfold is_u32, U32_MAX in *; lia).
Qed.

Lemma drop_written n (mem s : list Z) :
  (n ≤ length mem)%nat →
  drop n (take n mem ++ s ++ drop (n + length s) mem) = s ++ drop (n + length s) mem.
Proof. intros. by rewrite drop_app_length' by (rewrite length_take; lia). Qed.

(** The bytes the code puts at an allocation and what follows them, as read
    back through the allocation. *)
Lemma read_to_string_at mem a s rest :
  drop (Z.to_nat (offset a)) mem = s ++ 0 :: rest →
  Forall (λ b, b ≠ 0) s → utf8_valid s = true → read_to_string mem a = Ret s.
Proof.
  intros Hd Hs Hv. unfold read_to_string. rewrite Hd, cstr_bytes_app by done.
  rewrite cstr_bytes_zero; simpl. rewrite app_nil_r. unfold_monads; simpl. by rewrite Hv.
Qed.

Lemma utf8_valid_app s1 s2 :
  utf8_valid s1 = true → utf8_valid s2 = true → utf8_valid (s1 ++ s2) = true.
Proof.
  intros H1 H2. revert H1. remember (length s1) as n eqn:Hn.
  revert s1 Hn. induction (lt_wf n) as [n _ IH]. intros s1 -> H1.
  destruct s1 as [|b s1]; [done|]. cbn [app utf8_valid] in *.
  destruct (0 <=? b) eqn:?, (b <=? 127) eqn:?; cbn [andb] in *;
    try (eapply IH; [|reflexivity|done]; simpl; lia).
  all: destruct (194 <=? b) eqn:?, (b <=? 223) eqn:?; cbn [andb] in *;
    try (destruct s1 as [|c1 s1]; [done|]; simpl; apply andb_prop in H1 as [-> H1];
         simpl; eapply IH; [|reflexivity|done]; simpl; lia).
  all: destruct (224 <=? b) eqn:?, (b <=? 239) eqn:?; cbn [andb] in *;
    try (destruct s1 as [|c1 [|c2 s1]]; [done..|]; simpl; apply andb_prop in H1 as [H1 H1'];
         rewrite H1; simpl; eapply IH; [|reflexivity|done]; simpl; lia).
  all: destruct (240 <=? b) eqn:?, (b <=? 244) eqn:?; cbn [andb] in *;
    try (destruct s1 as [|c1 [|c2 [|c3 s1]]]; [done..|]; simpl;
         apply andb_prop in H1 as [H1 H1'];
         rewrite H1; simpl; eapply IH; [|reflexivity|done]; simpl; lia).
  all: done.
Qed.

(** A string written to the top of the stack, on memory whose bytes from
    the top to just after the string are still zero, is read back through the
    allocation [write_string] returns.  The write succeeds whenever the string
    fits below the 32-bit limit and inside the memory, and the new top is the
    end of the allocation. *)
Theorem write_string_read_back st mem s rest :
  is_u32 (top st) → top st + written_length s ≤ U32_MAX →
  drop (Z.to_nat (top st)) mem = replicate (S (length s)) 0 ++ rest →
  Forall (λ b, b ≠ 0) s → utf8_valid s = true →
  ∃ a st' mem',
    write_string st mem s = Ret (Ok a, st', mem') ∧
    read_to_string mem' a = Ret s ∧
    wf_allocation a ∧ offset a = top st ∧ top st' = offset a + length_ a.
Proof.
  intros Ht Hlen Hd Hs Hv.
  assert (Hm : (Z.to_nat (top st) + S (length s) ≤ length mem)%nat).
  { apply (f_equal length) in Hd. rewrite length_drop, length_app, length_replicate in Hd. lia. }
  do 3 eexists. split; [apply write_string_ok; done || lia|].
  split_and!; try done.
  - eapply read_to_string_at; try done. simpl. rewrite drop_written by lia.
    rewrite <- drop_drop, Hd. replace (S (length s)) with (length s + 1)%nat by lia.
    rewrite replicate_add, <- (assoc_L app). by rewrite drop_app_length' by (by rewrite length_replicate).
  - unfold is_u32, written_length in *. constructor; simpl; lia.
Qed.

Lemma write_string_read_back_witness :
  ∃ a st' mem',
    write_string {| top := 2 |} [7; 7; 0; 0; 0; 0] [104; 105] = Ret (Ok a, st', mem') ∧
    read_to_string mem' a = Ret [104; 105] ∧
    wf_allocation a ∧ offset a = 2 ∧ top st' = offset a + length_ a.
Proof.
  apply (write_string_read_back {| top := 2 |} [7; 7; 0; 0; 0; 0] [104; 105] [0]).
  - vm_compute. split; congruence.
  - vm_compute. congruence.
  - reflexivity.
  - repeat constructor; lia.
  - reflexivity.
Defined.

(** Reading an allocation ignores its length.  After two strings are
    written one after the other on fresh memory, reading the first allocation
    returns the two strings glued together, not the string that was stored
    there. *)
Theorem consecutive_writes_run_together st mem s1 s2 rest :
  is_u32 (top st) → s1 ≠ [] → s2 ≠ [] →
  top st + written_length s1 + written_length s2 ≤ U32_MAX →
  drop (Z.to_nat (top st)) mem = replicate (S (length s1 + length s2)) 0 ++ rest →
  Forall (λ b, b ≠ 0) (s1 ++ s2) → utf8_valid s1 = true → utf8_valid s2 = true →
  ∃ a1 a2 st1 st2 mem1 mem2,
    write_string st mem s1 = Ret (Ok a1, st1, mem1) ∧
    write_string st1 mem1 s2 = Ret (Ok a2, st2, mem2) ∧
    read_to_string mem2 a1 = Ret (s1 ++ s2).
Proof.
  intros Ht Hs1 Hs2 Hlen Hd Hs Hv1 Hv2.
  assert (Hw1 : written_length s1 = Z.of_nat (length s1)).
  { unfold written_length. destruct s1; simpl; [done|lia]. }
  assert (Hm : (Z.to_nat (top st) + S (length s1 + length s2) ≤ length mem)%nat).
  { apply (f_equal length) in Hd. rewrite length_drop, length_app, length_replicate in Hd. lia. }
  assert (0 < written_length s2) by (unfold written_length; lia). unfold is_u32 in Ht.
  do 6 eexists. split_and!.
  - apply write_string_ok; unfold is_u32; lia.
  - apply write_string_ok; simpl;
      rewrite ?length_app, ?length_take, ?length_drop; unfold is_u32, U32_MAX in *; lia.
  - apply read_to_string_at with (rest := rest); [|done|by apply utf8_valid_app].
    cbn [offset top]. rewrite Hw1.
    replace (Z.to_nat (top st + Z.of_nat (length s1))) with (Z.to_nat (top st) + length s1)%nat by lia.
    rewrite (assoc_L app (take _ mem)).
    rewrite (take_app_length' (take _ mem ++ s1)), <- !(assoc_L app) by
      (rewrite length_app, length_take; lia).
    rewrite drop_app_length' by (rewrite length_take; lia). f_equal. f_equal.
    rewrite (assoc_L app), <- drop_drop.
    rewrite (drop_app_length' (take _ mem ++ s1)) by (rewrite length_app, length_take; lia).
    rewrite <- drop_drop, Hd, drop_drop.
    replace (S (length s1 + length s2)) with ((length s1 + length s2) + 1)%nat by lia.
    rewrite replicate_add, <- (assoc_L app).
    by rewrite drop_app_length' by (by rewrite length_replicate).
Qed.

Lemma consecutive_writes_run_together_witness :
  ∃ a1 a2 st1 st2 mem1 mem2,
    write_string WasmStack_new [0; 0; 0; 0] [97] = Ret (Ok a1, st1, mem1) ∧
    write_string st1 mem1 [98] = Ret (Ok a2, st2, mem2) ∧
    read_to_string mem2 a1 = Ret ([97] ++ [98]).
Proof.
  apply (consecutive_writes_run_together WasmStack_new [0; 0; 0; 0] [97] [98] [0]).
  - vm_compute. split; congruence.
  - congruence.
  - congruence.
  - vm_compute. congruence.
  - reflexivity.
  - repeat constructor; lia.
  - reflexivity.
  - reflexivity.
Defined.
