(* ===== verification/CoreTypes.v ===== *)
(** * Core data types

    Models the data of [src/crates/core_types/src/]: entry types, chain
    headers, links, capability tokens, the DNA description, entries, CRUD
    status, EAV attributes and entry aspects, with the functions of those
    files that classify, print, parse and address them.

    Addresses are strings.  Hashing and the JSON form of values come from
    third-party crates ([holochain_persistence_api], [serde]); they are the
    operations of the class [Addressing].  Timestamps are instants in
    nanoseconds (chrono compares instants, not offsets).  The [{:?}] dumps that
    the code appends to some error messages are left out of the messages. *)

From S2P Require Import Prelude Errors.

Abbreviation Address := string (only parsing).
Abbreviation JsonString := string (only parsing).

(** ** entry_type.rs *)

Inductive EntryType : Type :=
| EntryType_App (name : string)
| EntryType_Dna
| EntryType_AgentId
| EntryType_Deletion
| EntryType_LinkAdd
| EntryType_LinkRemove
| EntryType_LinkList
| EntryType_ChainHeader
| EntryType_ChainMigrate
| EntryType_CapTokenGrant
| EntryType_CapTokenClaim.

#[export] Instance EntryType_eq_dec : EqDecision EntryType.
Proof. solve_decision. Defined.

(** [TryFrom<EntryType> for AppEntryType]. *)
Definition AppEntryType_try_from (entry_type : EntryType) : Result HolochainError string :=
  match entry_type with
  | EntryType_App app_entry_type => Ok app_entry_type
  | _ => Err (HolochainError_ErrorGeneric "Attempted to convert EntryType to an AppEntryType")
  end.

Definition is_app (t : EntryType) : bool :=
  match t with EntryType_App _ => true | _ => false end.

Definition is_sys (t : EntryType) : bool := negb (is_app t).

(** The slice [[0..1]] is the first byte; a name starting with a multi-byte
    character panics there. *)
Definition has_valid_app_name (entry_type_name : string) : Outcome bool :=
  match entry_type_name with
  | EmptyString => Ret false
  | String c _ =>
      if Nat.ltb (Ascii.nat_of_ascii c) 128
      then Ret (negb (bool_decide (String c EmptyString = "%"%string)))
      else Panic
  end.

Definition EntryType_from_str (s : string) : EntryType :=
  if String.eqb s "%agent_id" then EntryType_AgentId
  else if String.eqb s "%deletion" then EntryType_Deletion
  else if String.eqb s "%dna" then EntryType_Dna
  else if String.eqb s "%chain_header" then EntryType_ChainHeader
  else if String.eqb s "%link_add" then EntryType_LinkAdd
  else if String.eqb s "%link_remove" then EntryType_LinkRemove
  else if String.eqb s "%link_list" then EntryType_LinkList
  else if String.eqb s "%chain_migrate" then EntryType_ChainMigrate
  else if String.eqb s "%cap_token_claim" then EntryType_CapTokenClaim
  else if String.eqb s "%cap_token_grant" then EntryType_CapTokenGrant
  else EntryType_App s.

Definition EntryType_to_string (entry_type : EntryType) : string :=
  match entry_type with
  | EntryType_App app_entry_type => app_entry_type
  | EntryType_AgentId => "%agent_id"
  | EntryType_Deletion => "%deletion"
  | EntryType_Dna => "%dna"
  | EntryType_ChainHeader => "%chain_header"
  | EntryType_LinkAdd => "%link_add"
  | EntryType_LinkRemove => "%link_remove"
  | EntryType_LinkList => "%link_list"
  | EntryType_ChainMigrate => "%chain_migrate"
  | EntryType_CapTokenClaim => "%cap_token_claim"
  | EntryType_CapTokenGrant => "%cap_token_grant"
  end%string.

(** ** signature.rs, time.rs, chain_header.rs, agent.rs *)

(** [Provenance(pub Address, pub Signature)]. *)
Record Provenance : Type := { source : Address; signature : string }.

(** An instant, in nanoseconds since the Unix epoch. *)
Record Iso8601 : Type := { timestamp_nanos : Z }.

Definition Iso8601_new (secs nsecs : Z) : Iso8601 :=
  {| timestamp_nanos := secs * 1000000000 + nsecs |}.

Record ChainHeader : Type := {
  entry_type : EntryType;
  entry_address : Address;
  provenances : list Provenance;
  link : option Address;
  link_same_type : option Address;
  link_update_delete : option Address;
  timestamp : Iso8601;
}.

#[export] Instance Provenance_eq_dec : EqDecision Provenance.
Proof. solve_decision. Defined.
#[export] Instance Iso8601_eq_dec : EqDecision Iso8601.
Proof. solve_decision. Defined.
#[export] Instance ChainHeader_eq_dec : EqDecision ChainHeader.
Proof. solve_decision. Defined.

Record AgentId : Type := { nick : string; pub_sign_key : string }.

#[export] Instance AgentId_eq_dec : EqDecision AgentId.
Proof. solve_decision. Defined.

(** For an agent, the address is the public signing key. *)
Definition AgentId_address (self : AgentId) : Address := pub_sign_key self.

(** ** link/mod.rs, link/link_data.rs, link/link_list.rs *)

Record Link : Type := {
  base : Address;
  target : Address;
  link_type : string;
  tag : string;
}.

Inductive LinkActionKind : Type := ADD | REMOVE.

Record LinkData : Type := {
  action_kind : LinkActionKind;
  link_data_link : Link;
  top_chain_header : ChainHeader;
  link_data_agent_id : AgentId;
}.

#[export] Instance Link_eq_dec : EqDecision Link.
Proof. solve_decision. Defined.
#[export] Instance LinkActionKind_eq_dec : EqDecision LinkActionKind.
Proof. solve_decision. Defined.
#[export] Instance LinkData_eq_dec : EqDecision LinkData.
Proof. solve_decision. Defined.

Definition LinkData_new_add (base target : Address) (tag link_type : string)
    (top_chain_header : ChainHeader) (agent_id : AgentId) : LinkData :=
  {| action_kind := ADD;
     link_data_link := {| base := base; target := target; link_type := link_type; tag := tag |};
     top_chain_header := top_chain_header; link_data_agent_id := agent_id |}.

Definition LinkData_new_delete (base target : Address) (tag link_type : string)
    (top_chain_header : ChainHeader) (agent_id : AgentId) : LinkData :=
  {| action_kind := REMOVE;
     link_data_link := {| base := base; target := target; link_type := link_type; tag := tag |};
     top_chain_header := top_chain_header; link_data_agent_id := agent_id |}.

Definition LinkData_from_link (link : Link) (action_kind : LinkActionKind)
    (top_chain_header : ChainHeader) (agent_id : AgentId) : LinkData :=
  {| action_kind := action_kind; link_data_link := link;
     top_chain_header := top_chain_header; link_data_agent_id := agent_id |}.

Definition LinkData_add_from_link (link : Link) (top_chain_header : ChainHeader)
    (agent_id : AgentId) : LinkData :=
  LinkData_from_link link ADD top_chain_header agent_id.

Definition LinkData_remove_from_link (link : Link) (top_chain_header : ChainHeader)
    (agent_id : AgentId) : LinkData :=
  LinkData_from_link link REMOVE top_chain_header agent_id.

Record LinkList : Type := { links : list Link }.

Record DeletionEntry : Type := { deleted_entry_address : Address }.

Inductive ChainMigrate : Type := ChainMigrate_.

(** ** entry/cap_entries.rs: capability tokens *)

Inductive CapabilityType : Type :=
| CapabilityType_Public
| CapabilityType_Transferable
| CapabilityType_Assigned.

#[export] Instance CapabilityType_eq_dec : EqDecision CapabilityType.
Proof. solve_decision. Defined.

Record CapTokenClaim : Type := {
  claim_id : string;
  claim_grantor : Address;
  claim_token : Address;
}.

(** [CapFunctions = BTreeMap<String, Vec<String>>]: by zome name. *)
Record CapTokenGrant : Type := {
  grant_id : string;
  grant_assignees : option (list Address);
  grant_functions : gmap string (list string);
}.

(** [CapTokenGrant::valid]: checks that type and assignees agree. *)
Definition CapTokenGrant_valid (cap_type : CapabilityType) (assignees : option (list Address)) :
    Result HolochainError (option (list Address)) :=
  if (bool_decide (cap_type = CapabilityType_Public) ||
      bool_decide (cap_type = CapabilityType_Transferable)) &&
     match assignees with Some (_ :: _) => true | _ => false end
  then Err (HolochainError_new "there must be no assignees for public or transferable grants")
  else
    match cap_type with
    | CapabilityType_Assigned =>
        match assignees with
        | None | Some [] =>
            Err (HolochainError_new "Assigned grant must have 1 or more assignees")
        | _ => Ok assignees
        end
    | CapabilityType_Public => Ok None
    | CapabilityType_Transferable => Ok (Some [])
    end.

Definition CapTokenGrant_create (id : string) (cap_type : CapabilityType)
    (assignees : option (list Address)) (functions : gmap string (list string)) :
    Result HolochainError CapTokenGrant :=
  assignees ← CapTokenGrant_valid cap_type assignees;
  Ok {| grant_id := id; grant_assignees := assignees; grant_functions := functions |}.

Definition CapTokenGrant_cap_type (self : CapTokenGrant) : CapabilityType :=
  match grant_assignees self with
  | None => CapabilityType_Public
  | Some [] => CapabilityType_Transferable
  | Some (_ :: _) => CapabilityType_Assigned
  end.

(** ** dna/: the description of an application *)

Inductive Sharing : Type := Sharing_Public | Sharing_Private | Sharing_Encrypted.

Definition Sharing_can_publish (self : Sharing) : bool :=
  match self with
  | Sharing_Public => true
  | Sharing_Private => false
  | Sharing_Encrypted => true
  end.

Record LinksTo : Type := { links_to_target_type : string; links_to_link_type : string }.
Record LinkedFrom : Type := { linked_from_base_type : string; linked_from_link_type : string }.

Record EntryTypeDef : Type := {
  def_properties : JsonString;
  sharing : Sharing;
  links_to : list LinksTo;
  linked_from : list LinkedFrom;
}.

Record FnParameter : Type := { parameter_type : string; parameter_name : string }.

#[export] Instance FnParameter_eq_dec : EqDecision FnParameter.
Proof. solve_decision. Defined.

Record FnDeclaration : Type := {
  fn_name : string;
  fn_inputs : list FnParameter;
  fn_outputs : list FnParameter;
}.

#[export] Instance FnDeclaration_eq_dec : EqDecision FnDeclaration.
Proof. solve_decision. Defined.

Record TraitFns : Type := { trait_fn_names : list string }.
Record Trait : Type := { trait_functions : list FnDeclaration }.

Inductive BridgePresence : Type := BridgePresence_Required | BridgePresence_Optional.

#[export] Instance BridgePresence_eq_dec : EqDecision BridgePresence.
Proof. solve_decision. Defined.

(** [BTreeMap]s whose iteration order matters are association lists in key
    order. *)
Inductive BridgeReference : Type :=
| BridgeReference_Address (dna_address : Address)
| BridgeReference_Trait (traits : list (string * Trait)).

Record Bridge : Type := {
  presence : BridgePresence;
  handle : string;
  reference : BridgeReference;
}.

Record Zome : Type := {
  zome_description : string;
  entry_types : list (EntryType * EntryTypeDef);
  traits : list (string * TraitFns);
  fn_declarations : list FnDeclaration;
  code : list Z;
  zome_bridges : list Bridge;
}.

Record Dna : Type := {
  dna_name : string;
  dna_description : string;
  dna_version : string;
  dna_uuid : string;
  dna_spec_version : string;
  dna_properties : JsonString;
  zomes : list (string * Zome);
}.

(** ** entry/mod.rs *)

Inductive Entry : Type :=
| Entry_App (app_entry_type : string) (value : JsonString)
| Entry_Dna (dna : Dna)
| Entry_AgentId (agent_id : AgentId)
| Entry_Deletion (deletion : DeletionEntry)
| Entry_LinkAdd (link_data : LinkData)
| Entry_LinkRemove (link_data : LinkData) (links_to_remove : list Address)
| Entry_LinkList (list_ : LinkList)
| Entry_ChainHeader (header : ChainHeader)
| Entry_ChainMigrate (m : ChainMigrate)
| Entry_CapTokenClaim (claim : CapTokenClaim)
| Entry_CapTokenGrant (grant : CapTokenGrant).

Definition Entry_entry_type (self : Entry) : EntryType :=
  match self with
  | Entry_App app_entry_type _ => EntryType_App app_entry_type
  | Entry_Dna _ => EntryType_Dna
  | Entry_AgentId _ => EntryType_AgentId
  | Entry_Deletion _ => EntryType_Deletion
  | Entry_LinkAdd _ => EntryType_LinkAdd
  | Entry_LinkRemove _ _ => EntryType_LinkRemove
  | Entry_LinkList _ => EntryType_LinkList
  | Entry_ChainHeader _ => EntryType_ChainHeader
  | Entry_ChainMigrate _ => EntryType_ChainMigrate
  | Entry_CapTokenClaim _ => EntryType_CapTokenClaim
  | Entry_CapTokenGrant _ => EntryType_CapTokenGrant
  end.

Definition Link_add_entry (self : Link) (top : ChainHeader) (agent_id : AgentId) : Entry :=
  Entry_LinkAdd (LinkData_add_from_link self top agent_id).

Definition Link_remove_entry (self : Link) (top : ChainHeader) (agent_id : AgentId) : Entry :=
  Entry_LinkAdd (LinkData_remove_from_link self top agent_id).

(** ** network/entry_aspect.rs *)

Inductive EntryAspect : Type :=
| Aspect_Content (entry : Entry) (header : ChainHeader)
| Aspect_Header (header : ChainHeader)
| Aspect_LinkAdd (link_data : LinkData) (header : ChainHeader)
| Aspect_LinkRemove (link_data : LinkData) (links_to_remove : list Address) (header : ChainHeader)
| Aspect_Update (entry : Entry) (header : ChainHeader)
| Aspect_Deletion (header : ChainHeader).

Definition EntryAspect_type_hint (self : EntryAspect) : string :=
  match self with
  | Aspect_Content _ _ => "content"
  | Aspect_Header _ => "header"
  | Aspect_LinkAdd _ _ => "link_add"
  | Aspect_LinkRemove _ _ _ => "link_remove"
  | Aspect_Update _ _ => "update"
  | Aspect_Deletion _ => "deletion"
  end.

Definition EntryAspect_header (self : EntryAspect) : ChainHeader :=
  match self with
  | Aspect_Content _ header => header
  | Aspect_Header header => header
  | Aspect_LinkAdd _ header => header
  | Aspect_LinkRemove _ _ header => header
  | Aspect_Update _ header => header
  | Aspect_Deletion header => header
  end.

(** ** Addressing: hashing and JSON, from third-party crates

    [encode_from_str] is [Address::encode_from_str(_, Hash::SHA2256)]; the
    other operations are the JSON texts that serde writes and reads. *)
Class Addressing : Type := {
  encode_from_str : string → Address;
  entry_json : Entry → JsonString;
  header_json : ChainHeader → JsonString;
  aspect_json : EntryAspect → JsonString;
  entry_of_json : JsonString → option Entry;
  header_of_json : JsonString → option ChainHeader;
}.

(** What the code relies on: what serde writes, it reads back, and a header's
    text is not an entry's text (an entry is a one-key object named after its
    variant). *)
Class AddressingLaws `{Addressing} : Prop := {
  entry_of_header_json h : entry_of_json (header_json h) = None;
  header_json_inverse h : header_of_json (header_json h) = Some h;
}.

Section addressing.
Context `{Addressing}.

(** [AddressableContent for ChainHeader]: the trait's default address is the
    hash of the content. *)
Definition ChainHeader_content (self : ChainHeader) : JsonString := header_json self.
Definition ChainHeader_address (self : ChainHeader) : Address :=
  encode_from_str (ChainHeader_content self).

Definition Entry_content (self : Entry) : JsonString :=
  match self with
  | Entry_ChainHeader chain_header => header_json chain_header
  | _ => entry_json self
  end.

Definition Entry_address (self : Entry) : Address :=
  match self with
  | Entry_AgentId agent_id => AgentId_address agent_id
  | Entry_ChainHeader chain_header => ChainHeader_address chain_header
  | _ => encode_from_str (Entry_content self)
  end.

(** [PartialEq for Entry] compares addresses. *)
Definition Entry_eq (self other : Entry) : bool :=
  bool_decide (Entry_address self = Entry_address other).

Definition Entry_try_from_content (content : JsonString) : option Entry :=
  match entry_of_json content with
  | Some e => Some e
  | None => Entry_ChainHeader <$> header_of_json content
  end.

Definition EntryAspect_address (self : EntryAspect) : Address :=
  encode_from_str (aspect_json self).

Definition EntryAspect_entry_address (self : EntryAspect) : Result HolochainError Address :=
  match self with
  | Aspect_Content _ header => Ok (entry_address header)
  | Aspect_LinkAdd link_data _ => Ok (base (link_data_link link_data))
  | Aspect_LinkRemove link_data _ _ => Ok (base (link_data_link link_data))
  | Aspect_Update _ header | Aspect_Deletion header =>
      ok_or (HolochainError_ErrorGeneric
               "no link_update_delete on Update/Deletion entry header. Header: ")
            (link_update_delete header)
  | Aspect_Header header => Ok (ChainHeader_address header)
  end.

End addressing.

(** ** Theorems *)

(** The names of the system entry types. *)
Definition sys_names : list string :=
  ["%agent_id"; "%deletion"; "%dna"; "%chain_header"; "%link_add"; "%link_remove";
   "%link_list"; "%chain_migrate"; "%cap_token_claim"; "%cap_token_grant"]%string.

Lemma EntryType_from_str_app s : s ∉ sys_names → EntryType_from_str s = EntryType_App s.
Proof.
  unfold sys_names. rewrite !not_elem_of_cons. intros Hs. unfold EntryType_from_str.
  repeat (match goal with |- context [String.eqb s ?n] =>
    destruct (String.eqb_spec s n); [tauto|] end). done.
Qed.

Lemma EntryType_from_to_sys t : is_sys t = true → EntryType_from_str (EntryType_to_string t) = t.
Proof. by destruct t. Qed.

Lemma sys_name_from_str s : s ∈ sys_names → is_sys (EntryType_from_str s) = true.
Proof. revert s. apply Forall_forall. by repeat constructor. Qed.

Lemma EntryType_to_from s : EntryType_to_string (EntryType_from_str s) = s.
Proof.
  destruct (decide (s ∈ sys_names)) as [Hs|Hs].
  - revert s Hs. apply Forall_forall. by repeat constructor.
  - by rewrite EntryType_from_str_app.
Qed.

Lemma valid_app_name_not_sys s : has_valid_app_name s = Ret true → s ∉ sys_names.
Proof.
  intros Hv Hs. revert s Hs Hv.
  apply (proj1 (Forall_forall (λ s, has_valid_app_name s = Ret true → False) sys_names)).
  by repeat constructor.
Qed.

(** Entry types and their names.  Every name parses to a type that prints
    back to it; every type parses back from its printed name except an app type
    that bears the name of a system type; and a name accepted by
    [has_valid_app_name] always parses to the app type of that name. *)
Theorem entry_type_name_round_trip :
  (∀ s, EntryType_to_string (EntryType_from_str s) = s) ∧
  (∀ t, EntryType_from_str (EntryType_to_string t) = t ↔
        ∀ s, t = EntryType_App s → s ∉ sys_names) ∧
  (∀ s, has_valid_app_name s = Ret true → EntryType_from_str s = EntryType_App s).
Proof.
  split; [apply EntryType_to_from|]. split.
  - intros t. destruct (is_sys t) eqn:Ht.
    + split; [intros _ s ->; done|]. intros _. by apply EntryType_from_to_sys.
    + destruct t as [s| | | | | | | | | |]; try done. simpl. split.
      * intros Hs s' [= <-] Hin%sys_name_from_str. by rewrite Hs in Hin.
      * intros Hs. apply EntryType_from_str_app. by apply Hs.
  - intros s Hs%valid_app_name_not_sys. by apply EntryType_from_str_app.
Qed.

(** A capability grant has the type it was created with.  [create] succeeds
    exactly when the assignees fit the type (a non-empty list for an assigned
    grant, none or an empty list for a public or transferable one), and then
    [cap_type], which reads the type off the assignees, returns that type. *)
Theorem cap_grant_create_type id ty assignees fs :
  let nonempty := match assignees with Some (_ :: _) => true | _ => false end in
  match CapTokenGrant_create id ty assignees fs with
  | Ok g => CapTokenGrant_cap_type g = ty ∧ grant_id g = id ∧ grant_functions g = fs ∧
            nonempty = bool_decide (ty = CapabilityType_Assigned) ∧
            (ty = CapabilityType_Assigned → grant_assignees g = assignees)
  | Err _ => nonempty ≠ bool_decide (ty = CapabilityType_Assigned)
  end.
Proof. destruct ty, assignees as [[|a l]|]; simpl; naive_solver. Qed.
