(* ===== verification/Dna.v ===== *)
(** * Operations on a DNA

    Models [src/crates/core_types/src/dna/mod.rs] and [zome.rs]: looking up
    zomes, functions, traits and entry type definitions, required bridges and
    the check of a DNA; and [src/crates/core/src/entry/mod.rs], which decides
    whether entries of a type are published.

    [BTreeMap]s are association lists in key order; [btree_get] is their lookup
    and [wf_dna] says that the keys are distinct, as they are in a map. *)

From S2P Require Import Prelude Errors CoreTypes.

Local Open Scope string_scope.

Fixpoint btree_get {K A} `{EqDecision K} (m : list (K * A)) (k : K) : option A :=
  match m with
  | [] => None
  | (k', x) :: m => if decide (k' = k) then Some x else btree_get m k
  end.

(** The keys of every map of the DNA are distinct. *)
Definition wf_dna (dna : Dna) : Prop :=
  NoDup (fst <$> zomes dna) ∧
  ∀ name zome, (name, zome) ∈ zomes dna → NoDup (fst <$> entry_types zome).

(** ** zome.rs *)

Definition Zome_get_required_bridges (self : Zome) : list Bridge :=
  filter (λ bridge, presence bridge = BridgePresence_Required) (zome_bridges self).

Definition get_function (self : Zome) (name : string) : option FnDeclaration :=
  list_find (λ fn_decl, fn_name fn_decl = name) (fn_declarations self) ≫= λ '(_, f), Some f.

(** [ReservedTraitNames::Public.as_str()] is "hc_public". *)
Definition is_fn_public (self : Zome) (name : string) : bool :=
  existsb (λ '(trait_name, trait_fns),
             String.eqb trait_name "hc_public" &&
             bool_decide (name ∈ trait_fn_names trait_fns)) (traits self).

(** ** dna/mod.rs *)

Definition get_zome (self : Dna) (zome_name : string) : Result DnaError Zome :=
  ok_or (DnaError_ZomeNotFound ("Zome '" +:+ zome_name +:+ "' not found"))
    (btree_get (zomes self) zome_name).

Definition get_trait (zome : Zome) (trait_name : string) : option TraitFns :=
  btree_get (traits zome) trait_name.

Definition get_function_with_zome_name (self : Dna) (zome_name name : string) :
    Result DnaError FnDeclaration :=
  zome ← get_zome self zome_name;
  ok_or (DnaError_ZomeFunctionNotFound
           ("Zome function '" +:+ name +:+ "' not found in Zome '" +:+ zome_name +:+ "'"))
    (get_function zome name).

Definition get_wasm_from_zome_name (self : Dna) (zome_name : string) : option (list Z) :=
  code <$> result_ok (get_zome self zome_name).

Definition get_trait_fns_with_zome_name (self : Dna) (zome_name trait_name : string) :
    Result DnaError TraitFns :=
  zome ← get_zome self zome_name;
  ok_or (DnaError_TraitNotFound
           ("Trait '" +:+ trait_name +:+ "' not found in Zome '" +:+ zome_name +:+ "'"))
    (get_trait zome trait_name).

(** [assert!(EntryType::has_valid_app_name(..))]. *)
Definition assert_valid_app_name (entry_type_name : string) : Outcome () :=
  valid ← has_valid_app_name entry_type_name;
  if (valid : bool) then Ret () else Panic.

(** The loop over the zomes and the keys of their entry types. *)
Fixpoint find_zome_name (l : list (string * Zome)) (ty : EntryType) : option string :=
  match l with
  | [] => None
  | (zome_name, zome) :: l =>
      if existsb (λ e, bool_decide (e.1 = ty)) (entry_types zome) then Some zome_name
      else find_zome_name l ty
  end.

Definition get_zome_name_for_app_entry_type (self : Dna) (app_entry_type : string) :
    Outcome (option string) :=
  _ ← assert_valid_app_name app_entry_type;
  Ret (find_zome_name (zomes self) (EntryType_App app_entry_type)).

Definition find_def (ty : EntryType) (l : list (EntryType * EntryTypeDef)) : option EntryTypeDef :=
  list_find (λ e, e.1 = ty) l ≫= λ '(_, e), Some e.2.

Fixpoint find_entry_type_def (l : list (string * Zome)) (ty : EntryType) : option EntryTypeDef :=
  match l with
  | [] => None
  | (_, zome) :: l =>
      match find_def ty (entry_types zome) with
      | Some d => Some d
      | None => find_entry_type_def l ty
      end
  end.

Definition get_entry_type_def (self : Dna) (entry_type_name : string) :
    Outcome (option EntryTypeDef) :=
  _ ← assert_valid_app_name entry_type_name;
  Ret (find_entry_type_def (zomes self) (EntryType_App entry_type_name)).

Definition Dna_get_required_bridges (self : Dna) : list Bridge :=
  mjoin (Zome_get_required_bridges <$> (snd <$> zomes self)).

(** [Dna::verify]; the error lists the offending zomes. *)
Definition Dna_verify (self : Dna) : Result HolochainError () :=
  let errors :=
    omap (λ '(zome_name, zome),
            match code zome with
            | [] => Some (HolochainError_ErrorGeneric ("Zome " +:+ zome_name +:+ " has no code!"))
            | _ => None
            end) (zomes self) in
  match errors with
  | [] => Ok ()
  | _ => Err (HolochainError_ErrorGeneric "invalid DNA: ")
  end.

(** ** core/src/entry/mod.rs *)

(** [CanPublish for EntryType]; [maybe_dna] is [context.get_dna()]. *)
Definition can_publish (self : EntryType) (maybe_dna : option Dna) : Outcome bool :=
  match self with
  | EntryType_Dna | EntryType_CapTokenGrant | EntryType_CapTokenClaim => Ret false
  | _ =>
      if is_sys self then Ret true
      else
        dna ← unwrap maybe_dna;
        maybe_def ← get_entry_type_def dna (EntryType_to_string self);
        Ret match maybe_def with
            | None => false
            | Some entry_type_def => Sharing_can_publish (sharing entry_type_def)
            end
  end.

(** ** Theorems *)

Lemma btree_get_elem {K A} `{EqDecision K} (m : list (K * A)) k x :
  NoDup (fst <$> m) → btree_get m k = Some x ↔ (k, x) ∈ m.
Proof.
  induction m as [|[k' y] m IH]; simpl; [set_solver|]. intros [Hn Hm]%NoDup_cons.
  case_decide as Hk; [subst k'|].
  - rewrite elem_of_cons. split; [by intros [= ->]; left|].
    intros [[= ->]|Hin]; [done|]. destruct Hn. apply list_elem_of_fmap. by exists (k, x).
  - rewrite IH, elem_of_cons by done. naive_solver.
Qed.

Lemma find_def_elem ty l d :
  NoDup (fst <$> l) → find_def ty l = Some d ↔ (ty, d) ∈ l.
Proof.
  intros Hn. rewrite <- btree_get_elem by done. clear Hn. unfold find_def.
  induction l as [|[ty' d'] l IH]; [done|]. cbn [list_find btree_get].
  case_decide as Ht; simpl in Ht; case_decide; try congruence; [done|].
  rewrite <- IH. by destruct (list_find _ l) as [[]|].
Qed.

Lemma find_def_none ty l :
  find_def ty l = None ↔ existsb (λ e, bool_decide (e.1 = ty)) l = false.
Proof.
  unfold find_def. induction l as [|[ty' d'] l IH]; [done|]. cbn [list_find existsb].
  case_decide as Ht; simpl in *; [by rewrite bool_decide_true|].
  rewrite bool_decide_false by done. simpl. rewrite <- IH. by destruct (list_find _ l) as [[]|].
Qed.

(** What the two searches find, together. *)
Lemma find_zome_and_def l ty :
  match find_zome_name l ty with
  | None => find_entry_type_def l ty = None
  | Some name => ∃ zome d, (name, zome) ∈ l ∧ find_def ty (entry_types zome) = Some d ∧
                           find_entry_type_def l ty = Some d
  end.
Proof.
  induction l as [|[name zome] l IH]; simpl; [done|].
  destruct (find_def ty (entry_types zome)) as [d|] eqn:Hd.
  - destruct (existsb _ _) eqn:He; [|by apply find_def_none in He; rewrite He in Hd].
    exists zome, d. set_solver.
  - apply find_def_none in Hd as He. rewrite He. destruct (find_zome_name l ty); [|done].
    destruct IH as (z & d & Hin & ? & ?). exists z, d. set_solver.
Qed.

Lemma assert_valid_app_name_spec s :
  assert_valid_app_name s = Ret () ∧ has_valid_app_name s = Ret true ∨
  assert_valid_app_name s = Panic ∧ has_valid_app_name s ≠ Ret true.
Proof.
  unfold assert_valid_app_name. unfold has_valid_app_name.
  destruct s as [|c s]; [by right|]. destruct (Nat.ltb _ _); [|by right].
  cbn [mbind Outcome_bind]. case_bool_decide; [by right|by left].
Qed.

(** Which zome governs an entry type.  In a DNA with distinct keys, the zome
    that validates entries of an app type is the zome whose definition decides
    whether they are published: either no zome defines the type, and its
    entries are not published, or the zome found for the type has a definition
    for it and an entry is published exactly if that definition shares it.  Both
    searches fail in the same way on a name that is not an app type's. *)
Theorem publishing_follows_zome dna name :
  wf_dna dna →
  match get_zome_name_for_app_entry_type dna name with
  | Ret None => can_publish (EntryType_App name) (Some dna) = Ret false
  | Ret (Some zome_name) => ∃ zome d,
      get_zome dna zome_name = Ok zome ∧ (EntryType_App name, d) ∈ entry_types zome ∧
      can_publish (EntryType_App name) (Some dna) = Ret (Sharing_can_publish (sharing d))
  | Panic => has_valid_app_name name ≠ Ret true ∧
             can_publish (EntryType_App name) (Some dna) = Panic
  | NoFuel => False
  end.
Proof.
  intros [Hz He]. unfold get_zome_name_for_app_entry_type, can_publish, get_entry_type_def.
  cbn [is_sys is_app negb unwrap EntryType_to_string].
  destruct (assert_valid_app_name_spec name) as [[-> _]|[-> Hv]]; cbn [mbind Outcome_bind]; [|done].
  pose proof (find_zome_and_def (zomes dna) (EntryType_App name)) as Hf.
  destruct (find_zome_name _ _) as [zn|]; [|by rewrite Hf].
  destruct Hf as (zome & d & Hin & Hd & ->). exists zome, d. split; [|split; [|done]].
  - unfold get_zome. by rewrite (proj2 (btree_get_elem _ _ _ Hz) Hin).
  - by apply find_def_elem; eauto.
Qed.

(** A DNA with one zome that keeps one entry type private. *)
Definition ex_zome : Zome :=
  {| zome_description := "";
     entry_types := [(EntryType_App "note",
       {| def_properties := "{}"; sharing := Sharing_Private; links_to := []; linked_from := [] |})];
     traits := [("hc_public", {| trait_fn_names := ["greet"] |})];
     fn_declarations := [{| fn_name := "greet"; fn_inputs := []; fn_outputs := [] |}];
     code := [0%Z]; zome_bridges := [] |}.

Definition ex_dna : Dna :=
  {| dna_name := "app"; dna_description := ""; dna_version := "1"; dna_uuid := "0";
     dna_spec_version := "2.0"; dna_properties := "{}"; zomes := [("main", ex_zome)] |}.

Lemma publishing_follows_zome_witness :
  ∃ zome d, get_zome ex_dna "main" = Ok zome ∧ (EntryType_App "note", d) ∈ entry_types zome ∧
    can_publish (EntryType_App "note") (Some ex_dna) = Ret (Sharing_can_publish (sharing d)).
Proof.
  apply (publishing_follows_zome ex_dna "note"). split.
  - apply NoDup_singleton.
  - intros name zome Hin. apply list_elem_of_singleton in Hin. injection Hin as _ ->.
    apply NoDup_singleton.
Defined.
