(* ===== verification/Storage.v ===== *)
(** * Metadata attributes and the storage interface

    Models [src/crates/core_types/src/crud_status.rs] and
    [src/crates/core_types/src/eav/]: the status of an entry, the attributes
    of entity-attribute-value records and their textual form.  The
    content-addressable store (CAS) and the EAV store are implemented by the
    [holochain_persistence_*] crates; the code uses them through two traits,
    which are the class [Storage] here, with the documented behaviour of the
    stores as the laws [StorageLaws] and an in-memory implementation that
    satisfies them.

    The theorems: exactly which attributes survive being printed and parsed
    (a link tag with two underscores in a row does not), and that the link type
    check accepts exactly the names free of the reserved characters. *)

From S2P Require Import Prelude Errors CoreTypes.

Local Open Scope string_scope.

(** ** crud_status.rs *)

Inductive CrudStatus : Type := Live | Rejected | Deleted | Modified | Locked.

#[export] Instance CrudStatus_eq_dec : EqDecision CrudStatus.
Proof. solve_decision. Defined.

(** The serde names of the variants (lower case). *)
Definition CrudStatus_to_string (status : CrudStatus) : string :=
  match status with
  | Live => "live"
  | Rejected => "rejected"
  | Deleted => "deleted"
  | Modified => "modified"
  | Locked => "locked"
  end.

Definition CrudStatus_from_str (s : string) : Result string CrudStatus :=
  if String.eqb s "live" then Ok Live
  else if String.eqb s "rejected" then Ok Rejected
  else if String.eqb s "deleted" then Ok Deleted
  else if String.eqb s "modified" then Ok Modified
  else if String.eqb s "locked" then Ok Locked
  else Err "failed to deserialize CrudStatus enum".

(** ** eav/eavi.rs *)

Inductive Attribute : Type :=
| Attribute_CrudStatus
| Attribute_CrudLink
| Attribute_EntryHeader
| Attribute_Link
| Attribute_LinkTag (link_type tag : string)
| Attribute_RemovedLink (link_remove_address : Address) (link_type tag : string)
| Attribute_PendingEntry
| Attribute_Target.

#[export] Instance Attribute_eq_dec : EqDecision Attribute.
Proof. solve_decision. Defined.

(** [Display for Attribute]. *)
Definition Attribute_fmt (a : Attribute) : string :=
  match a with
  | Attribute_CrudStatus => "crud-status"
  | Attribute_CrudLink => "crud-link"
  | Attribute_EntryHeader => "entry-header"
  | Attribute_Link => "link"
  | Attribute_LinkTag link_type tag => "link__" +:+ link_type +:+ "__" +:+ tag
  | Attribute_RemovedLink link_remove_address link_type tag =>
      "removed_link__" +:+ link_remove_address +:+ "__" +:+ link_type +:+ "__" +:+ tag
  | Attribute_PendingEntry => "pending-entry"
  | Attribute_Target => "target"
  end.

(** The text after a literal prefix. *)
Fixpoint strip_prefix (p s : string) : option string :=
  match p, s with
  | EmptyString, _ => Some s
  | String c p, String d s => if Ascii.eqb c d then strip_prefix p s else None
  | _, _ => None
  end.

(** Matching of two any-text groups joined by [__] against a whole text: the
    first group is greedy,
    so the text is split at its last ["__"]. *)
Fixpoint split_last_dunder (s : string) : option (string * string) :=
  match s with
  | EmptyString => None
  | String c r =>
      match split_last_dunder r with
      | Some (a, b) => Some (String c a, b)
      | None => pair "" <$> strip_prefix "__" s
      end
  end.

(** [.] does not match a newline. *)
Fixpoint no_newline (s : string) : bool :=
  match s with
  | EmptyString => true
  | String c r => negb (Nat.eqb (Ascii.nat_of_ascii c) 10) && no_newline r
  end.

(** [LINK_REGEX]: [link__], a group, [__], a group; anchored at both ends. *)
Definition LINK_REGEX (s : string) : option (string * string) :=
  r ← strip_prefix "link__" s;
  if no_newline r then split_last_dunder r else None.

(** [REMOVED_LINK_REGEX]: [removed_link__] and three groups joined by [__];
    both leading groups are greedy. *)
Definition REMOVED_LINK_REGEX (s : string) : option (string * string * string) :=
  r ← strip_prefix "removed_link__" s;
  if no_newline r then
    '(front, tag) ← split_last_dunder r;
    '(address, link_type) ← split_last_dunder front;
    Some (address, link_type, tag)
  else None.

(** [TryFrom<&str> for Attribute]; the error is [AttributeError::Unrecognized]. *)
Definition Attribute_try_from (s : string) : Result string Attribute :=
  match LINK_REGEX s with
  | Some (link_type, link_tag) => Ok (Attribute_LinkTag link_type link_tag)
  | None =>
      match REMOVED_LINK_REGEX s with
      | Some (address, link_type, link_tag) => Ok (Attribute_RemovedLink address link_type link_tag)
      | None =>
          if String.eqb s "crud-status" then Ok Attribute_CrudStatus
          else if String.eqb s "crud-link" then Ok Attribute_CrudLink
          else if String.eqb s "entry-header" then Ok Attribute_EntryHeader
          else if String.eqb s "link" then Ok Attribute_Link
          else if String.eqb s "pending-entry" then Ok Attribute_PendingEntry
          else if String.eqb s "target" then Ok Attribute_Target
          else Err s
      end
  end.

(** The variants of [holochain_persistence_api::error::PersistenceError] as the
    conversion to [HolochainError] lists them. *)
Inductive PersistenceError : Type :=
| PersistenceError_ErrorGeneric (e : string)
| PersistenceError_SerializationError (e : string)
| PersistenceError_IoError (e : string).

Definition HolochainError_from_persistence (persistence_error : PersistenceError) : HolochainError :=
  match persistence_error with
  | PersistenceError_ErrorGeneric e => HolochainError_ErrorGeneric e
  | PersistenceError_SerializationError e => HolochainError_SerializationError e
  | PersistenceError_IoError e => HolochainError_IoError e
  end.

(** The reserved characters of [validate_attribute] (slash, colon, star,
    question mark, angle brackets, quotes, backslash, bar and plus), as
    character codes. *)
Definition reserved_chars : list nat := [47; 58; 42; 63; 60; 62; 34; 39; 92; 124; 43]%nat.

Fixpoint has_reserved_char (s : string) : bool :=
  match s with
  | EmptyString => false
  | String c r => bool_decide (Ascii.nat_of_ascii c ∈ reserved_chars) || has_reserved_char r
  end.

Definition validate_attribute (attribute : Attribute) : Result PersistenceError () :=
  match attribute with
  | Attribute_LinkTag name _ | Attribute_RemovedLink _ name _ =>
      if negb (has_reserved_char name) then Ok ()
      else Err (PersistenceError_ErrorGeneric "Attribute name invalid")
  | _ => Ok ()
  end.

(** An entity-attribute-value record with its index (creation time). *)
Record EntityAttributeValueIndex : Type := {
  eavi_entity : Address;
  eavi_attribute : Attribute;
  eavi_value : Address;
  eavi_index : Z;
}.

#[export] Instance EntityAttributeValueIndex_eq_dec : EqDecision EntityAttributeValueIndex.
Proof. solve_decision. Defined.

(** The arguments of [EaviQuery::new], as the code builds them: predicates on
    entity, attribute and value, an index filter and an optional tombstone
    predicate. *)
Inductive IndexFilter : Type :=
| LatestByAttribute
| IndexRange (from to : option Z).

Record EaviQuery : Type := {
  entity_filter : Address → bool;
  attribute_filter : Attribute → bool;
  value_filter : Address → bool;
  index_filter : IndexFilter;
  tombstone_filter : option (Attribute → bool);
}.

(** ** The textual form of attributes *)

Lemma append_cons c a b : String c a +:+ b = String c (a +:+ b).
Proof. done. Qed.

Lemma append_nil b : "" +:+ b = b.
Proof. done. Qed.

Lemma append_assoc a b c : (a +:+ b) +:+ c = a +:+ b +:+ c.
Proof. induction a as [|x a IH]; [done|]. by rewrite !append_cons, IH. Qed.

Lemma string_length_app a b : String.length (a +:+ b) = (String.length a + String.length b)%nat.
Proof. induction a as [|x a IH]; [done|]. rewrite append_cons. simpl. by rewrite IH. Qed.

Create Rewrite HintDb hc_str.
#[export] Hint Rewrite append_cons append_nil append_assoc : hc_str.

Lemma strip_prefix_spec p s r : strip_prefix p s = Some r → s = p +:+ r.
Proof.
  revert s. induction p as [|c p IH]; intros s; simpl; [by intros [= ->]|].
  destruct s as [|d s]; [done|]. destruct (Ascii.eqb_spec c d) as [->|]; [|done].
  intros Hr. by rewrite (IH _ Hr).
Qed.

Lemma strip_prefix_app p s : strip_prefix p (p +:+ s) = Some s.
Proof. induction p as [|c p IH]; simpl; [done|]. by rewrite Ascii.eqb_refl. Qed.

Lemma split_last_dunder_spec s a b : split_last_dunder s = Some (a, b) → s = a +:+ "__" +:+ b.
Proof.
  revert a. induction s as [|c s IH]; intros a; cbn [split_last_dunder]; [done|].
  destruct (split_last_dunder s) as [[a' b']|].
  - intros [= <- <-]. simpl. by rewrite (IH a').
  - destruct (strip_prefix "__" (String c s)) as [r|] eqn:Hp; [|done].
    apply strip_prefix_spec in Hp. intros [= <- <-]. done.
Qed.

(** The last separator of a text that ends in [g] is the one before [g] exactly
    when [g], with the underscore that precedes it, has none. *)
Lemma split_last_dunder_app a g :
  split_last_dunder (a +:+ "__" +:+ g) =
    match split_last_dunder ("_" +:+ g) with
    | None => Some (a, g)
    | Some (x, y) => Some (a +:+ "_" +:+ x, y)
    end.
Proof.
  induction a as [|c a IH].
  - set (u := "_" +:+ g). change ("" +:+ "__" +:+ g) with ("_" +:+ u).
    rewrite (append_cons _ "" u), append_nil. cbn [split_last_dunder].
    by destruct (split_last_dunder u) as [[x y]|].
  - rewrite append_cons. cbn [split_last_dunder]. rewrite IH.
    by destruct (split_last_dunder ("_" +:+ g)) as [[x y]|].
Qed.

Lemma split_last_dunder_tail g x y : split_last_dunder ("_" +:+ g) = Some (x, y) → y ≠ g.
Proof.
  intros Hs%split_last_dunder_spec ->.
  apply (f_equal String.length) in Hs. rewrite !string_length_app in Hs. simpl in Hs. lia.
Qed.

Lemma no_newline_app a b : no_newline (a +:+ b) = no_newline a && no_newline b.
Proof. induction a as [|c a IH]; simpl; [done|]. by rewrite IH, andb_assoc. Qed.

(** [g] can follow a separator without creating a later one. *)
Definition dunder_free (g : string) : bool := bool_decide (split_last_dunder ("_" +:+ g) = None).

(** The attributes whose printed form can be parsed. *)
Definition printable (a : Attribute) : bool :=
  match a with
  | Attribute_LinkTag t g => no_newline t && no_newline g && dunder_free g
  | Attribute_RemovedLink r t g =>
      no_newline r && no_newline t && no_newline g && dunder_free t && dunder_free g
  | _ => true
  end.

Lemma split_last_dunder_exact a g :
  split_last_dunder (a +:+ "__" +:+ g) = Some (a, g) ↔ dunder_free g = true.
Proof.
  unfold dunder_free. rewrite bool_decide_eq_true, split_last_dunder_app.
  destruct (split_last_dunder ("_" +:+ g)) as [[x y]|] eqn:Hs; [|done].
  split; [|done]. intros [= _ ->]. by destruct (split_last_dunder_tail _ _ _ Hs).
Qed.

Lemma link_tag_round_trip t g :
  Attribute_try_from (Attribute_fmt (Attribute_LinkTag t g)) = Ok (Attribute_LinkTag t g) ↔
  printable (Attribute_LinkTag t g) = true.
Proof.
  cbn [Attribute_fmt printable]. unfold Attribute_try_from, LINK_REGEX.
  rewrite strip_prefix_app. cbn [mbind option_bind]. rewrite !no_newline_app.
  change (no_newline "__") with true.
  destruct (no_newline t), (no_newline g); simpl; try done.
  rewrite <- (split_last_dunder_exact t g).
  destruct (split_last_dunder _) as [[? ?]|]; naive_solver.
Qed.

Lemma removed_link_round_trip r t g :
  Attribute_try_from (Attribute_fmt (Attribute_RemovedLink r t g)) =
    Ok (Attribute_RemovedLink r t g) ↔
  printable (Attribute_RemovedLink r t g) = true.
Proof.
  cbn [Attribute_fmt printable]. unfold Attribute_try_from, LINK_REGEX, REMOVED_LINK_REGEX.
  rewrite strip_prefix_app. cbn [mbind option_bind]. rewrite !no_newline_app.
  change (no_newline "__") with true.
  destruct (no_newline r), (no_newline t), (no_newline g); simpl; try done.
  rewrite <- (append_assoc "__" t), <- (append_assoc r).
  rewrite andb_true_iff, <- (split_last_dunder_exact r t).
  rewrite <- (split_last_dunder_exact (r +:+ "__" +:+ t) g).
  split.
  - destruct (split_last_dunder (_ +:+ _ +:+ g)) as [[x y]|]; [|done]. simpl.
    destruct (split_last_dunder x) as [[a b]|] eqn:E; [|done].
    intros [= -> -> ->]. by rewrite <- (split_last_dunder_spec _ _ _ E).
  - intros [Ht ->]. simpl. by rewrite Ht.
Qed.

(** An attribute is recovered from its printed form exactly when it is
    printable: the names of the fixed attributes always are; a link tag
    attribute is when its type and tag contain no newline and the tag, together
    with the separator before it, contains no further double underscore (so a
    tag such as [a__b], or one that starts with an underscore, is parsed as a
    different type and tag); a removed-link attribute likewise, with the
    condition on its type as well. *)
Theorem attribute_round_trip a :
  Attribute_try_from (Attribute_fmt a) = Ok a ↔ printable a = true.
Proof.
  destruct a; try (by vm_compute).
  - apply link_tag_round_trip.
  - apply removed_link_round_trip.
Qed.

(** The shape of the failure: the tag [a__b] of type [t] is read back as the
    tag [b] of type [t__a]. *)
Example attribute_tag_misread :
  Attribute_try_from (Attribute_fmt (Attribute_LinkTag "t" "a__b")) =
    Ok (Attribute_LinkTag "t__a" "b").
Proof. reflexivity. Qed.

Lemma crud_status_round_trip s st : CrudStatus_from_str s = Ok st ↔ s = CrudStatus_to_string st.
Proof.
  split; [|by intros ->; destruct st]. unfold CrudStatus_from_str.
  repeat (match goal with |- context [String.eqb s ?n] =>
    destruct (String.eqb_spec s n) as [->|]; [by intros [= <-]|] end). done.
Qed.

(** ** The storage interface

    [Cas] and [Eav] are the states of the two stores; [cas_add] receives what
    [AddressableContent] provides, an address and a content.  [eavi_new] is the
    third-party constructor [EntityAttributeValueIndex::new_with_index];
    [EntityAttributeValueIndex::new] uses the current time as index. *)
Class Storage : Type := {
  Cas : Type;
  Eav : Type;
  cas_add : Cas → Address → JsonString → Result PersistenceError () * Cas;
  cas_fetch : Cas → Address → Result PersistenceError (option JsonString);
  eavi_new : Address → Attribute → Address → Z →
    Result PersistenceError EntityAttributeValueIndex;
  eav_add : Eav → EntityAttributeValueIndex →
    Result PersistenceError (option EntityAttributeValueIndex) * Eav;
  eav_fetch : Eav → EaviQuery → Result PersistenceError (list EntityAttributeValueIndex);
}.

(** Does a record match the entity, attribute and value filters of a query? *)
Definition eavi_matches (q : EaviQuery) (e : EntityAttributeValueIndex) : bool :=
  entity_filter q (eavi_entity e) && attribute_filter q (eavi_attribute e) &&
  value_filter q (eavi_value e).

(** The documented behaviour of the stores.  CAS: a successful [add] makes the
    content available at its address and leaves the other addresses alone; a
    failed one changes nothing.  EAV: append only ([eav_records] lists what was
    added), an addition may only move the index of the record; a query returns
    stored records that match it, and when no tombstone is given it returns at
    least one of the matching records. *)
Class StorageLaws `{Storage} : Type := {
  cas_add_fetch cas a c a' :
    (cas_add cas a c).1 = Ok () →
    cas_fetch (cas_add cas a c).2 a' = if decide (a' = a) then Ok (Some c) else cas_fetch cas a';
  cas_add_failed cas a c e :
    (cas_add cas a c).1 = Err e → (cas_add cas a c).2 = cas;
  eavi_new_spec ent att val now e :
    eavi_new ent att val now = Ok e →
    eavi_entity e = ent ∧ eavi_attribute e = att ∧ eavi_value e = val;
  eav_records : Eav → list EntityAttributeValueIndex;
  eav_add_records eav e :
    is_ok (eav_add eav e).1 = true →
    ∃ i, eav_records (eav_add eav e).2 =
         {| eavi_entity := eavi_entity e; eavi_attribute := eavi_attribute e;
            eavi_value := eavi_value e; eavi_index := i |} :: eav_records eav;
  eav_add_failed eav e err :
    (eav_add eav e).1 = Err err → (eav_add eav e).2 = eav;
  eav_fetch_sound eav q l e :
    eav_fetch eav q = Ok l → e ∈ l → e ∈ eav_records eav ∧ eavi_matches q e = true;
  eav_fetch_complete eav q l e :
    eav_fetch eav q = Ok l → tombstone_filter q = None →
    e ∈ eav_records eav → eavi_matches q e = true → l ≠ [];
}.

(** An implementation in memory. *)
Definition memory_storage : Storage := {|
  Cas := gmap string string;
  Eav := list EntityAttributeValueIndex;
  cas_add cas a c := (Ok (), <[a := c]> cas);
  cas_fetch cas a := Ok (cas !! a);
  eavi_new ent att val now :=
    Ok {| eavi_entity := ent; eavi_attribute := att; eavi_value := val; eavi_index := now |};
  eav_add eav e := (Ok (Some e), e :: eav);
  eav_fetch eav q := Ok (filter (λ e, eavi_matches q e = true) eav);
|}.

Definition memory_storage_laws : @StorageLaws memory_storage.
Proof.
  refine {| eav_records := λ eav : @Eav memory_storage, eav |}; simpl; try done.
  - intros cas a c a' _. rewrite lookup_insert. repeat case_decide; congruence.
  - intros ent att val now e [= <-]. done.
  - intros eav e _. exists (eavi_index e). by destruct e.
  - intros eav q l e [= <-] He. apply list_elem_of_filter in He. naive_solver.
  - intros eav q l e [= <-] _ He Hm Hnil.
    assert (He' : e ∈ filter (λ e, eavi_matches q e = true) eav) by
      (apply list_elem_of_filter; done).
    rewrite Hnil in He'. by apply not_elem_of_nil in He'.
Defined.
