(* ===== verification/Action.v ===== *)
(** * Actions and their payloads

    Models [src/crates/core/src/action.rs] and the data the actions carry: the
    pending validations of the DHT ([src/crates/core/src/dht/pending_validations.rs],
    [src/crates/core/src/entry/validation_dependencies.rs],
    [src/crates/core/src/network/entry_with_header.rs]), zome calls
    ([src/crates/core/src/nucleus/mod.rs]) and network messages
    ([src/crates/core/src/network/direct_message.rs],
    [src/crates/core_types/src/network/query.rs]).

    Points in time and durations are nanoseconds; process-unique ids are
    numbers.  The theorem of this file: turning an aspect into a pending
    validation and back gives the aspect again. *)

From S2P Require Import Prelude Errors CoreTypes Storage.

Abbreviation SystemTime := Z (only parsing).
Abbreviation Duration := Z (only parsing).
Abbreviation ProcessUniqueId := N (only parsing).

(** ** network/entry_with_header.rs *)

Record EntryWithHeader : Type := { ewh_entry : Entry; ewh_header : ChainHeader }.

(** ** dht/pending_validations.rs *)

Inductive ValidatingWorkflow : Type :=
| HoldEntry
| HoldLink
| RemoveLink
| UpdateEntry
| RemoveEntry.

#[export] Instance ValidatingWorkflow_eq_dec : EqDecision ValidatingWorkflow.
Proof. solve_decision. Defined.

Definition ValidatingWorkflow_into_string (self : ValidatingWorkflow) : string :=
  match self with
  | HoldEntry => "HoldEntry"
  | HoldLink => "HoldLink"
  | RemoveLink => "RemoveLink"
  | UpdateEntry => "UpdateEntry"
  | RemoveEntry => "RemoveEntry"
  end.

Definition ValidatingWorkflow_try_from (s : string) : Result HolochainError ValidatingWorkflow :=
  if String.eqb s "HoldEntry" then Ok HoldEntry
  else if String.eqb s "HoldLink" then Ok HoldLink
  else if String.eqb s "RemoveLink" then Ok RemoveLink
  else if String.eqb s "UpdateEntry" then Ok UpdateEntry
  else if String.eqb s "RemoveEntry" then Ok RemoveEntry
  else Err (HolochainError_SerializationError "No ValidatingWorkflow").

Record PendingValidation : Type := {
  entry_with_header : EntryWithHeader;
  dependencies : list Address;
  workflow : ValidatingWorkflow;
  uuid : ProcessUniqueId;
}.

Record ValidationTimeout : Type := { time_of_dispatch : SystemTime; delay : Duration }.

Record PendingValidationWithTimeout : Type := {
  pending : PendingValidation;
  timeout : option ValidationTimeout;
}.

Definition ValidationTimeout_from (tuple : SystemTime * Duration) : ValidationTimeout :=
  {| time_of_dispatch := tuple.1; delay := tuple.2 |}.

(** ** entry/validation_dependencies.rs *)

Definition get_validation_dependencies (self : EntryWithHeader) : list Address :=
  match ewh_entry self with
  | Entry_App _ _ =>
      match link_update_delete (ewh_header self) with
      | Some entry_to_update => [entry_to_update]
      | None => []
      end
  | Entry_LinkAdd link_data | Entry_LinkRemove link_data _ =>
      [base (link_data_link link_data); target (link_data_link link_data)]
  | Entry_ChainHeader chain_header =>
      match link chain_header with Some prev_addr => [prev_addr] | None => [] end
  | Entry_Deletion deletion => [deleted_entry_address deletion]
  | _ => []
  end.

(** [PendingValidationStruct::new]; the fresh id is an argument. *)
Definition PendingValidation_new (entry_with_header : EntryWithHeader)
    (workflow : ValidatingWorkflow) (uuid : ProcessUniqueId) : PendingValidation :=
  {| entry_with_header := entry_with_header;
     dependencies := get_validation_dependencies entry_with_header;
     workflow := workflow; uuid := uuid |}.

Definition PendingValidation_same (self : PendingValidation) (uuid : ProcessUniqueId) :
    PendingValidation :=
  {| entry_with_header := entry_with_header self; dependencies := dependencies self;
     workflow := workflow self; uuid := uuid |}.

Section pending.
Context `{Addressing}.

Definition try_from_entry_and_header (entry : Entry) (header : ChainHeader) :
    Result HolochainError EntryWithHeader :=
  if negb (bool_decide (Entry_address entry = entry_address header))
  then Err (HolochainError_ValidationFailed "Entry/Header mismatch")
  else Ok {| ewh_entry := entry; ewh_header := header |}.

(** [TryFrom<EntryAspect> for PendingValidationStruct]. *)
Definition PendingValidation_try_from (aspect : EntryAspect) (uuid : ProcessUniqueId) :
    Result HolochainError PendingValidation :=
  match aspect with
  | Aspect_Content entry header =>
      ewh ← try_from_entry_and_header entry header;
      Ok (PendingValidation_new ewh HoldEntry uuid)
  | Aspect_Header _ => Err (HolochainError_NotImplemented "EntryAspect::Header")
  | Aspect_LinkAdd link_data header =>
      ewh ← try_from_entry_and_header (Entry_LinkAdd link_data) header;
      Ok (PendingValidation_new ewh HoldLink uuid)
  | Aspect_LinkRemove link_data links_to_remove header =>
      ewh ← try_from_entry_and_header (Entry_LinkRemove link_data links_to_remove) header;
      Ok (PendingValidation_new ewh RemoveLink uuid)
  | Aspect_Update entry header =>
      ewh ← try_from_entry_and_header entry header;
      Ok (PendingValidation_new ewh UpdateEntry uuid)
  | Aspect_Deletion header =>
      deleted_entry_address ← ok_or
        (HolochainError_ValidationFailed "Deletion header is missing deletion link")
        (link_update_delete header);
      ewh ← try_from_entry_and_header
        (Entry_Deletion {| deleted_entry_address := deleted_entry_address |}) header;
      Ok (PendingValidation_new ewh RemoveEntry uuid)
  end.

(** [From<PendingValidationStruct> for EntryAspect]; [unwrap_to!] panics when
    the entry is not of the expected variant. *)
Definition EntryAspect_from_pending (pending : PendingValidation) : Outcome EntryAspect :=
  let entry := ewh_entry (entry_with_header pending) in
  let header := ewh_header (entry_with_header pending) in
  match workflow pending with
  | HoldEntry => Ret (Aspect_Content entry header)
  | HoldLink =>
      match entry with
      | Entry_LinkAdd link_data => Ret (Aspect_LinkAdd link_data header)
      | _ => Panic
      end
  | RemoveLink =>
      match entry with
      | Entry_LinkRemove link_data links_to_remove =>
          Ret (Aspect_LinkRemove link_data links_to_remove header)
      | _ => Panic
      end
  | UpdateEntry => Ret (Aspect_Update entry header)
  | RemoveEntry => Ret (Aspect_Deletion header)
  end.

(** The derived equality of pending validations: entries are compared by
    address, the rest structurally. *)
Definition EntryWithHeader_eq (a b : EntryWithHeader) : bool :=
  Entry_eq (ewh_entry a) (ewh_entry b) && bool_decide (ewh_header a = ewh_header b).

Definition PendingValidation_eq (a b : PendingValidation) : bool :=
  EntryWithHeader_eq (entry_with_header a) (entry_with_header b) &&
  bool_decide (dependencies a = dependencies b) &&
  bool_decide (workflow a = workflow b) && bool_decide (uuid a = uuid b).

(** A pending validation made from an aspect turns back into that aspect,
    without panicking; its entry is the one the header names, and making it
    fails exactly for header aspects, for deletions without a deletion link and
    for entries whose address is not the one in the header. *)
Theorem pending_aspect_round_trip aspect id :
  match PendingValidation_try_from aspect id with
  | Ok p => EntryAspect_from_pending p = Ret aspect ∧
            Entry_address (ewh_entry (entry_with_header p)) =
              entry_address (ewh_header (entry_with_header p)) ∧
            dependencies p = get_validation_dependencies (entry_with_header p) ∧ uuid p = id
  | Err _ =>
      (∃ h, aspect = Aspect_Header h) ∨
      (∃ h, aspect = Aspect_Deletion h ∧
            (link_update_delete h = None ∨
             ∃ a, link_update_delete h = Some a ∧
                  Entry_address (Entry_Deletion {| deleted_entry_address := a |}) ≠ entry_address h)) ∨
      (∃ e h, (aspect = Aspect_Content e h ∨ aspect = Aspect_Update e h ∨
               (∃ d, e = Entry_LinkAdd d ∧ aspect = Aspect_LinkAdd d h) ∨
               (∃ d l, e = Entry_LinkRemove d l ∧ aspect = Aspect_LinkRemove d l h)) ∧
              Entry_address e ≠ entry_address h)
  end.
Proof.
  destruct aspect as [e h|h|d h|d l h|e h|h]; cbn [PendingValidation_try_from];
    [| by left; eauto| | | |];
    try (destruct (link_update_delete h) as [a|] eqn:Hl; [|by right; left; eauto]);
    cbn [ok_or mbind Result_bind]; unfold try_from_entry_and_header;
    case_bool_decide as He; cbn [negb mbind Result_bind]; try (repeat split; done);
    [right; right; eauto 10..|right; left; eauto 10].
Qed.

End pending.

(** ** Zome calls: nucleus/mod.rs, wasm_engine/api, core_types/dna/capabilities.rs *)

Inductive ZomeApiFunction : Type :=
| Api_MissingNo
| Api_Abort
| Api_Debug
| Api_CommitAppEntry
| Api_GetAppEntry
| Api_UpdateEntry
| Api_RemoveEntry
| Api_InitGlobals
| Api_Call
| Api_LinkEntries
| Api_GetLinks
| Api_GetLinksCount
| Api_Query
| Api_EntryAddress
| Api_Send
| Api_Sleep
| Api_RemoveLink
| Api_Crypto
| Api_SignOneTime
| Api_VerifySignature
| Api_KeystoreList
| Api_KeystoreNewRandom
| Api_KeystoreDeriveSeed
| Api_KeystoreDeriveKey
| Api_KeystoreSign
| Api_KeystoreGetPublicKey
| Api_CommitCapabilityGrant
| Api_CommitCapabilityClaim
| Api_EmitSignal
| Api_Meta.

#[export] Instance ZomeApiFunction_eq_dec : EqDecision ZomeApiFunction.
Proof. solve_decision. Defined.

(** [wasm_utils/src/api_serialization/crypto.rs] *)
Inductive CryptoMethod : Type := CryptoMethod_Sign | CryptoMethod_Encrypt | CryptoMethod_Decrypt.

Record HdkFnCall : Type := { hdk_function : ZomeApiFunction; hdk_parameters : JsonString }.

#[export] Instance HdkFnCall_eq_dec : EqDecision HdkFnCall.
Proof. solve_decision. Defined.

Abbreviation HdkFnCallResult := (Result string JsonString) (only parsing).

Record CapabilityRequest : Type := { cap_token : Address; cap_provenance : Provenance }.

#[export] Instance CapabilityRequest_eq_dec : EqDecision CapabilityRequest.
Proof. solve_decision. Defined.

Record ZomeFnCall : Type := {
  call_id : ProcessUniqueId;
  zome_name : string;
  cap : CapabilityRequest;
  call_fn_name : string;
  call_parameters : JsonString;
}.

#[export] Instance ZomeFnCall_eq_dec : EqDecision ZomeFnCall.
Proof. solve_decision. Defined.

#[export] Instance ZomeFnCall_countable : Countable ZomeFnCall.
Proof.
  refine (inj_countable'
    (λ c, (call_id c, zome_name c, cap_token (cap c), source (cap_provenance (cap c)),
           signature (cap_provenance (cap c)), call_fn_name c, call_parameters c))
    (λ '(i, z, t, s, g, f, p),
       {| call_id := i; zome_name := z;
          cap := {| cap_token := t; cap_provenance := {| source := s; signature := g |} |};
          call_fn_name := f; call_parameters := p |}) _).
  by intros [? ? [? [? ?]] ? ?].
Defined.

Definition ZomeFnCall_same_fn_as (self fn_call : ZomeFnCall) : bool :=
  String.eqb (zome_name self) (zome_name fn_call) &&
  bool_decide (cap self = cap fn_call) &&
  String.eqb (call_fn_name self) (call_fn_name fn_call).

Record ExecuteZomeFnResponse : Type := {
  response_call : ZomeFnCall;
  response_result : Result HolochainError JsonString;
}.

Record Initialization : Type := {
  public_token : option Address;
  payload : option string;
}.

(** ** core_types/network/query.rs, core_types/validation.rs *)

Inductive SortOrder : Type := Ascending | Descending.

Inductive Pagination : Type :=
| Pagination_Size (page_number page_size : nat)
| Pagination_Time (from_time : Iso8601) (limit : nat).

Record GetLinksQueryConfiguration : Type := {
  config_headers : bool;
  pagination : option Pagination;
  sort_order : option SortOrder;
}.

Inductive GetLinksNetworkQuery : Type :=
| LinksQuery_Count
| LinksQuery_Links (configuration : GetLinksQueryConfiguration).

Record GetLinkData : Type := {
  gld_address : Address;
  gld_crud_status : CrudStatus;
  gld_target : Address;
  gld_tag : string;
  gld_headers : option (list ChainHeader);
}.

Inductive GetLinksNetworkResult : Type :=
| LinksResult_Count (n : nat)
| LinksResult_Links (links : list GetLinkData).

Inductive NetworkQuery : Type :=
| NetworkQuery_GetEntry
| NetworkQuery_GetLinks (link_type tag : option string) (crud : option CrudStatus)
    (query : GetLinksNetworkQuery).

Record EntryWithMeta : Type := {
  ewm_entry : Entry;
  ewm_crud_status : CrudStatus;
  maybe_link_update_delete : option Address;
}.

Record EntryWithMetaAndHeader : Type := {
  entry_with_meta : EntryWithMeta;
  ewm_headers : list ChainHeader;
}.

Inductive NetworkQueryResult : Type :=
| QueryResult_Entry (maybe_entry : option EntryWithMetaAndHeader)
| QueryResult_Links (links : GetLinksNetworkResult) (link_type tag : option string).

Record ValidationPackage : Type := {
  pkg_chain_header : ChainHeader;
  source_chain_entries : option (list Entry);
  source_chain_headers : option (list ChainHeader);
  pkg_custom : option string;
}.

Definition ValidationPackage_only_header (header : ChainHeader) : ValidationPackage :=
  {| pkg_chain_header := header; source_chain_entries := None;
     source_chain_headers := None; pkg_custom := None |}.

Inductive ValidationPackageDefinition : Type :=
| PackageDef_Entry
| PackageDef_ChainEntries
| PackageDef_ChainHeaders
| PackageDef_ChainFull
| PackageDef_Custom (s : string).

(** ** Keys of network requests: action.rs *)

Record GetLinksKey : Type := {
  links_base_address : Address;
  links_link_type : option string;
  links_tag : option string;
  links_id : string;
}.

Record GetEntryKey : Type := { entry_key_address : Address; entry_key_id : string }.

Inductive QueryKey : Type :=
| QueryKey_Entry (key : GetEntryKey)
| QueryKey_Links (key : GetLinksKey).

Record ValidationKey : Type := { vkey_address : Address; vkey_id : string }.

#[export] Instance GetLinksKey_eq_dec : EqDecision GetLinksKey.
Proof. solve_decision. Defined.
#[export] Instance GetEntryKey_eq_dec : EqDecision GetEntryKey.
Proof. solve_decision. Defined.
#[export] Instance QueryKey_eq_dec : EqDecision QueryKey.
Proof. solve_decision. Defined.
#[export] Instance ValidationKey_eq_dec : EqDecision ValidationKey.
Proof. solve_decision. Defined.

#[export] Instance QueryKey_countable : Countable QueryKey.
Proof.
  refine (inj_countable'
    (λ k, match k with
          | QueryKey_Entry k => inl (entry_key_address k, entry_key_id k)
          | QueryKey_Links k =>
              inr (links_base_address k, links_link_type k, links_tag k, links_id k)
          end)
    (λ x, match x with
          | inl (a, i) => QueryKey_Entry {| entry_key_address := a; entry_key_id := i |}
          | inr (b, t, g, i) =>
              QueryKey_Links {| links_base_address := b; links_link_type := t;
                                links_tag := g; links_id := i |}
          end) _).
  by intros [[]|[]].
Defined.

#[export] Instance ValidationKey_countable : Countable ValidationKey.
Proof.
  refine (inj_countable' (λ k, (vkey_address k, vkey_id k))
    (λ '(a, i), {| vkey_address := a; vkey_id := i |}) _).
  by intros [].
Defined.

(** ** Network messages: network/direct_message.rs and the [lib3h_protocol]
    structures, with the fields the code reads and writes. *)

Record CustomDirectMessage : Type := {
  dm_zome : string;
  dm_payload : Result string string;
}.

Inductive DirectMessage : Type :=
| DirectMessage_Custom (m : CustomDirectMessage)
| DirectMessage_RequestValidationPackage (key : ValidationKey)
| DirectMessage_ValidationPackage (package : option ValidationPackage).

Record DirectMessageData : Type := {
  dmd_address : Address;
  dmd_message : DirectMessage;
  msg_id : string;
  is_response : bool;
}.

Record QueryEntryData : Type := {
  qed_space_address : Address;
  qed_entry_address : Address;
  qed_request_id : string;
  qed_requester_agent_id : Address;
  qed_query : string;
}.

Record FetchEntryData : Type := {
  fed_space_address : Address;
  fed_provider_agent_id : Address;
  fed_request_id : string;
  fed_entry_address : Address;
  fed_aspect_address_list : option (list Address);
}.

Record EntryListData : Type := {
  eld_space_address : Address;
  eld_provider_agent_id : Address;
  eld_request_id : string;
  eld_address_map : gmap string (list string);
}.

(** The network configuration and the message handler (a closure) are handed
    to the transport and play no part in the state. *)
Record NetworkSettings : Type := {
  settings_dna_address : Address;
  settings_agent_id : string;
}.

Inductive QueryPayload : Type :=
| QueryPayload_Entry
| QueryPayload_Links (crud : option CrudStatus) (query : GetLinksNetworkQuery).

(** ** dht/actions/remove_queued_holding_workflow.rs *)

Inductive HoldingWorkflowQueueing : Type :=
| Processing
| Waiting (delay : Duration)
| Done.

(** [HoldAspectAttemptId = (ProcessUniqueId, ProcessUniqueId)]. *)
Abbreviation HoldAspectAttemptId := (N * N)%type (only parsing).

(** ** The actions of an instance *)

Inductive Action : Type :=
| Action_Prune
| Action_ClearActionResponse (id : string)
| Action_Commit (entry : Entry) (maybe_link_update_delete : option Address)
    (provenances : list Provenance)
| Action_QueueHoldingWorkflow (pending : PendingValidation)
    (maybe_delay : option (SystemTime * Duration))
| Action_RemoveQueuedHoldingWorkflow (state : HoldingWorkflowQueueing)
    (pending : PendingValidation)
| Action_HoldAspect (aspect : EntryAspect) (id : HoldAspectAttemptId)
| Action_CrudStatus (ewh : EntryWithHeader) (status : CrudStatus)
| Action_InitNetwork (settings : NetworkSettings)
| Action_ShutdownNetwork
| Action_Publish (address : Address)
| Action_PublishHeaderEntry (address : Address)
| Action_Query (key : QueryKey) (payload : QueryPayload)
    (timeout : option (SystemTime * Duration))
| Action_QueryTimeout (key : QueryKey)
| Action_RespondQuery (query_data : QueryEntryData) (result : NetworkQueryResult)
| Action_HandleQuery (result : NetworkQueryResult) (key : QueryKey)
| Action_ClearQueryResult (key : QueryKey)
| Action_RespondFetch (fetch_data : FetchEntryData) (aspects : list EntryAspect)
| Action_SendDirectMessage (data : DirectMessageData)
    (timeout : option (SystemTime * Duration))
| Action_SendDirectMessageTimeout (id : string)
| Action_ResolveDirectConnection (id : string)
| Action_GetValidationPackage (key : ValidationKey) (header : ChainHeader)
| Action_GetValidationPackageTimeout (key : ValidationKey)
| Action_HandleGetValidationPackage (from : Address) (key : ValidationKey)
    (maybe_validation_package : option ValidationPackage)
| Action_ClearValidationPackageResult (key : ValidationKey)
| Action_HandleCustomSendResponse (id : string) (response : Result string string)
| Action_ClearCustomSendResponse (id : string)
| Action_RespondAuthoringList (list_data : EntryListData)
| Action_RespondGossipList (list_data : EntryListData)
| Action_InitializeChain (dna : Dna)
| Action_ReturnInitializationResult (result : Result string Initialization)
| Action_QueueZomeFunctionCall (call : ZomeFnCall)
| Action_ReturnZomeFunctionResult (response : ExecuteZomeFnResponse)
| Action_TraceInvokeHdkFunction (zome_call : ZomeFnCall) (hdk_call : HdkFnCall)
| Action_TraceReturnHdkFunction (zome_call : ZomeFnCall) (hdk_call : HdkFnCall)
    (result : HdkFnCallResult)
| Action_ClearZomeFunctionCall (call : ZomeFnCall)
| Action_Ping.

(** An action with its unique id, by which wrappers are compared and hashed;
    maps keyed by wrappers are keyed by the id here. *)
Record ActionWrapper : Type := { aw_action : Action; aw_id : string }.

Definition ActionWrapper_eq (self other : ActionWrapper) : bool :=
  String.eqb (aw_id self) (aw_id other).

(** [ActionResponse<T>]: a response with the time it was created. *)
Record ActionResponse (T : Type) : Type := { created_at : SystemTime; response : T }.
Arguments created_at {T} _.
Arguments response {T} _.

Definition ActionResponse_new {T} (now : SystemTime) (r : T) : ActionResponse T :=
  {| created_at := now; response := r |}.

(** [ACTION_PRUNE_MS], in milliseconds, and one millisecond in nanoseconds. *)
Definition ACTION_PRUNE_MS : Z := 60000.
Definition millis (n : Z) : Duration := (n * 1000000)%Z.

(** [SystemTime::elapsed]: [None] when the clock is behind [t]. *)
Definition elapsed (now t : SystemTime) : option Duration :=
  if Z.leb t now then Some (now - t)%Z else None.

(** The test shared by the pruning reducers: older than [ACTION_PRUNE_MS]. *)
Definition stale (now t : SystemTime) : bool :=
  match elapsed now t with
  | Some d => Z.ltb (millis ACTION_PRUNE_MS) d
  | None => false
  end.
