(* ===== verification/Instances.v ===== *)
(** * A concrete addressing

    An implementation of the class [Addressing] for which the laws hold, used to
    evaluate the development on concrete data: the text of a header is an
    injective code of its fields, and the hash is the identity (so it has no
    collisions). *)

From S2P Require Import Prelude Errors CoreTypes Storage Action.

Local Open Scope string_scope.

(** Binary digits of a positive number, least significant first. *)
Fixpoint pos_bits (p : positive) : string :=
  match p with
  | xH => ""
  | xO p => "0" +:+ pos_bits p
  | xI p => "1" +:+ pos_bits p
  end.

Fixpoint bits_pos (s : string) : positive :=
  match s with
  | EmptyString => xH
  | String c s => if Nat.eqb (Ascii.nat_of_ascii c) 48 then xO (bits_pos s) else xI (bits_pos s)
  end.

Lemma bits_pos_bits p : bits_pos (pos_bits p) = p.
Proof.
  induction p as [p IH|p IH|]; cbn [pos_bits]; [..|done];
    rewrite append_cons, append_nil; cbn [bits_pos]; by rewrite IH.
Qed.

Definition Z_code (z : Z) : string := pos_bits (encode z).
Definition Z_decode (s : string) : option Z := decode (bits_pos s).

Definition option_code (o : option string) : string :=
  match o with None => "" | Some s => "s" +:+ s end.
Definition option_decode (s : string) : option string :=
  match s with EmptyString => None | String _ s => Some s end.

Definition type_code (t : EntryType) : list string :=
  match t with EntryType_App s => ["A"; s] | t => ["S"; EntryType_to_string t] end.
Definition type_decode (tag name : string) : EntryType :=
  if String.eqb tag "A" then EntryType_App name else EntryType_from_str name.

Fixpoint provenances_code (l : list Provenance) : list string :=
  match l with [] => [] | p :: l => source p :: signature p :: provenances_code l end.
Fixpoint provenances_decode (l : list string) : list Provenance :=
  match l with
  | s :: g :: l => {| source := s; signature := g |} :: provenances_decode l
  | _ => []
  end.

Definition header_fields (h : ChainHeader) : list string :=
  type_code (entry_type h) ++
  [entry_address h; option_code (link h); option_code (link_same_type h);
   option_code (link_update_delete h); Z_code (timestamp_nanos (timestamp h))] ++
  provenances_code (provenances h).

Definition fields_header (l : list string) : option ChainHeader :=
  match l with
  | tag :: name :: ea :: lk :: ls :: lu :: ts :: provs =>
      t ← Z_decode ts;
      Some {| entry_type := type_decode tag name; entry_address := ea;
              provenances := provenances_decode provs; link := option_decode lk;
              link_same_type := option_decode ls; link_update_delete := option_decode lu;
              timestamp := {| timestamp_nanos := t |} |}
  | _ => None
  end.

Lemma fields_header_fields h : fields_header (header_fields h) = Some h.
Proof.
  destruct h as [t ea provs lk ls lu [ts]]. unfold header_fields; cbn.
  assert (Hp : provenances_decode (provenances_code provs) = provs).
  { induction provs as [|[] ps IH]; simpl; by rewrite ?IH. }
  assert (Hz : Z_decode (Z_code ts) = Some ts).
  { unfold Z_decode, Z_code. by rewrite bits_pos_bits, decode_encode. }
  destruct t; cbn [type_code app fields_header]; rewrite Hz; cbn;
    by rewrite Hp; destruct lk, ls, lu.
Qed.

Definition toy_header_json (h : ChainHeader) : string := "h" +:+ pos_bits (encode (header_fields h)).

Definition toy_header_of_json (s : string) : option ChainHeader :=
  match s with
  | EmptyString => None
  | String _ s => l ← decode (bits_pos s); fields_header l
  end.

(** Only app entries get a text of their own; that is all the examples use. *)
Definition toy_entry_json (e : Entry) : string :=
  match e with
  | Entry_App t v => "e" +:+ t +:+ "/" +:+ v
  | e => "e" +:+ EntryType_to_string (Entry_entry_type e)
  end.

(** The inverse on app entries: the text is split at its first slash. *)
Fixpoint split_slash (s : string) : option (string * string) :=
  match s with
  | EmptyString => None
  | String c r =>
      if Nat.eqb (Ascii.nat_of_ascii c) 47 then Some ("", r)
      else '(a, b) ← split_slash r; Some (String c a, b)
  end.

Definition toy_entry_of_json (s : string) : option Entry :=
  match s with
  | EmptyString => None
  | String c s =>
      if Nat.eqb (Ascii.nat_of_ascii c) 101 then
        '(t, v) ← split_slash s; Some (Entry_App t v)
      else None
  end.

Definition toy_addressing : Addressing := {|
  encode_from_str s := s;
  entry_json := toy_entry_json;
  header_json := toy_header_json;
  aspect_json a :=
    "a" +:+ EntryAspect_type_hint a +:+ toy_header_json (EntryAspect_header a);
  entry_of_json := toy_entry_of_json;
  header_of_json := toy_header_of_json;
|}.

Definition toy_addressing_laws : @AddressingLaws toy_addressing.
Proof.
  constructor; cbn.
  - done.
  - intros h. unfold toy_header_json. rewrite append_cons, append_nil. cbn.
    by rewrite bits_pos_bits, decode_encode, <- fields_header_fields.
Defined.

(** The ideal of a content address: no two texts share one. *)
Definition toy_hash_inj : @Inj string string (=) (=) (@encode_from_str toy_addressing).
Proof. by intros s t. Defined.

(** ** DNAs can be encoded as text without loss *)

#[export] Instance Sharing_eq_dec : EqDecision Sharing.
Proof. solve_decision. Defined.
#[export] Instance LinksTo_eq_dec : EqDecision LinksTo.
Proof. solve_decision. Defined.
#[export] Instance LinkedFrom_eq_dec : EqDecision LinkedFrom.
Proof. solve_decision. Defined.
#[export] Instance EntryTypeDef_eq_dec : EqDecision EntryTypeDef.
Proof. solve_decision. Defined.
#[export] Instance TraitFns_eq_dec : EqDecision TraitFns.
Proof. solve_decision. Defined.
#[export] Instance Trait_eq_dec : EqDecision Trait.
Proof. solve_decision. Defined.
#[export] Instance BridgeReference_eq_dec : EqDecision BridgeReference.
Proof. solve_decision. Defined.
#[export] Instance Bridge_eq_dec : EqDecision Bridge.
Proof. solve_decision. Defined.
#[export] Instance Zome_eq_dec : EqDecision Zome.
Proof. solve_decision. Defined.
#[export] Instance Dna_eq_dec : EqDecision Dna.
Proof. solve_decision. Defined.

#[export] Instance EntryType_countable : Countable EntryType :=
  inj_countable' (λ t, match t with
    | EntryType_App n => inl n | EntryType_Dna => inr 0 | EntryType_AgentId => inr 1
    | EntryType_Deletion => inr 2 | EntryType_LinkAdd => inr 3 | EntryType_LinkRemove => inr 4
    | EntryType_LinkList => inr 5 | EntryType_ChainHeader => inr 6 | EntryType_ChainMigrate => inr 7
    | EntryType_CapTokenGrant => inr 8 | EntryType_CapTokenClaim => inr 9 end)
  (λ c, match c with
    | inl n => EntryType_App n | inr 0 => EntryType_Dna | inr 1 => EntryType_AgentId
    | inr 2 => EntryType_Deletion | inr 3 => EntryType_LinkAdd | inr 4 => EntryType_LinkRemove
    | inr 5 => EntryType_LinkList | inr 6 => EntryType_ChainHeader | inr 7 => EntryType_ChainMigrate
    | inr 8 => EntryType_CapTokenGrant | inr _ => EntryType_CapTokenClaim end)
  ltac:(by intros []).

#[export] Instance Sharing_countable : Countable Sharing :=
  inj_countable' (λ s, match s with Sharing_Public => 0 | Sharing_Private => 1 | Sharing_Encrypted => 2 end)
  (λ n, match n with 0 => Sharing_Public | 1 => Sharing_Private | _ => Sharing_Encrypted end)
  ltac:(by intros []).

#[export] Instance LinksTo_countable : Countable LinksTo :=
  inj_countable' (λ l, (links_to_target_type l, links_to_link_type l)) (λ '(a, b), Build_LinksTo a b)
  ltac:(by intros []).
#[export] Instance LinkedFrom_countable : Countable LinkedFrom :=
  inj_countable' (λ l, (linked_from_base_type l, linked_from_link_type l))
  (λ '(a, b), Build_LinkedFrom a b) ltac:(by intros []).
#[export] Instance EntryTypeDef_countable : Countable EntryTypeDef :=
  inj_countable' (λ d, (def_properties d, sharing d, links_to d, linked_from d))
  (λ '(a, b, c, d), Build_EntryTypeDef a b c d) ltac:(by intros []).
#[export] Instance FnParameter_countable : Countable FnParameter :=
  inj_countable' (λ p, (parameter_type p, parameter_name p)) (λ '(a, b), Build_FnParameter a b)
  ltac:(by intros []).
#[export] Instance FnDeclaration_countable : Countable FnDeclaration :=
  inj_countable' (λ f, (fn_name f, fn_inputs f, fn_outputs f)) (λ '(a, b, c), Build_FnDeclaration a b c)
  ltac:(by intros []).
#[export] Instance TraitFns_countable : Countable TraitFns :=
  inj_countable' trait_fn_names Build_TraitFns ltac:(by intros []).
#[export] Instance Trait_countable : Countable Trait :=
  inj_countable' trait_functions Build_Trait ltac:(by intros []).
#[export] Instance BridgePresence_countable : Countable BridgePresence :=
  inj_countable' (λ p, match p with BridgePresence_Required => true | BridgePresence_Optional => false end)
  (λ b, if (b : bool) then BridgePresence_Required else BridgePresence_Optional) ltac:(by intros []).
#[export] Instance BridgeReference_countable : Countable BridgeReference :=
  inj_countable' (λ r, match r with
    | BridgeReference_Address a => inl a | BridgeReference_Trait ts => inr ts end)
  (λ s, match s with inl a => BridgeReference_Address a | inr ts => BridgeReference_Trait ts end)
  ltac:(by intros []).
#[export] Instance Bridge_countable : Countable Bridge :=
  inj_countable' (λ b, (presence b, handle b, reference b)) (λ '(a, b, c), Build_Bridge a b c)
  ltac:(by intros []).
#[export] Instance Zome_countable : Countable Zome :=
  inj_countable' (λ z, (zome_description z, entry_types z, traits z, fn_declarations z, code z, zome_bridges z))
  (λ '(a, b, c, d, e, f), Build_Zome a b c d e f) ltac:(by intros []).
#[export] Instance Dna_countable : Countable Dna :=
  inj_countable' (λ d, (dna_name d, dna_description d, dna_version d, dna_uuid d, dna_spec_version d,
                        dna_properties d, zomes d))
  (λ '(a, b, c, d, e, f, g), Build_Dna a b c d e f g) ltac:(by intros []).

Definition dna_code (dna : Dna) : string := pos_bits (encode dna).

Lemma dna_code_inj d d' : dna_code d = dna_code d' → d = d'.
Proof.
  unfold dna_code. intros Heq%(f_equal bits_pos). rewrite !bits_pos_bits in Heq.
  by apply (inj encode).
Qed.
