(* ===== verification/ContentStore.v ===== *)
(** * Reading and writing content

    Models [src/crates/core/src/content_store.rs] and its two implementations
    (for the chain store and the DHT store): entries and headers are added to
    and read from the content-addressable store.  The lemmas say what an
    addition leaves at the other addresses, for hashes without collisions. *)

From S2P Require Import Prelude Errors CoreTypes Storage.

Section content_store.
Context `{Storage} `{Addressing}.

(** [GetContent::get_raw], the same for the chain store and the DHT store. *)
Definition get_raw (cas : Cas) (address : Address) : Result HolochainError (option JsonString) :=
  map_err HolochainError_from_persistence (cas_fetch cas address).

(** [GetContent::get]; a content that does not parse is a serialization
    error. *)
Definition get (cas : Cas) (address : Address) : Result HolochainError (option Entry) :=
  json ← get_raw cas address;
  match json with
  | Some json =>
      match Entry_try_from_content json with
      | Some entry => Ok (Some entry)
      | None => Err (HolochainError_SerializationError json)
      end
  | None => Ok None
  end.

Definition contains (cas : Cas) (address : Address) : Result HolochainError bool :=
  json ← get_raw cas address;
  Ok match json with Some _ => true | None => false end.

(** [AddContent::add] for an entry and for a header. *)
Definition add_entry (cas : Cas) (entry : Entry) : Result HolochainError () * Cas :=
  let '(r, cas) := cas_add cas (Entry_address entry) (Entry_content entry) in
  (map_err HolochainError_from_persistence r, cas).

Definition add_header (cas : Cas) (header : ChainHeader) : Result HolochainError () * Cas :=
  let '(r, cas) := cas_add cas (ChainHeader_address header) (ChainHeader_content header) in
  (map_err HolochainError_from_persistence r, cas).

End content_store.


(** ** What additions do to stored headers and entries *)

Section content_laws.
Context `{StorageLaws} `{Addressing}.

(** The header is stored at its address. *)
Definition stored (cas : Cas) (h : ChainHeader) : Prop :=
  cas_fetch cas (ChainHeader_address h) = Ok (Some (ChainHeader_content h)).

(** Content addresses have no collisions. *)
Context (hash_inj : Inj (=) (=) encode_from_str).

(** The address of an agent entry is a public key, which is not a hash. *)
Definition key_not_hash (entry : Entry) : Prop :=
  match entry with
  | Entry_AgentId agent_id => ∀ s, pub_sign_key agent_id ≠ encode_from_str s
  | _ => True
  end.

Lemma Entry_address_header entry h :
  key_not_hash entry → Entry_address entry = ChainHeader_address h →
  Entry_content entry = ChainHeader_content h.
Proof.
  unfold ChainHeader_address. destruct entry; simpl; intros Hk Ha;
    try (by apply hash_inj in Ha). by destruct (Hk (ChainHeader_content h)).
Qed.

Lemma add_entry_spec cas entry r cas' :
  key_not_hash entry → add_entry cas entry = (r, cas') →
  (∀ h, stored cas h → stored cas' h) ∧
  (r = Ok () → cas_fetch cas' (Entry_address entry) = Ok (Some (Entry_content entry))).
Proof.
  unfold add_entry. intros Hk Hadd.
  destruct (cas_add cas (Entry_address entry) (Entry_content entry)) as [ra cas1] eqn:Ha.
  injection Hadd as <- <-. pose proof (cas_add_fetch cas (Entry_address entry) (Entry_content entry)) as Hf.
  pose proof (cas_add_failed cas (Entry_address entry) (Entry_content entry)) as He.
  rewrite Ha in Hf, He; simpl in *. destruct ra as [[]|e].
  - split.
    + intros h Hst. unfold stored. rewrite Hf by done. case_decide as Hd; [|done].
      do 2 f_equal. by apply Entry_address_header.
    + intros _. rewrite Hf by done. by rewrite decide_True.
  - rewrite (He e) by done. split; [done|]. by intros.
Qed.

Lemma add_header_spec cas h r cas' :
  add_header cas h = (r, cas') →
  (∀ h', stored cas h' → stored cas' h') ∧ (r = Ok () → stored cas' h) ∧
  (∀ a, a ≠ ChainHeader_address h → cas_fetch cas' a = cas_fetch cas a).
Proof.
  unfold add_header. intros Hadd.
  destruct (cas_add cas (ChainHeader_address h) (ChainHeader_content h)) as [ra cas1] eqn:Ha.
  injection Hadd as <- <-.
  pose proof (cas_add_fetch cas (ChainHeader_address h) (ChainHeader_content h)) as Hf.
  pose proof (cas_add_failed cas (ChainHeader_address h) (ChainHeader_content h)) as He.
  rewrite Ha in Hf, He; simpl in *. destruct ra as [[]|e].
  - split_and!.
    + intros h' Hst. unfold stored. rewrite Hf by done. case_decide as Hd; [|done].
      unfold ChainHeader_address in Hd. apply hash_inj in Hd. by rewrite Hd.
    + intros _. unfold stored. rewrite Hf by done. by rewrite decide_True.
    + intros a Hne. rewrite Hf by done. by rewrite decide_False.
  - rewrite (He e) by done. split_and!; [done|by intros|done].
Qed.

End content_laws.
