(* ===== verification/Agent.v ===== *)
(** * The agent's source chain

    Models [src/crates/core/src/agent/chain_store.rs] (iteration over and
    queries of the source chain), [src/crates/core/src/agent/state.rs] (the
    agent's state slice and its reducers) and [src/crates/core/src/agent/mod.rs].

    The content store lives behind an [Arc<RwLock<..>>] shared by every clone of
    the state, so it is a separate argument and result of the operations.
    Signing (the conductor) and the clock are arguments; so is the glob matcher
    of the [globset] crate.  Iterators are run with fuel: the theorems show
    that the length of the chain plus one is enough.

    The invariant [chain]: the headers from the top down are stored, each links
    to the next and, through [link_same_type], to the next one of its own type.
    The theorems: commits preserve it and push one header; the full iterator
    yields the chain, the type iterator the headers of that type, and a query,
    whichever of its three branches runs, is the same filter of the chain. *)

From S2P Require Import Prelude Errors CoreTypes Storage Action Instances ContentStore.

(** ** chain_store.rs *)

Record ChainStoreQueryOptions : Type := {
  start : nat;
  limit : nat;
  opt_headers : bool;
}.

Inductive ChainStoreQueryResult : Type :=
| Addresses (l : list Address)
| Headers (l : list ChainHeader).

(** The characters of "./*[]{}". *)
Definition glob_chars : list nat := [46; 47; 42; 91; 93; 123; 125].

Fixpoint is_glob_str (s : string) : bool :=
  match s with
  | EmptyString => false
  | String c r => bool_decide (Ascii.nat_of_ascii c ∈ glob_chars) || is_glob_str r
  end.

(** Pull from an iterator through [filter], [skip] and [take]: [next] returns
    the item and the iterator's new state.  [take] stops without pulling once
    it has its items; [None] stands for [usize::max_value()]. *)
Fixpoint run_iter {S A} (next : S → Outcome (option A * S)) (p : A → bool)
    (fuel skip : nat) (limit : option nat) (cur : S) : Outcome (list A) :=
  match limit with
  | Some O => Ret []
  | _ =>
      match fuel with
      | O => NoFuel
      | S fuel =>
          '(item, cur) ← next cur;
          match item with
          | None => Ret []
          | Some x =>
              if p x then
                match skip with
                | S skip => run_iter next p fuel skip limit cur
                | O => rest ← run_iter next p fuel 0 (pred <$> limit) cur; Ret (x :: rest)
                end
              else run_iter next p fuel skip limit cur
          end
      end
  end.

(** [Iterator::find] and [nth(0)]. *)
Definition iter_find {S A} (next : S → Outcome (option A * S)) (p : A → bool)
    (fuel : nat) (cur : S) : Outcome (option A) :=
  head <$> run_iter next p fuel 0 (Some 1) cur.

Section chain_store.
Context `{Storage} `{Addressing}.

(** The fetch of a linked header; a failed fetch and a content that is not a
    header panic ([expect]). *)
Definition fetch_header (cas : Cas) (address : Address) : Outcome (option ChainHeader) :=
  match cas_fetch cas address with
  | Err _ => Panic
  | Ok None => Ret None
  | Ok (Some content) => Some <$> unwrap (header_of_json content)
  end.

Definition ChainStoreIterator_next (cas : Cas) (current : option ChainHeader) :
    Outcome (option ChainHeader * option ChainHeader) :=
  match (current ≫= link) with
  | None => Ret (current, None)
  | Some linked_chain_header_address =>
      next ← fetch_header cas linked_chain_header_address;
      Ret (current, next)
  end.

Definition ChainStoreTypeIterator_next (cas : Cas) (current : option ChainHeader) :
    Outcome (option ChainHeader * option ChainHeader) :=
  match (current ≫= link_same_type) with
  | None => Ret (current, None)
  | Some linked_chain_header_address =>
      next ← fetch_header cas linked_chain_header_address;
      Ret (current, next)
  end.

(** [ChainStore::iter_type]: the first state of the type iterator. *)
Definition iter_type (cas : Cas) (fuel : nat) (start_chain_header : option ChainHeader)
    (ty : EntryType) : Outcome (option ChainHeader) :=
  iter_find (ChainStoreIterator_next cas) (λ h, bool_decide (entry_type h = ty)) fuel
    start_chain_header.

(** [glob_build] builds a matcher from patterns ([globset]); [None] when a
    pattern is malformed. *)
Definition query (glob_build : list string → option (string → bool)) (cas : Cas) (fuel : nat)
    (start_chain_header : option ChainHeader) (entry_type_names : list string)
    (options : ChainStoreQueryOptions) :
    Outcome (Result RibosomeErrorCode ChainStoreQueryResult) :=
  let limit := if Nat.eqb (limit options) 0 then None else Some (limit options) in
  let collect l :=
    if opt_headers options then Headers l else Addresses (entry_address <$> l) in
  let all p :=
    l ← run_iter (ChainStoreIterator_next cas) p fuel (start options) limit start_chain_header;
    Ret (Ok (collect l)) in
  let glob names :=
    match glob_build names with
    | None => Ret (Err UnknownEntryType)
    | Some globset => all (λ header, globset (EntryType_to_string (entry_type header)))
    end in
  match entry_type_names with
  | [] => all (λ _, true)
  | [one] =>
      if String.eqb one "" || String.eqb one "**" then all (λ _, true)
      else if negb (is_glob_str one) then
        first ← iter_type cas fuel start_chain_header (EntryType_from_str one);
        l ← run_iter (ChainStoreTypeIterator_next cas) (λ _, true) fuel (start options) limit first;
        Ret (Ok (collect l))
      else glob [one]
  | rest => glob rest
  end.

End chain_store.

(** ** state.rs *)

Inductive AgentActionResponse : Type :=
| AgentResponse_Commit (r : Result HolochainError Address)
| AgentResponse_FetchEntry (e : option Entry)
| AgentResponse_GetLinks (r : Result HolochainError (list Address))
| AgentResponse_LinkEntries (r : Result HolochainError Entry).

Record AgentState : Type := {
  actions : gmap string (ActionResponse AgentActionResponse);
  agent_top_chain_header : option ChainHeader;
  initial_agent_address : Address;
}.

Definition AgentState_new (initial_agent_address : Address) : AgentState :=
  {| actions := ∅; agent_top_chain_header := None;
     initial_agent_address := initial_agent_address |}.

Definition AgentState_new_with_top_chain_header (chain_header : option ChainHeader)
    (initial_agent_address : Address) : AgentState :=
  {| actions := ∅; agent_top_chain_header := chain_header;
     initial_agent_address := initial_agent_address |}.

Section agent_state.
Context `{Storage} `{Addressing}.

(** The conductor's signing service, and the clock in nanoseconds since the
    epoch. *)
Variable sign : string → Result HolochainError string.
Variable now : SystemTime.

Definition iter_chain (self : AgentState) (cas : Cas) (fuel : nat) : Outcome (list ChainHeader) :=
  run_iter (ChainStoreIterator_next cas) (λ _, true) fuel 0 None (agent_top_chain_header self).

(** [iter_type(..).nth(0)]. *)
Definition first_of_type (self : AgentState) (cas : Cas) (fuel : nat) (ty : EntryType) :
    Outcome (option ChainHeader) :=
  first ← iter_type cas fuel (agent_top_chain_header self) ty;
  iter_find (ChainStoreTypeIterator_next cas) (λ _, true) fuel first.

(** The [ok_or_else] of the code is never reached: [or_else] always gives an
    address. *)
Definition get_agent_address (self : AgentState) (cas : Cas) (fuel : nat) :
    Outcome (Result HolochainError Address) :=
  first ← first_of_type self cas fuel EntryType_AgentId;
  Ret (ok_or (HolochainError_ErrorGeneric "Agent entry not found")
         (match entry_address <$> first with
          | Some a => Some a
          | None => Some (initial_agent_address self)
          end)).

Definition get_agent (self : AgentState) (cas : Cas) (fuel : nat) :
    Outcome (Result HolochainError AgentId) :=
  agent_entry_address ← get_agent_address self cas fuel;
  match (agent_entry_address ≫= get cas) with
  | Err e => Ret (Err e)
  | Ok None => Ret (Err (HolochainError_ErrorGeneric "Agent entry not found"))
  | Ok (Some (Entry_AgentId agent_id)) => Ret (Ok agent_id)
  | Ok (Some _) => Panic
  end.

Definition get_most_recent_header_for_entry (self : AgentState) (cas : Cas) (fuel : nat)
    (entry : Entry) : Outcome (option ChainHeader) :=
  first ← iter_type cas fuel (agent_top_chain_header self) (Entry_entry_type entry);
  iter_find (ChainStoreTypeIterator_next cas)
    (λ h, bool_decide (entry_address h = Entry_address entry)) fuel first.

(** [agent::find_chain_header]. *)
Definition find_chain_header (entry : Entry) (self : AgentState) (cas : Cas) (fuel : nat) :
    Outcome (option ChainHeader) :=
  iter_find (ChainStoreIterator_next cas)
    (λ h, bool_decide (entry_address h = Entry_address entry)) fuel
    (agent_top_chain_header self).

(** A clock before the epoch panics ([expect]). *)
Definition create_new_chain_header (entry : Entry) (self : AgentState) (cas : Cas) (fuel : nat)
    (crud_link : option Address) (provenances : list Provenance) :
    Outcome (Result HolochainError ChainHeader) :=
  agent_address ← get_agent_address self cas fuel;
  match agent_address, sign (Entry_address entry) with
  | Err e, _ => Ret (Err e)
  | Ok _, Err e => Ret (Err e)
  | Ok agent_address, Ok signature =>
      if Z.ltb now 0 then Panic
      else
        same_type ← first_of_type self cas fuel (Entry_entry_type entry);
        Ret (Ok {| entry_type := Entry_entry_type entry;
                   entry_address := Entry_address entry;
                   provenances :=
                     provenances ++ [{| source := agent_address; signature := signature |}];
                   link := ChainHeader_address <$> agent_top_chain_header self;
                   link_same_type := ChainHeader_address <$> same_type;
                   link_update_delete := crud_link;
                   timestamp := Iso8601_new (now / 1000000000) (now mod 1000000000) |})
  end.

(** The header under which a header is itself published: its links are cleared
    and its timestamp is that of the header it is about. *)
Definition create_entry_with_header_for_header (self : AgentState) (cas : Cas) (fuel : nat)
    (chain_header : ChainHeader) : Outcome (Result HolochainError EntryWithHeader) :=
  let entry := Entry_ChainHeader chain_header in
  proto ← create_new_chain_header entry self cas fuel None [];
  Ret (proto ← proto;
       Ok {| ewh_entry := entry;
             ewh_header := {| entry_type := entry_type proto;
                              entry_address := entry_address proto;
                              provenances := provenances proto;
                              link := None; link_same_type := None;
                              link_update_delete := None;
                              timestamp := timestamp chain_header |} |}).

(** The closure of [reduce_commit_entry] that stores the entry and the header
    and moves the top of the chain. *)
Definition store_commit (self : AgentState) (cas : Cas) (entry : Entry)
    (header : Result HolochainError ChainHeader) :
    Result HolochainError Address * AgentState * Cas :=
  match header with
  | Err e => (Err e, self, cas)
  | Ok chain_header =>
      match add_entry cas entry with
      | (Err e, cas) => (Err e, self, cas)
      | (Ok _, cas) =>
          match add_header cas chain_header with
          | (Err e, cas) => (Err e, self, cas)
          | (Ok _, cas) =>
              (Ok (Entry_address entry),
               {| actions := actions self; agent_top_chain_header := Some chain_header;
                  initial_agent_address := initial_agent_address self |}, cas)
          end
      end
  end.

Definition reduce_commit_entry (self : AgentState) (cas : Cas) (fuel : nat) (id : string)
    (entry : Entry) (maybe_link_update_delete : option Address)
    (provenances : list Provenance) : Outcome (AgentState * Cas) :=
  header ← create_new_chain_header entry self cas fuel maybe_link_update_delete provenances;
  let '(result, self, cas) := store_commit self cas entry header in
  Ret ({| actions :=
            <[id := ActionResponse_new now (AgentResponse_Commit result)]> (actions self);
          agent_top_chain_header := agent_top_chain_header self;
          initial_agent_address := initial_agent_address self |}, cas).

Definition reduce_prune (self : AgentState) : AgentState :=
  {| actions :=
       filter (λ '(_, r), stale now (created_at r) = false) (actions self);
     agent_top_chain_header := agent_top_chain_header self;
     initial_agent_address := initial_agent_address self |}.

Definition reduce_clear_action_response (self : AgentState) (id : string) : AgentState :=
  {| actions := filter (λ '(action_id, _), action_id = id) (actions self);
     agent_top_chain_header := agent_top_chain_header self;
     initial_agent_address := initial_agent_address self |}.

(** [agent::state::reduce] with [resolve_reducer]. *)
Definition reduce (self : AgentState) (cas : Cas) (fuel : nat) (action_wrapper : ActionWrapper) :
    Outcome (AgentState * Cas) :=
  match aw_action action_wrapper with
  | Action_ClearActionResponse id => Ret (reduce_clear_action_response self id, cas)
  | Action_Commit entry maybe_link_update_delete provenances =>
      reduce_commit_entry self cas fuel (aw_id action_wrapper) entry maybe_link_update_delete
        provenances
  | Action_Prune => Ret (reduce_prune self, cas)
  | _ => Ret (self, cas)
  end.

End agent_state.

(** ** The chain as a list of headers *)

Section chain.
Context `{Storage} `{Addressing}.

(** The headers of a type, and the most recent one. *)
Definition of_type (ty : EntryType) (l : list ChainHeader) : list ChainHeader :=
  filter (λ h, entry_type h = ty) l.
Definition latest_of_type (ty : EntryType) (l : list ChainHeader) : option ChainHeader :=
  head (of_type ty l).

(** [chain cas l]: [l] is a source chain, its top first. *)
Inductive chain (cas : Cas) : list ChainHeader → Prop :=
| chain_nil : chain cas []
| chain_cons h l :
    stored cas h →
    link h = ChainHeader_address <$> head l →
    link_same_type h = ChainHeader_address <$> latest_of_type (entry_type h) l →
    chain cas l →
    chain cas (h :: l).

(** The reference meaning of [filter], [skip] and [take]. *)
Definition take_limit {A} (limit : option nat) (l : list A) : list A :=
  match limit with None => l | Some n => take n l end.

Context `{!AddressingLaws}.

Lemma fetch_header_stored cas h : stored cas h → fetch_header cas (ChainHeader_address h) = Ret (Some h).
Proof.
  unfold stored, fetch_header. intros ->. unfold ChainHeader_content.
  by rewrite header_json_inverse.
Qed.

Lemma chain_tail cas h l : chain cas (h :: l) → chain cas l.
Proof. by inversion 1. Qed.

Lemma chain_app cas l1 l2 : chain cas (l1 ++ l2) → chain cas l2.
Proof. induction l1 as [|h l1 IH]; simpl; [done|]. intros Hc%chain_tail. auto. Qed.

Lemma chain_stored cas l h : chain cas l → h ∈ l → stored cas h.
Proof. induction 1; set_solver. Qed.

Lemma iterator_next_chain cas l :
  chain cas l → ChainStoreIterator_next cas (head l) = Ret (head l, head (tail l)).
Proof.
  destruct 1 as [|h l Hst Hl _ Hc]; simpl; [done|].
  unfold ChainStoreIterator_next; simpl. rewrite Hl.
  destruct l as [|h' l]; simpl; [done|].
  rewrite fetch_header_stored by (eapply chain_stored; [done|set_solver]). done.
Qed.

(** Splitting a chain at the most recent header of a type. *)
Lemma of_type_split ty l :
  of_type ty l = [] ∨
  ∃ l1 h l2, l = l1 ++ h :: l2 ∧ entry_type h = ty ∧ of_type ty l = h :: of_type ty l2.
Proof.
  induction l as [|h l IH]; [by left|]. unfold of_type. rewrite filter_cons.
  case_decide as Hh.
  - right. by exists [], h, l.
  - destruct IH as [IH|(l1 & h' & l2 & -> & Hty & IH)]; [by left|].
    right. by exists (h :: l1), h', l2.
Qed.

Lemma type_iterator_next_chain cas ty l h l' :
  chain cas l → of_type ty l = h :: l' →
  ∃ l2, length l2 < length l ∧ chain cas l2 ∧ of_type ty l2 = l' ∧
    ChainStoreTypeIterator_next cas (Some h) = Ret (Some h, latest_of_type ty l2).
Proof.
  intros Hc Hl. destruct (of_type_split ty l) as [Hn|(l1 & h' & l2 & -> & Hty & Hs)];
    [congruence|].
  rewrite Hs in Hl. simplify_eq. exists l2. apply chain_app in Hc as Hc2.
  inversion Hc2 as [|? ? Hst Hlk Hsame Hc']; subst. split_and!; try done.
  { rewrite length_app; simpl; lia. }
  unfold ChainStoreTypeIterator_next; simpl. rewrite Hsame.
  destruct (latest_of_type (entry_type h) l2) as [h2|] eqn:Hl2; simpl; [|done].
  rewrite fetch_header_stored; [done|]. eapply chain_stored; [exact Hc'|].
  unfold latest_of_type in Hl2. apply head_Some_elem_of in Hl2.
  by apply list_elem_of_filter in Hl2 as [_ ?].
Qed.

(** An iterator in state [s] yields exactly the items [l], then ends. *)
Inductive yields {S A} (next : S → Outcome (option A * S)) : S → list A → Prop :=
| yields_end s s' : next s = Ret (None, s') → yields next s []
| yields_item s s' x l :
    next s = Ret (Some x, s') → yields next s' l → yields next s (x :: l).

Lemma run_iter_yields {S A} (next : S → Outcome (option A * S)) p fuel skip limit s l :
  yields next s l → length l < fuel →
  run_iter next p fuel skip limit s = Ret (take_limit limit (drop skip (filter p l))).
Proof.
  intros Hy. revert fuel skip limit.
  induction Hy as [s s' Hn|s s' x l Hn _ IH]; intros fuel skip limit Hf;
    (destruct fuel as [|fuel]; simpl in Hf; [lia|]); cbn [run_iter]; rewrite Hn;
    (destruct limit as [[|n]|]; cbn [mbind Outcome_bind]; [by rewrite ?take_0|..]).
  1,2: rewrite filter_nil, drop_nil; by rewrite ?take_nil.
  all: rewrite filter_cons; destruct (p x); case_decide as Hd; try done.
  1,3: destruct skip as [|skip]; rewrite IH by lia; done.
  all: by rewrite IH by lia.
Qed.

(** Whatever an iterator yields satisfies the test. *)
Lemma run_iter_satisfies {S A} (next : S → Outcome (option A * S)) p fuel skip limit s l :
  run_iter next p fuel skip limit s = Ret l → ∀ x, x ∈ l → p x = true.
Proof.
  revert skip limit s l. induction fuel as [|fuel IH]; intros skip limit s l; cbn [run_iter].
  all: destruct limit as [[|n]|]; [by intros [= <-]; set_solver|..].
  all: try (by destruct (next s) as [[[x|] s1]| |]; cbn [mbind Outcome_bind]; intros; simplify_eq; set_solver).
  all: destruct (next s) as [[[x|] s1]| |]; cbn [mbind Outcome_bind]; try done;
    [|by intros [= <-]; set_solver].
  all: destruct (p x) eqn:Hp; [|by apply IH]; destruct skip as [|skip]; [|by apply IH].
  all: destruct (run_iter _ _ _ _ _ _) as [rest| |] eqn:Hr; cbn [mbind Outcome_bind]; try done.
  all: intros [= <-] y [->|Hy]%elem_of_cons; [done|by eapply IH].
Qed.

Lemma iter_find_yields {S A} (next : S → Outcome (option A * S)) p fuel s l :
  yields next s l → length l < fuel → iter_find next p fuel s = Ret (head (filter p l)).
Proof.
  intros. unfold iter_find. erewrite run_iter_yields by done. simpl.
  by destruct (filter p l).
Qed.

Lemma chain_yields cas l : chain cas l → yields (ChainStoreIterator_next cas) (head l) l.
Proof.
  induction l as [|h l IH]; intros Hc.
  - by apply (yields_end _ _ None).
  - eapply yields_item; [by apply iterator_next_chain|]. simpl. apply IH. by eapply chain_tail.
Qed.

Lemma chain_type_yields cas ty l :
  chain cas l →
  yields (ChainStoreTypeIterator_next cas) (latest_of_type ty l) (of_type ty l).
Proof.
  remember (length l) as n eqn:Hn. revert l Hn.
  induction (lt_wf n) as [n _ IH]. intros l -> Hc. unfold latest_of_type.
  destruct (of_type ty l) as [|h l'] eqn:Hl; [by apply (yields_end _ _ None)|].
  destruct (type_iterator_next_chain cas ty l h l' Hc Hl) as (l2 & Hlt & Hc2 & <- & Hn).
  eapply yields_item; [exact Hn|]. by eapply IH.
Qed.

Lemma iter_type_chain cas fuel ty l :
  chain cas l → length l < fuel → iter_type cas fuel (head l) ty = Ret (latest_of_type ty l).
Proof.
  intros Hc Hf. unfold iter_type. erewrite iter_find_yields by eauto using chain_yields.
  unfold latest_of_type, of_type. repeat f_equal. apply list_filter_iff.
  intros h. by rewrite bool_decide_spec.
Qed.

Lemma of_type_length ty l : length (of_type ty l) ≤ length l.
Proof. apply length_filter. Qed.

Lemma first_of_type_chain agent cas fuel ty l :
  chain cas l → agent_top_chain_header agent = head l → length l < fuel →
  first_of_type agent cas fuel ty = Ret (latest_of_type ty l).
Proof.
  intros Hc Ht Hf. unfold first_of_type. rewrite Ht, iter_type_chain by done.
  cbn [mbind Outcome_bind]. pose proof (of_type_length ty l).
  erewrite iter_find_yields by (eauto using chain_type_yields || lia).
  by rewrite list_filter_all by done.
Qed.

(** The address of the agent a chain belongs to. *)
Definition chain_agent_address (agent : AgentState) (l : list ChainHeader) : Address :=
  match latest_of_type EntryType_AgentId l with
  | Some h => entry_address h
  | None => initial_agent_address agent
  end.

Lemma get_agent_address_chain agent cas fuel l :
  chain cas l → agent_top_chain_header agent = head l → length l < fuel →
  get_agent_address agent cas fuel = Ret (Ok (chain_agent_address agent l)).
Proof.
  intros Hc Ht Hf. unfold get_agent_address.
  erewrite first_of_type_chain by done. cbn [mbind Outcome_bind].
  unfold chain_agent_address. by destruct (latest_of_type _ l).
Qed.

(** Which headers a query selects; [None] when a glob pattern is malformed. *)
Definition query_filter (glob_build : list string → option (string → bool))
    (names : list string) : option (ChainHeader → bool) :=
  let glob names := (λ g h, g (EntryType_to_string (entry_type h))) <$> glob_build names in
  match names with
  | [] => Some (λ _, true)
  | [one] =>
      if String.eqb one "" || String.eqb one "**" then Some (λ _, true)
      else if negb (is_glob_str one)
      then Some (λ h, bool_decide (entry_type h = EntryType_from_str one))
      else glob [one]
  | rest => glob rest
  end.

(** A query of the source chain, run with fuel for one step more than the
    chain has headers, terminates without panicking and returns the reference
    answer: the headers of the chain (or their entry addresses) that the names
    select, after skipping [start] of them and keeping at most [limit] (all of
    them when [limit] is zero).  In particular the branch for a single plain
    name, which jumps along [link_same_type], agrees with filtering the whole
    chain by type. *)
Lemma query_is_filter glob_build cas fuel l names options :
  chain cas l → length l < fuel →
  query glob_build cas fuel (head l) names options =
    Ret (match query_filter glob_build names with
         | None => Err UnknownEntryType
         | Some p =>
             let limit := if Nat.eqb (limit options) 0 then None else Some (limit options) in
             let found := take_limit limit (drop (start options) (filter p l)) in
             Ok (if opt_headers options then Headers found else Addresses (entry_address <$> found))
         end).
Proof.
  intros Hc Hf. pose proof (chain_yields cas l Hc) as Hy. unfold query, query_filter.
  destruct names as [|one [|two rest]]; cbn [mbind Outcome_bind].
  - by erewrite run_iter_yields by done.
  - destruct (_ || _); [by erewrite run_iter_yields by done|].
    destruct (negb (is_glob_str one)).
    + rewrite iter_type_chain by done. cbn [mbind Outcome_bind].
      pose proof (of_type_length (EntryType_from_str one) l).
      erewrite run_iter_yields by (eauto using chain_type_yields || lia).
      rewrite list_filter_all by done. unfold of_type. cbn [mbind Outcome_bind].
      erewrite (list_filter_iff _ (λ h, Is_true (bool_decide _))); [done|].
      intros h. by rewrite bool_decide_spec.
    + destruct (glob_build [one]); simpl; [by erewrite run_iter_yields by done|done].
  - destruct (glob_build _); simpl; [by erewrite run_iter_yields by done|done].
Qed.

End chain.

(** ** Commits *)

Section commit.
Context `{StorageLaws} `{AddressingLaws}.

(** Content addresses have no collisions. *)
Context (hash_inj : Inj (=) (=) encode_from_str).

Lemma chain_mono cas cas' l :
  (∀ h, stored cas h → stored cas' h) → chain cas l → chain cas' l.
Proof. intros Hst. induction 1; constructor; eauto. Qed.

(** The header a commit builds on the chain [l]. *)
Definition next_header (agent : AgentState) (l : list ChainHeader) (now : SystemTime)
    (entry : Entry) (sig : string) (upd : option Address) (provs : list Provenance) : ChainHeader :=
  {| entry_type := Entry_entry_type entry;
     entry_address := Entry_address entry;
     provenances := provs ++ [{| source := chain_agent_address agent l; signature := sig |}];
     link := ChainHeader_address <$> head l;
     link_same_type := ChainHeader_address <$> latest_of_type (Entry_entry_type entry) l;
     link_update_delete := upd;
     timestamp := Iso8601_new (now / 1000000000) (now mod 1000000000) |}.

Lemma create_new_chain_header_chain sign now agent cas l fuel entry upd provs :
  chain cas l → agent_top_chain_header agent = head l → length l < fuel → (0 ≤ now)%Z →
  create_new_chain_header sign now entry agent cas fuel upd provs =
    Ret (match sign (Entry_address entry) with
         | Err e => Err e
         | Ok sig => Ok (next_header agent l now entry sig upd provs)
         end).
Proof.
  intros Hc Ht Hf Hn. unfold create_new_chain_header.
  erewrite get_agent_address_chain by done. cbn [mbind Outcome_bind].
  destruct (sign (Entry_address entry)) as [sig|e]; [|done].
  destruct (Z.ltb_spec now 0); [lia|].
  erewrite first_of_type_chain by done. cbn [mbind Outcome_bind]. by rewrite Ht.
Qed.

(** The outcome of a commit, as it shows in the response and in the chain. *)
Definition commit_result (agent : AgentState) (l : list ChainHeader) (now : SystemTime)
    (entry : Entry) (upd : option Address) (provs : list Provenance)
    (r : Result HolochainError Address) (agent' : AgentState) (cas' : Cas) : Prop :=
  match r with
  | Ok a =>
      ∃ sig, let h := next_header agent l now entry sig upd provs in
        a = Entry_address entry ∧ agent_top_chain_header agent' = Some h ∧ chain cas' (h :: l) ∧
        cas_fetch cas' (Entry_address entry) = Ok (Some (Entry_content entry))
  | Err _ => agent_top_chain_header agent' = agent_top_chain_header agent ∧ chain cas' l
  end.

Lemma store_commit_chain agent cas l now entry sig upd provs :
  chain cas l → agent_top_chain_header agent = head l → key_not_hash entry →
  let h := next_header agent l now entry sig upd provs in
  let '(r, agent', cas') := store_commit agent cas entry (Ok h) in
  actions agent' = actions agent ∧ initial_agent_address agent' = initial_agent_address agent ∧
  commit_result agent l now entry upd provs r agent' cas'.
Proof.
  intros Hc Ht Hk h. cbn [store_commit].
  destruct (add_entry cas entry) as [re cas1] eqn:He.
  destruct (add_entry_spec hash_inj _ _ _ _ Hk He) as [Hst1 Hin1].
  destruct re as [[]|e]; [|by repeat (split; [done|]); eauto using chain_mono].
  destruct (add_header cas1 h) as [rh cas2] eqn:Hh.
  destruct (add_header_spec hash_inj _ _ _ _ Hh) as (Hst2 & Hin2 & Hother).
  destruct rh as [[]|e]; (split; [done|]; split; [done|]).
  - exists sig. fold h. split; [done|]. split; [done|]. split.
    { apply chain_cons; [by apply Hin2|done..|]. eauto using chain_mono. }
    destruct (decide (Entry_address entry = ChainHeader_address h)) as [Heq|Hne].
    + rewrite (Entry_address_header hash_inj _ _ Hk Heq), Heq. by apply Hin2.
    + rewrite Hother by done. by apply Hin1.
  - split; [done|]. eauto using chain_mono.
Qed.

Lemma commit_extends_chain_core sign now agent cas l id entry upd provs :
  chain cas l → agent_top_chain_header agent = head l → (0 ≤ now)%Z → key_not_hash entry →
  ∃ r agent' cas',
    (∀ fuel, length l < fuel →
       reduce_commit_entry sign now agent cas fuel id entry upd provs = Ret (agent', cas')) ∧
    actions agent' = <[id := {| created_at := now; response := AgentResponse_Commit r |}]> (actions agent) ∧
    commit_result agent l now entry upd provs r agent' cas'.
Proof.
  intros Hc Ht Hn Hk.
  destruct (sign (Entry_address entry)) as [sig|e] eqn:Hsig.
  - pose proof (store_commit_chain agent cas l now entry sig upd provs Hc Ht Hk) as Hs.
    cbn zeta in Hs. destruct (store_commit _ _ _ _) as [[r agent'] cas'] eqn:Hst.
    destruct Hs as (Ha & Hi & Hr). exists r. do 2 eexists. split.
    { intros fuel Hf. unfold reduce_commit_entry.
      erewrite create_new_chain_header_chain by done. cbn [mbind Outcome_bind].
      rewrite Hsig, Hst. done. }
    cbn [actions]. rewrite Ha. split; [done|]. by destruct r.
  - exists (Err e). do 2 eexists. split.
    { intros fuel Hf. unfold reduce_commit_entry.
      erewrite create_new_chain_header_chain by done. cbn [mbind Outcome_bind].
      rewrite Hsig. done. }
    split; [done|]. by split.
Qed.

(** What a commit does to the agent's source chain.  On a chain [l], with
    enough fuel to walk it, [reduce_commit_entry] terminates without panicking
    and records its response under the action's id.  If the response is a
    success, the entry is stored under its address and exactly one header has
    been pushed: it names the entry, is signed by the chain's agent after the
    given provenances, and links to the previous top and to the latest header of
    its type, so the result is again a chain.  If it is an error (the signing
    service or a store failed), the top and the chain are as before. *)
Theorem commit_extends_chain sign now agent cas l fuel id entry upd provs :
  chain cas l → agent_top_chain_header agent = head l → length l < fuel →
  (0 ≤ now)%Z → key_not_hash entry →
  ∃ r agent' cas',
    reduce_commit_entry sign now agent cas fuel id entry upd provs = Ret (agent', cas') ∧
    actions agent' = <[id := {| created_at := now; response := AgentResponse_Commit r |}]> (actions agent) ∧
    commit_result agent l now entry upd provs r agent' cas'.
Proof.
  intros Hc Ht Hf Hn Hk.
  destruct (commit_extends_chain_core sign now agent cas l id entry upd provs)
    as (r & agent' & cas' & Hr & Ha & Hres); [done..|]. eauto 10.
Qed.

(** ** The chain along the life of an instance *)

(** An action reduces to a state when the reducer returns it, whatever the fuel
    beyond some bound. *)
Definition reduces_to (sign : string → Result HolochainError string) (now : SystemTime)
    (aw : ActionWrapper) (s s' : AgentState * Cas) : Prop :=
  ∃ n, ∀ fuel, n ≤ fuel → reduce sign now s.1 s.2 fuel aw = Ret s'.

(** The actions the agent may receive: the keys of committed agent entries are
    not hashes. *)
Definition sound_action (a : Action) : Prop :=
  match a with Action_Commit entry _ _ => key_not_hash entry | _ => True end.

Inductive agent_step : AgentState * Cas → AgentState * Cas → Prop :=
| agent_step_intro sign now aw s s' :
    (0 ≤ now)%Z → sound_action (aw_action aw) → reduces_to sign now aw s s' → agent_step s s'.

Definition agent_inv (l : list ChainHeader) (s : AgentState * Cas) : Prop :=
  chain s.2 l ∧ agent_top_chain_header s.1 = head l.

Lemma commit_result_inv agent l now entry upd provs r agent' cas' :
  agent_top_chain_header agent = head l →
  commit_result agent l now entry upd provs r agent' cas' →
  ∃ l', length l' ≤ 1 ∧ agent_inv (l' ++ l) (agent', cas').
Proof.
  intros Ht. destruct r as [a|e].
  - intros (sig & _ & Htop & Hc & _). eexists [_]. by split; [simpl; lia|].
  - intros [Htop Hc]. exists []. split; [simpl; lia|]. split; [done|]. simpl. congruence.
Qed.

(** One action, from a chain: the reducer returns for every fuel above the
    chain's length, and pushes at most one header. *)
Lemma reduce_total sign now aw s l :
  agent_inv l s → (0 ≤ now)%Z → sound_action (aw_action aw) →
  ∃ s' l', length l' ≤ 1 ∧ agent_inv (l' ++ l) s' ∧
           ∀ fuel, length l < fuel → reduce sign now s.1 s.2 fuel aw = Ret s'.
Proof.
  destruct s as [agent cas]. intros [Hc Ht] Hn Hs. simpl in *. unfold reduce.
  destruct (aw_action aw) as [|?|entry upd provs| | | | | | | | | | | | | | | | | | | | | | | | | | | | | | | | |]; simpl in Hs;
    try (by eexists (_, cas), []; split; [simpl; lia|]; split; [|done]).
  destruct (commit_extends_chain_core sign now agent cas l (aw_id aw) entry upd provs)
    as (r & agent' & cas' & Hr & _ & Hres); [done..|].
  destruct (commit_result_inv _ _ _ _ _ _ _ _ _ Ht Hres) as (l' & Hl' & Hi). eauto 10.
Qed.

Lemma agent_step_inv s s' l :
  agent_inv l s → agent_step s s' → ∃ l', length l' ≤ 1 ∧ agent_inv (l' ++ l) s'.
Proof.
  intros Hi Hstep. inversion Hstep as [sign now aw ? ? Hn Hs [n Hr]]; subst.
  destruct (reduce_total sign now aw s l Hi Hn Hs) as (s2 & l' & Hl' & Hi' & Hr').
  exists l'. split; [done|]. specialize (Hr (max n (S (length l)))).
  specialize (Hr ltac:(lia)). rewrite Hr' in Hr by lia. by simplify_eq.
Qed.

(** C7: the source chain is append-only and never corrupted.  From a state that
    holds the chain [l], along any sequence of actions (commits that succeed or
    fail, clears, prunings and everything the agent ignores), the state holds a
    chain that extends [l]; and from each such state every further action is
    reduced, with fuel just above the length of the chain: the reducer neither
    panics nor diverges. *)
Theorem chain_append_only s s' l :
  agent_inv l s → rtc agent_step s s' →
  ∃ l', agent_inv (l' ++ l) s' ∧
        ∀ sign now aw, (0 ≤ now)%Z → sound_action (aw_action aw) →
          ∃ s'', reduces_to sign now aw s' s'' ∧ agent_step s' s''.
Proof.
  intros Hi Hs. assert (∃ l', agent_inv (l' ++ l) s') as [l' Hl'].
  { revert l Hi. induction Hs as [s|s s1 s' Hstep _ IH]; intros l Hi; [by exists []|].
    destruct (agent_step_inv _ _ _ Hi Hstep) as (l1 & _ & Hi1).
    destruct (IH _ Hi1) as [l2 Hi2]. exists (l2 ++ l1). by rewrite <- (assoc_L app). }
  exists l'. split; [done|]. intros sign now aw Hn Ha.
  destruct (reduce_total sign now aw s' _ Hl' Hn Ha) as (s2 & _ & _ & _ & Hr).
  assert (reduces_to sign now aw s' s2).
  { exists (S (length (l' ++ l))). intros fuel Hf. apply Hr. lia. }
  eauto using agent_step.
Qed.

(** The header under which a header is published is deterministic, as its
    comment requires: it depends neither on the clock, nor on the state of the
    source chain beyond the agent the chain belongs to. *)
Theorem virtual_header_deterministic sign now1 now2 agent1 agent2 cas1 cas2 l1 l2 fuel h :
  agent_inv l1 (agent1, cas1) → agent_inv l2 (agent2, cas2) →
  chain_agent_address agent1 l1 = chain_agent_address agent2 l2 →
  (0 ≤ now1)%Z → (0 ≤ now2)%Z → length l1 < fuel → length l2 < fuel →
  create_entry_with_header_for_header sign now1 agent1 cas1 fuel h =
    create_entry_with_header_for_header sign now2 agent2 cas2 fuel h ∧
  ∃ r, create_entry_with_header_for_header sign now1 agent1 cas1 fuel h = Ret r.
Proof.
  intros [Hc1 Ht1] [Hc2 Ht2] Ha Hn1 Hn2 Hf1 Hf2. simpl in *.
  unfold create_entry_with_header_for_header.
  erewrite !create_new_chain_header_chain by done. cbn [mbind Outcome_bind].
  destruct (sign _); simpl; [by rewrite Ha; eauto|eauto].
Qed.

End commit.

Lemma commit_extends_chain_witness :
  let sign _ := Ok "sig"%string in
  let agent := AgentState_new "alice" in
  ∃ r agent' (cas' : @Cas memory_storage),
    @reduce_commit_entry memory_storage toy_addressing sign 5000000000 agent ∅ 1 "id"
      (Entry_App "post" "hello") None [] = Ret (agent', cas') ∧
    actions agent' = <["id" := {| created_at := 5000000000%Z;
                                   response := AgentResponse_Commit r |}]> ∅ ∧
    @commit_result memory_storage toy_addressing agent [] 5000000000 (Entry_App "post" "hello")
      None [] r agent' cas'.
Proof.
  apply (@commit_extends_chain memory_storage memory_storage_laws toy_addressing
           toy_addressing_laws toy_hash_inj _ 5000000000 (AgentState_new "alice") ∅ []).
  - constructor.
  - reflexivity.
  - simpl. lia.
  - lia.
  - exact I.
Defined.

(** Clearing the response of an action drops the wrong responses: after
    [ClearActionResponse id] the map holds the response of [id], if there was
    one, and none of the others, because the filter keeps the entries whose id
    is the given one. *)
Theorem clear_action_response_keeps_only_target self id id' :
  actions (reduce_clear_action_response self id) !! id' =
    if decide (id' = id) then actions self !! id' else None.
Proof.
  unfold reduce_clear_action_response; cbn [actions]. case_decide as Hd.
  - subst. destruct (actions self !! id) as [r|] eqn:Hr.
    + by apply map_lookup_filter_Some.
    + apply map_lookup_filter_None. by left.
  - apply map_lookup_filter_None. right. by intros r _.
Qed.

(** ** The theorems on concrete chains *)

Section witnesses.
#[local] Existing Instance memory_storage.
#[local] Existing Instance memory_storage_laws.
#[local] Existing Instance toy_addressing.
#[local] Existing Instance toy_addressing_laws.

(** A chain of two headers of the same type. *)
Definition ex_h1 : ChainHeader :=
  {| entry_type := EntryType_App "post"; entry_address := "epost/a";
     provenances := [{| source := "alice"; signature := "sig" |}];
     link := None; link_same_type := None; link_update_delete := None;
     timestamp := {| timestamp_nanos := 1 |} |}.

Definition ex_h2 : ChainHeader :=
  {| entry_type := EntryType_App "post"; entry_address := "epost/b";
     provenances := [{| source := "alice"; signature := "sig" |}];
     link := Some (ChainHeader_address ex_h1); link_same_type := Some (ChainHeader_address ex_h1);
     link_update_delete := None; timestamp := {| timestamp_nanos := 2 |} |}.

Definition ex_cas : Cas :=
  <[ChainHeader_address ex_h1 := ChainHeader_content ex_h1]>
    (<[ChainHeader_address ex_h2 := ChainHeader_content ex_h2]> (∅ : gmap string string)).

Lemma ex_chain : chain ex_cas [ex_h2; ex_h1].
Proof.
  constructor; [vm_compute; reflexivity|reflexivity|reflexivity|].
  constructor; [vm_compute; reflexivity|reflexivity|reflexivity|]. constructor.
Qed.

Definition ex_agent : AgentState :=
  AgentState_new_with_top_chain_header (Some ex_h2) "alice".

Lemma query_is_filter_witness :
  query (λ _, None) ex_cas 3 (Some ex_h2) ["post"] {| start := 1; limit := 0; opt_headers := true |} =
    Ret (Ok (Headers [ex_h1])).
Proof.
  apply (query_is_filter (λ _, None) ex_cas 3 [ex_h2; ex_h1] ["post"]
           {| start := 1; limit := 0; opt_headers := true |}).
  - exact ex_chain.
  - simpl. lia.
Defined.

Lemma chain_append_only_witness :
  ∃ l', agent_inv (l' ++ [ex_h2; ex_h1]) (reduce_clear_action_response ex_agent "x", ex_cas) ∧
        ∀ sign now aw, (0 ≤ now)%Z → sound_action (aw_action aw) →
          ∃ s'', reduces_to sign now aw (reduce_clear_action_response ex_agent "x", ex_cas) s'' ∧
                 agent_step (reduce_clear_action_response ex_agent "x", ex_cas) s''.
Proof.
  apply (chain_append_only toy_hash_inj (ex_agent, ex_cas)).
  - split; [exact ex_chain|reflexivity].
  - apply rtc_once. apply (agent_step_intro (λ _, Err HolochainError_DnaMissing) 0
      {| aw_action := Action_ClearActionResponse "x"; aw_id := "y" |}); [lia|exact I|].
    exists 0. intros fuel _. reflexivity.
Defined.

Lemma virtual_header_deterministic_witness :
  let sign _ := Ok "sig"%string in
  create_entry_with_header_for_header sign 7 ex_agent ex_cas 3 ex_h1 =
    create_entry_with_header_for_header sign 9 (AgentState_new "alice") ∅ 3 ex_h1 ∧
  ∃ r, create_entry_with_header_for_header sign 7 ex_agent ex_cas 3 ex_h1 = Ret r.
Proof.
  apply (virtual_header_deterministic _ 7 9 ex_agent (AgentState_new "alice") ex_cas
           (∅ : gmap string string) [ex_h2; ex_h1] []).
  - split; [exact ex_chain|reflexivity].
  - split; [constructor|reflexivity].
  - reflexivity.
  - lia.
  - lia.
  - simpl; lia.
  - simpl; lia.
Defined.

End witnesses.
