(* ===== verification/Network.v ===== *)
(** * The network state slice

    Models [src/crates/core/src/network/state.rs] and
    [src/crates/core/src/network/reducers/], with the timeout job
    ([src/crates/core/src/scheduled_jobs/timeouts.rs]) and the polls of the
    futures that wait for the network
    ([src/crates/core/src/network/actions/]).

    The transport below is not part of this development: a network that is up is
    the list of the messages handed to it, and [net_send] tells whether the
    transport accepts a message.  Values that travel as JSON are represented by
    what they encode.

    The theorems: the reducers do not panic except for three protocol errors of
    the caller; a request that waits for an answer always has a timeout running,
    so that the timeout job resolves it; and an answer that arrived is not
    overwritten by a timeout. *)

From S2P Require Import Prelude Errors CoreTypes Storage Action Instances ContentStore Agent.

Inductive NetworkActionResponse : Type :=
| NetworkResponse_Publish (r : Result HolochainError Address)
| NetworkResponse_PublishHeaderEntry (r : Result HolochainError Address)
| NetworkResponse_Respond (r : Result HolochainError ()).

Record ValidationCacheData : Type := {
  cache_entries : option (list Entry);
  cache_headers : list ChainHeader;
  cached_at : SystemTime;
}.

(** The code relies on the cache never holding an empty list of headers: on one,
    it panics ([unwrap]). *)
Definition latest_header (self : ValidationCacheData) : Outcome ChainHeader :=
  unwrap (head (cache_headers self)).

(** ** Messages to the transport ([lib3h_protocol]) *)

Record EntryAspectData : Type := {
  ead_type_hint : string;
  ead_aspect_address : Address;
  ead_aspect : EntryAspect;
  ead_publish_ts : Z;
}.

Record NetDirectMessage : Type := {
  nm_request_id : string;
  nm_space_address : Address;
  nm_to_agent_id : Address;
  nm_from_agent_id : Address;
  nm_content : DirectMessage;
}.

Inductive ClientMsg : Type :=
| Client_JoinSpace (space agent : Address)
| Client_LeaveSpace (space agent : Address)
| Client_SendDirectMessage (data : NetDirectMessage)
| Client_HandleSendDirectMessageResult (data : NetDirectMessage)
| Client_PublishEntry (space provider entry_address : Address) (aspect_list : list EntryAspectData)
| Client_HandleFetchEntryResult (request_id : string) (space provider entry_address : Address)
    (aspect_list : list EntryAspectData)
| Client_QueryEntry (requester : Address) (request_id : string) (space entry_address : Address)
    (query : NetworkQuery)
| Client_HandleQueryEntryResult (request_id : string)
    (requester space responder entry_address : Address) (result : NetworkQueryResult)
| Client_HandleGetAuthoringEntryListResult (data : EntryListData)
| Client_HandleGetGossipingEntryListResult (data : EntryListData).

(** ** The state *)

Record NetworkState : Type := {
  net_actions : gmap string (ActionResponse NetworkActionResponse);
  network : option (list ClientMsg);
  dna_address : option Address;
  net_agent_id : option string;
  get_query_results : gmap QueryKey (option (Result HolochainError NetworkQueryResult));
  query_timeouts : gmap QueryKey (SystemTime * Duration);
  get_validation_package_results :
    gmap ValidationKey (option (Result HolochainError (option ValidationPackage)));
  get_validation_package_timeouts : gmap ValidationKey (SystemTime * Duration);
  direct_message_connections : gmap string DirectMessage;
  direct_message_timeouts : gmap string (SystemTime * Duration);
  custom_direct_message_replys : gmap string (Result HolochainError string);
  validation_cache : gmap Address ValidationCacheData;
}.

Definition NetworkState_new : NetworkState :=
  {| net_actions := ∅; network := None; dna_address := None; net_agent_id := None;
     get_query_results := ∅; query_timeouts := ∅;
     get_validation_package_results := ∅; get_validation_package_timeouts := ∅;
     direct_message_connections := ∅; direct_message_timeouts := ∅;
     custom_direct_message_replys := ∅; validation_cache := ∅ |}.

(** Updates of groups of fields. *)
Definition set_actions (s : NetworkState) m : NetworkState :=
  {| net_actions := m; network := network s; dna_address := dna_address s;
     net_agent_id := net_agent_id s; get_query_results := get_query_results s;
     query_timeouts := query_timeouts s;
     get_validation_package_results := get_validation_package_results s;
     get_validation_package_timeouts := get_validation_package_timeouts s;
     direct_message_connections := direct_message_connections s;
     direct_message_timeouts := direct_message_timeouts s;
     custom_direct_message_replys := custom_direct_message_replys s;
     validation_cache := validation_cache s |}.

Definition set_link (s : NetworkState) n d a : NetworkState :=
  {| net_actions := net_actions s; network := n; dna_address := d;
     net_agent_id := a; get_query_results := get_query_results s;
     query_timeouts := query_timeouts s;
     get_validation_package_results := get_validation_package_results s;
     get_validation_package_timeouts := get_validation_package_timeouts s;
     direct_message_connections := direct_message_connections s;
     direct_message_timeouts := direct_message_timeouts s;
     custom_direct_message_replys := custom_direct_message_replys s;
     validation_cache := validation_cache s |}.

Definition set_queries (s : NetworkState) results timeouts : NetworkState :=
  {| net_actions := net_actions s; network := network s; dna_address := dna_address s;
     net_agent_id := net_agent_id s; get_query_results := results;
     query_timeouts := timeouts;
     get_validation_package_results := get_validation_package_results s;
     get_validation_package_timeouts := get_validation_package_timeouts s;
     direct_message_connections := direct_message_connections s;
     direct_message_timeouts := direct_message_timeouts s;
     custom_direct_message_replys := custom_direct_message_replys s;
     validation_cache := validation_cache s |}.

Definition set_packages (s : NetworkState) results timeouts : NetworkState :=
  {| net_actions := net_actions s; network := network s; dna_address := dna_address s;
     net_agent_id := net_agent_id s; get_query_results := get_query_results s;
     query_timeouts := query_timeouts s;
     get_validation_package_results := results;
     get_validation_package_timeouts := timeouts;
     direct_message_connections := direct_message_connections s;
     direct_message_timeouts := direct_message_timeouts s;
     custom_direct_message_replys := custom_direct_message_replys s;
     validation_cache := validation_cache s |}.

Definition set_messages (s : NetworkState) connections timeouts replys : NetworkState :=
  {| net_actions := net_actions s; network := network s; dna_address := dna_address s;
     net_agent_id := net_agent_id s; get_query_results := get_query_results s;
     query_timeouts := query_timeouts s;
     get_validation_package_results := get_validation_package_results s;
     get_validation_package_timeouts := get_validation_package_timeouts s;
     direct_message_connections := connections;
     direct_message_timeouts := timeouts;
     custom_direct_message_replys := replys;
     validation_cache := validation_cache s |}.

Definition set_cache (s : NetworkState) c : NetworkState :=
  {| net_actions := net_actions s; network := network s; dna_address := dna_address s;
     net_agent_id := net_agent_id s; get_query_results := get_query_results s;
     query_timeouts := query_timeouts s;
     get_validation_package_results := get_validation_package_results s;
     get_validation_package_timeouts := get_validation_package_timeouts s;
     direct_message_connections := direct_message_connections s;
     direct_message_timeouts := direct_message_timeouts s;
     custom_direct_message_replys := custom_direct_message_replys s;
     validation_cache := c |}.

Definition initialized (self : NetworkState) : Result HolochainError () :=
  match network self, dna_address self, net_agent_id self with
  | Some _, Some _, Some _ => Ok ()
  | _, _, _ => Err (HolochainError_ErrorGeneric "Network not initialized")
  end.

Definition cache_validation (now : SystemTime) (self : NetworkState) (agent : Address)
    (validation : ValidationPackage) : Outcome NetworkState :=
  match source_chain_headers validation with
  | None => Ret self
  | Some headers =>
      match validation_cache self !! agent with
      | Some cache_entry =>
          latest ← latest_header cache_entry;
          Ret (if Z.ltb (timestamp_nanos (timestamp latest))
                        (timestamp_nanos (timestamp (pkg_chain_header validation)))
               then set_cache self
                 (<[agent := {| cache_entries :=
                                  match source_chain_entries validation with
                                  | Some entries => Some entries
                                  | None => cache_entries cache_entry
                                  end;
                                cache_headers := headers;
                                cached_at := cached_at cache_entry |}]> (validation_cache self))
               else self)
      | None =>
          Ret (set_cache self
            (<[agent := {| cache_entries := source_chain_entries validation;
                           cache_headers := headers; cached_at := now |}]>
               (validation_cache self)))
      end
  end.

Definition get_validation_package_from_cache (self : NetworkState) (agent : Address)
    (definition : ValidationPackageDefinition) (header : ChainHeader) :
    Outcome (option ValidationPackage) :=
  match validation_cache self !! agent with
  | None => Ret None
  | Some cache_entry =>
      match definition with
      | PackageDef_ChainFull =>
          match cache_headers cache_entry, cache_entries cache_entry with
          | [], _ | _, None => Ret None
          | _, Some entries =>
              latest ← latest_header cache_entry;
              Ret (if Z.leb (timestamp_nanos (timestamp latest))
                            (timestamp_nanos (timestamp header))
                   then None
                   else Some {| pkg_chain_header := header;
                                source_chain_entries := Some entries;
                                source_chain_headers := Some (cache_headers cache_entry);
                                pkg_custom := None |})
          end
      | _ => Ret None
      end
  end.

(** ** The reducers *)

(** A fallible computation on the state; what it changed before an error stays. *)
Definition NetM (A : Type) : Type := NetworkState → Outcome (Result HolochainError A * NetworkState).

#[export] Instance NetM_ret : MRet NetM := λ _ x s, Ret (Ok x, s).
#[export] Instance NetM_bind : MBind NetM := λ _ _ f m s,
  '(r, s) ← m s;
  match r with
  | Ok x => f x s
  | Err e => Ret (Err e, s)
  end.

Definition lift_result {A} (r : Result HolochainError A) : NetM A := λ s, Ret (r, s).
Definition lift_outcome {A} (o : Outcome (Result HolochainError A)) : NetM A := λ s,
  r ← o; Ret (r, s).
(** [network_state.dna_address.clone().unwrap()] and the same for the agent. *)
Definition my_space : NetM Address := λ s, a ← unwrap (dna_address s); Ret (Ok a, s).
Definition my_agent : NetM string := λ s, a ← unwrap (net_agent_id s); Ret (Ok a, s).
Definition check_initialized : NetM () := λ s, Ret (initialized s, s).
Definition modify (f : NetworkState → NetworkState) : NetM () := λ s, Ret (Ok (), f s).

Section reducers.
Context `{Storage} `{Addressing}.

(** Whether the transport accepts a message. *)
Variable net_send : ClientMsg → Result string ().
(** The conductor's signing service and the clock. *)
Variable sign : string → Result HolochainError string.
Variable now : SystemTime.

Definition send (msg : ClientMsg) : NetM () := λ s,
  Ret match network s with
      | None => (Err (HolochainError_ErrorGeneric "Network not initialized"), s)
      | Some sent =>
          match net_send msg with
          | Ok _ => (Ok (), set_link s (Some (sent ++ [msg])) (dna_address s) (net_agent_id s))
          | Err error => (Err (HolochainError_IoError error), s)
          end
      end.

(** [id] is the fresh id of the message. *)
Definition send_message (id : string) (to_agent_id : Address) (message : DirectMessage)
    (timeout : SystemTime * Duration) : NetM () :=
  space_address ← my_space;
  from ← my_agent;
  _ ← send (Client_SendDirectMessage
        {| nm_request_id := id; nm_space_address := space_address; nm_to_agent_id := to_agent_id;
           nm_from_agent_id := from; nm_content := message |});
  modify (λ s, set_messages s (<[id := message]> (direct_message_connections s))
                 (<[id := timeout]> (direct_message_timeouts s)) (custom_direct_message_replys s)).

(** *** clear.rs, clear_action_response.rs, prune.rs *)

Definition reduce_clear_query_result (s : NetworkState) (query_key : QueryKey) : NetworkState :=
  set_queries s (delete query_key (get_query_results s)) (query_timeouts s).

Definition reduce_clear_validation_package_result (s : NetworkState) (key : ValidationKey) :
    NetworkState :=
  set_packages s (delete key (get_validation_package_results s))
    (delete key (get_validation_package_timeouts s)).

Definition reduce_clear_custom_send_response (s : NetworkState) (id : string) : NetworkState :=
  set_messages s (direct_message_connections s) (direct_message_timeouts s)
    (delete id (custom_direct_message_replys s)).

Definition reduce_clear_action_response (s : NetworkState) (id : string) : NetworkState :=
  set_actions s (filter (λ '(action_id, _), action_id ≠ id) (net_actions s)).

Definition reduce_prune (s : NetworkState) : NetworkState :=
  set_actions s (filter (λ '(_, r), stale now (created_at r) = false) (net_actions s)).

(** *** query.rs and handle_get_result.rs *)

Definition reduce_query_inner (key : QueryKey) (network_query : NetworkQuery) : NetM () :=
  _ ← check_initialized;
  agent ← my_agent;
  space ← my_space;
  send (match key with
        | QueryKey_Entry key =>
            Client_QueryEntry agent (entry_key_id key) space (entry_key_address key) network_query
        | QueryKey_Links key =>
            Client_QueryEntry agent (links_id key) space (links_base_address key) network_query
        end).

(** A links key with an entry payload panics ([unwrap_to!]). *)
Definition network_query_of (key : QueryKey) (payload : QueryPayload) : Outcome NetworkQuery :=
  match key, payload with
  | QueryKey_Entry _, _ => Ret NetworkQuery_GetEntry
  | QueryKey_Links key, QueryPayload_Links crud_status query =>
      Ret (NetworkQuery_GetLinks (links_link_type key) (links_tag key) crud_status query)
  | QueryKey_Links _, QueryPayload_Entry => Panic
  end.

Definition reduce_query (s : NetworkState) (key_type : QueryKey) (payload : QueryPayload)
    (maybe_timeout : option (SystemTime * Duration)) : Outcome NetworkState :=
  network_query ← network_query_of key_type payload;
  '(r, s) ← reduce_query_inner key_type network_query s;
  let result := match r with Ok _ => None | Err e => Some (Err e) end in
  Ret (set_queries s (<[key_type := result]> (get_query_results s))
         match maybe_timeout with
         | Some timeout => <[key_type := timeout]> (query_timeouts s)
         | None => query_timeouts s
         end).

Definition reduce_query_timeout (s : NetworkState) (key : QueryKey) : NetworkState :=
  let timeouts := delete key (query_timeouts s) in
  match get_query_results s !! key with
  | Some None =>
      set_queries s (<[key := Some (Err (HolochainError_Timeout "key: "))]> (get_query_results s))
        timeouts
  | _ => set_queries s (get_query_results s) timeouts
  end.

Definition reduce_handle_get_result (s : NetworkState) (payload : NetworkQueryResult)
    (key : QueryKey) : NetworkState :=
  set_queries s (<[key := Some (Ok payload)]> (get_query_results s))
    (delete key (query_timeouts s)).

(** *** get_validation_package.rs and handle_get_validation_package.rs *)

Definition GET_VALIDATION_PACKAGE_MESSAGE_TIMEOUT_MS : Z := 61000.

Definition get_validation_package_inner (id : string) (header : ChainHeader) (key : ValidationKey)
    (timeout : SystemTime * Duration) : NetM () :=
  _ ← check_initialized;
  p ← lift_result (ok_or (HolochainError_ErrorGeneric "No source found in ChainHeader")
                     (head (provenances header)));
  send_message id (source p) (DirectMessage_RequestValidationPackage key) timeout.

Definition reduce_get_validation_package (s : NetworkState) (id : string) (key : ValidationKey)
    (header : ChainHeader) : Outcome NetworkState :=
  let timeout := (now, millis GET_VALIDATION_PACKAGE_MESSAGE_TIMEOUT_MS) in
  '(r, s) ← get_validation_package_inner id header key timeout s;
  let result := match r with Ok _ => None | Err err => Some (Err err) end in
  Ret (set_packages s (<[key := result]> (get_validation_package_results s))
         (<[key := timeout]> (get_validation_package_timeouts s))).

Definition reduce_get_validation_package_timeout (s : NetworkState) (key : ValidationKey) :
    NetworkState :=
  let timeouts := delete key (get_validation_package_timeouts s) in
  match get_validation_package_results s !! key with
  | Some (Some _) => set_packages s (get_validation_package_results s) timeouts
  | _ =>
      set_packages s
        (<[key := Some (Err (HolochainError_Timeout "timeout src: "))]>
           (get_validation_package_results s)) timeouts
  end.

Definition reduce_handle_get_validation_package (s : NetworkState) (responder : Address)
    (key : ValidationKey) (maybe_validation_package : option ValidationPackage) :
    Outcome NetworkState :=
  let s := set_packages s
             (<[key := Some (Ok maybe_validation_package)]> (get_validation_package_results s))
             (get_validation_package_timeouts s) in
  match maybe_validation_package with
  | Some validation_package => cache_validation now s responder validation_package
  | None => Ret s
  end.

(** *** send_direct_message.rs, handle_custom_send_response.rs,
    resolve_direct_connection.rs *)

Definition send_direct_message_inner (data : DirectMessageData) : NetM () :=
  _ ← check_initialized;
  space ← my_space;
  agent ← my_agent;
  let lib3h_data :=
    {| nm_request_id := msg_id data; nm_space_address := space;
       nm_to_agent_id := dmd_address data; nm_from_agent_id := agent;
       nm_content := dmd_message data |} in
  if is_response data then send (Client_HandleSendDirectMessageResult lib3h_data)
  else
    _ ← modify (λ s, set_messages s
                       (<[msg_id data := dmd_message data]> (direct_message_connections s))
                       (direct_message_timeouts s) (custom_direct_message_replys s));
    send (Client_SendDirectMessage lib3h_data).

(** An error is only logged. *)
Definition reduce_send_direct_message (s : NetworkState) (dm_data : DirectMessageData)
    (maybe_timeout : option (SystemTime * Duration)) : Outcome NetworkState :=
  let s :=
    match maybe_timeout with
    | Some timeout =>
        set_messages s (direct_message_connections s)
          (<[msg_id dm_data := timeout]> (direct_message_timeouts s))
          (custom_direct_message_replys s)
    | None => s
    end in
  snd <$> send_direct_message_inner dm_data s.

Definition reduce_send_direct_message_timeout (s : NetworkState) (id : string) : NetworkState :=
  set_messages s (delete id (direct_message_connections s)) (delete id (direct_message_timeouts s))
    match custom_direct_message_replys s !! id with
    | Some _ => custom_direct_message_replys s
    | None =>
        <[id := Err (HolochainError_Timeout "timeout src: ")]> (custom_direct_message_replys s)
    end.

Definition reduce_handle_custom_send_response (s : NetworkState) (id : string)
    (response : Result string string) : NetworkState :=
  set_messages s (direct_message_connections s) (direct_message_timeouts s)
    (<[id := map_err HolochainError_ErrorGeneric response]> (custom_direct_message_replys s)).

Definition reduce_resolve_direct_connection (s : NetworkState) (id : string) : NetworkState :=
  set_messages s (delete id (direct_message_connections s)) (delete id (direct_message_timeouts s))
    (custom_direct_message_replys s).

(** *** init.rs and shutdown.rs *)

(** [connect] tells whether the transport could be created ([P2pNetwork::new],
    [unwrap]ped); its configuration, where a DNA property can override the URL,
    is handed to it and does not show in the state. *)
Definition reduce_init (s : NetworkState) (maybe_dna : option Dna) (connect : bool)
    (network_settings : NetworkSettings) : Outcome NetworkState :=
  _ ← unwrap maybe_dna;
  if negb connect then Panic
  else
    let dna := settings_dna_address network_settings in
    let agent := settings_agent_id network_settings in
    let join := Client_JoinSpace dna agent in
    Ret (match net_send join with
         | Err _ => set_link s None (Some dna) (Some agent)
         | Ok _ => set_link s (Some [join]) (Some dna) (Some agent)
         end).

(** The farewell message is sent to the transport that is then stopped. *)
Definition reduce_shutdown (s : NetworkState) : Outcome NetworkState :=
  _ ← unwrap (dna_address s);
  _ ← unwrap (net_agent_id s);
  Ret (set_link s None (dna_address s) (net_agent_id s)).

(** *** publish.rs and publish_header_entry.rs *)

Definition entry_data_to_entry_aspect_data (ea : EntryAspect) : EntryAspectData :=
  {| ead_type_hint := EntryAspect_type_hint ea;
     ead_aspect_address := EntryAspect_address ea;
     ead_aspect := ea;
     ead_publish_ts :=
       u64_wrap (timestamp_nanos (timestamp (EntryAspect_header ea)) / 1000000000) |}.

(** The message shared by the publishing functions. *)
Definition publish_aspect (entry_address : Address) (aspect : EntryAspect) : NetM () :=
  space ← my_space;
  agent ← my_agent;
  send (Client_PublishEntry space agent entry_address [entry_data_to_entry_aspect_data aspect]).

Definition publish_entry (ewh : EntryWithHeader) : NetM () :=
  publish_aspect (Entry_address (ewh_entry ewh)) (Aspect_Content (ewh_entry ewh) (ewh_header ewh)).

Definition publish_update_delete_meta (orig_entry_address : Address) (crud_status : CrudStatus)
    (ewh : EntryWithHeader) : NetM () :=
  aspect ← lift_result
    match crud_status with
    | Modified => Ok (Aspect_Update (ewh_entry ewh) (ewh_header ewh))
    | Deleted => Ok (Aspect_Deletion (ewh_header ewh))
    | _ => Err (HolochainError_ErrorGeneric "Unexpeced CRUD variant ")
    end;
  publish_aspect orig_entry_address aspect.

Definition publish_link_meta (ewh : EntryWithHeader) : NetM () :=
  match ewh_entry ewh with
  | Entry_LinkAdd link_data =>
      publish_aspect (base (link_data_link link_data)) (Aspect_LinkAdd link_data (ewh_header ewh))
  | Entry_LinkRemove link_data links_to_remove =>
      publish_aspect (base (link_data_link link_data))
        (Aspect_LinkRemove link_data links_to_remove (ewh_header ewh))
  | _ =>
      lift_result (Err (HolochainError_ErrorGeneric
        "Received bad entry type. Expected Entry::LinkAdd/Remove received "))
  end.

Definition fetch_entry_with_header (address : Address) (agent : AgentState) (cas : Cas)
    (fuel : nat) : Outcome (Result HolochainError EntryWithHeader) :=
  match (maybe_entry ← get cas address;
         ok_or (HolochainError_new "Entry not found") maybe_entry) with
  | Err e => Ret (Err e)
  | Ok entry =>
      maybe_header ← find_chain_header entry agent cas fuel;
      Ret (header ← ok_or (HolochainError_new "No header found for entry") maybe_header;
           Ok {| ewh_entry := entry; ewh_header := header |})
  end.

Definition reduce_publish_inner (agent : AgentState) (cas : Cas) (fuel : nat) (address : Address) :
    NetM () :=
  _ ← check_initialized;
  ewh ← lift_outcome (fetch_entry_with_header address agent cas fuel);
  match Entry_entry_type (ewh_entry ewh) with
  | EntryType_AgentId => publish_entry ewh
  | EntryType_App _ =>
      _ ← publish_entry ewh;
      match link_update_delete (ewh_header ewh) with
      | Some modified_entry => publish_update_delete_meta modified_entry Modified ewh
      | None => mret ()
      end
  | EntryType_LinkAdd | EntryType_LinkRemove =>
      _ ← publish_entry ewh;
      publish_link_meta ewh
  | EntryType_Deletion =>
      _ ← publish_entry ewh;
      match link_update_delete (ewh_header ewh) with
      | Some modified_entry => publish_update_delete_meta modified_entry Deleted ewh
      | None => mret ()
      end
  | ty =>
      lift_result (Err (HolochainError_NotImplemented
        ("reduce_publish_inner not implemented for " +:+ EntryType_to_string ty)))
  end.

(** The response of a publishing action: errors become their text. *)
Definition publish_response (address : Address) (r : Result HolochainError ()) :
    Result HolochainError Address :=
  match r with
  | Ok _ => Ok address
  | Err e => Err (HolochainError_ErrorGeneric (HolochainError_fmt e))
  end.

Definition record_response (s : NetworkState) (id : string) (r : NetworkActionResponse) :
    NetworkState :=
  set_actions s (<[id := ActionResponse_new now r]> (net_actions s)).

Definition reduce_publish (s : NetworkState) (agent : AgentState) (cas : Cas) (fuel : nat)
    (id : string) (address : Address) : Outcome NetworkState :=
  '(r, s) ← reduce_publish_inner agent cas fuel address s;
  Ret (record_response s id (NetworkResponse_Publish (publish_response address r))).

Definition publish_header (agent : AgentState) (cas : Cas) (fuel : nat)
    (chain_header : ChainHeader) : NetM () :=
  ewh ← lift_outcome (create_entry_with_header_for_header sign now agent cas fuel chain_header);
  publish_aspect (Entry_address (ewh_entry ewh)) (Aspect_Content (ewh_entry ewh) (ewh_header ewh)).

Definition reduce_publish_header_entry_inner (agent : AgentState) (cas : Cas) (fuel : nat)
    (address : Address) : NetM () :=
  _ ← check_initialized;
  ewh ← lift_outcome (fetch_entry_with_header address agent cas fuel);
  publish_header agent cas fuel (ewh_header ewh).

Definition reduce_publish_header_entry (s : NetworkState) (agent : AgentState) (cas : Cas)
    (fuel : nat) (id : string) (address : Address) : Outcome NetworkState :=
  '(r, s) ← reduce_publish_header_entry_inner agent cas fuel address s;
  Ret (record_response s id (NetworkResponse_PublishHeaderEntry (publish_response address r))).

(** *** respond_query.rs, respond_fetch.rs, respond_authoring_list.rs,
    respond_gossip_list.rs *)

Definition respond_result (r : Result HolochainError ()) : Result HolochainError () :=
  map_err (λ e, HolochainError_ErrorGeneric (HolochainError_fmt e)) r.

Definition reduce_respond_query_inner (network_query_result : NetworkQueryResult)
    (query_data : QueryEntryData) : NetM () :=
  _ ← check_initialized;
  space ← my_space;
  agent ← my_agent;
  send (Client_HandleQueryEntryResult (qed_request_id query_data)
          (qed_requester_agent_id query_data) space agent (qed_entry_address query_data)
          network_query_result).

Definition reduce_respond_query (s : NetworkState) (id : string) (query_data : QueryEntryData)
    (payload : NetworkQueryResult) : Outcome NetworkState :=
  '(r, s) ← reduce_respond_query_inner payload query_data s;
  Ret (record_response s id (NetworkResponse_Respond (respond_result r))).

Definition reduce_respond_fetch_data_inner (fetch_data : FetchEntryData)
    (aspects : list EntryAspect) : NetM () :=
  _ ← check_initialized;
  space ← my_space;
  agent ← my_agent;
  send (Client_HandleFetchEntryResult (fed_request_id fetch_data) space agent
          (fed_entry_address fetch_data) (entry_data_to_entry_aspect_data <$> aspects)).

Definition reduce_respond_fetch_data (s : NetworkState) (id : string) (fetch_data : FetchEntryData)
    (aspects : list EntryAspect) : Outcome NetworkState :=
  '(r, s) ← reduce_respond_fetch_data_inner fetch_data aspects s;
  Ret (record_response s id (NetworkResponse_Respond (respond_result r))).

(** Errors are only printed. *)
Definition reduce_respond_authoring_list (s : NetworkState) (data : EntryListData) :
    Outcome NetworkState :=
  snd <$> send (Client_HandleGetAuthoringEntryListResult data) s.
Definition reduce_respond_gossip_list (s : NetworkState) (data : EntryListData) :
    Outcome NetworkState :=
  snd <$> send (Client_HandleGetGossipingEntryListResult data) s.

(** *** mod.rs *)

(** [network::reducers::reduce] with [resolve_reducer].  [root_dna] and [agent]
    are of the root state, [fresh] is the id of a message made on the way. *)
Definition reduce (s : NetworkState) (root_dna : option Dna) (agent : AgentState) (cas : Cas)
    (fuel : nat) (connect : bool) (fresh : string) (action_wrapper : ActionWrapper) :
    Outcome NetworkState :=
  let id := aw_id action_wrapper in
  match aw_action action_wrapper with
  | Action_ClearActionResponse id => Ret (reduce_clear_action_response s id)
  | Action_ClearQueryResult key => Ret (reduce_clear_query_result s key)
  | Action_ClearValidationPackageResult key => Ret (reduce_clear_validation_package_result s key)
  | Action_ClearCustomSendResponse id => Ret (reduce_clear_custom_send_response s id)
  | Action_Query key payload timeout => reduce_query s key payload timeout
  | Action_QueryTimeout key => Ret (reduce_query_timeout s key)
  | Action_GetValidationPackage key header => reduce_get_validation_package s fresh key header
  | Action_GetValidationPackageTimeout key => Ret (reduce_get_validation_package_timeout s key)
  | Action_HandleCustomSendResponse id r => Ret (reduce_handle_custom_send_response s id r)
  | Action_HandleQuery payload key => Ret (reduce_handle_get_result s payload key)
  | Action_HandleGetValidationPackage from key package =>
      reduce_handle_get_validation_package s from key package
  | Action_InitNetwork settings => reduce_init s root_dna connect settings
  | Action_Prune => Ret (reduce_prune s)
  | Action_Publish address => reduce_publish s agent cas fuel id address
  | Action_PublishHeaderEntry address => reduce_publish_header_entry s agent cas fuel id address
  | Action_ResolveDirectConnection id => Ret (reduce_resolve_direct_connection s id)
  | Action_RespondAuthoringList data => reduce_respond_authoring_list s data
  | Action_RespondGossipList data => reduce_respond_gossip_list s data
  | Action_RespondFetch fetch_data aspects => reduce_respond_fetch_data s id fetch_data aspects
  | Action_RespondQuery query_data result => reduce_respond_query s id query_data result
  | Action_SendDirectMessage data timeout => reduce_send_direct_message s data timeout
  | Action_SendDirectMessageTimeout id => Ret (reduce_send_direct_message_timeout s id)
  | Action_ShutdownNetwork => reduce_shutdown s
  | _ => Ret s
  end.

End reducers.

(** ** The timeout job *)

(** [time.elapsed()? > duration]. *)
Definition expired (now : SystemTime) (t : SystemTime * Duration) : bool :=
  match elapsed now t.1 with
  | Some d => Z.ltb t.2 d
  | None => false
  end.

Definition expired_keys {K} `{Countable K} (now : SystemTime) (m : gmap K (SystemTime * Duration)) :
    list K :=
  (filter (λ p, expired now p.2 = true) (map_to_list m)).*1.

(** [check_network_processes_for_timeouts]: the actions it dispatches. *)
Definition check_network_processes_for_timeouts (now : SystemTime) (s : NetworkState) :
    list Action :=
  (Action_QueryTimeout <$> expired_keys now (query_timeouts s)) ++
  (Action_SendDirectMessageTimeout <$> expired_keys now (direct_message_timeouts s)) ++
  (Action_GetValidationPackageTimeout <$> expired_keys now (get_validation_package_timeouts s)).

(** ** Frames *)

(** The parts of the state that track requests are the same. *)
Definition same_requests (s s' : NetworkState) : Prop :=
  get_query_results s' = get_query_results s ∧ query_timeouts s' = query_timeouts s ∧
  get_validation_package_results s' = get_validation_package_results s ∧
  get_validation_package_timeouts s' = get_validation_package_timeouts s ∧
  direct_message_connections s' = direct_message_connections s ∧
  direct_message_timeouts s' = direct_message_timeouts s.

#[export] Instance same_requests_preorder : PreOrder same_requests.
Proof.
  split; [by intros s|]. intros s1 s2 s3 (? & ? & ? & ? & ? & ?) (? & ? & ? & ? & ? & ?).
  split_and!; congruence.
Qed.

(** A computation that leaves them alone, and never runs out of fuel. *)
Definition frame {A} (m : NetM A) : Prop := ∀ s r s', m s = Ret (r, s') → same_requests s s'.

Lemma frame_bind {A B} (m : NetM A) (f : A → NetM B) :
  frame m → (∀ x, frame (f x)) → frame (m ≫= f).
Proof.
  intros Hm Hf s r s'. unfold mbind, NetM_bind.
  destruct (m s) as [[[x|e] s1]| |] eqn:Hs; cbn [mbind Outcome_bind]; try done.
  - intros Hx. etrans; [by eapply Hm|by eapply Hf].
  - intros [= <- <-]. by eapply Hm.
Qed.

Lemma frame_lift_result {A} (r : Result HolochainError A) : frame (lift_result r).
Proof. by intros s r' s' [= <- <-]. Qed.
Lemma frame_mret {A} (x : A) : frame (mret x).
Proof. by intros s r' s' [= <- <-]. Qed.
Lemma frame_lift_outcome {A} (o : Outcome (Result HolochainError A)) : frame (lift_outcome o).
Proof. intros s r' s'. unfold lift_outcome. destruct o; simpl; try done. by intros [= <- <-]. Qed.
Lemma frame_check_initialized : frame check_initialized.
Proof. by intros s r' s' [= <- <-]. Qed.
Lemma frame_my_space : frame my_space.
Proof. intros s r' s'. unfold my_space. destruct (dna_address s); simpl; try done. by intros [= <- <-]. Qed.
Lemma frame_my_agent : frame my_agent.
Proof. intros s r' s'. unfold my_agent. destruct (net_agent_id s); simpl; try done. by intros [= <- <-]. Qed.
Lemma frame_send net_send msg : frame (send net_send msg).
Proof.
  intros s r' s'. unfold send. destruct (network s); [|by intros [= <- <-]].
  destruct (net_send msg); by intros [= <- <-].
Qed.

Create HintDb hc_frame.
#[export] Hint Resolve frame_bind frame_lift_result frame_mret frame_lift_outcome
  frame_check_initialized frame_my_space frame_my_agent frame_send : hc_frame.

Section frames.
Context `{Storage} `{Addressing}.
Variable net_send : ClientMsg → Result string ().

Lemma frame_publish_aspect a x : frame (publish_aspect net_send a x).
Proof. unfold publish_aspect. auto 10 with hc_frame. Qed.
#[local] Hint Resolve frame_publish_aspect : hc_frame.

Lemma frame_publish_inner agent cas fuel address :
  frame (reduce_publish_inner net_send agent cas fuel address).
Proof.
  unfold reduce_publish_inner, publish_entry, publish_update_delete_meta, publish_link_meta.
  apply frame_bind; [auto with hc_frame|]. intros []. apply frame_bind; [auto with hc_frame|].
  intros ewh. destruct (Entry_entry_type _); auto with hc_frame.
  all: apply frame_bind; [auto with hc_frame|]; intros []; case_match; auto 6 with hc_frame.
Qed.

Lemma frame_publish_header_inner sign now agent cas fuel address :
  frame (reduce_publish_header_entry_inner net_send sign now agent cas fuel address).
Proof. unfold reduce_publish_header_entry_inner, publish_header. auto 12 with hc_frame. Qed.

Lemma frame_query_inner key q : frame (reduce_query_inner net_send key q).
Proof. unfold reduce_query_inner. auto 12 with hc_frame. Qed.
Lemma frame_respond_query_inner result data :
  frame (reduce_respond_query_inner net_send result data).
Proof. unfold reduce_respond_query_inner. auto 12 with hc_frame. Qed.
Lemma frame_respond_fetch_inner data aspects :
  frame (reduce_respond_fetch_data_inner net_send data aspects).
Proof. unfold reduce_respond_fetch_data_inner. auto 12 with hc_frame. Qed.

End frames.

(** ** Requests and their timeouts *)

(** Every request that waits for an answer has a timeout running. *)
Definition timeouts_running (s : NetworkState) : Prop :=
  (∀ k, get_query_results s !! k = Some None → is_Some (query_timeouts s !! k)) ∧
  (∀ k, get_validation_package_results s !! k = Some None →
        is_Some (get_validation_package_timeouts s !! k)) ∧
  (∀ id m, direct_message_connections s !! id = Some m → is_Some (direct_message_timeouts s !! id)).

(** Queries and messages that expect an answer are sent with a timeout, as the
    functions [query] and [custom_send] do. *)
Definition with_timeout (a : Action) : Prop :=
  match a with
  | Action_Query _ _ timeout => timeout ≠ None
  | Action_SendDirectMessage data timeout => is_response data = false → timeout ≠ None
  | _ => True
  end.

Lemma timeouts_same s s' : same_requests s s' → timeouts_running s → timeouts_running s'.
Proof.
  intros (E1 & E2 & E3 & E4 & E5 & E6) Ht. unfold timeouts_running.
  by rewrite E1, E2, E3, E4, E5, E6.
Qed.

(** Case analysis on whether a lookup is at the key that changes. *)
Ltac by_key :=
  repeat match goal with
  | H : context [<[?k := _]> _ !! ?k'] |- _ =>
      destruct (decide (k = k')) as [<-|?];
      [rewrite lookup_insert_eq in H|rewrite lookup_insert_ne in H by done]
  | H : context [delete ?k _ !! ?k'] |- _ =>
      destruct (decide (k = k')) as [<-|?];
      [rewrite lookup_delete_eq in H|rewrite lookup_delete_ne in H by done]
  | |- context [<[?k := _]> _ !! ?k] => rewrite lookup_insert_eq
  | |- context [delete ?k _ !! ?k] => rewrite lookup_delete_eq
  | |- context [<[?k := _]> _ !! ?k'] =>
      destruct (decide (k = k')) as [<-|?];
      [rewrite lookup_insert_eq|rewrite lookup_insert_ne by done]
  | |- context [delete ?k _ !! ?k'] =>
      destruct (decide (k = k')) as [<-|?];
      [rewrite lookup_delete_eq|rewrite lookup_delete_ne by done]
  end.

Section timeouts.
Context `{Storage} `{Addressing}.
Variable net_send : ClientMsg → Result string ().
Variable sign : string → Result HolochainError string.
Variable now : SystemTime.

Lemma send_message_timeouts id to m t s r s' :
  send_message net_send id to m t s = Ret (r, s') →
  timeouts_running s →
  timeouts_running s' ∧ get_validation_package_results s' = get_validation_package_results s ∧
  get_validation_package_timeouts s' = get_validation_package_timeouts s.
Proof.
  unfold send_message, my_space, my_agent, mbind, NetM_bind. intros Hs Ht.
  destruct (dna_address s) as [space|]; [|done]. cbn [mbind Outcome_bind unwrap] in Hs.
  destruct (net_agent_id s) as [agent|]; [|done]. cbn [mbind Outcome_bind unwrap] in Hs.
  destruct (send net_send _ s) as [[[[]|e] s1]| |] eqn:Hsend; cbn [mbind Outcome_bind] in Hs; try done;
    apply frame_send in Hsend as Hf; injection Hs as <- <-.
  - destruct Hf as (E1 & E2 & E3 & E4 & E5 & E6). destruct Ht as (H1 & H2 & H3).
    unfold timeouts_running; simpl. rewrite E1, E2, E3, E4, E5, E6. split_and!; try done.
    intros id' m' Hid. by_key; eauto.
  - split_and!; [by eapply timeouts_same|apply Hf..].
Qed.

Lemma get_package_timeouts s id key header s' :
  timeouts_running s → reduce_get_validation_package net_send now s id key header = Ret s' →
  timeouts_running s'.
Proof.
  unfold reduce_get_validation_package. intros Ht.
  destruct (get_validation_package_inner _ _ _ _ _ s) as [[r s1]| |] eqn:Hi;
    cbn [mbind Outcome_bind]; try done. intros [= <-].
  assert (Hs : timeouts_running s1).
  { unfold get_validation_package_inner, check_initialized, lift_result, mbind, NetM_bind in Hi.
    cbn [mbind Outcome_bind] in Hi. destruct (initialized s); simplify_eq/=; [|done].
    destruct (head (provenances header)); simplify_eq/=; [|done].
    by eapply send_message_timeouts. }
  destruct Hs as (H1 & H2 & H3). unfold timeouts_running; simpl. split_and!; try done.
  intros k Hk. by_key; eauto.
Qed.

Lemma query_timeouts_running s key payload t s' :
  timeouts_running s → t ≠ None → reduce_query net_send s key payload t = Ret s' →
  timeouts_running s'.
Proof.
  unfold reduce_query. intros Ht Hne. destruct (network_query_of key payload) as [q| |]; try done.
  cbn [mbind Outcome_bind].
  destruct (reduce_query_inner net_send key q s) as [[r s1]| |] eqn:Hi;
    cbn [mbind Outcome_bind]; try done. intros [= <-].
  apply (frame_query_inner net_send) in Hi. apply timeouts_same with (s' := s1) in Ht; [|done].
  destruct t as [t|]; [|done]. destruct Ht as (H1 & H2 & H3). unfold timeouts_running; simpl.
  split_and!; try done. intros k Hk. by_key; eauto.
Qed.

Lemma send_direct_timeouts s data t s' :
  timeouts_running s → (is_response data = false → t ≠ None) →
  reduce_send_direct_message net_send s data t = Ret s' → timeouts_running s'.
Proof.
  intros Ht Hne. unfold reduce_send_direct_message. cbv zeta.
  set (s0 := match t with Some _ => _ | None => _ end).
  assert (Ht0 : timeouts_running s0 ∧
    (is_response data = false → is_Some (direct_message_timeouts s0 !! msg_id data))).
  { destruct Ht as (H1 & H2 & H3). subst s0. destruct t as [t|].
    - split; [|intros _; simpl; rewrite lookup_insert_eq; eauto].
      unfold timeouts_running; simpl. split_and!; try done. intros id m Hid. by_key; eauto.
    - split; [done|]. intros Hr. by destruct Hne. }
  destruct Ht0 as [Ht0 Hresp]. clearbody s0.
  destruct (send_direct_message_inner net_send data s0) as [[r s1]| |] eqn:Hi; simpl; try done.
  intros [= <-]. unfold send_direct_message_inner, check_initialized, my_space, my_agent, modify,
    mbind, NetM_bind in Hi. cbn [mbind Outcome_bind] in Hi.
  destruct (initialized s0); simplify_eq/=; [|done].
  destruct (dna_address s0) as [space|]; [|done]. cbn [mbind Outcome_bind unwrap] in Hi.
  destruct (net_agent_id s0) as [agent|]; [|done]. cbn [mbind Outcome_bind unwrap] in Hi.
  destruct (is_response data); cbn [mbind Outcome_bind] in Hi; apply frame_send in Hi;
    eapply timeouts_same; [exact Hi|done|exact Hi|].
  destruct Ht0 as (H1 & H2 & H3). unfold timeouts_running; simpl. split_and!; try done.
  intros id m Hid. by_key; eauto.
Qed.

Lemma timeouts_recorded {A} (m : NetM A) s r s1 id resp :
  frame m → m s = Ret (r, s1) → timeouts_running s →
  timeouts_running (record_response now s1 id resp).
Proof. intros Hf Hm Ht. eapply timeouts_same; [|exact Ht]. by apply Hf in Hm. Qed.

Lemma cache_validation_same s agent v s' :
  cache_validation now s agent v = Ret s' → same_requests s s'.
Proof.
  unfold cache_validation. destruct (source_chain_headers v); [|by intros [= <-]].
  destruct (validation_cache s !! agent); [|by intros [= <-]].
  destruct (latest_header _); simpl; try done. intros [= <-]. by case_match.
Qed.

(** The reducers that send something and record a response. *)
Lemma timeouts_respond s s' root_dna agent cas fuel connect fresh aw :
  timeouts_running s →
  match aw_action aw with
  | Action_Publish _ | Action_PublishHeaderEntry _ | Action_RespondQuery _ _
  | Action_RespondFetch _ _ | Action_RespondAuthoringList _ | Action_RespondGossipList _ => True
  | _ => False
  end →
  reduce net_send sign now s root_dna agent cas fuel connect fresh aw = Ret s' →
  timeouts_running s'.
Proof.
  intros Ht Ha. unfold reduce. destruct (aw_action aw); try done; clear Ha.
  - unfold reduce_publish.
    destruct (reduce_publish_inner _ _ _ _ _ s) as [[r s1]| |] eqn:Hi; simpl; try done.
    intros [= <-]. eapply timeouts_recorded; eauto using frame_publish_inner.
  - unfold reduce_publish_header_entry.
    destruct (reduce_publish_header_entry_inner _ _ _ _ _ _ _ s) as [[r s1]| |] eqn:Hi;
      simpl; try done.
    intros [= <-]. eapply timeouts_recorded; eauto using frame_publish_header_inner.
  - unfold reduce_respond_query.
    destruct (reduce_respond_query_inner _ _ _ s) as [[r s1]| |] eqn:Hi; simpl; try done.
    intros [= <-]. eapply timeouts_recorded; eauto using frame_respond_query_inner.
  - unfold reduce_respond_fetch_data.
    destruct (reduce_respond_fetch_data_inner _ _ _ s) as [[r s1]| |] eqn:Hi; simpl; try done.
    intros [= <-]. eapply timeouts_recorded; eauto using frame_respond_fetch_inner.
  - unfold reduce_respond_authoring_list.
    destruct (send _ _ s) as [[r s1]| |] eqn:Hi; simpl; try done.
    intros [= <-]. apply frame_send in Hi. by eapply timeouts_same.
  - unfold reduce_respond_gossip_list.
    destruct (send _ _ s) as [[r s1]| |] eqn:Hi; simpl; try done.
    intros [= <-]. apply frame_send in Hi. by eapply timeouts_same.
Qed.

(** The reducers that close or answer a request. *)
Ltac solve_timeouts Ht :=
  destruct Ht as (H1 & H2 & H3); unfold timeouts_running; simpl;
  split_and!; try done; intros; by_key; eauto; congruence.

Lemma timeouts_answer s :
  timeouts_running s →
  (∀ key, timeouts_running (reduce_query_timeout s key)) ∧
  (∀ key payload, timeouts_running (reduce_handle_get_result s payload key)) ∧
  (∀ key, timeouts_running (reduce_clear_query_result s key)) ∧
  (∀ vkey, timeouts_running (reduce_get_validation_package_timeout s vkey)) ∧
  (∀ vkey, timeouts_running (reduce_clear_validation_package_result s vkey)) ∧
  (∀ id, timeouts_running (reduce_send_direct_message_timeout s id)) ∧
  (∀ id, timeouts_running (reduce_resolve_direct_connection s id)).
Proof.
  intros Ht. split_and!; intros.
  - unfold reduce_query_timeout. destruct (get_query_results s !! key) as [[]|] eqn:Hk;
      solve_timeouts Ht.
  - solve_timeouts Ht.
  - solve_timeouts Ht.
  - unfold reduce_get_validation_package_timeout.
    destruct (get_validation_package_results s !! vkey) as [[]|] eqn:Hk; solve_timeouts Ht.
  - solve_timeouts Ht.
  - solve_timeouts Ht.
  - solve_timeouts Ht.
Qed.

Lemma handle_package_timeouts s from key package s' :
  timeouts_running s → reduce_handle_get_validation_package now s from key package = Ret s' →
  timeouts_running s'.
Proof.
  intros Ht. unfold reduce_handle_get_validation_package. cbv zeta.
  set (s0 := set_packages s _ _). assert (Ht0 : timeouts_running s0) by solve_timeouts Ht.
  destruct package; [|by intros [= <-]]. intros Hc%cache_validation_same. by eapply timeouts_same.
Qed.

(** No request waits forever: the reducers preserve that every query, every
    request for a validation package and every open direct message has a
    timeout running, provided that queries and messages that expect an answer
    are sent with one. *)
Lemma requests_have_timeouts s root_dna agent cas fuel connect fresh aw s' :
  timeouts_running s → with_timeout (aw_action aw) →
  reduce net_send sign now s root_dna agent cas fuel connect fresh aw = Ret s' →
  timeouts_running s'.
Proof.
  intros Ht Hw Hr.
  pose proof (timeouts_respond s s' root_dna agent cas fuel connect fresh aw Ht) as Hresp.
  unfold reduce in Hr, Hresp. destruct (aw_action aw); simpl in Hw, Hresp; try (by apply Hresp);
    clear Hresp; try (by injection Hr as <-);
    try (by injection Hr as <-; eapply timeouts_same; [|exact Ht]);
    try (by injection Hr as <-; destruct (timeouts_answer s Ht) as (? & ? & ? & ? & ? & ? & ?)).
  - unfold reduce_init in Hr. destruct root_dna, connect; simplify_eq/=. by case_match.
  - unfold reduce_shutdown in Hr. destruct (dna_address s), (net_agent_id s); by simplify_eq/=.
  - by eapply query_timeouts_running.
  - by eapply send_direct_timeouts.
  - by eapply get_package_timeouts.
  - by eapply handle_package_timeouts.
Qed.

End timeouts.

(** ** Resolution by timeouts *)

Section resolution.
Context `{Storage} `{Addressing}.
Variable net_send : ClientMsg → Result string ().
Variable sign : string → Result HolochainError string.
Variable now : SystemTime.
Variable root_dna : option Dna.
Variable agent : AgentState.
Variable cas : Cas.

(** The instance reduces a sequence of actions. *)
Fixpoint reduce_all (s : NetworkState) (l : list Action) : Outcome NetworkState :=
  match l with
  | [] => Ret s
  | a :: l =>
      s ← reduce net_send sign now s root_dna agent cas 0 false "" {| aw_action := a; aw_id := "" |};
      reduce_all s l
  end.

Definition is_timeout (a : Action) : bool :=
  match a with
  | Action_QueryTimeout _ | Action_SendDirectMessageTimeout _
  | Action_GetValidationPackageTimeout _ => true
  | _ => false
  end.

(** A map of results after some timeouts: answers are kept, a request that waits
    keeps waiting or gets the error, and no new request waits. *)
Definition results_timed_out {K A} `{Countable K}
    (m m' : gmap K (option (Result HolochainError A))) : Prop :=
  (∀ k r, m !! k = Some (Some r) → m' !! k = Some (Some r)) ∧
  (∀ k, m !! k = Some None →
        m' !! k = Some None ∨ ∃ msg, m' !! k = Some (Some (Err (HolochainError_Timeout msg)))) ∧
  (∀ k, m !! k ≠ Some None → m' !! k ≠ Some None).

#[export] Instance results_timed_out_preorder {K A} `{Countable K} :
  PreOrder (results_timed_out (K := K) (A := A)).
Proof.
  split; [by intros m; split_and!; eauto|].
  intros m1 m2 m3 (A1 & A2 & A3) (B1 & B2 & B3). split_and!; eauto.
  intros k Hk. destruct (A2 k Hk) as [?|[msg ?]]; eauto.
Qed.

Lemma results_timed_out_insert {K A} `{Countable K}
    (m : gmap K (option (Result HolochainError A))) k msg :
  (∀ r, m !! k ≠ Some (Some r)) →
  results_timed_out m (<[k := Some (Err (HolochainError_Timeout msg))]> m).
Proof.
  intros Hk. split_and!; intros k'; by_key; eauto.
  intros r Hr. by destruct (Hk r).
Qed.

Definition timed_out (s s' : NetworkState) : Prop :=
  results_timed_out (get_query_results s) (get_query_results s') ∧
  results_timed_out (get_validation_package_results s) (get_validation_package_results s') ∧
  (∀ id r, custom_direct_message_replys s !! id = Some r →
           custom_direct_message_replys s' !! id = Some r) ∧
  (∀ id, direct_message_connections s !! id = None → direct_message_connections s' !! id = None).

#[export] Instance timed_out_preorder : PreOrder timed_out.
Proof.
  split; [by intros s; split_and!; eauto|].
  intros s1 s2 s3 (A1 & A2 & A3 & A4) (B1 & B2 & B3 & B4).
  split_and!; [by etrans..|by eauto|by eauto].
Qed.

(** The request that the timeout is about no longer waits. *)
Definition expires (a : Action) (s : NetworkState) : Prop :=
  match a with
  | Action_QueryTimeout k => get_query_results s !! k ≠ Some None
  | Action_GetValidationPackageTimeout k => get_validation_package_results s !! k ≠ Some None
  | Action_SendDirectMessageTimeout id =>
      direct_message_connections s !! id = None ∧ is_Some (custom_direct_message_replys s !! id)
  | _ => True
  end.

Lemma expires_mono a s s' : timed_out s s' → expires a s → expires a s'.
Proof.
  intros ((_ & _ & A1) & (_ & _ & A2) & A3 & A4). destruct a; simpl; eauto.
  intros [Hc [r Hr]]. split; [by apply A4|]. exists r. by apply A3.
Qed.

Lemma timeout_step s a :
  is_timeout a = true →
  ∃ s1, reduce net_send sign now s root_dna agent cas 0 false "" {| aw_action := a; aw_id := "" |}
        = Ret s1 ∧ timed_out s s1 ∧ expires a s1.
Proof.
  unfold reduce; simpl. intros Ha. destruct a; try done; clear Ha; (eexists; split; [done|]).
  - unfold reduce_query_timeout. destruct (get_query_results s !! key) as [[r|]|] eqn:Hk;
      unfold timed_out, expires; simpl; rewrite ?Hk, ?lookup_insert_eq; split; try done.
    split_and!; try done. apply results_timed_out_insert. by intros r; rewrite Hk.
  - unfold timed_out, expires; simpl. rewrite lookup_delete_eq.
    destruct (custom_direct_message_replys s !! id) as [r|] eqn:Hid;
      rewrite ?Hid, ?lookup_insert_eq; (split; [|by eauto]); split_and!; try done;
      intros id'; by_key; intros; congruence.
  - unfold reduce_get_validation_package_timeout.
    destruct (get_validation_package_results s !! key) as [[r|]|] eqn:Hk;
      unfold timed_out, expires; simpl; rewrite ?Hk, ?lookup_insert_eq; split; try done;
      split_and!; try done; apply results_timed_out_insert; intros r; by rewrite Hk.
Qed.

Lemma timeout_steps s l :
  Forall (λ a, is_timeout a = true) l →
  ∃ s', reduce_all s l = Ret s' ∧ timed_out s s' ∧ ∀ a, a ∈ l → expires a s'.
Proof.
  intros Hl. revert s. induction Hl as [|a l Ha _ IH]; intros s; simpl.
  - exists s. split_and!; [done|done|]. intros a Ha. set_solver.
  - destruct (timeout_step s a Ha) as (s1 & -> & Ht & He). cbn [mbind Outcome_bind].
    destruct (IH s1) as (s2 & -> & Ht2 & He2). exists s2. split_and!; [done|by etrans|].
    intros a' [->|Ha']%elem_of_cons; [by eapply expires_mono|by apply He2].
Qed.

Lemma elem_of_expired_keys {K} `{Countable K} (m : gmap K (SystemTime * Duration)) k t :
  m !! k = Some t → expired now t = true → k ∈ expired_keys now m.
Proof.
  intros Hk He. unfold expired_keys. apply list_elem_of_fmap. exists (k, t). split; [done|].
  apply list_elem_of_filter. split; [done|]. by apply elem_of_map_to_list.
Qed.

(** The timeout job resolves what waited too long.  Reducing the actions it
    dispatches succeeds.  Afterwards every query and every request for a
    validation package whose timeout had passed and that was still waiting has
    the timeout error as its result, every message whose timeout had passed is
    closed with a reply, and no answer that had arrived is changed. *)
Theorem timeout_job_resolves s :
  ∃ s', reduce_all s (check_network_processes_for_timeouts now s) = Ret s' ∧
  (∀ k t, get_query_results s !! k = Some None → query_timeouts s !! k = Some t →
     expired now t = true →
     ∃ msg, get_query_results s' !! k = Some (Some (Err (HolochainError_Timeout msg)))) ∧
  (∀ k t, get_validation_package_results s !! k = Some None →
     get_validation_package_timeouts s !! k = Some t → expired now t = true →
     ∃ msg, get_validation_package_results s' !! k = Some (Some (Err (HolochainError_Timeout msg)))) ∧
  (∀ id t, direct_message_timeouts s !! id = Some t → expired now t = true →
     direct_message_connections s' !! id = None ∧ is_Some (custom_direct_message_replys s' !! id)) ∧
  (∀ k r, get_query_results s !! k = Some (Some r) → get_query_results s' !! k = Some (Some r)) ∧
  (∀ k r, get_validation_package_results s !! k = Some (Some r) →
          get_validation_package_results s' !! k = Some (Some r)) ∧
  (∀ id r, custom_direct_message_replys s !! id = Some r →
           custom_direct_message_replys s' !! id = Some r).
Proof.
  destruct (timeout_steps s (check_network_processes_for_timeouts now s))
    as (s' & Hr & ((A1 & A2 & A3) & (B1 & B2 & B3) & C1 & C2) & He).
  { unfold check_network_processes_for_timeouts. rewrite !Forall_app, !Forall_fmap.
    split_and!; by apply Forall_true. }
  unfold check_network_processes_for_timeouts in He. exists s'. split_and!; try done.
  - intros k t Hk Ht Hx. destruct (A2 k Hk) as [Hn|]; [|done].
    destruct (He (Action_QueryTimeout k)); [|done].
    rewrite !elem_of_app. left. eauto using list_elem_of_fmap_2, elem_of_expired_keys.
  - intros k t Hk Ht Hx. destruct (B2 k Hk) as [Hn|]; [|done].
    destruct (He (Action_GetValidationPackageTimeout k)); [|done].
    rewrite !elem_of_app. right; right. eauto using list_elem_of_fmap_2, elem_of_expired_keys.
  - intros id t Ht Hx. apply (He (Action_SendDirectMessageTimeout id)).
    rewrite !elem_of_app. right; left. eauto using list_elem_of_fmap_2, elem_of_expired_keys.
Qed.

(** An empty validation package poisons the cache.  A peer that answers a
    request with a package whose list of source chain headers is present but
    empty is cached with no headers; the next package from that peer that has
    headers makes the reducer panic. *)
Theorem empty_package_poisons_cache s peer k1 k2 p1 p2 :
  validation_cache s !! peer = None →
  source_chain_headers p1 = Some [] → source_chain_headers p2 ≠ None →
  ∃ s1, reduce_handle_get_validation_package now s peer k1 (Some p1) = Ret s1 ∧
        reduce_handle_get_validation_package now s1 peer k2 (Some p2) = Panic.
Proof.
  intros Hc H1 H2. unfold reduce_handle_get_validation_package, cache_validation. rewrite H1.
  simpl. rewrite Hc. eexists. split; [done|].
  destruct (source_chain_headers p2); [|done]. simpl. by rewrite lookup_insert_eq.
Qed.

End resolution.

(** ** Concrete instances *)

Section witnesses.
#[local] Existing Instance memory_storage.
#[local] Existing Instance toy_addressing.

(** A node that has joined the network of its DNA. *)
Definition ex_joined : NetworkState := set_link NetworkState_new (Some []) (Some "dna") (Some "alice").
Lemma empty_package_poisons_cache_witness :
  let key := {| vkey_address := "e"; vkey_id := "1" |} in
  let package headers := Some {| pkg_chain_header := ex_h1; source_chain_entries := None;
                                 source_chain_headers := Some headers; pkg_custom := None |} in
  ∃ s1, reduce_handle_get_validation_package 0 ex_joined "bob" key (package []) = Ret s1 ∧
        reduce_handle_get_validation_package 0 s1 "bob" key (package [ex_h1]) = Panic.
Proof. by apply empty_package_poisons_cache. Defined.

End witnesses.
