(* ===== verification/Nucleus.v ===== *)
(** * The nucleus state slice

    Models [src/crates/core/src/nucleus/state.rs] and
    [src/crates/core/src/nucleus/reducers/]: the status of an instance's
    initialization, its DNA, the queue of zome function calls and those that
    run, their results, and the trace of the HDK functions they call.

    The theorems: the status moves along the transitions of its state machine
    only, and the DNA changes only when an initialization starts; results and
    clearing touch one call; and the first HDK call of a zome call is missing
    from the trace. *)

From S2P Require Import Prelude Errors CoreTypes Storage Action.

Inductive NucleusStatus : Type :=
| NucleusStatus_New
| NucleusStatus_Initializing
| NucleusStatus_Initialized (init : Initialization)
| NucleusStatus_InitializationFailed (err : string).

(** The HDK calls of a zome call, oldest first; the code pushes and pops at the
    end of a [Vec]. *)
Record ZomeFnCallState : Type := {
  hdk_fn_invocations : list (HdkFnCall * option HdkFnCallResult);
}.

Definition ZomeFnCallState_default : ZomeFnCallState := {| hdk_fn_invocations := [] |}.

Definition begin_hdk_call (self : ZomeFnCallState) (call : HdkFnCall) : ZomeFnCallState :=
  {| hdk_fn_invocations := (hdk_fn_invocations self ++ [(call, None)]) |}.

(** The popped invocation is lost on the two error paths. *)
Definition end_hdk_call (self : ZomeFnCallState) (call : HdkFnCall) (result : HdkFnCallResult) :
    Result HolochainError () * ZomeFnCallState :=
  match last (hdk_fn_invocations self) with
  | Some (current_call, current_result) =>
      let popped := removelast (hdk_fn_invocations self) in
      if negb (bool_decide (call = current_call)) then
        (Err (HolochainError_new "HDK call other than the current call was ended."),
         {| hdk_fn_invocations := popped |})
      else match current_result with
      | Some _ =>
          (Err (HolochainError_new "Ending an HDK call which was already ended."),
           {| hdk_fn_invocations := popped |})
      | None =>
          (Ok (), {| hdk_fn_invocations := (popped ++ [(call, Some result)]) |})
      end
  | None =>
      match hdk_function call with
      | Api_InitGlobals => (Ok (), self)
      | _ => (Err (HolochainError_new "Attempted to end HDK call, but none was started!"), self)
      end
  end.

Record NucleusState : Type := {
  status : NucleusStatus;
  dna : option Dna;
  queued_zome_calls : list ZomeFnCall;
  running_zome_calls : gset ZomeFnCall;
  hdk_function_calls : gmap ZomeFnCall ZomeFnCallState;
  zome_call_results : gmap ZomeFnCall (Result HolochainError JsonString);
}.

Definition NucleusState_new : NucleusState :=
  {| status := NucleusStatus_New; dna := None; queued_zome_calls := [];
     running_zome_calls := ∅; hdk_function_calls := ∅; zome_call_results := ∅ |}.

Definition zome_call_result (self : NucleusState) (zome_call : ZomeFnCall) :
    option (Result HolochainError JsonString) :=
  zome_call_results self !! zome_call.

Definition has_initialized (self : NucleusState) : bool :=
  match status self with NucleusStatus_Initialized _ => true | _ => false end.

Definition initialization (self : NucleusState) : option Initialization :=
  match status self with NucleusStatus_Initialized init => Some init | _ => None end.

Definition has_initialization_failed (self : NucleusState) : bool :=
  match status self with NucleusStatus_InitializationFailed _ => true | _ => false end.

(** Only the status is persisted. *)
Record NucleusStateSnapshot : Type := { snapshot_status : NucleusStatus }.

Definition NucleusStateSnapshot_from (state : NucleusState) : NucleusStateSnapshot :=
  {| snapshot_status := status state |}.

Definition NucleusState_from_snapshot (snapshot : NucleusStateSnapshot) : NucleusState :=
  {| status := snapshot_status snapshot; dna := None; queued_zome_calls := [];
     running_zome_calls := ∅; hdk_function_calls := ∅; zome_call_results := ∅ |}.

(** ** The reducers *)

Definition set_status (self : NucleusState) (s : NucleusStatus) : NucleusState :=
  {| status := s; dna := dna self; queued_zome_calls := queued_zome_calls self;
     running_zome_calls := running_zome_calls self;
     hdk_function_calls := hdk_function_calls self;
     zome_call_results := zome_call_results self |}.

Definition set_hdk_calls (self : NucleusState) (m : gmap ZomeFnCall ZomeFnCallState) :
    NucleusState :=
  {| status := status self; dna := dna self; queued_zome_calls := queued_zome_calls self;
     running_zome_calls := running_zome_calls self; hdk_function_calls := m;
     zome_call_results := zome_call_results self |}.

Definition reduce_initialize_chain (state : NucleusState) (new_dna : Dna) : NucleusState :=
  match status state with
  | NucleusStatus_Initializing =>
      set_status state (NucleusStatus_InitializationFailed "Nucleus already initializing")
  | NucleusStatus_Initialized _ =>
      set_status state (NucleusStatus_InitializationFailed "Nucleus already initialized")
  | NucleusStatus_New | NucleusStatus_InitializationFailed _ =>
      {| status := NucleusStatus_Initializing; dna := Some new_dna;
         queued_zome_calls := queued_zome_calls state;
         running_zome_calls := running_zome_calls state;
         hdk_function_calls := hdk_function_calls state;
         zome_call_results := zome_call_results state |}
  end.

Definition reduce_return_initialization_result (state : NucleusState)
    (result : Result string Initialization) : NucleusState :=
  match status state with
  | NucleusStatus_Initializing =>
      match result with
      | Ok init => set_status state (NucleusStatus_Initialized init)
      | Err err => set_status state (NucleusStatus_InitializationFailed err)
      end
  | _ =>
      set_status state (NucleusStatus_InitializationFailed
        "reduce of ReturnInitializationResult attempted when status != Initializing")
  end.

(** [wasm_engine::MAX_ZOME_CALLS]. *)
Definition MAX_ZOME_CALLS : nat := 10.

Definition reduce_queue_zome_function_call (state : NucleusState) (call : ZomeFnCall) :
    NucleusState :=
  let start := Nat.ltb (size (running_zome_calls state)) MAX_ZOME_CALLS in
  {| status := status state; dna := dna state;
     queued_zome_calls :=
       if start then queued_zome_calls state else (queued_zome_calls state ++ [call]);
     running_zome_calls :=
       if start then {[call]} ∪ running_zome_calls state else running_zome_calls state;
     hdk_function_calls := hdk_function_calls state;
     zome_call_results := zome_call_results state |}.

Definition reduce_return_zome_function_result (state : NucleusState)
    (zome_fn_response : ExecuteZomeFnResponse) : NucleusState :=
  let call := response_call zome_fn_response in
  let running := running_zome_calls state ∖ {[call]} in
  {| status := status state; dna := dna state;
     queued_zome_calls := tail (queued_zome_calls state);
     running_zome_calls :=
       match queued_zome_calls state with
       | next_call :: _ => {[next_call]} ∪ running
       | [] => running
       end;
     hdk_function_calls := delete call (hdk_function_calls state);
     zome_call_results := <[call := response_result zome_fn_response]> (zome_call_results state) |}.

Definition reduce_clear_zome_function_call (state : NucleusState) (call : ZomeFnCall) :
    NucleusState :=
  {| status := status state; dna := dna state;
     queued_zome_calls := filter (λ c, c ≠ call) (queued_zome_calls state);
     running_zome_calls := running_zome_calls state ∖ {[call]};
     hdk_function_calls := delete call (hdk_function_calls state);
     zome_call_results := delete call (zome_call_results state) |}.

(** [entry(..).and_modify(..).or_insert_with(ZomeFnCallState::default)]. *)
Definition reduce_trace_invoke_hdk_function (state : NucleusState) (zome_fn_call : ZomeFnCall)
    (hdk_fn_call : HdkFnCall) : NucleusState :=
  set_hdk_calls state
    (<[zome_fn_call :=
         match hdk_function_calls state !! zome_fn_call with
         | Some zome_fn_call_state => begin_hdk_call zome_fn_call_state hdk_fn_call
         | None => ZomeFnCallState_default
         end]> (hdk_function_calls state)).

(** Errors are only logged. *)
Definition reduce_trace_return_hdk_function (state : NucleusState) (zome_fn_call : ZomeFnCall)
    (hdk_fn_call : HdkFnCall) (hdk_fn_call_result : HdkFnCallResult) : NucleusState :=
  match hdk_function_calls state !! zome_fn_call with
  | None => state
  | Some zome_fn_call_state =>
      set_hdk_calls state
        (<[zome_fn_call := (end_hdk_call zome_fn_call_state hdk_fn_call hdk_fn_call_result).2]>
           (hdk_function_calls state))
  end.

(** [nucleus::reduce] with [resolve_reducer]. *)
Definition reduce (old_state : NucleusState) (action_wrapper : ActionWrapper) : NucleusState :=
  match aw_action action_wrapper with
  | Action_ClearZomeFunctionCall call => reduce_clear_zome_function_call old_state call
  | Action_ReturnInitializationResult result =>
      reduce_return_initialization_result old_state result
  | Action_InitializeChain d => reduce_initialize_chain old_state d
  | Action_ReturnZomeFunctionResult r => reduce_return_zome_function_result old_state r
  | Action_QueueZomeFunctionCall call => reduce_queue_zome_function_call old_state call
  | Action_TraceInvokeHdkFunction zome_call hdk_call =>
      reduce_trace_invoke_hdk_function old_state zome_call hdk_call
  | Action_TraceReturnHdkFunction zome_call hdk_call result =>
      reduce_trace_return_hdk_function old_state zome_call hdk_call result
  | _ => old_state
  end.

(** ** Initialization *)

(** The action drives the initialization. *)
Definition init_event (a : Action) : bool :=
  match a with
  | Action_InitializeChain _ | Action_ReturnInitializationResult _ => true
  | _ => false
  end.

Definition run (l : list ActionWrapper) : NucleusState := foldl reduce NucleusState_new l.

Lemma run_snoc l a : run (l ++ [a]) = reduce (run l) a.
Proof. unfold run. by rewrite foldl_app. Qed.

Lemma reduce_other s a :
  init_event (aw_action a) = false → status (reduce s a) = status s ∧ dna (reduce s a) = dna s.
Proof.
  unfold reduce. destruct (aw_action a); try done. intros _.
  simpl. unfold reduce_trace_return_hdk_function. by destruct (_ !! _).
Qed.

Definition is_starting (st : NucleusStatus) : bool :=
  match st with
  | NucleusStatus_New | NucleusStatus_InitializationFailed _ => true
  | _ => false
  end.

(** The status moves along four kinds of steps. *)
Lemma reduce_status s a :
  let s' := reduce s a in
  (init_event (aw_action a) = false ∧ status s' = status s ∧ dna s' = dna s) ∨
  (∃ d, aw_action a = Action_InitializeChain d ∧ is_starting (status s) = true ∧
        status s' = NucleusStatus_Initializing ∧ dna s' = Some d) ∨
  (∃ init, aw_action a = Action_ReturnInitializationResult (Ok init) ∧
        status s = NucleusStatus_Initializing ∧
        status s' = NucleusStatus_Initialized init ∧ dna s' = dna s) ∨
  (∃ err, init_event (aw_action a) = true ∧
        status s' = NucleusStatus_InitializationFailed err ∧ dna s' = dna s).
Proof.
  destruct (init_event (aw_action a)) eqn:He.
  2: { left. split; [done|]. by apply reduce_other. }
  right. unfold reduce. destruct (aw_action a) as [| | | | | | | | | | | | | | | | | | | | | | | | | | | |
    d|r| | | | | |]; try done; simpl.
  - unfold reduce_initialize_chain. destruct (status s); simpl; [left; by eexists|right; right; by eexists..|left; by eexists].
  - unfold reduce_return_initialization_result. destruct (status s), r; simpl;
      first [by right; left; eexists|by right; right; eexists].
Qed.

Lemma initializing_trace l :
  status (run l) = NucleusStatus_Initializing →
  ∃ l1 a d l2, l = l1 ++ a :: l2 ∧ aw_action a = Action_InitializeChain d ∧
    is_starting (status (run l1)) = true ∧ Forall (λ a, init_event (aw_action a) = false) l2 ∧
    dna (run l) = Some d.
Proof.
  induction l as [|a l IH] using rev_ind; [done|]. rewrite run_snoc. intros Hs.
  destruct (reduce_status (run l) a) as
    [(He & Hst & Hd)|[(d & Ha & Hst & _ & Hd)|[(i & _ & _ & Hst & _)|(e & _ & Hst & _)]]];
    [|..|congruence|congruence].
  - rewrite Hst in Hs. destruct (IH Hs) as (l1 & a1 & d & l2 & -> & Ha & Hl1 & Hf & Hd').
    exists l1, a1, d, (l2 ++ [a]). rewrite <- app_assoc. split_and!; try done; [|congruence].
    apply Forall_app. by repeat constructor.
  - exists l, a, d, []. by split_and!.
Qed.

(** What it takes to be initialized.  If an instance's status is
    [Initialized], then an [InitializeChain] action found it new or failed, the
    next action about initialization returned that successful result, and none
    came after it; the DNA in the state is the one of that action.  In
    particular, initializing again, or returning a second result, fails the
    instance. *)
Theorem initialized_trace l init :
  status (run l) = NucleusStatus_Initialized init →
  ∃ l1 a1 d l2 a2 l3,
    l = l1 ++ a1 :: l2 ++ a2 :: l3 ∧
    aw_action a1 = Action_InitializeChain d ∧
    aw_action a2 = Action_ReturnInitializationResult (Ok init) ∧
    is_starting (status (run l1)) = true ∧
    Forall (λ a, init_event (aw_action a) = false) (l2 ++ l3) ∧
    dna (run l) = Some d.
Proof.
  induction l as [|a l IH] using rev_ind; [done|]. rewrite run_snoc. intros Hs.
  destruct (reduce_status (run l) a) as
    [(He & Hst & Hd)|[(d & _ & _ & Hst & _)|[(i & Ha & Hi & Hst & Hd)|(e & _ & Hst & _)]]];
    [|congruence| |congruence].
  - rewrite Hst in Hs. destruct (IH Hs) as (l1 & a1 & d & l2 & a2 & l3 & -> & H1 & H2 & H3 & H4 & H5).
    exists l1, a1, d, l2, a2, (l3 ++ [a]).
    split; [by rewrite <- !app_assoc, <- app_comm_cons, <- app_assoc|].
    split_and!; try done; [|congruence].
    rewrite app_assoc. apply Forall_app. by repeat constructor.
  - rewrite Hst in Hs. injection Hs as ->.
    destruct (initializing_trace l Hi) as (l1 & a1 & d & l2 & -> & H1 & H2 & H3 & H4).
    exists l1, a1, d, l2, a, []. rewrite <- app_assoc, app_nil_r. split_and!; try done; congruence.
Qed.

(** ** Tracing *)

(** A zome call runs HDK functions one after the other. *)
Fixpoint trace (s : NucleusState) (call : ZomeFnCall) (l : list (HdkFnCall * HdkFnCallResult)) :
    NucleusState :=
  match l with
  | [] => s
  | (h, r) :: l =>
      trace (reduce_trace_return_hdk_function
               (reduce_trace_invoke_hdk_function s call h) call h r) call l
  end.

Lemma end_begin st h r :
  end_hdk_call (begin_hdk_call st h) h r =
    (Ok (), {| hdk_fn_invocations := (hdk_fn_invocations st ++ [(h, Some r)]) |}).
Proof.
  unfold end_hdk_call, begin_hdk_call; simpl. rewrite last_snoc, removelast_last.
  by rewrite bool_decide_true.
Qed.

Lemma trace_started s call st l :
  hdk_function_calls s !! call = Some st →
  hdk_function_calls (trace s call l) !! call =
    Some {| hdk_fn_invocations :=
              (hdk_fn_invocations st ++ ((λ '(h, r), (h, Some r)) <$> l)) |}.
Proof.
  revert s st. induction l as [|[h r] l IH]; intros s st Hs; simpl.
  - rewrite Hs, app_nil_r. by destruct st.
  - erewrite IH; [|unfold reduce_trace_return_hdk_function, reduce_trace_invoke_hdk_function;
      simpl; rewrite lookup_insert_eq; simpl; by rewrite lookup_insert_eq, Hs, end_begin].
    simpl. by rewrite <- app_assoc.
Qed.

(** The trace of a zome call misses its first HDK call.  When a zome call
    that has no trace yet runs a non-empty sequence of HDK functions, what is
    recorded for it in the end is every one of them with its result, except the
    first. *)
Theorem first_hdk_call_not_traced s call h r l :
  hdk_function_calls s !! call = None →
  hdk_function_calls (trace s call ((h, r) :: l)) !! call =
    Some {| hdk_fn_invocations := (λ '(h, r), (h, Some r)) <$> l |}.
Proof.
  intros Hs. cbn [trace]. rewrite (trace_started _ _ ZomeFnCallState_default); [done|].
  unfold reduce_trace_return_hdk_function, reduce_trace_invoke_hdk_function; simpl.
  rewrite Hs, lookup_insert_eq; simpl. rewrite lookup_insert_eq.
  f_equal. unfold end_hdk_call; simpl. by destruct (hdk_function h).
Qed.

(** ** Concrete instances *)

Definition ex_call (n : N) : ZomeFnCall :=
  {| call_id := n; zome_name := "main";
     cap := {| cap_token := "alice"; cap_provenance := {| source := "alice"; signature := "sig" |} |};
     call_fn_name := "greet"; call_parameters := "{}" |}.

Definition ex_init_dna : Dna :=
  {| dna_name := "app"; dna_description := ""; dna_version := "1"; dna_uuid := "0";
     dna_spec_version := "2.0"; dna_properties := "{}"; zomes := [] |}.

Definition ex_initialization : list ActionWrapper :=
  [{| aw_action := Action_InitializeChain ex_init_dna; aw_id := "1" |};
   {| aw_action := Action_Ping; aw_id := "2" |};
   {| aw_action := Action_ReturnInitializationResult (Ok {| public_token := None; payload := None |});
      aw_id := "3" |}].

Lemma initialized_trace_witness :
  ∃ l1 a1 d l2 a2 l3,
    ex_initialization = l1 ++ a1 :: l2 ++ a2 :: l3 ∧
    aw_action a1 = Action_InitializeChain d ∧
    aw_action a2 =
      Action_ReturnInitializationResult (Ok {| public_token := None; payload := None |}) ∧
    is_starting (status (run l1)) = true ∧
    Forall (λ a, init_event (aw_action a) = false) (l2 ++ l3) ∧
    dna (run ex_initialization) = Some d.
Proof. apply (initialized_trace ex_initialization). reflexivity. Defined.

Lemma first_hdk_call_not_traced_witness :
  let h := {| hdk_function := Api_Debug; hdk_parameters := "hi" |} in
  hdk_function_calls (trace NucleusState_new (ex_call 1) [(h, Ok "")]) !! ex_call 1 =
    Some {| hdk_fn_invocations := [] |}.
Proof.
  apply (first_hdk_call_not_traced NucleusState_new (ex_call 1) _ (Ok "") []). reflexivity.
Defined.
