(* ===== verification/ZomeCalls.v ===== *)
(** * Calling zome functions

    Models [src/crates/core/src/nucleus/actions/call_zome_function.rs], with
    [get_entry_from_agent_chain] of
    [src/crates/core/src/nucleus/actions/get_entry.rs] and [verify] of
    [src/crates/dpki/src/utils.rs].

    The first part is the check of a call: the zome and function exist and the
    caller shows a capability.  The second part is the system that runs calls:
    [call_zome_function] dispatches an action and awaits a [CallResultFuture];
    polling the future starts a thread once the nucleus lets the call run; the
    thread's result comes back through the action channel, which the instance
    reduces in order.  Futures, threads and the reducer interleave freely; the
    system is a step relation over their joint state. *)

From S2P Require Import Prelude Errors CoreTypes Dna Storage Action Instances ContentStore Agent.
From S2P Require Import Nucleus.

(** ** Checking a call *)

Section check.
Context `{Storage} `{Addressing}.

(** Base64, the decoding of public keys and the signature check of libsodium. *)
Variable base64_encode : string → string.
Variable base64_decode : string → option string.
Variable decode_pub_key : string → Result HolochainError string.
Variable sodium_verify : string → string → string → bool.

Definition verify (source : Address) (data signature : string) : Result HolochainError bool :=
  signature_bytes ← ok_or (HolochainError_ErrorGeneric "Signature syntactically invalid")
                      (base64_decode signature);
  pub_key ← decode_pub_key source;
  Ok (sodium_verify signature_bytes data pub_key).

Definition encode_call_data_for_signing (function : string) (parameters : JsonString) : string :=
  base64_encode (function +:+ ":" +:+ parameters).

(** A signature that cannot be checked panics ([unwrap]). *)
Definition verify_call_sig (p : Provenance) (function : string) (parameters : JsonString) :
    Outcome bool :=
  match verify (source p) (encode_call_data_for_signing function parameters) (signature p) with
  | Ok b => Ret b
  | Err _ => Panic
  end.

Definition get_entry_from_agent_chain (agent : AgentState) (cas : Cas) (fuel : nat)
    (address : Address) : Outcome (Result HolochainError (option Entry)) :=
  maybe_header ← iter_find (ChainStoreIterator_next cas)
                   (λ h, bool_decide (entry_address h = address)) fuel
                   (agent_top_chain_header agent);
  match maybe_header with
  | None => Ret (Ok None)
  | Some _ => Ret (get cas address)
  end.

Definition get_grant (agent : AgentState) (cas : Cas) (fuel : nat) (address : Address) :
    Outcome (option CapTokenGrant) :=
  r ← get_entry_from_agent_chain agent cas fuel address;
  Ret match r with
      | Ok (Some (Entry_CapTokenGrant grant)) => Some grant
      | _ => None
      end.

Definition CapTokenGrant_token (self : CapTokenGrant) : Address :=
  Entry_address (Entry_CapTokenGrant self).

Definition verify_grant (grant : CapTokenGrant) (fn_call : ZomeFnCall) : Outcome bool :=
  match grant_functions grant !! zome_name fn_call with
  | None => Ret false
  | Some zome_grants =>
      if negb (bool_decide (call_fn_name fn_call ∈ zome_grants)) then Ret false
      else if negb (bool_decide (CapTokenGrant_token grant = cap_token (cap fn_call))) then Ret false
      else
        valid ← verify_call_sig (cap_provenance (cap fn_call)) (call_fn_name fn_call)
                  (call_parameters fn_call);
        if negb valid then Ret false
        else
          match CapTokenGrant_cap_type grant with
          | CapabilityType_Public | CapabilityType_Transferable => Ret true
          | CapabilityType_Assigned =>
              assignees ← unwrap (grant_assignees grant);
              Ret (bool_decide (source (cap_provenance (cap fn_call)) ∈ assignees))
          end
  end.

Definition check_capability (agent : AgentState) (cas : Cas) (fuel : nat) (fn_call : ZomeFnCall) :
    Outcome bool :=
  maybe_grant ← get_grant agent cas fuel (cap_token (cap fn_call));
  match maybe_grant with
  | None => Ret false
  | Some grant => verify_grant grant fn_call
  end.

Definition is_token_the_agent (agent_id : AgentId) (request : CapabilityRequest) : bool :=
  String.eqb (pub_sign_key agent_id) (cap_token request).

(** The first part of [validate_call]: the name of the DNA and the code of the
    zome, which must have the function. *)
Definition find_function (nucleus_state : NucleusState) (fn_call : ZomeFnCall) :
    Result HolochainError (string * list Z) :=
  dna ← ok_or HolochainError_DnaMissing (dna nucleus_state);
  zome ← map_err HolochainError_Dna (get_zome dna (zome_name fn_call));
  _ ← map_err HolochainError_Dna
        (get_function_with_zome_name dna (zome_name fn_call) (call_fn_name fn_call));
  Ok (dna_name dna, code zome).

(** Its second part: the condition on the capability. *)
Definition authorised (agent_id : AgentId) (agent : AgentState) (cas : Cas) (fuel : nat)
    (fn_call : ZomeFnCall) : Outcome bool :=
  allowed ← check_capability agent cas fuel fn_call;
  if (allowed : bool) then Ret true
  else if is_token_the_agent agent_id (cap fn_call)
  then verify_call_sig (cap_provenance (cap fn_call)) (call_fn_name fn_call)
         (call_parameters fn_call)
  else Ret false.

(** [state] is [context.state()]: the nucleus and agent slices. *)
Definition validate_call (agent_id : AgentId) (state : option (NucleusState * AgentState))
    (cas : Cas) (fuel : nat) (fn_call : ZomeFnCall) :
    Outcome (Result HolochainError (string * list Z)) :=
  match state with
  | None => Ret (Err (HolochainError_ErrorGeneric "Context not initialized"))
  | Some (nucleus_state, agent) =>
      match find_function nucleus_state fn_call with
      | Err e => Ret (Err e)
      | Ok dna_name_code =>
          is_authorised ← authorised agent_id agent cas fuel fn_call;
          Ret (if (is_authorised : bool) then Ok dna_name_code
               else Err HolochainError_CapabilityCheckFailed)
      end
  end.

(** ** context.rs: the public token *)

Definition is_public_grant (grant : CapTokenGrant) : bool :=
  bool_decide (CapTokenGrant_cap_type grant = CapabilityType_Public) &&
  String.eqb (grant_id grant) "hc_public".

(** The loop of [Context::get_public_token] over the grants of the chain. *)
Fixpoint find_public_token (cas : Cas) (fuel : nat) (grants : option ChainHeader) :
    Outcome (Result HolochainError Address) :=
  match fuel with
  | O => NoFuel
  | S fuel =>
      '(grant, grants) ← ChainStoreTypeIterator_next cas grants;
      match grant with
      | None => Ret (Err (HolochainError_ErrorGeneric "No public CapTokenGrant entry type in chain"))
      | Some grant =>
          match get cas (entry_address grant) with
          | Err e => Ret (Err e)
          | Ok None => Ret (Err (HolochainError_new "Can't get CapTokenGrant entry from CAS"))
          | Ok (Some (Entry_CapTokenGrant g)) =>
              if is_public_grant g then Ret (Ok (entry_address grant))
              else find_public_token cas fuel grants
          | Ok (Some _) => find_public_token cas fuel grants
          end
      end
  end.

Definition get_public_token (state : option AgentState) (cas : Cas) (fuel : nat) :
    Outcome (Result HolochainError Address) :=
  match state with
  | None => Ret (Err (HolochainError_new "State uninitialized!"))
  | Some agent =>
      match agent_top_chain_header agent with
      | None => Ret (Err (HolochainError_new "No top chain header"))
      | Some top =>
          grants ← iter_type cas fuel (Some top) EntryType_CapTokenGrant;
          find_public_token cas fuel grants
      end
  end.

End check.

(** ** Who may call *)

Section authority.
Context `{Storage} `{AddressingLaws}.
Variable base64_encode : string → string.
Variable base64_decode : string → option string.
Variable decode_pub_key : string → Result HolochainError string.
Variable sodium_verify : string → string → string → bool.

(** The outcome of checking the call's signature. *)
Definition call_signature (fn_call : ZomeFnCall) : Result HolochainError bool :=
  verify base64_decode decode_pub_key sodium_verify (source (cap_provenance (cap fn_call)))
    (encode_call_data_for_signing base64_encode (call_fn_name fn_call) (call_parameters fn_call))
    (signature (cap_provenance (cap fn_call))).

(** The chain [l] has a grant under the call's token that lists its function. *)
Definition granted (cas : Cas) (l : list ChainHeader) (fn_call : ZomeFnCall)
    (grant : CapTokenGrant) : Prop :=
  (∃ h, h ∈ l ∧ entry_address h = cap_token (cap fn_call)) ∧
  get cas (cap_token (cap fn_call)) = Ok (Some (Entry_CapTokenGrant grant)) ∧
  (∃ fns, grant_functions grant !! zome_name fn_call = Some fns ∧ call_fn_name fn_call ∈ fns) ∧
  CapTokenGrant_token grant = cap_token (cap fn_call).

(** The grant is open to the caller. *)
Definition admits (grant : CapTokenGrant) (fn_call : ZomeFnCall) : Prop :=
  match grant_assignees grant with
  | Some (a :: assignees) => source (cap_provenance (cap fn_call)) ∈ a :: assignees
  | _ => True
  end.

Lemma get_grant_chain agent cas l fuel address :
  chain cas l → agent_top_chain_header agent = head l → length l < fuel →
  ∃ g, get_grant agent cas fuel address = Ret g ∧
    ∀ grant, g = Some grant ↔
      (∃ h, h ∈ l ∧ entry_address h = address) ∧
      get cas address = Ok (Some (Entry_CapTokenGrant grant)).
Proof.
  intros Hc Ht Hf. unfold get_grant, get_entry_from_agent_chain. rewrite Ht.
  erewrite iter_find_yields by (eauto using chain_yields).
  cbn [mbind Outcome_bind].
  destruct (filter _ l) as [|h l'] eqn:Hl; cbn [head mbind Outcome_bind].
  - eexists. split; [done|]. intros grant. split; [done|]. intros [(h & Hh & Ha) _].
    assert (Hin : h ∈ filter (λ h, bool_decide (entry_address h = address)) l).
    { apply list_elem_of_filter. split; [|done]. by apply bool_decide_spec. }
    rewrite Hl in Hin. set_solver.
  - assert (Hin : h ∈ filter (λ h, bool_decide (entry_address h = address)) l)
      by (rewrite Hl; set_solver).
    apply list_elem_of_filter in Hin as [Ha Hin]. apply bool_decide_spec in Ha.
    eexists. split; [done|]. intros grant.
    destruct (get cas address) as [[[]|]|]; naive_solver.
Qed.

Lemma verify_grant_spec grant fn_call :
  let valid := call_signature fn_call in
  let listed := (∃ fns, grant_functions grant !! zome_name fn_call = Some fns ∧
                        call_fn_name fn_call ∈ fns) ∧
                CapTokenGrant_token grant = cap_token (cap fn_call) in
  (¬ listed ∧ verify_grant base64_encode base64_decode decode_pub_key sodium_verify grant fn_call
              = Ret false) ∨
  (listed ∧
   match valid with
   | Err _ => verify_grant base64_encode base64_decode decode_pub_key sodium_verify grant fn_call
              = Panic
   | Ok v => ∃ b, verify_grant base64_encode base64_decode decode_pub_key sodium_verify grant fn_call
                  = Ret b ∧ (b = true ↔ v = true ∧ admits grant fn_call)
   end).
Proof.
  intros valid listed. unfold verify_grant, verify_call_sig. fold valid.
  destruct (grant_functions grant !! zome_name fn_call) as [fns|] eqn:Hz.
  2: { left. split; [|done]. by intros [(? & ? & _) _]. }
  case_bool_decide as Hf; simpl.
  2: { left. split; [|done]. intros [(? & ? & ?) _]. by simplify_eq. }
  case_bool_decide as Ht; simpl; [|by left; split; [intros [_ ?]|]].
  right. split; [unfold listed; eauto|].
  change (verify _ _ _ _ _ _) with valid. destruct valid as [v|]; cbn [mbind Outcome_bind]; [|done].
  unfold admits, CapTokenGrant_cap_type. destruct v; simpl; [|by eexists; split; [|split; [|intros []]]].
  destruct (grant_assignees grant) as [[|a as_]|]; simpl; eexists; (split; [done|]);
    rewrite ?bool_decide_eq_true; tauto.
Qed.

Lemma check_capability_spec agent cas l fuel fn_call :
  chain cas l → agent_top_chain_header agent = head l → length l < fuel →
  let check := check_capability base64_encode base64_decode decode_pub_key sodium_verify
                 agent cas fuel fn_call in
  let found := ∃ grant, granted cas l fn_call grant in
  (¬ found ∧ check = Ret false) ∨
  (found ∧ is_ok (call_signature fn_call) = false ∧ check = Panic) ∨
  (found ∧ ∃ v b, call_signature fn_call = Ok v ∧ check = Ret b ∧
     (b = true ↔ v = true ∧ ∃ grant, granted cas l fn_call grant ∧ admits grant fn_call)).
Proof.
  intros Hc Ht Hf. cbn zeta. unfold check_capability.
  destruct (get_grant_chain agent cas l fuel (cap_token (cap fn_call)) Hc Ht Hf) as (g & -> & Hg).
  cbn [mbind Outcome_bind]. destruct g as [grant|].
  2: { left. split; [|done]. intros (grant & Hh & Hcas & _). by assert (None = Some grant) by by apply Hg. }
  destruct (proj1 (Hg grant) eq_refl) as [Hh Hcas].
  assert (Huniq : ∀ grant', granted cas l fn_call grant' → grant' = grant).
  { intros grant' (_ & Hcas' & _). congruence. }
  destruct (verify_grant_spec grant fn_call) as [[Hl ->]|[[Hl Htok] Hv]].
  - left. split; [|done]. intros (grant' & Hg'). assert (grant' = grant) as -> by auto.
    apply Hl. by destruct Hg' as (_ & _ & ? & ?).
  - right. assert (Hgr : granted cas l fn_call grant) by done.
    destruct (call_signature fn_call) as [v|] eqn:Hs; [right|left; eauto].
    destruct Hv as (b & -> & Hb). split; [eauto|]. exists v, b. split_and!; try done.
    rewrite Hb. split; [naive_solver|]. intros [-> (grant' & Hg' & Ha)]. split; [done|].
    by rewrite (Huniq _ Hg') in Ha.
Qed.

(** The zome and the function that the call names, in the instance's DNA. *)
Definition callable (nucleus : NucleusState) (fn_call : ZomeFnCall) (name : string)
    (wasm : list Z) : Prop :=
  ∃ d zome f, dna nucleus = Some d ∧ get_zome d (zome_name fn_call) = Ok zome ∧
    get_function zome (call_fn_name fn_call) = Some f ∧ name = dna_name d ∧ wasm = code zome.

Lemma callable_spec nucleus fn_call :
  match find_function nucleus fn_call with
  | Ok (name, wasm) => ∀ n w, callable nucleus fn_call n w ↔ n = name ∧ w = wasm
  | Err _ => ∀ n w, ¬ callable nucleus fn_call n w
  end.
Proof.
  unfold find_function, callable, get_function_with_zome_name. destruct (dna nucleus) as [d|]; simpl.
  2: { intros n w (d & ? & ? & ? & _). congruence. }
  destruct (get_zome d (zome_name fn_call)) as [zome|] eqn:Hz; simpl.
  2: { intros n w (d' & zome & ? & [= ->] & Hz' & _). congruence. }
  destruct (get_function zome (call_fn_name fn_call)) as [f|] eqn:Hf; simpl.
  - intros n w. split; [|intros [-> ->]; eauto 10].
    intros (d' & z & f' & [= ->] & Hz' & _ & -> & ->). rewrite Hz in Hz'. by injection Hz' as ->.
  - intros n w (d' & z & f' & [= ->] & Hz' & Hf' & _). rewrite Hz in Hz'. injection Hz' as ->.
    congruence.
Qed.

(** The authorisation step of [validate_call]. *)
Lemma authorised_spec agent_id agent cas l fuel fn_call :
  chain cas l → agent_top_chain_header agent = head l → length l < fuel →
  let valid := call_signature fn_call in
  let own := pub_sign_key agent_id = cap_token (cap fn_call) in
  let result := authorised base64_encode base64_decode decode_pub_key sodium_verify
                  agent_id agent cas fuel fn_call in
  (result = Ret true ↔
     valid = Ok true ∧ ((∃ grant, granted cas l fn_call grant ∧ admits grant fn_call) ∨ own)) ∧
  (result = Panic ↔
     is_ok valid = false ∧ ((∃ grant, granted cas l fn_call grant) ∨ own)) ∧
  result ≠ NoFuel.
Proof.
  intros Hc Ht Hf valid own result. unfold result, authorised, verify_call_sig.
  change (verify _ _ _ _ _ _) with valid.
  assert (Hown : is_token_the_agent agent_id (cap fn_call) = true ↔ own) by apply String.eqb_eq.
  pose proof (check_capability_spec agent cas l fuel fn_call Hc Ht Hf) as Hspec.
  change (call_signature fn_call) with valid in Hspec. clearbody valid own. clear Hc Ht Hf.
  assert (HA : (∃ grant, granted cas l fn_call grant ∧ admits grant fn_call) →
               ∃ grant, granted cas l fn_call grant) by naive_solver.
  set (A := ∃ grant, _ ∧ admits grant fn_call) in *.
  set (G := ∃ grant, granted cas l fn_call grant) in *. clearbody A G.
  destruct Hspec as [[Hn ->]|[(Hfound & Hv & ->)|(Hfound & v & b & -> & -> & Hb)]];
    cbn [mbind Outcome_bind].
  - destruct (is_token_the_agent agent_id (cap fn_call)); [destruct valid as [[]|]|];
      cbn [is_ok]; repeat split; intuition congruence.
  - destruct valid; [done|]. repeat split; intuition congruence.
  - destruct b; [|destruct (is_token_the_agent agent_id (cap fn_call)), v]; cbn [is_ok];
      repeat split; intuition congruence.
Qed.

(** The outcomes of [validate_call]. *)
Lemma validate_call_outcomes agent_id nucleus agent cas l fuel fn_call :
  chain cas l → agent_top_chain_header agent = head l → length l < fuel →
  let valid := call_signature fn_call in
  let result := validate_call base64_encode base64_decode decode_pub_key sodium_verify
                  agent_id (Some (nucleus, agent)) cas fuel fn_call in
  let own := pub_sign_key agent_id = cap_token (cap fn_call) in
  (∀ name wasm, result = Ret (Ok (name, wasm)) ↔
     callable nucleus fn_call name wasm ∧ valid = Ok true ∧
     ((∃ grant, granted cas l fn_call grant ∧ admits grant fn_call) ∨ own)) ∧
  (result = Panic ↔
     (∃ name wasm, callable nucleus fn_call name wasm) ∧ is_ok valid = false ∧
     ((∃ grant, granted cas l fn_call grant) ∨ own)) ∧
  result ≠ NoFuel.
Proof.
  intros Hc Ht Hf valid result own. subst result. unfold validate_call.
  pose proof (callable_spec nucleus fn_call) as Hcall.
  destruct (find_function nucleus fn_call) as [[name0 wasm0]|e].
  2: { split_and!; [|split; [done|]|done]; [intros name wasm; split; [done|]|];
       [intros [Hw _]|intros [(name & wasm & Hw) _]]; by apply Hcall in Hw. }
  pose proof (authorised_spec agent_id agent cas l fuel fn_call Hc Ht Hf) as (Hok & Hpanic & Hnf).
  fold own in Hok, Hpanic. change (call_signature fn_call) with valid in Hok, Hpanic, Hnf.
  clearbody valid own.
  set (o := authorised _ _ _ _ agent_id agent cas fuel fn_call) in *. clearbody o.
  assert (Hsome : ∃ n w, callable nucleus fn_call n w) by (do 2 eexists; by apply Hcall).
  split_and!.
  - intros n w. rewrite Hcall, <- Hok.
    destruct o as [[]| |]; cbn [mbind Outcome_bind]; naive_solver.
  - rewrite <- Hpanic. destruct o as [[]| |]; cbn [mbind Outcome_bind]; naive_solver.
  - by destruct o as [[]| |].
Qed.

(** C6: who may call a zome function.  With the source chain [l], the check of a
    call terminates; it accepts the call exactly if the DNA has the zome and
    function, the caller's signature of the function and its parameters is
    valid, and either the chain holds a grant under the presented token that
    lists the function and is open to the caller, or the token is the agent's
    own key.  It panics exactly if the signature or the caller's key is
    malformed in a call that names an existing function and either presents such
    a grant or the agent's key. *)
Theorem validate_call_spec agent_id nucleus agent cas l fuel fn_call :
  chain cas l → agent_top_chain_header agent = head l → length l < fuel →
  let valid := call_signature fn_call in
  let result := validate_call base64_encode base64_decode decode_pub_key sodium_verify
                  agent_id (Some (nucleus, agent)) cas fuel fn_call in
  let own := pub_sign_key agent_id = cap_token (cap fn_call) in
  (∀ name wasm, result = Ret (Ok (name, wasm)) ↔
     callable nucleus fn_call name wasm ∧ valid = Ok true ∧
     ((∃ grant, granted cas l fn_call grant ∧ admits grant fn_call) ∨ own)) ∧
  (result = Panic ↔
     (∃ name wasm, callable nucleus fn_call name wasm) ∧ is_ok valid = false ∧
     ((∃ grant, granted cas l fn_call grant) ∨ own)) ∧
  result ≠ NoFuel.
Proof. apply validate_call_outcomes. Qed.

End authority.

(** ** Running calls *)

(** What a poll of a [CallResultFuture] does: it is ready with a result (and
    then, if the result came from the state, asks to clear the call), it spawns
    the thread of the call, or it just stays pending. *)
Inductive PollOutcome : Type :=
| Poll_Ready (result : Result HolochainError JsonString) (clear : bool)
| Poll_Spawn
| Poll_Pending.

(** [channel_error] is [context.action_channel_error(..)]; [state] is
    [context.try_state()]. *)
Definition CallResultFuture_poll (channel_error : option HolochainError)
    (state : option NucleusState) (zome_call : ZomeFnCall) (call_spawned : bool) : PollOutcome :=
  match channel_error, state with
  | Some err, _ => Poll_Ready (Err err) false
  | None, None => Poll_Pending
  | None, Some nucleus =>
      if call_spawned then
        match zome_call_result nucleus zome_call with
        | Some result => Poll_Ready result true
        | None => Poll_Pending
        end
      else if bool_decide (zome_call ∈ running_zome_calls nucleus) then Poll_Spawn
      else Poll_Pending
  end.

(** The system that runs calls: the nucleus, the action channel (oldest first),
    the live futures with their [call_spawned] flag, the threads that execute a
    call, and the calls made so far (every call has a fresh id). *)
Record CallSystem : Type := {
  nucleus : NucleusState;
  channel : list Action;
  futures : gmap ZomeFnCall bool;
  threads : gset ZomeFnCall;
  issued : gset ZomeFnCall;
}.

Definition CallSystem_new (n : NucleusState) : CallSystem :=
  {| nucleus := n; channel := []; futures := ∅; threads := ∅; issued := ∅ |}.

(** The actions about zome calls. *)
Inductive CallMsg : Type :=
| Msg_Queue (c : ZomeFnCall)
| Msg_Return (c : ZomeFnCall)
| Msg_Clear (c : ZomeFnCall).

#[export] Instance CallMsg_eq_dec : EqDecision CallMsg.
Proof. solve_decision. Defined.

Definition call_msg (a : Action) : option CallMsg :=
  match a with
  | Action_QueueZomeFunctionCall c => Some (Msg_Queue c)
  | Action_ReturnZomeFunctionResult r => Some (Msg_Return (response_call r))
  | Action_ClearZomeFunctionCall c => Some (Msg_Clear c)
  | _ => None
  end.

Definition wrap (a : Action) : ActionWrapper := {| aw_action := a; aw_id := "" |}.

(** Steps that carry calls forward: the instance reduces the next action; a
    poll of a future has an effect; a thread ends and dispatches its result. *)
Inductive work : CallSystem → CallSystem → Prop :=
| work_reduce s a rest :
    channel s = a :: rest →
    work s {| nucleus := Nucleus.reduce (nucleus s) (wrap a); channel := rest;
              futures := futures s; threads := threads s; issued := issued s |}
| work_spawn s c b :
    futures s !! c = Some b →
    CallResultFuture_poll None (Some (nucleus s)) c b = Poll_Spawn →
    work s {| nucleus := nucleus s; channel := channel s; futures := <[c := true]> (futures s);
              threads := {[c]} ∪ threads s; issued := issued s |}
| work_ready s c b r :
    futures s !! c = Some b →
    CallResultFuture_poll None (Some (nucleus s)) c b = Poll_Ready r true →
    work s {| nucleus := nucleus s; channel := channel s ++ [Action_ClearZomeFunctionCall c];
              futures := delete c (futures s); threads := threads s; issued := issued s |}
| work_return s c r :
    c ∈ threads s →
    work s {| nucleus := nucleus s;
              channel := channel s ++ [Action_ReturnZomeFunctionResult
                                         {| response_call := c; response_result := r |}];
              futures := futures s; threads := threads s ∖ {[c]}; issued := issued s |}.

(** Besides, [call_zome_function] makes new calls, and other parts of the
    program dispatch actions of their own. *)
Inductive call_step : CallSystem → CallSystem → Prop :=
| step_work s s' : work s s' → call_step s s'
| step_call s c :
    c ∉ issued s →
    call_step s {| nucleus := nucleus s; channel := channel s ++ [Action_QueueZomeFunctionCall c];
                   futures := <[c := false]> (futures s); threads := threads s;
                   issued := {[c]} ∪ issued s |}
| step_other s a :
    call_msg a = None →
    call_step s {| nucleus := nucleus s; channel := channel s ++ [a]; futures := futures s;
                   threads := threads s; issued := issued s |}.

(** ** The phases of a call *)

Inductive Phase : Type :=
| Unissued | Sent | Queued | Started | Executing | Returning | Returned | Clearing | Over.

#[export] Instance Phase_eq_dec : EqDecision Phase.
Proof. solve_decision. Defined.

Definition phase_of_msg (m : CallMsg) : Phase :=
  match m with Msg_Queue _ => Sent | Msg_Return _ => Returning | Msg_Clear _ => Clearing end.
Definition msg_call (m : CallMsg) : ZomeFnCall :=
  match m with Msg_Queue c | Msg_Return c | Msg_Clear c => c end.

Definition future_of (p : Phase) : option bool :=
  match p with
  | Sent | Queued | Started => Some false
  | Executing | Returning | Returned => Some true
  | _ => None
  end.
Definition runs (p : Phase) : bool :=
  match p with Started | Executing | Returning => true | _ => false end.
Definition has_result (p : Phase) : bool :=
  match p with Returned | Clearing => true | _ => false end.

(** The state of the system, given the phase of every call. *)
Record phases (s : CallSystem) (ph : ZomeFnCall → Phase) : Prop := {
  ph_issued c : c ∈ issued s ↔ ph c ≠ Unissued;
  ph_futures c : futures s !! c = future_of (ph c);
  ph_threads c : c ∈ threads s ↔ ph c = Executing;
  ph_running c : c ∈ running_zome_calls (nucleus s) ↔ runs (ph c) = true;
  ph_queued c : c ∈ queued_zome_calls (nucleus s) ↔ ph c = Queued;
  ph_msgs m : m ∈ omap call_msg (channel s) ↔ ph (msg_call m) = phase_of_msg m;
  ph_results c : is_Some (zome_call_results (nucleus s) !! c) ↔ has_result (ph c) = true;
  ph_queue_nodup : NoDup (queued_zome_calls (nucleus s));
  ph_msgs_nodup : NoDup (omap call_msg (channel s));
  ph_max : size (running_zome_calls (nucleus s)) ≤ MAX_ZOME_CALLS;
  ph_full : queued_zome_calls (nucleus s) ≠ [] →
            size (running_zome_calls (nucleus s)) = MAX_ZOME_CALLS;
}.

Definition set_phase (ph : ZomeFnCall → Phase) (c : ZomeFnCall) (p : Phase) : ZomeFnCall → Phase :=
  λ c', if decide (c' = c) then p else ph c'.

Lemma set_phase_eq ph c p : set_phase ph c p c = p.
Proof. unfold set_phase. by rewrite decide_True. Qed.

Lemma set_phase_ne ph c p c' : c' ≠ c → set_phase ph c p c' = ph c'.
Proof. intros. unfold set_phase. by rewrite decide_False. Qed.

Definition msg_phase (p : Phase) : bool :=
  match p with Sent | Returning | Clearing => true | _ => false end.

Lemma phase_of_msg_msg m : msg_phase (phase_of_msg m) = true.
Proof. by destruct m. Qed.

Lemma msg_determined m m' :
  msg_call m = msg_call m' → phase_of_msg m = phase_of_msg m' → m = m'.
Proof. destruct m, m'; simpl; congruence. Qed.

(** The messages in the channel agree with the phases. *)
Definition msgs_agree (msgs : list CallMsg) (ph : ZomeFnCall → Phase) : Prop :=
  NoDup msgs ∧ ∀ m, m ∈ msgs ↔ ph (msg_call m) = phase_of_msg m.

Lemma msgs_snoc msgs ph m0 :
  msgs_agree msgs ph → msg_phase (ph (msg_call m0)) = false →
  msgs_agree (msgs ++ [m0]) (set_phase ph (msg_call m0) (phase_of_msg m0)).
Proof.
  intros [Hn Hm] H0. assert (Hnot : ∀ m, msg_call m = msg_call m0 → m ∉ msgs).
  { intros m Hc Hin%Hm. rewrite Hc in Hin. by rewrite Hin, phase_of_msg_msg in H0. }
  split.
  - apply NoDup_app. split_and!; [done| |apply NoDup_singleton].
    intros m Hin ->%list_elem_of_singleton. by apply (Hnot m0).
  - intros m. rewrite elem_of_app, list_elem_of_singleton.
    destruct (decide (msg_call m = msg_call m0)) as [Hc|Hc].
    + rewrite Hc, set_phase_eq. split.
      * intros [Hin| ->]; [by destruct (Hnot m)|done].
      * intros Hp. right. by apply msg_determined.
    + rewrite set_phase_ne, Hm by done. naive_solver.
Qed.

Lemma msgs_pop m0 msgs ph p :
  msgs_agree (m0 :: msgs) ph → msg_phase p = false →
  msgs_agree msgs (set_phase ph (msg_call m0) p).
Proof.
  intros [[Hn Hd]%NoDup_cons Hm] Hp. split; [done|]. intros m.
  destruct (decide (msg_call m = msg_call m0)) as [Hc|Hc].
  - rewrite Hc, set_phase_eq. split; [|intros ->; by rewrite phase_of_msg_msg in Hp].
    intros Hin. destruct Hn.
    assert (m = m0) as <-; [|done]. apply msg_determined; [done|].
    assert (m ∈ m0 :: msgs) as <-%Hm by set_solver. rewrite Hc. apply Hm. set_solver.
  - rewrite set_phase_ne by done. rewrite <- Hm, elem_of_cons. naive_solver.
Qed.

Lemma msgs_other msgs ph c p :
  msgs_agree msgs ph → msg_phase (ph c) = false → msg_phase p = false →
  msgs_agree msgs (set_phase ph c p).
Proof.
  intros [Hn Hm] H1 H2. split; [done|]. intros m. rewrite Hm.
  destruct (decide (msg_call m = c)) as [<-|Hc]; [|by rewrite set_phase_ne].
  rewrite set_phase_eq. pose proof (phase_of_msg_msg m). split; congruence.
Qed.

Lemma phases_msgs s ph : phases s ph → msgs_agree (omap call_msg (channel s)) ph.
Proof. intros Hp. split; [apply (ph_msgs_nodup _ _ Hp)|apply (ph_msgs _ _ Hp)]. Qed.

Lemma omap_snoc {A B} (f : A → option B) l x :
  omap f (l ++ [x]) = omap f l ++ match f x with Some y => [y] | None => [] end.
Proof. by rewrite omap_app. Qed.

(** Case analysis on whether a call is the one that moves. *)
Ltac by_phase c Hp :=
  let c' := fresh "c'" in
  intros c'; try specialize (Hp c');
  destruct (decide (c' = c)) as [->|?];
  [rewrite ?set_phase_eq|rewrite ?set_phase_ne by done];
  rewrite ?lookup_insert_eq, ?lookup_delete_eq, ?lookup_insert_ne, ?lookup_delete_ne by done.

(** The same for a second call that moves. *)
Ltac by_phases c :=
  match goal with |- context [set_phase _ c _ ?c'] =>
    destruct (decide (c' = c)) as [->|?];
    [rewrite ?set_phase_eq|rewrite ?set_phase_ne by done];
    rewrite ?lookup_insert_eq, ?lookup_delete_eq, ?lookup_insert_ne, ?lookup_delete_ne by done
  end.

Lemma step_call_phases s ph c :
  phases s ph → c ∉ issued s →
  phases {| nucleus := nucleus s; channel := channel s ++ [Action_QueueZomeFunctionCall c];
            futures := <[c := false]> (futures s); threads := threads s;
            issued := {[c]} ∪ issued s |} (set_phase ph c Sent).
Proof.
  intros Hp Hc.
  assert (Hu : ph c = Unissued).
  { destruct (decide (ph c = Unissued)); [done|]. destruct Hc. by apply (ph_issued _ _ Hp). }
  destruct (msgs_snoc _ _ (Msg_Queue c) (phases_msgs _ _ Hp)) as [Hn Hm]; [by simpl; rewrite Hu|].
  destruct Hp as [Hi Hf Ht Hr Hq _ Hres Hqn _ Hmax Hfull].
  constructor; cbn [nucleus channel futures threads issued]; try done.
  - by_phase c Hi; set_solver.
  - by_phase c Hf; done.
  - by_phase c Ht; rewrite Ht; rewrite ?Hu; done.
  - by_phase c Hr; rewrite Hr; rewrite ?Hu; done.
  - by_phase c Hq; rewrite Hq; rewrite ?Hu; done.
  - by rewrite omap_snoc.
  - by_phase c Hres; rewrite Hres; rewrite ?Hu; done.
  - by rewrite omap_snoc.
Qed.

Lemma step_spawn_phases s ph c :
  phases s ph → ph c = Started →
  phases {| nucleus := nucleus s; channel := channel s; futures := <[c := true]> (futures s);
            threads := {[c]} ∪ threads s; issued := issued s |} (set_phase ph c Executing).
Proof.
  intros Hp Hu.
  destruct (msgs_other _ _ c Executing (phases_msgs _ _ Hp)) as [Hn Hm]; [by rewrite Hu|done|].
  destruct Hp as [Hi Hf Ht Hr Hq _ Hres Hqn _ Hmax Hfull].
  constructor; cbn [nucleus channel futures threads issued]; try done.
  - by_phase c Hi; rewrite Hi; rewrite ?Hu; done.
  - by_phase c Hf; done.
  - by_phase c Ht; set_solver.
  - by_phase c Hr; rewrite Hr; rewrite ?Hu; done.
  - by_phase c Hq; rewrite Hq; rewrite ?Hu; done.
  - by_phase c Hres; rewrite Hres; rewrite ?Hu; done.
Qed.

Lemma step_ready_phases s ph c :
  phases s ph → ph c = Returned →
  phases {| nucleus := nucleus s; channel := channel s ++ [Action_ClearZomeFunctionCall c];
            futures := delete c (futures s); threads := threads s; issued := issued s |}
    (set_phase ph c Clearing).
Proof.
  intros Hp Hu.
  destruct (msgs_snoc _ _ (Msg_Clear c) (phases_msgs _ _ Hp)) as [Hn Hm]; [by simpl; rewrite Hu|].
  destruct Hp as [Hi Hf Ht Hr Hq _ Hres Hqn _ Hmax Hfull].
  constructor; cbn [nucleus channel futures threads issued]; rewrite ?omap_snoc; try done.
  - by_phase c Hi; rewrite Hi; rewrite ?Hu; done.
  - by_phase c Hf; done.
  - by_phase c Ht; rewrite Ht; rewrite ?Hu; done.
  - by_phase c Hr; rewrite Hr; rewrite ?Hu; done.
  - by_phase c Hq; rewrite Hq; rewrite ?Hu; done.
  - by_phase c Hres; rewrite Hres; rewrite ?Hu; done.
Qed.

Lemma step_return_phases s ph c r :
  phases s ph → ph c = Executing →
  phases {| nucleus := nucleus s;
            channel := channel s ++ [Action_ReturnZomeFunctionResult
                                       {| response_call := c; response_result := r |}];
            futures := futures s; threads := threads s ∖ {[c]}; issued := issued s |}
    (set_phase ph c Returning).
Proof.
  intros Hp Hu.
  destruct (msgs_snoc _ _ (Msg_Return c) (phases_msgs _ _ Hp)) as [Hn Hm]; [by simpl; rewrite Hu|].
  destruct Hp as [Hi Hf Ht Hr Hq _ Hres Hqn _ Hmax Hfull].
  constructor; cbn [nucleus channel futures threads issued]; rewrite ?omap_snoc; try done.
  - by_phase c Hi; rewrite Hi; rewrite ?Hu; done.
  - by_phase c Hf; rewrite Hf; rewrite ?Hu; done.
  - by_phase c Ht; set_solver.
  - by_phase c Hr; rewrite Hr; rewrite ?Hu; done.
  - by_phase c Hq; rewrite Hq; rewrite ?Hu; done.
  - by_phase c Hres; rewrite Hres; rewrite ?Hu; done.
Qed.

(** *** The instance reduces the next action *)

(** The system after reducing the head of the channel. *)
Definition after_reduce (s : CallSystem) (a : Action) (rest : list Action) : CallSystem :=
  {| nucleus := Nucleus.reduce (nucleus s) (wrap a); channel := rest;
     futures := futures s; threads := threads s; issued := issued s |}.

Lemma reduce_no_call n a :
  call_msg a = None →
  let n' := Nucleus.reduce n (wrap a) in
  queued_zome_calls n' = queued_zome_calls n ∧ running_zome_calls n' = running_zome_calls n ∧
  zome_call_results n' = zome_call_results n.
Proof.
  unfold Nucleus.reduce, wrap; simpl. destruct a; try done; simpl; intros _.
  - unfold reduce_initialize_chain. by destruct (status n).
  - unfold reduce_return_initialization_result. by destruct (status n), result.
  - unfold reduce_trace_return_hdk_function. by destruct (_ !! _).
Qed.

Lemma reduce_other_phases s ph a rest :
  phases s ph → channel s = a :: rest → call_msg a = None → phases (after_reduce s a rest) ph.
Proof.
  intros Hp Hch Ha. pose proof (phases_msgs _ _ Hp) as [Hn Hm]. rewrite Hch in Hn, Hm.
  simpl in Hn, Hm. rewrite Ha in Hn, Hm.
  destruct (reduce_no_call (nucleus s) a Ha) as (Eq & Er & Es).
  destruct Hp as [Hi Hf Ht Hr Hq _ Hres Hqn _ Hmax Hfull].
  by constructor; cbn [nucleus channel futures threads issued after_reduce]; rewrite ?Eq, ?Er, ?Es.
Qed.

Lemma reduce_clear_phases s ph c rest :
  phases s ph → channel s = Action_ClearZomeFunctionCall c :: rest →
  ph c = Clearing ∧
  phases (after_reduce s (Action_ClearZomeFunctionCall c) rest) (set_phase ph c Over).
Proof.
  intros Hp Hch. pose proof (phases_msgs _ _ Hp) as Hag. rewrite Hch in Hag; simpl in Hag.
  assert (Hu : ph c = Clearing) by (apply (proj2 Hag (Msg_Clear c)); set_solver).
  split; [done|]. destruct (msgs_pop _ _ _ Over Hag) as [Hn Hm]; [done|].
  destruct Hp as [Hi Hf Ht Hr Hq _ Hres Hqn _ Hmax Hfull].
  assert (Er : running_zome_calls (nucleus s) ∖ {[c]} = running_zome_calls (nucleus s)).
  { specialize (Hr c). rewrite Hu in Hr. set_solver. }
  assert (Eq : filter (λ c', c' ≠ c) (queued_zome_calls (nucleus s)) = queued_zome_calls (nucleus s)).
  { apply list_filter_all. intros c' Hc' ->. apply Hq in Hc'. congruence. }
  constructor; cbn [nucleus channel futures threads issued after_reduce Nucleus.reduce wrap aw_action
    reduce_clear_zome_function_call queued_zome_calls running_zome_calls zome_call_results];
    rewrite ?Eq, ?Er; try done.
  - by_phase c Hi; rewrite Hi; rewrite ?Hu; done.
  - by_phase c Hf; rewrite Hf; rewrite ?Hu; done.
  - by_phase c Ht; rewrite Ht; rewrite ?Hu; done.
  - by_phase c Hr; rewrite Hr; rewrite ?Hu; done.
  - by_phase c Hq; rewrite Hq; rewrite ?Hu; done.
  - by_phase c Hres; [|done]. split; [by intros [? ?]|done].
Qed.

Lemma reduce_queue_phases s ph c rest :
  phases s ph → channel s = Action_QueueZomeFunctionCall c :: rest →
  ph c = Sent ∧ ∃ p, (p = Started ∨ p = Queued) ∧
  phases (after_reduce s (Action_QueueZomeFunctionCall c) rest) (set_phase ph c p).
Proof.
  intros Hp Hch. pose proof (phases_msgs _ _ Hp) as Hag. rewrite Hch in Hag; simpl in Hag.
  assert (Hu : ph c = Sent) by (apply (proj2 Hag (Msg_Queue c)); set_solver).
  split; [done|].
  destruct Hp as [Hi Hf Ht Hr Hq _ Hres Hqn _ Hmax Hfull].
  assert (Hrc : c ∉ running_zome_calls (nucleus s)) by (rewrite Hr, Hu; done).
  assert (Hqc : c ∉ queued_zome_calls (nucleus s)) by (rewrite Hq, Hu; done).
  destruct (Nat.ltb (size (running_zome_calls (nucleus s))) MAX_ZOME_CALLS) eqn:Hlt;
    [exists Started|exists Queued]; (split; [by eauto|]);
    (destruct (msgs_pop _ _ _ Started Hag) as [Hn Hm]; [done|]);
    (destruct (msgs_pop _ _ _ Queued Hag) as [_ Hm']; [done|]);
    constructor; cbn [nucleus channel futures threads issued after_reduce Nucleus.reduce wrap
      aw_action reduce_queue_zome_function_call queued_zome_calls running_zome_calls
      zome_call_results]; rewrite ?Hlt; try done.
  - by_phase c Hi; rewrite Hi; rewrite ?Hu; done.
  - by_phase c Hf; rewrite Hf; rewrite ?Hu; done.
  - by_phase c Ht; rewrite Ht; rewrite ?Hu; done.
  - by_phase c Hr; set_solver.
  - by_phase c Hq; rewrite Hq; rewrite ?Hu; done.
  - by_phase c Hres; rewrite Hres; rewrite ?Hu; done.
  - apply Nat.ltb_lt in Hlt. rewrite size_union, size_singleton by set_solver. lia.
  - intros Hne. apply Hfull in Hne. apply Nat.ltb_lt in Hlt. lia.
  - by_phase c Hi; rewrite Hi; rewrite ?Hu; done.
  - by_phase c Hf; rewrite Hf; rewrite ?Hu; done.
  - by_phase c Ht; rewrite Ht; rewrite ?Hu; done.
  - by_phase c Hr; rewrite Hr; rewrite ?Hu; done.
  - by_phase c Hq; set_solver.
  - by_phase c Hres; rewrite Hres; rewrite ?Hu; done.
  - apply NoDup_app. split_and!; [done|set_solver|apply NoDup_singleton].
  - intros _. apply Nat.ltb_ge in Hlt. lia.
Qed.

(** A return frees the place of the call. *)
Lemma return_message s ph r rest :
  phases s ph → channel s = Action_ReturnZomeFunctionResult r :: rest →
  let c := response_call r in
  let running := running_zome_calls (nucleus s) in
  ph c = Returning ∧ msgs_agree (omap call_msg rest) (set_phase ph c Returned) ∧
  c ∈ running ∧ size (running ∖ {[c]}) = size running - 1.
Proof.
  intros Hp Hch c running. pose proof (phases_msgs _ _ Hp) as Hag. rewrite Hch in Hag; simpl in Hag.
  assert (Hu : ph c = Returning) by (apply (proj2 Hag (Msg_Return c)); set_solver).
  assert (Hrc : c ∈ running) by (apply (ph_running _ _ Hp); by rewrite Hu).
  split_and!; [done|by apply (msgs_pop _ _ _ Returned Hag)|done|].
  rewrite size_difference by set_solver. by rewrite size_singleton.
Qed.

Lemma reduce_last_return_phases s ph r rest :
  phases s ph → channel s = Action_ReturnZomeFunctionResult r :: rest →
  queued_zome_calls (nucleus s) = [] →
  phases (after_reduce s (Action_ReturnZomeFunctionResult r) rest)
    (set_phase ph (response_call r) Returned).
Proof.
  intros Hp Hch Hqueue. destruct (return_message _ _ _ _ Hp Hch) as (Hu & [Hn Hm] & Hrc & Hsz).
  set (c := response_call r) in *.
  destruct Hp as [Hi Hf Ht Hr Hq _ Hres Hqn _ Hmax Hfull].
  constructor; cbn [nucleus channel futures threads issued after_reduce Nucleus.reduce wrap
    aw_action reduce_return_zome_function_result queued_zome_calls running_zome_calls
    zome_call_results]; rewrite ?Hqueue in *; fold c; try done.
  - by_phase c Hi; rewrite Hi; rewrite ?Hu; done.
  - by_phase c Hf; rewrite Hf; rewrite ?Hu; done.
  - by_phase c Ht; rewrite Ht; rewrite ?Hu; done.
  - by_phase c Hr; set_solver.
  - by_phase c Hq; rewrite Hq; rewrite ?Hu; done.
  - by_phase c Hres; [|done]. split; [done|by eauto].
  - lia.
Qed.

(** With calls waiting, the first of them takes the place. *)
Lemma reduce_next_return_phases s ph r rest next queue :
  phases s ph → channel s = Action_ReturnZomeFunctionResult r :: rest →
  queued_zome_calls (nucleus s) = next :: queue →
  ph next = Queued ∧
  phases (after_reduce s (Action_ReturnZomeFunctionResult r) rest)
    (set_phase (set_phase ph (response_call r) Returned) next Started).
Proof.
  intros Hp Hch Hqueue. destruct (return_message _ _ _ _ Hp Hch) as (Hu & Hag & Hrc & Hsz).
  set (c := response_call r) in *.
  destruct Hp as [Hi Hf Ht Hr Hq _ Hres Hqn _ Hmax Hfull]. rewrite Hqueue in *.
  assert (Hnext : ph next = Queued) by (apply Hq; set_solver).
  assert (Hne : next ≠ c) by congruence. split; [done|].
  apply msgs_other with (c := next) (p := Started) in Hag as [Hn Hm];
    [|by rewrite set_phase_ne, Hnext|done].
  apply NoDup_cons in Hqn as [Hnq Hqn]. specialize (Hfull ltac:(done)).
  assert (Hnr : next ∉ running_zome_calls (nucleus s)) by (rewrite Hr, Hnext; done).
  assert (Hsize : size ({[next]} ∪ running_zome_calls (nucleus s) ∖ {[c]}) = MAX_ZOME_CALLS).
  { clear -Hnr Hsz Hfull. rewrite size_union, size_singleton, Hsz by set_solver. rewrite Hfull. unfold MAX_ZOME_CALLS. lia. }
  constructor; cbn [nucleus channel futures threads issued after_reduce Nucleus.reduce wrap
    aw_action reduce_return_zome_function_result queued_zome_calls running_zome_calls
    zome_call_results]; rewrite ?Hqueue; fold c; try done.
  - by_phase next Hi; [rewrite Hi; by rewrite Hnext|].
    by_phases c; rewrite Hi; rewrite ?Hu; done.
  - by_phase next Hf; [rewrite Hf; by rewrite Hnext|].
    by_phases c; rewrite Hf; rewrite ?Hu; done.
  - by_phase next Ht; [rewrite Ht; by rewrite Hnext|].
    by_phases c; rewrite Ht; rewrite ?Hu; done.
  - clear -Hr Hne Hu. by_phase next Hr; rewrite elem_of_union, elem_of_singleton; [naive_solver|].
    rewrite elem_of_difference, elem_of_singleton, Hr. by_phases c; [rewrite Hu; simpl|]; naive_solver.
  - clear -Hq Hne Hu Hnq. by_phase next Hq; [naive_solver|]. rewrite elem_of_cons in Hq.
    by_phases c; [rewrite Hu in Hq|]; naive_solver.
  - by_phase next Hres; [by rewrite Hres, Hnext|].
    by_phases c; rewrite ?Hu; done.
  - lia.
Qed.

(** *** Progress *)

(** How far a call is from its end. *)
Definition rank (p : Phase) : nat :=
  match p with
  | Sent => 7 | Queued => 6 | Started => 5 | Executing => 4 | Returning => 3 | Returned => 2
  | Clearing => 1 | Unissued | Over => 0
  end.

Definition ranks (s : CallSystem) (ph : ZomeFnCall → Phase) : nat :=
  sum_list_with (λ c, rank (ph c)) (elements (issued s)).
Definition others (l : list Action) : nat := length (filter (λ a, call_msg a = None) l).
Definition remaining (s : CallSystem) (ph : ZomeFnCall → Phase) : nat :=
  ranks s ph + others (channel s).

Lemma sum_phase_ext l (ph ph' : ZomeFnCall → Phase) :
  (∀ c, c ∈ l → ph c = ph' c) →
  sum_list_with (λ c, rank (ph c)) l = sum_list_with (λ c, rank (ph' c)) l.
Proof. induction l as [|x l IH]; simpl; [done|]. intros He. rewrite He, IH; set_solver. Qed.

Lemma sum_set_phase l ph c p :
  NoDup l → c ∈ l → rank p < rank (ph c) →
  sum_list_with (λ c', rank (set_phase ph c p c')) l < sum_list_with (λ c, rank (ph c)) l.
Proof.
  induction l as [|x l IH]; [set_solver|]. intros [Hx Hl]%NoDup_cons Hc Hr; simpl.
  destruct (decide (x = c)) as [->|Hne].
  - rewrite set_phase_eq, (sum_phase_ext l (set_phase ph c p) ph); [lia|].
    intros c' Hc'. apply set_phase_ne. by intros ->.
  - rewrite set_phase_ne by done. apply elem_of_cons in Hc as [->|Hc]; [done|].
    specialize (IH Hl Hc Hr). lia.
Qed.

Lemma ranks_set_phase s s' ph c p :
  issued s' = issued s → c ∈ issued s → rank p < rank (ph c) →
  ranks s' (set_phase ph c p) < ranks s ph.
Proof.
  intros He Hc Hr. unfold ranks. rewrite He. apply sum_set_phase; [apply NoDup_elements| |done].
  by apply elem_of_elements.
Qed.

Lemma rank_issued s ph c : phases s ph → 0 < rank (ph c) → c ∈ issued s.
Proof. intros Hp Hr. apply (ph_issued _ _ Hp). intros Hu. rewrite Hu in Hr. simpl in Hr. lia. Qed.

Lemma others_snoc l a : call_msg a ≠ None → others (l ++ [a]) = others l.
Proof.
  intros Ha. unfold others. rewrite filter_app, length_app, filter_cons_False by done. simpl. lia.
Qed.

(** One call moves forward and the channel gets no other actions. *)
Lemma remaining_set_phase s s' ph c p :
  phases s ph → issued s' = issued s → rank p < rank (ph c) →
  others (channel s') ≤ others (channel s) →
  remaining s' (set_phase ph c p) < remaining s ph.
Proof.
  intros Hp Hi Hr Ho. unfold remaining.
  pose proof (ranks_set_phase s s' ph c p Hi (rank_issued s ph c Hp ltac:(lia)) Hr). lia.
Qed.

Lemma reduce_work s ph a rest :
  phases s ph → channel s = a :: rest →
  ∃ ph', phases (after_reduce s a rest) ph' ∧ remaining (after_reduce s a rest) ph' < remaining s ph.
Proof.
  intros Hp Hch.
  assert (Ho : others rest ≤ others (channel s)).
  { rewrite Hch. unfold others. rewrite filter_cons. case_decide; simpl; lia. }
  destruct (call_msg a) as [m|] eqn:Ha.
  2: { exists ph. split; [by apply reduce_other_phases|]. unfold remaining, ranks; simpl.
       rewrite Hch. unfold others. rewrite filter_cons_True by done. simpl. lia. }
  destruct a; simplify_eq/=.
  - destruct (reduce_queue_phases _ _ _ _ Hp Hch) as (Hu & p & Hp1 & Hp').
    exists (set_phase ph call p). split; [done|].
    apply remaining_set_phase; try done. rewrite Hu. destruct Hp1 as [-> | ->]; simpl; lia.
  - destruct (return_message _ _ _ _ Hp Hch) as (Hu & _).
    assert (Hlt : rank Returned < rank (ph (response_call response))) by (rewrite Hu; simpl; lia).
    destruct (queued_zome_calls (nucleus s)) as [|next queue] eqn:Hq.
    + eexists. split; [by apply reduce_last_return_phases|]. by apply remaining_set_phase.
    + destruct (reduce_next_return_phases _ _ _ _ _ _ Hp Hch Hq) as [Hn Hp'].
      eexists. split; [done|].
      pose proof (remaining_set_phase s (after_reduce s (Action_ReturnZomeFunctionResult response) rest)
        ph _ Returned Hp eq_refl Hlt Ho) as H1.
      assert (Hne : next ≠ response_call response) by congruence.
      pose proof (ranks_set_phase s (after_reduce s (Action_ReturnZomeFunctionResult response) rest)
        (set_phase ph (response_call response) Returned) next Started eq_refl
        (rank_issued s ph next Hp ltac:(rewrite Hn; simpl; lia))
        ltac:(rewrite set_phase_ne, Hn by done; simpl; lia)) as H2.
      unfold remaining, ranks in *. simpl in *. lia.
  - destruct (reduce_clear_phases _ _ _ _ Hp Hch) as [Hu Hp'].
    eexists. split; [done|]. apply remaining_set_phase; try done. rewrite Hu. simpl. lia.
Qed.

(** Every working step moves a call to its next phase. *)
Lemma work_phases s s' ph :
  work s s' → phases s ph → ∃ ph', phases s' ph' ∧ remaining s' ph' < remaining s ph.
Proof.
  intros Hw Hp. destruct Hw as [s a rest Hch|s c b Hf Hpoll|s c b r Hf Hpoll|s c r Ht].
  - by apply reduce_work.
  - assert (Hu : ph c = Started).
    { rewrite (ph_futures _ _ Hp) in Hf. unfold CallResultFuture_poll, zome_call_result in Hpoll.
      destruct b; [by case_match|]. case_bool_decide as Hr; [|done].
      apply (ph_running _ _ Hp) in Hr. by destruct (ph c). }
    eexists. split; [by apply step_spawn_phases|].
    apply remaining_set_phase; try done. rewrite Hu; simpl; lia.
  - assert (Hu : ph c = Returned).
    { rewrite (ph_futures _ _ Hp) in Hf. unfold CallResultFuture_poll, zome_call_result in Hpoll.
      destruct b; [|by case_bool_decide]. destruct (_ !! c) eqn:Hr; [|done].
      assert (Hres : has_result (ph c) = true) by (apply (ph_results _ _ Hp); eauto).
      by destruct (ph c). }
    eexists. split; [by apply step_ready_phases|].
    apply remaining_set_phase; try done; [rewrite Hu; simpl; lia|]. simpl. by rewrite others_snoc.
  - apply (ph_threads _ _ Hp) in Ht. eexists. split; [by apply step_return_phases|].
    apply remaining_set_phase; try done; [rewrite Ht; simpl; lia|]. simpl. by rewrite others_snoc.
Qed.

(** ** The theorems *)

Lemma work_progress s ph c b :
  phases s ph → futures s !! c = Some b → ∃ s', work s s'.
Proof.
  intros Hp Hf.
  assert (Hch : ∀ m, ph (msg_call m) = phase_of_msg m → ∃ s', work s s').
  { intros m Hm. apply (ph_msgs _ _ Hp) in Hm. destruct (channel s) as [|a rest] eqn:Hc.
    - simpl in Hm. set_solver.
    - eexists. by apply (work_reduce s a rest). }
  assert (Hrun : ∀ c, runs (ph c) = true → ∃ s', work s s').
  { clear c Hf. intros c Hr. destruct (ph c) eqn:Hc; try done.
    - eexists. apply (work_spawn s c false); [by rewrite (ph_futures _ _ Hp), Hc|].
      simpl. rewrite bool_decide_true; [done|]. apply (ph_running _ _ Hp). by rewrite Hc.
    - eexists. apply (work_return s c (Ok "")). by apply (ph_threads _ _ Hp).
    - by apply (Hch (Msg_Return c)). }
  rewrite (ph_futures _ _ Hp) in Hf. destruct (ph c) eqn:Hc; try done.
  - by apply (Hch (Msg_Queue c)).
  - apply (ph_queued _ _ Hp) in Hc as Hq.
    assert (Hfull : size (running_zome_calls (nucleus s)) = MAX_ZOME_CALLS).
    { apply (ph_full _ _ Hp). intros He. rewrite He in Hq. set_solver. }
    destruct (size_pos_elem_of (running_zome_calls (nucleus s))) as [c' Hc'];
      [rewrite Hfull; unfold MAX_ZOME_CALLS; lia|].
    apply (ph_running _ _ Hp) in Hc'. by apply (Hrun c').
  - apply (Hrun c). by rewrite Hc.
  - apply (Hrun c). by rewrite Hc.
  - apply (Hrun c). by rewrite Hc.
  - assert (Hr : is_Some (zome_call_results (nucleus s) !! c))
      by (apply (ph_results _ _ Hp); by rewrite Hc).
    destruct Hr as [r Hr]. eexists. apply (work_ready s c true r);
      [by rewrite (ph_futures _ _ Hp), Hc|]. simpl. unfold zome_call_result. by rewrite Hr.
Qed.

(** No calls are known to the nucleus, as in a new one and in one restored from
    a snapshot. *)
Definition idle (n : NucleusState) : Prop :=
  queued_zome_calls n = [] ∧ running_zome_calls n = ∅ ∧ zome_call_results n = ∅.

Definition call_reachable (s : CallSystem) : Prop :=
  ∃ n, idle n ∧ rtc call_step (CallSystem_new n) s.

Lemma reachable_phases s : call_reachable s → ∃ ph, phases s ph.
Proof.
  intros (n & (Hq & Hr & Hres) & Hs).
  assert (H0 : phases (CallSystem_new n) (λ _, Unissued)).
  { constructor; simpl; rewrite ?Hq, ?Hr, ?Hres; try done; try set_solver.
    - by destruct m; simpl; set_solver.
    - intros c. rewrite lookup_empty. split; [by intros [? ?]|done].
    - apply NoDup_nil_2.
    - apply NoDup_nil_2.
    - rewrite size_empty. lia. }
  revert H0. generalize (λ _ : ZomeFnCall, Unissued).
  induction Hs as [s|s1 s2 s3 Hstep _ IH]; intros ph Hp; [by eauto|].
  destruct Hstep as [s s' Hw|s c Hc|s a Ha].
  - destruct (work_phases _ _ _ Hw Hp) as (ph' & Hp' & _). eauto.
  - eapply IH, step_call_phases; eauto.
  - apply (IH ph). destruct Hp. constructor; simpl; rewrite ?omap_snoc, ?Ha, ?app_nil_r; done.
Qed.

(** C29: running calls are bounded, and places are not wasted.  However calls,
    polls, threads and the reducer interleave, at most [MAX_ZOME_CALLS] calls are
    marked as running and at most as many threads execute one; every thread
    belongs to a running call whose future waits for its result; and while calls
    wait in the queue all the places are taken. *)
Theorem zome_calls_bounded s :
  call_reachable s →
  size (running_zome_calls (nucleus s)) ≤ MAX_ZOME_CALLS ∧ size (threads s) ≤ MAX_ZOME_CALLS ∧
  (∀ c, c ∈ threads s → c ∈ running_zome_calls (nucleus s) ∧ futures s !! c = Some true) ∧
  (queued_zome_calls (nucleus s) ≠ [] →
   size (running_zome_calls (nucleus s)) = MAX_ZOME_CALLS).
Proof.
  intros [ph Hp]%reachable_phases.
  assert (Hsub : ∀ c, c ∈ threads s → c ∈ running_zome_calls (nucleus s)).
  { intros c Hc%(ph_threads _ _ Hp). apply (ph_running _ _ Hp). by rewrite Hc. }
  pose proof (ph_max _ _ Hp) as Hmax. split_and!; [done| |intros c Hc; split; [by apply Hsub|]|].
  - etrans; [|exact Hmax]. by apply subseteq_size.
  - apply (ph_threads _ _ Hp) in Hc. by rewrite (ph_futures _ _ Hp), Hc.
  - apply (ph_full _ _ Hp).
Qed.

(** C30: every call is answered.  From any reachable state, the work that remains
    (reducing actions, polling futures, running threads) ends after finitely
    many steps in whatever order it is done, unless new calls or actions come
    in; and when no work is left, every future has been resolved.  A thread is
    taken to return by itself, which it does unless its function waits for a call
    of its own. *)
Theorem zome_calls_complete s :
  call_reachable s →
  Acc (λ s2 s1, work s1 s2) s ∧ ((∀ s', ¬ work s s') → futures s = ∅).
Proof.
  intros [ph Hp]%reachable_phases. split.
  - remember (remaining s ph) as n eqn:Hn. revert s ph Hp Hn.
    induction (lt_wf n) as [n _ IH]. intros s ph Hp ->. constructor. intros s' Hw.
    destruct (work_phases _ _ _ Hw Hp) as (ph' & Hp' & Hlt). by eapply IH.
  - intros Hstop. apply map_empty. intros c. destruct (futures s !! c) as [b|] eqn:Hf; [|done].
    destruct (work_progress _ _ _ _ Hp Hf) as [s' Hw]. by destruct (Hstop s').
Qed.

(** ** Concrete instances *)

Section witnesses.
#[local] Existing Instance memory_storage.
#[local] Existing Instance toy_addressing.
#[local] Existing Instance toy_addressing_laws.

Definition ex_nucleus : NucleusState :=
  {| status := NucleusStatus_Initialized {| public_token := None; payload := None |};
     dna := Some ex_dna; queued_zome_calls := []; running_zome_calls := ∅;
     hdk_function_calls := ∅; zome_call_results := ∅ |}.

Definition empty_cas : @Cas memory_storage := (∅ : gmap string string).

(** The agent calls a function of its own instance. *)
Lemma validate_call_spec_witness :
  validate_call (λ s, s) (λ s, Some s) (λ k, Ok k) (λ _ _ _, true)
    {| nick := "alice"; pub_sign_key := "alice" |} (Some (ex_nucleus, AgentState_new "alice"))
    empty_cas 1 (ex_call 1) = Ret (Ok ("app"%string, [0%Z])).
Proof.
  apply (validate_call_spec (λ s, s) (λ s, Some s) (λ k, Ok k) (λ _ _ _, true)
    {| nick := "alice"; pub_sign_key := "alice" |} ex_nucleus (AgentState_new "alice")
    empty_cas [] 1 (ex_call 1)).
  - constructor.
  - reflexivity.
  - simpl. lia.
  - split; [|split; [reflexivity|right; reflexivity]].
    exists ex_dna, ex_zome, {| fn_name := "greet"; fn_inputs := []; fn_outputs := [] |}.
    repeat split.
Defined.

(** The system after a call has been made. *)
Definition ex_system : CallSystem :=
  {| nucleus := ex_nucleus; channel := [Action_QueueZomeFunctionCall (ex_call 1)];
     futures := <[ex_call 1 := false]> ∅; threads := ∅; issued := {[ex_call 1]} ∪ ∅ |}.

Lemma ex_system_reachable : call_reachable ex_system.
Proof.
  exists ex_nucleus. split; [done|]. apply rtc_once, (step_call (CallSystem_new ex_nucleus)).
  set_solver.
Qed.

Lemma zome_calls_bounded_witness :
  size (running_zome_calls (nucleus ex_system)) ≤ MAX_ZOME_CALLS ∧
  size (threads ex_system) ≤ MAX_ZOME_CALLS ∧
  (∀ c, c ∈ threads ex_system →
        c ∈ running_zome_calls (nucleus ex_system) ∧ futures ex_system !! c = Some true) ∧
  (queued_zome_calls (nucleus ex_system) ≠ [] →
   size (running_zome_calls (nucleus ex_system)) = MAX_ZOME_CALLS).
Proof. apply (zome_calls_bounded ex_system). exact ex_system_reachable. Defined.

Lemma zome_calls_complete_witness :
  Acc (λ s2 s1, work s1 s2) ex_system ∧ ((∀ s', ¬ work ex_system s') → futures ex_system = ∅).
Proof. apply (zome_calls_complete ex_system). exact ex_system_reachable. Defined.

End witnesses.
