(* ===== verification/AspectMap.v ===== *)
(** * Aspect maps

    Models [src/crates/net/src/aspect_map.rs]: which aspects of which entries
    are known, as maps from entry hashes to sets of aspect hashes, with the
    conversions to sets of pairs and to maps of lists.  The DHT's holding map,
    the authored aspects and the gossip lists all are such maps.

    Two maps are equivalent when they hold the same (entry, aspect) pairs; they
    may differ in entries with an empty set.  The theorems: [diff] and [merge]
    compute the difference and the union of the pairs, [diff] never leaves an
    empty set (so that its emptiness means that nothing is missing), [add] and
    [contains] agree, and the map of lists sent over the network reads back as
    an equivalent map. *)

From S2P Require Import Prelude Errors CoreTypes.

Abbreviation AspectSet := (gset string) (only parsing).
Abbreviation AspectMap := (gmap string (gset string)) (only parsing).

(** [entry(e).or_insert_with(HashSet::new).insert(a)]. *)
Definition insert_aspect (m : AspectMap) (e a : string) : AspectMap :=
  <[e := {[a]} ∪ default ∅ (m !! e)]> m.

(** [From<&AspectMap> for HashSet<(EntryHash, AspectHash)>]. *)
Definition to_pairs (m : AspectMap) : gset (string * string) :=
  map_fold (λ e s acc, set_map (pair e) s ∪ acc) ∅ m.

(** [From<&HashSet<(EntryHash, AspectHash)>> for AspectMap]. *)
Definition from_pairs (s : gset (string * string)) : AspectMap :=
  set_fold (λ p m, insert_aspect m p.1 p.2) ∅ s.

Definition diff (self other : AspectMap) : AspectMap :=
  from_pairs (to_pairs self ∖ to_pairs other).

(** [merge]: the entries of both maps, each with the union of its sets,
    collected into a map. *)
Definition merge (map1 map2 : AspectMap) : AspectMap :=
  list_to_map
    ((λ entry, (entry, default ∅ (map1 !! entry) ∪ default ∅ (map2 !! entry))) <$>
     (map_to_list map1).*1 ++ (map_to_list map2).*1).

Definition AspectMap_empty (self : AspectMap) : bool := Nat.eqb (size self) 0.

Definition aspect_hashes (self : AspectMap) : AspectSet :=
  map_fold (λ _ s acc, s ∪ acc) ∅ self.

(** [From<&HashMap<EntryHash, Vec<AspectHash>>> for AspectMap]. *)
Definition from_vec_map (a : gmap string (list string)) : AspectMap :=
  map_fold (λ entry_address aspect_list result,
              foldl (λ result aspect_address, insert_aspect result entry_address aspect_address)
                result aspect_list) ∅ a.

(** [From<AspectMap> for AspectVecMap]; the order of a set's elements is
    immaterial. *)
Definition to_vec_map (map : AspectMap) : gmap string (list string) := elements <$> map.

Section aspects.
Context `{Addressing}.

(** An aspect without an entry address panics ([expect]). *)
Definition AspectMap_contains (self : AspectMap) (aspect : EntryAspect) : Outcome bool :=
  match EntryAspect_entry_address aspect with
  | Err _ => Panic
  | Ok entry_address =>
      Ret match self !! entry_address with
          | Some set => bool_decide (EntryAspect_address aspect ∈ set)
          | None => false
          end
  end.

Definition AspectMap_add (self : AspectMap) (aspect : EntryAspect) : Outcome AspectMap :=
  match EntryAspect_entry_address aspect with
  | Err _ => Panic
  | Ok entry_address => Ret (insert_aspect self entry_address (EntryAspect_address aspect))
  end.

End aspects.

(** ** Pairs of a map *)

(** The map holds the aspect [a] of entry [e]. *)
Definition holds (m : AspectMap) (e a : string) : Prop := a ∈ default ∅ (m !! e).

(** Equivalence: the same pairs. *)
Definition aspect_equiv (m1 m2 : AspectMap) : Prop := ∀ e a, holds m1 e a ↔ holds m2 e a.

#[export] Instance aspect_equiv_equivalence : Equivalence aspect_equiv.
Proof. unfold aspect_equiv. constructor; repeat intro; naive_solver. Qed.

#[export] Instance holds_proper : Proper (aspect_equiv ==> (=) ==> (=) ==> iff) holds.
Proof. intros m1 m2 Hm e ? <- a ? <-. apply Hm. Qed.

Lemma holds_empty e a : ¬ holds ∅ e a.
Proof. unfold holds. rewrite lookup_empty. set_solver. Qed.

Lemma holds_insert_aspect m e a e' a' :
  holds (insert_aspect m e a) e' a' ↔ (e' = e ∧ a' = a) ∨ holds m e' a'.
Proof.
  unfold holds, insert_aspect. destruct (decide (e' = e)) as [->|Hne].
  - rewrite lookup_insert_eq. set_solver.
  - rewrite lookup_insert_ne by done. naive_solver.
Qed.

Lemma elem_of_to_pairs m e a : (e, a) ∈ to_pairs m ↔ holds m e a.
Proof.
  unfold to_pairs. revert e a.
  apply (map_fold_weak_ind (λ acc m, ∀ e a, (e, a) ∈ acc ↔ holds m e a)).
  - intros e a. pose proof (holds_empty e a). set_solver.
  - intros e' s m' acc Hnone IH e a. rewrite elem_of_union, elem_of_map, IH.
    unfold holds. destruct (decide (e = e')) as [->|Hne].
    + rewrite lookup_insert_eq, Hnone. set_solver.
    + rewrite lookup_insert_ne by done. set_solver.
Qed.

(** No entry of the map has an empty set. *)
Definition no_empty (m : AspectMap) : Prop := ∀ e, m !! e ≠ Some ∅.

Lemma from_pairs_spec s :
  (∀ e a, holds (from_pairs s) e a ↔ (e, a) ∈ s) ∧ no_empty (from_pairs s).
Proof.
  unfold from_pairs.
  apply (set_fold_ind_L (λ m s, (∀ e a, holds m e a ↔ (e, a) ∈ s) ∧ no_empty m)).
  - split; [|by intros e; rewrite lookup_empty].
    intros e a. pose proof (holds_empty e a). set_solver.
  - intros [e0 a0] s' m Hx [IH Hne]. split.
    + intros e a. rewrite holds_insert_aspect, IH. set_solver.
    + intros e. unfold insert_aspect; simpl. destruct (decide (e = e0)) as [->|].
      * rewrite lookup_insert_eq. intros [=]. set_solver.
      * rewrite lookup_insert_ne by done. apply Hne.
Qed.

Lemma lookup_list_to_map_graph {B} (f : string → B) (l : list string) (k : string) :
  (list_to_map ((λ x, (x, f x)) <$> l) : gmap string B) !! k =
    if decide (k ∈ l) then Some (f k) else None.
Proof.
  induction l as [|x l IH]; [done|]. rewrite fmap_cons; cbn [list_to_map foldr].
  rewrite lookup_insert. cbn [fst snd uncurry]. rewrite IH.
  repeat case_decide; try done; set_solver.
Qed.

Lemma elem_of_keys {B} (m : gmap string B) k : k ∈ (map_to_list m).*1 ↔ is_Some (m !! k).
Proof.
  rewrite list_elem_of_fmap. split.
  - intros ([k' v] & -> & Hin). apply elem_of_map_to_list in Hin. by exists v.
  - intros [v Hv]. exists (k, v). by rewrite elem_of_map_to_list.
Qed.

Lemma lookup_merge m1 m2 e :
  merge m1 m2 !! e =
    match m1 !! e, m2 !! e with
    | None, None => None
    | o1, o2 => Some (default ∅ o1 ∪ default ∅ o2)
    end.
Proof.
  unfold merge. rewrite (lookup_list_to_map_graph _ _ e).
  case_decide as Hin; rewrite elem_of_app, !elem_of_keys in Hin;
    destruct (m1 !! e), (m2 !! e); try done.
  - by destruct Hin as [[]|[]].
  - destruct Hin; eauto.
  - destruct Hin; eauto.
  - destruct Hin; eauto.
Qed.

Lemma holds_merge m1 m2 e a : holds (merge m1 m2) e a ↔ holds m1 e a ∨ holds m2 e a.
Proof.
  unfold holds. rewrite lookup_merge. destruct (m1 !! e), (m2 !! e); set_solver.
Qed.

Lemma holds_diff m1 m2 e a : holds (diff m1 m2) e a ↔ holds m1 e a ∧ ¬ holds m2 e a.
Proof.
  unfold diff. rewrite (proj1 (from_pairs_spec _)), elem_of_difference.
  by rewrite !elem_of_to_pairs.
Qed.

Lemma no_empty_diff m1 m2 : no_empty (diff m1 m2).
Proof. apply from_pairs_spec. Qed.

(** A map without empty sets is empty exactly when it holds no pair. *)
Lemma no_empty_empty m : no_empty m → AspectMap_empty m = true ↔ ∀ e a, ¬ holds m e a.
Proof.
  intros Hne. unfold AspectMap_empty. rewrite Nat.eqb_eq, map_size_empty_iff. split.
  - intros ->. apply holds_empty.
  - intros Hm. apply map_empty. intros e. destruct (m !! e) as [s|] eqn:He; [|done].
    destruct (decide (s = ∅)) as [->|Hs]; [by destruct (Hne e)|].
    apply set_choose_L in Hs as [a Ha]. destruct (Hm e a). unfold holds. by rewrite He.
Qed.

(** [diff] is the difference and [merge] the union of what two aspect maps
    hold, entry by entry and aspect by aspect; and since [diff] leaves no entry
    with an empty set, its result is [empty] exactly when every aspect of the
    first map is already held by the second, which is the test the gossip code
    makes before it requests missing aspects. *)
Theorem diff_merge_spec m1 m2 :
  (∀ e a, holds (diff m1 m2) e a ↔ holds m1 e a ∧ ¬ holds m2 e a) ∧
  (∀ e a, holds (merge m1 m2) e a ↔ holds m1 e a ∨ holds m2 e a) ∧
  (AspectMap_empty (diff m1 m2) = true ↔ ∀ e a, holds m1 e a → holds m2 e a).
Proof.
  split; [apply holds_diff|]. split; [apply holds_merge|].
  rewrite (no_empty_empty _ (no_empty_diff m1 m2)). setoid_rewrite holds_diff.
  unfold holds. split; [|naive_solver].
  intros Hd e a Ha. destruct (decide (a ∈ default ∅ (m2 !! e))) as [|Hn]; [done|].
  by destruct (Hd e a).
Qed.

#[export] Instance merge_proper : Proper (aspect_equiv ==> aspect_equiv ==> aspect_equiv) merge.
Proof.
  intros m1 m1' H1 m2 m2' H2 e a. rewrite !holds_merge. by rewrite (H1 e a), (H2 e a).
Qed.

#[export] Instance diff_proper : Proper (aspect_equiv ==> aspect_equiv ==> aspect_equiv) diff.
Proof.
  intros m1 m1' H1 m2 m2' H2 e a. rewrite !holds_diff. by rewrite (H1 e a), (H2 e a).
Qed.

(** Merging what is missing completes a map, whatever empty sets it has. *)
Lemma merge_diff m1 m2 : aspect_equiv (merge m2 (diff m1 m2)) (merge m1 m2).
Proof.
  intros e a. rewrite !holds_merge, holds_diff. unfold holds.
  destruct (decide (a ∈ default ∅ (m2 !! e))); naive_solver.
Qed.

Lemma holds_foldl_insert m e l e' a :
  holds (foldl (λ r x, insert_aspect r e x) m l) e' a ↔ (e' = e ∧ a ∈ l) ∨ holds m e' a.
Proof.
  revert m. induction l as [|x l IH]; intros m; simpl; [set_solver|].
  rewrite IH, holds_insert_aspect. set_solver.
Qed.

Lemma holds_from_vec_map v e a : holds (from_vec_map v) e a ↔ a ∈ default [] (v !! e).
Proof.
  unfold from_vec_map. revert e a.
  apply (map_fold_weak_ind (λ acc v, ∀ e a, holds acc e a ↔ a ∈ default [] (v !! e))).
  - intros e a. pose proof (holds_empty e a). rewrite lookup_empty. set_solver.
  - intros e' l v' acc Hnone IH e a. rewrite holds_foldl_insert, IH.
    destruct (decide (e = e')) as [->|Hne].
    + rewrite lookup_insert_eq, Hnone. set_solver.
    + rewrite lookup_insert_ne by done. naive_solver.
Qed.

Lemma no_empty_insert_aspect m e a : no_empty m → no_empty (insert_aspect m e a).
Proof.
  intros Hm e'. unfold insert_aspect. destruct (decide (e' = e)) as [->|].
  - rewrite lookup_insert_eq. intros [=]. set_solver.
  - rewrite lookup_insert_ne by done. apply Hm.
Qed.

Lemma no_empty_from_vec_map v : no_empty (from_vec_map v).
Proof.
  unfold from_vec_map. apply (map_fold_weak_ind (λ acc _, no_empty acc)).
  - intros e. by rewrite lookup_empty.
  - intros e l v' acc _ Hacc. revert acc Hacc.
    induction l as [|x l IH]; intros acc Hacc; simpl; auto using no_empty_insert_aspect.
Qed.

(** A map without empty sets is determined by what it holds. *)
Lemma no_empty_lookup m e :
  no_empty m → m !! e = if decide (default ∅ (m !! e) = ∅) then None else Some (default ∅ (m !! e)).
Proof.
  intros Hm. specialize (Hm e). destruct (m !! e) as [s|]; simpl; case_decide; congruence.
Qed.

(** The map of lists that is sent over the network carries the same
    aspects: converting an aspect map to lists and back gives a map that holds
    the same aspects, and that is the same map up to the entries without any
    aspect, which are dropped. *)
Theorem vec_map_round_trip m :
  aspect_equiv (from_vec_map (to_vec_map m)) m ∧
  ∀ e, from_vec_map (to_vec_map m) !! e =
         if decide (default ∅ (m !! e) = ∅) then None else m !! e.
Proof.
  assert (aspect_equiv (from_vec_map (to_vec_map m)) m) as Heq.
  { intros e a. rewrite holds_from_vec_map. unfold to_vec_map, holds. rewrite lookup_fmap.
    destruct (m !! e) as [s|]; simpl; [apply elem_of_elements|set_solver]. }
  split; [done|]. intros e. rewrite no_empty_lookup by apply no_empty_from_vec_map.
  assert (default ∅ (from_vec_map (to_vec_map m) !! e) = default ∅ (m !! e)) as ->.
  { apply set_eq. intros a. apply (Heq e a). }
  case_decide; [done|]. by destruct (m !! e).
Qed.

Section aspect_theorems.
Context `{Addressing}.

(** An aspect that was added is contained, additions make nothing else
    appear or disappear, and both operations panic exactly on an aspect that has
    no entry address (an update or deletion without a link). *)
Theorem add_contains m aspect :
  match AspectMap_add m aspect with
  | Ret m' =>
      AspectMap_contains m' aspect = Ret true ∧
      (∀ e a, holds m' e a ↔
         (EntryAspect_entry_address aspect = Ok e ∧ a = EntryAspect_address aspect) ∨ holds m e a) ∧
      (∀ aspect', AspectMap_contains m aspect' = Ret true → AspectMap_contains m' aspect' = Ret true)
  | _ => AspectMap_contains m aspect = Panic ∧
         (∃ h, aspect = Aspect_Deletion h ∨ ∃ e, aspect = Aspect_Update e h)
  end.
Proof.
  unfold AspectMap_add, AspectMap_contains.
  destruct (EntryAspect_entry_address aspect) as [e0|err] eqn:He.
  - assert (Hc : ∀ (m : AspectMap) e a,
      match m !! e with Some s => bool_decide (a ∈ s) | None => false end = true ↔ holds m e a).
    { intros m' e a. unfold holds. destruct (m' !! e); simpl; [apply bool_decide_eq_true|set_solver]. }
    split_and!.
    + f_equal. apply Hc. rewrite holds_insert_aspect. by left.
    + intros e a. rewrite holds_insert_aspect. naive_solver.
    + intros aspect'. destruct (EntryAspect_entry_address aspect') as [e'|]; [|done].
      intros [= Hin]. f_equal. apply Hc. rewrite holds_insert_aspect. right. by apply Hc.
  - split; [done|]. destruct aspect; simpl in He; eauto; done.
Qed.

End aspect_theorems.
