(* ===== verification/DhtStore.v ===== *)
(** * The DHT state slice

    Models [src/crates/core/src/dht/dht_store.rs]: the aspects an agent holds
    for the network, the results of attempts to hold one, the queue of pending
    validations and those in process, and the queries of the metadata store.

    The content and metadata stores are shared by every clone of the state
    (they sit behind [Arc<RwLock<..>>]); they form the [World] that operations
    thread through, also when the store value they computed is thrown away.
    Fallible operations on the world live in the state and error monad [M].

    The theorems of this file are about the choice of the next pending
    validation: it is queued, free of queued dependencies and its delay has
    elapsed; one exists whenever the dependencies among the queued entries are
    acyclic; validations that depend on each other in a cycle are never
    chosen. *)

From S2P Require Import Prelude Errors CoreTypes Storage Action ContentStore AspectMap.

(** ** The shared stores and operations on them *)

Section world.
Context `{Storage} `{Addressing}.

Record World : Type := { w_cas : Cas; w_eav : Eav }.

(** A fallible computation over the stores; what it wrote before an error
    stays written. *)
Definition M (A : Type) : Type := World → Result HolochainError A * World.

#[export] Instance M_ret : MRet M := λ _ x w, (Ok x, w).
#[export] Instance M_bind : MBind M := λ _ _ f m w,
  match m w with
  | (Ok x, w) => f x w
  | (Err e, w) => (Err e, w)
  end.

Definition lift {A} (r : Result HolochainError A) : M A := λ w, (r, w).
Definition lift_p {A} (r : Result PersistenceError A) : M A :=
  lift (map_err HolochainError_from_persistence r).
Definition m_map_err {A} (f : HolochainError → HolochainError) (m : M A) : M A := λ w,
  let '(r, w) := m w in (map_err f r, w).

Definition m_add_entry (entry : Entry) : M () := λ w,
  let '(r, cas) := add_entry (w_cas w) entry in (r, {| w_cas := cas; w_eav := w_eav w |}).
Definition m_add_header (header : ChainHeader) : M () := λ w,
  let '(r, cas) := add_header (w_cas w) header in (r, {| w_cas := cas; w_eav := w_eav w |}).
Definition m_get (address : Address) : M (option Entry) := λ w, (get (w_cas w) address, w).
Definition m_contains (address : Address) : M bool := λ w, (contains (w_cas w) address, w).

(** [DhtStore::fetch_eavi] and [DhtStore::add_eavi]. *)
Definition fetch_eavi (query : EaviQuery) : M (list EntityAttributeValueIndex) := λ w,
  (map_err HolochainError_from_persistence (eav_fetch (w_eav w) query), w).
Definition add_eavi (eavi : EntityAttributeValueIndex) :
    M (option EntityAttributeValueIndex) := λ w,
  let '(r, eav) := eav_add (w_eav w) eavi in
  (map_err HolochainError_from_persistence r, {| w_cas := w_cas w; w_eav := eav |}).

(** [crud_status::create_crud_status_eav] and [create_crud_link_eav]. *)
Definition create_crud_status_eav (now : SystemTime) (address : Address) (status : CrudStatus) :
    Result PersistenceError EntityAttributeValueIndex :=
  eavi_new address Attribute_CrudStatus (CrudStatus_to_string status) now.
Definition create_crud_link_eav (now : SystemTime) (from to : Address) :
    Result PersistenceError EntityAttributeValueIndex :=
  eavi_new from Attribute_CrudLink to now.

End world.

(** ** What successful operations leave in the stores *)

Section world_laws.
Context `{StorageLaws} `{Addressing}.

Lemma m_bind_ok {A B} (m : M A) (f : A → M B) w y w' :
  (m ≫= f) w = (Ok y, w') → ∃ x w1, m w = (Ok x, w1) ∧ f x w1 = (Ok y, w').
Proof.
  unfold mbind, M_bind. destruct (m w) as [[x|e] w1]; [eauto|done].
Qed.

Lemma m_map_err_ok {A} f (m : M A) w x w' : m_map_err f m w = (Ok x, w') → m w = (Ok x, w').
Proof. unfold m_map_err. destruct (m w) as [[]]; simpl; congruence. Qed.

Lemma lift_p_ok {A} (r : Result PersistenceError A) w x w' :
  lift_p r w = (Ok x, w') → r = Ok x ∧ w' = w.
Proof. unfold lift_p, lift. destruct r; simpl; intros; by simplify_eq. Qed.

(** A metadata record is stored. *)
Definition has_record (w : World) (entity : Address) (attr : Attribute) (value : Address) : Prop :=
  ∃ i, {| eavi_entity := entity; eavi_attribute := attr; eavi_value := value; eavi_index := i |}
         ∈ eav_records (w_eav w).

(** Metadata is append only. *)
Definition eav_mono (w w' : World) : Prop :=
  ∀ x, x ∈ eav_records (w_eav w) → x ∈ eav_records (w_eav w').

#[export] Instance eav_mono_preorder : PreOrder eav_mono.
Proof. split; [by intros w x|]. intros w1 w2 w3 H12 H23 x Hx. by apply H23, H12. Qed.

Lemma has_record_mono w w' e a v : eav_mono w w' → has_record w e a v → has_record w' e a v.
Proof. intros Hm [i Hi]. exists i. by apply Hm. Qed.

Lemma add_eavi_eq eavi w r w' :
  add_eavi eavi w = (r, w') →
  w_cas w' = w_cas w ∧ eav_mono w w' ∧
  (∀ x, r = Ok x → has_record w' (eavi_entity eavi) (eavi_attribute eavi) (eavi_value eavi)).
Proof.
  unfold add_eavi. pose proof (eav_add_records (w_eav w) eavi) as Ha.
  pose proof (eav_add_failed (w_eav w) eavi) as Hf.
  destruct (eav_add (w_eav w) eavi) as [[o|e] eav]; simpl in *; intros; simplify_eq/=.
  - destruct (Ha eq_refl) as [i Hi]. split_and!; [done|..].
    + intros x Hx. simpl. rewrite Hi. set_solver.
    + intros x _. exists i. simpl. rewrite Hi. set_solver.
  - rewrite (Hf e eq_refl). split_and!; [done|by intros x|done].
Qed.

(** The record made by [eavi_new] and added. *)
Lemma add_new_record ent att val i eavi w x w' :
  eavi_new ent att val i = Ok eavi → add_eavi eavi w = (Ok x, w') →
  w_cas w' = w_cas w ∧ eav_mono w w' ∧ has_record w' ent att val.
Proof.
  intros Hn Ha. apply eavi_new_spec in Hn as (<- & <- & <-).
  destruct (add_eavi_eq _ _ _ _ Ha) as (? & ? & Hr). eauto.
Qed.

End world_laws.

#[export] Hint Resolve has_record_mono : hc.

(** ** The state slice *)

Record DhtStore : Type := {
  holding_map : AspectMap;
  holding_attempt_results : gmap (N * N) (Result HolochainError ());
  queued_holding_workflows : list PendingValidationWithTimeout;
  in_process_holding_workflows : list PendingValidationWithTimeout;
}.

Record DhtStoreSnapshot : Type := {
  snapshot_holding_map : AspectMap;
  snapshot_queued : list PendingValidationWithTimeout;
  snapshot_in_process : list PendingValidationWithTimeout;
}.

Definition DhtStore_new : DhtStore :=
  {| holding_map := ∅; holding_attempt_results := ∅;
     queued_holding_workflows := []; in_process_holding_workflows := [] |}.

(** [From<&StateWrapper> for DhtStoreSnapshot]. *)
Definition DhtStoreSnapshot_from (store : DhtStore) : DhtStoreSnapshot :=
  {| snapshot_holding_map := holding_map store;
     snapshot_queued := queued_holding_workflows store;
     snapshot_in_process := in_process_holding_workflows store |}.

(** [instance.rs]: the bounds of the retry delay. *)
Definition RETRY_VALIDATION_DURATION_MIN : Duration := millis 15000.
Definition RETRY_VALIDATION_DURATION_MAX : Duration := millis (60 * 60 * 1000).

Definition new_from_snapshot (now : SystemTime) (snapshot : DhtStoreSnapshot) : DhtStore :=
  {| holding_map := snapshot_holding_map snapshot;
     holding_attempt_results := ∅;
     queued_holding_workflows :=
       (λ item, {| pending := pending item;
                   timeout := Some {| time_of_dispatch := now;
                                      delay := RETRY_VALIDATION_DURATION_MIN |} |}) <$>
       (snapshot_in_process snapshot ++ snapshot_queued snapshot);
     in_process_holding_workflows := [] |}.

Definition set_queues (store : DhtStore) (queued in_process : list PendingValidationWithTimeout) :
    DhtStore :=
  {| holding_map := holding_map store;
     holding_attempt_results := holding_attempt_results store;
     queued_holding_workflows := queued; in_process_holding_workflows := in_process |}.

Definition mark_hold_aspect_complete (store : DhtStore) (id : HoldAspectAttemptId)
    (result : Result HolochainError ()) : DhtStore :=
  {| holding_map := holding_map store;
     holding_attempt_results := <[id := result]> (holding_attempt_results store);
     queued_holding_workflows := queued_holding_workflows store;
     in_process_holding_workflows := in_process_holding_workflows store |}.

(** [Iterator::position] followed by [VecDeque::remove]: take out the first
    element that satisfies [p]. *)
Fixpoint remove_first {A} (p : A → bool) (l : list A) : option (A * list A) :=
  match l with
  | [] => None
  | x :: l => if p x then Some (x, l)
              else '(y, l') ← remove_first p l; Some (y, x :: l')
  end.

Section store.
Context `{Storage} `{Addressing}.

Definition mark_aspect_as_held (store : DhtStore) (aspect : EntryAspect) : Outcome DhtStore :=
  m ← AspectMap_add (holding_map store) aspect;
  Ret {| holding_map := m;
         holding_attempt_results := holding_attempt_results store;
         queued_holding_workflows := queued_holding_workflows store;
         in_process_holding_workflows := in_process_holding_workflows store |}.

Definition has_exact_queued_holding_workflow (store : DhtStore) (p : PendingValidation) : bool :=
  existsb (λ c, PendingValidation_eq (pending c) p) (queued_holding_workflows store).

Definition has_exact_in_process_holding_workflow (store : DhtStore) (p : PendingValidation) : bool :=
  existsb (λ c, PendingValidation_eq (pending c) p) (in_process_holding_workflows store).

(** The same header and workflow. *)
Definition same_workflow (p : PendingValidation) (c : PendingValidationWithTimeout) : bool :=
  bool_decide (ewh_header (entry_with_header (pending c)) = ewh_header (entry_with_header p)) &&
  bool_decide (workflow (pending c) = workflow p).

Definition has_same_queued_holding_worfkow (store : DhtStore) (p : PendingValidation) : bool :=
  existsb (same_workflow p) (queued_holding_workflows store).

Definition has_same_in_process_holding_worfkow (store : DhtStore) (p : PendingValidation) : bool :=
  existsb (same_workflow p) (in_process_holding_workflows store).

Definition update_queued_holding_workflow (now : SystemTime) (store : DhtStore)
    (state : HoldingWorkflowQueueing) (item : PendingValidation) : DhtStore :=
  let queued := queued_holding_workflows store in
  let in_process := in_process_holding_workflows store in
  let is_item c := PendingValidation_eq (pending c) item in
  match state with
  | Waiting d =>
      match remove_first is_item in_process with
      | None => store
      | Some (p, in_process) =>
          set_queues store
            (queued ++ [{| pending := pending p;
                           timeout := Some {| time_of_dispatch := now; delay := d |} |}])
            in_process
      end
  | Processing =>
      match remove_first is_item queued with
      | None => store
      | Some (p, queued) => set_queues store queued (in_process ++ [p])
      end
  | Done =>
      match remove_first is_item in_process with
      | None => store
      | Some (_, in_process) => set_queues store queued in_process
      end
  end.

Definition pending_address (c : PendingValidationWithTimeout) : Address :=
  Entry_address (ewh_entry (entry_with_header (pending c))).

(** [free_pending_filter]: none of the dependencies is itself queued. *)
Definition free_pending_filter (queue : list PendingValidationWithTimeout)
    (p : PendingValidationWithTimeout) : bool :=
  let unique_pending : gset string := list_to_set (pending_address <$> queue) in
  forallb (λ dep_addr, negb (bool_decide (dep_addr ∈ unique_pending))) (dependencies (pending p)).

(** The test of [skip_while]: the delay has not elapsed yet. *)
Definition still_delayed (now : SystemTime) (p : PendingValidationWithTimeout) : bool :=
  match timeout p with
  | Some t =>
      match elapsed now (time_of_dispatch t) with
      | Some time_elapsed => Z.ltb time_elapsed (delay t)
      | None => false
      end
  | None => false
  end.

Fixpoint skip_while {A} (p : A → bool) (l : list A) : list A :=
  match l with
  | [] => []
  | x :: l' => if p x then skip_while p l' else l
  end.

Definition next_queued_holding_workflow (now : SystemTime) (store : DhtStore) :
    option (PendingValidation * option Duration) :=
  let queue := queued_holding_workflows store in
  p ← head (skip_while (still_delayed now) (filter (λ p, free_pending_filter queue p) queue));
  Some (pending p, delay <$> timeout p).

(** [RemoveQueuedHoldingWorkflowFuture::poll] and
    [HoldAspectFuture::poll] on the current state: is the future ready? *)
Definition remove_queued_ready (state : HoldingWorkflowQueueing) (item : PendingValidation)
    (store : DhtStore) : bool :=
  match state with
  | Processing =>
      negb (has_exact_queued_holding_workflow store item ||
            negb (has_exact_in_process_holding_workflow store item))
  | Waiting _ =>
      negb (negb (has_exact_queued_holding_workflow store item) ||
            has_exact_in_process_holding_workflow store item)
  | Done => negb (has_exact_in_process_holding_workflow store item)
  end.

Definition hold_aspec_request_complete (store : DhtStore) (id : HoldAspectAttemptId) :
    option (Result HolochainError ()) :=
  holding_attempt_results store !! id.

(** [DhtStore::add_header_for_entry]. *)
Definition add_header_for_entry (now : SystemTime) (entry : Entry) (header : ChainHeader) : M () :=
  eavi ← lift_p (eavi_new (Entry_address entry) Attribute_EntryHeader
                   (ChainHeader_address header) now);
  _ ← m_add_header header;
  _ ← add_eavi eavi;
  mret ().

(** ** Queries of the metadata *)

(** Upper case of a tag ([str::to_uppercase], Unicode tables). *)
Variable to_uppercase : string → string.

Definition create_get_links_eavi_query (address : Address) (link_type tag : option string) :
    EaviQuery :=
  {| entity_filter := λ e, String.eqb e address;
     attribute_filter := λ attr,
       match attr with
       | Attribute_LinkTag query_link_type query_tag
       | Attribute_RemovedLink _ query_link_type query_tag =>
           match link_type with Some t => String.eqb t query_link_type | None => true end &&
           match tag with
           | Some g => String.eqb (to_uppercase g) (to_uppercase query_tag)
           | None => true
           end
       | _ => false
       end;
     value_filter := λ _, true;
     index_filter := LatestByAttribute;
     tombstone_filter :=
       Some (λ attr, match attr with Attribute_RemovedLink _ _ _ => true | _ => false end) |}.

(** [usize] multiplication. *)
Definition usize_mul (a b : nat) : nat := N.to_nat ((N.of_nat a * N.of_nat b) mod 2 ^ 64)%N.

Definition paginate (pagination : option Pagination) (l : list EntityAttributeValueIndex) :
    list EntityAttributeValueIndex :=
  match pagination with
  | Some (Pagination_Time from_time limit) =>
      take limit (skip_while (λ eavi, Z.leb (eavi_index eavi) (timestamp_nanos from_time)) l)
  | Some (Pagination_Size page_number page_size) =>
      take page_size (drop (usize_mul page_size page_number) l)
  | None => l
  end.

Definition link_status (s : EntityAttributeValueIndex) : CrudStatus :=
  match eavi_attribute s with Attribute_LinkTag _ _ => Live | _ => Deleted end.

Definition crud_matches (crud_filter : option CrudStatus) (status : CrudStatus) : bool :=
  match crud_filter with Some crud => bool_decide (crud = status) | None => true end.

Definition get_links (address : Address) (link_type tag : option string)
    (crud_filter : option CrudStatus) (configuration : GetLinksQueryConfiguration) :
    M (list (EntityAttributeValueIndex * CrudStatus)) :=
  filtered ← fetch_eavi (create_get_links_eavi_query address link_type tag);
  let ordered :=
    match default Descending (sort_order configuration) with
    | Ascending => filtered
    | Descending => reverse filtered
    end in
  mret (filter (λ link_crud, crud_matches crud_filter link_crud.2)
          ((λ s, (s, link_status s)) <$> paginate (pagination configuration) ordered)).

Definition get_all_metas (address : Address) : M (list EntityAttributeValueIndex) :=
  fetch_eavi
    {| entity_filter := λ e, String.eqb e address;
       attribute_filter := λ attr,
         match attr with
         | Attribute_LinkTag _ _ | Attribute_RemovedLink _ _ _ | Attribute_CrudLink
         | Attribute_CrudStatus => true
         | _ => false
         end;
       value_filter := λ _, true;
       index_filter := IndexRange (Some 0%Z) (Some (2 ^ 63 - 1)%Z);
       tombstone_filter := None |}.

(** The query for the value of one attribute of an entity. *)
Definition eavi_query_of (entity : Address) (attribute : Attribute) : EaviQuery :=
  {| entity_filter := λ e, String.eqb e entity;
     attribute_filter := λ attr, bool_decide (attr = attribute);
     value_filter := λ _, true;
     index_filter := LatestByAttribute;
     tombstone_filter := None |}.

(** Collect results, stopping at the first error. *)
Fixpoint m_collect {A} (l : list (M A)) : M (list A) :=
  match l with
  | [] => mret []
  | m :: l => x ← m; xs ← m_collect l; mret (x :: xs)
  end.

Definition entry_as_header (entry : Entry) : Result HolochainError ChainHeader :=
  match entry with
  | Entry_ChainHeader chain_header => Ok chain_header
  | _ => Err (HolochainError_ErrorGeneric "Unexpected non-chain_header entry")
  end.

Definition get_headers (entry_address : Address) : M (list ChainHeader) :=
  eavis ← fetch_eavi (eavi_query_of entry_address Attribute_EntryHeader);
  entries ← m_collect (m_get <$> (eavi_value <$> eavis));
  m_collect (lift <$> (entry_as_header <$> omap id entries)).

End store.

(** ** Choosing the next pending validation *)

Section next.
Context `{Storage} `{Addressing}.

Lemma skip_while_head {A} (p : A → bool) (l : list A) x :
  head (skip_while p l) = Some x → x ∈ l ∧ p x = false.
Proof.
  induction l as [|y l IH]; simpl; [done|]. destruct (p y) eqn:Hy.
  - intros Hx. destruct (IH Hx). set_solver.
  - intros [= ->]. set_solver.
Qed.

Lemma skip_while_nil {A} (p : A → bool) (l : list A) :
  head (skip_while p l) = None ↔ ∀ x, x ∈ l → p x = true.
Proof.
  induction l as [|y l IH]; simpl; [set_solver|]. destruct (p y) eqn:Hy.
  - rewrite IH. set_solver.
  - split; [done|]. intros Hx. specialize (Hx y). rewrite Hx in Hy by set_solver. done.
Qed.

Lemma free_pending_filter_spec queue p :
  free_pending_filter queue p = true ↔
  ∀ q, q ∈ queue → pending_address q ∉ dependencies (pending p).
Proof.
  unfold free_pending_filter. rewrite forallb_forall. split.
  - intros Hf q Hq Hd. apply list_elem_of_In in Hd. apply Hf in Hd.
    apply negb_true_iff, bool_decide_eq_false in Hd. apply Hd.
    apply elem_of_list_to_set, list_elem_of_fmap. eauto.
  - intros Hf d Hd%list_elem_of_In. apply negb_true_iff, bool_decide_eq_false.
    intros [q [-> Hq]]%elem_of_list_to_set%list_elem_of_fmap. by apply (Hf q).
Qed.

(** The dependencies among the queued entries are acyclic: they decrease a
    rank of addresses. *)
Definition acyclic_queue (queue : list PendingValidationWithTimeout) : Prop :=
  ∃ rank : Address → nat, ∀ p q,
    p ∈ queue → q ∈ queue → pending_address q ∈ dependencies (pending p) →
    rank (pending_address q) < rank (pending_address p).

Lemma list_minimum {A} (f : A → nat) (l : list A) :
  l ≠ [] → ∃ x, x ∈ l ∧ ∀ y, y ∈ l → f x ≤ f y.
Proof.
  induction l as [|x l IH]; [done|]. intros _. destruct l as [|y l].
  - exists x. set_solver.
  - destruct IH as (m & Hm & Hmin); [done|].
    destruct (decide (f x ≤ f m)) as [Hle|Hgt].
    + exists x. split; [set_solver|]. intros z [->|Hz]%elem_of_cons; [done|].
      specialize (Hmin z Hz). lia.
    + exists m. split; [set_solver|]. intros z [->|Hz]%elem_of_cons; [lia|auto].
Qed.

Lemma acyclic_free queue :
  queue ≠ [] → acyclic_queue queue → ∃ p, p ∈ queue ∧ free_pending_filter queue p = true.
Proof.
  intros Hne [rank Hr].
  destruct (list_minimum (λ p, rank (pending_address p)) queue Hne) as (p & Hp & Hmin).
  exists p. split; [done|]. apply free_pending_filter_spec. intros q Hq Hd.
  specialize (Hmin q Hq). specialize (Hr p q Hp Hq Hd). lia.
Qed.

(** The next pending validation.  What [next_queued_holding_workflow]
    returns is queued, has no dependency that is itself queued, and its delay,
    if it has one, has elapsed; it returns nothing only if no queued validation
    is such.  Hence the queue makes progress: if it is not empty, the
    dependencies among its entries are acyclic and no delay is running, there is
    a next validation. *)
Theorem next_queued_spec now store :
  let queue := queued_holding_workflows store in
  let eligible c := c ∈ queue ∧ still_delayed now c = false ∧
                    ∀ q, q ∈ queue → pending_address q ∉ dependencies (pending c) in
  match next_queued_holding_workflow now store with
  | Some (p, d) => ∃ c, eligible c ∧ p = pending c ∧ d = delay <$> timeout c
  | None => ∀ c, ¬ eligible c
  end ∧
  (queue ≠ [] → acyclic_queue queue → (∀ c, c ∈ queue → still_delayed now c = false) →
   next_queued_holding_workflow now store ≠ None).
Proof.
  intros queue eligible. unfold next_queued_holding_workflow. fold queue.
  destruct (head (skip_while (still_delayed now) _)) as [c|] eqn:Hh; simpl.
  - split; [|done]. exists c. apply skip_while_head in Hh as [Hc Hd].
    apply list_elem_of_filter in Hc as [Hf Hc]. apply Is_true_true in Hf.
    rewrite free_pending_filter_spec in Hf. by repeat split.
  - rewrite skip_while_nil in Hh. split.
    + intros c (Hc & Hd & Hf). rewrite Hh in Hd; [done|].
      apply list_elem_of_filter. split; [|done]. by apply Is_true_true, free_pending_filter_spec.
    + intros Hne Hac Hnd _. destruct (acyclic_free queue Hne Hac) as (c & Hc & Hf).
      specialize (Hnd c Hc). rewrite Hh in Hnd; [done|].
      apply list_elem_of_filter. split; [by apply Is_true_true|done].
Qed.

(** Validations whose dependencies form a cycle starve.  If every member of
    a set of queued validations depends on the entry of a member, none of them
    is ever chosen; in particular an update of an entry to the same content
    depends on itself and is never chosen.  The set stays queued when the
    chosen validation moves to processing, so it is never validated. *)
Theorem dependency_cycle_starves now store (C : list PendingValidationWithTimeout) p d :
  C ⊆ queued_holding_workflows store →
  (∀ c, c ∈ C → ∃ c', c' ∈ C ∧ pending_address c' ∈ dependencies (pending c)) →
  next_queued_holding_workflow now store = Some (p, d) →
  (∀ c, c ∈ C → p ≠ pending c) ∧
  ∃ chosen rest, queued_holding_workflows store ≡ₚ (chosen :: rest) ∧ pending chosen = p ∧
                 (chosen ∉ C) ∧ (C ⊆ rest).
Proof.
  intros HC Hcyc Hn. unfold next_queued_holding_workflow in Hn.
  destruct (head (skip_while (still_delayed now) _)) as [c0|] eqn:Hh; simplify_eq/=.
  apply skip_while_head in Hh as [Hc _]. apply list_elem_of_filter in Hc as [Hf Hc].
  apply Is_true_true in Hf. rewrite free_pending_filter_spec in Hf.
  assert (Hnot : ∀ c, c ∈ C → pending c0 ≠ pending c).
  { intros c HcC Heq. destruct (Hcyc c HcC) as (c' & Hc' & Hd). apply (Hf c'); [by apply HC|].
    by rewrite Heq. }
  split; [done|]. apply elem_of_Permutation in Hc as [rest Hperm].
  exists c0, rest. split_and!; try done.
  - intros Hin. by apply (Hnot c0).
  - intros c HcC. specialize (HC c HcC). rewrite Hperm in HC.
    apply elem_of_cons in HC as [->|]; [by destruct (Hnot c0)|done].
Qed.

End next.
