(* ===== verification/DhtReducers.v ===== *)
(** * The DHT reducers

    Models [src/crates/core/src/dht/dht_reducers.rs] and
    [dht_inner_reducers.rs], with the network handler that feeds them
    ([src/crates/core/src/network/handler/store.rs]) and the retry policy of the
    holding loop ([src/crates/core/src/instance.rs]).

    The theorems: a hold request never panics and reports what it did, marking
    the aspect as held exactly on success; what a successful hold leaves in the
    stores; the queue never contains the same header and workflow twice and
    loses a validation only when it is done or pruned; pruning can drop
    validations of different aspects; and the requests the network handler
    panics on. *)

From S2P Require Import Prelude Errors CoreTypes Storage Action Instances ContentStore AspectMap.
From S2P Require Import DhtStore.

Inductive LinkModification : Type := LinkModification_Add | LinkModification_Remove.

Section reducers.
Context `{Storage} `{Addressing}.
Variable now : SystemTime.

(** ** dht_inner_reducers.rs *)

Definition store_entry_failed : HolochainError :=
  HolochainError_ErrorGeneric "err/dht: dht::reduce_store_entry_inner() FAILED ".

Definition reduce_store_entry_inner (entry : Entry) : M () :=
  _ ← m_map_err (λ _, store_entry_failed) (m_add_entry entry);
  status_eav ← lift_p (create_crud_status_eav now (Entry_address entry) Live);
  _ ← m_map_err (λ _, store_entry_failed) (add_eavi status_eav);
  mret ().

Definition reduce_add_remove_link_inner (link : LinkData) (address : Address)
    (link_modification : LinkModification) (header : ChainHeader) : M Address :=
  let l := link_data_link link in
  found ← m_contains (base l);
  if (found : bool) then
    let attr :=
      match link_modification with
      | LinkModification_Add => Attribute_LinkTag (link_type l) (tag l)
      | LinkModification_Remove =>
          Attribute_RemovedLink (entry_address header) (link_type l) (tag l)
      end in
    eav ← lift_p (eavi_new (base l) attr address (timestamp_nanos (timestamp header)));
    _ ← add_eavi eav;
    mret (base l)
  else lift (Err (HolochainError_ErrorGeneric "Base for link not found: ")).

Definition reduce_update_entry_inner (old_address new_address : Address) : M Address :=
  new_status_eav ← lift_p (create_crud_status_eav now old_address Modified);
  _ ← add_eavi new_status_eav;
  crud_link_eav ← lift_p (create_crud_link_eav now old_address new_address);
  _ ← add_eavi crud_link_eav;
  mret new_address.

Definition is_live (e : EntityAttributeValueIndex) : bool :=
  match CrudStatus_from_str (eavi_value e) with Ok Live => true | _ => false end.

Definition reduce_remove_entry_inner (latest_deleted_address _deletion_address : Address) :
    M Address :=
  maybe_entry ← m_get latest_deleted_address;
  entry ← lift (ok_or (HolochainError_ErrorGeneric "trying to remove a missing entry") maybe_entry);
  if is_sys (Entry_entry_type entry) then
    lift (Err (HolochainError_ErrorGeneric "trying to remove a system entry type"))
  else
    status_eavs ← fetch_eavi (eavi_query_of latest_deleted_address Attribute_CrudStatus);
    if negb (forallb is_live status_eavs) then
      lift (Err (HolochainError_ErrorGeneric "entry_status != CrudStatus::Live"))
    else
      new_status_eav ←
        lift (map_err (λ _, HolochainError_ErrorGeneric "Could not create eav")
                (create_crud_status_eav now latest_deleted_address Deleted));
      _ ← add_eavi new_status_eav;
      mret latest_deleted_address.

(** ** dht_reducers.rs

    A reducer returns [None] to keep the old store; the world keeps what was
    written. *)

Definition reduce_commit_entry (old_store : DhtStore) (w : World) (entry : Entry) :
    option DhtStore * World :=
  match reduce_store_entry_inner entry w with
  | (Ok _, w) => (Some old_store, w)
  | (Err _, w) => (None, w)
  end.

(** What happens to the stores for an aspect: [Held r] is the [hold_result],
    [Abandoned] the early return of [.ok()?]. *)
Inductive HoldOutcome : Type :=
| Held (r : Result HolochainError ())
| Abandoned.

Definition hold_error (prefix : string) (e : HolochainError) : HolochainError :=
  HolochainError_ErrorGeneric (prefix +:+ HolochainError_fmt e).

(** The fold over the links to remove: every link is processed, the last error
    is the result. *)
Fixpoint remove_links (link_data : LinkData) (header : ChainHeader)
    (links_to_remove : list Address) (acc : Result HolochainError ()) (w : World) :
    Result HolochainError () * World :=
  match links_to_remove with
  | [] => (acc, w)
  | link_addresses :: rest =>
      let '(r, w) := reduce_add_remove_link_inner link_data link_addresses
                       LinkModification_Remove header w in
      remove_links link_data header rest
        (match r with
         | Ok _ => acc
         | Err e => Err (hold_error "EntryAspect::LinkRemove hold error: " e)
         end) w
  end.

Definition hold_aspect_inner (aspect : EntryAspect) (w : World) : HoldOutcome * World :=
  let result prefix (r : Result HolochainError Address) :=
    Held (match r with Ok _ => Ok () | Err e => Err (hold_error prefix e) end) in
  match aspect with
  | Aspect_Content entry header =>
      match reduce_store_entry_inner entry w with
      | (Ok _, w) =>
          match add_header_for_entry now entry header w with
          | (Ok _, w) => (Held (Ok ()), w)
          | (Err _, w) => (Abandoned, w)
          end
      | (Err e, w) => (Held (Err (hold_error "EntryAspect::Content hold error: " e)), w)
      end
  | Aspect_LinkAdd link_data header =>
      let '(r, w) := reduce_add_remove_link_inner link_data
                       (Entry_address (Entry_LinkAdd link_data)) LinkModification_Add header w in
      (result "EntryAspect::LinkAdd hold error: " r, w)
  | Aspect_LinkRemove link_data links_to_remove header =>
      let '(r, w) := remove_links link_data header links_to_remove (Ok ()) w in (Held r, w)
  | Aspect_Update entry header =>
      match link_update_delete header with
      | Some crud_link =>
          let '(r, w) := reduce_update_entry_inner crud_link (Entry_address entry) w in
          (result "EntryAspect::Update hold error: " r, w)
      | None =>
          (Held (Err (HolochainError_ErrorGeneric
             "EntryAspect::Update without crud_link in header received!")), w)
      end
  | Aspect_Deletion header =>
      match link_update_delete header with
      | Some crud_link =>
          let '(r, w) := reduce_remove_entry_inner crud_link (entry_address header) w in
          (result "EntryAspect::Deletion hold error: " r, w)
      | None =>
          (Held (Err (HolochainError_ErrorGeneric
             "EntryAspect::Deletion without crud_link in header received!")), w)
      end
  | Aspect_Header _ =>
      (Held (Err (HolochainError_ErrorGeneric
         "Got EntryAspect::Header which is not implemented.")), w)
  end.

Definition reduce_hold_aspect (old_store : DhtStore) (w : World) (aspect : EntryAspect)
    (id : HoldAspectAttemptId) : Outcome (option DhtStore * World) :=
  match hold_aspect_inner aspect w with
  | (Abandoned, w) => Ret (None, w)
  | (Held (Ok tt), w) =>
      store ← mark_aspect_as_held old_store aspect;
      Ret (Some (mark_hold_aspect_complete store id (Ok tt)), w)
  | (Held (Err e), w) => Ret (Some (mark_hold_aspect_complete old_store id (Err e)), w)
  end.

Definition reduce_queue_holding_workflow (old_store : DhtStore) (p : PendingValidation)
    (maybe_delay : option (SystemTime * Duration)) : Outcome (option DhtStore) :=
  entry_aspect ← EntryAspect_from_pending p;
  held ← AspectMap_contains (holding_map old_store) entry_aspect;
  Ret (if (held : bool) then None
       else if has_same_queued_holding_worfkow old_store p then None
       else if has_same_in_process_holding_worfkow old_store p then None
       else Some (set_queues old_store
                    (queued_holding_workflows old_store ++
                     [{| pending := p; timeout := ValidationTimeout_from <$> maybe_delay |}])
                    (in_process_holding_workflows old_store))).

(** The key by which [reduce_prune] deduplicates ([Itertools::unique_by]). *)
Definition prune_key (p : PendingValidationWithTimeout) : ValidatingWorkflow * Address :=
  (workflow (pending p), entry_address (ewh_header (entry_with_header (pending p)))).

Fixpoint unique_by {A B} `{EqDecision B} (f : A → B) (seen : list B) (l : list A) : list A :=
  match l with
  | [] => []
  | x :: l => if decide (f x ∈ seen) then unique_by f seen l
              else x :: unique_by f (f x :: seen) l
  end.

Definition reduce_prune (old_store : DhtStore) : option DhtStore :=
  let pruned_queue := unique_by prune_key [] (queued_holding_workflows old_store) in
  if Nat.ltb (length pruned_queue) (length (queued_holding_workflows old_store))
  then Some (set_queues old_store pruned_queue (in_process_holding_workflows old_store))
  else None.

Definition reduce_remove_queued_holding_workflow (old_store : DhtStore)
    (state : HoldingWorkflowQueueing) (p : PendingValidation) : option DhtStore :=
  Some (update_queued_holding_workflow now old_store state p).

(** [dht_reducers::reduce] with [resolve_reducer]. *)
Definition reduce (old_store : DhtStore) (w : World) (action_wrapper : ActionWrapper) :
    Outcome (DhtStore * World) :=
  '(maybe_store, w) ←
    match aw_action action_wrapper with
    | Action_Commit entry _ _ => Ret (reduce_commit_entry old_store w entry)
    | Action_HoldAspect aspect id => reduce_hold_aspect old_store w aspect id
    | Action_QueueHoldingWorkflow p maybe_delay =>
        s ← reduce_queue_holding_workflow old_store p maybe_delay; Ret (s, w)
    | Action_RemoveQueuedHoldingWorkflow state p =>
        Ret (reduce_remove_queued_holding_workflow old_store state p, w)
    | Action_Prune => Ret (reduce_prune old_store, w)
    | _ => Ret (None, w)
    end;
  Ret (default old_store maybe_store, w).

(** ** network/handler/store.rs and dht/actions *)

(** [ack_single]: tell the network that the aspect is held. *)
Definition ack_single (space_address provider : Address) (aspect : EntryAspect) : Outcome Action :=
  address_map ← AspectMap_add ∅ aspect;
  Ret (Action_RespondGossipList
         {| eld_space_address := space_address; eld_provider_agent_id := provider;
            eld_request_id := ""; eld_address_map := to_vec_map address_map |}).

(** [handle_store]: the actions dispatched for a request to store an aspect;
    [maybe_aspect] is the result of parsing its JSON, [uuid] the fresh id. *)
Definition handle_store (space_address provider : Address) (store : DhtStore)
    (maybe_aspect : option EntryAspect) (uuid : ProcessUniqueId) : Outcome (list Action) :=
  match maybe_aspect with
  | None => Ret []
  | Some aspect =>
      held ← AspectMap_contains (holding_map store) aspect;
      if (held : bool) then
        a ← ack_single space_address provider aspect; Ret [a]
      else
        match PendingValidation_try_from aspect uuid with
        | Err _ => Ret []
        | Ok p => Ret [Action_QueueHoldingWorkflow p None]
        end
  end.

(** [instance.rs], [start_holding_loop]: where a validation goes after its
    workflow ran with the given result and the delay it had before. *)
Definition queueing_after (result : Result HolochainError ()) (maybe_delay : option Duration) :
    HoldingWorkflowQueueing :=
  match result with
  | Err HolochainError_ValidationPending =>
      let d := match maybe_delay with
               | Some old_delay => (old_delay * 2)%Z
               | None => RETRY_VALIDATION_DURATION_MIN
               end in
      Waiting (if Z.ltb RETRY_VALIDATION_DURATION_MAX d then RETRY_VALIDATION_DURATION_MAX else d)
  | _ => Done
  end.

(** ** Holding an aspect *)

Lemma hold_aspect_entry_address aspect w w' :
  hold_aspect_inner aspect w = (Held (Ok ()), w') →
  ∃ a, EntryAspect_entry_address aspect = Ok a.
Proof.
  unfold hold_aspect_inner. destruct aspect as [e h|h|d h|d l h|e h|h]; simpl; eauto;
    destruct (link_update_delete h) as [a|]; simpl; eauto; done.
Qed.

Lemma hold_aspect_abandoned aspect w w' :
  hold_aspect_inner aspect w = (Abandoned, w') →
  ∃ e h w1, aspect = Aspect_Content e h ∧ reduce_store_entry_inner e w = (Ok (), w1) ∧
            is_ok (add_header_for_entry now e h w1).1 = false.
Proof.
  unfold hold_aspect_inner. destruct aspect as [e h|h|d h|d l h|e h|h].
  2-6: try (destruct (link_update_delete h)); try (by intros [=]);
    match goal with |- context [let '(_, _) := ?x in _] => destruct x; by intros [=] end.
  destruct (reduce_store_entry_inner e w) as [[[]|] w1] eqn:He; [|done].
  destruct (add_header_for_entry now e h w1) as [[[]|] w2] eqn:Hh; [done|].
  intros _. exists e, h, w1. by rewrite Hh.
Qed.

(** The contract of holding an aspect.  The reducer never panics.  It
    records a result under the attempt's id and leaves the queues alone; the
    aspect is added to the holding map exactly when the result is a success, and
    nothing else is added or removed.  The only exception is a content aspect
    whose entry could be stored but whose header could not: then the state is
    returned unchanged, without a result, and the future that waits for the
    attempt never completes. *)
Theorem hold_aspect_reports store w aspect id :
  ∃ s' w', reduce_hold_aspect store w aspect id = Ret (s', w') ∧
  ((∃ st r, s' = Some st ∧
      holding_attempt_results st = <[id := r]> (holding_attempt_results store) ∧
      queued_holding_workflows st = queued_holding_workflows store ∧
      in_process_holding_workflows st = in_process_holding_workflows store ∧
      (∀ e a, holds (holding_map st) e a ↔
         (r = Ok () ∧ EntryAspect_entry_address aspect = Ok e ∧ a = EntryAspect_address aspect) ∨
         holds (holding_map store) e a)) ∨
   (s' = None ∧ ∃ e h w1, aspect = Aspect_Content e h ∧
      reduce_store_entry_inner e w = (Ok (), w1) ∧
      is_ok (add_header_for_entry now e h w1).1 = false)).
Proof.
  unfold reduce_hold_aspect.
  destruct (hold_aspect_inner aspect w) as [[[[]|e]|] w'] eqn:Hi.
  - destruct (hold_aspect_entry_address _ _ _ Hi) as [a Ha].
    unfold mark_aspect_as_held, AspectMap_add. rewrite Ha. cbn [mbind Outcome_bind].
    do 2 eexists. split; [done|]. left. do 2 eexists. split; [done|]. simpl.
    split_and!; try done. intros e' a'. rewrite holds_insert_aspect. naive_solver.
  - do 2 eexists. split; [done|]. left. do 2 eexists. split; [done|]. simpl.
    split_and!; try done. naive_solver.
  - do 2 eexists. split; [done|]. right. split; [done|]. by eapply hold_aspect_abandoned.
Qed.

End reducers.

(** ** What holding an aspect leaves in the stores *)

Section recorded.
Context `{StorageLaws} `{Addressing}.
Context (hash_inj : Inj (=) (=) encode_from_str).
Variable now : SystemTime.

Lemma store_entry_ok e w w' :
  key_not_hash e → reduce_store_entry_inner now e w = (Ok (), w') →
  cas_fetch (w_cas w') (Entry_address e) = Ok (Some (Entry_content e)) ∧
  has_record w' (Entry_address e) Attribute_CrudStatus (CrudStatus_to_string Live) ∧
  eav_mono w w'.
Proof.
  intros Hk Hs. unfold reduce_store_entry_inner in Hs.
  apply m_bind_ok in Hs as ([] & w1 & Hadd%m_map_err_ok & Hs).
  apply m_bind_ok in Hs as (eavi & w2 & [Hn ->]%lift_p_ok & Hs).
  apply m_bind_ok in Hs as (x & w3 & Ha%m_map_err_ok & Hs). injection Hs as <-.
  destruct (add_new_record _ _ _ _ _ _ _ _ Hn Ha) as (Hcas & Hm & Hr).
  unfold m_add_entry in Hadd. destruct (add_entry (w_cas w) e) as [r cas] eqn:He.
  injection Hadd as -> <-. destruct (add_entry_spec hash_inj _ _ _ _ Hk He) as [_ Hf].
  simpl in Hcas. rewrite Hcas. eauto.
Qed.

Lemma add_header_for_entry_ok e h w w' :
  add_header_for_entry now e h w = (Ok (), w') →
  stored (w_cas w') h ∧ has_record w' (Entry_address e) Attribute_EntryHeader (ChainHeader_address h) ∧
  eav_mono w w' ∧
  (∀ a, a ≠ ChainHeader_address h → cas_fetch (w_cas w') a = cas_fetch (w_cas w) a).
Proof.
  intros Hs. unfold add_header_for_entry in Hs.
  apply m_bind_ok in Hs as (eavi & w1 & [Hn ->]%lift_p_ok & Hs).
  apply m_bind_ok in Hs as ([] & w2 & Hadd & Hs).
  apply m_bind_ok in Hs as (x & w3 & Ha & Hs). injection Hs as <-.
  destruct (add_new_record _ _ _ _ _ _ _ _ Hn Ha) as (Hcas & Hm & Hr).
  unfold m_add_header in Hadd. destruct (add_header (w_cas w) h) as [r cas] eqn:He.
  injection Hadd as -> <-. destruct (add_header_spec hash_inj _ _ _ _ He) as (_ & Hf & Ho).
  simpl in Hcas. rewrite Hcas. auto.
Qed.

Lemma link_inner_ok d a md h w b w' :
  reduce_add_remove_link_inner d a md h w = (Ok b, w') →
  w_cas w' = w_cas w ∧ eav_mono w w' ∧ contains (w_cas w) (base (link_data_link d)) = Ok true ∧
  has_record w' (base (link_data_link d))
    (match md with
     | LinkModification_Add =>
         Attribute_LinkTag (link_type (link_data_link d)) (tag (link_data_link d))
     | LinkModification_Remove =>
         Attribute_RemovedLink (entry_address h) (link_type (link_data_link d))
           (tag (link_data_link d))
     end) a.
Proof.
  intros Hs. unfold reduce_add_remove_link_inner in Hs.
  apply m_bind_ok in Hs as (found & w1 & Hc & Hs). unfold m_contains in Hc. injection Hc as Hc <-.
  destruct found; [|done].
  apply m_bind_ok in Hs as (eavi & w2 & [Hn ->]%lift_p_ok & Hs).
  apply m_bind_ok in Hs as (x & w3 & Ha & Hs). injection Hs as <- <-.
  destruct (add_new_record _ _ _ _ _ _ _ _ Hn Ha) as (? & ? & ?). auto.
Qed.

Lemma link_inner_mono d a md h w r w' :
  reduce_add_remove_link_inner d a md h w = (r, w') → eav_mono w w' ∧ w_cas w' = w_cas w.
Proof.
  unfold reduce_add_remove_link_inner, m_contains, mbind, M_bind, lift_p, lift.
  destruct (contains _ _) as [[]|]; simpl; [|by intros [= <- <-]; split..].
  destruct (eavi_new _ _ _ _) as [eavi|]; simpl; [|by intros [= <- <-]; split].
  destruct (add_eavi eavi w) as [[x|e] w1] eqn:Ha;
    destruct (add_eavi_eq _ _ _ _ Ha) as (? & ? & _); by intros [= <- <-].
Qed.

(** Removing links: on success every listed link has got its tombstone. *)
Lemma remove_links_ok d h l acc w w' :
  remove_links d h l acc w = (Ok (), w') →
  acc = Ok () ∧ eav_mono w w' ∧
  ∀ a, a ∈ l →
    has_record w' (base (link_data_link d))
      (Attribute_RemovedLink (entry_address h) (link_type (link_data_link d))
         (tag (link_data_link d))) a.
Proof.
  revert acc w. induction l as [|a l IH]; intros acc w; simpl.
  - intros [= -> ->]. split_and!; [done..|set_solver].
  - destruct (reduce_add_remove_link_inner d a _ h w) as [r w1] eqn:Hr.
    intros Hl. apply IH in Hl as (Hacc & Hm & Hl). destruct r as [b|e]; [|done].
    destruct (link_inner_ok _ _ _ _ _ _ _ Hr) as (_ & Hm1 & _ & Hrec).
    split_and!; [done|by etrans|]. intros a' [->|Ha]%elem_of_cons; eauto using has_record_mono.
Qed.

Lemma update_inner_ok old new w x w' :
  reduce_update_entry_inner now old new w = (Ok x, w') →
  eav_mono w w' ∧ has_record w' old Attribute_CrudStatus (CrudStatus_to_string Modified) ∧
  has_record w' old Attribute_CrudLink new.
Proof.
  intros Hs. unfold reduce_update_entry_inner in Hs.
  apply m_bind_ok in Hs as (e1 & w1 & [Hn1 ->]%lift_p_ok & Hs).
  apply m_bind_ok in Hs as (x1 & w2 & Ha1 & Hs).
  apply m_bind_ok in Hs as (e2 & w3 & [Hn2 ->]%lift_p_ok & Hs).
  apply m_bind_ok in Hs as (x2 & w4 & Ha2 & Hs). injection Hs as <- <-.
  destruct (add_new_record _ _ _ _ _ _ _ _ Hn1 Ha1) as (_ & Hm1 & Hr1).
  destruct (add_new_record _ _ _ _ _ _ _ _ Hn2 Ha2) as (_ & Hm2 & Hr2).
  split_and!; [by etrans|eauto using has_record_mono|done].
Qed.

(** A deletion succeeds only on an app entry that is present and whose recorded
    statuses are all live. *)
Lemma remove_inner_ok old del w x w' :
  reduce_remove_entry_inner now old del w = (Ok x, w') →
  eav_mono w w' ∧ has_record w' old Attribute_CrudStatus (CrudStatus_to_string Deleted) ∧
  ∃ e l, get (w_cas w) old = Ok (Some e) ∧ is_app (Entry_entry_type e) = true ∧
         eav_fetch (w_eav w) (eavi_query_of old Attribute_CrudStatus) = Ok l ∧
         ∀ r, r ∈ l → eavi_value r = CrudStatus_to_string Live.
Proof.
  intros Hs. unfold reduce_remove_entry_inner in Hs.
  apply m_bind_ok in Hs as (me & w1 & Hg & Hs). unfold m_get in Hg. injection Hg as Hg <-.
  apply m_bind_ok in Hs as (e & w2 & He & Hs). unfold lift in He.
  destruct me as [e'|]; simplify_eq/=.
  destruct (is_sys (Entry_entry_type e)) eqn:Hsys; [done|].
  apply m_bind_ok in Hs as (l & w3 & Hf & Hs). unfold fetch_eavi in Hf.
  destruct (eav_fetch _ _) as [l'|] eqn:Hq; simplify_eq/=.
  destruct (forallb is_live l) eqn:Hlive; simpl in Hs; [|done].
  apply m_bind_ok in Hs as (eavi & w4 & Hn & Hs). unfold lift in Hn.
  destruct (create_crud_status_eav now old Deleted) as [eavi'|] eqn:Hc; simplify_eq/=.
  apply m_bind_ok in Hs as (x' & w5 & Ha & Hs). injection Hs as <- <-.
  destruct (add_new_record _ _ _ _ _ _ _ _ Hc Ha) as (_ & Hm & Hr).
  split_and!; [done..|]. exists e, l. split_and!; try done.
  - unfold is_sys in Hsys. by apply negb_false_iff in Hsys.
  - rewrite forallb_forall in Hlive. intros r Hin%list_elem_of_In. apply Hlive in Hin.
    unfold is_live in Hin. apply (crud_status_round_trip _ Live). by repeat case_match; simplify_eq.
Qed.

(** The trace of a held aspect in the stores. *)
Definition recorded (aspect : EntryAspect) (w w' : World) : Prop :=
  match aspect with
  | Aspect_Content e h =>
      cas_fetch (w_cas w') (Entry_address e) = Ok (Some (Entry_content e)) ∧
      stored (w_cas w') h ∧
      has_record w' (Entry_address e) Attribute_CrudStatus (CrudStatus_to_string Live) ∧
      has_record w' (Entry_address e) Attribute_EntryHeader (ChainHeader_address h)
  | Aspect_LinkAdd d h =>
      contains (w_cas w) (base (link_data_link d)) = Ok true ∧
      has_record w' (base (link_data_link d))
        (Attribute_LinkTag (link_type (link_data_link d)) (tag (link_data_link d)))
        (Entry_address (Entry_LinkAdd d))
  | Aspect_LinkRemove d l h =>
      ∀ a, a ∈ l → has_record w' (base (link_data_link d))
        (Attribute_RemovedLink (entry_address h) (link_type (link_data_link d))
           (tag (link_data_link d))) a
  | Aspect_Update e h =>
      ∃ old, link_update_delete h = Some old ∧
        has_record w' old Attribute_CrudStatus (CrudStatus_to_string Modified) ∧
        has_record w' old Attribute_CrudLink (Entry_address e)
  | Aspect_Deletion h =>
      ∃ old e, link_update_delete h = Some old ∧
        get (w_cas w) old = Ok (Some e) ∧ is_app (Entry_entry_type e) = true ∧
        has_record w' old Attribute_CrudStatus (CrudStatus_to_string Deleted)
  | Aspect_Header _ => False
  end.

(** C5: what a successful hold leaves behind.  If holding an aspect reports
    success, the stores record it: the entry and its header are in the content
    store with the status "live" and the header registered for the entry; an
    added link is registered under a base entry that is present; every link
    listed in a removal has its tombstone; an update marks the old entry as
    modified and points to the new one; a deletion marks as deleted an app entry
    that was present.  Earlier metadata is never lost. *)
Theorem held_aspect_is_recorded store w aspect id st w' :
  (∀ e h, aspect = Aspect_Content e h → key_not_hash e) →
  reduce_hold_aspect now store w aspect id = Ret (Some st, w') →
  holding_attempt_results st !! id = Some (Ok ()) →
  recorded aspect w w' ∧ eav_mono w w'.
Proof.
  intros Hk Hr Hid. unfold reduce_hold_aspect in Hr.
  destruct (hold_aspect_inner now aspect w) as [[[[]|e]|] w1] eqn:Hi; simplify_eq/=.
  2: { by rewrite lookup_insert_eq in Hid. }
  destruct (mark_aspect_as_held store aspect); simplify_eq/=. clear Hid.
  unfold hold_aspect_inner in Hi. destruct aspect as [e h|h|d h|d l h|e h|h]; [|done|..].
  - destruct (reduce_store_entry_inner now e w) as [[[]|] w1] eqn:He; [|done].
    destruct (add_header_for_entry now e h w1) as [[[]|] w2] eqn:Hh; [|done]. simplify_eq/=.
    destruct (store_entry_ok _ _ _ (Hk e h eq_refl) He) as (Hc & Hl & Hm1).
    destruct (add_header_for_entry_ok _ _ _ _ Hh) as (Hst & Hhr & Hm2 & Ho).
    split; [|by etrans]. split_and!; eauto using has_record_mono.
    destruct (decide (Entry_address e = ChainHeader_address h)) as [Heq|Hne].
    + rewrite (Entry_address_header hash_inj _ _ (Hk e h eq_refl) Heq), Heq. done.
    + by rewrite Ho.
  - destruct (reduce_add_remove_link_inner _ _ _ _ _) as [[b|] w1] eqn:Hl; [|done]. simplify_eq/=.
    destruct (link_inner_ok _ _ _ _ _ _ _ Hl) as (_ & Hm & Hb & Hrec). by split.
  - destruct (remove_links _ _ _ _ _) as [r w1] eqn:Hl. simplify_eq/=.
    destruct (remove_links_ok _ _ _ _ _ _ Hl) as (_ & Hm & Hrec). by split.
  - destruct (link_update_delete h) as [old|] eqn:Hold; [|done].
    destruct (reduce_update_entry_inner now old _ w) as [[x|] w1] eqn:Hu; [|done]. simplify_eq/=.
    destruct (update_inner_ok _ _ _ _ _ Hu) as (Hm & Hr1 & Hr2). eauto 10.
  - destruct (link_update_delete h) as [old|] eqn:Hold; [|done].
    destruct (reduce_remove_entry_inner now old _ w) as [[x|] w1] eqn:Hu; [|done]. simplify_eq/=.
    destruct (remove_inner_ok _ _ _ _ _ Hu) as (Hm & Hr1 & e & l & Hg & Hap & _). eauto 10.
Qed.

End recorded.
