(* ===== verification/HoldingQueue.v ===== *)
(** * The queue of pending validations

    Theorems about the life cycle of a pending validation in the DHT state
    ([src/crates/core/src/dht/dht_reducers.rs], [dht_store.rs],
    [src/crates/core/src/network/handler/store.rs] and the holding loop of
    [src/crates/core/src/instance.rs]): how a request to store an aspect enters
    the queue, that the same header and workflow is never queued twice, how a
    validation moves between the queue and the list in process, when the futures
    that watch it become ready, what pruning drops, and how retries back off. *)

From S2P Require Import Prelude Errors CoreTypes Storage Action Instances ContentStore AspectMap.
From S2P Require Import DhtStore DhtReducers.

(** What identifies a validation for [has_same_queued_holding_worfkow]. *)
Definition workflow_key (c : PendingValidationWithTimeout) : ChainHeader * ValidatingWorkflow :=
  (ewh_header (entry_with_header (pending c)), workflow (pending c)).

Definition all_pending (store : DhtStore) : list PendingValidationWithTimeout :=
  queued_holding_workflows store ++ in_process_holding_workflows store.

Definition pending_unique (store : DhtStore) : Prop := NoDup (workflow_key <$> all_pending store).

(** ** Lists *)

Lemma remove_first_perm {A} (p : A → bool) l y l' :
  remove_first p l = Some (y, l') → p y = true ∧ l ≡ₚ y :: l'.
Proof.
  revert l'. induction l as [|x l IH]; intros l' Hr; simpl in Hr; [done|].
  destruct (p x) eqn:Hx; simplify_eq; [done|].
  destruct (remove_first p l) as [[z r]|]; simplify_eq/=.
  destruct (IH _ eq_refl) as [Hp ->]. split; [done|]. apply Permutation_swap.
Qed.

Lemma remove_first_none {A} (p : A → bool) l :
  remove_first p l = None ↔ ∀ x, x ∈ l → p x = false.
Proof.
  induction l as [|x l IH]; simpl; [set_solver|]. destruct (p x) eqn:Hx.
  - split; [done|]. intros Hall. specialize (Hall x). rewrite Hall in Hx; [done|set_solver].
  - destruct (remove_first p l) as [[z r]|]; simpl.
    + split; [done|]. intros Hall. assert (Some (z, r) = None) by (apply IH; set_solver). done.
    + split; [|done]. intros _ y [->|Hy]%elem_of_cons; [done|]. by apply IH.
Qed.

Section unique_by.
Context {A B : Type} `{EqDecision B} (f : A → B).

Lemma unique_by_sublist seen l : unique_by f seen l `sublist_of` l.
Proof.
  revert seen. induction l as [|x l IH]; intros seen; simpl; [done|].
  case_decide; [by apply sublist_cons|by apply sublist_skip].
Qed.

Lemma unique_by_spec seen l :
  NoDup (f <$> unique_by f seen l) ∧
  ∀ b, b ∈ f <$> unique_by f seen l ↔ b ∈ f <$> l ∧ b ∉ seen.
Proof.
  revert seen. induction l as [|x l IH]; intros seen; simpl.
  - split; [apply NoDup_nil_2|set_solver].
  - case_decide as Hx.
    + destruct (IH seen) as [Hn Hi]. split; [done|]. intros b. rewrite Hi. set_solver.
    + destruct (IH (f x :: seen)) as [Hn Hi]. split.
      * rewrite fmap_cons. apply NoDup_cons_2; [|done]. rewrite Hi. set_solver.
      * intros b. rewrite !fmap_cons, !elem_of_cons, Hi.
        destruct (decide (b = f x)) as [->|]; set_solver.
Qed.

End unique_by.

(** ** Uniqueness of queued validations *)

Section queue.
Context `{Storage} `{Addressing}.

Lemma same_workflow_key p c :
  same_workflow p c = true ↔
  workflow_key c = (ewh_header (entry_with_header p), workflow p).
Proof.
  unfold same_workflow, workflow_key. rewrite andb_true_iff, !bool_decide_eq_true. split.
  - by intros [-> ->].
  - by intros [= -> ->].
Qed.

Lemma PendingValidation_eq_key c p :
  PendingValidation_eq (pending c) p = true →
  workflow_key c = (ewh_header (entry_with_header p), workflow p).
Proof.
  unfold PendingValidation_eq, EntryWithHeader_eq, workflow_key.
  rewrite !andb_true_iff, !bool_decide_eq_true. by intros [[[[_ ->] _] ->] _].
Qed.

Lemma PendingValidation_eq_refl p : PendingValidation_eq p p = true.
Proof.
  unfold PendingValidation_eq, EntryWithHeader_eq, Entry_eq.
  by rewrite !andb_true_iff, !bool_decide_eq_true.
Qed.

Lemma queue_unique store p d s' :
  pending_unique store → reduce_queue_holding_workflow store p d = Ret (Some s') →
  pending_unique s' ∧
  all_pending s' ≡ₚ {| pending := p; timeout := ValidationTimeout_from <$> d |} :: all_pending store.
Proof.
  unfold reduce_queue_holding_workflow. intros Hu.
  destruct (EntryAspect_from_pending p) as [a| |]; cbn [mbind Outcome_bind]; try done.
  destruct (AspectMap_contains _ _) as [[]| |]; cbn [mbind Outcome_bind]; try done.
  destruct (has_same_queued_holding_worfkow store p) eqn:Hq; [done|].
  destruct (has_same_in_process_holding_worfkow store p) eqn:Hi; [done|]. intros [= <-].
  unfold pending_unique, all_pending in *; simpl.
  set (c := {| pending := p; timeout := _ |}).
  assert (Hp : (queued_holding_workflows store ++ [c]) ++ in_process_holding_workflows store
               ≡ₚ c :: all_pending store).
  { rewrite <- app_assoc. symmetry. apply Permutation_middle. }
  split; [|done]. rewrite Hp, fmap_cons. apply NoDup_cons_2; [|done].
  intros (c' & Hc' & Hin)%list_elem_of_fmap.
  assert (Hs : same_workflow p c' = true) by (apply same_workflow_key; by rewrite <- Hc').
  unfold has_same_queued_holding_worfkow, has_same_in_process_holding_worfkow in *.
  apply elem_of_app in Hin as [Hin|Hin]; apply list_elem_of_In in Hin.
  - apply not_true_iff_false in Hq. apply Hq, existsb_exists. eauto.
  - apply not_true_iff_false in Hi. apply Hi, existsb_exists. eauto.
Qed.

(** What a move does to the pending validations, up to order. *)
Lemma update_keys now store state p :
  let s' := update_queued_holding_workflow now store state p in
  (workflow_key <$> all_pending s' ≡ₚ workflow_key <$> all_pending store) ∨
  (∃ c, (all_pending store ≡ₚ c :: all_pending s')).
Proof.
  unfold update_queued_holding_workflow, all_pending. destruct state as [|d|].
  - destruct (remove_first _ (queued_holding_workflows store)) as [[c q]|] eqn:Hr; [|by left].
    apply remove_first_perm in Hr as [_ Hr]. left. simpl. rewrite Hr.
    apply fmap_Permutation. rewrite app_assoc. by rewrite <- Permutation_cons_append.
  - destruct (remove_first _ (in_process_holding_workflows store)) as [[c i]|] eqn:Hr; [|by left].
    apply remove_first_perm in Hr as [_ Hr]. left. simpl. rewrite Hr, <- app_assoc, !fmap_app.
    done.
  - destruct (remove_first _ (in_process_holding_workflows store)) as [[c i]|] eqn:Hr; [|by left].
    apply remove_first_perm in Hr as [_ Hr]. right. exists c. simpl. rewrite Hr.
    by rewrite <- Permutation_middle.
Qed.

Lemma update_unique now store state p :
  pending_unique store → pending_unique (update_queued_holding_workflow now store state p).
Proof.
  unfold pending_unique. intros Hu. destruct (update_keys now store state p) as [->|[c Hc]]; [done|].
  rewrite Hc, fmap_cons in Hu. by apply NoDup_cons in Hu as [].
Qed.

Lemma prune_unique store s' :
  pending_unique store → reduce_prune store = Some s' → pending_unique s'.
Proof.
  unfold reduce_prune, pending_unique, all_pending. intros Hu.
  destruct (Nat.ltb _ _); [|done]. intros [= <-]. simpl.
  eapply sublist_NoDup; [exact Hu|]. apply fmap_sublist, sublist_app; [|done].
  apply unique_by_sublist.
Qed.

Lemma reduce_hold_aspect_pending now store w aspect id s' w' :
  reduce_hold_aspect now store w aspect id = Ret (Some s', w') → all_pending s' = all_pending store.
Proof.
  unfold reduce_hold_aspect, mark_aspect_as_held.
  destruct (hold_aspect_inner now aspect w) as [[[[]|e]|] w1]; [|by intros [= <- <-]|done].
  destruct (AspectMap_add _ _); cbn [mbind Outcome_bind]; try done. by intros [= <- <-].
Qed.

Lemma reduce_unique now store w aw s' w' :
  pending_unique store → reduce now store w aw = Ret (s', w') → pending_unique s'.
Proof.
  intros Hu. unfold reduce. destruct (aw_action aw) as [| |e|p d|st p|a id| | | | | | | | | | | | | | |
    | | | | | | | | | | | | | | |]; cbn [mbind Outcome_bind]; try (by intros [= <- <-]).
  - intros [= <- <-]. destruct (reduce_prune store) eqn:Hp; simpl; [|done].
    by eapply prune_unique.
  - destruct (reduce_commit_entry _ _ _ _) as [o w1] eqn:Hc. intros [= <- <-].
    unfold reduce_commit_entry in Hc. destruct o as [st|]; [|done]. simpl.
    by repeat case_match; simplify_eq.
  - destruct (reduce_queue_holding_workflow store p d) as [[s|]| |] eqn:Hq; intros; simplify_eq/=;
      [|done]. by eapply queue_unique.
  - intros [= <- <-]. by apply update_unique.
  - destruct (reduce_hold_aspect now store w a id) as [[[s|] w1]| |] eqn:Hh; intros; simplify_eq/=;
      [|done]. apply reduce_hold_aspect_pending in Hh. unfold pending_unique. by rewrite Hh.
Qed.

Lemma restart_unique now store :
  pending_unique store → pending_unique (new_from_snapshot now (DhtStoreSnapshot_from store)).
Proof.
  intros Hu. unfold pending_unique, all_pending in *; simpl.
  rewrite app_nil_r, <- list_fmap_compose. rewrite Permutation_app_comm in Hu. exact Hu.
Qed.

(** The states an instance can be in: a new one, one restored from the
    persisted snapshot of another, and what the reducers make of them. *)
Inductive dht_reachable : DhtStore → Prop :=
| reachable_new : dht_reachable DhtStore_new
| reachable_restart now store :
    dht_reachable store → dht_reachable (new_from_snapshot now (DhtStoreSnapshot_from store))
| reachable_reduce now store w aw store' w' :
    dht_reachable store → reduce now store w aw = Ret (store', w') → dht_reachable store'.

(** C23: no validation is queued twice.  In every reachable state, across
    restarts, the queue and the list in process together contain a header and
    workflow at most once. *)
Theorem no_duplicate_validations store : dht_reachable store → pending_unique store.
Proof.
  induction 1 as [|now store _ IH|now store w aw store' w' _ IH Hr].
  - apply NoDup_nil_2.
  - by apply restart_unique.
  - by eapply reduce_unique.
Qed.

Lemma unique_remove l c :
  NoDup (workflow_key <$> l) → c ∈ l →
  ∃ l', remove_first (λ x, PendingValidation_eq (pending x) (pending c)) l = Some (c, l') ∧
        l ≡ₚ c :: l' ∧ existsb (λ x, PendingValidation_eq (pending x) (pending c)) l' = false.
Proof.
  intros Hn Hc. destruct (remove_first _ l) as [[y l']|] eqn:Hr.
  2: { rewrite remove_first_none in Hr. specialize (Hr c Hc). simpl in Hr.
       by rewrite PendingValidation_eq_refl in Hr. }
  apply remove_first_perm in Hr as [Hy%PendingValidation_eq_key Hp].
  rewrite Hp in Hn, Hc. apply NoDup_cons in Hn as [Hn _].
  assert (y = c) as ->.
  { apply elem_of_cons in Hc as [->|Hc]; [done|]. destruct Hn. apply list_elem_of_fmap. eauto. }
  exists l'. split_and!; [done..|]. apply not_true_iff_false.
  intros (x & Hx%list_elem_of_In & He%PendingValidation_eq_key)%existsb_exists.
  apply Hn, list_elem_of_fmap. eauto.
Qed.

Lemma unique_elsewhere l1 l2 c :
  NoDup (workflow_key <$> (l1 ++ l2)) → c ∈ l1 →
  existsb (λ x, PendingValidation_eq (pending x) (pending c)) l2 = false.
Proof.
  rewrite fmap_app. intros (_ & Hd & _)%NoDup_app Hc. apply not_true_iff_false.
  intros (x & Hx%list_elem_of_In & He%PendingValidation_eq_key)%existsb_exists.
  apply (Hd (workflow_key c)); [by apply list_elem_of_fmap; eauto|].
  apply list_elem_of_fmap. eauto.
Qed.

Lemma existsb_snoc_eq l c p :
  PendingValidation_eq (pending c) p = true →
  existsb (λ x, PendingValidation_eq (pending x) p) (l ++ [c]) = true.
Proof. intros Hc. rewrite existsb_app. simpl. by rewrite Hc, orb_true_r. Qed.

(** The life cycle of a pending validation.  In a state without duplicates,
    moving a queued validation to processing takes it out of the queue and
    appends it to the list in process; sending one in process back to wait puts
    it at the end of the queue with the current time and the given delay;
    finishing one removes it.  Nothing else is touched, and the future that
    waits for the move is ready in the resulting state. *)
Theorem validation_moves now store c d :
  pending_unique store →
  (c ∈ queued_holding_workflows store →
   let s := update_queued_holding_workflow now store Processing (pending c) in
   (queued_holding_workflows store ≡ₚ c :: queued_holding_workflows s) ∧
   in_process_holding_workflows s = (in_process_holding_workflows store ++ [c])%list ∧
   holding_map s = holding_map store ∧
   remove_queued_ready Processing (pending c) s = true) ∧
  (c ∈ in_process_holding_workflows store →
   let waiting := {| pending := pending c;
                     timeout := Some {| time_of_dispatch := now; delay := d |} |} in
   let s := update_queued_holding_workflow now store (Waiting d) (pending c) in
   (in_process_holding_workflows store ≡ₚ c :: in_process_holding_workflows s) ∧
   queued_holding_workflows s = (queued_holding_workflows store ++ [waiting])%list ∧
   holding_map s = holding_map store ∧
   remove_queued_ready (Waiting d) (pending c) s = true) ∧
  (c ∈ in_process_holding_workflows store →
   let s := update_queued_holding_workflow now store Done (pending c) in
   (in_process_holding_workflows store ≡ₚ c :: in_process_holding_workflows s) ∧
   queued_holding_workflows s = queued_holding_workflows store ∧
   holding_map s = holding_map store ∧
   remove_queued_ready Done (pending c) s = true).
Proof.
  intros Hu. unfold pending_unique, all_pending in Hu.
  assert (Hq := Hu). assert (Hi := Hu).
  rewrite fmap_app in Hq, Hi. apply NoDup_app in Hq as [Hq _]. apply NoDup_app in Hi as (_ & _ & Hi).
  unfold update_queued_holding_workflow.
  assert (Hrefl := PendingValidation_eq_refl (pending c)).
  split_and!; intros Hc; [destruct (unique_remove _ _ Hq Hc) as (l' & -> & Hp & Hn)
    |destruct (unique_remove _ _ Hi Hc) as (l' & -> & Hp & Hn)..];
    simpl; split_and!; try done;
    unfold has_exact_queued_holding_workflow, has_exact_in_process_holding_workflow; simpl;
    by rewrite ?Hn, ?existsb_snoc_eq.
Qed.

(** ** Entering the queue *)

Lemma contains_spec m aspect :
  match AspectMap_contains m aspect with
  | Ret b => ∃ addr, EntryAspect_entry_address aspect = Ok addr ∧
                     (b = true ↔ holds m addr (EntryAspect_address aspect))
  | Panic => ∃ h, link_update_delete h = None ∧
                  ((∃ e, aspect = Aspect_Update e h) ∨ aspect = Aspect_Deletion h)
  | NoFuel => False
  end.
Proof.
  unfold AspectMap_contains. destruct (EntryAspect_entry_address aspect) as [addr|err] eqn:Ha.
  - exists addr. split; [done|]. unfold holds.
    destruct (m !! addr); simpl; [apply bool_decide_eq_true|set_solver].
  - destruct aspect as [| | | |e h|h]; simplify_eq/=;
      exists h; (split; [by destruct (link_update_delete h)|eauto]).
Qed.

Lemma try_from_turns_back aspect id p :
  PendingValidation_try_from aspect id = Ok p → EntryAspect_from_pending p = Ret aspect.
Proof.
  unfold PendingValidation_try_from, try_from_entry_and_header.
  destruct aspect as [e h|h|d h|d l h|e h|h]; [|done|..|destruct (link_update_delete h); [|done]];
    cbn [ok_or mbind Result_bind]; (case_bool_decide; [|done]); by intros [= <-].
Qed.

(** How a request to store an aspect is handled.  An aspect that is held is
    acknowledged; one that is not is queued for validation, as the validation
    that turns back into that very aspect; what does not parse, or is not a
    valid pending validation, is dropped.  The handler panics exactly for an
    update or deletion whose header names no entry to update or delete: such a
    message, which any peer can send, brings the handler down. *)
Theorem handle_store_spec space provider store maybe_aspect uuid :
  match handle_store space provider store maybe_aspect uuid with
  | Ret [] => maybe_aspect = None ∨
      ∃ a e, maybe_aspect = Some a ∧ PendingValidation_try_from a uuid = Err e
  | Ret [Action_RespondGossipList l] => ∃ a addr, maybe_aspect = Some a ∧
      EntryAspect_entry_address a = Ok addr ∧
      holds (holding_map store) addr (EntryAspect_address a) ∧
      eld_address_map l = {[ addr := [EntryAspect_address a] ]}
  | Ret [Action_QueueHoldingWorkflow p delay] => ∃ a addr, maybe_aspect = Some a ∧
      EntryAspect_entry_address a = Ok addr ∧
      ¬ holds (holding_map store) addr (EntryAspect_address a) ∧
      EntryAspect_from_pending p = Ret a ∧ delay = None
  | Ret _ => False
  | Panic => ∃ h, link_update_delete h = None ∧
      ((∃ e, maybe_aspect = Some (Aspect_Update e h)) ∨ maybe_aspect = Some (Aspect_Deletion h))
  | NoFuel => False
  end.
Proof.
  destruct maybe_aspect as [a|]; simpl; [|by left].
  pose proof (contains_spec (holding_map store) a) as Hc.
  destruct (AspectMap_contains _ a) as [[]| |]; cbn [mbind Outcome_bind]; [..|naive_solver|done].
  - destruct Hc as (addr & Ha & Hh). unfold ack_single, AspectMap_add. rewrite Ha.
    cbn [mbind Outcome_bind eld_address_map]. exists a, addr. split_and!; try done; [by apply Hh|].
    unfold insert_aspect, to_vec_map. rewrite lookup_empty. simpl.
    rewrite insert_empty, map_fmap_singleton. f_equal.
    by rewrite union_empty_r_L, elements_singleton.
  - destruct Hc as (addr & Ha & Hh).
    destruct (PendingValidation_try_from a uuid) as [p|e] eqn:Hp; [|right; eauto].
    exists a, addr. split_and!; try done; [naive_solver|by eapply try_from_turns_back].
Qed.

Lemma queue_onto store p d a addr :
  EntryAspect_from_pending p = Ret a → EntryAspect_entry_address a = Ok addr →
  ¬ holds (holding_map store) addr (EntryAspect_address a) →
  (∀ c, c ∈ all_pending store → workflow_key c ≠ (ewh_header (entry_with_header p), workflow p)) →
  reduce_queue_holding_workflow store p d =
    Ret (Some (set_queues store
      (queued_holding_workflows store ++
         [{| pending := p; timeout := ValidationTimeout_from <$> d |}])
      (in_process_holding_workflows store))).
Proof.
  intros Hp Ha Hh Hk. unfold reduce_queue_holding_workflow. rewrite Hp. cbn [mbind Outcome_bind].
  pose proof (contains_spec (holding_map store) a) as Hc.
  destruct (AspectMap_contains _ a) as [b| |]; [| |done].
  2: { destruct Hc as (h & Hl & [[e ->]| ->]); simpl in Ha; by rewrite Hl in Ha. }
  destruct Hc as (addr' & Ha' & Hb). rewrite Ha in Ha'. injection Ha' as <-. destruct b; [by destruct Hh; apply Hb|].
  cbn [mbind Outcome_bind].
  assert (Hno : ∀ l, l ⊆ all_pending store → existsb (same_workflow p) l = false).
  { intros l Hl. apply not_true_iff_false. intros (c & Hc & Hs)%existsb_exists.
    apply list_elem_of_In in Hc. apply same_workflow_key in Hs. by apply (Hk c (Hl c Hc)). }
  unfold has_same_queued_holding_worfkow, has_same_in_process_holding_worfkow.
  rewrite !Hno; [done|..]; unfold all_pending; set_solver.
Qed.

(** Pruning keeps one validation per workflow and entry: the queue becomes
    a part of what it was, in the same order, with every pair of workflow and
    entry address still represented exactly once, and nothing else changes. *)
Theorem prune_keeps_one_per_entry store :
  let s := default store (reduce_prune store) in
  (queued_holding_workflows s `sublist_of` queued_holding_workflows store) ∧
  NoDup (prune_key <$> queued_holding_workflows s) ∧
  (∀ k, k ∈ prune_key <$> queued_holding_workflows s ↔
        k ∈ prune_key <$> queued_holding_workflows store) ∧
  in_process_holding_workflows s = in_process_holding_workflows store ∧
  holding_map s = holding_map store ∧
  holding_attempt_results s = holding_attempt_results store.
Proof.
  unfold reduce_prune. set (l := queued_holding_workflows store).
  pose proof (unique_by_sublist prune_key [] l) as Hs.
  destruct (unique_by_spec prune_key [] l) as [Hn Hi].
  destruct (Nat.ltb_spec (length (unique_by prune_key [] l)) (length l)) as [Hlt|Hge]; simpl.
  - split_and!; try done. intros k. rewrite Hi. set_solver.
  - assert (Hp : unique_by prune_key [] l ≡ₚ l)
      by (apply submseteq_length_Permutation; [by apply sublist_submseteq|lia]).
    fold l. rewrite Hp in Hn. by split_and!.
Qed.

(** Pruning loses aspects.  Take two validations of the same workflow whose
    headers are about the same entry, such as the headers of two agents that
    committed the same content.  They are validations of different aspects, and
    both are accepted into the queue one after the other; pruning then drops the
    second one, whose aspect is neither held nor pending any more. *)
Theorem prune_drops_distinct_aspects p q a1 a2 addr1 addr2 :
  EntryAspect_from_pending p = Ret a1 → EntryAspect_entry_address a1 = Ok addr1 →
  EntryAspect_from_pending q = Ret a2 → EntryAspect_entry_address a2 = Ok addr2 →
  workflow p = workflow q →
  entry_address (ewh_header (entry_with_header p)) =
    entry_address (ewh_header (entry_with_header q)) →
  ewh_header (entry_with_header p) ≠ ewh_header (entry_with_header q) →
  ∃ s1 s2 s3,
    reduce_queue_holding_workflow DhtStore_new p None = Ret (Some s1) ∧
    reduce_queue_holding_workflow s1 q None = Ret (Some s2) ∧
    reduce_prune s2 = Some s3 ∧
    queued_holding_workflows s2 = [{| pending := p; timeout := None |};
                                   {| pending := q; timeout := None |}] ∧
    all_pending s3 = [{| pending := p; timeout := None |}] ∧
    holding_map s3 = ∅.
Proof.
  intros Hp Hp' Hq Hq' Hw He Hne. do 3 eexists.
  split; [eapply queue_onto; eauto; [apply holds_empty|by intros c ?%not_elem_of_nil]|].
  split; [eapply queue_onto; eauto; [apply holds_empty|]|].
  { intros c. unfold all_pending; simpl. rewrite list_elem_of_singleton. intros ->.
    unfold workflow_key; simpl. congruence. }
  assert (Hk : prune_key {| pending := p; timeout := None |} =
               prune_key {| pending := q; timeout := None |})
    by (unfold prune_key; simpl; congruence).
  split; [|split].
  { unfold reduce_prune; simpl. rewrite decide_True by (rewrite Hk; set_solver). reflexivity. }
  all: done.
Qed.

End queue.

(** ** Retries *)

(** The delay a validation carries after [n] runs that ended with
    [ValidationPending]. *)
Fixpoint retried (n : nat) : option Duration :=
  match n with
  | 0 => None
  | S n => match queueing_after (Err HolochainError_ValidationPending) (retried n) with
           | Waiting d => Some d
           | _ => None
           end
  end.

Lemma retry_delay_step n :
  queueing_after (Err HolochainError_ValidationPending) (retried n) =
    Waiting (Z.min RETRY_VALIDATION_DURATION_MAX (RETRY_VALIDATION_DURATION_MIN * 2 ^ Z.of_nat n)).
Proof.
  induction n as [|n IH]; [done|]. cbn [retried]. rewrite IH. unfold queueing_after.
  rewrite Nat2Z.inj_succ, Z.pow_succ_r by lia.
  assert (0 < 2 ^ Z.of_nat n)%Z by (apply Z.pow_pos_nonneg; lia).
  unfold RETRY_VALIDATION_DURATION_MAX, RETRY_VALIDATION_DURATION_MIN, millis.
  f_equal. destruct (Z.ltb_spec (60 * 60 * 1000 * 1000000)
    (Z.min (60 * 60 * 1000 * 1000000) (15000 * 1000000 * 2 ^ Z.of_nat n) * 2)); lia.
Qed.

(** Retries back off exponentially.  The delay after a run that is still
    pending is the least of one hour and 15 seconds doubled once per earlier
    run; any other result ends the workflow. *)
Theorem retry_backs_off n r :
  queueing_after r (retried n) =
  match r with
  | Err HolochainError_ValidationPending =>
      Waiting (Z.min RETRY_VALIDATION_DURATION_MAX (RETRY_VALIDATION_DURATION_MIN * 2 ^ Z.of_nat n))
  | _ => Done
  end.
Proof. destruct r as [|[]]; try done. apply retry_delay_step. Qed.

(** ** Concrete instances *)

Section witnesses.
#[local] Existing Instance memory_storage.
#[local] Existing Instance memory_storage_laws.
#[local] Existing Instance toy_addressing.

Definition ex_header (author : string) (update : option string) : ChainHeader :=
  {| entry_type := EntryType_App "post"; entry_address := "epost/a";
     provenances := [{| source := author; signature := "sig" |}];
     link := None; link_same_type := None; link_update_delete := update;
     timestamp := {| timestamp_nanos := 1 |} |}.

Definition ex_entry : Entry := Entry_App "post" "a".

Definition ex_pending (author : string) (update : option string) (w : ValidatingWorkflow) :
    PendingValidation :=
  PendingValidation_new {| ewh_entry := ex_entry; ewh_header := ex_header author update |} w 7.

Definition ex_queued (p : PendingValidation) : PendingValidationWithTimeout :=
  {| pending := p; timeout := None |}.

Definition ex_world : World := {| w_cas := ∅ : gmap string string; w_eav := [] |}.

Definition ex_store (l : list PendingValidation) : DhtStore :=
  {| holding_map := ∅; holding_attempt_results := ∅;
     queued_holding_workflows := ex_queued <$> l; in_process_holding_workflows := [] |}.

Lemma no_duplicate_validations_witness :
  pending_unique (ex_store [ex_pending "alice" None HoldEntry]).
Proof.
  apply no_duplicate_validations.
  apply (reachable_reduce 0 DhtStore_new ex_world
    {| aw_action := Action_QueueHoldingWorkflow (ex_pending "alice" None HoldEntry) None;
       aw_id := "x" |} _ ex_world reachable_new).
  vm_compute. reflexivity.
Defined.

Lemma validation_moves_witness :
  let c := ex_queued (ex_pending "alice" None HoldEntry) in
  let s := update_queued_holding_workflow 0 (ex_store [pending c]) Processing (pending c) in
  ([c] ≡ₚ c :: queued_holding_workflows s) ∧ in_process_holding_workflows s = [c] ∧
  holding_map s = ∅ ∧ remove_queued_ready Processing (pending c) s = true.
Proof.
  apply (validation_moves 0 (ex_store [ex_pending "alice" None HoldEntry])
           (ex_queued (ex_pending "alice" None HoldEntry)) 0).
  - apply NoDup_singleton.
  - apply elem_of_cons. left. reflexivity.
Defined.

Lemma prune_drops_distinct_aspects_witness :
  let p := ex_pending "alice" None HoldEntry in
  let q := ex_pending "bob" None HoldEntry in
  ∃ s1 s2 s3,
    reduce_queue_holding_workflow DhtStore_new p None = Ret (Some s1) ∧
    reduce_queue_holding_workflow s1 q None = Ret (Some s2) ∧
    reduce_prune s2 = Some s3 ∧
    queued_holding_workflows s2 = [ex_queued p; ex_queued q] ∧
    all_pending s3 = [ex_queued p] ∧ holding_map s3 = ∅.
Proof.
  apply (prune_drops_distinct_aspects _ _ (Aspect_Content ex_entry (ex_header "alice" None))
    (Aspect_Content ex_entry (ex_header "bob" None)) "epost/a" "epost/a");
    [reflexivity..|discriminate].
Defined.

(** An update of an entry to the same content depends on itself. *)
Lemma dependency_cycle_starves_witness :
  let c := ex_queued (ex_pending "alice" (Some "epost/a") UpdateEntry) in
  let d := {| pending := PendingValidation_new
                {| ewh_entry := Entry_App "post" "b"; ewh_header := ex_header "bob" None |}
                HoldEntry 8; timeout := None |} in
  let store := set_queues DhtStore_new [c; d] [] in
  (∀ x, x ∈ [c] → pending d ≠ pending x) ∧
  ∃ chosen rest, (queued_holding_workflows store ≡ₚ (chosen :: rest)) ∧ pending chosen = pending d ∧
                 (chosen ∉ [c]) ∧ ([c] ⊆ rest).
Proof.
  intros c d store. apply (dependency_cycle_starves 0 store [c] (pending d) None).
  - intros x Hx. apply list_elem_of_singleton in Hx as ->. apply elem_of_cons. left. reflexivity.
  - intros x Hx. apply list_elem_of_singleton in Hx as ->. exists c.
    split; [apply list_elem_of_singleton; reflexivity|].
    apply elem_of_cons. left. reflexivity.
  - vm_compute. reflexivity.
Defined.

(** The attempt [id] succeeded. *)
Definition attempt_succeeded (id : N * N) (r : Outcome (option DhtStore * World)) : bool :=
  match r with
  | Ret (Some st, _) =>
      match holding_attempt_results st !! id with Some (Ok _) => true | _ => false end
  | _ => false
  end.

Lemma held_aspect_is_recorded_witness :
  let aspect := Aspect_Content ex_entry (ex_header "alice" None) in
  ∃ st w', reduce_hold_aspect 5 DhtStore_new ex_world aspect (1, 2)%N = Ret (Some st, w') ∧
           recorded aspect ex_world w' ∧ eav_mono ex_world w'.
Proof.
  intros aspect.
  assert (Hok : attempt_succeeded (1, 2)%N
    (reduce_hold_aspect 5 DhtStore_new ex_world aspect (1, 2)%N) = true)
    by (vm_compute; reflexivity).
  destruct (reduce_hold_aspect 5 DhtStore_new ex_world aspect (1, 2)%N) as [[[st|] w']| |] eqn:Hr;
    [|discriminate Hok..].
  exists st, w'. split; [reflexivity|].
  apply (held_aspect_is_recorded toy_hash_inj 5 DhtStore_new ex_world aspect (1, 2)%N st w').
  - intros e h [= <- <-]. exact I.
  - exact Hr.
  - unfold attempt_succeeded in Hok.
    destruct (holding_attempt_results st !! (1, 2)%N) as [[[]|]|];
      [reflexivity|discriminate Hok..].
Defined.

End witnesses.
