(* ===== verification/GetEntry.v ===== *)
(** * Getting an entry and its history

    Models [src/crates/core/src/nucleus/actions/get_entry.rs],
    [src/crates/core/src/workflows/get_entry_result.rs], the result types of
    [src/crates/wasm_utils/src/api_serialization/get_entry.rs] and
    [State::get_headers] of [src/crates/core/src/state.rs].

    A request follows the links from an entry to its updates.  The theorems say
    what it returns when the updates form a finite sequence, and that it does
    not terminate when they form a cycle, as they do when an entry is updated
    back to an earlier content. *)

From S2P Require Import Prelude Errors CoreTypes Storage Action Instances ContentStore Agent.
From S2P Require Import AspectMap DhtStore DhtReducers.

(** ** api_serialization/get_entry.rs *)

Inductive StatusRequestKind : Type := Initial | Latest | All.

#[export] Instance StatusRequestKind_eq_dec : EqDecision StatusRequestKind.
Proof. solve_decision. Defined.

(** The fields of [GetEntryOptions] that the workflows read; [entry] is applied
    by the caller and [timeout] goes to the network. *)
Record GetEntryOptions : Type := { status_request : StatusRequestKind; want_headers : bool }.

Record EntryResultMeta : Type := {
  result_address : Address;
  result_entry_type : EntryType;
  result_crud_status : CrudStatus;
}.

Record GetEntryResultItem : Type := {
  item_meta : option EntryResultMeta;
  item_entry : option Entry;
  item_headers : list ChainHeader;
}.

Record EntryHistory : Type := {
  items : list GetEntryResultItem;
  crud_links : gmap Address Address;
}.

Inductive GetEntryResultType : Type :=
| Result_Single (item : GetEntryResultItem)
| Result_All (history : EntryHistory).

Section results.
Context `{Addressing}.

Definition GetEntryResultItem_new (x : option (EntryWithMeta * list ChainHeader)) :
    GetEntryResultItem :=
  match x with
  | Some (entry_with_meta, headers) =>
      {| item_meta := Some {| result_address := Entry_address (ewm_entry entry_with_meta);
                              result_entry_type := Entry_entry_type (ewm_entry entry_with_meta);
                              result_crud_status := ewm_crud_status entry_with_meta |};
         item_entry := Some (ewm_entry entry_with_meta);
         item_headers := headers |}
  | None => {| item_meta := None; item_entry := None; item_headers := [] |}
  end.

Definition EntryHistory_push (self : EntryHistory) (entry_with_meta : EntryWithMeta)
    (headers : list ChainHeader) : EntryHistory :=
  {| items := items self ++ [GetEntryResultItem_new (Some (entry_with_meta, headers))];
     crud_links :=
       match maybe_link_update_delete entry_with_meta with
       | Some new_address =>
           <[Entry_address (ewm_entry entry_with_meta) := new_address]> (crud_links self)
       | None => crud_links self
       end |}.

Definition GetEntryResult_push (self : GetEntryResultType) (entry_with_meta : EntryWithMeta)
    (headers : list ChainHeader) : GetEntryResultType :=
  match self with
  | Result_Single _ => Result_Single (GetEntryResultItem_new (Some (entry_with_meta, headers)))
  | Result_All history => Result_All (EntryHistory_push history entry_with_meta headers)
  end.

(** [GetEntryResult::new] without an entry. *)
Definition GetEntryResult_new (request_kind : StatusRequestKind) : GetEntryResultType :=
  match request_kind with
  | All => Result_All {| items := []; crud_links := ∅ |}
  | _ => Result_Single (GetEntryResultItem_new None)
  end.

Definition GetEntryResult_clear (self : GetEntryResultType) : GetEntryResultType :=
  match self with
  | Result_Single _ => Result_Single (GetEntryResultItem_new None)
  | Result_All history => Result_All {| items := []; crud_links := crud_links history |}
  end.

Definition GetEntryResult_found (self : GetEntryResultType) : bool :=
  match self with
  | Result_Single item => match item_meta item with Some _ => true | None => false end
  | Result_All history => match items history with [] => false | _ => true end
  end.

Definition GetEntryResult_latest (self : GetEntryResultType) : option Entry :=
  match self with
  | Result_Single item => item_entry item
  | Result_All history => last (items history) ≫= item_entry
  end.

End results.

(** ** nucleus/actions/get_entry.rs and state.rs *)

Section get_entry.
Context `{Storage} `{Addressing}.

Definition has_status (status : CrudStatus) (l : list EntityAttributeValueIndex) : bool :=
  existsb (λ e, match CrudStatus_from_str (eavi_value e) with
                | Ok st => bool_decide (st = status)
                | Err _ => false
                end) l.

Definition get_entry_crud_meta_from_dht (w : World) (address : Address) :
    Result HolochainError (option (CrudStatus * option Address)) :=
  status_eavs ← (fetch_eavi (eavi_query_of address Attribute_CrudStatus) w).1;
  match status_eavs with
  | [] => Ok None
  | _ =>
      let crud_status :=
        if has_status Deleted status_eavs then Deleted
        else if has_status Modified status_eavs then Modified else Live in
      link_eavs ← (fetch_eavi (eavi_query_of address Attribute_CrudLink) w).1;
      Ok (Some (crud_status, eavi_value <$> head link_eavs))
  end.

Definition get_entry_with_meta (w : World) (address : Address) :
    Result HolochainError (option EntryWithMeta) :=
  maybe_entry ← get (w_cas w) address;
  match maybe_entry with
  | None => Ok None
  | Some (Entry_ChainHeader _ as entry) =>
      Ok (Some {| ewm_entry := entry; ewm_crud_status := Live; maybe_link_update_delete := None |})
  | Some entry =>
      crud_info ← get_entry_crud_meta_from_dht w address;
      match crud_info with
      | Some (crud_status, link) =>
          Ok (Some {| ewm_entry := entry; ewm_crud_status := crud_status;
                      maybe_link_update_delete := link |})
      | None => Ok None
      end
  end.

(** [State::get_headers]: the headers of the agent's chain for the entry, then
    those the DHT knows, without repeating the former.  [cas] is the storage of
    the chain, [w] the storages of the DHT. *)
Definition State_get_headers (agent : AgentState) (cas : Cas) (w : World) (fuel : nat)
    (address : Address) : Outcome (Result HolochainError (list ChainHeader)) :=
  chain_headers ← iter_chain agent cas fuel;
  let headers := filter (λ h, entry_address h = address) chain_headers in
  let header_addresses := ChainHeader_address <$> headers in
  Ret (eavis ← (fetch_eavi (eavi_query_of address Attribute_EntryHeader) w).1;
       entries ← (m_collect (m_get <$> filter (λ a, a ∉ header_addresses)
                                         (eavi_value <$> eavis)) w).1;
       dht_headers ← (m_collect (lift <$> (entry_as_header <$> omap id entries)) w).1;
       Ok (headers ++ dht_headers)).

(** ** workflows/get_entry_result.rs *)

Definition get_entry_with_meta_workflow_local (agent : AgentState) (cas : Cas) (w : World)
    (fuel : nat) (address : Address) :
    Outcome (Result HolochainError (option EntryWithMetaAndHeader)) :=
  match (maybe ← get_entry_with_meta w address;
         ok_or (HolochainError_ErrorGeneric ("Could not get entry: " +:+ address)) maybe) with
  | Err e => Ret (Err e)
  | Ok entry =>
      headers ← State_get_headers agent cas w fuel address;
      Ret (headers ← headers;
           Ok (Some {| entry_with_meta := entry; ewm_headers := headers |}))
  end.

(** [net_query] is the answer of the network to a query for an entry. *)
Definition get_entry_with_meta_workflow
    (net_query : Address → Result HolochainError NetworkQueryResult)
    (agent : AgentState) (cas : Cas) (w : World) (fuel : nat) (address : Address) :
    Outcome (Result HolochainError (option EntryWithMetaAndHeader)) :=
  let ask := response ← net_query address;
             match response with
             | QueryResult_Entry maybe_entry => Ok maybe_entry
             | _ => Err (HolochainError_ErrorGeneric "Wrong respond type for Entry")
             end in
  match get_entry_with_meta w address with
  | Err e => Ret (Err e)
  | Ok None => Ret ask
  | Ok (Some entry) =>
      headers ← State_get_headers agent cas w fuel address;
      Ret match headers with
          | Ok headers => Ok (Some {| entry_with_meta := entry; ewm_headers := headers |})
          | Err _ => ask
          end
  end.

(** The loop that [get_entry_result_workflow] and
    [get_entry_result_workflow_local] share; [fetch] is the workflow that gets
    one entry, [fuel] bounds the number of entries followed. *)
Fixpoint history_loop
    (fetch : Address → Outcome (Result HolochainError (option EntryWithMetaAndHeader)))
    (options : GetEntryOptions) (fuel : nat) (address : Address)
    (entry_result : GetEntryResultType) : Outcome (Result HolochainError GetEntryResultType) :=
  match fuel with
  | O => NoFuel
  | S fuel =>
      maybe ← fetch address;
      match maybe with
      | Err e => Ret (Err e)
      | Ok None => Ret (Ok entry_result)
      | Ok (Some x) =>
          let meta := entry_with_meta x in
          if bool_decide (status_request options = Latest) &&
             bool_decide (ewm_crud_status meta = Deleted)
          then Ret (Ok (GetEntryResult_clear entry_result))
          else
            let headers := if want_headers options then ewm_headers x else [] in
            let entry_result := GetEntryResult_push entry_result meta headers in
            if bool_decide (status_request options = Initial) then Ret (Ok entry_result)
            else
              match maybe_link_update_delete meta with
              | Some link =>
                  if bool_decide (ewm_crud_status meta = Deleted) then Ret (Ok entry_result)
                  else history_loop fetch options fuel link entry_result
              | None => Ret (Ok entry_result)
              end
      end
  end.

Definition get_entry_result_workflow_local (agent : AgentState) (cas : Cas) (w : World)
    (fuel : nat) (address : Address) (options : GetEntryOptions) :
    Outcome (Result HolochainError GetEntryResultType) :=
  history_loop (get_entry_with_meta_workflow_local agent cas w fuel) options fuel address
    (GetEntryResult_new (status_request options)).

Definition get_entry_result_workflow
    (net_query : Address → Result HolochainError NetworkQueryResult)
    (agent : AgentState) (cas : Cas) (w : World) (fuel : nat) (address : Address)
    (options : GetEntryOptions) : Outcome (Result HolochainError GetEntryResultType) :=
  history_loop (get_entry_with_meta_workflow net_query agent cas w fuel) options fuel address
    (GetEntryResult_new (status_request options)).

End get_entry.

(** ** What a request returns *)

Section history.
Context `{Storage} `{Addressing}.
Variable fetch : Address → Outcome (Result HolochainError (option EntryWithMetaAndHeader)).
Variable options : GetEntryOptions.

Definition is_deleted (x : EntryWithMetaAndHeader) : bool :=
  bool_decide (ewm_crud_status (entry_with_meta x) = Deleted).

(** The entries found from an address by following updates, up to one that is
    deleted, not updated or not found. *)
Inductive follows : Address → list EntryWithMetaAndHeader → Prop :=
| follows_missing a : fetch a = Ret (Ok None) → follows a []
| follows_end a x :
    fetch a = Ret (Ok (Some x)) →
    is_deleted x = true ∨ maybe_link_update_delete (entry_with_meta x) = None →
    follows a [x]
| follows_next a x b l :
    fetch a = Ret (Ok (Some x)) → is_deleted x = false →
    maybe_link_update_delete (entry_with_meta x) = Some b → follows b l → follows a (x :: l).

Definition push_item (r : GetEntryResultType) (x : EntryWithMetaAndHeader) : GetEntryResultType :=
  GetEntryResult_push r (entry_with_meta x) (if want_headers options then ewm_headers x else []).

(** The result for a history: everything, the first entry, or the last one
    unless it is deleted. *)
Definition history_result (r : GetEntryResultType) (l : list EntryWithMetaAndHeader) :
    GetEntryResultType :=
  match status_request options with
  | All => foldl push_item r l
  | Initial => match l with [] => r | x :: _ => push_item r x end
  | Latest =>
      match last l with
      | None => r
      | Some x => if is_deleted x then GetEntryResult_clear r else push_item r x
      end
  end.

Lemma history_loop_follows a l fuel r :
  follows a l → length l < fuel → (status_request options = Latest → ∃ i, r = Result_Single i) →
  history_loop fetch options fuel a r = Ret (Ok (history_result r l)).
Proof.
  intros Hl. revert fuel r.
  induction Hl as [a Hf|a x Hf Hend|a x b l Hf Hdel Hlink Hl IH];
    intros [|fuel] r Hlen Hr; simpl in Hlen; try lia; cbn [history_loop]; rewrite Hf;
    cbn [mbind Outcome_bind]; unfold history_result.
  - by destruct (status_request options).
  - unfold is_deleted in *.
    destruct (status_request options) eqn:Ho; simpl; try done;
      case_bool_decide as Hd; try done;
      destruct (maybe_link_update_delete (entry_with_meta x)); try done; naive_solver.
  - change (bool_decide (ewm_crud_status (entry_with_meta x) = Deleted)) with (is_deleted x).
    rewrite Hdel, Hlink, andb_false_r.
    destruct (status_request options) eqn:Ho; simpl; [done|..];
      fold (push_item r x); rewrite IH by (done || lia || naive_solver);
      unfold history_result; rewrite Ho; [|done].
    destruct (Hr eq_refl) as [i ->]. rewrite last_cons.
    destruct (last l) as [y|]; [by destruct (is_deleted y)|by rewrite Hdel].
Qed.

(** Updates that lead from each entry of a set to another of the set. *)
Definition update_cycle (C : list Address) : Prop :=
  ∀ b, b ∈ C → ∃ x c, fetch b = Ret (Ok (Some x)) ∧ is_deleted x = false ∧
                      maybe_link_update_delete (entry_with_meta x) = Some c ∧ c ∈ C.

Lemma history_loop_cycle C fuel a r :
  update_cycle C → status_request options ≠ Initial → a ∈ C →
  history_loop fetch options fuel a r = NoFuel.
Proof.
  intros HC Ho. revert a r. induction fuel as [|fuel IH]; intros a r Ha; [done|].
  destruct (HC a Ha) as (x & c & Hf & Hd & Hl & Hc). cbn [history_loop]. rewrite Hf.
  cbn [mbind Outcome_bind].
  change (bool_decide (ewm_crud_status (entry_with_meta x) = Deleted)) with (is_deleted x).
  rewrite Hd, andb_false_r, Hl, bool_decide_false by done. by apply IH.
Qed.

End history.

Section theorems.
Context `{Storage} `{Addressing}.

(** C37: getting an entry follows its updates.  If following the updates from an
    address leads through a finite history, the request returns without running
    out of fuel: the whole history if it asks for all, the first entry if it
    asks for the initial one, and otherwise the last entry, or nothing if that
    one is deleted. *)
Theorem get_entry_follows_updates agent cas w fuel address options l :
  follows (get_entry_with_meta_workflow_local agent cas w fuel) address l → length l < fuel →
  get_entry_result_workflow_local agent cas w fuel address options =
    Ret (Ok (history_result options (GetEntryResult_new (status_request options)) l)).
Proof.
  intros Hl Hf. apply history_loop_follows; [done..|]. intros ->. by eexists.
Qed.

(** C38: a cycle of updates hangs the request.  If the updates lead from each
    entry of a set to another of the set, then getting one of them, other than
    in its initial version, never returns, whatever the fuel; with or without
    the network. *)
Theorem update_cycle_hangs agent cas w C n net_query address options :
  (∀ fuel, n < fuel → update_cycle (get_entry_with_meta_workflow_local agent cas w fuel) C) →
  status_request options ≠ Initial → address ∈ C →
  ∀ fuel, n < fuel →
    get_entry_result_workflow_local agent cas w fuel address options = NoFuel ∧
    get_entry_result_workflow net_query agent cas w fuel address options = NoFuel.
Proof.
  intros HC Ho Ha fuel Hn. split; (eapply history_loop_cycle; [|done|exact Ha]); [by apply HC|].
  intros b Hb. destruct (HC fuel Hn b Hb) as (x & c & Hf & Hrest). exists x, c. split; [|done].
  unfold get_entry_with_meta_workflow_local in Hf. unfold get_entry_with_meta_workflow.
  destruct (get_entry_with_meta w b) as [[m|]|]; [|done..]. cbn [mbind Result_bind ok_or] in Hf.
  destruct (State_get_headers agent cas w fuel b) as [[hs|e]| |]; cbn [mbind Outcome_bind] in *;
    by simplify_eq/=.
Qed.

End theorems.

(** ** Concrete instances *)

Section witnesses.
#[local] Existing Instance memory_storage.
#[local] Existing Instance toy_addressing.

Definition post (v : string) : Entry := Entry_App "post" v.
Definition post_header (v : string) (update : option string) (t : Z) : ChainHeader :=
  {| entry_type := EntryType_App "post"; entry_address := Entry_address (post v);
     provenances := [{| source := "alice"; signature := "sig" |}];
     link := None; link_same_type := None; link_update_delete := update;
     timestamp := {| timestamp_nanos := t |} |}.

(** A post "a" is held, then its update to "b", each with its content. *)
Definition hold (t : Z) (aspect : EntryAspect) (w : World) : World :=
  (hold_aspect_inner t aspect w).2.

Definition no_world : World := {| w_cas := ∅ : gmap string string; w_eav := [] |}.
Definition held_a : World := hold 1 (Aspect_Content (post "a") (post_header "a" None 1)) no_world.
Definition held_b : World :=
  let h := post_header "b" (Some (Entry_address (post "a"))) 2 in
  hold 3 (Aspect_Update (post "b") h) (hold 2 (Aspect_Content (post "b") h) held_a).
(** Then "b" is updated back to "a". *)
Definition held_back : World :=
  let h := post_header "a" (Some (Entry_address (post "b"))) 3 in
  hold 5 (Aspect_Update (post "a") h) (hold 4 (Aspect_Content (post "a") h) held_b).

Definition reader : AgentState := AgentState_new "alice".
Definition reader_cas : @Cas memory_storage := (∅ : gmap string string).

Lemma get_entry_follows_updates_witness :
  ∃ l, length l = 2 ∧
    get_entry_result_workflow_local reader reader_cas held_b 3 (Entry_address (post "a"))
      {| status_request := Latest; want_headers := false |} =
    Ret (Ok (history_result {| status_request := Latest; want_headers := false |}
               (GetEntryResult_new Latest) l)).
Proof.
  eexists. split; [|apply (get_entry_follows_updates reader reader_cas held_b 3)];
    [|eapply follows_next; [vm_compute; reflexivity|vm_compute; reflexivity|vm_compute; reflexivity|
      eapply follows_end; [vm_compute; reflexivity|right; vm_compute; reflexivity]]|simpl; lia].
  reflexivity.
Defined.

Lemma update_cycle_hangs_witness :
    get_entry_result_workflow_local reader reader_cas held_back 7 (Entry_address (post "a"))
      {| status_request := Latest; want_headers := false |} = NoFuel ∧
    get_entry_result_workflow (λ _, Err HolochainError_DnaMissing) reader reader_cas held_back 7
      (Entry_address (post "a")) {| status_request := Latest; want_headers := false |} = NoFuel.
Proof.
  apply (update_cycle_hangs reader reader_cas held_back
    [Entry_address (post "a"); Entry_address (post "b")] 0 (λ _, Err HolochainError_DnaMissing)).
  - intros [|fuel] Hf; [lia|]. intros b Hb.
    apply elem_of_cons in Hb as [-> | ->%list_elem_of_singleton].
    + eexists _, (Entry_address (post "b")).
      split; [vm_compute; reflexivity|]. split; [vm_compute; reflexivity|].
      split; [vm_compute; reflexivity|]. apply elem_of_cons. right. by apply list_elem_of_singleton.
    + eexists _, (Entry_address (post "a")).
      split; [vm_compute; reflexivity|]. split; [vm_compute; reflexivity|].
      split; [vm_compute; reflexivity|]. apply elem_of_cons. by left.
  - done.
  - apply elem_of_cons. by left.
  - lia.
Defined.

End witnesses.
