(* ===== verification/NetworkHandlers.v ===== *)
(** * Handlers of network messages

    Models [src/crates/core/src/network/handler/]: [send.rs], [query.rs],
    [fetch.rs], [lists.rs] and the functions of [mod.rs] that collect the aspects
    of an entry ([handle_store] is in the file of the DHT reducers).

    The theorems: which answers to a direct message make the handler panic; a
    query is never answered with an entry of a type that is not published, while
    a fetch request is; the meta aspect derived from an entry goes to the address
    that the aspect itself names; and the authoring list consists of the aspects
    of published chain entries and of the headers. *)

From S2P Require Import Prelude Errors CoreTypes Dna Storage Action Instances ContentStore Agent.
From S2P Require Import Network AspectMap DhtStore DhtReducers GetEntry.

(** The bytes of a message: not UTF-8, not the JSON of the expected type, or a
    value. *)
Inductive Wire (A : Type) : Type :=
| Wire_NotUtf8
| Wire_NotJson
| Wire_Value (x : A).
Arguments Wire_NotUtf8 {A}.
Arguments Wire_NotJson {A}.
Arguments Wire_Value {A} _.

(** ** send.rs *)

(** [handle_send_message_result]: the actions dispatched for an answer to one of
    our messages.  [connections] is [direct_message_connections] of the state. *)
Definition handle_send_message_result (connections : gmap string DirectMessage)
    (request_id : string) (from_agent_id : Address) (content : Wire DirectMessage) :
    Outcome (list Action) :=
  match content with
  | Wire_NotUtf8 | Wire_NotJson => Ret []
  | Wire_Value response =>
      let initial_message := connections !! request_id in
      match response with
      | DirectMessage_Custom custom_direct_message =>
          match initial_message with
          | None => Ret []
          | Some _ =>
              Ret [Action_HandleCustomSendResponse request_id (dm_payload custom_direct_message);
                   Action_ResolveDirectConnection request_id]
          end
      | DirectMessage_RequestValidationPackage _ => Ret []
      | DirectMessage_ValidationPackage maybe_validation_package =>
          match initial_message with
          | None => Ret []
          | Some (DirectMessage_RequestValidationPackage address) =>
              Ret [Action_HandleGetValidationPackage from_agent_id address maybe_validation_package;
                   Action_ResolveDirectConnection request_id]
          | Some _ => Panic
          end
      end
  end.

(** ** query.rs, the answers to our queries *)

Definition handle_query_entry_result (request_id : string) (entry_address : Address)
    (content : Wire NetworkQueryResult) : Outcome (list Action) :=
  match content with
  | Wire_NotUtf8 => Panic
  | Wire_NotJson => Ret []
  | Wire_Value (QueryResult_Entry maybe_entry) =>
      Ret [Action_HandleQuery (QueryResult_Entry maybe_entry)
             (QueryKey_Entry {| entry_key_address := entry_address; entry_key_id := request_id |})]
  | Wire_Value (QueryResult_Links links_result link_type tag) =>
      Ret [Action_HandleQuery (QueryResult_Links links_result link_type tag)
             (QueryKey_Links {| links_base_address := entry_address; links_link_type := link_type;
                                links_tag := tag; links_id := request_id |})]
  end.

(** [Iterator::filter] and [filter_map] with a test that can panic. *)
Fixpoint outcome_filter {A} (p : A → Outcome bool) (l : list A) : Outcome (list A) :=
  match l with
  | [] => Ret []
  | x :: l => b ← p x; rest ← outcome_filter p l; Ret (if (b : bool) then x :: rest else rest)
  end.
Fixpoint outcome_filter_map {A B} (f : A → Outcome (option B)) (l : list A) : Outcome (list B) :=
  match l with
  | [] => Ret []
  | x :: l =>
      o ← f x; rest ← outcome_filter_map f l;
      Ret match o with Some y => y :: rest | None => rest end
  end.
Fixpoint outcome_map {A B} (f : A → Outcome B) (l : list A) : Outcome (list B) :=
  match l with
  | [] => Ret []
  | x :: l => y ← f x; rest ← outcome_map f l; Ret (y :: rest)
  end.

(** ** What the handlers read

    The slices of the state, the storages and the DNA of the context. *)
Section handlers.
Context `{Storage} `{Addressing}.
Variable to_uppercase : string → string.
Variable sign : string → Result HolochainError string.
Variable now : SystemTime.
Variable agent : AgentState.
Variable cas : Cas.
Variable w : World.
Variable my_dna : option Dna.
Variable fuel : nat.

(** *** mod.rs *)

Definition can_publish_header (h : ChainHeader) : Outcome bool := can_publish (entry_type h) my_dna.

Definition get_content_aspects_from_chain (address : Address) : Outcome (list EntryAspect) :=
  headers ← iter_chain agent cas fuel;
  outcome_filter_map (λ chain_header,
    publishable ← can_publish_header chain_header;
    if negb publishable then Ret None
    else if bool_decide (ChainHeader_address chain_header = address) then
      r ← create_entry_with_header_for_header sign now agent cas fuel chain_header;
      Ret match r with
          | Ok ewh => Some (Aspect_Content (ewh_entry ewh) (ewh_header ewh))
          | Err _ => None
          end
    else if bool_decide (entry_address chain_header = address) then
      Ret match get cas address with
          | Ok (Some entry) => Some (Aspect_Content entry chain_header)
          | _ => None
          end
    else Ret None) headers.

Definition get_content_aspects (address : Address) :
    Outcome (Result HolochainError (list EntryAspect)) :=
  match get (w_cas w) address with
  | Err e => Ret (Err e)
  | Ok None => Ret (Ok [])
  | Ok (Some entry) =>
      headers ← State_get_headers agent cas w fuel address;
      Ret match headers with
          | Err _ => Err (HolochainError_ErrorGeneric
                            "net/fetch/get_content_aspects: Error trying to get headers ")
          | Ok headers => Ok (map (Aspect_Content entry) headers)
          end
  end.

Definition entry_to_meta_aspect (entry : Entry) (header : ChainHeader) :
    Result HolochainError (option (Address * EntryAspect)) :=
  let maybe_aspect :=
    match entry with
    | Entry_App app_type app_value =>
        (λ _, Aspect_Update (Entry_App app_type app_value) header) <$> link_update_delete header
    | Entry_LinkAdd link_data => Some (Aspect_LinkAdd link_data header)
    | Entry_LinkRemove link_data addresses => Some (Aspect_LinkRemove link_data addresses header)
    | Entry_Deletion _ => Some (Aspect_Deletion header)
    | _ => None
    end in
  match maybe_aspect with
  | Some aspect => address ← EntryAspect_entry_address aspect; Ok (Some (address, aspect))
  | None => Ok None
  end.

(** An entry missing from the chain's storage, and a deletion without a link,
    panic ([expect]). *)
Definition meta_aspect_of_header (header : ChainHeader) :
    Outcome (option (Address * EntryAspect)) :=
  match get cas (entry_address header) with
  | Err _ => Ret None
  | Ok None => Panic
  | Ok (Some entry) =>
      match entry_to_meta_aspect entry header with
      | Ok o => Ret o
      | Err _ => Panic
      end
  end.

Definition aspect_at (address : Address) (p : Address * EntryAspect) : option EntryAspect :=
  if bool_decide (p.1 = address) then Some p.2 else None.

Definition get_meta_aspects_from_chain (address : Address) : Outcome (list EntryAspect) :=
  headers ← iter_chain agent cas fuel;
  published ← outcome_filter can_publish_header headers;
  metas ← outcome_filter_map meta_aspect_of_header published;
  Ret (@omap list _ _ _ (aspect_at address) metas).

(** The closure of [get_meta_aspects_from_dht_eav]; an entry without headers
    panics (indexing). *)
Definition meta_aspect_of_eavi (eavi : EntityAttributeValueIndex) :
    Outcome (Result HolochainError EntryAspect) :=
  value ← get_entry_with_meta_workflow_local agent cas w fuel (eavi_value eavi);
  match value with
  | Err e => Ret (Err e)
  | Ok None => Ret (Err (HolochainError_new
                           "Entry linked in EAV not found! This should never happen."))
  | Ok (Some value_entry) =>
      header ← unwrap (head (ewm_headers value_entry));
      let entry := ewm_entry (entry_with_meta value_entry) in
      match eavi_attribute eavi with
      | Attribute_LinkTag _ _ =>
          Ret match entry with
              | Entry_LinkAdd link_data | Entry_LinkRemove link_data _ =>
                  Ok (Aspect_LinkAdd link_data header)
              | _ => Err (HolochainError_new "Invalid Entry Value for LinkTag: ")
              end
      | Attribute_RemovedLink link_remove_address _ _ =>
          match entry with
          | Entry_LinkRemove link_data removed => Ret (Ok (Aspect_LinkRemove link_data removed header))
          | Entry_LinkAdd _ =>
              contents ← get_content_aspects link_remove_address;
              Ret match contents with
                  | Err e => Err e
                  | Ok [Aspect_Content (Entry_LinkRemove link_data _) link_remove_header] =>
                      Ok (Aspect_LinkRemove link_data [eavi_value eavi] link_remove_header)
                  | Ok [Aspect_Content _ _] =>
                      Err (HolochainError_new "Expecting LinkRemove entry, got: ")
                  | Ok [_] => Err (HolochainError_new "Expecting content aspect, got: ")
                  | Ok _ =>
                      Err (HolochainError_new "Expecting one LinkRemove content aspect, got: ")
                  end
          | _ => Ret (Err (HolochainError_new "Invalid Entry Value for RemovedLink: "))
          end
      | Attribute_CrudLink => Ret (Ok (Aspect_Update entry header))
      | _ => Ret (Err (HolochainError_new "Invalid Attribute in eavi: "))
      end
  end.

Definition is_meta_attribute (eavi : EntityAttributeValueIndex) : bool :=
  match eavi_attribute eavi with
  | Attribute_LinkTag _ _ | Attribute_RemovedLink _ _ _ | Attribute_CrudLink => true
  | _ => false
  end.

(** The successes of a list, or its first error. *)
Fixpoint sequence {E A} (l : list (Result E A)) : Result E (list A) :=
  match l with
  | [] => Ok []
  | r :: l => x ← r; xs ← sequence l; Ok (x :: xs)
  end.

Definition get_meta_aspects_from_dht_eav (address : Address) :
    Outcome (Result HolochainError (list EntryAspect)) :=
  match (get_all_metas address w).1 with
  | Err e => Ret (Err e)
  | Ok eavis =>
      results ← outcome_map meta_aspect_of_eavi (filter (λ e, is_meta_attribute e) eavis);
      Ret (sequence results)
  end.

(** *** fetch.rs *)

(** The set of aspects, as the list of its insertions. *)
Definition fetch_aspects_for_entry (address : Address) : Outcome (list EntryAspect) :=
  content ← get_content_aspects address;
  match content with
  | Err _ => Ret []
  | Ok content_aspects =>
      from_chain ← get_meta_aspects_from_chain address;
      from_eav ← get_meta_aspects_from_dht_eav address;
      Ret (content_aspects ++ from_chain ++
           match from_eav with Ok l => l | Err _ => [] end)
  end.

Definition handle_fetch_entry (get_dht_data : FetchEntryData) : Outcome (list Action) :=
  aspects ← fetch_aspects_for_entry (fed_entry_address get_dht_data);
  Ret [Action_RespondFetch get_dht_data aspects].

(** *** query.rs, the queries of others *)

Definition query_get_entry (address : Address) : Outcome (option EntryWithMetaAndHeader) :=
  match get_entry_with_meta w address with
  | Err _ | Ok None => Ret None
  | Ok (Some entry_with_meta) =>
      match ewm_entry entry_with_meta with
      | Entry_ChainHeader _ =>
          Ret (Some {| entry_with_meta := entry_with_meta; ewm_headers := [] |})
      | entry =>
          headers ← State_get_headers agent cas w fuel address;
          match headers with
          | Err _ => Ret None
          | Ok headers =>
              publishable ← can_publish (Entry_entry_type entry) my_dna;
              Ret (if (publishable : bool)
                   then Some {| entry_with_meta := entry_with_meta; ewm_headers := headers |}
                   else None)
          end
      end
  end.

(** An attribute that is not a link's cannot come out of the query for links
    ([expect]). *)
Definition link_tag_of (eavi : EntityAttributeValueIndex) : Outcome string :=
  match eavi_attribute eavi with
  | Attribute_LinkTag _ tag | Attribute_RemovedLink _ _ tag => Ret tag
  | _ => Panic
  end.

Definition link_data_of (headers : bool) (link_crud : EntityAttributeValueIndex * CrudStatus) :
    Outcome (Result HolochainError GetLinkData) :=
  let '(eavi, crud) := link_crud in
  tag ← link_tag_of eavi;
  r ← get_entry_result_workflow_local agent cas w fuel (eavi_value eavi)
        {| status_request := Latest; want_headers := headers |};
  Ret match r with
      | Err _ => Err (HolochainError_ErrorGeneric "Could not get entry for Link Data ")
      | Ok (Result_All _) => Err (HolochainError_ErrorGeneric "Single Entry required for Get Entry")
      | Ok (Result_Single item) =>
          let data target :=
            {| gld_address := eavi_value eavi; gld_crud_status := crud; gld_target := target;
               gld_tag := tag;
               gld_headers := if headers then Some (item_headers item) else None |} in
          match item_entry item with
          | Some (Entry_LinkAdd link_add) => Ok (data (target (link_data_link link_add)))
          | Some (Entry_LinkRemove link_remove _) => Ok (data (target (link_data_link link_remove)))
          | Some _ => Err (HolochainError_ErrorGeneric "Wrong entry type for Link content")
          | None =>
              Err (HolochainError_ErrorGeneric
                     ("Could not find Entries for  Address :" +:+ eavi_value eavi +:+ ", tag: " +:+ tag))
          end
      end.

(** All the links, or the list of all errors. *)
Definition partition_results {A} (l : list (Result HolochainError A)) :
    Result HolochainError (list A) :=
  match omap (λ r, match r with Err e => Some e | Ok _ => None end) l with
  | [] => Ok (omap result_ok l)
  | errors => Err (HolochainError_List errors)
  end.

Definition query_get_links (base : Address) (link_type tag : option string)
    (crud_status : option CrudStatus) (configuration : GetLinksQueryConfiguration) :
    Outcome (Result HolochainError (list GetLinkData)) :=
  let links :=
    match (get_links to_uppercase base link_type tag crud_status configuration w).1 with
    | Ok l => l
    | Err _ => []
    end in
  results ← outcome_map (link_data_of (config_headers configuration)) links;
  Ret (partition_results results).

Definition default_configuration : GetLinksQueryConfiguration :=
  {| config_headers := false; pagination := None; sort_order := None |}.

Definition handle_query_entry_data (query_data : QueryEntryData) (content : Wire NetworkQuery) :
    Outcome (list Action) :=
  match content with
  | Wire_NotUtf8 => Panic
  | Wire_NotJson => Ret []
  | Wire_Value (NetworkQuery_GetLinks link_type tag options query) =>
      r ← query_get_links (qed_entry_address query_data) link_type tag options
            match query with
            | LinksQuery_Links configuration => configuration
            | LinksQuery_Count => default_configuration
            end;
      Ret match r with
          | Err _ => []
          | Ok links =>
              let links_result :=
                match query with
                | LinksQuery_Links _ => LinksResult_Links links
                | LinksQuery_Count => LinksResult_Count (length links)
                end in
              [Action_RespondQuery query_data (QueryResult_Links links_result link_type tag)]
          end
  | Wire_Value NetworkQuery_GetEntry =>
      maybe_entry ← query_get_entry (qed_entry_address query_data);
      Ret [Action_RespondQuery query_data (QueryResult_Entry maybe_entry)]
  end.

(** *** lists.rs *)

Definition get_all_public_chain_entries : Outcome (list Address) :=
  headers ← iter_chain agent cas fuel;
  published ← outcome_filter can_publish_header headers;
  Ret (map entry_address published).

(** The body of the loop over content aspects; what is not a content aspect, and
    a deletion without a link, panics. *)
Definition author_content (address : Address) (m : AspectMap) (content_aspect : EntryAspect) :
    Outcome AspectMap :=
  let m := insert_aspect m address (EntryAspect_address content_aspect) in
  match content_aspect with
  | Aspect_Content entry header =>
      match entry_to_meta_aspect entry header with
      | Err _ => Panic
      | Ok None => Ret m
      | Ok (Some (base_address, meta_aspect)) =>
          Ret (insert_aspect m base_address (EntryAspect_address meta_aspect))
      end
  | _ => Panic
  end.

Fixpoint outcome_fold {A S} (f : S → A → Outcome S) (s : S) (l : list A) : Outcome S :=
  match l with
  | [] => Ret s
  | x :: l => s ← f s x; outcome_fold f s l
  end.

Definition author_entry (m : AspectMap) (address : Address) : Outcome AspectMap :=
  aspects ← get_content_aspects_from_chain address;
  outcome_fold (author_content address) m aspects.

Definition author_header (m : AspectMap) (chain_header : ChainHeader) : Outcome AspectMap :=
  r ← create_entry_with_header_for_header sign now agent cas fuel chain_header;
  Ret match r with
      | Err _ => m
      | Ok ewh =>
          insert_aspect m (Entry_address (ewh_entry ewh))
            (EntryAspect_address (Aspect_Content (ewh_entry ewh) (ewh_header ewh)))
      end.

Definition create_authoring_map : Outcome AspectMap :=
  addresses ← get_all_public_chain_entries;
  m ← outcome_fold author_entry ∅ addresses;
  headers ← iter_chain agent cas fuel;
  outcome_fold author_header m headers.

Definition handle_get_authoring_list (space provider : Address) (request_id : string) :
    Outcome (list Action) :=
  address_map ← create_authoring_map;
  Ret [Action_RespondAuthoringList
         {| eld_space_address := space; eld_provider_agent_id := provider;
            eld_request_id := request_id; eld_address_map := to_vec_map address_map |}].

Definition handle_get_gossip_list (store : DhtStore) (space provider : Address)
    (request_id : string) : list Action :=
  [Action_RespondGossipList
     {| eld_space_address := space; eld_provider_agent_id := provider;
        eld_request_id := request_id; eld_address_map := to_vec_map (holding_map store) |}].

End handlers.

(** ** Lists of outcomes *)

Lemma outcome_filter_elem {A} (p : A → Outcome bool) l l' x :
  outcome_filter p l = Ret l' → x ∈ l' ↔ x ∈ l ∧ p x = Ret true.
Proof.
  revert l'. induction l as [|y l IH]; intros l' Hl; simpl in Hl.
  - injection Hl as <-. set_solver.
  - destruct (p y) as [b| |] eqn:Hb; simpl in Hl; try done.
    destruct (outcome_filter p l) as [rest| |]; simpl in Hl; try done. injection Hl as <-.
    specialize (IH rest eq_refl). destruct b; rewrite !elem_of_cons, ?IH; intuition congruence.
Qed.

Lemma outcome_filter_map_elem {A B} (f : A → Outcome (option B)) l l' y :
  outcome_filter_map f l = Ret l' → y ∈ l' ↔ ∃ x, x ∈ l ∧ f x = Ret (Some y).
Proof.
  revert l'. induction l as [|x l IH]; intros l' Hl; simpl in Hl.
  - injection Hl as <-. set_solver.
  - destruct (f x) as [o| |] eqn:Ho; simpl in Hl; try done.
    destruct (outcome_filter_map f l) as [rest| |]; simpl in Hl; try done. injection Hl as <-.
    specialize (IH rest eq_refl). split.
    + intros Hy. assert (o = Some y ∨ y ∈ rest) as [->|Hr].
      { destruct o as [z|]; [apply elem_of_cons in Hy as [->|]|]; auto. }
      * exists x. split; [set_solver|done].
      * apply IH in Hr as (x' & ? & ?). exists x'. split; [set_solver|done].
    + intros (x' & [->|Hx']%elem_of_cons & Hf).
      * rewrite Ho in Hf. injection Hf as ->. set_solver.
      * assert (y ∈ rest) by (apply IH; eauto). destruct o; set_solver.
Qed.

Lemma outcome_filter_total {A} (p : A → Outcome bool) l :
  (∀ x, x ∈ l → ∃ b, p x = Ret b) → ∃ l', outcome_filter p l = Ret l'.
Proof.
  induction l as [|x l IH]; intros Hp; simpl; [by eauto|].
  destruct (Hp x) as [b ->]; [set_solver|]. destruct IH as [l' ->]; [set_solver|]. simpl. eauto.
Qed.

Lemma outcome_filter_map_total {A B} (f : A → Outcome (option B)) l :
  (∀ x, x ∈ l → ∃ b, f x = Ret b) → ∃ l', outcome_filter_map f l = Ret l'.
Proof.
  induction l as [|x l IH]; intros Hp; simpl; [by eauto|].
  destruct (Hp x) as [b ->]; [set_solver|]. destruct IH as [l' ->]; [set_solver|]. simpl. eauto.
Qed.

(** A loop that adds to an aspect map: each round adds exactly the pairs of
    [P], so the loop adds those of all its elements, and it returns. *)
Definition adds (P : string → string → Prop) (m : AspectMap) (o : Outcome AspectMap) : Prop :=
  ∃ m', o = Ret m' ∧ ∀ e a, holds m' e a ↔ holds m e a ∨ P e a.

Lemma outcome_fold_adds {A} (P : A → string → string → Prop) f m l :
  (∀ m x, x ∈ l → adds (P x) m (f m x)) →
  adds (λ e a, ∃ x, x ∈ l ∧ P x e a) m (outcome_fold f m l).
Proof.
  revert m. induction l as [|x l IH]; intros m Hf; simpl.
  - exists m. split; [done|]. set_solver.
  - destruct (Hf m x) as (m1 & -> & Hm1); [set_solver|].
    destruct (IH m1) as (m' & Hm' & Hh); [set_solver|]. exists m'. split; [done|].
    intros e a. rewrite Hh, Hm1. split.
    + intros [[?|?]|(y & ? & ?)]; [by left|right; exists x; set_solver|].
      right. exists y. set_solver.
    + intros [?|(y & [->|?]%elem_of_cons & ?)]; [by left; left|by left; right|by right; eauto].
Qed.

(** ** Theorems *)

(** Answers to direct messages.  The handler panics exactly when a peer
    answers a message that was not a request for a validation package with a
    validation package: whoever receives a custom message can bring the sender's
    handler down.  Otherwise it dispatches nothing or two actions, and only for
    a message that is still open: the answer, recorded under the request it
    answers, and the closing of the message. *)
Theorem send_result_spec connections id from content :
  (handle_send_message_result connections id from content = Panic ↔
   ∃ package m, content = Wire_Value (DirectMessage_ValidationPackage package) ∧
     connections !! id = Some m ∧ ∀ key, m ≠ DirectMessage_RequestValidationPackage key) ∧
  (∀ a l, handle_send_message_result connections id from content = Ret (a :: l) →
     l = [Action_ResolveDirectConnection id] ∧
     ((∃ c, content = Wire_Value (DirectMessage_Custom c) ∧ is_Some (connections !! id) ∧
            a = Action_HandleCustomSendResponse id (dm_payload c)) ∨
      (∃ key package, content = Wire_Value (DirectMessage_ValidationPackage package) ∧
            connections !! id = Some (DirectMessage_RequestValidationPackage key) ∧
            a = Action_HandleGetValidationPackage from key package))).
Proof.
  unfold handle_send_message_result.
  destruct content as [| |[c|k|p]]; try (split; [split; [done|by intros (? & ? & ? & _)]|done]).
  - destruct (connections !! id) as [m|]; (split; [split; [done|by intros (? & ? & ? & _)]|]);
      [|done]. intros a l [= <- <-]. split; [done|]. left. eauto 10.
  - destruct (connections !! id) as [m|] eqn:Hc.
    + destruct m as [c|key|p']; (split; [split; [|]|]); try done; try (by intros; simplify_eq).
      * intros _. by exists p, (DirectMessage_Custom c).
      * intros (p1 & m & _ & [= <-] & Hm). by destruct (Hm key).
      * intros a l [= <- <-]. split; [done|]. right. eauto 10.
      * intros _. by exists p, (DirectMessage_ValidationPackage p').
    + split; [split; [done|by intros (? & ? & _ & ? & _)]|done].
Qed.

(** Meta aspects go where they say.  The address under which the aspect
    derived from an entry is published is the address the aspect names, so the
    receiver files it under the entry it is about; an aspect is derived exactly
    for links, deletions and updates of app entries. *)
Theorem meta_aspect_address `{Addressing} entry header :
  match entry_to_meta_aspect entry header with
  | Ok (Some (address, aspect)) =>
      EntryAspect_entry_address aspect = Ok address ∧ EntryAspect_header aspect = header
  | Ok None => (∀ d, entry ≠ Entry_LinkAdd d) ∧ (∀ d l, entry ≠ Entry_LinkRemove d l) ∧
      (∀ d, entry ≠ Entry_Deletion d) ∧
      (∀ t v, entry = Entry_App t v → link_update_delete header = None)
  | Err _ => (∃ d, entry = Entry_Deletion d) ∧ link_update_delete header = None
  end.
Proof.
  unfold entry_to_meta_aspect.
  destruct entry; simpl; try (by split_and!);
    destruct (link_update_delete header) as [a|] eqn:Hl; simpl; rewrite ?Hl; simpl; split_and?;
    rewrite ?Hl; eauto 10; try done; intros; simplify_eq.
Qed.

Section privacy.
Context `{Storage} `{Addressing}.
Variable sign : string → Result HolochainError string.
Variable now : SystemTime.
Variable agent : AgentState.
Variable cas : Cas.
Variable w : World.
Variable my_dna : option Dna.
Variable fuel : nat.

(** C28: a query does not reveal private entries, a fetch does.  Take an entry
    that the DHT storage holds, as it holds every entry the agent commits, of a
    type that is not published.  A query for its address is answered with
    nothing; a request to fetch it is answered with the entry's content under
    each of its headers. *)
Theorem private_entries_are_fetched address entry headers metas eav_metas h :
  get (w_cas w) address = Ok (Some entry) →
  (∀ c, entry ≠ Entry_ChainHeader c) →
  can_publish (Entry_entry_type entry) my_dna = Ret false →
  State_get_headers agent cas w fuel address = Ret (Ok headers) → h ∈ headers →
  get_meta_aspects_from_chain agent cas my_dna fuel address = Ret metas →
  get_meta_aspects_from_dht_eav agent cas w fuel address = Ret eav_metas →
  query_get_entry agent cas w my_dna fuel address = Ret None ∧
  ∃ aspects, fetch_aspects_for_entry agent cas w my_dna fuel address = Ret aspects ∧
             Aspect_Content entry h ∈ aspects.
Proof.
  intros Hg Hne Hp Hh Hin Hm He. split.
  - unfold query_get_entry. destruct (get_entry_with_meta w address) as [[m|]|] eqn:Hw; [|done..].
    assert (ewm_entry m = entry) as ->.
    { unfold get_entry_with_meta in Hw. rewrite Hg in Hw. cbn [mbind Result_bind] in Hw.
      destruct entry; simplify_eq/=; try done;
        destruct (get_entry_crud_meta_from_dht w address) as [[[]|]|]; by simplify_eq/=. }
    destruct entry; try (by destruct (Hne header)); rewrite Hh; cbn [mbind Outcome_bind];
      by rewrite Hp.
  - unfold fetch_aspects_for_entry, get_content_aspects. rewrite Hg, Hh. cbn [mbind Outcome_bind].
    rewrite Hm. cbn [mbind Outcome_bind]. rewrite He. cbn [mbind Outcome_bind].
    eexists. split; [done|]. apply elem_of_app. left. apply list_elem_of_In, in_map.
    by apply list_elem_of_In.
Qed.

End privacy.

Section authoring.
Context `{Storage} `{AddressingLaws}.
Variable sign : string → Result HolochainError string.
Variable now : SystemTime.
Variable agent : AgentState.
Variable cas : Cas.
Variable my_dna : option Dna.
Variable fuel : nat.
Variable l : list ChainHeader.

Local Abbreviation virtual := (create_entry_with_header_for_header sign now agent cas fuel).

(** The pairs (entry, aspect) announced for a header of the chain: for a
    published entry its content and the meta aspect it gives rise to, and for
    every header the header as an entry of its own. *)
Definition announces_content (h : ChainHeader) (entry : Entry) (e a : string) : Prop :=
  (e = entry_address h ∧ a = EntryAspect_address (Aspect_Content entry h)) ∨
  (∃ aspect, entry_to_meta_aspect entry h = Ok (Some (e, aspect)) ∧ a = EntryAspect_address aspect).
Definition announces_entry (h : ChainHeader) (e a : string) : Prop :=
  can_publish_header my_dna h = Ret true ∧
  ∃ entry, get cas (entry_address h) = Ok (Some entry) ∧ announces_content h entry e a.
Definition announces_header (h : ChainHeader) (e a : string) : Prop :=
  ∃ ewh, virtual h = Ret (Ok ewh) ∧ e = ChainHeader_address h ∧
    a = EntryAspect_address (Aspect_Content (Entry_ChainHeader h) (ewh_header ewh)).

(** The chain is intact, the DNA tells for each entry whether it is published,
    the deletions name what they delete, and no header is also the entry of a
    header of the chain. *)
Record authoring_ready : Prop := {
  ready_chain : agent_inv l (agent, cas);
  ready_fuel : length l < fuel;
  ready_now : (0 ≤ now)%Z;
  ready_types : ∀ h, h ∈ l → ∃ b, can_publish_header my_dna h = Ret b;
  ready_deletions : ∀ h d, h ∈ l → get cas (entry_address h) = Ok (Some (Entry_Deletion d)) →
    link_update_delete h ≠ None;
  ready_headers : ∀ h h', h ∈ l → h' ∈ l → ChainHeader_address h ≠ entry_address h' }.

Hypothesis ready : authoring_ready.

Lemma iter_chain_ready : iter_chain agent cas fuel = Ret l.
Proof.
  destruct ready as [[Hc Ht] Hf _ _ _ _]. simpl in *. unfold iter_chain. rewrite Ht.
  erewrite run_iter_yields by (eauto using chain_yields). simpl. f_equal.
  by apply list_filter_all; intros.
Qed.

Lemma virtual_ready h :
  ∃ r, virtual h = Ret r ∧ ∀ ewh, r = Ok ewh → ewh_entry ewh = Entry_ChainHeader h.
Proof.
  destruct ready as [[Hc Ht] Hf Hn _ _ _]. simpl in *. unfold create_entry_with_header_for_header.
  erewrite create_new_chain_header_chain by done. cbn [mbind Outcome_bind].
  destruct (sign _); cbn [mbind Result_bind]; eexists; split; [done| |done|]; intros; by simplify_eq/=.
Qed.

Lemma author_header_adds m h : adds (announces_header h) m (author_header sign now agent cas fuel m h).
Proof.
  unfold author_header, announces_header. destruct (virtual_ready h) as ([ewh|e] & Hv & He);
    rewrite Hv; cbn [mbind Outcome_bind]; eexists; (split; [done|]); intros e' a.
  - rewrite holds_insert_aspect, (He ewh) by done. split.
    + intros [[-> ->]|?]; [right; by exists ewh|by left].
    + intros [?|(? & [= <-] & -> & ->)]; [by right|by left].
  - split; [by left|]. by intros [?|(? & ? & _)].
Qed.

Lemma author_content_adds m h entry :
  h ∈ l → get cas (entry_address h) = Ok (Some entry) →
  adds (announces_content h entry) m
    (author_content (entry_address h) m (Aspect_Content entry h)).
Proof.
  intros Hh Hg. unfold author_content, announces_content.
  assert (∃ o, entry_to_meta_aspect entry h = Ok o) as [o Ho].
  { unfold entry_to_meta_aspect. destruct entry; simpl; eauto;
      destruct (link_update_delete h) as [b|] eqn:Hl; simpl; rewrite ?Hl; simpl; eauto.
    by destruct (ready_deletions ready h _ Hh Hg). }
  rewrite Ho. destruct o as [[e' asp]|]; eexists; (split; [done|]); intros e a;
    rewrite !holds_insert_aspect; split.
  - intros [[-> ->]|[?|?]]; [right; right; eauto|right; by left|by left].
  - intros [?|[?|(? & [= <- <-] & ->)]]; [by right; right|by right; left|by left].
  - intros [?|?]; [right; by left|by left].
  - intros [?|[?|(? & ? & _)]]; [by right|by left|done].
Qed.

(** The content aspects of an entry of the chain: its content under each of the
    headers that publish it. *)
Lemma content_aspects_ready address :
  (∃ h0, h0 ∈ l ∧ entry_address h0 = address) →
  ∃ aspects, get_content_aspects_from_chain sign now agent cas my_dna fuel address = Ret aspects ∧
    ∀ asp, asp ∈ aspects ↔ ∃ h entry, h ∈ l ∧ can_publish_header my_dna h = Ret true ∧
      entry_address h = address ∧ get cas address = Ok (Some entry) ∧ asp = Aspect_Content entry h.
Proof.
  intros (h0 & Hh0 & <-). unfold get_content_aspects_from_chain. rewrite iter_chain_ready.
  cbn [mbind Outcome_bind].
  match goal with |- context [outcome_filter_map ?f l] => set (test := f) end.
  assert (Htest : ∀ h, h ∈ l → ∃ o, test h = Ret o ∧ ∀ asp, o = Some asp ↔
    can_publish_header my_dna h = Ret true ∧ entry_address h = entry_address h0 ∧
    ∃ entry, get cas (entry_address h0) = Ok (Some entry) ∧ asp = Aspect_Content entry h).
  { intros h Hh. unfold test. destruct (ready_types ready h Hh) as [b ->].
    cbn [mbind Outcome_bind]. rewrite (bool_decide_false (ChainHeader_address h = _))
      by (by apply (ready_headers ready)).
    destruct b; simpl; [|eexists; split; [done|]; intros asp; by split; [|intros (? & _)]].
    case_bool_decide as Ha; [|eexists; split; [done|]; intros asp; by split; [|intros (_ & ? & _)]].
    destruct (get cas _) as [[entry|]|]; eexists; (split; [done|]); intros asp;
      (split; [|intros (_ & _ & ? & ? & ->)]); intros; simplify_eq; eauto. }
  destruct (outcome_filter_map_total test l) as [aspects Ht].
  { intros h Hh. destruct (Htest h Hh) as (o & ? & _). eauto. }
  exists aspects. split; [done|]. intros asp. rewrite (outcome_filter_map_elem _ _ _ _ Ht). split.
  - intros (h & Hh & Hr). destruct (Htest h Hh) as (o & Ho & Hs). rewrite Ho in Hr.
    injection Hr as ->. destruct (proj1 (Hs asp) eq_refl) as (? & ? & entry & ? & ?). by exists h, entry.
  - intros (h & entry & Hh & Hp & Ha & Hg & ->). exists h. split; [done|].
    destruct (Htest h Hh) as (o & -> & Hs). f_equal. apply Hs. eauto.
Qed.

Lemma author_entry_adds m address :
  (∃ h0, h0 ∈ l ∧ entry_address h0 = address) →
  adds (λ e a, ∃ h, h ∈ l ∧ entry_address h = address ∧ announces_entry h e a) m
    (author_entry sign now agent cas my_dna fuel m address).
Proof.
  intros Ha. destruct (content_aspects_ready _ Ha) as (aspects & Hr & Hin).
  unfold author_entry. rewrite Hr. cbn [mbind Outcome_bind].
  destruct (outcome_fold_adds (λ asp e a, ∃ h entry, asp = Aspect_Content entry h ∧
              announces_content h entry e a) (author_content address) m aspects)
    as (m' & Hm' & Hh).
  - intros m0 asp (h & entry & Hh & _ & <- & Hg & ->)%Hin.
    destruct (author_content_adds m0 h entry Hh Hg) as (m1 & ? & Hm1). exists m1. split; [done|].
    intros e a. rewrite Hm1. split; [intros [?|?]; [by left|right; eauto]|].
    intros [?|(? & ? & [= <- <-] & ?)]; [by left|by right].
  - exists m'. split; [done|]. intros e a. rewrite Hh. apply or_iff_compat_l. split.
    + intros (asp & (h & entry & ? & ? & <- & ? & ->)%Hin & ? & ? & [= <- <-] & ?).
      exists h. split; [done|]. split; [done|]. split; [done|]. by exists entry.
    + intros (h & ? & <- & ? & entry & ? & ?). exists (Aspect_Content entry h).
      split; [apply Hin; by exists h, entry|by exists h, entry].
Qed.

End authoring.

(** C27: the authoring list.  On an intact chain the list that is gossiped to
    the peers is built without panicking, and it announces exactly the content
    and the meta aspect of every entry the DNA publishes, and the header of every
    entry, published or not. *)
Theorem authoring_map_spec `{Storage} `{AddressingLaws} sign now agent cas my_dna fuel l :
  authoring_ready now agent cas my_dna fuel l →
  ∃ m, create_authoring_map sign now agent cas my_dna fuel = Ret m ∧
    ∀ e a, holds m e a ↔ ∃ h, h ∈ l ∧
      (announces_entry cas my_dna h e a ∨ announces_header sign now agent cas fuel h e a).
Proof.
  intros ready. unfold create_authoring_map, get_all_public_chain_entries.
  rewrite (iter_chain_ready _ _ _ _ _ _ ready). cbn [mbind Outcome_bind].
  destruct (outcome_filter_total (can_publish_header my_dna) l) as [published Hp].
  { apply (ready_types _ _ _ _ _ _ ready). }
  rewrite Hp. cbn [mbind Outcome_bind].
  assert (Hpub : ∀ address, address ∈ map entry_address published ↔
    ∃ h, h ∈ l ∧ can_publish_header my_dna h = Ret true ∧ entry_address h = address).
  { intros address. rewrite list_elem_of_fmap. setoid_rewrite (outcome_filter_elem _ _ _ _ Hp).
    split; [intros (h & -> & ? & ?)|intros (h & ? & ? & <-)]; eauto. }
  destruct (outcome_fold_adds _ (author_entry sign now agent cas my_dna fuel) ∅
              (map entry_address published)
              (λ m address Ha, author_entry_adds sign _ _ _ _ _ _ ready m address
                 (let '(ex_intro _ h (conj Hh (conj _ He))) := proj1 (Hpub address) Ha in
                  ex_intro _ h (conj Hh He))))
    as (m & -> & Hm). cbn [mbind Outcome_bind].
  destruct (outcome_fold_adds _ (author_header sign now agent cas fuel) m l
              (λ m h _, author_header_adds sign _ _ _ _ _ _ ready m h)) as (m' & -> & Hm').
  exists m'. split; [done|]. intros e a. rewrite Hm', Hm. split.
  - intros [[[]%holds_empty|(? & _ & h & ? & <- & ?)]|(h & ? & ?)]; exists h; auto.
  - intros (h & Hh & [He|?]); [|by right; eauto]. left. right. exists (entry_address h).
    split; [apply Hpub; exists h; by destruct He|]. by exists h.
Qed.

(** ** Concrete instances *)

Section witnesses.
#[local] Existing Instance memory_storage.
#[local] Existing Instance toy_addressing.
#[local] Existing Instance toy_addressing_laws.

Definition ex_sign (_ : string) : Result HolochainError string := Ok "sig"%string.

(** The agent of an app that keeps notes private commits a note; the conductor
    gives the chain and the DHT one storage. *)
Definition note : Entry := Entry_App "note" "secret".
Definition noted : AgentState * @Cas memory_storage :=
  match Agent.reduce_commit_entry ex_sign 5000000000 reader reader_cas 1 "id" note None [] with
  | Ret s => s
  | _ => (reader, reader_cas)
  end.
Definition noted_world : World := {| w_cas := noted.2; w_eav := [] |}.
Definition note_header : ChainHeader :=
  default (post_header "" None 0) (agent_top_chain_header noted.1).

Lemma private_entries_are_fetched_witness :
  query_get_entry noted.1 noted.2 noted_world (Some ex_dna) 3 (Entry_address note) = Ret None ∧
  ∃ aspects, fetch_aspects_for_entry noted.1 noted.2 noted_world (Some ex_dna) 3
               (Entry_address note) = Ret aspects ∧ Aspect_Content note note_header ∈ aspects.
Proof.
  eapply (private_entries_are_fetched noted.1 noted.2 noted_world (Some ex_dna) 3
            (Entry_address note) note [note_header]);
    try (vm_compute; reflexivity); [done|apply list_elem_of_singleton; reflexivity].
Defined.

Lemma authoring_map_spec_witness :
  ∃ m, create_authoring_map ex_sign 7 noted.1 noted.2 (Some ex_dna) 3 = Ret m ∧
    ∀ e a, holds m e a ↔ ∃ h, h ∈ [note_header] ∧
      (announces_entry noted.2 (Some ex_dna) h e a ∨
       announces_header ex_sign 7 noted.1 noted.2 3 h e a).
Proof.
  apply (authoring_map_spec ex_sign 7 noted.1 noted.2 (Some ex_dna) 3 [note_header]). split.
  - split; [|vm_compute; reflexivity].
    constructor; [vm_compute; reflexivity|vm_compute; reflexivity|vm_compute; reflexivity|constructor].
  - simpl. lia.
  - lia.
  - intros h ->%list_elem_of_singleton. eexists. vm_compute. reflexivity.
  - intros h d ->%list_elem_of_singleton Hg. vm_compute in Hg. discriminate Hg.
  - intros h h' ->%list_elem_of_singleton ->%list_elem_of_singleton Heq. vm_compute in Heq.
    discriminate Heq.
Defined.

End witnesses.
