(* ===== verification/Instance.v ===== *)
(** * The instance: the state of the application and its life cycle

    Models [core/src/state.rs] (the store and the root reducer),
    [core/src/persister.rs] (snapshots), [core/src/consistency.rs] (the signals
    that let a test harness wait for consistency) and the processing of one
    action of [core/src/instance.rs].

    The chain and the DHT share one content-addressable storage, as every
    constructor of the conductor's context builder sets them up; so does the
    persister.  A reducer therefore sees what the reducers before it wrote, and
    the theorems account for it: the source chain, the queue of validations and
    the timeouts stay sound under every action and across restarts, whatever was
    saved before them; a restart from a saved state gives back the chain, the DNA and
    the pending validations; an agent entry can take the place of a snapshot; and what
    a published entry promises the harness is what its validators announce. *)

From stdpp Require Import base strings list gmap.
From Stdlib Require Import ZArith.
From S2P Require Import Prelude Errors CoreTypes Dna Storage Action Instances ContentStore Agent.
From S2P Require Import Network Nucleus AspectMap DhtStore DhtReducers HoldingQueue.

(** ** state.rs *)

Record State : Type := {
  st_nucleus : NucleusState;
  st_agent : AgentState;
  st_dht : DhtStore;
  st_network : NetworkState;
}.

Record AgentStateSnapshot : Type := { snapshot_top_chain_header : option ChainHeader }.

Definition AgentStateSnapshot_from (state : State) : AgentStateSnapshot :=
  {| snapshot_top_chain_header := agent_top_chain_header (st_agent state) |}.

Definition State_new (agent_address : Address) : State :=
  {| st_nucleus := NucleusState_new; st_agent := AgentState_new agent_address;
     st_dht := DhtStore_new; st_network := NetworkState_new |}.

(** What a reduction reads from outside the state: the readings of the clock, the
    signing service, the transport, the outcome of connecting and the id of a
    new message. *)
Record Env : Type := {
  env_now_agent : SystemTime;
  env_now_dht : SystemTime;
  env_now_network : SystemTime;
  env_sign : string → Result HolochainError string;
  env_send : ClientMsg → Result string ();
  env_connect : bool;
  env_fresh : string;
}.

Section instance.
Context `{Storage} `{Addressing}.

(** The root reducer: each slice is reduced from the old state, in this order;
    the storages are shared. *)
Definition State_reduce (env : Env) (fuel : nat) (self : State) (w : World)
    (action_wrapper : ActionWrapper) : Outcome (State * World) :=
  let nucleus := Nucleus.reduce (st_nucleus self) action_wrapper in
  '(agent, cas) ← Agent.reduce (env_sign env) (env_now_agent env) (st_agent self) (w_cas w) fuel
                    action_wrapper;
  '(dht, w) ← DhtReducers.reduce (env_now_dht env) (st_dht self)
                {| w_cas := cas; w_eav := w_eav w |} action_wrapper;
  network ← Network.reduce (env_send env) (env_sign env) (env_now_network env) (st_network self)
              (dna (st_nucleus self)) (st_agent self) (w_cas w) fuel (env_connect env)
              (env_fresh env) action_wrapper;
  Ret ({| st_nucleus := nucleus; st_agent := agent; st_dht := dht; st_network := network |}, w).

(** The DNA of the source chain: the entry of its oldest DNA header ([last]). *)
Definition dna_of_header (cas : Cas) (dna_entry_header : ChainHeader) : Result HolochainError Dna :=
  match cas_fetch cas (entry_address dna_entry_header) with
  | Err e => Err (HolochainError_from_persistence e)
  | Ok None => Err (HolochainError_ErrorGeneric
      "No DNA entry found in storage while creating state from agent")
  | Ok (Some json) =>
      match entry_of_json json with
      | Some (Entry_Dna dna) => Ok dna
      | Some _ => Err (HolochainError_SerializationError "Tried to get Dna from non-Dna Entry")
      | None => Err (HolochainError_SerializationError json)
      end
  end.

Definition get_dna (agent_state : AgentState) (cas : Cas) (fuel : nat) :
    Outcome (Result HolochainError Dna) :=
  first ← iter_type cas fuel (agent_top_chain_header agent_state) EntryType_Dna;
  headers ← run_iter (ChainStoreTypeIterator_next cas) (λ _, true) fuel 0 None first;
  Ret match last headers with
      | None => Err (HolochainError_ErrorGeneric
          "No DNA entry found in source chain while creating state from agent")
      | Some dna_entry_header => dna_of_header cas dna_entry_header
      end.

Definition with_dna (nucleus_state : NucleusState) (d : option Dna) : NucleusState :=
  {| status := status nucleus_state; dna := d;
     queued_zome_calls := queued_zome_calls nucleus_state;
     running_zome_calls := running_zome_calls nucleus_state;
     hdk_function_calls := hdk_function_calls nucleus_state;
     zome_call_results := zome_call_results nucleus_state |}.

Definition State_new_with_agent_nucleus_dht (agent_state : AgentState)
    (nucleus_state : NucleusState) (dht_store : DhtStore) (cas : Cas) (fuel : nat) :
    Outcome State :=
  d ← get_dna agent_state cas fuel;
  Ret {| st_nucleus := with_dna nucleus_state (result_ok d); st_agent := agent_state;
         st_dht := dht_store; st_network := NetworkState_new |}.

Definition State_try_from_snapshots (now : SystemTime) (agent_address : Address) (cas : Cas)
    (fuel : nat) (agent_snapshot : AgentStateSnapshot) (nucleus_snapshot : NucleusStateSnapshot)
    (dht_store_snapshot : DhtStoreSnapshot) : Outcome (Result HolochainError State) :=
  state ← State_new_with_agent_nucleus_dht
    (AgentState_new_with_top_chain_header (snapshot_top_chain_header agent_snapshot) agent_address)
    (NucleusState_from_snapshot nucleus_snapshot) (new_from_snapshot now dht_store_snapshot)
    cas fuel;
  Ret (Ok state).

(** ** persister.rs

    The snapshots are stored as JSON ([serde]) at fixed addresses. *)
Record SnapshotCodec : Type := {
  agent_to_json : AgentStateSnapshot → JsonString;
  agent_of_json : JsonString → option AgentStateSnapshot;
  nucleus_to_json : NucleusStateSnapshot → JsonString;
  nucleus_of_json : JsonString → option NucleusStateSnapshot;
  dht_to_json : DhtStoreSnapshot → JsonString;
  dht_of_json : JsonString → option DhtStoreSnapshot;
}.

Definition AGENT_SNAPSHOT_ADDRESS : Address := "AgentState".
Definition NUCLEUS_SNAPSHOT_ADDRESS : Address := "NucleusState".
Definition DHT_STORE_SNAPSHOT_ADDRESS : Address := "DhtStore".

Variable codec : SnapshotCodec.

(** [store.add(..)?]: the conversion of the error, and what was added before. *)
Definition add_snapshot (address : Address) (content : JsonString) (cas : Cas) :
    Result HolochainError () * Cas :=
  let '(r, cas) := cas_add cas address content in
  (map_err HolochainError_from_persistence r, cas).

Definition save (state : State) (cas : Cas) : Result HolochainError () * Cas :=
  match add_snapshot AGENT_SNAPSHOT_ADDRESS
          (agent_to_json codec (AgentStateSnapshot_from state)) cas with
  | (Err e, cas) => (Err e, cas)
  | (Ok _, cas) =>
      match add_snapshot NUCLEUS_SNAPSHOT_ADDRESS
              (nucleus_to_json codec (NucleusStateSnapshot_from (st_nucleus state))) cas with
      | (Err e, cas) => (Err e, cas)
      | (Ok _, cas) =>
          add_snapshot DHT_STORE_SNAPSHOT_ADDRESS
            (dht_to_json codec (DhtStoreSnapshot_from (st_dht state))) cas
      end
  end.

(** A content that is not a snapshot panics ([expect]). *)
Definition fetch_snapshot {A} (of_json : JsonString → option A) (address : Address) (cas : Cas) :
    Outcome (Result HolochainError (option A)) :=
  match cas_fetch cas address with
  | Err e => Ret (Err (HolochainError_from_persistence e))
  | Ok None => Ret (Ok None)
  | Ok (Some content) => snapshot ← unwrap (of_json content); Ret (Ok (Some snapshot))
  end.

Definition load (now : SystemTime) (agent_address : Address) (cas : Cas) (fuel : nat) :
    Outcome (Result HolochainError (option State)) :=
  a ← fetch_snapshot (agent_of_json codec) AGENT_SNAPSHOT_ADDRESS cas;
  match a with
  | Err e => Ret (Err e)
  | Ok agent_snapshot =>
      n ← fetch_snapshot (nucleus_of_json codec) NUCLEUS_SNAPSHOT_ADDRESS cas;
      match n with
      | Err e => Ret (Err e)
      | Ok nucleus_snapshot =>
          d ← fetch_snapshot (dht_of_json codec) DHT_STORE_SNAPSHOT_ADDRESS cas;
          match d with
          | Err e => Ret (Err e)
          | Ok dht_store_snapshot =>
              match agent_snapshot, nucleus_snapshot, dht_store_snapshot with
              | Some a, Some n, Some d =>
                  state ← State_try_from_snapshots now agent_address cas fuel a n d;
                  Ret (Ok (result_ok state))
              | _, _, _ => Ret (Ok None)
              end
          end
      end
  end.

(** ** instance.rs

    [Instance::process_action].  Without the lock on the state nothing happens
    and the action loop tries again; when the persister is locked the state is
    not saved. *)
Definition process_action (env : Env) (fuel : nat) (state_lock persister_lock : bool)
    (self : State) (w : World) (action_wrapper : ActionWrapper) :
    Outcome (Result HolochainError () * State * World) :=
  if negb state_lock then Ret (Err (HolochainError_Timeout "timeout src: "), self, w)
  else
    '(new_state, w) ← State_reduce env fuel self w action_wrapper;
    let cas := if persister_lock then (save new_state (w_cas w)).2 else w_cas w in
    Ret (Ok (), new_state, {| w_cas := cas; w_eav := w_eav w |}).

End instance.

(** The addresses of the snapshots. *)
Definition snapshot_addresses : list Address :=
  [AGENT_SNAPSHOT_ADDRESS; NUCLEUS_SNAPSHOT_ADDRESS; DHT_STORE_SNAPSHOT_ADDRESS].

(** ** The stored chain and the snapshots under the other writers of the storage *)

Section keeps.
Context `{StorageLaws} `{Addressing}.
Context (hash_inj : Inj (=) (=) encode_from_str).

(** No content has the address of a snapshot as its hash. *)
Context (snapshot_not_hash : ∀ c, encode_from_str c ∉ snapshot_addresses).

(** Every stored header stays in place, and so do the snapshots. *)
Definition storage_extends (cas cas' : Cas) : Prop :=
  (∀ h, stored cas h → stored cas' h) ∧
  ∀ a, a ∈ snapshot_addresses → cas_fetch cas' a = cas_fetch cas a.

#[export] Instance storage_extends_preorder : PreOrder storage_extends.
Proof.
  split; [by split|]. intros c1 c2 c3 [Hs1 Ha1] [Hs2 Ha2]. split; [by auto|].
  intros a Ha. by rewrite Ha2, Ha1.
Qed.

(** The address of an entry is not that of a snapshot, nor a hash when it is a key. *)
Definition sound_entry (entry : Entry) : Prop :=
  key_not_hash entry ∧ Entry_address entry ∉ snapshot_addresses.

Lemma add_entry_extends cas e : sound_entry e → storage_extends cas (add_entry cas e).2.
Proof.
  intros [Hk Hn]. destruct (add_entry cas e) as [r cas'] eqn:Ha. split; cbn [snd].
  - by eapply add_entry_spec.
  - intros a Hin. revert Ha. unfold add_entry.
    pose proof (cas_add_fetch cas (Entry_address e) (Entry_content e)) as Hf.
    pose proof (cas_add_failed cas (Entry_address e) (Entry_content e)) as He.
    destruct (cas_add cas _ _) as [[[]|err] cas1]; cbn in *; intros [= _ <-].
    + rewrite Hf by done. case_decide; [congruence|done].
    + by rewrite (He err).
Qed.

Lemma add_header_extends cas h : storage_extends cas (add_header cas h).2.
Proof.
  destruct (add_header cas h) as [r cas'] eqn:Ha.
  destruct (add_header_spec hash_inj _ _ _ _ Ha) as (Hs & _ & Hf). split; [done|].
  intros a Hin. apply Hf. intros ->. by apply (snapshot_not_hash (ChainHeader_content h)).
Qed.

(** The computation leaves all this in place. *)
Definition keeps {A} (m : M A) : Prop := ∀ w, storage_extends (w_cas w) (w_cas (m w).2).

Lemma write_keeps_bind {A B} (m : M A) (f : A → M B) : keeps m → (∀ x, keeps (f x)) → keeps (m ≫= f).
Proof.
  intros Hm Hf w. specialize (Hm w). unfold mbind, M_bind.
  destruct (m w) as [[x|e] w1]; simpl in *; [|done]. by etrans; [|apply Hf].
Qed.
Lemma write_keeps_ret {A} (x : A) : keeps (mret x).
Proof. by intros w. Qed.
Lemma write_keeps_lift {A} (r : Result HolochainError A) : keeps (lift r).
Proof. by intros w. Qed.
Lemma keeps_lift_p {A} (r : Result PersistenceError A) : keeps (lift_p r).
Proof. by intros w. Qed.
Lemma keeps_map_err {A} f (m : M A) : keeps m → keeps (m_map_err f m).
Proof. intros Hm w. specialize (Hm w). unfold m_map_err. by destruct (m w). Qed.
Lemma write_keeps_get a : keeps (m_get a).
Proof. by intros w. Qed.
Lemma keeps_contains a : keeps (m_contains a).
Proof. by intros w. Qed.
Lemma keeps_fetch_eavi q : keeps (fetch_eavi q).
Proof. by intros w. Qed.
Lemma keeps_add_eavi e : keeps (add_eavi e).
Proof. intros w. unfold add_eavi. by destruct (eav_add (w_eav w) e). Qed.
Lemma keeps_add_entry e : sound_entry e → keeps (m_add_entry e).
Proof.
  intros Hk w. pose proof (add_entry_extends (w_cas w) e Hk) as He. unfold m_add_entry.
  by destruct (add_entry (w_cas w) e).
Qed.
Lemma keeps_add_header h : keeps (m_add_header h).
Proof.
  intros w. pose proof (add_header_extends (w_cas w) h) as Hh. unfold m_add_header.
  by destruct (add_header (w_cas w) h).
Qed.
#[local] Hint Resolve write_keeps_bind write_keeps_ret write_keeps_lift keeps_lift_p keeps_map_err write_keeps_get
  keeps_contains keeps_fetch_eavi keeps_add_eavi keeps_add_entry keeps_add_header : core.

Variable now : SystemTime.

Lemma keeps_store_entry e : sound_entry e → keeps (reduce_store_entry_inner now e).
Proof. unfold reduce_store_entry_inner. auto 10. Qed.
Lemma keeps_header_for_entry e h : keeps (add_header_for_entry now e h).
Proof. unfold add_header_for_entry. auto 10. Qed.
Lemma keeps_link d a md h : keeps (reduce_add_remove_link_inner d a md h).
Proof. unfold reduce_add_remove_link_inner. apply write_keeps_bind; [auto|]. intros []; auto 10. Qed.
Lemma keeps_update old new : keeps (reduce_update_entry_inner now old new).
Proof. unfold reduce_update_entry_inner. auto 12. Qed.
Lemma keeps_remove old del : keeps (reduce_remove_entry_inner now old del).
Proof.
  unfold reduce_remove_entry_inner. apply write_keeps_bind; [auto|]. intros e. apply write_keeps_bind; [auto|].
  intros entry. destruct (is_sys _); [auto|]. apply write_keeps_bind; [auto|]. intros evs.
  destruct (forallb is_live evs); simpl; auto 10.
Qed.

Lemma keeps_remove_links d h l acc w :
  storage_extends (w_cas w) (w_cas (remove_links d h l acc w).2).
Proof.
  revert acc w. induction l as [|a l IH]; intros acc w; simpl; [done|].
  pose proof (keeps_link d a LinkModification_Remove h w) as Hk.
  destruct (reduce_add_remove_link_inner _ _ _ _ w) as [r w1]. by etrans; [|apply IH].
Qed.

(** The aspects a node may be asked to hold. *)
Definition sound_aspect (aspect : EntryAspect) : Prop :=
  match aspect with Aspect_Content e _ => sound_entry e | _ => True end.

Lemma hold_aspect_keeps aspect w :
  sound_aspect aspect → storage_extends (w_cas w) (w_cas (hold_aspect_inner now aspect w).2).
Proof.
  intros Ha. unfold hold_aspect_inner.
  destruct aspect as [e h1|h1|d h1|d ls h1|e h1|h1]; simpl in Ha; try done.
  - pose proof (keeps_store_entry e Ha w) as Hk.
    destruct (reduce_store_entry_inner now e w) as [[[]|err] w1]; [|done].
    pose proof (keeps_header_for_entry e h1 w1) as Hk'.
    destruct (add_header_for_entry now e h1 w1) as [[[]|err] w2]; by etrans.
  - pose proof (keeps_link d (Entry_address (Entry_LinkAdd d)) LinkModification_Add h1 w) as Hk.
    by destruct (reduce_add_remove_link_inner _ _ _ _ w).
  - pose proof (keeps_remove_links d h1 ls (Ok ()) w) as Hk. by destruct (remove_links _ _ _ _ w).
  - destruct (link_update_delete h1) as [a|]; [|done].
    pose proof (keeps_update a (Entry_address e) w) as Hk.
    by destruct (reduce_update_entry_inner _ _ _ w).
  - destruct (link_update_delete h1) as [a|]; [|done].
    pose proof (keeps_remove a (entry_address h1) w) as Hk.
    by destruct (reduce_remove_entry_inner _ _ _ w).
Qed.

(** Actions whose entries and aspects are sound, and whose requests have a
    timeout. *)
Definition sound_input (a : Action) : Prop :=
  with_timeout a ∧
  match a with
  | Action_Commit entry _ _ => sound_entry entry
  | Action_HoldAspect aspect _ => sound_aspect aspect
  | _ => True
  end.

Lemma sound_input_action a : sound_input a → sound_action a.
Proof. intros [_ Ha]. destruct a; try done. apply Ha. Qed.

Lemma dht_reduce_keeps store w aw store' w' :
  sound_input (aw_action aw) → DhtReducers.reduce now store w aw = Ret (store', w') →
  storage_extends (w_cas w) (w_cas w').
Proof.
  intros (_ & Ha) Hr. unfold DhtReducers.reduce in Hr.
  destruct (aw_action aw); simpl in *; try (by simplify_eq/=).
  - unfold DhtReducers.reduce_commit_entry in Hr.
    pose proof (keeps_store_entry entry Ha w) as Hk.
    destruct (reduce_store_entry_inner now entry w) as [[[]|e] w1]; by simplify_eq/=.
  - destruct (reduce_queue_holding_workflow _ _ _); by simplify_eq/=.
  - unfold reduce_hold_aspect in Hr. pose proof (hold_aspect_keeps aspect w Ha) as Hk.
    destruct (hold_aspect_inner now aspect w) as [[[[]|e]|] w1]; simplify_eq/=; [|done..].
    destruct (mark_aspect_as_held store aspect); by simplify_eq/=.
Qed.

Lemma store_commit_keeps agent cas entry header :
  sound_entry entry → storage_extends cas (store_commit agent cas entry header).2.
Proof.
  intros He. unfold store_commit. destruct header as [h|e]; [|done].
  pose proof (add_entry_extends cas entry He) as Hk. destruct (add_entry cas entry) as [[[]|e] cas1]; [|done].
  pose proof (add_header_extends cas1 h) as Hh. destruct (add_header cas1 h) as [[[]|e] cas2]; by etrans.
Qed.

Lemma agent_reduce_keeps sign agent cas fuel aw agent' cas' :
  sound_input (aw_action aw) → Agent.reduce sign now agent cas fuel aw = Ret (agent', cas') →
  storage_extends cas cas'.
Proof.
  intros [_ Ha] Hr. unfold Agent.reduce in Hr. destruct (aw_action aw); try (by simplify_eq/=).
  unfold Agent.reduce_commit_entry in Hr.
  destruct (create_new_chain_header _ _ _ _ _ _) as [header| |]; simplify_eq/=.
  pose proof (store_commit_keeps agent cas entry header Ha) as Hk.
  destruct (store_commit agent cas entry header) as [[result agent1] cas1]. by simplify_eq/=.
Qed.

Lemma chain_keeps cas cas' l :
  (∀ h, stored cas h → stored cas' h) → chain cas l → chain cas' l.
Proof. intros Hk. induction 1; constructor; auto. Qed.

End keeps.

(** ** Saving and loading *)

Section restart.
Context `{StorageLaws} `{AddressingLaws}.
Variable codec : SnapshotCodec.

(** The snapshots of the state survive the conversion to JSON and back. *)
Definition codec_round_trip (s : State) : Prop :=
  agent_of_json codec (agent_to_json codec (AgentStateSnapshot_from s)) =
    Some (AgentStateSnapshot_from s) ∧
  nucleus_of_json codec (nucleus_to_json codec (NucleusStateSnapshot_from (st_nucleus s))) =
    Some (NucleusStateSnapshot_from (st_nucleus s)) ∧
  dht_of_json codec (dht_to_json codec (DhtStoreSnapshot_from (st_dht s))) =
    Some (DhtStoreSnapshot_from (st_dht s)).

Lemma add_snapshot_spec a c cas r cas' :
  add_snapshot a c cas = (r, cas') →
  (∀ a', a' ≠ a → cas_fetch cas' a' = cas_fetch cas a') ∧
  (r = Ok () → cas_fetch cas' a = Ok (Some c)).
Proof.
  unfold add_snapshot. pose proof (cas_add_fetch cas a c) as Hok.
  pose proof (cas_add_failed cas a c) as Herr.
  destruct (cas_add cas a c) as [[[]|e] cas1]; simpl in *; intros [= <- <-].
  - split; [intros a' Ha; rewrite Hok by done; by case_decide|].
    intros _. rewrite Hok by done. by case_decide.
  - by rewrite (Herr e eq_refl).
Qed.

(** What saving does to the storage, also when it fails half way. *)
Lemma save_spec s cas r cas' :
  save codec s cas = (r, cas') →
  (∀ a, a ∉ snapshot_addresses → cas_fetch cas' a = cas_fetch cas a) ∧
  (r = Ok () →
   cas_fetch cas' AGENT_SNAPSHOT_ADDRESS =
     Ok (Some (agent_to_json codec (AgentStateSnapshot_from s))) ∧
   cas_fetch cas' NUCLEUS_SNAPSHOT_ADDRESS =
     Ok (Some (nucleus_to_json codec (NucleusStateSnapshot_from (st_nucleus s)))) ∧
   cas_fetch cas' DHT_STORE_SNAPSHOT_ADDRESS =
     Ok (Some (dht_to_json codec (DhtStoreSnapshot_from (st_dht s))))).
Proof.
  unfold save, snapshot_addresses. intros Hs.
  destruct (add_snapshot AGENT_SNAPSHOT_ADDRESS _ cas) as [r1 c1] eqn:H1'.
  apply add_snapshot_spec in H1' as [A1 B1].
  destruct r1 as [[]|e]; [|injection Hs as <- <-; split; [set_solver|done]].
  destruct (add_snapshot NUCLEUS_SNAPSHOT_ADDRESS _ c1) as [r2 c2] eqn:H2'.
  apply add_snapshot_spec in H2' as [A2 B2].
  destruct r2 as [[]|e];
    [|injection Hs as <- <-; split; [|done]; intros a Ha; rewrite A2, A1 by set_solver; done].
  apply add_snapshot_spec in Hs as [A3 B3]. split.
  - intros a Ha. rewrite A3, A2, A1 by set_solver. done.
  - intros ->. split_and!; [|by rewrite A3, B2 by done|by rewrite B3].
    by rewrite A3, A2, B1 by done.
Qed.

Lemma add_snapshot_either a c cas r cas' :
  add_snapshot a c cas = (r, cas') →
  cas_fetch cas' a = cas_fetch cas a ∨ cas_fetch cas' a = Ok (Some c).
Proof.
  unfold add_snapshot. pose proof (cas_add_fetch cas a c) as Hok.
  pose proof (cas_add_failed cas a c) as Herr.
  destruct (cas_add cas a c) as [[[]|e] cas1]; simpl in *; intros [= <- <-].
  - right. rewrite Hok by done. by case_decide.
  - left. by rewrite (Herr e).
Qed.

(** Each snapshot is the new one or, when saving failed before, the old one. *)
Lemma save_snapshots s cas :
  (cas_fetch (save codec s cas).2 AGENT_SNAPSHOT_ADDRESS = cas_fetch cas AGENT_SNAPSHOT_ADDRESS ∨
   cas_fetch (save codec s cas).2 AGENT_SNAPSHOT_ADDRESS =
     Ok (Some (agent_to_json codec (AgentStateSnapshot_from s)))) ∧
  (cas_fetch (save codec s cas).2 DHT_STORE_SNAPSHOT_ADDRESS = cas_fetch cas DHT_STORE_SNAPSHOT_ADDRESS ∨
   cas_fetch (save codec s cas).2 DHT_STORE_SNAPSHOT_ADDRESS =
     Ok (Some (dht_to_json codec (DhtStoreSnapshot_from (st_dht s))))).
Proof.
  unfold save. destruct (add_snapshot AGENT_SNAPSHOT_ADDRESS _ cas) as [r1 c1] eqn:H1'.
  apply add_snapshot_either in H1' as E1. apply add_snapshot_spec in H1' as [A1 _].
  destruct r1 as [[]|e]; [|split; [done|left; by apply A1]].
  destruct (add_snapshot NUCLEUS_SNAPSHOT_ADDRESS _ c1) as [r2 c2] eqn:H2'.
  apply add_snapshot_spec in H2' as [A2 _].
  destruct r2 as [[]|e]; [|cbn [snd]; rewrite !A2 by done; split; [done|left; by apply A1]].
  destruct (add_snapshot DHT_STORE_SNAPSHOT_ADDRESS _ c2) as [r3 c3] eqn:H3'.
  apply add_snapshot_either in H3' as E3. apply add_snapshot_spec in H3' as [A3 _]. cbn [snd].
  split; [by rewrite A3, A2 by done|]. by rewrite <- (A1 DHT_STORE_SNAPSHOT_ADDRESS), <- A2 by done.
Qed.

(** No content has the address of a snapshot as its hash. *)
Context (snapshot_not_hash : ∀ c, encode_from_str c ∉ snapshot_addresses).

Lemma save_keeps s cas h : stored cas h → stored (save codec s cas).2 h.
Proof.
  destruct (save codec s cas) as [r cas'] eqn:Hs. apply save_spec in Hs as [Hk _]. simpl.
  unfold stored, ChainHeader_address. by rewrite Hk.
Qed.

Lemma get_dna_chain agent cas l fuel :
  agent_inv l (agent, cas) → length l < fuel →
  get_dna agent cas fuel =
    Ret match last (of_type EntryType_Dna l) with
        | Some h => dna_of_header cas h
        | None => Err (HolochainError_ErrorGeneric
            "No DNA entry found in source chain while creating state from agent")
        end.
Proof.
  intros [Hc Ht] Hf. simpl in *. unfold get_dna. rewrite Ht. erewrite iter_type_chain by done.
  cbn [mbind Outcome_bind].
  erewrite run_iter_yields; [|by apply chain_type_yields|]; [cbn [mbind Outcome_bind take_limit drop]|].
  - by rewrite (list_filter_all (λ _, true)).
  - pose proof (length_filter (λ h, entry_type h = EntryType_Dna) l). unfold of_type. lia.
Qed.

(** What a state saved and loaded again has in common with the original. *)
Definition restarted (now : SystemTime) (s s' : State) (d : option Dna) : Prop :=
  agent_top_chain_header (st_agent s') = agent_top_chain_header (st_agent s) ∧
  status (st_nucleus s') = status (st_nucleus s) ∧ dna (st_nucleus s') = d ∧
  st_dht s' = new_from_snapshot now (DhtStoreSnapshot_from (st_dht s)) ∧
  st_network s' = NetworkState_new.

Lemma load_saved now agent_address s cas l fuel :
  agent_inv l (st_agent s, cas) → length l < fuel → codec_round_trip s →
  (save codec s cas).1 = Ok () →
  let cas' := (save codec s cas).2 in
  agent_inv l (st_agent s, cas') ∧
  ∃ s', load codec now agent_address cas' fuel = Ret (Ok (Some s')) ∧
        restarted now s s' (last (of_type EntryType_Dna l) ≫= λ h, result_ok (dna_of_header cas' h)).
Proof.
  intros [Hc Ht] Hf (Ra & Rn & Rd) Hok cas'. simpl in *.
  assert (Hc' : chain cas' l).
  { eapply chain_keeps; [|exact Hc]. intros h. apply save_keeps. }
  split; [done|]. subst cas'. destruct (save codec s cas) as [r cas'] eqn:Hs.
  apply save_spec in Hs as [_ Hs]. simpl in *. destruct (Hs Hok) as (Fa & Fn & Fd).
  unfold load, fetch_snapshot. rewrite Fa, Ra. cbn [mbind Outcome_bind unwrap]. rewrite Fn, Rn.
  cbn [mbind Outcome_bind unwrap]. rewrite Fd, Rd. cbn [mbind Outcome_bind unwrap].
  unfold State_try_from_snapshots, State_new_with_agent_nucleus_dht.
  rewrite (get_dna_chain _ cas' l) by done. cbn [mbind Outcome_bind].
  eexists. split; [done|]. repeat split. simpl. by destruct (last (of_type EntryType_Dna l)).
Qed.

(** C24: a restart loses nothing that was saved.  Once the state is saved, it
    can be loaded: the source chain is intact and has the same top, the nucleus
    has its status and the DNA of the oldest DNA entry of the chain, what is
    held is remembered, and every validation that was queued or in process is
    queued again, the interrupted ones first. *)
Theorem restart_restores now agent_address s cas l fuel h d :
  agent_inv l (st_agent s, cas) → length l < fuel → codec_round_trip s →
  (save codec s cas).1 = Ok () →
  last (of_type EntryType_Dna l) = Some h → dna_of_header cas h = Ok d →
  entry_address h ∉ snapshot_addresses →
  ∃ s', load codec now agent_address (save codec s cas).2 fuel = Ret (Ok (Some s')) ∧
    agent_inv l (st_agent s', (save codec s cas).2) ∧
    status (st_nucleus s') = status (st_nucleus s) ∧ dna (st_nucleus s') = Some d ∧
    holding_map (st_dht s') = holding_map (st_dht s) ∧
    pending <$> queued_holding_workflows (st_dht s') =
      pending <$> (in_process_holding_workflows (st_dht s) ++ queued_holding_workflows (st_dht s)).
Proof.
  intros Hi Hf Hr Hok Hl Hd Hn. destruct (load_saved now agent_address s cas l fuel Hi Hf Hr Hok)
    as [[Hc Ht] (s' & Hs' & E1 & E2 & E3 & E4 & _)]. simpl in *.
  exists s'. split; [done|]. split; [split; [done|simpl; congruence]|]. split; [done|].
  rewrite E3, E4, Hl. simpl. split; [|split; [done|]].
  - destruct (save codec s cas) as [r cas'] eqn:Hs. apply save_spec in Hs as [Hk _]. simpl.
    revert Hd. unfold dna_of_header. by rewrite Hk by done; intros ->.
  - rewrite <- list_fmap_compose. by apply list_fmap_ext.
Qed.

(** ** The life of an instance *)

Context (hash_inj : Inj (=) (=) encode_from_str).

(** Processing an action gives the state for all sufficient fuel. *)
Definition processes_to (env : Env) (state_lock persister_lock : bool) (aw : ActionWrapper)
    (s s' : State * World) : Prop :=
  ∃ n r, ∀ fuel, n ≤ fuel →
    process_action codec env fuel state_lock persister_lock s.1 s.2 aw = Ret (r, s'.1, s'.2).

(** A step of the instance, and whether it is a restart: the state is lost, and
    read again from what the storage has. *)
Inductive instance_step : bool → State * World → State * World → Prop :=
| instance_process env state_lock persister_lock aw s s' :
    (0 ≤ env_now_agent env)%Z → sound_input (aw_action aw) → codec_round_trip s'.1 →
    processes_to env state_lock persister_lock aw s s' → instance_step false s s'
| instance_restart now agent_address n s s' w :
    (∀ fuel, n ≤ fuel → load codec now agent_address (w_cas w) fuel = Ret (Ok (Some s'))) →
    instance_step true (s, w) (s', w).

(** Runs, and whether there was a restart in them. *)
Inductive instance_run : bool → State * World → State * World → Prop :=
| instance_run_nil s : instance_run false s s
| instance_run_cons b b' s s1 s2 :
    instance_step b s s1 → instance_run b' s1 s2 → instance_run (b || b') s s2.

(** The snapshots in the storage: the agent's is of the chain [saved], and no
    validation is twice in that of the DHT. *)
Definition snapshots_sound (saved : list ChainHeader) (cas : Cas) : Prop :=
  (∀ c, cas_fetch cas AGENT_SNAPSHOT_ADDRESS = Ok (Some c) →
     ∃ snapshot, agent_of_json codec c = Some snapshot ∧
       snapshot_top_chain_header snapshot = head saved) ∧
  (∀ c, cas_fetch cas DHT_STORE_SNAPSHOT_ADDRESS = Ok (Some c) →
     ∃ snapshot, dht_of_json codec c = Some snapshot ∧
       ∀ now, pending_unique (new_from_snapshot now snapshot)).

(** The soundness of a state: the chain [l] is stored and topped by the agent's
    header, no validation is pending twice, every request has a timeout. *)
Definition state_sound (l : list ChainHeader) (s : State * World) : Prop :=
  agent_inv l (st_agent s.1, w_cas s.2) ∧ pending_unique (st_dht s.1) ∧
  timeouts_running (st_network s.1).

(** The invariant of an instance: it is sound with the chain [l], and so is what
    is stored of it, with an earlier part of the chain. *)
Definition instance_inv (saved l : list ChainHeader) (s : State * World) : Prop :=
  state_sound l s ∧ saved `suffix_of` l ∧ snapshots_sound saved (w_cas s.2).

Lemma snapshots_extends saved cas cas' :
  storage_extends cas cas' → snapshots_sound saved cas → snapshots_sound saved cas'.
Proof.
  intros [_ Hf] [Ha Hd]. split; intros c; (rewrite Hf by (unfold snapshot_addresses; set_solver)); auto.
Qed.

Lemma state_reduce_inv env fuel s w aw s' w' l :
  (0 ≤ env_now_agent env)%Z → sound_input (aw_action aw) → length l < fuel →
  state_sound l (s, w) → State_reduce env fuel s w aw = Ret (s', w') →
  storage_extends (w_cas w) (w_cas w') ∧ ∃ l', state_sound (l' ++ l) (s', w').
Proof.
  intros Hn Ha Hf (Hi & Hu & Ht) Hr. simpl in *. unfold State_reduce in Hr.
  destruct (reduce_total hash_inj (env_sign env) (env_now_agent env) aw _ l Hi Hn
    (sound_input_action _ Ha)) as ([agent cas] & l' & Hl' & Hi' & Hag). specialize (Hag fuel Hf).
  pose proof (agent_reduce_keeps hash_inj snapshot_not_hash _ _ _ _ _ _ _ _ Ha Hag) as Hk.
  cbn [fst snd] in Hag. rewrite Hag in Hr. cbn [mbind Outcome_bind] in Hr.
  destruct (DhtReducers.reduce _ _ _ _) as [[dht w1]| |] eqn:Hd; cbn [mbind Outcome_bind] in Hr;
    try done.
  apply (dht_reduce_keeps hash_inj snapshot_not_hash) in Hd as Hk'; [|done].
  destruct (Network.reduce _ _ _ _ _ _ _ _ _ _ _) as [net| |] eqn:Hnet;
    cbn [mbind Outcome_bind] in Hr; try done. injection Hr as <- <-.
  split; [by etrans|]. exists l'. destruct Hi' as [Hc' Ht'].
  split; [split; [|done]|split]; simpl in *.
  - eapply chain_keeps; [|exact Hc']. apply Hk'.
  - by eapply reduce_unique.
  - eapply requests_have_timeouts; [done| |done]. apply Ha.
Qed.

(** Saving replaces the chain that is saved by the current one, or leaves it. *)
Lemma save_inv s w saved l :
  codec_round_trip s → saved `suffix_of` l → state_sound l (s, w) → snapshots_sound saved (w_cas w) →
  ∃ saved', saved `suffix_of` saved' ∧
    instance_inv saved' l (s, {| w_cas := (save codec s (w_cas w)).2; w_eav := w_eav w |}).
Proof.
  intros (Ra & _ & Rd) Hsuf [[Hc Ht] [Hu Hnet]] [Ha Hd]. cbn in *.
  destruct (save_snapshots s (w_cas w)) as [Fa Fd].
  assert (Hs : state_sound l (s, {| w_cas := (save codec s (w_cas w)).2; w_eav := w_eav w |})).
  { split; [split; [|done]|done]. eapply chain_keeps; [|exact Hc]. intros h. apply save_keeps. }
  assert (Hd' : ∀ c, cas_fetch (save codec s (w_cas w)).2 DHT_STORE_SNAPSHOT_ADDRESS = Ok (Some c) →
    ∃ snapshot, dht_of_json codec c = Some snapshot ∧ ∀ now, pending_unique (new_from_snapshot now snapshot)).
  { intros c. destruct Fd as [->| ->]; [apply Hd|]. intros [= <-].
    exists (DhtStoreSnapshot_from (st_dht s)). split; [done|]. intros now. by apply restart_unique. }
  destruct Fa as [Fa|Fa]; [exists saved|exists l]; (split; [done|]; split; [exact Hs|]; split; [done|];
    split; [|exact Hd']); intros c; cbn [w_cas snd]; rewrite Fa.
  - apply Ha.
  - intros [= <-]. exists (AgentStateSnapshot_from s). by split.
Qed.

Lemma process_inv env sl pl aw s s' saved l :
  (0 ≤ env_now_agent env)%Z → sound_input (aw_action aw) → codec_round_trip s'.1 →
  processes_to env sl pl aw s s' → instance_inv saved l s →
  ∃ saved' l', saved `suffix_of` saved' ∧ l `suffix_of` l' ∧ instance_inv saved' l' s'.
Proof.
  destruct s as [s w], s' as [s' w']. intros Hn Ha Hrt (n & r & Hr) (Hs & Hsuf & Hsnap).
  specialize (Hr (max n (S (length l))) ltac:(lia)). unfold process_action in Hr. simpl in Hr.
  destruct sl; simpl in Hr; [|simplify_eq; by exists saved, l].
  destruct (State_reduce _ _ _ _ _) as [[s1 w1]| |] eqn:Hred; simplify_eq/=.
  destruct (state_reduce_inv _ (n `max` S (length l)) _ _ _ _ _ l Hn Ha ltac:(lia) Hs Hred)
    as (Hk & l' & Hs').
  assert (Hsuf' : saved `suffix_of` l' ++ l) by by apply suffix_app_r.
  apply (snapshots_extends _ _ _ Hk) in Hsnap. destruct pl.
  - destruct (save_inv s' w1 saved (l' ++ l)) as (saved' & ? & ?); [done..|].
    exists saved', (l' ++ l). split_and!; [done| |done]. by exists l'.
  - exists saved, (l' ++ l). split; [done|]. split; [by exists l'|]. by split; [destruct w1|].
Qed.

(** What a restart reads. *)
Lemma load_reads now agent_address cas fuel s' :
  load codec now agent_address cas fuel = Ret (Ok (Some s')) →
  ∃ ca cd a d,
    cas_fetch cas AGENT_SNAPSHOT_ADDRESS = Ok (Some ca) ∧ agent_of_json codec ca = Some a ∧
    cas_fetch cas DHT_STORE_SNAPSHOT_ADDRESS = Ok (Some cd) ∧ dht_of_json codec cd = Some d ∧
    agent_top_chain_header (st_agent s') = snapshot_top_chain_header a ∧
    st_dht s' = new_from_snapshot now d ∧ st_network s' = NetworkState_new.
Proof.
  unfold load, fetch_snapshot. destruct (cas_fetch cas AGENT_SNAPSHOT_ADDRESS) as [[ca|]|]; try done.
  all: try destruct (agent_of_json codec ca) as [a|] eqn:Ha; cbn [mbind Outcome_bind unwrap]; try done.
  all: destruct (cas_fetch cas NUCLEUS_SNAPSHOT_ADDRESS) as [[cn|]|];
    try destruct (nucleus_of_json codec cn) as [n|]; cbn [mbind Outcome_bind unwrap]; try done.
  all: destruct (cas_fetch cas DHT_STORE_SNAPSHOT_ADDRESS) as [[cd|]|];
    try destruct (dht_of_json codec cd) as [d|] eqn:Hd; cbn [mbind Outcome_bind unwrap]; try done.
  unfold State_try_from_snapshots, State_new_with_agent_nucleus_dht.
  destruct (get_dna _ _ _) as [g| |]; cbn [mbind Outcome_bind]; [|done..]. intros [= <-].
  by exists ca, cd, a, d.
Qed.

(** After a restart the chain is the saved one. *)
Lemma restart_inv now agent_address n s s' w saved l :
  (∀ fuel, n ≤ fuel → load codec now agent_address (w_cas w) fuel = Ret (Ok (Some s'))) →
  instance_inv saved l (s, w) → instance_inv saved saved (s', w).
Proof.
  intros Hl (([Hc _] & _ & _) & [l1 ->] & Hsnap). cbn in *. split; [|done].
  destruct (load_reads _ _ _ _ _ (Hl n ltac:(lia))) as (ca & cd & a & d & Fa & Ja & Fd & Jd & Htop & Hdht & Hnet).
  destruct Hsnap as [Ha Hd]. destruct (Ha _ Fa) as (a' & Ja' & Htop').
  destruct (Hd _ Fd) as (d' & Jd' & Hu). simplify_eq. split; [split|split]; cbn.
  - by eapply chain_app.
  - congruence.
  - rewrite Hdht. apply Hu.
  - rewrite Hnet. split_and!; [intros k|intros k|intros k m]; cbn; by rewrite lookup_empty.
Qed.

(** An entry of an agent whose key is the address of a snapshot takes its place in the
    storage, and until the next save the instance cannot be loaded. *)
Theorem agent_entry_replaces_snapshot now now' agent_address name w w' fuel :
  let entry := Entry_AgentId {| nick := name; pub_sign_key := AGENT_SNAPSHOT_ADDRESS |} in
  agent_of_json codec (Entry_content entry) = None →
  reduce_store_entry_inner now entry w = (Ok (), w') →
  load codec now' agent_address (w_cas w') fuel = Panic.
Proof.
  intros entry Hj Hs. apply (store_entry_ok hash_inj) in Hs as (Hf & _).
  - unfold load, fetch_snapshot. cbn [Entry_address AgentId_address pub_sign_key entry] in Hf.
    rewrite Hf, Hj. done.
  - intros c Hc. apply (snapshot_not_hash c). rewrite <- Hc. by left.
Qed.

(** C1: the instance stays sound.  From a sound state, along every run of processed
    actions, failed attempts to lock the state, saves that are skipped or fail half
    way, and restarts from whatever the storage then has (nothing is saved for a
    restart), the source chain is stored and can be read from its top, no validation
    is pending twice and every request to the network has a timeout.  The chain only
    grows while the instance runs.  Restarts included, it always has the chain
    that is saved as its older part, and what is saved only grows, too; what was
    committed after the last save may be gone after a restart.  The assumptions: the
    clock is not before 1970, requests carry a timeout, hashes do not collide, the
    address of a stored entry is not that of a snapshot and the key of an agent is not a
    hash, no hash is the address of a snapshot, and the snapshots of the
    states that the instance gets into can be read back from their JSON. *)
Theorem instance_stays_sound restarted s s' saved l :
  instance_inv saved l s → instance_run restarted s s' →
  ∃ saved' l', instance_inv saved' l' s' ∧ saved `suffix_of` saved' ∧
    (restarted = false → l `suffix_of` l').
Proof.
  intros Hi Hrun. revert saved l Hi. induction Hrun as [s|b b' s s1 s2 Hstep _ IH]; intros saved l Hi.
  { by exists saved, l. }
  assert (∃ saved1 l1, saved `suffix_of` saved1 ∧ (b = false → l `suffix_of` l1) ∧
    instance_inv saved1 l1 s1) as (saved1 & l1 & Hs1 & Hl1 & Hi1).
  { destruct Hstep as [env sl pl aw s s1 Hn Ha Hrt Hp|now agent n s s1 w Hl].
    - destruct (process_inv env sl pl aw s s1 saved l Hn Ha Hrt Hp Hi) as (saved1 & l1 & ? & ? & ?).
      by exists saved1, l1.
    - exists saved, saved. split; [done|]. split; [done|]. by eapply restart_inv. }
  destruct (IH _ _ Hi1) as (saved2 & l2 & Hi2 & Hs2 & Hl2). exists saved2, l2.
  split; [done|]. split; [by etrans|]. intros [-> ->]%orb_false_iff. by etrans; [apply Hl1|apply Hl2].
Qed.

End restart.

(** ** consistency.rs *)

Inductive ConsistencyEvent : Type :=
| Event_Publish (address : Address)
| Event_InitializeNetwork
| Event_InitializeChain
| Event_SignalZomeFunctionCall (call : string) (id : ProcessUniqueId)
| Event_Hold (address : Address)
| Event_UpdateEntry (old new : Address)
| Event_RemoveEntry (old deletion : Address)
| Event_AddLink (link_data : LinkData)
| Event_RemoveLink (address : Address)
| Event_ReturnZomeFunctionResult (call : string) (id : ProcessUniqueId).

Inductive ConsistencyGroup : Type := Group_Source | Group_Validators.

Record PendingConsistency : Type := {
  pending_event : ConsistencyEvent;
  pending_group : ConsistencyGroup;
}.

Record ConsistencySignal : Type := {
  signal_event : ConsistencyEvent;
  signal_pending : list PendingConsistency;
}.

Definition ConsistencySignal_new_terminal (event : ConsistencyEvent) : ConsistencySignal :=
  {| signal_event := event; signal_pending := [] |}.

Definition ConsistencySignal_new_pending (event : ConsistencyEvent) (group : ConsistencyGroup)
    (pending_events : list ConsistencyEvent) : ConsistencySignal :=
  {| signal_event := event;
     signal_pending := map (λ e, {| pending_event := e; pending_group := group |}) pending_events |}.

Record ConsistencyModel : Type := {
  commit_cache : gmap Address ConsistencySignal;
  chain_initialized : bool;
}.

Definition ConsistencyModel_new : ConsistencyModel :=
  {| commit_cache := ∅; chain_initialized := false |}.

Definition display_zome_fn_call (call : ZomeFnCall) : string :=
  zome_name call +:+ "/" +:+ call_fn_name call.

Section consistency.
Context `{Addressing}.

(** The state of the context the model was created with, and the DNA of its
    nucleus. *)
Variable context_state : option (option Dna).

Definition do_cache (entry : Entry) : Outcome bool :=
  match context_state with
  | None | Some None => Ret true
  | Some my_dna => can_publish (Entry_entry_type entry) my_dna
  end.

(** The events that the validators of a committed entry will report. *)
Definition promised_events (entry : Entry) (crud_link : option Address) : list ConsistencyEvent :=
  let address := Entry_address entry in
  let meta :=
    match entry with
    | Entry_App _ _ => (λ crud, Event_UpdateEntry crud address) <$> crud_link
    | Entry_Deletion _ => (λ crud, Event_RemoveEntry crud address) <$> crud_link
    | Entry_LinkAdd link_data => Some (Event_AddLink link_data)
    | Entry_LinkRemove _ _ => Some (Event_RemoveLink address)
    | _ => None
    end in
  Event_Hold address :: option_list meta.

Definition hold_signal (aspect : EntryAspect) : option ConsistencySignal :=
  match aspect with
  | Aspect_Content entry _ => Some (ConsistencySignal_new_terminal (Event_Hold (Entry_address entry)))
  | Aspect_Update _ header =>
      (λ old, ConsistencySignal_new_terminal (Event_UpdateEntry old (entry_address header))) <$>
        link_update_delete header
  | Aspect_Deletion header =>
      (λ old, ConsistencySignal_new_terminal (Event_RemoveEntry old (entry_address header))) <$>
        link_update_delete header
  | Aspect_LinkAdd data _ => Some (ConsistencySignal_new_terminal (Event_AddLink data))
  | Aspect_LinkRemove _ _ header =>
      Some (ConsistencySignal_new_terminal (Event_RemoveLink (entry_address header)))
  | Aspect_Header _ => None
  end.

Definition ConsistencyModel_process_action (self : ConsistencyModel) (action : Action) :
    Outcome (option ConsistencySignal * ConsistencyModel) :=
  match action with
  | Action_Commit entry crud_link _ =>
      cache ← do_cache entry;
      let address := Entry_address entry in
      Ret (None,
        if (cache : bool) then
          {| commit_cache :=
               <[address := ConsistencySignal_new_pending (Event_Publish address) Group_Validators
                              (promised_events entry crud_link)]> (commit_cache self);
             chain_initialized := chain_initialized self |}
        else self)
  | Action_Publish address =>
      Ret (commit_cache self !! address,
           {| commit_cache := delete address (commit_cache self);
              chain_initialized := chain_initialized self |})
  | Action_HoldAspect aspect _ => Ret (hold_signal aspect, self)
  | Action_QueueZomeFunctionCall call =>
      Ret (Some (ConsistencySignal_new_pending
                   (Event_SignalZomeFunctionCall (display_zome_fn_call call) (call_id call))
                   Group_Source
                   [Event_ReturnZomeFunctionResult (display_zome_fn_call call) (call_id call)]), self)
  | Action_ReturnZomeFunctionResult result =>
      let call := response_call result in
      Ret (Some (ConsistencySignal_new_terminal
                   (Event_ReturnZomeFunctionResult (display_zome_fn_call call) (call_id call))), self)
  | Action_InitNetwork settings =>
      Ret (if chain_initialized self
           then Some (ConsistencySignal_new_pending Event_InitializeChain Group_Validators
                        [Event_Hold (settings_agent_id settings)])
           else None, self)
  | Action_InitializeChain _ =>
      Ret (None, {| commit_cache := commit_cache self; chain_initialized := true |})
  | _ => Ret (None, self)
  end.

End consistency.

(** ** What publishing promises *)

Section promises.
Context `{Storage} `{AddressingLaws}.
Variable net_send : ClientMsg → Result string ().

(** The message that publishes an aspect at an address. *)
Definition publish_message (space me : Address) (p : Address * EntryAspect) : ClientMsg :=
  Client_PublishEntry space me p.1 [entry_data_to_entry_aspect_data p.2].

Lemma publish_aspect_ok a x s s' :
  publish_aspect net_send a x s = Ret (Ok (), s') →
  ∃ sent space me, network s = Some sent ∧ dna_address s = Some space ∧ net_agent_id s = Some me ∧
    network s' = Some (sent ++ [publish_message space me (a, x)]) ∧
    dna_address s' = Some space ∧ net_agent_id s' = Some me.
Proof.
  unfold publish_aspect, my_space, my_agent, send, mbind, NetM_bind.
  destruct (dna_address s) as [space|] eqn:Hd; simpl; [|done].
  destruct (net_agent_id s) as [me|] eqn:Hm; simpl; [|done].
  destruct (network s) as [sent|] eqn:Hn; simpl; [|done].
  destruct (net_send _); [|done]. intros [= <-]. by exists sent, space, me.
Qed.

Lemma netm_bind_ok {A B} (m : NetM A) (f : A → NetM B) s y s' :
  (m ≫= f) s = Ret (Ok y, s') → ∃ x s1, m s = Ret (Ok x, s1) ∧ f x s1 = Ret (Ok y, s').
Proof.
  unfold mbind, NetM_bind. destruct (m s) as [[[x|e] s1]| |] eqn:Hm; simpl; try done. eauto.
Qed.

Lemma publish_two a x b y s s' :
  (publish_aspect net_send a x ≫= λ _, publish_aspect net_send b y) s = Ret (Ok (), s') →
  ∃ sent space me, network s = Some sent ∧ dna_address s = Some space ∧ net_agent_id s = Some me ∧
    network s' = Some (sent ++ map (publish_message space me) [(a, x); (b, y)]).
Proof.
  intros ([] & s1 & H1' & H2')%netm_bind_ok.
  apply publish_aspect_ok in H1' as (sent & space & me & ? & ? & ? & Hn & Hd & Hm).
  apply publish_aspect_ok in H2' as (sent' & space' & me' & ? & ? & ? & Hn' & _).
  simplify_eq. exists sent, space, me. split_and!; try done. by rewrite Hn', <- (assoc_L app).
Qed.

Lemma publish_one a x s s' :
  publish_aspect net_send a x s = Ret (Ok (), s') →
  ∃ sent space me, network s = Some sent ∧ dna_address s = Some space ∧ net_agent_id s = Some me ∧
    network s' = Some (sent ++ map (publish_message space me) [(a, x)]).
Proof. intros (sent & space & me & ? & ? & ? & ? & _)%publish_aspect_ok. by exists sent, space, me. Qed.

(** The entry and the header that are published belong together. *)
Lemma fetch_entry_with_header_ok address agent cas fuel ewh :
  fetch_entry_with_header address agent cas fuel = Ret (Ok ewh) →
  entry_address (ewh_header ewh) = Entry_address (ewh_entry ewh).
Proof.
  unfold fetch_entry_with_header, find_chain_header, iter_find.
  destruct (maybe ← get cas address; ok_or _ maybe) as [entry|e]; [|done].
  destruct (run_iter _ _ _ _ _ _) as [l| |] eqn:Hr; simpl; try done.
  destruct (head l) as [h|] eqn:Hh; simpl; [|done]. intros [= <-]. simpl.
  assert (Hin : h ∈ l) by (destruct l; simplify_eq/=; set_solver).
  pose proof (run_iter_satisfies _ _ _ _ _ _ _ Hr h Hin) as Hp. by apply bool_decide_eq_true_1 in Hp.
Qed.

(** The aspects of an entry under a header, each with the address it is
    published at, in the order of publication. *)
Definition published_aspects (entry : Entry) (header : ChainHeader) : list (Address * EntryAspect) :=
  (Entry_address entry, Aspect_Content entry header) ::
  match entry, link_update_delete header with
  | Entry_App _ _, Some old => [(old, Aspect_Update entry header)]
  | Entry_Deletion _, Some old => [(old, Aspect_Deletion header)]
  | Entry_LinkAdd d, _ => [(base (link_data_link d), Aspect_LinkAdd d header)]
  | Entry_LinkRemove d l, _ => [(base (link_data_link d), Aspect_LinkRemove d l header)]
  | _, _ => []
  end.

Lemma publish_sends agent cas fuel address s s' :
  reduce_publish_inner net_send agent cas fuel address s = Ret (Ok (), s') →
  ∃ ewh sent space me,
    fetch_entry_with_header address agent cas fuel = Ret (Ok ewh) ∧ network s = Some sent ∧
    dna_address s = Some space ∧ net_agent_id s = Some me ∧
    network s' = Some (sent ++ map (publish_message space me)
                                 (published_aspects (ewh_entry ewh) (ewh_header ewh))).
Proof.
  intros ([] & s1 & [= Hi <-] & ([entry h] & s2 & Hf & Hp)%netm_bind_ok)%netm_bind_ok.
  unfold lift_outcome in Hf. destruct (fetch_entry_with_header _ _ _ _) as [r| |]; simplify_eq/=.
  exists {| ewh_entry := entry; ewh_header := h |}.
  unfold published_aspects, publish_entry, publish_update_delete_meta, publish_link_meta in *.
  destruct entry; simpl in *; try done.
  all: try (apply publish_one in Hp as (sent & space & me & ? & ? & ? & ?); by exists sent, space, me).
  all: try destruct (link_update_delete h) as [old|]; simpl in *;
    try (apply publish_two in Hp as (sent & space & me & ? & ? & ? & ?); by exists sent, space, me).
  all: apply netm_bind_ok in Hp as ([] & s3 & Hp & [= <-]);
    apply publish_one in Hp as (sent & space & me & ? & ? & ? & ?); by exists sent, space, me.
Qed.

(** publishing keeps its promises.  A successful publication sends the
    aspects of the entry, each to the address the aspect names.  The signal that
    the consistency model emits for it, cached when the entry was committed with
    this header, names as pending on the validators exactly the events that the
    consistency models of the validators emit when they hold these aspects. *)
Theorem publish_keeps_promises context_state agent cas fuel address s s' model provs :
  reduce_publish_inner net_send agent cas fuel address s = Ret (Ok (), s') →
  ∃ entry header sent space me,
    fetch_entry_with_header address agent cas fuel =
      Ret (Ok {| ewh_entry := entry; ewh_header := header |}) ∧
    network s = Some sent ∧
    network s' = Some (sent ++ map (publish_message space me) (published_aspects entry header)) ∧
    Forall (λ p, EntryAspect_entry_address p.2 = Ok p.1) (published_aspects entry header) ∧
    (do_cache context_state entry = Ret true →
     ∃ model1 model2 signal,
       ConsistencyModel_process_action context_state model
         (Action_Commit entry (link_update_delete header) provs) = Ret (None, model1) ∧
       ConsistencyModel_process_action context_state model1
         (Action_Publish (Entry_address entry)) = Ret (Some signal, model2) ∧
       map (λ p, (pending_group p, Some (ConsistencySignal_new_terminal (pending_event p))))
           (signal_pending signal) =
       map (λ p, (Group_Validators, hold_signal p.2)) (published_aspects entry header)).
Proof.
  intros ([entry header] & sent & space & me & Hf & Hn & _ & _ & Hn')%publish_sends.
  apply fetch_entry_with_header_ok in Hf as Ha. simpl in *.
  exists entry, header, sent, space, me. split_and!; try done.
  - unfold published_aspects. constructor; [by rewrite <- Ha|].
    destruct entry; simpl; try destruct (link_update_delete header) as [old|] eqn:Hl;
      repeat constructor; simpl; by rewrite ?Hl.
  - intros Hc. simpl. rewrite Hc. cbn [mbind Outcome_bind]. eexists _, _, _.
    split; [done|]. split; [simpl; by rewrite lookup_insert_eq|]. simpl. f_equal.
    unfold published_aspects. rewrite map_map. simpl.
    destruct entry; simpl; try destruct (link_update_delete header) as [old|] eqn:Hl; simpl;
      rewrite ?Hl; simpl; by rewrite ?Ha.
Qed.

End promises.

(** ** Concrete instances *)

Section witnesses.
#[local] Existing Instance memory_storage.
#[local] Existing Instance memory_storage_laws.

(** Hashes start with a letter that no snapshot address starts with; the one DNA
    of the example can be read back. *)
Definition dna_addressing : Addressing := {|
  encode_from_str s := String (Ascii.ascii_of_nat 81) s;
  entry_json := toy_entry_json;
  header_json := toy_header_json;
  aspect_json a := "a" +:+ EntryAspect_type_hint a;
  entry_of_json s := if String.eqb s "e%dna" then Some (Entry_Dna ex_dna) else toy_entry_of_json s;
  header_of_json := toy_header_of_json;
|}.

Definition dna_addressing_laws : @AddressingLaws dna_addressing.
Proof. constructor; [by intros h|apply (@header_json_inverse _ toy_addressing_laws)]. Defined.

#[local] Existing Instance dna_addressing.
#[local] Existing Instance dna_addressing_laws.

Definition dna_hash_inj : Inj (=) (=) (@encode_from_str dna_addressing).
Proof. by intros s t [= ->]. Defined.

Lemma dna_snapshot_not_hash c : encode_from_str c ∉ snapshot_addresses.
Proof. unfold snapshot_addresses. rewrite !elem_of_cons, elem_of_nil. by intros [?|[?|[?|?]]]. Qed.

Definition ex_env : Env := {|
  env_now_agent := 5000000000; env_now_dht := 5000000001; env_now_network := 5000000002;
  env_sign _ := Ok "sig"%string; env_send _ := Ok (); env_connect := true; env_fresh := "m1" |}.

(** A new instance commits its DNA; another one commits a note. *)
Definition ex_start : State * World :=
  (State_new "alice", {| w_cas := ∅ : gmap string string; w_eav := [] |}).
Definition ex_commit (entry : Entry) : ActionWrapper :=
  {| aw_action := Action_Commit entry None []; aw_id := "id" |}.
Definition ex_reduce (s : State * World) (entry : Entry) : State * World :=
  match State_reduce ex_env 4 s.1 s.2 (ex_commit entry) with Ret s' => s' | _ => s end.
Definition ex_installed : State * World := ex_reduce ex_start (Entry_Dna ex_dna).
Definition ex_noted : State * World := ex_reduce ex_start (Entry_App "note" "secret").

(** A codec for the snapshots of this state. *)
Definition ex_codec : SnapshotCodec := {|
  agent_to_json _ := "agent"; agent_of_json _ := Some (AgentStateSnapshot_from ex_installed.1);
  nucleus_to_json _ := "nucleus";
  nucleus_of_json _ := Some (NucleusStateSnapshot_from (st_nucleus ex_installed.1));
  dht_to_json _ := "dht"; dht_of_json _ := Some (DhtStoreSnapshot_from (st_dht ex_installed.1)) |}.

Definition ex_header : ChainHeader :=
  default ex_h1 (agent_top_chain_header (st_agent ex_installed.1)).

Lemma ex_installed_chain : agent_inv [ex_header] (st_agent ex_installed.1, w_cas ex_installed.2).
Proof. split; [|vm_compute; reflexivity]. repeat constructor; vm_compute; reflexivity. Qed.

Lemma restart_restores_witness :
  ∃ s', load ex_codec 9 "alice" (save ex_codec ex_installed.1 (w_cas ex_installed.2)).2 4 = Ret (Ok (Some s')) ∧
    agent_inv [ex_header]
      (st_agent s', (save ex_codec ex_installed.1 (w_cas ex_installed.2)).2) ∧
    status (st_nucleus s') = status (st_nucleus ex_installed.1) ∧ dna (st_nucleus s') = Some ex_dna ∧
    holding_map (st_dht s') = holding_map (st_dht ex_installed.1) ∧
    pending <$> queued_holding_workflows (st_dht s') =
      pending <$> (in_process_holding_workflows (st_dht ex_installed.1) ++
                   queued_holding_workflows (st_dht ex_installed.1)).
Proof.
  apply (restart_restores ex_codec dna_snapshot_not_hash 9 "alice" ex_installed.1 (w_cas ex_installed.2)
           [ex_header] 4 ex_header).
  - exact ex_installed_chain.
  - simpl. lia.
  - repeat split.
  - reflexivity.
  - vm_compute. reflexivity.
  - vm_compute. reflexivity.
  - unfold snapshot_addresses. rewrite !elem_of_cons, elem_of_nil. vm_compute.
    by intros [?|[?|[?|?]]].
Defined.

(** The node joins and sends a query, with a timeout of a second. *)
Definition ex_online (net : NetworkState) : State * World :=
  ({| st_nucleus := st_nucleus ex_installed.1; st_agent := st_agent ex_installed.1;
      st_dht := DhtStore_new; st_network := net |},
   {| w_cas := w_cas ex_installed.2; w_eav := w_eav ex_installed.2 |}).
Definition ex_key : QueryKey := QueryKey_Entry {| entry_key_address := "e"; entry_key_id := "1" |}.
Definition ex_query : ActionWrapper :=
  {| aw_action := Action_Query ex_key QueryPayload_Entry (Some (0%Z, 1000000000%Z)); aw_id := "id" |}.
Definition ex_queried : NetworkState :=
  match reduce_query (λ _, Ok ()) ex_joined ex_key QueryPayload_Entry
          (Some (0%Z, 1000000000%Z)) with
  | Ret s => s
  | _ => ex_joined
  end.

(** The state is saved after that, and loaded again. *)
Definition ex_saved : World :=
  {| w_cas := (save ex_codec (ex_online ex_queried).1 (w_cas ex_installed.2)).2;
     w_eav := w_eav ex_installed.2 |}.
Definition ex_reloaded : State :=
  match load ex_codec 9 "alice" (w_cas ex_saved) 4 with
  | Ret (Ok (Some s)) => s
  | _ => State_new "bob"
  end.

Lemma instance_stays_sound_witness :
  ∃ saved l, instance_inv ex_codec saved l (ex_reloaded, ex_saved) ∧ [] `suffix_of` saved ∧
    (true = false → [ex_header] `suffix_of` l).
Proof.
  apply (instance_stays_sound ex_codec dna_snapshot_not_hash dna_hash_inj true (ex_online ex_joined)
           (ex_reloaded, ex_saved) [] [ex_header]).
  - split; [|split; [apply suffix_nil|split; by intros c]].
    split; [exact ex_installed_chain|]. split; [apply NoDup_nil_2|].
    split_and!; [intros k|intros k|intros k m]; cbn; by rewrite lookup_empty.
  - apply (instance_run_cons ex_codec false true _ ((ex_online ex_queried).1, ex_saved)).
    + apply (instance_process ex_codec ex_env true true ex_query).
      * simpl. lia.
      * by repeat split.
      * repeat split.
      * exists 0, (Ok ()). intros fuel _. reflexivity.
    + apply (instance_run_cons ex_codec true false _ (ex_reloaded, ex_saved)); [|apply instance_run_nil].
      apply (instance_restart ex_codec 9 "alice" 4). intros fuel Hf.
      destruct fuel as [|[|[|[|fuel]]]]; [lia..|]. vm_compute. reflexivity.
Defined.

(** The node publishes its note. *)
Lemma publish_keeps_promises_witness :
  ∃ s', reduce_publish_inner (λ _, Ok ()) (st_agent ex_noted.1) (w_cas ex_noted.2) 4
          (Entry_address (Entry_App "note" "secret")) ex_joined = Ret (Ok (), s') ∧
  ∃ entry header sent space me,
    fetch_entry_with_header (Entry_address (Entry_App "note" "secret")) (st_agent ex_noted.1)
      (w_cas ex_noted.2) 4 = Ret (Ok {| ewh_entry := entry; ewh_header := header |}) ∧
    network ex_joined = Some sent ∧
    network s' = Some (sent ++ map (publish_message space me) (published_aspects entry header)).
Proof.
  eexists. split; [reflexivity|].
  edestruct (publish_keeps_promises (λ _, Ok ()) None (st_agent ex_noted.1) (w_cas ex_noted.2) 4
    (Entry_address (Entry_App "note" "secret")) ex_joined) with (model := ConsistencyModel_new)
    (provs := @nil Provenance) as (e & h & sent & space & me & Hf & Hn & Hn' & _); [reflexivity|].
  exists e, h, sent, space, me. by split_and!.
Defined.

End witnesses.
