(* ===== verification/Config.v ===== *)
(** * The conductor's configuration

    Models [src/crates/conductor_lib/src/config.rs]: the configuration tree, the
    checks a configuration has to pass before the conductor uses it, and the
    order in which instances are started.  Not in the records are the fields
    that none of the modelled code reads (logger, tracing, network, metrics).

    The topological sort is petgraph's: the class [Toposort] with its documented
    behaviour in [ToposortLaws]; [kahn] satisfies the laws.  A DNA loader is a
    function from paths; the address of a DNA is the class [DnaAddressing].

    The theorems: the checks accept exactly the consistent configurations and
    never panic; the start order has every callee before its callers; removing
    an instance keeps a configuration consistent exactly when no bridge and no
    DPKI setting mentions it; and the check for required bridges looks at the
    handle only. *)

From S2P Require Import Prelude Errors CoreTypes Dna.

Local Open Scope string_scope.

(** ** The configuration tree *)

Record AgentConfiguration : Type := {
  agent_id : string;
  agent_config_name : string;
  agent_public_address : string;
  agent_keystore_file : string;
  agent_holo_remote_key : option bool;
  agent_test_agent : option bool;
}.

Record DnaConfiguration : Type := {
  dna_id : string;
  dna_file : string;
  dna_hash : string;
  dna_config_uuid : option string;
}.

Inductive StorageConfiguration : Type :=
| StorageConfiguration_Memory
| StorageConfiguration_File (path : string)
| StorageConfiguration_Pickle (path : string)
| StorageConfiguration_Lmdb (path : string) (initial_mmap_bytes : option N).

Record InstanceConfiguration : Type := {
  instance_id : string;
  instance_dna : string;
  instance_agent : string;
  instance_storage : StorageConfiguration;
}.

Record InstanceReferenceConfiguration : Type := {
  ref_id : string;
  ref_alias : option string;
}.

Inductive InterfaceDriver : Type :=
| InterfaceDriver_Websocket (port : Z)
| InterfaceDriver_Http (port : Z)
| InterfaceDriver_DomainSocket (file : string)
| InterfaceDriver_Custom (value : string).

Record InterfaceConfiguration : Type := {
  interface_id : string;
  interface_driver : InterfaceDriver;
  interface_admin : bool;
  interface_instances : list InstanceReferenceConfiguration;
  interface_choose_free_port : option bool;
}.

(** [Bridge] of the configuration, not the definition in a DNA. *)
Record BridgeConfiguration : Type := {
  caller_id : string;
  callee_id : string;
  bridge_handle : string;
}.

Record UiBundleConfiguration : Type := {
  bundle_id : string;
  bundle_root_dir : string;
  bundle_hash : option string;
}.

Record UiInterfaceConfiguration : Type := {
  ui_interface_id : string;
  ui_bundle : string;
  ui_port : Z;
  ui_dna_interface : option string;
  ui_reroute_to_root : bool;
  ui_bind_address : string;
}.

Record DpkiConfiguration : Type := {
  dpki_instance : string;
  dpki_params : string;
}.

Record SignalConfig : Type := { signals_trace : bool; signals_consistency : bool }.

Record Configuration : Type := {
  agents : list AgentConfiguration;
  dnas : list DnaConfiguration;
  instances : list InstanceConfiguration;
  interfaces : list InterfaceConfiguration;
  bridges : list BridgeConfiguration;
  ui_bundles : list UiBundleConfiguration;
  ui_interfaces : list UiInterfaceConfiguration;
  persistence_dir : string;
  signing_service_uri : option string;
  encryption_service_uri : option string;
  decryption_service_uri : option string;
  dpki : option DpkiConfiguration;
  signals : SignalConfig;
}.

#[export] Instance StorageConfiguration_eq_dec : EqDecision StorageConfiguration.
Proof. solve_decision. Defined.
#[export] Instance InstanceConfiguration_eq_dec : EqDecision InstanceConfiguration.
Proof. solve_decision. Defined.
#[export] Instance InstanceReferenceConfiguration_eq_dec : EqDecision InstanceReferenceConfiguration.
Proof. solve_decision. Defined.
#[export] Instance BridgeConfiguration_eq_dec : EqDecision BridgeConfiguration.
Proof. solve_decision. Defined.

(** Assignments to one field of a configuration. *)
Section setters.
Context (self : Configuration).

Definition set_agents (x : list AgentConfiguration) : Configuration :=
  let '(Build_Configuration _ b c d e f g h i j k l m) := self in
  Build_Configuration x b c d e f g h i j k l m.

Definition set_dnas (x : list DnaConfiguration) : Configuration :=
  let '(Build_Configuration a _ c d e f g h i j k l m) := self in
  Build_Configuration a x c d e f g h i j k l m.

Definition set_instances (x : list InstanceConfiguration) : Configuration :=
  let '(Build_Configuration a b _ d e f g h i j k l m) := self in
  Build_Configuration a b x d e f g h i j k l m.

Definition set_interfaces (x : list InterfaceConfiguration) : Configuration :=
  let '(Build_Configuration a b c _ e f g h i j k l m) := self in
  Build_Configuration a b c x e f g h i j k l m.

Definition set_bridges (x : list BridgeConfiguration) : Configuration :=
  let '(Build_Configuration a b c d _ f g h i j k l m) := self in
  Build_Configuration a b c d x f g h i j k l m.

Definition set_ui_bundles (x : list UiBundleConfiguration) : Configuration :=
  let '(Build_Configuration a b c d e _ g h i j k l m) := self in
  Build_Configuration a b c d e x g h i j k l m.

Definition set_ui_interfaces (x : list UiInterfaceConfiguration) : Configuration :=
  let '(Build_Configuration a b c d e f _ h i j k l m) := self in
  Build_Configuration a b c d e f x h i j k l m.
End setters.

Definition set_interface_instances (self : InterfaceConfiguration)
    (x : list InstanceReferenceConfiguration) : InterfaceConfiguration :=
  {| interface_id := interface_id self; interface_driver := interface_driver self;
     interface_admin := interface_admin self; interface_instances := x;
     interface_choose_free_port := interface_choose_free_port self |}.

(** A name in double quotes, as the messages print it. *)
Definition quoted (s : string) : string :=
  let q := String (Ascii.ascii_of_nat 34) EmptyString in q +:+ s +:+ q.

(** ** Duplicates *)

(** The loop of [detect_dupes] over the set of the items seen. *)
Fixpoint dupes_of (set : gset string) (items : list string) : list string :=
  match items with
  | [] => []
  | item :: items =>
      if decide (item ∈ set) then item :: dupes_of set items
      else dupes_of ({[item]} ∪ set) items
  end.

Definition detect_dupes (name : string) (items : list string) : Result string () :=
  match dupes_of ∅ items with
  | [] => Ok ()
  | dupes => Err ("Duplicate " +:+ name +:+ " IDs detected: " +:+ String.concat ", " dupes)
  end.

Definition storage_path (instance : InstanceConfiguration) : option string :=
  match instance_storage instance with
  | StorageConfiguration_File path | StorageConfiguration_Lmdb path _
  | StorageConfiguration_Pickle path => Some path
  | StorageConfiguration_Memory => None
  end.

(** [storage_paths.iter().all(|x| path_set.insert(x))]. *)
Fixpoint all_inserted (path_set : gset string) (paths : list string) : bool :=
  match paths with
  | [] => true
  | x :: paths => if decide (x ∈ path_set) then false else all_inserted ({[x]} ∪ path_set) paths
  end.

Definition check_instances_storage (self : Configuration) : Result string () :=
  let storage_paths := omap storage_path (instances self) in
  if all_inserted ∅ storage_paths then Ok ()
  else Err "Forbidden duplicated file storage value encountered.".

(** ** Lookups and updates *)

Definition agent_by_id (self : Configuration) (id : string) : option AgentConfiguration :=
  find_by (λ ac, agent_id ac = id) (agents self).

Definition dna_by_id (self : Configuration) (id : string) : option DnaConfiguration :=
  find_by (λ dc, dna_id dc = id) (dnas self).

Definition instance_by_id (self : Configuration) (id : string) : option InstanceConfiguration :=
  find_by (λ ic, instance_id ic = id) (instances self).

Definition interface_by_id (self : Configuration) (id : string) : option InterfaceConfiguration :=
  find_by (λ ic, interface_id ic = id) (interfaces self).

Definition ui_bundle_by_id (self : Configuration) (id : string) : option UiBundleConfiguration :=
  find_by (λ ic, bundle_id ic = id) (ui_bundles self).

Definition instance_ids (self : Configuration) : list string := instance_id <$> instances self.

Definition bridge_dependencies (self : Configuration) (caller_instance_id : string) :
    list BridgeConfiguration :=
  filter (λ bridge, caller_id bridge = caller_instance_id) (bridges self).

Definition update_agent_address_by_id (self : Configuration) (id pub_sign_key : string) :
    Configuration :=
  set_agents self
    ((λ ac, if decide (agent_id ac = id) then
              {| agent_id := agent_id ac; agent_config_name := agent_config_name ac;
                 agent_public_address := pub_sign_key; agent_keystore_file := agent_keystore_file ac;
                 agent_holo_remote_key := agent_holo_remote_key ac;
                 agent_test_agent := agent_test_agent ac |}
            else ac) <$> agents self).

(** [find(..).map(|dna| dna.hash = hash)] changes the first DNA with the id. *)
Fixpoint update_hash (l : list DnaConfiguration) (id hash : string) : list DnaConfiguration :=
  match l with
  | [] => []
  | dna :: l =>
      if decide (dna_id dna = id) then
        {| dna_id := dna_id dna; dna_file := dna_file dna; dna_hash := hash;
           dna_config_uuid := dna_config_uuid dna |} :: l
      else dna :: update_hash l id hash
  end.

Definition update_dna_hash_by_id (self : Configuration) (id hash : string) : Configuration * bool :=
  (set_dnas self (update_hash (dnas self) id hash), bool_decide (is_Some (dna_by_id self id))).

Definition remove_references (id : string) (interface : InterfaceConfiguration) :
    InterfaceConfiguration :=
  set_interface_instances interface
    (filter (λ instance, ref_id instance ≠ id) (interface_instances interface)).

Definition save_remove_instance (self : Configuration) (id : string) : Configuration :=
  let self := set_instances self (filter (λ instance, instance_id instance ≠ id) (instances self)) in
  set_interfaces self (remove_references id <$> interfaces self).

Lemma find_key_is_Some {A} (key : A → string) (l : list A) id :
  is_Some (find_by (λ x, key x = id) l) ↔ id ∈ (key <$> l).
Proof. rewrite find_by_is_Some, list_elem_of_fmap. naive_solver. Qed.

Lemma instance_by_id_is_Some self id : is_Some (instance_by_id self id) ↔ id ∈ instance_ids self.
Proof. apply find_key_is_Some. Qed.

(** ** The order of the instances *)

(** [petgraph::algo::toposort] on the graph with the nodes [0 .. n-1] and a list
    of edges; [None] stands for the cycle error. *)
Class Toposort : Type := toposort : nat → list (nat * nat) → option (list nat).

(** [a] stands before [b] in a list. *)
Definition before {A} (l : list A) (a b : A) : Prop :=
  ∃ i j, l !! i = Some a ∧ l !! j = Some b ∧ i < j.

(** A sorted graph is a permutation of the nodes along the edges, and a graph
    whose edges go up in some numbering, one without cycles, can be sorted. *)
Class ToposortLaws `{Toposort} : Prop := {
  toposort_order n es l : toposort n es = Some l →
    l ≡ₚ seq 0 n ∧ ∀ a b, (a, b) ∈ es → a < n → b < n → before l a b;
  toposort_acyclic n es (rank : nat → nat) :
    (∀ a b, (a, b) ∈ es → rank a < rank b) → is_Some (toposort n es);
}.

(** The address of a DNA: the hash of its text. *)
Class DnaAddressing : Type := Dna_address : Dna → Address.

Lemma before_reverse {A} (l : list A) a b : before (reverse l) a b → before l b a.
Proof.
  intros (i & j & [Ha ?]%reverse_lookup_Some & [Hb ?]%reverse_lookup_Some & Hij).
  exists (length l - S j), (length l - S i). split_and!; [done..|lia].
Qed.

(** In a list without duplicates the positions order the elements. *)
Lemma before_rank {A} `{EqDecision A} (l : list A) : NoDup l →
  ∃ rank : A → nat, ∀ a b, before l a b → rank a < rank b.
Proof.
  intros Hnd. exists (λ x, default 0 (fst <$> list_find (x =.) l)).
  assert (Hpos : ∀ i x, l !! i = Some x → list_find (x =.) l = Some (i, x)).
  { intros i x Hi. apply list_find_Some. split_and!; [done..|]. intros j y Hj Hlt <-.
    pose proof (NoDup_lookup l i j x Hnd Hi Hj). lia. }
  intros a b (i & j & Ha%Hpos & Hb%Hpos & Hij). rewrite Ha, Hb. done.
Qed.

Section checks.
Context `{Toposort, DnaAddressing}.

(** Collecting into a [HashMap]: the last pair with a key wins. *)
Definition index_map (self : Configuration) : gmap string nat :=
  list_to_map (reverse (zip (instance_ids self) (seq 0 (length (instances self))))).

Definition reverse_map (self : Configuration) : gmap nat string :=
  list_to_map (reverse
    (omap (λ id, (λ ix, (ix, id)) <$> index_map self !! id) (instance_ids self))).

Definition bridge_edge (self : Configuration) (bridge : BridgeConfiguration) :
    Result HolochainError (nat * nat) :=
  match index_map self !! caller_id bridge, index_map self !! callee_id bridge with
  | Some start_inner, Some end_inner => Ok (start_inner, end_inner)
  | _, _ => Err (HolochainError_ConfigError
      ("Instance configuration not found, mentioned in bridge configuration: " +:+
       caller_id bridge +:+ " -> " +:+ callee_id bridge))
  end.

Definition instance_ids_sorted_by_bridge_dependencies (self : Configuration) :
    Outcome (Result HolochainError (list string)) :=
  match mapM (M:=Result HolochainError) (bridge_edge self) (bridges self) with
  | Err e => Ret (Err e)
  | Ok edges =>
      match toposort (length (instances self)) edges with
      | None => Ret (Err (HolochainError_ConfigError "Cyclic dependency in bridge configuration"))
      | Some sorted_nodes =>
          ids ← mapM (M:=Outcome) (λ node_index, unwrap (reverse_map self !! node_index))
                  (reverse sorted_nodes);
          Ret (Ok ids)
      end
  end.

(** ** Consistency *)

Section with_loader.
Context (dna_loader : string → Result HolochainError Dna).

(** One round of the loop over the instances; the inner loops over the zomes
    and their bridges visit the required bridges of the DNA in order. *)
Definition check_instance_config (self : Configuration) (instance : InstanceConfiguration) :
    Result string () :=
  _ ← ensure (bool_decide (is_Some (agent_by_id self (instance_agent instance))))
        ("Agent configuration " +:+ instance_agent instance +:+ " not found, mentioned in instance "
         +:+ instance_id instance);
  dna_config ← ok_or ("DNA configuration " +:+ quoted (instance_dna instance) +:+
                      " not found, mentioned in instance " +:+ quoted (instance_id instance))
                 (dna_by_id self (instance_dna instance));
  dna ← map_err (λ _, "Could not load DNA file " +:+ quoted (dna_file dna_config))
          (dna_loader (dna_file dna_config));
  try_each (λ bridge,
    ensure (bool_decide (is_Some (find_by (λ b, bridge_handle b = handle bridge) (bridges self))))
      ("Required bridge '" +:+ handle bridge +:+ "' for instance '" +:+ instance_id instance +:+
       "' missing")) (Dna_get_required_bridges dna).

Definition check_interface_config (self : Configuration) (interface : InterfaceConfiguration) :
    Result string () :=
  try_each (λ instance,
    ensure (bool_decide (is_Some (instance_by_id self (ref_id instance))))
      ("Instance configuration " +:+ quoted (ref_id instance) +:+ " not found, mentioned in interface"))
    (interface_instances interface).

(** The instance of a bridge's end with its DNA. *)
Definition load_bridge_end (self : Configuration) (id : string) : Result string (InstanceConfiguration * Dna) :=
  config ← ok_or ("Instance configuration " +:+ quoted id +:+ " not found, mentioned in bridge")
             (instance_by_id self id);
  dna_config ← ok_or ("DNA configuration " +:+ quoted (instance_dna config) +:+
                      " not found, mentioned in instance " +:+ quoted (instance_id config))
                 (dna_by_id self (instance_dna config));
  dna ← map_err (λ err, "Could not load DNA file " +:+ quoted (dna_file dna_config) +:+ "; error was: "
                        +:+ HolochainError_fmt err) (dna_loader (dna_file dna_config));
  Ok (config, dna).

(** The loop keeps the last definition with the handle. *)
Definition bridge_definition (dna : Dna) (h : string) : option Bridge :=
  last (filter (λ bridge_def, handle bridge_def = h) (mjoin (zome_bridges <$> (snd <$> zomes dna)))).

(** [found] of one expected trait. *)
Definition zome_implements (expected_trait_name : string) (expected_trait : Trait) (zome : Zome) : bool :=
  existsb (λ '(zome_trait_name, zome_trait_functions),
    String.eqb zome_trait_name expected_trait_name &&
    let has_all_fns_exported :=
      forallb (λ fn_def, bool_decide (fn_name fn_def ∈ trait_fn_names zome_trait_functions))
        (trait_functions expected_trait) in
    let has_matching_signatures :=
      if has_all_fns_exported then
        forallb (λ fn_def, bool_decide (fn_def ∈ fn_declarations zome)) (trait_functions expected_trait)
      else true in
    has_all_fns_exported && has_matching_signatures) (traits zome).

Definition check_bridge_requirements (self : Configuration) (bridge_config : BridgeConfiguration) :
    Result string () :=
  '(caller_config, caller_dna) ← load_bridge_end self (caller_id bridge_config);
  '(callee_config, callee_dna) ← load_bridge_end self (callee_id bridge_config);
  bridge ← ok_or ("No bridge definition with handle '" +:+ bridge_handle bridge_config +:+
                  "' found in " +:+ caller_id bridge_config +:+ "'s DNA")
             (bridge_definition caller_dna (bridge_handle bridge_config));
  match reference bridge with
  | BridgeReference_Address dna_address =>
      ensure (bool_decide (dna_address = Dna_address callee_dna))
        ("Bridge '" +:+ handle bridge +:+ "' of caller instance '" +:+ caller_id bridge_config +:+
         "' requires callee to be DNA with hash '" +:+ dna_address +:+
         "', but the configured instance '" +:+ instance_id callee_config +:+
         "' runs DNA with hash '" +:+ Dna_address callee_dna +:+ "'.")
  | BridgeReference_Trait expected =>
      try_each (λ '(expected_trait_name, expected_trait),
        ensure (existsb (λ '(_, zome), zome_implements expected_trait_name expected_trait zome)
                  (zomes callee_dna))
          ("Bridge '" +:+ handle bridge +:+ "' of instance '" +:+ caller_id bridge_config +:+
           "' requires callee to to implement trait '" +:+ expected_trait_name +:+
           "' with functions: ")) expected
  end.

Definition check_ui_interface_config (self : Configuration) (ui_interface : UiInterfaceConfiguration) :
    Result string () :=
  _ ← ensure (bool_decide (is_Some (ui_bundle_by_id self (ui_bundle ui_interface))))
        ("UI bundle configuration " +:+ ui_bundle ui_interface +:+
         " not found, mentioned in UI interface " +:+ ui_interface_id ui_interface);
  match ui_dna_interface ui_interface with
  | None => Ok ()
  | Some dna_interface_id =>
      ensure (bool_decide (is_Some (interface_by_id self dna_interface_id)))
        ("DNA Interface configuration " +:+ quoted dna_interface_id +:+
         " not found, mentioned in UI interface " +:+ quoted (ui_interface_id ui_interface))
  end.

(** [check_consistency] up to the sorting of the instances. *)
Definition check_elements (self : Configuration) : Result string () :=
  _ ← detect_dupes "agent" (agent_id <$> agents self);
  _ ← detect_dupes "dna" (dna_id <$> dnas self);
  _ ← detect_dupes "instance" (instance_id <$> instances self);
  _ ← check_instances_storage self;
  _ ← detect_dupes "interface" (interface_id <$> interfaces self);
  _ ← try_each (check_instance_config self) (instances self);
  _ ← try_each (check_interface_config self) (interfaces self);
  _ ← try_each (check_bridge_requirements self) (bridges self);
  _ ← try_each (check_ui_interface_config self) (ui_interfaces self);
  match dpki self with
  | None => Ok ()
  | Some dpki_config =>
      ensure (bool_decide (is_Some (instance_by_id self (dpki_instance dpki_config))))
        ("Instance configuration " +:+ quoted (dpki_instance dpki_config) +:+ " not found, mentioned in dpki")
  end.

Definition check_consistency (self : Configuration) : Outcome (Result string ()) :=
  match check_elements self with
  | Err e => Ret (Err e)
  | Ok _ =>
      sorted ← instance_ids_sorted_by_bridge_dependencies self;
      Ret match sorted with
          | Ok _ => Ok ()
          | Err e => Err (HolochainError_fmt e)
          end
  end.

(** ** Consistent configurations *)

(** The DNA of an instance can be loaded. *)
Definition loads (self : Configuration) (id : string) (dna : Dna) : Prop :=
  ∃ instance dna_config, instance_by_id self id = Some instance ∧
    dna_by_id self (instance_dna instance) = Some dna_config ∧
    dna_loader (dna_file dna_config) = Ok dna.

(** A zome offers a trait: it exports the functions with the signatures. *)
Definition offers (zome : Zome) (name : string) (tr : Trait) : Prop :=
  ∃ fns, (name, fns) ∈ traits zome ∧
    ∀ f, f ∈ trait_functions tr → fn_name f ∈ trait_fn_names fns ∧ f ∈ fn_declarations zome.

Definition satisfies (callee : Dna) (r : BridgeReference) : Prop :=
  match r with
  | BridgeReference_Address a => a = Dna_address callee
  | BridgeReference_Trait expected =>
      ∀ name tr, (name, tr) ∈ expected → ∃ zn zome, (zn, zome) ∈ zomes callee ∧ offers zome name tr
  end.

(** The bridge connects two instances with DNAs, is defined by the caller's and
    the callee's is what the definition asks for. *)
Definition bridge_fits (self : Configuration) (b : BridgeConfiguration) : Prop :=
  ∃ caller callee bridge_def, loads self (caller_id b) caller ∧ loads self (callee_id b) callee ∧
    bridge_definition caller (bridge_handle b) = Some bridge_def ∧
    satisfies callee (reference bridge_def).

Definition instance_fits (self : Configuration) (instance : InstanceConfiguration) : Prop :=
  instance_agent instance ∈ (agent_id <$> agents self) ∧
  ∃ dna_config dna, dna_by_id self (instance_dna instance) = Some dna_config ∧
    dna_loader (dna_file dna_config) = Ok dna ∧
    ∀ b, b ∈ Dna_get_required_bridges dna → handle b ∈ (bridge_handle <$> bridges self).

Definition ui_interface_fits (self : Configuration) (ui : UiInterfaceConfiguration) : Prop :=
  ui_bundle ui ∈ (bundle_id <$> ui_bundles self) ∧
  ∀ i, ui_dna_interface ui = Some i → i ∈ (interface_id <$> interfaces self).

(** The instances can be numbered such that every bridge goes up. *)
Definition acyclic (self : Configuration) : Prop :=
  ∃ rank : string → nat, ∀ b, b ∈ bridges self → rank (caller_id b) < rank (callee_id b).

Record well_formed (self : Configuration) : Prop := {
  unique_agents : NoDup (agent_id <$> agents self);
  unique_dnas : NoDup (dna_id <$> dnas self);
  unique_instances : NoDup (instance_ids self);
  unique_storage : NoDup (omap storage_path (instances self));
  unique_interfaces : NoDup (interface_id <$> interfaces self);
  instances_fit instance : instance ∈ instances self → instance_fits self instance;
  interfaces_fit interface r : interface ∈ interfaces self → r ∈ interface_instances interface →
    ref_id r ∈ instance_ids self;
  bridges_fit b : b ∈ bridges self → bridge_fits self b;
  ui_interfaces_fit ui : ui ∈ ui_interfaces self → ui_interface_fits self ui;
  dpki_fits d : dpki self = Some d → dpki_instance d ∈ instance_ids self;
}.

Definition consistent (self : Configuration) : Prop := well_formed self ∧ acyclic self.

(** ** Theorems *)

Lemma dupes_of_nil set items :
  dupes_of set items = [] ↔ NoDup items ∧ ∀ x, x ∈ items → x ∉ set.
Proof.
  revert set. induction items as [|x items IH]; intros set; cbn.
  - split; [split; [constructor|set_solver]|done].
  - rewrite NoDup_cons. destruct (decide (x ∈ set)).
    + split; [done|]. intros [_ Hx]. by destruct (Hx x (list_elem_of_here _ _)).
    + rewrite IH. set_solver.
Qed.

Lemma detect_dupes_ok name items : detect_dupes name items = Ok () ↔ NoDup items.
Proof.
  unfold detect_dupes. transitivity (dupes_of ∅ items = []).
  - by destruct (dupes_of ∅ items).
  - rewrite dupes_of_nil. set_solver.
Qed.

Lemma all_inserted_spec set paths :
  all_inserted set paths = true ↔ NoDup paths ∧ ∀ x, x ∈ paths → x ∉ set.
Proof.
  rewrite <- dupes_of_nil. revert set. induction paths as [|x paths IH]; intros set; cbn; [done|].
  destruct (decide (x ∈ set)); [done|apply IH].
Qed.

Lemma check_instances_storage_ok self :
  check_instances_storage self = Ok () ↔ NoDup (omap storage_path (instances self)).
Proof.
  unfold check_instances_storage. transitivity (all_inserted ∅ (omap storage_path (instances self)) = true).
  - by destruct (all_inserted _ _).
  - rewrite all_inserted_spec. set_solver.
Qed.

Lemma check_instance_config_ok self instance :
  check_instance_config self instance = Ok () ↔ instance_fits self instance.
Proof.
  unfold check_instance_config, instance_fits. rewrite bind_ok.
  split.
  - intros ([] & Ha%ensure_decide_ok%find_key_is_Some & (dc & ?%ok_or_ok & (dna & ?%map_err_ok & Hr)%bind_ok)%bind_ok).
    split; [done|]. exists dc, dna. do 2 (split; [done|]). intros b Hb.
    rewrite try_each_ok in Hr. specialize (Hr b Hb).
    by rewrite ensure_decide_ok, find_key_is_Some in Hr.
  - intros (Ha & dc & dna & Hd & Hl & Hr). exists ().
    split; [by apply ensure_decide_ok, find_key_is_Some|]. apply bind_ok. exists dc. rewrite Hd. split; [done|]. apply bind_ok. exists dna. rewrite Hl.
    split; [done|]. apply try_each_ok. intros b Hb.
    rewrite ensure_decide_ok, find_key_is_Some. auto.
Qed.

Lemma check_interface_config_ok self interface :
  check_interface_config self interface = Ok () ↔
  ∀ r, r ∈ interface_instances interface → ref_id r ∈ instance_ids self.
Proof.
  unfold check_interface_config. rewrite try_each_ok.
  setoid_rewrite ensure_decide_ok.
  by setoid_rewrite instance_by_id_is_Some.
Qed.

Lemma load_bridge_end_ok self id dna :
  (∃ config, load_bridge_end self id = Ok (config, dna)) ↔ loads self id dna.
Proof.
  unfold load_bridge_end, loads. split.
  - intros (config & (ic & ?%ok_or_ok & (dc & ?%ok_or_ok & (d & ?%map_err_ok & ?)%bind_ok)%bind_ok)%bind_ok).
    simplify_eq. eauto.
  - intros (ic & dc & Hi & Hd & Hl). exists ic. by rewrite Hi; cbn; rewrite Hd; cbn; rewrite Hl.
Qed.

Lemma zome_implements_spec name tr zome : zome_implements name tr zome = true ↔ offers zome name tr.
Proof.
  unfold zome_implements, offers. rewrite existsb_exists. split.
  - intros ([n fns] & Hin%list_elem_of_In & [-> %String.eqb_eq Hb]%andb_true_iff).
    exists fns. split; [done|]. intros f Hf%list_elem_of_In.
    apply andb_true_iff in Hb as [Hall Hm]. rewrite Hall in Hm.
    rewrite forallb_forall in Hall, Hm. specialize (Hall f Hf). specialize (Hm f Hf).
    by apply bool_decide_eq_true in Hall, Hm.
  - intros (fns & Hin & Hall). exists (name, fns). split; [by apply list_elem_of_In|].
    rewrite String.eqb_refl; cbn.
    assert (forallb (λ fn_def, bool_decide (fn_name fn_def ∈ trait_fn_names fns)) (trait_functions tr) = true) as ->.
    { apply forallb_forall. intros f ?%list_elem_of_In. apply bool_decide_eq_true. by apply Hall. }
    cbn. apply forallb_forall. intros f ?%list_elem_of_In. apply bool_decide_eq_true. by apply Hall.
Qed.

Lemma check_bridge_requirements_ok self b :
  check_bridge_requirements self b = Ok () ↔ bridge_fits self b.
Proof.
  unfold check_bridge_requirements, bridge_fits. split.
  - intros ([ic caller] & Hc & ([ic' callee] & Hd & (def & ?%ok_or_ok & Hr)%bind_ok)%bind_ok)%bind_ok.
    exists caller, callee, def. do 2 (split; [by apply load_bridge_end_ok; eauto|]). split; [done|].
    destruct (reference def) as [a|expected]; cbn; [by apply ensure_decide_ok in Hr|].
    intros name tr Hin. rewrite try_each_ok in Hr. specialize (Hr _ Hin). cbn in Hr.
    apply ensure_ok, existsb_exists in Hr as ([zn zome] & ?%list_elem_of_In & ?%zome_implements_spec).
    eauto.
  - intros (caller & callee & def & [ic Hc]%load_bridge_end_ok & [ic' Hd]%load_bridge_end_ok & Hdef & Hs).
    rewrite Hc; cbn; rewrite Hd; cbn; rewrite Hdef; cbn.
    destruct (reference def) as [a|expected]; cbn in *; [by apply ensure_decide_ok|].
    apply try_each_ok. intros [name tr] Hin. destruct (Hs _ _ Hin) as (zn & zome & Hz & Ho).
    apply ensure_ok, existsb_exists. exists (zn, zome). split; [by apply list_elem_of_In|].
    by apply zome_implements_spec.
Qed.

Lemma check_ui_interface_config_ok self ui :
  check_ui_interface_config self ui = Ok () ↔ ui_interface_fits self ui.
Proof.
  unfold check_ui_interface_config, ui_interface_fits. split.
  - intros ([] & Hb%ensure_decide_ok%find_key_is_Some & Hd)%bind_ok. split; [done|].
    intros i Hi. rewrite Hi in Hd. by apply ensure_decide_ok, find_key_is_Some in Hd.
  - intros [Hb Hd]. apply bind_ok. exists (). split; [by apply ensure_decide_ok, find_key_is_Some|].
    destruct (ui_dna_interface ui); [|done]. apply ensure_decide_ok, find_key_is_Some. auto.
Qed.

Lemma check_elements_ok self : check_elements self = Ok () ↔ well_formed self.
Proof.
  unfold check_elements. split.
  - intros ([] & ?%detect_dupes_ok & ([] & ?%detect_dupes_ok & ([] & ?%detect_dupes_ok & 
      ([] & ?%check_instances_storage_ok & ([] & ?%detect_dupes_ok & ([] & Hinst & ([] & Hint &
      ([] & Hbr & ([] & Hui & Hdp)%bind_ok)%bind_ok)%bind_ok)%bind_ok)%bind_ok)%bind_ok)%bind_ok)%bind_ok)%bind_ok.
    split; try done.
    + intros. by apply check_instance_config_ok, (proj1 (try_each_ok _ _) Hinst).
    + intros interface r Hi. by apply check_interface_config_ok, (proj1 (try_each_ok _ _) Hint).
    + intros. by apply check_bridge_requirements_ok, (proj1 (try_each_ok _ _) Hbr).
    + intros. by apply check_ui_interface_config_ok, (proj1 (try_each_ok _ _) Hui).
    + intros d Hd. rewrite Hd in Hdp. by apply ensure_decide_ok, instance_by_id_is_Some in Hdp.
  - intros []. repeat (apply bind_ok; exists (); split).
    1-3, 5: by apply detect_dupes_ok.
    + by apply check_instances_storage_ok.
    + apply try_each_ok. intros. apply check_instance_config_ok; auto.
    + apply try_each_ok. intros. apply check_interface_config_ok; eauto.
    + apply try_each_ok. intros. apply check_bridge_requirements_ok; auto.
    + apply try_each_ok. intros. apply check_ui_interface_config_ok; auto.
    + destruct (dpki self); [|done]. apply ensure_decide_ok, instance_by_id_is_Some. auto.
Qed.

Lemma loads_instance self id dna : loads self id dna → id ∈ instance_ids self.
Proof. intros (ic & dc & Hi & _). apply instance_by_id_is_Some. eauto. Qed.

Lemma bridge_ends self b : bridge_fits self b →
  caller_id b ∈ instance_ids self ∧ callee_id b ∈ instance_ids self.
Proof. intros (? & ? & ? & ?%loads_instance & ?%loads_instance & _). done. Qed.
End with_loader.

Lemma instance_ids_length self : length (instance_ids self) = length (instances self).
Proof. apply length_fmap. Qed.

(** With distinct ids, the two maps are inverse to each other. *)
Lemma index_map_lookup self id i : NoDup (instance_ids self) →
  index_map self !! id = Some i ↔ instance_ids self !! i = Some id.
Proof.
  intros Hnd. unfold index_map.
  assert (Hf : (zip (instance_ids self) (seq 0 (length (instances self)))).*1 = instance_ids self).
  { apply fst_zip. by rewrite instance_ids_length, length_seq. }
  rewrite <- elem_of_list_to_map by (by rewrite fmap_reverse, Hf, reverse_Permutation).
  rewrite elem_of_reverse, list_elem_of_lookup. setoid_rewrite lookup_zip_Some.
  split.
  - intros (j & Hj & [-> _]%lookup_seq). done.
  - intros Hi. exists i. split; [done|]. apply lookup_seq. split; [done|].
    apply lookup_lt_Some in Hi. by rewrite instance_ids_length in Hi.
Qed.

Lemma reverse_map_lookup self i id : NoDup (instance_ids self) →
  reverse_map self !! i = Some id ↔ instance_ids self !! i = Some id.
Proof.
  intros Hnd.
  assert (Hin : ∀ x, (i, x) ∈ reverse (omap (λ id, (λ ix, (ix, id)) <$> index_map self !! id)
                   (instance_ids self)) ↔ instance_ids self !! i = Some x).
  { intros x. rewrite elem_of_reverse, list_elem_of_omap. split.
    - intros (y & _ & (j & Hj & [= -> ->])%fmap_Some). by apply index_map_lookup.
    - intros Hx. exists x. split; [by eapply list_elem_of_lookup_2|].
      apply (index_map_lookup self x i) in Hx; [|done]. by rewrite Hx. }
  split.
  - intros Hi%elem_of_list_to_map_2. by apply Hin.
  - intros Hi. apply elem_of_list_to_map_1'; [|by apply Hin].
    intros y Hy%Hin. congruence.
Qed.

Lemma mapM_bridge_edge self es : NoDup (instance_ids self) →
  mapM (M:=Result HolochainError) (bridge_edge self) (bridges self) = Ok es ↔
  Forall2 (λ b e, instance_ids self !! e.1 = Some (caller_id b) ∧
                  instance_ids self !! e.2 = Some (callee_id b)) (bridges self) es.
Proof.
  intros Hnd. revert es. induction (bridges self) as [|b bs IH]; intros es; cbn.
  - unfold mret, Result_ret. split; [by intros [= <-]|by intros ->%Forall2_nil_inv_l].
  - rewrite bind_ok. split.
    + intros (e & He & (es' & Hes & [= <-])%bind_ok). constructor; [|by apply IH].
      unfold bridge_edge in He. destruct (index_map self !! caller_id b) eqn:Hc,
        (index_map self !! callee_id b) eqn:Hd; simplify_eq/=.
      by apply index_map_lookup in Hc, Hd.
    + intros (e & es' & [Hc Hd] & Hf & ->)%Forall2_cons_inv_l. exists e. split.
      * unfold bridge_edge. apply index_map_lookup in Hc, Hd; [|done..]. rewrite Hc, Hd. by destruct e.
      * apply bind_ok. exists es'. split; [by apply IH|done].
Qed.

(** The nodes of a sorted graph are read back as the ids. *)
Lemma mapM_reverse_map self l : NoDup (instance_ids self) →
  (∀ i, i ∈ l → i < length (instances self)) →
  ∃ ids, mapM (M:=Outcome) (λ i, unwrap (reverse_map self !! i)) l = Ret ids ∧
    Forall2 (λ i id, instance_ids self !! i = Some id) l ids.
Proof.
  intros Hnd. induction l as [|i l IH]; intros Hl; cbn; [by exists []|].
  destruct IH as (ids & Hids & Hf); [set_solver|]. rewrite Hids.
  destruct (lookup_lt_is_Some_2 (instance_ids self) i) as [id Hid].
  { rewrite instance_ids_length. apply Hl. by left. }
  pose proof Hid as Hr. apply reverse_map_lookup in Hr; [|done]. rewrite Hr. cbn. eauto.
Qed.

(** The ids that belong to a permutation of the nodes are a permutation of the
    ids. *)
Lemma ids_permutation (ids : list string) (nodes : list nat) (l : list string) :
  nodes ≡ₚ seq 0 (length ids) → Forall2 (λ i id, ids !! i = Some id) nodes l → l ≡ₚ ids.
Proof.
  intros Hp Hf.
  assert (l = omap (λ i, ids !! i) nodes) as ->.
  { clear Hp. induction Hf as [|i id nodes l Hi _ IH]; [done|]. cbn. by rewrite Hi, IH. }
  rewrite Hp. assert (Hpre : ∀ pre post,
    omap (λ i, (pre ++ post : list string)%list !! i) (seq (length pre) (length post)) = post).
  { intros pre post. revert pre. induction post as [|x post IH]; intros pre; [done|]. cbn.
    rewrite list_lookup_middle by done. f_equal. rewrite <- (IH (pre ++ [x])%list) at 2.
    rewrite length_app, Nat.add_comm, <- (assoc_L (++)%list). done. }
  pose proof (Hpre [] ids) as Hall. cbn in Hall. by rewrite Hall.
Qed.

Section sorted.
Context `{!ToposortLaws}.

Lemma bridge_edges_exist self : NoDup (instance_ids self) →
  (∀ b, b ∈ bridges self → caller_id b ∈ instance_ids self ∧ callee_id b ∈ instance_ids self) →
  ∃ es, mapM (M:=Result HolochainError) (bridge_edge self) (bridges self) = Ok es ∧
    Forall2 (λ b e, instance_ids self !! e.1 = Some (caller_id b) ∧
                    instance_ids self !! e.2 = Some (callee_id b)) (bridges self) es.
Proof.
  intros Hnd Hends. setoid_rewrite mapM_bridge_edge; [|done].
  enough (∃ es, Forall2 (λ b e, instance_ids self !! e.1 = Some (caller_id b) ∧
    instance_ids self !! e.2 = Some (callee_id b)) (bridges self) es) as [es Hes] by eauto.
  induction (bridges self) as [|b bs IH]; [by exists []|].
  destruct IH as [es Hes]; [set_solver|]. destruct (Hends b) as [Hc Hd]; [by left|].
  apply list_elem_of_lookup in Hc as [i Hi]. apply list_elem_of_lookup in Hd as [j Hj].
  exists ((i, j) :: es). by constructor.
Qed.

(** Sorting the instances succeeds exactly for acyclic bridges, with the callees
    before the callers. *)
Lemma sorted_spec self : NoDup (instance_ids self) →
  (∀ b, b ∈ bridges self → caller_id b ∈ instance_ids self ∧ callee_id b ∈ instance_ids self) →
  (acyclic self ∧ ∃ l, instance_ids_sorted_by_bridge_dependencies self = Ret (Ok l) ∧
     l ≡ₚ instance_ids self ∧ ∀ b, b ∈ bridges self → before l (callee_id b) (caller_id b)) ∨
  (¬ acyclic self ∧ ∃ e, instance_ids_sorted_by_bridge_dependencies self = Ret (Err e)).
Proof.
  intros Hnd Hends. destruct (bridge_edges_exist self) as (es & Hes & Hf); [done..|].
  unfold instance_ids_sorted_by_bridge_dependencies. rewrite Hes.
  destruct (toposort _ es) as [nodes|] eqn:Ht; [left|right].
  - apply toposort_order in Ht as [Hp Hb]. rewrite <- instance_ids_length in Hp, Hb.
    destruct (mapM_reverse_map self (reverse nodes)) as (l & Hl & Hfl); [done|..].
    { intros i. rewrite elem_of_reverse, Hp, elem_of_seq, instance_ids_length. lia. }
    rewrite Hl. cbn.
    assert (Hperm : l ≡ₚ instance_ids self).
    { eapply ids_permutation, Hfl. by rewrite reverse_Permutation. }
    assert (Hbef : ∀ b, b ∈ bridges self → before l (callee_id b) (caller_id b)).
    { intros b (i & Hi)%list_elem_of_lookup. destruct (Forall2_lookup_l _ _ _ _ _ Hf Hi) as ([a c] & He & Ha & Hc).
      cbn in *. destruct (Hb a c) as (k & k' & Hk & Hk' & ?).
      { by eapply list_elem_of_lookup_2. } { by eapply lookup_lt_Some. } { by eapply lookup_lt_Some. }
      apply before_reverse. apply Forall2_reverse in Hfl. rewrite reverse_involutive in Hfl.
      destruct (Forall2_lookup_l _ _ _ _ _ Hfl Hk) as (x & Hx & ?).
      destruct (Forall2_lookup_l _ _ _ _ _ Hfl Hk') as (y & Hy & ?). simplify_eq.
      by exists k, k'. }
    split; [|by eauto]. destruct (before_rank (reverse l)) as [rank Hrank].
    { by rewrite reverse_Permutation, Hperm. }
    exists rank. intros b Hbr. apply Hrank, before_reverse. rewrite reverse_involutive. auto.
  - split; [|by eauto]. intros [rank Hrank].
    destruct (toposort_acyclic (length (instances self)) es
      (λ i, rank (instance_ids self !!! i))) as [? Hsome]; [|congruence].
    intros a c (i & Hi)%list_elem_of_lookup.
    destruct (Forall2_lookup_r _ _ _ _ _ Hf Hi) as (b & Hb & Ha & Hc). cbn in *.
    rewrite (list_lookup_total_correct _ _ _ Ha), (list_lookup_total_correct _ _ _ Hc).
    apply Hrank. by eapply list_elem_of_lookup_2.
Qed.

Lemma check_consistency_total dna_loader self : ∃ r,
  check_consistency dna_loader self = Ret r ∧ (r = Ok () ↔ consistent dna_loader self).
Proof.
  unfold check_consistency, consistent.
  destruct (check_elements dna_loader self) as [[]|e] eqn:He; last first.
  { eexists; split; [done|]. split; [done|]. intros [Hwf%check_elements_ok _]. congruence. }
  apply check_elements_ok in He.
  destruct (sorted_spec self) as [(Hac & l & Hl & _)|(Hac & e & Hl)]; [by apply He|..].
  { intros b Hb. eapply bridge_ends, bridges_fit; eauto. }
  - rewrite Hl. eexists; split; [done|naive_solver].
  - rewrite Hl. eexists; split; [done|naive_solver].
Qed.

Lemma check_consistency_ok dna_loader self :
  check_consistency dna_loader self = Ret (Ok ()) ↔ consistent dna_loader self.
Proof. destruct (check_consistency_total dna_loader self) as (r & -> & <-). naive_solver. Qed.

(** C13: The consistency check of a configuration never panics and accepts
    exactly the consistent configurations: the ids of agents, DNAs, instances
    and interfaces and the storage paths are distinct, every reference is to an
    existing element, the DNA of every instance can be loaded, for every bridge that
    such a DNA requires there is some bridge with its handle, every bridge fits the
    DNAs it connects, and the bridges have no cycle.  A DNA that no instance uses is
    not loaded. *)
Theorem configuration_check_spec dna_loader self : ∃ r,
  check_consistency dna_loader self = Ret r ∧ (r = Ok () ↔ consistent dna_loader self).
Proof. apply check_consistency_total. Qed.

(** In a consistent configuration the order in which the instances are
    created contains every instance once, the callee of every bridge before its
    caller. *)
Theorem start_order_spec dna_loader self : consistent dna_loader self → ∃ l,
  instance_ids_sorted_by_bridge_dependencies self = Ret (Ok l) ∧
  l ≡ₚ instance_ids self ∧ ∀ b, b ∈ bridges self → before l (callee_id b) (caller_id b).
Proof.
  intros [Hwf Hac]. destruct (sorted_spec self) as [(_ & ?)|(? & _)]; [by apply Hwf| |done..].
  intros b Hb. eapply bridge_ends, bridges_fit; eauto.
Qed.
End sorted.

(** Loading more DNAs keeps a configuration consistent. *)
Lemma consistent_mono loader loader' self : 
  (∀ p d, loader p = Ok d → loader' p = Ok d) → consistent loader self → consistent loader' self.
Proof.
  intros Hl [[] Hac]. split; [|done]. split; try done.
  - intros ic Hic. destruct (instances_fit0 ic Hic) as (? & dc & dna & ? & ? & ?).
    split; [done|]. exists dc, dna. auto.
  - intros b Hb. destruct (bridges_fit0 b Hb) as (c & d & def & (? & ? & ? & ? & ?) & (? & ? & ? & ? & ?) & ? & ?).
    exists c, d, def. split_and!; [..|done|done]; do 2 eexists; eauto.
Qed.

(** Neither agents' addresses nor DNAs' hashes matter for consistency. *)
Lemma consistent_update_agent loader self id key :
  consistent loader self → consistent loader (update_agent_address_by_id self id key).
Proof.
  assert (Hids : agent_id <$> agents (update_agent_address_by_id self id key) = agent_id <$> agents self).
  { destruct self; cbn. rewrite <- list_fmap_compose. apply list_fmap_ext. intros i a _. cbn.
    by case_decide. }
  intros [[] Hac]. split; [|by destruct self].
  split; rewrite ?Hids; try by destruct self.
  intros ic Hic. destruct (instances_fit0 ic) as (? & Hfit); [by destruct self|].
  split; [by rewrite Hids|]. by destruct self.
Qed.

Lemma update_hash_ids l id hash : dna_id <$> update_hash l id hash = dna_id <$> l.
Proof. induction l as [|d l IH]; [done|]. cbn. case_decide; cbn; congruence. Qed.

Lemma dna_by_id_update_hash self id hash id' dc :
  dna_by_id self id' = Some dc →
  ∃ dc', dna_by_id (update_dna_hash_by_id self id hash).1 id' = Some dc' ∧ dna_file dc' = dna_file dc.
Proof.
  unfold dna_by_id. destruct self as [? l]; cbn. induction l as [|d l IH]; [done|].
  unfold find_by in *. cbn. repeat (case_decide; cbn); intros Hd; simplify_eq/=; eauto;
    destruct (list_find _ l) as [[]|] eqn:?; simplify_eq/=; eauto.
  destruct (IH eq_refl) as (dc' & Hdc & Hf).
  destruct (list_find _ (update_hash l id hash)) as [[]|] eqn:?; simplify_eq/=; eauto.
Qed.

Lemma consistent_update_dna_hash loader self id hash :
  consistent loader self → consistent loader (update_dna_hash_by_id self id hash).1.
Proof.
  pose proof (dna_by_id_update_hash self id hash) as Hdna.
  intros [[] Hac]. split; [|by destruct self]. split; try by destruct self.
  - destruct self; cbn. by rewrite update_hash_ids.
  - intros ic Hic. destruct (instances_fit0 ic) as (? & dc & dna & Hd & ? & ?); [by destruct self|].
    apply Hdna in Hd as (dc' & Hd & Hf). split; [by destruct self|]. exists dc', dna.
    rewrite Hf. by destruct self.
  - intros b Hb.
    assert (Hl : ∀ i d, loads loader self i d → loads loader (update_dna_hash_by_id self id hash).1 i d).
    { intros i d (ic & dc & Hi & Hd & ?). apply Hdna in Hd as (dc' & Hd & Hf).
      exists ic, dc'. rewrite Hf. by destruct self. }
    destruct (bridges_fit0 b) as (c & d & def & ? & ? & ? & ?); [by destruct self|].
    exists c, d, def. auto.
Qed.

Lemma save_remove_instance_ids self id :
  instance_ids (save_remove_instance self id) = filter (.≠ id) (instance_ids self).
Proof.
  unfold instance_ids. destruct self as [? ? l]; cbn. induction l as [|ic l IH]; [done|].
  rewrite fmap_cons, !filter_cons. repeat case_decide; cbn; congruence.
Qed.

Lemma omap_sublist {A B} (f : A → option B) (l k : list A) :
  l `sublist_of` k → omap f l `sublist_of` omap f k.
Proof. induction 1 as [|x l k _ IH|x l k _ IH]; cbn; [done|..]; destruct (f x); by try constructor. Qed.

Lemma fmap_sublist {A B} (f : A → B) (l k : list A) :
  l `sublist_of` k → (f <$> l) `sublist_of` (f <$> k).
Proof. induction 1; cbn; by constructor. Qed.

Lemma save_remove_instance_by_id self id id' : id' ≠ id →
  instance_by_id (save_remove_instance self id) id' = instance_by_id self id'.
Proof.
  intros Hne. unfold instance_by_id. destruct self as [? ? l]; cbn.
  induction l as [|ic l IH]; [done|]. rewrite filter_cons. unfold find_by in *.
  repeat (case_decide; cbn); subst; try done; rewrite <- ?IH;
    by destruct (list_find _ _) as [[]|], (list_find _ _) as [[]|].
Qed.

Lemma save_remove_instance_loads loader self id id' dna : id' ≠ id →
  loads loader (save_remove_instance self id) id' dna ↔ loads loader self id' dna.
Proof.
  intros Hne. unfold loads. rewrite save_remove_instance_by_id by done. by destruct self.
Qed.

(** Nothing but the interfaces' lists refers to an instance. *)
Definition unmentioned (self : Configuration) (id : string) : Prop :=
  (∀ b, b ∈ bridges self → caller_id b ≠ id ∧ callee_id b ≠ id) ∧
  (∀ d, dpki self = Some d → dpki_instance d ≠ id).

Lemma save_remove_instance_consistent loader self id :
  consistent loader self → unmentioned self id → consistent loader (save_remove_instance self id).
Proof.
  intros [[] Hac] [Hb Hd].
  assert (Hsub : instances (save_remove_instance self id) `sublist_of` instances self).
  { destruct self; cbn. apply sublist_filter. }
  assert (Hids : ∀ i, i ≠ id → i ∈ instance_ids self → i ∈ instance_ids (save_remove_instance self id)).
  { intros i ? ?. rewrite save_remove_instance_ids, list_elem_of_filter. done. }
  split; [|by destruct self]. split; try by destruct self.
  - by eapply sublist_NoDup, fmap_sublist.
  - by eapply sublist_NoDup, omap_sublist.
  - replace (interface_id <$> _) with (interface_id <$> interfaces self); [done|].
    destruct self; cbn. by rewrite <- list_fmap_compose.
  - intros ic Hic. destruct (instances_fit0 ic) as (? & dc & dna & ? & ? & ?).
    { destruct self; cbn in *. by apply list_elem_of_filter in Hic as [_ ?]. }
    split; [by destruct self|]. exists dc, dna. by destruct self.
  - intros i r Hi Hr. assert (∃ i', i' ∈ interfaces self ∧ r ∈ interface_instances i' ∧ ref_id r ≠ id)
      as (i' & ? & ? & ?); [|eauto].
    destruct self; cbn in *. apply list_elem_of_fmap in Hi as (i' & -> & ?). cbn in Hr.
    apply list_elem_of_filter in Hr as [? ?]. eauto.
  - intros b Hin. destruct (bridges_fit0 b) as (c & e & def & ? & ? & ? & ?); [by destruct self|].
    destruct (Hb b); [by destruct self|].
    exists c, e, def. by rewrite !save_remove_instance_loads.
  - intros ui Hui. destruct (ui_interfaces_fit0 ui) as [? Hdi]; [by destruct self|].
    split; [by destruct self|]. intros i Hi%Hdi. destruct self; cbn in *.
    by rewrite <- list_fmap_compose.
  - intros d Hdp. assert (dpki self = Some d) by by destruct self. eauto.
Qed.

(** Removing an instance from a consistent configuration leaves it
    consistent exactly when no bridge and no DPKI setting mentions the instance:
    the function removes the mentions in interfaces only, although it is said to
    remove all of them so that the result is guaranteed to be valid. *)
Theorem save_remove_instance_spec loader self id : consistent loader self →
  consistent loader (save_remove_instance self id) ↔ unmentioned self id.
Proof.
  intros Hc. split; [|by apply save_remove_instance_consistent].
  intros [[] _].
  assert (Hid : id ∉ instance_ids (save_remove_instance self id)).
  { rewrite save_remove_instance_ids, list_elem_of_filter. naive_solver. }
  split.
  - intros b Hb. destruct (bridge_ends loader (save_remove_instance self id) b).
    { apply bridges_fit0. by destruct self. } set_solver.
  - intros d Hd <-. apply Hid, dpki_fits0. by destruct self.
Qed.
End checks.

(** ** A topological sort *)

Fixpoint kahn_loop (fuel : nat) (rest : list nat) (es : list (nat * nat)) : option (list nat) :=
  match rest, fuel with
  | [], _ => Some []
  | _, 0 => None
  | _, S fuel =>
      x ← find_by (λ x, Forall (λ y, (y, x) ∉ es) rest) rest;
      cons x <$> kahn_loop fuel (filter (.≠ x) rest) es
  end.

(** Repeatedly takes a node without a predecessor among the rest. *)
Definition kahn : Toposort := λ n es, kahn_loop n (seq 0 n) es.

Lemma kahn_loop_order fuel rest es l : kahn_loop fuel rest es = Some l → NoDup rest →
  l ≡ₚ rest ∧ ∀ a b, (a, b) ∈ es → a ∈ rest → b ∈ rest → before l a b.
Proof.
  revert rest l. induction fuel as [|fuel IH]; intros [|y rest] l Hl Hnd; simplify_eq/=;
    try (split; [done|set_solver]).
  apply bind_Some in Hl as (x & [Hx Hfree]%find_by_Some & Hl).
  apply fmap_Some in Hl as (l' & Hl & ->). set (all := y :: rest) in *.
  apply IH in Hl as [Hp Hb]; [|by apply NoDup_filter].
  assert (Hin : ∀ z, z ∈ l' ↔ z ∈ all ∧ z ≠ x) by (intros; rewrite Hp, list_elem_of_filter; naive_solver).
  split.
  - apply NoDup_Permutation; [|done|].
    + constructor; [by rewrite Hin; intros [_ []]|]. rewrite Hp. by apply NoDup_filter.
    + intros z. rewrite elem_of_cons, Hin. destruct (decide (z = x)) as [->|]; tauto.
  - intros a b Hab Ha Hb'. assert (b ≠ x) as Hbx.
    { intros ->. rewrite Forall_forall in Hfree. by apply (Hfree a). }
    destruct (decide (a = x)) as [->|Hax].
    + assert (b ∈ l') as [j Hj]%list_elem_of_lookup by by apply Hin. exists 0, (S j).
      split_and!; [done..|lia].
    + destruct (Hb a b Hab) as (i & j & ? & ? & ?); [by apply list_elem_of_filter..|].
      exists (S i), (S j). split_and!; [done..|lia].
Qed.

Lemma lowest_rank (rank : nat → nat) (l : list nat) : l ≠ [] →
  ∃ x, x ∈ l ∧ ∀ y, y ∈ l → (rank x ≤ rank y)%nat.
Proof.
  induction l as [|x [|z l] IH]; intros Hne; [done|exists x; split; [by left|by intros y ->%list_elem_of_singleton]|].
  destruct IH as (m & Hm & Hmin); [done|].
  destruct (decide (rank x ≤ rank m)%nat).
  - exists x. split; [by left|]. intros y [->|Hy]%elem_of_cons; [done|]. specialize (Hmin y Hy). lia.
  - exists m. split; [by right|]. intros y [->|Hy]%elem_of_cons; [lia|auto].
Qed.

Lemma kahn_loop_acyclic fuel rest es (rank : nat → nat) :
  (∀ a b, (a, b) ∈ es → rank a < rank b) → (length rest ≤ fuel)%nat → is_Some (kahn_loop fuel rest es).
Proof.
  intros Hrank. revert rest. induction fuel as [|fuel IH]; intros [|y rest] Hlen;
    [by eexists|cbn in Hlen; lia|by eexists|]. cbn [kahn_loop]. set (all := y :: rest) in *.
  destruct (lowest_rank rank all) as (x & Hx & Hmin); [done|].
  destruct (find_by_is_Some (λ x, Forall (λ y, (y, x) ∉ es) all) all) as [_ [m Hm]].
  { exists x. split; [done|]. apply Forall_forall. intros z Hz Hzx%Hrank.
    specialize (Hmin z Hz). lia. }
  rewrite Hm. cbn [mbind option_bind]. rewrite fmap_is_Some. apply IH.
  apply find_by_Some in Hm as [Hm _]. 
  assert (length (filter (.≠ m) all) < length all); [|cbn in *; lia].
  apply length_filter_lt with m; [done|tauto].
Qed.

#[export] Instance kahn_laws : @ToposortLaws kahn.
Proof.
  split; unfold toposort, kahn.
  - intros n es l Hl. destruct (kahn_loop_order n (seq 0 n) es l Hl (NoDup_seq 0 n)) as [Hp Hb].
    split; [done|]. intros a b Hab Ha Hb'. apply Hb; [done|apply elem_of_seq; lia..].
  - intros n es rank Hrank. apply (kahn_loop_acyclic n (seq 0 n) es rank Hrank). by rewrite length_seq.
Qed.

(** ** Examples *)

Definition toy_dna_addressing : DnaAddressing := dna_name.

Definition bridge_zome (l : list Bridge) : Zome :=
  {| zome_description := ""; entry_types := []; traits := []; fn_declarations := []; code := [0%Z];
     zome_bridges := l |}.

Definition example_dna (name : string) (l : list Bridge) : Dna :=
  {| dna_name := name; dna_description := ""; dna_version := ""; dna_uuid := "";
     dna_spec_version := "2.0"; dna_properties := "{}"; zomes := [("main", bridge_zome l)] |}.

Definition required_bridge (h : string) : Bridge :=
  {| presence := BridgePresence_Required; handle := h; reference := BridgeReference_Trait [] |}.

(** A DNA that needs a bridge, and one that does not. *)
Definition caller_dna : Dna := example_dna "caller" [required_bridge "h"].
Definition callee_dna : Dna := example_dna "callee" [].

Definition example_files : gmap string Dna :=
  {["caller.dna.json" := caller_dna; "callee.dna.json" := callee_dna]}.

Definition example_loader (file : string) : Result HolochainError Dna :=
  ok_or (HolochainError_IoError "entity not found") (example_files !! file).

Definition example_instance (id dna : string) : InstanceConfiguration :=
  {| instance_id := id; instance_dna := dna; instance_agent := "alice";
     instance_storage := StorageConfiguration_Memory |}.

Definition example_config (insts : list InstanceConfiguration) (bs : list BridgeConfiguration) :
    Configuration := {|
  agents := [{| agent_id := "alice"; agent_config_name := "alice"; agent_public_address := "key";
                agent_keystore_file := "key"; agent_holo_remote_key := None;
                agent_test_agent := None |}];
  dnas := [{| dna_id := "caller"; dna_file := "caller.dna.json"; dna_hash := "caller"; dna_config_uuid := None |};
           {| dna_id := "callee"; dna_file := "callee.dna.json"; dna_hash := "callee"; dna_config_uuid := None |}];
  instances := insts; interfaces := []; bridges := bs; ui_bundles := []; ui_interfaces := [];
  persistence_dir := "/hc"; signing_service_uri := None; encryption_service_uri := None;
  decryption_service_uri := None; dpki := None;
  signals := {| signals_trace := false; signals_consistency := false |} |}.

Definition bridge_from (caller callee : string) : BridgeConfiguration :=
  {| caller_id := caller; callee_id := callee; bridge_handle := "h" |}.

(** The caller is listed before its callee. *)
Definition pair_config : Configuration :=
  example_config [example_instance "a" "caller"; example_instance "b" "callee"] [bridge_from "a" "b"].

(** Two callers; only one of them has its bridge. *)
Definition shared_handle_config : Configuration :=
  example_config [example_instance "a" "caller"; example_instance "b" "callee";
                  example_instance "c" "caller"] [bridge_from "c" "b"].

Lemma pair_config_consistent :
  @consistent toy_dna_addressing example_loader pair_config.
Proof.
  apply (@check_consistency_ok kahn toy_dna_addressing kahn_laws). vm_compute. reflexivity.
Qed.

(** A configuration is accepted although an instance has no bridge for the handle
    its DNA requires: the check is satisfied by the bridge of another instance. *)
Theorem required_bridge_of_another_instance :
  @check_consistency kahn toy_dna_addressing example_loader shared_handle_config = Ret (Ok ()) ∧
  (∃ b, b ∈ Dna_get_required_bridges caller_dna ∧ handle b = "h") ∧
  instance_by_id shared_handle_config "a" = Some (example_instance "a" "caller") ∧
  bridge_dependencies shared_handle_config "a" = [].
Proof.
  split; [vm_compute; reflexivity|]. split; [|done]. exists (required_bridge "h"). by split; [left|].
Qed.

Lemma configuration_check_spec_witness : ∃ r,
  @check_consistency kahn toy_dna_addressing example_loader pair_config = Ret r ∧
  (r = Ok () ↔ @consistent toy_dna_addressing example_loader pair_config).
Proof.
  apply (@configuration_check_spec kahn toy_dna_addressing kahn_laws example_loader pair_config).
Defined.

Lemma start_order_spec_witness : ∃ l,
  @instance_ids_sorted_by_bridge_dependencies kahn pair_config = Ret (Ok l) ∧
  l ≡ₚ instance_ids pair_config ∧
  ∀ b, b ∈ bridges pair_config → before l (callee_id b) (caller_id b).
Proof.
  exact (@start_order_spec kahn toy_dna_addressing kahn_laws example_loader pair_config
           pair_config_consistent).
Defined.

Lemma save_remove_instance_spec_witness :
  @consistent toy_dna_addressing example_loader (save_remove_instance pair_config "b") ↔
  unmentioned pair_config "b".
Proof.
  exact (@save_remove_instance_spec toy_dna_addressing example_loader pair_config "b"
           pair_config_consistent).
Defined.
