(* ===== verification/Conductor.v ===== *)
(** * The conductor

    Models [src/crates/conductor_lib/src/conductor/base.rs], with
    [holochain.rs], [error.rs], the handlers [interface.rs] builds and the static
    servers: keys, creating, starting and stopping instances, their conductor
    APIs, interfaces, booting, and the routing of signals.

    The conductor is a record; an operation takes it and gives back a result and
    the changed conductor, or panics.  Instances are shared ([Arc<RwLock<..>>]):
    they live in the heap [c_heap] and are referred to by number from the
    instance map, from the APIs of their callers and from interfaces.  The file
    system is the DNA files [c_dna_files] and the configuration file [c_saved].
    Whether other accesses to it succeed, the keystores and the work of an
    instance's initialization are operations of the class [ConductorEnv].  Not
    modelled are the worker threads, statistics and tracing. *)

From S2P Require Import Prelude Errors CoreTypes Dna Config.

Local Open Scope string_scope.

(** ** error.rs *)

Inductive HolochainInstanceError : Type :=
| InstanceError_InternalFailure (e : HolochainError)
| InstanceError_InstanceNotActiveYet
| InstanceError_InstanceAlreadyActive
| InstanceError_InstanceNotInitialized
| InstanceError_NoSuchInstance
| InstanceError_RequiredBridgeMissing (handle : string).

Definition HolochainInstanceError_fmt (e : HolochainInstanceError) : string :=
  "Holochain Instance Error: " +:+
  match e with
  | InstanceError_InternalFailure err => HolochainError_fmt err
  | InstanceError_InstanceNotActiveYet => "Holochain instance is not active yet."
  | InstanceError_InstanceAlreadyActive => "Holochain instance is already active."
  | InstanceError_InstanceNotInitialized => "Holochain instance is not initialized."
  | InstanceError_NoSuchInstance => "Instance does not exist"
  | InstanceError_RequiredBridgeMissing handle =>
      "Required bridge is not present/started: " +:+ handle
  end.

(** [From<HolochainInstanceError> for HolochainError], [From<String>] and
    [From<NoneError>]. *)
Definition error_of_instance (e : HolochainInstanceError) : HolochainError :=
  HolochainError_new (HolochainInstanceError_fmt e).
Definition error_of_string (s : string) : HolochainError := HolochainError_new s.
Definition none_error : HolochainError :=
  HolochainError_ErrorGeneric "Expected Some and got None".

(** ** The handlers of interface.rs *)

(** What answers a method of a handler. *)
Inductive Method : Type :=
| Method_Call
| Method_Info
| Method_Keybundle (key : string)
| Method_Service (agent : AgentId) (uri : string)
| Method_Keystore
| Method_Conductor.

(** [ConductorApiBuilder]; a spawned [IoHandler] is the builder it came from.
    Instances are the numbers of their cells. *)
Record ConductorApi : Type := {
  api_instances : gmap string N;
  api_instance_configs : gmap string InstanceConfiguration;
  api_methods : gmap string Method;
}.

Definition ConductorApiBuilder_new : ConductorApi :=
  {| api_instances := ∅; api_instance_configs := ∅; api_methods := ∅ |}.

(** [IoHandler::add_method] replaces a method of the same name. *)
Definition add_method (self : ConductorApi) (name : string) (m : Method) : ConductorApi :=
  {| api_instances := api_instances self; api_instance_configs := api_instance_configs self;
     api_methods := <[name := m]> (api_methods self) |}.

Definition add_methods (self : ConductorApi) (names : list string) (m : Method) : ConductorApi :=
  fold_left (λ api name, add_method api name m) names self.

Definition with_named_instance (self : ConductorApi) (instance_name : string) (instance : N) :
    ConductorApi :=
  {| api_instances := <[instance_name := instance]> (api_instances self);
     api_instance_configs := api_instance_configs self; api_methods := api_methods self |}.

Definition with_named_instance_config (self : ConductorApi) (instance_name : string)
    (instance_config : InstanceConfiguration) : ConductorApi :=
  {| api_instances := api_instances self;
     api_instance_configs := <[instance_name := instance_config]> (api_instance_configs self);
     api_methods := api_methods self |}.

Definition spawn (self : ConductorApi) : ConductorApi :=
  add_method (add_method self "info/instances" Method_Info) "call" Method_Call.

Definition with_agent_signature_callback (self : ConductorApi) (key : string) : ConductorApi :=
  add_method self "agent/sign" (Method_Keybundle key).
Definition with_agent_encryption_callback (self : ConductorApi) (key : string) : ConductorApi :=
  add_method self "agent/encrypt" (Method_Keybundle key).
Definition with_agent_decryption_callback (self : ConductorApi) (key : string) : ConductorApi :=
  add_method self "agent/decrypt" (Method_Keybundle key).

Definition with_outsource_signing_callback (self : ConductorApi) (agent : AgentId)
    (signing_service_uri : string) : ConductorApi :=
  add_method self "agent/sign" (Method_Service agent signing_service_uri).

Definition with_agent_keystore_functions (self : ConductorApi) : ConductorApi :=
  add_methods self ["agent/keystore/list"; "agent/keystore/add_random_seed";
    "agent/keystore/add_seed_from_seed"; "agent/keystore/add_key_from_seed";
    "agent/keystore/sign"; "agent/keystore/get_public_key"] Method_Keystore.

Definition admin_dna_methods : list string :=
  ["admin/dna/install_from_file"; "admin/dna/uninstall"; "admin/dna/list"; "admin/instance/add";
   "admin/instance/remove"; "admin/instance/start"; "admin/instance/get_meta"; "admin/instance/stop";
   "admin/instance/list"; "admin/instance/running"; "admin/interface/add"; "admin/interface/remove";
   "admin/interface/add_instance"; "admin/interface/remove_instance"; "admin/interface/list";
   "admin/agent/add"; "admin/agent/remove"; "admin/agent/list"; "admin/bridge/add";
   "admin/bridge/remove"; "admin/bridge/list"].
Definition admin_ui_methods : list string :=
  ["admin/ui/install"; "admin/ui/uninstall"; "admin/ui/list"; "admin/ui_interface/add";
   "admin/ui_interface/remove"; "admin/ui_interface/start"; "admin/ui_interface/stop";
   "admin/ui_interface/list"].
Definition test_admin_methods : list string := ["test/agent/add"].
Definition debug_methods : list string :=
  ["debug/running_instances"; "debug/state_dump"; "debug/fetch_cas"].

Definition with_admin_dna_functions (self : ConductorApi) : ConductorApi :=
  add_methods self admin_dna_methods Method_Conductor.
Definition with_admin_ui_functions (self : ConductorApi) : ConductorApi :=
  add_methods self admin_ui_methods Method_Conductor.
Definition with_test_admin_functions (self : ConductorApi) : ConductorApi :=
  add_methods self test_admin_methods Method_Conductor.
Definition with_debug_functions (self : ConductorApi) : ConductorApi :=
  add_methods self debug_methods Method_Conductor.

(** ** holochain.rs *)

(** [hc_set]: the instance and its context are there; [hc_network]: the network
    of the instance is initialized; [hc_loop]: its action loop runs; [hc_dna]:
    the DNA of its nucleus. *)
Record Holochain : Type := {
  hc_set : bool;
  hc_active : bool;
  hc_network : bool;
  hc_loop : bool;
  hc_dna : option Dna;
  hc_agent : AgentId;
  hc_api : ConductorApi;
}.

Definition check_instance (self : Holochain) : Result HolochainInstanceError () :=
  ensure (hc_set self) InstanceError_InstanceNotInitialized.

Definition check_active (self : Holochain) : Result HolochainInstanceError () :=
  ensure (hc_active self) InstanceError_InstanceNotActiveYet.

Definition set_active (self : Holochain) (active : bool) : Holochain :=
  {| hc_set := hc_set self; hc_active := active; hc_network := hc_network self;
     hc_loop := hc_loop self; hc_dna := hc_dna self; hc_agent := hc_agent self;
     hc_api := hc_api self |}.

Definition Holochain_start (self : Holochain) : Result HolochainInstanceError Holochain :=
  _ ← check_instance self;
  if hc_active self then Err InstanceError_InstanceAlreadyActive
  else Ok (set_active self true).

(** Shutting down the network takes it out of the state; the action loop is
    stopped. *)
Definition Holochain_stop (self : Holochain) : Result HolochainInstanceError Holochain :=
  _ ← check_instance self;
  _ ← check_active self;
  Ok {| hc_set := hc_set self; hc_active := false; hc_network := false; hc_loop := false;
        hc_dna := hc_dna self; hc_agent := hc_agent self; hc_api := hc_api self |}.

Definition kill (self : Holochain) : Holochain :=
  let self := match Holochain_stop self with Ok hc => hc | Err _ => self end in
  {| hc_set := false; hc_active := hc_active self; hc_network := false; hc_loop := false;
     hc_dna := hc_dna self; hc_agent := hc_agent self; hc_api := hc_api self |}.

Definition set_conductor_api (self : Holochain) (api : ConductorApi) :
    Result HolochainInstanceError Holochain :=
  _ ← check_instance self;
  Ok {| hc_set := hc_set self; hc_active := hc_active self; hc_network := hc_network self;
        hc_loop := hc_loop self; hc_dna := hc_dna self; hc_agent := hc_agent self; hc_api := api |}.

(** ** Static servers *)

(** [ss_signal]: [shutdown_signal] is set; [ss_receiver]: the thread that
    receives it still waits. *)
Record StaticServer : Type := {
  ss_config : UiInterfaceConfiguration;
  ss_bundle : UiBundleConfiguration;
  ss_dna_interface : option InterfaceConfiguration;
  ss_signal : bool;
  ss_receiver : bool;
}.

Definition StaticServer_from_configs (config : UiInterfaceConfiguration)
    (bundle_config : UiBundleConfiguration) (connected : option InterfaceConfiguration) :
    StaticServer :=
  {| ss_config := config; ss_bundle := bundle_config; ss_dna_interface := connected;
     ss_signal := false; ss_receiver := false |}.

Definition set_signal (self : StaticServer) (signal receiver : bool) : StaticServer :=
  {| ss_config := ss_config self; ss_bundle := ss_bundle self;
     ss_dna_interface := ss_dna_interface self; ss_signal := signal; ss_receiver := receiver |}.

(** The receiving thread ends after one signal, which drops the receiver; sending
    to it again fails, and the failure is unwrapped. *)
Definition StaticServer_stop (self : StaticServer) :
    Outcome (Result HolochainInstanceError () * StaticServer) :=
  if ss_signal self then
    if ss_receiver self then Ret (Ok (), set_signal self true false) else Panic
  else Ret (Err (InstanceError_InternalFailure
                   (HolochainError_ErrorGeneric "server is already stopped")), self).

(** ** The conductor's environment and state *)

(** Keystores, the file system, the initialization of instances and the binding
    of interfaces, as the code uses them. *)
Class ConductorEnv : Type := {
  Keystore : Type;
  test_keystore : string → Keystore;
  key_loader : string → Result HolochainError Keystore;
  (** [get_keybundle(PRIMARY_KEYBUNDLE_ID)], by the id of the bundle. *)
  primary_keybundle : Keystore → Result HolochainError string;
  (** Opening the storage of an instance, unless it is in memory. *)
  open_storage : StorageConfiguration → Result HolochainError ();
  (** [Holochain::load]: the DNA of the state found in the storage. *)
  load_state : AgentId → StorageConfiguration → Result HolochainError Dna;
  (** [Holochain::new]: initializing a new chain. *)
  initialize_chain : AgentId → StorageConfiguration → Dna → Result HolochainInstanceError ();
  (** Writing the configuration file. *)
  write_config : Configuration → Result HolochainError ();
  (** Whether the server of an interface can be run. *)
  interface_binds : InterfaceConfiguration → bool;
  dpki_is_initialized : Holochain → Result HolochainError bool;
  dpki_init : Holochain → string → Result HolochainError ();
}.

Section conductor.
Context `{Toposort, DnaAddressing, ConductorEnv}.

Record Conductor : Type := {
  c_instances : gmap string N;
  c_heap : gmap N Holochain;
  c_next : N;
  c_signal_receivers : gset string;
  c_agent_keys : gmap string Keystore;
  c_config : Configuration;
  c_static_servers : gmap string StaticServer;
  c_interface_threads : gmap string ConductorApi;
  c_interface_broadcasters : gset string;
  c_multiplexer : option Configuration;
  c_p2p_config : bool;
  c_dna_files : gmap string Dna;
  c_saved : option Configuration;
}.

Section setters.
Context (self : Conductor).

Definition set_c_instances (x : gmap string N) : Conductor :=
  let '(Build_Conductor _ b c d e f g h i j k l m) := self in
  Build_Conductor x b c d e f g h i j k l m.
Definition set_c_heap (x : gmap N Holochain) : Conductor :=
  let '(Build_Conductor a _ c d e f g h i j k l m) := self in
  Build_Conductor a x c d e f g h i j k l m.
Definition set_c_next (x : N) : Conductor :=
  let '(Build_Conductor a b _ d e f g h i j k l m) := self in
  Build_Conductor a b x d e f g h i j k l m.
Definition set_c_signal_receivers (x : gset string) : Conductor :=
  let '(Build_Conductor a b c _ e f g h i j k l m) := self in
  Build_Conductor a b c x e f g h i j k l m.
Definition set_c_agent_keys (x : gmap string Keystore) : Conductor :=
  let '(Build_Conductor a b c d _ f g h i j k l m) := self in
  Build_Conductor a b c d x f g h i j k l m.
Definition set_c_config (x : Configuration) : Conductor :=
  let '(Build_Conductor a b c d e _ g h i j k l m) := self in
  Build_Conductor a b c d e x g h i j k l m.
Definition set_c_static_servers (x : gmap string StaticServer) : Conductor :=
  let '(Build_Conductor a b c d e f _ h i j k l m) := self in
  Build_Conductor a b c d e f x h i j k l m.
Definition set_c_interface_threads (x : gmap string ConductorApi) : Conductor :=
  let '(Build_Conductor a b c d e f g _ i j k l m) := self in
  Build_Conductor a b c d e f g x i j k l m.
Definition set_c_interface_broadcasters (x : gset string) : Conductor :=
  let '(Build_Conductor a b c d e f g h _ j k l m) := self in
  Build_Conductor a b c d e f g h x j k l m.
Definition set_c_multiplexer (x : option Configuration) : Conductor :=
  let '(Build_Conductor a b c d e f g h i _ k l m) := self in
  Build_Conductor a b c d e f g h i x k l m.
Definition set_c_p2p_config (x : bool) : Conductor :=
  let '(Build_Conductor a b c d e f g h i j _ l m) := self in
  Build_Conductor a b c d e f g h i j x l m.
Definition set_c_dna_files (x : gmap string Dna) : Conductor :=
  let '(Build_Conductor a b c d e f g h i j k _ m) := self in
  Build_Conductor a b c d e f g h i j k x m.
Definition set_c_saved (x : option Configuration) : Conductor :=
  let '(Build_Conductor a b c d e f g h i j k l _) := self in
  Build_Conductor a b c d e f g h i j k l x.
End setters.

(** An operation on the conductor. *)
Definition Op (E A : Type) : Type := Conductor → Outcome (Result E A * Conductor).

#[global] Instance Op_ret {E} : MRet (Op E) := λ _ x c, Ret (Ok x, c).
#[global] Instance Op_bind {E} : MBind (Op E) := λ _ _ f m c,
  match m c with
  | Ret (Ok x, c) => f x c
  | Ret (Err e, c) => Ret (Err e, c)
  | Panic => Panic
  | NoFuel => NoFuel
  end.

Definition op_fail {E A} (e : E) : Op E A := λ c, Ret (Err e, c).
Definition op_panic {E A} : Op E A := λ _, Panic.
Definition op_lift {E A} (r : Result E A) : Op E A := λ c, Ret (r, c).
Definition op_outcome {E A} (o : Outcome (Result E A)) : Op E A := λ c,
  match o with
  | Ret r => Ret (r, c)
  | Panic => Panic
  | NoFuel => NoFuel
  end.
Definition op_get {E A} (f : Conductor → A) : Op E A := λ c, Ret (Ok (f c), c).
Definition op_modify {E} (f : Conductor → Conductor) : Op E () := λ c, Ret (Ok (), f c).
(** A call whose error is converted, and one whose result is looked at. *)
Definition op_convert {E F A} (f : E → F) (m : Op E A) : Op F A := λ c,
  match m c with
  | Ret (r, c) => Ret (map_err f r, c)
  | Panic => Panic
  | NoFuel => NoFuel
  end.
Definition op_attempt {E F A} (m : Op E A) : Op F (Result E A) := λ c,
  match m c with
  | Ret (r, c) => Ret (Ok r, c)
  | Panic => Panic
  | NoFuel => NoFuel
  end.
(** [expect], [unwrap]. *)
Definition op_unwrap {E A} (o : option A) : Op E A :=
  match o with Some x => mret x | None => op_panic end.

(** A [for] loop with [?] in its body. *)
Fixpoint op_each {E A} (f : A → Op E ()) (l : list A) : Op E () :=
  match l with
  | [] => mret ()
  | x :: l => _ ← f x; op_each f l
  end.

(** ** Files *)

(** [load_dna], the default loader; a file that is not a DNA is one that is not
    there. *)
Definition load_dna (files : gmap string Dna) (file : string) : Result HolochainError Dna :=
  dna ← ok_or (HolochainError_IoError "entity not found") (files !! file);
  _ ← Dna_verify dna;
  Ok dna.

Definition config_check (config : Configuration) : Op string () :=
  files ← op_get c_dna_files;
  op_outcome (check_consistency (load_dna files) config).

Definition save_config : Op HolochainError () :=
  config ← op_get c_config;
  _ ← op_lift (write_config config);
  op_modify (λ c, set_c_saved c (Some config)).

Definition dna_dir_path (c : Conductor) : string := persistence_dir (c_config c) +:+ "/dna".
Definition instance_storage_dir_path (c : Conductor) : string :=
  persistence_dir (c_config c) +:+ "/storage".

(** ** Keys *)

Definition add_agent_keystore (agent_id : string) (keystore : Keystore) (c : Conductor) : Conductor :=
  set_c_agent_keys c (<[agent_id := keystore]> (c_agent_keys c)).

(** Reading the keystore of an agent that has not been read yet. *)
Definition load_agent_keystore (agent_config : AgentConfiguration) : Result string Keystore :=
  keystore ←
    match agent_test_agent agent_config with
    | Some true => Ok (test_keystore (agent_config_name agent_config))
    | _ => map_err (λ _, HolochainError_fmt (HolochainError_ConfigError
             ("Could not load keystore " +:+ quoted (agent_keystore_file agent_config))))
             (key_loader (agent_keystore_file agent_config))
    end;
  key ← map_err HolochainError_fmt (primary_keybundle keystore);
  match agent_test_agent agent_config with
  | Some true => Ok keystore
  | _ =>
      if decide (agent_public_address agent_config = key) then Ok keystore
      else Err ("Key from file '" +:+ agent_keystore_file agent_config +:+ "' ('" +:+ key +:+
                "') does not match public address " +:+ agent_public_address agent_config +:+
                " mentioned in config!")
  end.

Definition get_keystore_for_agent (agent_id : string) : Op string Keystore :=
  keys ← op_get c_agent_keys;
  match (keys : gmap string Keystore) !! agent_id with
  | Some keystore => mret keystore
  | None =>
      config ← op_get c_config;
      agent_config ← op_lift (ok_or ("Agent '" +:+ agent_id +:+ "' not found")
                                (agent_by_id config agent_id));
      match agent_holo_remote_key agent_config with
      | Some true => op_fail "agent is holo_remote, no keystore"
      | _ =>
          keystore ← op_lift (load_agent_keystore agent_config);
          _ ← op_modify (add_agent_keystore agent_id keystore);
          mret keystore
      end
  end.

Definition get_keybundle_for_agent (agent_id : string) : Op string string :=
  keystore ← get_keystore_for_agent agent_id;
  op_lift (map_err HolochainError_fmt (primary_keybundle keystore)).

Definition agent_config_to_id (agent_config : AgentConfiguration) : Op HolochainError AgentId :=
  match agent_holo_remote_key agent_config with
  | Some true =>
      mret {| nick := agent_config_name agent_config;
              pub_sign_key := agent_public_address agent_config |}
  | _ =>
      key ← op_convert error_of_string (get_keybundle_for_agent (agent_id agent_config));
      mret {| nick := agent_config_name agent_config; pub_sign_key := key |}
  end.

Definition check_load_key_for_agent (agent_id : string) : Op string () :=
  config ← op_get c_config;
  match agent_by_id config agent_id ≫= agent_holo_remote_key with
  | Some true => mret ()
  | _ => _ ← get_keystore_for_agent agent_id; mret ()
  end.

(** ** The conductor API of an instance *)

(** The callbacks of an agent whose keys are with a remote service. *)
Definition outsourced_callbacks (agent_config : AgentConfiguration) (api_builder : ConductorApi) :
    Op HolochainError ConductorApi :=
  config ← op_get c_config;
  id ← agent_config_to_id agent_config;
  uri ← op_unwrap (signing_service_uri config);
  let api_builder := with_outsource_signing_callback api_builder id uri in
  id ← agent_config_to_id agent_config;
  uri ← op_unwrap (encryption_service_uri config);
  let api_builder := with_outsource_signing_callback api_builder id uri in
  id ← agent_config_to_id agent_config;
  uri ← op_unwrap (decryption_service_uri config);
  mret (with_outsource_signing_callback api_builder id uri).

Definition local_callbacks (agent : string) (api_builder : ConductorApi) :
    Op HolochainError ConductorApi :=
  key ← op_convert error_of_string (get_keybundle_for_agent agent);
  let api_builder := with_agent_signature_callback api_builder key in
  key ← op_convert error_of_string (get_keybundle_for_agent agent);
  let api_builder := with_agent_encryption_callback api_builder key in
  key ← op_convert error_of_string (get_keybundle_for_agent agent);
  let api_builder := with_agent_decryption_callback api_builder key in
  _ ← op_convert error_of_string (get_keystore_for_agent agent);
  mret (with_agent_keystore_functions api_builder).

(** One bridge; the callee has to exist. *)
Definition add_bridge_to_api (bridge : BridgeConfiguration) (api_builder : ConductorApi) :
    Op HolochainError ConductorApi :=
  config ← op_get c_config;
  callee_config ← op_unwrap (instance_by_id config (callee_id bridge));
  instances ← op_get c_instances;
  callee_instance ← op_unwrap ((instances : gmap string N) !! callee_id bridge);
  mret (with_named_instance_config
          (with_named_instance api_builder (bridge_handle bridge) callee_instance)
          (bridge_handle bridge) callee_config).

Fixpoint add_bridges_to_api (l : list BridgeConfiguration) (api_builder : ConductorApi) :
    Op HolochainError ConductorApi :=
  match l with
  | [] => mret api_builder
  | bridge :: l => api_builder ← add_bridge_to_api bridge api_builder; add_bridges_to_api l api_builder
  end.

Definition build_conductor_api (id : string) : Op HolochainError ConductorApi :=
  config ← op_get c_config;
  instance_config ← op_lift (ok_or none_error (instance_by_id config id));
  agent_config ← op_lift (ok_or none_error (agent_by_id config (instance_agent instance_config)));
  api_builder ←
    match agent_holo_remote_key agent_config with
    | Some true => outsourced_callbacks agent_config ConductorApiBuilder_new
    | _ => local_callbacks (instance_agent instance_config) ConductorApiBuilder_new
    end;
  api_builder ← add_bridges_to_api (bridge_dependencies config (instance_id instance_config))
                  api_builder;
  mret (spawn api_builder).

(** ** Instances *)

Definition network_is_up (heap : gmap N Holochain) (ptr : N) : bool :=
  match heap !! ptr with
  | Some hc => hc_set hc && hc_network hc
  | None => false
  end.

(** [get_p2p_config]: once the configuration of the network is set, it asks every
    instance for its network endpoint. *)
Definition get_p2p_config {E} : Op E () := λ c,
  if c_p2p_config c then
    if forallb (λ '(_, ptr), network_is_up (c_heap c) ptr) (map_to_list (c_instances c))
    then Ret (Ok (), c) else Panic
  else Ret (Ok (), c).

Definition check_dna_consistency (dna_hash_a dna_hash_b : string) : Result HolochainError () :=
  if decide (dna_hash_a = dna_hash_b) then Ok ()
  else Err (HolochainError_DnaHashMismatch dna_hash_a dna_hash_b).

Definition check_dna_consistency_from_all_sources
    (from_conductor_config computed computed_from_file : string) : Result HolochainError () :=
  _ ← check_dna_consistency from_conductor_config computed;
  _ ← check_dna_consistency from_conductor_config computed_from_file;
  check_dna_consistency computed computed_from_file.

Definition set_uuid (dna : Dna) (uuid : string) : Dna :=
  {| dna_name := dna_name dna; dna_description := dna_description dna;
     dna_version := dna_version dna; dna_uuid := uuid; dna_spec_version := dna_spec_version dna;
     dna_properties := dna_properties dna; zomes := zomes dna |}.

(** The DNA of an instance: with an own uuid its hash is recorded, otherwise it
    is checked. *)
Definition instance_dna_from_config (dna_config : DnaConfiguration) : Op string Dna :=
  files ← op_get c_dna_files;
  dna ← op_lift (map_err (λ _, HolochainError_fmt (HolochainError_ConfigError
          ("Could not load DNA file " +:+ quoted (dna_file dna_config))))
          (load_dna files (dna_file dna_config)));
  match dna_config_uuid dna_config with
  | Some uuid =>
      let dna := set_uuid dna uuid in
      _ ← op_modify (λ c, set_c_config c
            (update_dna_hash_by_id (c_config c) (dna_id dna_config) (Dna_address dna)).1);
      _ ← op_convert HolochainError_fmt save_config;
      mret dna
  | None =>
      _ ← op_lift (map_err HolochainError_fmt
            match load_dna files (dna_file dna_config) with
            | Ok dna' => check_dna_consistency_from_all_sources (dna_hash dna_config)
                           (Dna_address dna) (Dna_address dna')
            | Err _ => check_dna_consistency (dna_hash dna_config) (Dna_address dna)
            end);
      mret dna
  end.

(** Loading the instance from its storage, or else a new chain.  Either way the
    instance is initialized when there is a result: [InitNetworkFuture] is only ready
    once the network, the DNA and the agent are set, and its errors are those of
    [load_state] and [initialize_chain]; the action loop was started before. *)
Definition load_or_new (agent : AgentId) (storage : StorageConfiguration) (dna : Dna)
    (api : ConductorApi) : Result string Holochain :=
  let hc d := {| hc_set := true; hc_active := false; hc_network := true; hc_loop := true;
                 hc_dna := Some d; hc_agent := agent; hc_api := api |} in
  match load_state agent storage with
  | Ok loaded => Ok (hc loaded)
  | Err _ =>
      match initialize_chain agent storage dna with
      | Ok _ => Ok (hc dna)
      | Err e => Err (HolochainInstanceError_fmt e)
      end
  end.

Definition instantiate_from_config (id : string) : Op string Holochain :=
  config ← op_get c_config;
  _ ← config_check config;
  instance_config ← op_lift (ok_or "Instance not found in config" (instance_by_id config id));
  agent_config ← op_unwrap (agent_by_id config (instance_agent instance_config));
  agent_address ← op_convert HolochainError_fmt (agent_config_to_id agent_config);
  _ ← (if default false (agent_test_agent agent_config) then
         _ ← op_modify (λ c, set_c_config c (update_agent_address_by_id (c_config c)
               (instance_agent instance_config) (pub_sign_key agent_address)));
         op_convert HolochainError_fmt save_config
       else mret ());
  _ ← get_p2p_config;
  _ ← op_modify (λ c, set_c_signal_receivers c
        ({[instance_id instance_config]} ∪ c_signal_receivers c));
  _ ← op_lift (map_err (λ hc_err, "Error creating context: " +:+ HolochainError_fmt hc_err)
        match instance_storage instance_config with
        | StorageConfiguration_Memory => Ok ()
        | storage => open_storage storage
        end);
  api ← op_convert HolochainError_fmt (build_conductor_api (instance_id instance_config));
  config ← op_get c_config;
  dna_config ← op_unwrap (dna_by_id config (instance_dna instance_config));
  dna ← instance_dna_from_config dna_config;
  op_lift (load_or_new agent_address (instance_storage instance_config) dna api).

(** [Arc::new(RwLock::new(instance))] put into the map. *)
Definition insert_instance (id : string) (hc : Holochain) (c : Conductor) : Conductor :=
  let c' := set_c_heap c (<[c_next c := hc]> (c_heap c)) in
  set_c_next (set_c_instances c' (<[id := c_next c]> (c_instances c'))) (c_next c + 1)%N.

(** [self.instances.get(id)?] with the lock taken. *)
Definition get_instance (id : string) : Op HolochainInstanceError (N * Holochain) := λ c,
  match c_instances c !! id with
  | None => Ret (Err InstanceError_NoSuchInstance, c)
  | Some ptr =>
      match c_heap c !! ptr with
      | Some hc => Ret (Ok (ptr, hc), c)
      | None => Panic
      end
  end.

Definition write_instance (ptr : N) (hc : Holochain) (c : Conductor) : Conductor :=
  set_c_heap c (<[ptr := hc]> (c_heap c)).

(** A required bridge: the first bridge with the handle leads to an active
    instance.  The caller holds the write lock of its own instance [own], and
    reading that one as well does not return. *)
Definition check_required_bridge (own : N) (bridge : Bridge) : Op HolochainInstanceError () := λ c,
  let missing := Ret (Err (InstanceError_RequiredBridgeMissing (handle bridge)), c) in
  match find_by (λ b, bridge_handle b = handle bridge) (bridges (c_config c)) with
  | None => missing
  | Some bridge_config =>
      match c_instances c !! callee_id bridge_config with
      | None => missing
      | Some ptr =>
          if decide (ptr = own) then Panic
          else if match c_heap c !! ptr with Some hc => hc_active hc | None => false end
          then Ret (Ok (), c) else missing
      end
  end.

Definition start_instance (id : string) : Op HolochainInstanceError () :=
  '(ptr, instance) ← get_instance id;
  _ ← op_lift (check_instance instance);
  dna ← op_lift (ok_or (InstanceError_InternalFailure HolochainError_DnaMissing) (hc_dna instance));
  _ ← op_each (check_required_bridge ptr) (Dna_get_required_bridges dna);
  instance ← op_lift (Holochain_start instance);
  op_modify (write_instance ptr instance).

Definition stop_instance (id : string) : Op HolochainInstanceError () :=
  '(ptr, instance) ← get_instance id;
  instance ← op_lift (Holochain_stop instance);
  op_modify (write_instance ptr instance).

(** The instances are started in the order of the configuration; collecting into
    a [Result] stops at the first error. *)
Definition start_all_instances : Op HolochainInstanceError () :=
  config ← op_get c_config;
  op_each (λ id,
    start_result ← op_attempt (start_instance id);
    match start_result with
    | Err InstanceError_InstanceAlreadyActive => mret ()
    | r => op_lift r
    end) (instance_ids config).

Definition stop_or_keep (hc : Holochain) : Holochain :=
  match Holochain_stop hc with Ok hc => hc | Err _ => hc end.

(** Errors of single instances are ignored. *)
Definition stop_all_instances : Op HolochainInstanceError () :=
  op_modify (λ c, set_c_heap c
    (fold_right (alter stop_or_keep) (c_heap c) (snd <$> map_to_list (c_instances c)))).

(** Stops the interfaces, the instances and the signal multiplexer; the receivers
    of the kill switches keep their entries. *)
Definition shutdown : Op HolochainInstanceError () :=
  _ ← stop_all_instances;
  op_modify (λ c, set_c_instances (set_c_multiplexer c None) ∅).

(** ** Interfaces *)

Definition add_reference_to_api (c : Conductor) (api : ConductorApi)
    (instance_ref : InstanceReferenceConfiguration) : ConductorApi :=
  let name := default (ref_id instance_ref) (ref_alias instance_ref) in
  match c_instances c !! ref_id instance_ref, instance_by_id (c_config c) (ref_id instance_ref) with
  | Some instance, Some instance_config =>
      with_named_instance_config (with_named_instance api name instance) name instance_config
  | _, _ => api
  end.

Definition make_interface_handler (c : Conductor) (interface_config : InterfaceConfiguration) :
    ConductorApi :=
  let api := fold_left (add_reference_to_api c) (interface_instances interface_config)
               ConductorApiBuilder_new in
  let api :=
    if interface_admin interface_config then
      with_debug_functions (with_test_admin_functions
        (with_admin_ui_functions (with_admin_dna_functions api)))
    else api in
  spawn api.

(** [run_interface] is not implemented for the other drivers, and its errors are
    unwrapped. *)
Definition spawn_interface_thread {E} (interface_config : InterfaceConfiguration) :
    Op E ConductorApi := λ c,
  let dispatcher := make_interface_handler c interface_config in
  match interface_driver interface_config with
  | InterfaceDriver_Websocket _ | InterfaceDriver_Http _ =>
      if interface_binds interface_config then
        Ret (Ok dispatcher, set_c_interface_broadcasters c
               ({[interface_id interface_config]} ∪ c_interface_broadcasters c))
      else Panic
  | _ => Panic
  end.

Definition start_interface (config : InterfaceConfiguration) : Op string () :=
  threads ← op_get c_interface_threads;
  match (threads : gmap string ConductorApi) !! interface_id config with
  | Some _ => op_fail ("Interface " +:+ interface_id config +:+ " already started!")
  | None =>
      handle ← spawn_interface_thread config;
      op_modify (λ c, set_c_interface_threads c
        (<[interface_id config := handle]> (c_interface_threads c)))
  end.

Definition start_interface_by_id (id : string) : Op string () :=
  config ← op_get c_config;
  interface_config ← op_lift (ok_or ("Interface does not exist: " +:+ id)
                                (interface_by_id config id));
  start_interface interface_config.

Definition stop_interface_by_id (id : string) : Op HolochainError () :=
  threads ← op_get c_interface_threads;
  match (threads : gmap string ConductorApi) !! id with
  | None => op_fail (HolochainError_ErrorGeneric ("Interface " +:+ id +:+ " not found."))
  | Some _ => op_modify (λ c, set_c_interface_threads c (delete id (c_interface_threads c)))
  end.

(** The multiplexer thread routes with a copy of the configuration. *)
Definition start_signal_multiplexer {E} : Op E () :=
  op_modify (λ c, set_c_multiplexer c (Some (c_config c))).

Definition start_all_interfaces : Op string () :=
  config ← op_get c_config;
  _ ← op_modify (λ c, set_c_interface_threads c ∅);
  _ ← op_each (λ ic, handle ← spawn_interface_thread ic;
        op_modify (λ c, set_c_interface_threads c
          (<[interface_id ic := handle]> (c_interface_threads c)))) (interfaces config);
  start_signal_multiplexer.

(** ** Booting *)

Definition start_dpki_instance (dpki_instance_id : string) : Op HolochainInstanceError () :=
  instance ← op_convert (λ err, InstanceError_InternalFailure (HolochainError_ErrorGeneric err))
               (instantiate_from_config dpki_instance_id);
  instance ← op_lift (Holochain_start instance);
  op_modify (insert_instance dpki_instance_id instance).

Definition dpki_bootstrap : Op HolochainError () :=
  config ← op_get c_config;
  match dpki config with
  | None => mret ()
  | Some d =>
      _ ← op_convert (λ _, HolochainError_new "Error starting DPKI instance: ")
            (start_dpki_instance (dpki_instance d));
      '(_, hc) ← op_convert (λ _, none_error) (get_instance (dpki_instance d));
      initialized ← op_lift (dpki_is_initialized hc);
      if (initialized : bool) then mret () else op_lift (dpki_init hc (dpki_params d))
  end.

(** One round of the loop over the sorted instances. *)
Definition boot_instance (id : string) : Op string () :=
  instances ← op_get c_instances;
  if decide (is_Some ((instances : gmap string N) !! id)) then mret ()
  else
    instance ← op_convert (λ error, "Error while trying to create instance " +:+ quoted id +:+
                 ": " +:+ error) (instantiate_from_config id);
    op_modify (insert_instance id instance).

Definition boot_ui_interface (ui : UiInterfaceConfiguration) : Op string () :=
  config ← op_get c_config;
  bundle_config ← op_lift (ok_or ("UI interface " +:+ ui_interface_id ui +:+
                    " references bundle with id " +:+ ui_bundle ui +:+
                    " but no such bundle found") (ui_bundle_by_id config (ui_bundle ui)));
  connected_dna_interface ←
    match ui_dna_interface ui with
    | None => mret None
    | Some i => dna_interface ← op_unwrap (interface_by_id config i); mret (Some dna_interface)
    end;
  op_modify (λ c, set_c_static_servers c
    (<[ui_interface_id ui := StaticServer_from_configs ui bundle_config connected_dna_interface]>
       (c_static_servers c))).

Definition boot_from_config : Op string () :=
  config ← op_get c_config;
  _ ← config_check config;
  _ ← op_modify (λ c, set_c_p2p_config c true);
  _ ← op_convert HolochainError_fmt dpki_bootstrap;
  config ← op_get c_config;
  sorted ← op_convert HolochainError_fmt
             (op_outcome (instance_ids_sorted_by_bridge_dependencies config));
  _ ← op_each boot_instance sorted;
  config ← op_get c_config;
  op_each boot_ui_interface (ui_interfaces config).

(** ** Signals *)

Inductive Signal : Type :=
| Signal_Trace (action : string)
| Signal_Consistency (event : string)
| Signal_User (signal : string).

(** The interfaces a signal of an instance goes to. *)
Definition signal_interfaces (config : Configuration) (instance_id : string) (signal : Signal) :
    list InterfaceConfiguration :=
  let admin_interfaces :=
    filter (λ interface_config, interface_admin interface_config = true) (interfaces config) in
  match signal with
  | Signal_Trace _ => if signals_trace (signals config) then admin_interfaces else []
  | Signal_Consistency _ => if signals_consistency (signals config) then admin_interfaces else []
  | Signal_User _ =>
      filter (λ interface_config,
        instance_id ∈ (ref_id <$> interface_instances interface_config) ∨
        interface_admin interface_config = true) (interfaces config)
  end.

(** The broadcasters that get it. *)
Definition signal_recipients (c : Conductor) (instance_id : string) (signal : Signal) : list string :=
  match c_multiplexer c with
  | None => []
  | Some config =>
      filter (.∈ c_interface_broadcasters c)
        (interface_id <$> signal_interfaces config instance_id signal)
  end.

(** ** What an operation keeps

    A property of the conductor that an operation keeps, whether it succeeds or
    fails. *)
Definition keeps (I : Conductor → Prop) {E A} (m : Op E A) : Prop :=
  ∀ c r c', I c → m c = Ret (r, c') → I c'.

Section keeps.
Context (I : Conductor → Prop).

Lemma keeps_ret {E A} (x : A) : keeps I (mret x : Op E A).
Proof. intros c r c' Hc [= <- <-]. done. Qed.

Lemma keeps_fail {E A} (e : E) : keeps I (op_fail e : Op E A).
Proof. intros c r c' Hc [= <- <-]. done. Qed.

Lemma keeps_panic {E A} : keeps I (op_panic : Op E A).
Proof. by intros c r c' Hc. Qed.

Lemma keeps_lift {E A} (x : Result E A) : keeps I (op_lift x).
Proof. intros c r c' Hc [= <- <-]. done. Qed.

Lemma keeps_outcome {E A} (o : Outcome (Result E A)) : keeps I (op_outcome o).
Proof. intros c r c' Hc Hr. unfold op_outcome in Hr. by destruct o; simplify_eq. Qed.

Lemma keeps_unwrap {E A} (o : option A) : keeps I (op_unwrap o : Op E A).
Proof. destruct o; [apply keeps_ret|apply keeps_panic]. Qed.

Lemma keeps_get {E A} (f : Conductor → A) : keeps I (op_get f : Op E A).
Proof. intros c r c' Hc [= <- <-]. done. Qed.

Lemma keeps_modify {E} (f : Conductor → Conductor) :
  (∀ c, I c → I (f c)) → keeps I (op_modify f : Op E ()).
Proof. intros Hf c r c' Hc [= <- <-]. auto. Qed.

Lemma keeps_bind {E A B} (m : Op E A) (k : A → Op E B) :
  keeps I m → (∀ x, keeps I (k x)) → keeps I (m ≫= k).
Proof.
  intros Hm Hk c r c' Hc Hr. unfold mbind, Op_bind in Hr.
  destruct (m c) as [[[x|e] c1]| |] eqn:Hm1; simplify_eq; [eapply Hk; [|done]|]; by eapply Hm.
Qed.

(** Of a value read from the conductor, what the property says is known. *)
Lemma keeps_get_bind {E A B} (f : Conductor → A) (k : A → Op E B) :
  (∀ c, I c → keeps I (k (f c))) → keeps I (op_get f ≫= k).
Proof. intros Hk c r c' Hc Hr. exact (Hk c Hc c r c' Hc Hr). Qed.

Lemma keeps_convert {E F A} (f : E → F) (m : Op E A) : keeps I m → keeps I (op_convert f m).
Proof.
  intros Hm c r c' Hc Hr. unfold op_convert in Hr.
  destruct (m c) as [[r1 c1]| |] eqn:Hm1; simplify_eq. by eapply Hm.
Qed.

Lemma keeps_attempt {E F A} (m : Op E A) : keeps I m → keeps I (op_attempt m : Op F _).
Proof.
  intros Hm c r c' Hc Hr. unfold op_attempt in Hr.
  destruct (m c) as [[r1 c1]| |] eqn:Hm1; simplify_eq. by eapply Hm.
Qed.

Lemma keeps_each {E A} (f : A → Op E ()) (l : list A) :
  (∀ x, keeps I (f x)) → keeps I (op_each f l).
Proof. intros Hf. induction l; [apply keeps_ret|]. cbn. by apply keeps_bind. Qed.
End keeps.
End conductor.

Create HintDb keeps.
#[export] Hint Resolve keeps_ret keeps_fail keeps_panic keeps_lift keeps_outcome keeps_unwrap keeps_get
  keeps_bind keeps_convert keeps_attempt keeps_each : keeps.

Ltac unfold_ops_in H :=
  unfold op_unwrap, mbind, Op_bind, mret, Op_ret, op_fail, op_panic, op_lift, op_outcome, op_get,
    op_modify, op_convert, op_attempt in H.
Tactic Notation "unfold_ops" "in" hyp(H) := unfold_ops_in H.

(** Follow the structure of an operation. *)
Ltac keeps_step :=
  match goal with
  | |- keeps _ (match ?x with _ => _ end) => destruct x
  | |- keeps _ (if ?b then _ else _) => destruct b
  | |- keeps _ (op_get _ ≫= _) => apply keeps_get_bind; intros ? ?
  | |- keeps _ (_ ≫= _) => apply keeps_bind; [|intros ?]
  | |- keeps _ (op_each _ _) => apply keeps_each; intros ?
  | |- keeps _ (op_convert _ _) => apply keeps_convert
  | |- keeps _ (op_attempt _) => apply keeps_attempt
  | |- keeps _ _ => solve [eauto with keeps]
  end.
Ltac solve_keeps := repeat (keeps_step; cbn beta iota zeta).

(** ** Creating an instance *)

Section keeps_instantiate.
Context `{Toposort, DnaAddressing, ConductorEnv} (I : Conductor → Prop).

(** The changes of the conductor while an instance is created. *)
Context (I_keys : ∀ c keys, I c → I (set_c_agent_keys c keys)).
Context (I_receivers : ∀ c rs, I c → I (set_c_signal_receivers c rs)).
Context (I_save : ∀ c, I c → I (set_c_saved c (Some (c_config c)))).
Context (I_address : ∀ c id key, I c → I (set_c_config c (update_agent_address_by_id (c_config c) id key))).
Context (I_hash : ∀ c id hash, I c → I (set_c_config c (update_dna_hash_by_id (c_config c) id hash).1)).

Lemma keeps_save_config : keeps I save_config.
Proof.
  intros c r c' Hc Hr. unfold save_config in Hr. unfold_ops in Hr.
  destruct (write_config (c_config c)); simplify_eq/=; [by apply I_save|done].
Qed.

Lemma keeps_get_keystore id : keeps I (get_keystore_for_agent id).
Proof.
  unfold get_keystore_for_agent. solve_keeps.
  all: apply keeps_modify; intros; by apply I_keys.
Qed.
Hint Resolve keeps_save_config keeps_get_keystore : keeps.

Lemma keeps_get_keybundle id : keeps I (get_keybundle_for_agent id).
Proof. unfold get_keybundle_for_agent. solve_keeps. Qed.
Hint Resolve keeps_get_keybundle : keeps.

Lemma keeps_agent_config_to_id a : keeps I (agent_config_to_id a).
Proof. unfold agent_config_to_id. solve_keeps. Qed.
Hint Resolve keeps_agent_config_to_id : keeps.

Lemma keeps_build_conductor_api id : keeps I (build_conductor_api id).
Proof.
  assert (Hb : ∀ l api, keeps I (add_bridges_to_api l api)).
  { induction l as [|b l IH]; intros api; cbn; [apply keeps_ret|].
    unfold add_bridge_to_api. solve_keeps. }
  unfold build_conductor_api, outsourced_callbacks, local_callbacks. solve_keeps.
Qed.
Hint Resolve keeps_build_conductor_api : keeps.

Lemma keeps_get_p2p_config {E} : keeps I (get_p2p_config : Op E ()).
Proof.
  intros c r c' Hc Hr. unfold get_p2p_config in Hr. cases_in Hr; done.
Qed.

Lemma keeps_instantiate id : keeps I (instantiate_from_config id).
Proof.
  unfold instantiate_from_config, instance_dna_from_config, config_check. solve_keeps.
  all: try apply keeps_get_p2p_config.
  all: apply keeps_modify; auto.
Qed.
End keeps_instantiate.

(** ** The configuration *)

Section keeps_config.
Context `{Toposort, DnaAddressing, ConductorEnv}.

(** The configuration in use, the saved one and the files of a conductor, which
    most operations do not touch. *)
Definition config_part (c : Conductor) : Configuration * option Configuration * gmap string Dna :=
  (c_config c, c_saved c, c_dna_files c).

Context (J : Configuration * option Configuration * gmap string Dna → Prop).
Local Abbreviation I := (λ c, J (config_part c)).

Lemma keeps_other {E} (f : Conductor → Conductor) :
  (∀ c, config_part (f c) = config_part c) → keeps I (op_modify f : Op E ()).
Proof. intros Hf. apply keeps_modify. intros c Hc. by rewrite Hf. Qed.

Lemma keeps_get_instance id : keeps I (get_instance id).
Proof. intros c r c' Hc Hr. unfold get_instance in Hr. cases_in Hr; done. Qed.

Lemma keeps_check_required_bridge own b : keeps I (check_required_bridge own b).
Proof. intros c r c' Hc Hr. unfold check_required_bridge in Hr. cases_in Hr; done. Qed.
Hint Resolve keeps_get_instance keeps_check_required_bridge : keeps.

Lemma keeps_start_instance id : keeps I (start_instance id).
Proof. unfold start_instance. solve_keeps. all: apply keeps_other; by intros []. Qed.

Lemma keeps_stop_instance id : keeps I (stop_instance id).
Proof. unfold stop_instance. solve_keeps. all: apply keeps_other; by intros []. Qed.

Lemma keeps_spawn_interface {E} i : keeps I (spawn_interface_thread i : Op E _).
Proof. intros c r c' Hc Hr. unfold spawn_interface_thread in Hr. destruct c. cases_in Hr; done. Qed.
Hint Resolve keeps_start_instance keeps_stop_instance keeps_spawn_interface : keeps.

Lemma keeps_start_interface_by_id id : keeps I (start_interface_by_id id).
Proof.
  unfold start_interface_by_id, start_interface. solve_keeps. all: apply keeps_other; by intros [].
Qed.

Lemma keeps_stop_interface_by_id id : keeps I (stop_interface_by_id id).
Proof. unfold stop_interface_by_id. solve_keeps. all: apply keeps_other; by intros []. Qed.

Lemma keeps_start_signal_multiplexer {E} : keeps I (start_signal_multiplexer : Op E ()).
Proof. apply keeps_other. by intros []. Qed.
End keeps_config.

(** ** Examples *)

(** Keystores are their keys, and every access to the system succeeds; there is
    nothing in the storages. *)
Definition toy_conductor_env : ConductorEnv := {|
  Keystore := string;
  test_keystore name := name;
  key_loader file := Ok file;
  primary_keybundle keystore := Ok keystore;
  open_storage _ := Ok ();
  load_state _ _ := Err (HolochainError_ErrorGeneric "State could not be loaded due to NoneError");
  initialize_chain _ _ _ := Ok ();
  write_config _ := Ok ();
  interface_binds _ := true;
  dpki_is_initialized _ := Ok true;
  dpki_init _ _ := Ok ();
|}.

(** The same, but no storage can be opened. *)
Definition full_disk_env : ConductorEnv := {|
  Keystore := string;
  test_keystore name := name;
  key_loader file := Ok file;
  primary_keybundle keystore := Ok keystore;
  open_storage _ := Err (HolochainError_IoError "no space left");
  load_state _ _ := Err (HolochainError_ErrorGeneric "State could not be loaded due to NoneError");
  initialize_chain _ _ _ := Ok ();
  write_config _ := Ok ();
  interface_binds _ := true;
  dpki_is_initialized _ := Ok true;
  dpki_init _ _ := Ok ();
|}.

Section examples.
Context `{ConductorEnv}.

Definition example_conductor (config : Configuration) : Conductor := {|
  c_instances := ∅; c_heap := ∅; c_next := 0%N; c_signal_receivers := ∅; c_agent_keys := ∅;
  c_config := config; c_static_servers := ∅; c_interface_threads := ∅;
  c_interface_broadcasters := ∅; c_multiplexer := None; c_p2p_config := false;
  c_dna_files := example_files; c_saved := None |}.

(** The conductor an operation leaves, and what it returns. *)
Definition after {E A} (m : Op E A) (c : Conductor) : Conductor :=
  match m c with Ret (_, c') => c' | _ => c end.

Definition result_of {E A} (m : Op E A) (c : Conductor) : option (Result E A) :=
  match m c with Ret (r, _) => Some r | _ => None end.
End examples.
