(* ===== verification/ConductorBoot.v ===== *)
(** * Booting the conductor

    Theorems on [Conductor]: booting from a consistent configuration creates
    every instance, in an order in which the callees of bridges exist when they
    are needed, and does not panic; the cases in which it does are those of the
    hypotheses.  What starting and stopping instances leaves behind, and what
    interfaces expose and receive. *)

From S2P Require Import Prelude Errors CoreTypes Dna Config Conductor.

Local Open Scope string_scope.

Section boot.
Context `{Toposort, DnaAddressing, ConductorEnv}.

(** ** Operations that return *)

(** From [P], the operation does not panic, and [Q] holds if it succeeds. *)
Definition returns {E A} (P : Conductor → Prop) (m : Op E A) (Q : A → Conductor → Prop) : Prop :=
  ∀ c, P c → ∃ r c', m c = Ret (r, c') ∧ ∀ x, r = Ok x → Q x c'.

Lemma returns_bind {E A B} P (m : Op E A) Q (k : A → Op E B) R :
  returns P m Q → (∀ x, returns (Q x) (k x) R) → returns P (m ≫= k) R.
Proof.
  intros Hm Hk c Hc. destruct (Hm c Hc) as (r & c1 & Hr & HQ). unfold mbind, Op_bind. rewrite Hr.
  destruct r as [x|e]; [by apply Hk, HQ|]. by eexists _, _.
Qed.

Lemma returns_ret {E A} P (x : A) : returns P (mret x : Op E A) (λ y c, y = x ∧ P c).
Proof. intros c Hc. eexists _, _. split; [done|]. by intros y [= <-]. Qed.

Lemma returns_lift {E A} P (r : Result E A) : returns P (op_lift r) (λ y c, r = Ok y ∧ P c).
Proof. intros c Hc. by eexists _, _. Qed.

Lemma returns_get {E A} P (f : Conductor → A) : returns P (op_get f : Op E A) (λ y c, y = f c ∧ P c).
Proof. intros c Hc. eexists _, _. split; [done|]. by intros y [= <-]. Qed.

Lemma returns_modify {E} P (f : Conductor → Conductor) (Q : Conductor → Prop) :
  (∀ c, P c → Q (f c)) → returns P (op_modify f : Op E ()) (λ _, Q).
Proof. intros Hf c Hc. eexists _, _. split; [done|]. auto. Qed.

Lemma returns_unwrap {E A} (P : Conductor → Prop) (o : option A) :
  (∀ c, P c → is_Some o) → returns P (op_unwrap o : Op E A) (λ y c, o = Some y ∧ P c).
Proof.
  intros Ho c Hc. destruct (Ho c Hc) as [x ->]. eexists _, _. split; [done|]. by intros y [= <-].
Qed.

Lemma returns_convert {E F A} (f : E → F) P (m : Op E A) Q :
  returns P m Q → returns P (op_convert f m) Q.
Proof.
  intros Hm c Hc. destruct (Hm c Hc) as (r & c' & Hr & HQ). unfold op_convert. rewrite Hr.
  eexists _, _. split; [done|]. intros x Hx. apply HQ. by destruct r; simplify_eq/=.
Qed.

Lemma returns_conseq {E A} (P P' : Conductor → Prop) (m : Op E A) (Q Q' : A → Conductor → Prop) :
  returns P m Q → (∀ c, P' c → P c) → (∀ x c, Q x c → Q' x c) → returns P' m Q'.
Proof.
  intros Hm HP HQ c Hc. destruct (Hm c (HP c Hc)) as (r & c' & Hr & Hq). eexists _, _. eauto.
Qed.

Lemma returns_fail {E A} P (e : E) Q : returns P (op_fail e : Op E A) Q.
Proof. intros c Hc. by eexists _, _. Qed.

(** A pure part of the precondition can be taken out. *)
Lemma returns_pure {E A} (φ : Prop) (P : Conductor → Prop) (m : Op E A) Q :
  (φ → returns P m Q) → returns (λ c, φ ∧ P c) m Q.
Proof. intros Hm c [Hφ Hc]. by apply Hm. Qed.

Lemma returns_each {E A} (f : A → Op E ()) (l : list A) (P : list A → Conductor → Prop) :
  (∀ pre x rest, l = (pre ++ x :: rest)%list → returns (P pre) (f x) (λ _, P (pre ++ [x])%list)) →
  returns (P []) (op_each f l) (λ _, P l).
Proof.
  intros Hf. assert (Hgen : ∀ rest pre, l = (pre ++ rest)%list →
    returns (P pre) (op_each f rest) (λ _, P l)).
  { induction rest as [|x rest IH]; intros pre Hl; cbn.
    - rewrite app_nil_r in Hl. subst pre. intros c0 Hc0. by exists (Ok ()), c0.
    - eapply returns_bind; [by eapply Hf|]. intros u. cbn beta. apply IH.
      by rewrite <- (assoc_L (++)%list). }
  by apply Hgen.
Qed.

(** The rules in the form in which the operations are written. *)
Lemma returns_get_bind {E A B} (P : Conductor → Prop) (f : Conductor → A) (k : A → Op E B) R :
  (∀ c, P c → returns P (k (f c)) R) → returns P (op_get f ≫= k) R.
Proof. intros Hk c Hc. exact (Hk c Hc c Hc). Qed.

Lemma returns_lift_bind {E A B} (P : Conductor → Prop) (r : Result E A) (k : A → Op E B) R :
  (∀ x, r = Ok x → returns P (k x) R) → returns P (op_lift r ≫= k) R.
Proof.
  intros Hk. eapply returns_bind; [apply returns_lift|]. intros x. apply returns_pure, Hk.
Qed.

Lemma returns_unwrap_bind {E A B} (P : Conductor → Prop) (o : option A) (k : A → Op E B) R :
  is_Some o → (∀ x, o = Some x → returns P (k x) R) → returns P (op_unwrap o ≫= k) R.
Proof.
  intros Ho Hk. eapply returns_bind; [by apply returns_unwrap|]. intros x. apply returns_pure, Hk.
Qed.

Lemma returns_modify_bind {E A} (P Q : Conductor → Prop) f (k : () → Op E A) R :
  (∀ c, P c → Q (f c)) → returns Q (k ()) R → returns P (op_modify f ≫= k) R.
Proof. intros Hf Hk. eapply returns_bind; [by apply returns_modify|]. by intros []. Qed.

Lemma returns_seq {E A B} (P : Conductor → Prop) (m : Op E A) (k : A → Op E B) R :
  returns P m (λ _, P) → (∀ x, returns P (k x) R) → returns P (m ≫= k) R.
Proof. intros Hm Hk. by eapply returns_bind. Qed.

Lemma returns_done {E A} (P : Conductor → Prop) (m : Op E A) Q :
  returns P m Q → (∀ x c, Q x c → P c) → returns P m (λ _, P).
Proof. intros Hm HQ. eapply returns_conseq; eauto. Qed.

Lemma returns_ret_same {E A} P (x : A) : returns P (mret x : Op E A) (λ _, P).
Proof. eapply returns_done; [apply returns_ret|]. by intros ? ? [_ ?]. Qed.

Lemma returns_lift_same {E A} P (r : Result E A) : returns P (op_lift r) (λ _, P).
Proof. eapply returns_done; [apply returns_lift|]. by intros ? ? [_ ?]. Qed.

(** ** The state while booting *)

(** The services of agents whose keys are elsewhere are configured. *)
Definition has_services (config : Configuration) : Prop :=
  is_Some (signing_service_uri config) ∧ is_Some (encryption_service_uri config) ∧
  is_Some (decryption_service_uri config).

Definition services_ok (config : Configuration) : Prop :=
  ∀ a, a ∈ agents config → agent_holo_remote_key a = Some true → has_services config.

Definition all_up (c : Conductor) : Prop :=
  ∀ id ptr, c_instances c !! id = Some ptr → network_is_up (c_heap c) ptr = true ∧ (ptr < c_next c)%N.

(** Of the configuration only addresses and hashes change; the instances created
    so far are [ids]. *)
Record booting (cfg : Configuration) (ids : string → Prop) (c : Conductor) : Prop := {
  b_consistent : consistent (load_dna (c_dna_files c)) (c_config c);
  b_services : services_ok (c_config c);
  b_uris : has_services (c_config c) ↔ has_services cfg;
  b_instances : instances (c_config c) = instances cfg;
  b_bridges : bridges (c_config c) = bridges cfg;
  b_interfaces : interfaces (c_config c) = interfaces cfg;
  b_bundles : ui_bundles (c_config c) = ui_bundles cfg;
  b_uis : ui_interfaces (c_config c) = ui_interfaces cfg;
  b_dpki : dpki (c_config c) = dpki cfg;
  b_up : all_up c;
  b_created id : is_Some (c_instances c !! id) ↔ ids id;
}.

Lemma services_update_agent cfg id key :
  services_ok cfg → services_ok (update_agent_address_by_id cfg id key).
Proof.
  intros Hs a. destruct cfg; cbn. intros (a' & -> & Ha)%list_elem_of_fmap.
  intros Hh. apply (Hs a' Ha). by case_decide.
Qed.

Section with_cfg.
Context (cfg : Configuration) (ids : string → Prop).
Local Abbreviation B := (booting cfg ids).

Lemma booting_agent_update c id key :
  B c → B (set_c_config c (update_agent_address_by_id (c_config c) id key)).
Proof.
  intros []. assert (consistent (load_dna (c_dna_files c)) (update_agent_address_by_id (c_config c) id key))
    by (by apply consistent_update_agent).
  assert (services_ok (update_agent_address_by_id (c_config c) id key)) by by apply services_update_agent.
  destruct c as [? ? ? ? ? cf]; cbn in *. split; cbn; try done; by destruct cf.
Qed.

Lemma booting_hash_update c id hash :
  B c → B (set_c_config c (update_dna_hash_by_id (c_config c) id hash).1).
Proof.
  intros []. assert (consistent (load_dna (c_dna_files c)) (update_dna_hash_by_id (c_config c) id hash).1)
    by (by apply consistent_update_dna_hash).
  destruct c as [? ? ? ? ? cf]; cbn in *. split; cbn; try done; by destruct cf.
Qed.

(** Changes of the other parts. *)
Lemma booting_other (f : Conductor → Conductor) c :
  config_part (f c) = config_part c → c_instances (f c) = c_instances c →
  c_heap (f c) = c_heap c → c_next (f c) = c_next c → B c → B (f c).
Proof.
  unfold config_part. intros [= Hc _ Hf] Hi Hh Hn []. split; unfold all_up in *; by rewrite ?Hc, ?Hf, ?Hi, ?Hh, ?Hn.
Qed.

Lemma returns_keystore id : returns B (get_keystore_for_agent id) (λ _, B).
Proof.
  unfold get_keystore_for_agent. apply returns_get_bind. intros c _.
  destruct (c_agent_keys c !! id); [apply returns_ret_same|].
  apply returns_get_bind. intros c' _. apply returns_lift_bind. intros a _.
  assert (Hload : returns B (keystore ← op_lift (load_agent_keystore a);
    _ ← op_modify (add_agent_keystore id keystore); mret keystore) (λ _, B)).
  { apply returns_lift_bind. intros ks _. eapply returns_modify_bind; [|apply returns_ret_same].
    intros c1 Hc1. by apply booting_other; destruct c1. }
  destruct (agent_holo_remote_key a) as [[]|]; [apply returns_fail|done..].
Qed.

Lemma returns_keybundle id : returns B (get_keybundle_for_agent id) (λ _, B).
Proof.
  unfold get_keybundle_for_agent. apply returns_seq; [apply returns_keystore|]. intros ks.
  apply returns_lift_same.
Qed.

Lemma returns_agent_id a : returns B (agent_config_to_id a) (λ _, B).
Proof.
  unfold agent_config_to_id. destruct (agent_holo_remote_key a) as [[]|]; [apply returns_ret_same|..];
  (apply returns_seq; [apply returns_convert, returns_keybundle|intros k; apply returns_ret_same]).
Qed.

Lemma returns_save_config : returns B save_config (λ _, B).
Proof.
  unfold save_config. apply returns_get_bind. intros c _. apply returns_lift_bind. intros _ _.
  apply returns_modify. intros c1 Hc1. destruct Hc1. destruct c1. by split.
Qed.

Lemma returns_outsourced a api : has_services cfg → returns B (outsourced_callbacks a api) (λ _, B).
Proof.
  intros Hs. unfold outsourced_callbacks. apply returns_get_bind. intros c Hc.
  destruct (proj2 (b_uris _ _ _ Hc) Hs) as (Hsign & Henc & Hdec).
  repeat (apply returns_seq; [apply returns_agent_id|intros ?]; apply returns_unwrap_bind; [done|];
          intros ? ?; cbn zeta).
  apply returns_ret_same.
Qed.

Lemma returns_local id api : returns B (local_callbacks id api) (λ _, B).
Proof.
  unfold local_callbacks.
  repeat (apply returns_seq; [apply returns_convert, returns_keybundle|intros ?]; cbn zeta).
  apply returns_seq; [apply returns_convert, returns_keystore|]. intros _. apply returns_ret_same.
Qed.

(** The callees of the bridges exist. *)
Lemma returns_bridges l api :
  (∀ b, b ∈ l → b ∈ bridges cfg ∧ ids (callee_id b)) →
  returns B (add_bridges_to_api l api) (λ _, B).
Proof.
  revert api. induction l as [|b l IH]; intros api Hl; cbn; [apply returns_ret_same|].
  destruct (Hl b) as [Hb Hids]; [by left|].
  eapply returns_seq; [|intros api'; apply IH; intros; apply Hl; by right].
  unfold add_bridge_to_api. apply returns_get_bind. intros c Hc.
  apply returns_unwrap_bind.
  { apply instance_by_id_is_Some. destruct Hc as [[[] _] ? ? ? Hbr].
    refine (proj2 (bridge_ends (load_dna (c_dna_files c)) (c_config c) b _)).
    apply bridges_fit. by rewrite Hbr. }
  intros ic _. apply returns_get_bind. intros c1 Hc1. apply returns_unwrap_bind.
  { by apply (b_created cfg ids c1). }
  intros ptr _. apply returns_ret_same.
Qed.

Lemma returns_p2p {E} : returns B (get_p2p_config : Op E ()) (λ _, B).
Proof.
  intros c Hc. exists (Ok ()), c. split; [|done]. unfold get_p2p_config.
  destruct (c_p2p_config c); [|done].
  assert (forallb (λ '(_, ptr), network_is_up (c_heap c) ptr) (map_to_list (c_instances c)) = true) as ->; [|done].
  apply forallb_forall. intros [id ptr] Hin%list_elem_of_In%elem_of_map_to_list.
  by destruct (b_up _ _ _ Hc id ptr Hin).
Qed.

Lemma booting_instance c id ic : B c → instance_by_id cfg id = Some ic →
  instance_by_id (c_config c) id = Some ic ∧ instance_fits (load_dna (c_dna_files c)) (c_config c) ic.
Proof.
  intros Hc Hi. unfold instance_by_id in *. rewrite (b_instances _ _ _ Hc). split; [done|].
  apply (instances_fit _ _ (proj1 (b_consistent _ _ _ Hc))). rewrite (b_instances _ _ _ Hc).
  by apply find_by_Some in Hi as [? _].
Qed.

Lemma returns_api id ic : instance_by_id cfg id = Some ic →
  (∀ b, b ∈ bridge_dependencies cfg id → ids (callee_id b)) →
  returns B (build_conductor_api id) (λ _, B).
Proof.
  intros Hi Hcallees. unfold build_conductor_api. apply returns_get_bind. intros c Hc.
  destruct (booting_instance c id ic Hc Hi) as [Hic (Ha & _)]. rewrite Hic.
  apply returns_lift_bind. intros ? [= <-]. apply returns_lift_bind. intros a Ha'%ok_or_ok.
  apply find_by_Some in Ha' as [Hin _].
  assert (Hid : instance_id ic = id) by by apply find_by_Some in Hi as [_ ?].
  apply returns_seq.
  - destruct (agent_holo_remote_key a) as [[]|] eqn:Hh; [|apply returns_local..].
    apply returns_outsourced, (b_uris _ _ _ Hc). by apply (b_services _ _ _ Hc a).
  - intros api. apply returns_seq; [|intros; apply returns_ret_same].
    rewrite Hid. apply returns_bridges. unfold bridge_dependencies in *.
    rewrite (b_bridges _ _ _ Hc). intros b Hb. split; [|by apply Hcallees].
    by apply list_elem_of_filter in Hb as [_ ?].
Qed.

Lemma returns_dna dc : returns B (instance_dna_from_config dc) (λ _, B).
Proof.
  unfold instance_dna_from_config. apply returns_get_bind. intros c _. apply returns_lift_bind.
  intros dna _. destruct (dna_config_uuid dc) as [uuid|].
  - eapply returns_modify_bind; [intros; by apply booting_hash_update|].
    apply returns_seq; [apply returns_convert, returns_save_config|]. intros. apply returns_ret_same.
  - apply returns_lift_bind. intros _ _. apply returns_ret_same.
Qed.

Definition is_up (hc : Holochain) : Prop := hc_set hc = true ∧ hc_network hc = true.

Lemma load_or_new_up agent storage dna api hc :
  load_or_new agent storage dna api = Ok hc → is_up hc.
Proof. unfold load_or_new. intros Hl. by cases_in Hl. Qed.

Lemma returns_instantiate `{!ToposortLaws} id ic : instance_by_id cfg id = Some ic →
  (∀ b, b ∈ bridge_dependencies cfg id → ids (callee_id b)) →
  returns B (instantiate_from_config id) (λ hc c, is_up hc ∧ B c).
Proof.
  intros Hi Hcallees. unfold instantiate_from_config. apply returns_get_bind. intros c Hc.
  destruct (booting_instance c id ic Hc Hi) as [Hic (Ha & dc & dna & Hd & _)].
  assert (Hid : instance_id ic = id) by by apply find_by_Some in Hi as [_ ?].
  apply returns_seq.
  { unfold config_check. apply returns_get_bind. intros c1 _ c2 Hc2. unfold op_outcome.
    destruct (check_consistency_total (load_dna (c_dna_files c1)) (c_config c)) as (r & -> & _).
    by eexists _, _. }
  intros _. rewrite Hic. apply returns_lift_bind. intros ? [= <-]. apply returns_unwrap_bind.
  { by apply find_key_is_Some. }
  intros a Ha'. apply returns_seq; [apply returns_convert, returns_agent_id|]. intros agent.
  apply returns_seq.
  { case_match; [|apply returns_ret_same].
    eapply returns_modify_bind; [intros; by apply booting_agent_update|].
    apply returns_convert, returns_save_config. }
  intros _. apply returns_seq; [apply returns_p2p|]. intros _.
  eapply returns_modify_bind.
  { intros c1 Hc1. apply (booting_other (λ c, set_c_signal_receivers c ({[instance_id ic]} ∪ c_signal_receivers c)));
      by destruct c1. }
  apply returns_lift_bind. intros _ _.
  apply returns_seq; [apply returns_convert; rewrite Hid; by eapply returns_api|]. intros api.
  apply returns_get_bind. intros c1 Hc1.
  destruct (booting_instance c1 id ic Hc1 Hi) as [_ (_ & dc1 & dna1 & Hd1 & _)].
  apply returns_unwrap_bind; [by rewrite Hd1|]. intros dc2 _.
  apply returns_seq; [apply returns_dna|]. intros d.
  eapply returns_conseq; [apply returns_lift|done|].
  intros hc c2 [?%load_or_new_up ?]. done.
Qed.
End with_cfg.

(** Putting a created instance into the map. *)
Lemma booting_insert cfg ids id hc c : is_up hc → booting cfg ids c →
  booting cfg (λ i, ids i ∨ i = id) (insert_instance id hc c).
Proof.
  intros [Hset Hnet] [? ? ? ? ? ? ? ? ? Hup Hcr]. unfold insert_instance.
  destruct c as [insts heap next ? ? cf]; cbn in *. split; cbn; try done.
  - intros i ptr. cbn. destruct (decide (i = id)) as [->|Hne].
    + rewrite lookup_insert_eq. intros [= <-]. unfold network_is_up.
      rewrite lookup_insert_eq, Hset, Hnet. split; [done|lia].
    + rewrite lookup_insert_ne by done. intros Hi. destruct (Hup i ptr Hi) as [Hu Hlt]. cbn in *.
      split; [|lia]. unfold network_is_up in *. rewrite lookup_insert_ne by lia. done.
  - intros i. destruct (decide (i = id)) as [->|Hne].
    + rewrite lookup_insert_eq. naive_solver.
    + rewrite lookup_insert_ne by done. rewrite Hcr. naive_solver.
Qed.

Lemma booting_ext cfg (ids ids' : string → Prop) c :
  (∀ i, ids i ↔ ids' i) → booting cfg ids c → booting cfg ids' c.
Proof. intros Hi []. split; try done. intros i. by rewrite <- Hi. Qed.

Lemma returns_boot_instance `{!ToposortLaws} cfg ids id : id ∈ instance_ids cfg →
  (∀ b, b ∈ bridge_dependencies cfg id → ids (callee_id b)) →
  returns (booting cfg ids) (boot_instance id) (λ _, booting cfg (λ i, ids i ∨ i = id)).
Proof.
  intros [ic Hic]%instance_by_id_is_Some Hcallees. unfold boot_instance.
  apply returns_get_bind. intros c Hc. case_decide as Hid.
  - intros c1 Hc1. exists (Ok ()), c1. split; [done|]. intros _ _. eapply booting_ext; [|done].
    intros i. split; [by left|]. intros [?| ->]; [done|]. by apply (b_created _ _ _ Hc).
  - eapply returns_bind; [by eapply returns_convert, returns_instantiate|]. intros hc. cbn beta.
    apply returns_modify. intros c1 [Hup Hc1]. by apply booting_insert.
Qed.

Lemma before_prefix {A} (pre rest : list A) x a :
  NoDup (pre ++ x :: rest)%list → before (pre ++ x :: rest)%list a x → a ∈ pre.
Proof.
  intros Hnd (i & j & Hi & Hj & Hij).
  assert (j = length pre) as ->.
  { eapply NoDup_lookup; [exact Hnd|exact Hj|]. by rewrite list_lookup_middle. }
  rewrite lookup_app_l in Hi by done. by eapply list_elem_of_lookup_2.
Qed.

(** The DPKI instance, created first. *)
Definition is_dpki (cfg : Configuration) (i : string) : Prop :=
  ∃ d, dpki cfg = Some d ∧ dpki_instance d = i.

Lemma Holochain_start_up hc hc' : Holochain_start hc = Ok hc' → is_up hc → is_up hc'.
Proof. unfold Holochain_start. intros ([] & _ & Hs)%bind_ok [? ?]. by destruct (hc_active hc); simplify_eq/=. Qed.

Lemma returns_dpki_bootstrap `{!ToposortLaws} cfg :
  (∀ d, dpki cfg = Some d → bridge_dependencies cfg (dpki_instance d) = []) →
  returns (booting cfg (λ _, False)) dpki_bootstrap (λ _, booting cfg (is_dpki cfg)).
Proof.
  intros Hnob. unfold dpki_bootstrap. apply returns_get_bind. intros c Hc.
  rewrite (b_dpki _ _ _ Hc). destruct (dpki cfg) as [d|] eqn:Hd; last first.
  { intros c1 Hc1. exists (Ok ()), c1. split; [done|]. intros _ _. eapply booting_ext; [|done].
    intros i. unfold is_dpki. naive_solver. }
  destruct (proj2 (instance_by_id_is_Some cfg (dpki_instance d))) as [ic Hic].
  { unfold instance_ids. rewrite <- (b_instances _ _ _ Hc).
    apply (dpki_fits _ _ (proj1 (b_consistent _ _ _ Hc)) d). by rewrite (b_dpki _ _ _ Hc). }
  apply returns_bind with (Q := λ _, booting cfg (is_dpki cfg)).
  - apply returns_convert. unfold start_dpki_instance.
    eapply returns_bind.
    { apply returns_convert, (returns_instantiate cfg _ (dpki_instance d) ic Hic).
      rewrite Hnob by done. set_solver. }
    intros hc. cbn beta. apply returns_pure. intros Hup. apply returns_lift_bind. intros hc' Hs.
    apply returns_modify. intros c1 Hc1. eapply booting_ext; [|apply booting_insert, Hc1].
    + intros i. unfold is_dpki. naive_solver.
    + by eapply Holochain_start_up.
  - intros _. eapply returns_seq.
    { apply returns_convert. intros c1 Hc1. unfold get_instance.
      destruct (proj2 (b_created _ _ _ Hc1 (dpki_instance d))) as [ptr Hptr]; [by eexists|].
      rewrite Hptr. destruct (b_up _ _ _ Hc1 _ _ Hptr) as [Hu _]. unfold network_is_up in Hu.
      destruct (c_heap c1 !! ptr) eqn:Hh; [|done]. by eexists _, _. }
    intros [ptr hc]. apply returns_lift_bind. intros [] _; [apply returns_ret_same|apply returns_lift_same].
Qed.

Lemma returns_boot_uis cfg ids : returns (booting cfg ids)
  (op_each boot_ui_interface (ui_interfaces cfg)) (λ _, booting cfg ids).
Proof.
  apply (returns_each _ _ (λ _, booting cfg ids)). intros pre ui rest Hl.
  unfold boot_ui_interface. apply returns_get_bind. intros c Hc. apply returns_lift_bind.
  intros bundle _. apply returns_seq.
  - destruct (ui_dna_interface ui) as [i|] eqn:Hi; [|apply returns_ret_same].
    apply returns_unwrap_bind; [|intros; apply returns_ret_same].
    apply find_key_is_Some. eapply (ui_interfaces_fit _ _ (proj1 (b_consistent _ _ _ Hc))); [|done].
    rewrite (b_uis _ _ _ Hc), Hl. set_solver.
  - intros ?. apply returns_modify. intros c1 Hc1.
    apply (booting_other cfg ids (λ c, set_c_static_servers c _)); by destruct c1.
Qed.

Lemma returns_boot `{!ToposortLaws} cfg :
  (∀ d, dpki cfg = Some d → bridge_dependencies cfg (dpki_instance d) = []) →
  returns (λ c, c_config c = cfg ∧ booting cfg (λ _, False) c) boot_from_config
    (λ _, booting cfg (.∈ instance_ids cfg)).
Proof.
  intros Hnob. unfold boot_from_config. apply returns_get_bind. intros c [<- Hc].
  set (cfg := c_config c) in *. apply returns_seq.
  { unfold config_check. apply returns_get_bind. intros c1 _ c2 Hc2. unfold op_outcome.
    destruct (check_consistency_total (load_dna (c_dna_files c1)) cfg) as (r & -> & _).
    by eexists _, _. }
  intros _. eapply (returns_modify_bind _ (booting cfg (λ _, False))).
  { intros c1 [_ Hc1]. apply (booting_other cfg _ (λ c, set_c_p2p_config c true)); by destruct c1. }
  eapply returns_bind; [by apply returns_convert, returns_dpki_bootstrap|]. intros u. cbn beta.
  apply returns_get_bind. intros c1 Hc1.
  assert (Hids : instance_ids (c_config c1) = instance_ids cfg)
    by (unfold instance_ids; by rewrite (b_instances _ _ _ Hc1)).
  assert (Hwf := proj1 (b_consistent _ _ _ Hc1)).
  destruct (sorted_spec (c_config c1)) as [(_ & l & Hl & Hp & Hb)|(Hno & _)].
  { apply Hwf. }
  { intros b Hb. eapply bridge_ends, bridges_fit; eauto. }
  2: by destruct Hno; apply (b_consistent _ _ _ Hc1).
  eapply returns_bind with (Q := λ y c, y = l ∧ booting cfg (is_dpki cfg) c).
  { apply returns_convert. rewrite Hl. intros c2 Hc2. eexists _, _. split; [done|].
    by intros y [= <-]. }
  intros y. apply returns_pure. intros ->.
  apply returns_bind with (Q := λ _, booting cfg (λ i, is_dpki cfg i ∨ i ∈ l)).
  - eapply returns_conseq; [apply (returns_each _ _ (λ pre, booting cfg (λ i, is_dpki cfg i ∨ i ∈ pre)))| |].
    + intros pre id rest ->. eapply returns_conseq; [apply (returns_boot_instance cfg)|done|].
      * rewrite <- Hids, <- Hp. set_solver.
      * intros b [Hcaller Hbr]%list_elem_of_filter. right. eapply before_prefix.
        { rewrite Hp. apply Hwf. } subst id. apply Hb. by rewrite (b_bridges _ _ _ Hc1).
      * intros u2 c2 Hc2. cbn beta in *. eapply booting_ext; [|exact Hc2]. intros i. set_solver.
    + intros c2 Hc2. eapply booting_ext; [|exact Hc2]. set_solver.
    + done.
  - intros u2. apply returns_get_bind. intros c2 Hc2. rewrite (b_uis _ _ _ Hc2).
    eapply returns_conseq; [apply returns_boot_uis|done|].
    intros u3 c3 Hc3. cbn beta in *. eapply booting_ext; [|exact Hc3]. intros i. rewrite <- Hids, <- Hp.
    split; [|by right]. intros [(d & Hd & <-)|?]; [|done]. rewrite Hp.
    apply (dpki_fits _ _ Hwf). by rewrite (b_dpki _ _ _ Hc1).
Qed.


(** C14: Booting a conductor without instances from a consistent configuration
    does not panic, provided that the services of agents with remote keys are
    configured and that the DPKI instance calls no other instance.  If it
    succeeds, exactly the configured instances have been created, each with its
    network up. *)
Theorem boot_creates_all_instances `{!ToposortLaws} c :
  c_instances c = ∅ → consistent (load_dna (c_dna_files c)) (c_config c) → services_ok (c_config c) →
  (∀ d, dpki (c_config c) = Some d → bridge_dependencies (c_config c) (dpki_instance d) = []) →
  ∃ r c', boot_from_config c = Ret (r, c') ∧
    (r = Ok () → (∀ id, is_Some (c_instances c' !! id) ↔ id ∈ instance_ids (c_config c)) ∧ all_up c').
Proof.
  intros Hi Hc Hs Hd. destruct (returns_boot (c_config c) Hd c) as (r & c' & Hr & Hok).
  { split; [done|]. split; try done; unfold all_up; rewrite Hi; [set_solver|].
    intros id. rewrite lookup_empty, is_Some_alt. done. }
  exists r, c'. split; [done|]. intros ->. destruct (Hok () eq_refl). done.
Qed.

(** ** Stopping and starting *)

Lemma get_instance_ok id c r c' : get_instance id c = Ret (r, c') →
  c' = c ∧ ∀ ptr hc, r = Ok (ptr, hc) → c_instances c !! id = Some ptr ∧ c_heap c !! ptr = Some hc.
Proof.
  unfold get_instance. destruct (c_instances c !! id) as [ptr|] eqn:Hi; [|by intros [= <- <-]].
  destruct (c_heap c !! ptr) eqn:Hh; [|done]. intros [= <- <-]. split; [done|]. by intros ? ? [= <- <-].
Qed.

(** What a successful stop and start do to the instance. *)
Lemma stop_instance_ok id c c' : stop_instance id c = Ret (Ok (), c') →
  ∃ ptr hc hc', c_instances c !! id = Some ptr ∧ c_heap c !! ptr = Some hc ∧
    Holochain_stop hc = Ok hc' ∧ c' = write_instance ptr hc' c.
Proof.
  unfold stop_instance, mbind, Op_bind. destruct (get_instance id c) as [[[[ptr hc]|e] c1]| |] eqn:Hg;
    try done. apply get_instance_ok in Hg as [-> Hg]. destruct (Hg _ _ eq_refl) as [Hi Hh].
  unfold op_lift. destruct (Holochain_stop hc) as [hc'|e] eqn:Hs; [|done].
  intros [= <-]. by exists ptr, hc, hc'.
Qed.

Lemma op_each_ok {E A} (f : A → Op E ()) l c c' (I : Conductor → Prop) :
  (∀ x, keeps I (f x)) → I c → op_each f l c = Ret (Ok (), c') → I c'.
Proof. intros Hf Hc Hr. by eapply (keeps_each I f l Hf). Qed.

Lemma start_instance_ok id c c' : start_instance id c = Ret (Ok (), c') →
  ∃ ptr hc hc', c_instances c !! id = Some ptr ∧ c_heap c !! ptr = Some hc ∧
    Holochain_start hc = Ok hc' ∧ c' = write_instance ptr hc' c.
Proof.
  unfold start_instance. intros Hr. unfold_ops in Hr.
  destruct (get_instance id c) as [[[[ptr hc]|e] c1]| |] eqn:Hg; try done.
  apply get_instance_ok in Hg as [-> Hg]. destruct (Hg _ _ eq_refl) as [Hi Hh].
  destruct (check_instance hc), (hc_dna hc) as [dna|]; try done. cbn [ok_or] in Hr.
  destruct (op_each _ _ c) as [[[[]|e] c1]| |] eqn:He; try done.
  assert (c1 = c) as ->.
  { eapply (op_each_ok _ _ c c1 (λ c1, c1 = c)); [|done|exact He]. intros b c2 r c3 -> Hb.
    unfold check_required_bridge in Hb. by cases_in Hb. }
  destruct (Holochain_start hc) as [hc'|] eqn:Hs; [|done]. simplify_eq/=. by exists ptr, hc, hc'.
Qed.

(** Starting an instance that was stopped reports success and marks it as
    active, but its network stays down and its action loop is not running:
    starting only sets a flag. *)
Theorem restarted_instance_is_dead id c c1 c2 :
  stop_instance id c = Ret (Ok (), c1) → start_instance id c1 = Ret (Ok (), c2) →
  ∃ ptr hc, c_instances c2 !! id = Some ptr ∧ c_heap c2 !! ptr = Some hc ∧
    hc_active hc = true ∧ hc_network hc = false ∧ hc_loop hc = false.
Proof.
  intros (ptr & hc & hc1 & Hi & Hh & Hstop & ->)%stop_instance_ok
    (ptr' & hc' & hc2 & Hi' & Hh' & Hstart & ->)%start_instance_ok.
  destruct c. cbn in *. rewrite Hi in Hi'. simplify_eq. rewrite lookup_insert_eq in Hh'. simplify_eq.
  exists ptr', hc2. rewrite lookup_insert_eq.
  apply bind_ok in Hstop as ([] & _ & ([] & _ & [= <-])%bind_ok).
  apply bind_ok in Hstart as ([] & _ & [= <-]). done.
Qed.

(** ** Agents with remote keys *)

Lemma add_bridge_to_api_ok b api c r c' : add_bridge_to_api b api c = Ret (r, c') →
  c' = c ∧ is_Some (c_instances c !! callee_id b) ∧
  ∃ api', r = Ok api' ∧ api_methods api' = api_methods api.
Proof.
  unfold add_bridge_to_api. intros Hr. unfold_ops in Hr.
  destruct (instance_by_id _ _); [|done].
  destruct (c_instances c !! callee_id b) eqn:Hb; rewrite ?Hb in Hr; simplify_eq/=.
  split_and!; [done|by eexists|by eexists].
Qed.

Lemma add_bridges_to_api_ok l api c r c' : add_bridges_to_api l api c = Ret (r, c') →
  c' = c ∧ (∀ b, b ∈ l → is_Some (c_instances c !! callee_id b)) ∧
  ∃ api', r = Ok api' ∧ api_methods api' = api_methods api.
Proof.
  revert api. induction l as [|b l IH]; intros api Hr; cbn in Hr.
  - unfold_ops in Hr. simplify_eq. split_and!; [done|set_solver|eauto].
  - unfold mbind, Op_bind in Hr. destruct (add_bridge_to_api b api c) as [[r1 c1]| |] eqn:Hb; try done.
    apply add_bridge_to_api_ok in Hb as (-> & Hsome & api1 & -> & Hm).
    apply IH in Hr as (-> & Hl & api' & -> & Hm'). split_and!; [done| |by rewrite <- Hm; eauto].
    intros b' [->|?]%elem_of_cons; auto.
Qed.

(** The conductor API of an agent whose keys are with remote services sends
    every signing request to the decryption service, and has no methods for
    encryption and decryption: all three services are registered as the signing
    callback, the last one wins. *)
Theorem remote_signing_uses_decryption_service id c c' ic a api :
  instance_by_id (c_config c) id = Some ic → agent_by_id (c_config c) (instance_agent ic) = Some a →
  agent_holo_remote_key a = Some true → build_conductor_api id c = Ret (Ok api, c') →
  ∃ agent uri, decryption_service_uri (c_config c) = Some uri ∧
    api_methods api !! "agent/sign" = Some (Method_Service agent uri) ∧
    api_methods api !! "agent/encrypt" = None ∧ api_methods api !! "agent/decrypt" = None.
Proof.
  intros Hi Ha Hh Hr. unfold build_conductor_api in Hr. unfold_ops in Hr. rewrite Hi in Hr. cbn [ok_or] in Hr.
  rewrite Ha in Hr. cbn [ok_or] in Hr. rewrite Hh in Hr.
  unfold outsourced_callbacks, agent_config_to_id in Hr. rewrite Hh in Hr. unfold_ops in Hr.
  destruct (signing_service_uri (c_config c)), (encryption_service_uri (c_config c)),
    (decryption_service_uri (c_config c)) as [uri|]; try done.
  destruct (add_bridges_to_api _ _ c) as [[r1 c1]| |] eqn:Hb; try done.
  apply add_bridges_to_api_ok in Hb as (-> & _ & api' & -> & Hm).
  assert (api = spawn api') as -> by congruence.
  eexists _, uri. split; [done|]. cbn. rewrite Hm. split_and!.
  all: repeat (rewrite lookup_insert_eq || rewrite lookup_insert_ne by done); reflexivity.
Qed.

(** ** The DPKI instance *)

(** Of a successful sequence, the first part succeeded. *)
Lemma bind_ret_ok {E A B} (m : Op E A) (k : A → Op E B) c y c' :
  (m ≫= k) c = Ret (Ok y, c') → ∃ x c1, m c = Ret (Ok x, c1) ∧ k x c1 = Ret (Ok y, c').
Proof. unfold mbind, Op_bind. destruct (m c) as [[[x|e] c1]| |]; naive_solver. Qed.

Lemma convert_ret_ok {E F A} (f : E → F) (m : Op E A) c y c' :
  op_convert f m c = Ret (Ok y, c') → m c = Ret (Ok y, c').
Proof. unfold op_convert. destruct (m c) as [[[x|e] c1]| |]; naive_solver. Qed.


Lemma keeps_use {E A} (I : Conductor → Prop) (m : Op E A) c r c' :
  m c = Ret (r, c') → I c → keeps I m → I c'.
Proof. intros Hr Hc Hm. by eapply Hm. Qed.

(** An instance is only created when the callees of its bridges exist. *)
Lemma api_needs_callees id c api c' ic b :
  build_conductor_api id c = Ret (Ok api, c') → instance_by_id (c_config c) id = Some ic →
  b ∈ bridge_dependencies (c_config c) id → is_Some (c_instances c !! callee_id b).
Proof.
  intros Hr Hi Hb. assert (Hid : instance_id ic = id) by by apply find_by_Some in Hi as [_ ?].
  unfold build_conductor_api in Hr. apply bind_ret_ok in Hr as (? & ? & [= <- <-] & Hr).
  rewrite Hi in Hr. apply bind_ret_ok in Hr as (? & ? & [= <- <-] & Hr).
  apply bind_ret_ok in Hr as (a & c1 & [= Ha <-] & Hr).
  apply bind_ret_ok in Hr as (api1 & c2 & Hcb & Hr).
  apply bind_ret_ok in Hr as (api2 & c3 & Hbr & _).
  apply add_bridges_to_api_ok in Hbr as (-> & Hall & _).
  assert (c_instances c2 = c_instances c) as <-; [|apply Hall; by rewrite Hid].
  refine (keeps_use (λ c1, c_instances c1 = c_instances c) _ _ _ _ Hcb eq_refl _).
  assert (∀ c1 keys, c_instances c1 = c_instances c → c_instances (set_c_agent_keys c1 keys) = c_instances c)
    by (by intros []).
  unfold outsourced_callbacks, local_callbacks. solve_keeps.
  all: auto using keeps_agent_config_to_id, keeps_get_keybundle, keeps_get_keystore.
Qed.

(** The stages of the creation of an instance, with a property that survives
    the changes made on the way. *)
Lemma instantiate_stages (I : Conductor → Prop) id c hc c' :
  (∀ c keys, I c → I (set_c_agent_keys c keys)) →
  (∀ c rs, I c → I (set_c_signal_receivers c rs)) →
  (∀ c, I c → I (set_c_saved c (Some (c_config c)))) →
  (∀ c id key, I c → I (set_c_config c (update_agent_address_by_id (c_config c) id key))) →
  I c → instantiate_from_config id c = Ret (Ok hc, c') →
  ∃ c1 c2 c3 c4 api ic, instance_by_id (c_config c) id = Some ic ∧
    I c1 ∧ @get_p2p_config _ string c1 = Ret (Ok (), c2) ∧
    I c3 ∧ build_conductor_api id c3 = Ret (Ok api, c4).
Proof.
  intros Hkeys Hrecs Hsave Haddr Hc Hr. unfold instantiate_from_config in Hr.
  apply bind_ret_ok in Hr as (? & ? & [= <- <-] & Hr).
  apply bind_ret_ok in Hr as (u1 & c1 & Hcheck & Hr).
  assert (Hc1 : I c1) by (apply (keeps_use I _ _ _ _ Hcheck); [done|unfold config_check; solve_keeps]).
  apply bind_ret_ok in Hr as (ic & ? & [= Hi%ok_or_ok <-] & Hr).
  assert (Hid : instance_id ic = id) by by apply find_by_Some in Hi as [_ ?].
  apply bind_ret_ok in Hr as (a & c2 & Ha & Hr).
  assert (Hc2 : I c2) by (apply (keeps_use I _ _ _ _ Ha Hc1), keeps_unwrap).
  apply bind_ret_ok in Hr as (agent & c3 & Hagent & Hr).
  assert (Hc3 : I c3) by (by apply (keeps_use I _ _ _ _ Hagent Hc2), keeps_convert, keeps_agent_config_to_id).
  apply bind_ret_ok in Hr as (u2 & c4 & Htest & Hr).
  assert (Hc4 : I c4).
  { apply (keeps_use I _ _ _ _ Htest Hc3). destruct (default false _); [|apply keeps_ret].
    apply keeps_bind; [apply keeps_modify; auto|]. intros _. by apply keeps_convert, keeps_save_config. }
  apply bind_ret_ok in Hr as ([] & c5 & Hp2p & Hr).
  assert (Hc5 : I c5) by (apply (keeps_use I _ _ _ _ Hp2p Hc4), keeps_get_p2p_config).
  apply bind_ret_ok in Hr as (u4 & c6 & Hrec & Hr).
  assert (Hc6 : I c6) by (apply (keeps_use I _ _ _ _ Hrec Hc5), keeps_modify; auto).
  apply bind_ret_ok in Hr as (u5 & c7 & Hopen & Hr).
  assert (Hc7 : I c7) by (apply (keeps_use I _ _ _ _ Hopen Hc6), keeps_lift).
  apply bind_ret_ok in Hr as (api & c8 & Hapi%convert_ret_ok & _).
  rewrite Hid in Hapi. eexists _, _, _, _, _, _. eauto 6.
Qed.

Lemma instantiate_needs_callees id c hc c' b :
  instantiate_from_config id c = Ret (Ok hc, c') →
  b ∈ bridge_dependencies (c_config c) id → is_Some (c_instances c !! callee_id b).
Proof.
  intros Hr Hb. eapply (instantiate_stages (λ c1, instances (c_config c1) = instances (c_config c) ∧
    bridges (c_config c1) = bridges (c_config c) ∧ c_instances c1 = c_instances c)) in Hr
    as (_ & _ & c3 & c4 & api & ic & Hi & _ & _ & (Hins & Hbr & <-) & Hapi).
  - eapply api_needs_callees; [exact Hapi|..].
    + unfold instance_by_id in *. by rewrite Hins.
    + unfold bridge_dependencies in *. by rewrite Hbr.
  - by intros [].
  - by intros [].
  - by intros [].
  - by intros [? ? ? ? ? []].
  - done.
Qed.

(** Nor is it created while the network of another instance is down. *)
Lemma instantiate_needs_networks id c hc c' i ptr :
  instantiate_from_config id c = Ret (Ok hc, c') → c_p2p_config c = true →
  c_instances c !! i = Some ptr → network_is_up (c_heap c) ptr = true.
Proof.
  intros Hr Hp Hi. eapply (instantiate_stages (λ c1, c_p2p_config c1 = true ∧
    c_instances c1 = c_instances c ∧ c_heap c1 = c_heap c)) in Hr
    as (c1 & c2 & _ & _ & _ & _ & _ & (Hp1 & Hi1 & Hh1) & Hget & _).
  - unfold get_p2p_config in Hget. rewrite Hp1, Hi1, Hh1 in Hget.
    destruct (forallb _ _) eqn:Hall; [|done]. rewrite forallb_forall in Hall.
    apply (Hall (i, ptr)). by apply list_elem_of_In, elem_of_map_to_list.
  - by intros [].
  - by intros [].
  - by intros [].
  - by intros [].
  - done.
Qed.

(** If the DPKI instance calls another instance through a bridge, booting
    never succeeds: the DPKI instance is created before all others, when its
    callee does not exist yet. *)
Theorem dpki_with_bridge_never_boots c d b :
  c_instances c = ∅ → dpki (c_config c) = Some d →
  b ∈ bridge_dependencies (c_config c) (dpki_instance d) →
  ∀ c', boot_from_config c ≠ Ret (Ok (), c').
Proof.
  intros Hempty Hd Hb c' Hr. unfold boot_from_config in Hr.
  apply bind_ret_ok in Hr as (? & ? & [= <- <-] & Hr).
  apply bind_ret_ok in Hr as (u & c1 & Hcheck & Hr).
  assert (c1 = c) as ->.
  { apply (keeps_use (λ c1, c1 = c) _ _ _ _ Hcheck eq_refl). unfold config_check. solve_keeps. }
  apply bind_ret_ok in Hr as (u1 & c1 & Hm & Hr).
  assert (Hc1 : c_config c1 = c_config c ∧ c_instances c1 = ∅).
  { injection Hm as _ <-. by destruct c. }
  destruct Hc1 as [Hset Hno]. clear Hm.
  apply bind_ret_ok in Hr as (u2 & c2 & Hdp%convert_ret_ok & _).
  unfold dpki_bootstrap in Hdp. apply bind_ret_ok in Hdp as (? & ? & [= <- <-] & Hdp).
  rewrite Hset, Hd in Hdp. apply bind_ret_ok in Hdp as (u3 & c3 & Hst%convert_ret_ok & _).
  unfold start_dpki_instance in Hst. apply bind_ret_ok in Hst as (hc & c4 & Hi%convert_ret_ok & _).
  eapply instantiate_needs_callees in Hi; [|by rewrite Hset].
  rewrite Hno, lookup_empty in Hi. by destruct Hi.
Qed.

(** ** What interfaces get *)

(** Internal signals of an instance (traces and consistency events) only go
    to admin interfaces, and only if they are switched on; a signal of the
    application only goes to admin interfaces and to interfaces the instance is
    exposed on. *)
Theorem signal_routing config instance signal i :
  i ∈ signal_interfaces config instance signal ↔
  i ∈ interfaces config ∧
  match signal with
  | Signal_Trace _ => signals_trace (signals config) = true ∧ interface_admin i = true
  | Signal_Consistency _ => signals_consistency (signals config) = true ∧ interface_admin i = true
  | Signal_User _ => interface_admin i = true ∨ instance ∈ (ref_id <$> interface_instances i)
  end.
Proof.
  unfold signal_interfaces. destruct signal; [destruct (signals_trace _)|destruct (signals_consistency _)|];
    rewrite ?list_elem_of_filter; set_solver.
Qed.

Lemma add_methods_lookup names m api k :
  api_methods (add_methods api names m) !! k =
  if decide (k ∈ names) then Some m else api_methods api !! k.
Proof.
  revert api. induction names as [|n names IH]; intros api; [done|].
  change (add_methods api (n :: names) m) with (add_methods (add_method api n m) names m).
  rewrite IH. cbn. destruct (decide (k = n)) as [->|Hne].
  - rewrite lookup_insert_eq, (decide_True (P:=n ∈ n :: names)) by by left. by case_decide.
  - rewrite lookup_insert_ne by done. repeat case_decide; set_solver.
Qed.

Lemma add_methods_instances names m api : api_instances (add_methods api names m) = api_instances api.
Proof.
  revert api. induction names as [|n names IH]; intros api; [done|].
  change (add_methods api (n :: names) m) with (add_methods (add_method api n m) names m).
  by rewrite IH.
Qed.

Lemma references_methods c l api :
  api_methods (fold_left (add_reference_to_api c) l api) = api_methods api.
Proof.
  revert api. induction l as [|r l IH]; intros api; [done|]. cbn. rewrite IH.
  unfold add_reference_to_api. by repeat case_match.
Qed.

Lemma references_instances c l api name ptr :
  api_instances (fold_left (add_reference_to_api c) l api) !! name = Some ptr →
  api_instances api !! name = Some ptr ∨
  ∃ r, r ∈ l ∧ default (ref_id r) (ref_alias r) = name ∧ c_instances c !! ref_id r = Some ptr.
Proof.
  revert api. induction l as [|r l IH]; intros api Hn; [by left|]. cbn in Hn.
  apply IH in Hn as [Hn|(r' & ? & ?)]; [|right; exists r'; set_solver].
  unfold add_reference_to_api in Hn. destruct (c_instances c !! ref_id r) as [p|] eqn:Hp; [|by left].
  destruct (instance_by_id _ _); [|by left]. cbn in Hn.
  destruct (decide (name = default (ref_id r) (ref_alias r))) as [->|Hne].
  - rewrite lookup_insert_eq in Hn. simplify_eq. right. exists r. set_solver.
  - rewrite lookup_insert_ne in Hn by done. by left.
Qed.

Definition conductor_methods : list string :=
  (admin_dna_methods ++ admin_ui_methods ++ test_admin_methods ++ debug_methods)%list.

Lemma call_not_administrative : "call" ∉ conductor_methods.
Proof. by apply (bool_decide_eq_false_1 _). Qed.

Lemma info_not_administrative : "info/instances" ∉ conductor_methods.
Proof. by apply (bool_decide_eq_false_1 _). Qed.

(** The parts of a handler: the references and, for an admin interface, the
    methods of the conductor. *)
Definition interface_base (c : Conductor) (i : InterfaceConfiguration) : ConductorApi :=
  fold_left (add_reference_to_api c) (interface_instances i) ConductorApiBuilder_new.

Definition interface_full (c : Conductor) (i : InterfaceConfiguration) : ConductorApi :=
  if interface_admin i then
    add_methods (add_methods (add_methods (add_methods (interface_base c i)
      admin_dna_methods Method_Conductor) admin_ui_methods Method_Conductor)
      test_admin_methods Method_Conductor) debug_methods Method_Conductor
  else interface_base c i.

Lemma make_interface_handler_eq c i : make_interface_handler c i = spawn (interface_full c i).
Proof. unfold interface_full, make_interface_handler. by destruct (interface_admin i). Qed.

Lemma spawn_methods api m : api_methods (spawn api) !! m =
  if decide (m = "call") then Some Method_Call
  else if decide (m = "info/instances") then Some Method_Info else api_methods api !! m.
Proof.
  unfold spawn, add_method. cbn. destruct (decide (m = "call")) as [->|]; [by rewrite lookup_insert_eq|].
  rewrite lookup_insert_ne by done.
  destruct (decide (m = "info/instances")) as [->|]; [by rewrite lookup_insert_eq|].
  by rewrite lookup_insert_ne.
Qed.

Lemma interface_full_methods c i m : api_methods (interface_full c i) !! m = Some Method_Conductor ↔
  interface_admin i = true ∧ m ∈ conductor_methods.
Proof.
  assert (Hbase : api_methods (interface_base c i) !! m = None).
  { unfold interface_base. by rewrite references_methods. }
  unfold interface_full, conductor_methods. rewrite !elem_of_app. destruct (interface_admin i).
  - rewrite !add_methods_lookup, Hbase. repeat case_decide; naive_solver.
  - rewrite Hbase. naive_solver.
Qed.

(** The handler of an interface answers the methods that administer the
    conductor exactly if the interface is an admin interface, and a name it
    gives access to is the alias or id of one of the instances listed for it. *)
Theorem interface_exposes c i :
  (∀ m, api_methods (make_interface_handler c i) !! m = Some Method_Conductor ↔
        interface_admin i = true ∧ m ∈ conductor_methods) ∧
  (∀ name ptr, api_instances (make_interface_handler c i) !! name = Some ptr →
     ∃ r, r ∈ interface_instances i ∧ default (ref_id r) (ref_alias r) = name ∧
          c_instances c !! ref_id r = Some ptr).
Proof.
  rewrite make_interface_handler_eq. split.
  - intros m. rewrite spawn_methods, <- (interface_full_methods c i m).
    destruct (decide (m = "call")) as [->|]; [|destruct (decide (m = "info/instances")) as [->|]; [|done]].
    + split; [done|]. by intros [_ []%call_not_administrative]%interface_full_methods.
    + split; [done|]. by intros [_ []%info_not_administrative]%interface_full_methods.
  - intros name ptr Hn. change (api_instances (interface_full c i) !! name = Some ptr) in Hn.
    assert (Hn' : api_instances (interface_base c i) !! name = Some ptr).
    { unfold interface_full in Hn. destruct (interface_admin i); [|done].
      by rewrite !add_methods_instances in Hn. }
    by apply references_instances in Hn' as [?|?].
Qed.
End boot.

(** ** Examples *)

#[local] Existing Instance kahn.
#[local] Existing Instance toy_dna_addressing.
#[local] Existing Instance toy_conductor_env.

Definition booted : Conductor := after boot_from_config (example_conductor pair_config).

Lemma example_loader_files cfg : consistent example_loader cfg →
  consistent (load_dna example_files) cfg.
Proof.
  apply consistent_mono. intros p d. unfold example_loader, load_dna. destruct (example_files !! p) as [d'|] eqn:Hp;
    [|done]. intros [= <-]. cbn. enough (Dna_verify d' = Ok ()) as -> by done.
  unfold example_files in Hp. apply lookup_insert_Some in Hp as [[_ <-]|[_ Hp]]; [done|].
  by apply lookup_singleton_Some in Hp as [_ <-].
Qed.

Lemma boot_creates_all_instances_witness : ∃ r c',
  boot_from_config (example_conductor pair_config) = Ret (r, c') ∧
  (r = Ok () → (∀ id, is_Some (c_instances c' !! id) ↔ id ∈ instance_ids pair_config) ∧ all_up c').
Proof.
  apply (boot_creates_all_instances (example_conductor pair_config)).
  - reflexivity.
  - apply example_loader_files, pair_config_consistent.
  - intros a Ha Hh. cbn in Ha. apply list_elem_of_singleton in Ha as ->. discriminate Hh.
  - intros d Hd. discriminate Hd.
Defined.

(** Starting all instances fails when a caller is listed before its callee: they
    are started in the order of the configuration.  Starting them in the order
    in which they were created succeeds. *)
Theorem starting_in_listed_order_fails :
  result_of boot_from_config (example_conductor pair_config) = Some (Ok ()) ∧
  result_of start_all_instances booted = Some (Err (InstanceError_RequiredBridgeMissing "h")) ∧
  result_of (_ ← start_instance "b"; start_instance "a") booted = Some (Ok ()).
Proof. vm_compute. split_and!; reflexivity. Qed.

(** A conductor with one running instance. *)
Definition running : Conductor :=
  let c := example_conductor (example_config [example_instance "b" "callee"] []) in
  insert_instance "b" {| hc_set := true; hc_active := true; hc_network := true; hc_loop := true;
    hc_dna := Some callee_dna; hc_agent := {| nick := "alice"; pub_sign_key := "key" |};
    hc_api := ConductorApiBuilder_new |} (set_c_p2p_config c true).

Definition stopped : Conductor := after (stop_instance "b") running.

Lemma restarted_instance_is_dead_witness : ∃ ptr hc,
  c_instances (after (start_instance "b") stopped) !! "b" = Some ptr ∧
  c_heap (after (start_instance "b") stopped) !! ptr = Some hc ∧
  hc_active hc = true ∧ hc_network hc = false ∧ hc_loop hc = false.
Proof.
  apply (restarted_instance_is_dead "b" running stopped).
  - vm_compute. reflexivity.
  - vm_compute. reflexivity.
Defined.

(** An agent with remote keys. *)
Definition remote_config : Configuration :=
  let c := example_config [example_instance "b" "callee"] [] in
  {| agents := [{| agent_id := "alice"; agent_config_name := "alice"; agent_public_address := "key";
                   agent_keystore_file := "::ignored::"; agent_holo_remote_key := Some true;
                   agent_test_agent := None |}];
     dnas := dnas c; instances := instances c; interfaces := []; bridges := []; ui_bundles := [];
     ui_interfaces := []; persistence_dir := "/hc"; signing_service_uri := Some "ws://sign";
     encryption_service_uri := Some "ws://encrypt"; decryption_service_uri := Some "ws://decrypt";
     dpki := None; signals := signals c |}.

Lemma remote_signing_uses_decryption_service_witness : ∃ api agent uri,
  result_of (build_conductor_api "b") (example_conductor remote_config) = Some (Ok api) ∧
  decryption_service_uri remote_config = Some uri ∧
  api_methods api !! "agent/sign" = Some (Method_Service agent uri) ∧
  api_methods api !! "agent/encrypt" = None ∧ api_methods api !! "agent/decrypt" = None.
Proof.
  eexists.
  edestruct (remote_signing_uses_decryption_service "b" (example_conductor remote_config)
    (example_conductor remote_config) (example_instance "b" "callee")) as (agent & uri & Hw).
  - reflexivity.
  - reflexivity.
  - reflexivity.
  - vm_compute. reflexivity.
  - exists agent, uri. split; [vm_compute; reflexivity|exact Hw].
Defined.

Definition dpki_config : Configuration :=
  let c := pair_config in
  {| agents := agents c; dnas := dnas c; instances := instances c; interfaces := []; bridges := bridges c;
     ui_bundles := []; ui_interfaces := []; persistence_dir := "/hc"; signing_service_uri := None;
     encryption_service_uri := None; decryption_service_uri := None;
     dpki := Some {| dpki_instance := "a"; dpki_params := "{}" |}; signals := signals c |}.

Lemma dpki_with_bridge_never_boots_witness :
  check_consistency example_loader dpki_config = Ret (Ok ()) ∧
  ∀ c', boot_from_config (example_conductor dpki_config) ≠ Ret (Ok (), c').
Proof.
  split; [vm_compute; reflexivity|].
  apply (dpki_with_bridge_never_boots (example_conductor dpki_config)
           {| dpki_instance := "a"; dpki_params := "{}" |} (bridge_from "a" "b")).
  - reflexivity.
  - reflexivity.
  - apply (bool_decide_eq_true_1 _). vm_compute. reflexivity.
Defined.

(** A configuration of this kind passes the check, and booting it panics. *)
Theorem dpki_with_bridge_panics :
  check_consistency example_loader dpki_config = Ret (Ok ()) ∧
  boot_from_config (example_conductor dpki_config) = Panic.
Proof. vm_compute. split; reflexivity. Qed.
