(* ===== verification/ConductorAdmin.v ===== *)
(** * Administration of the conductor

    Models [src/crates/conductor_lib/src/conductor/admin.rs], [ui_admin.rs] and
    [test_admin.rs]: the operations that change the configuration of a running
    conductor.  They change a copy of the configuration, check it, take it over
    and save it, and then adjust instances and interfaces.

    The theorems: along every sequence of calls, whatever they return, the
    configuration in use and the one in the configuration file are consistent;
    how the calls that fail half-way leave the conductor; and that stopping,
    uninstalling and then adding instances makes the conductor panic. *)

From S2P Require Import Prelude Errors CoreTypes Storage Action Instances Dna Config Conductor ConductorBoot.

Local Open Scope string_scope.

(** What the operations use of the file system, keystores and json-patch. *)
Class AdminEnv `{ConductorEnv} : Type := {
  create_dir_all : string → Result HolochainError ();
  write_dna_file : string → Result HolochainError ();
  json_merge : JsonString → JsonString → JsonString;
  copy_ui_dir : string → string → Result HolochainError ();
  (** [Keystore::new_standalone], with the public address, and [Keystore::new]. *)
  keystore_new_standalone : Result HolochainError (Keystore * string);
  keystore_new : Result HolochainError Keystore;
  keystore_save : Keystore → string → Result HolochainError ();
  get_keybundle : Keystore → string → Result HolochainError string;
  add_primary_keybundle : Keystore → string → Result HolochainError Keystore;
  dpki_create_agent_key : Holochain → string → Result HolochainError ();
  (** Whether address and port form a socket address. *)
  valid_address : string → Z → bool;
}.

Lemma append_inj_r (s1 s2 t : string) : s1 +:+ t = s2 +:+ t → s1 = s2.
Proof.
  intros Heq. assert (Hlen : String.length s1 = String.length s2).
  { assert (Hl := f_equal String.length Heq). rewrite !string_length_app in Hl. lia. }
  revert s2 Heq Hlen. induction s1 as [|x s1 IH]; intros [|y s2] Heq Hlen; [done..|].
  rewrite !append_cons in Heq. simplify_eq/=. f_equal. eauto.
Qed.

Section admin.
Context `{Toposort, DnaAddressing, AdminEnv}.

(** The common end of the operations: check the new configuration, take it over
    and save it. *)
Definition commit_config (new_config : Configuration) : Op HolochainError () :=
  _ ← op_convert error_of_string (config_check new_config);
  _ ← op_modify (λ c, set_c_config c new_config);
  save_config.

(** ** DNAs *)

Definition dna_path (dir : string) (address : Address) : string :=
  dir +:+ "/" +:+ address +:+ ".dna.json".

Definition save_dna (dna : Dna) : Op HolochainError string :=
  dir ← op_get dna_dir_path;
  let file_path := dna_path dir (Dna_address dna) in
  _ ← op_lift (create_dir_all dir);
  _ ← op_lift (write_dna_file file_path);
  _ ← op_modify (λ c, set_c_dna_files c (<[file_path := dna]> (c_dna_files c)));
  mret file_path.

Definition set_properties (dna : Dna) (properties : JsonString) : Dna :=
  {| dna_name := dna_name dna; dna_description := dna_description dna;
     dna_version := dna_version dna; dna_uuid := dna_uuid dna;
     dna_spec_version := dna_spec_version dna; dna_properties := properties; zomes := zomes dna |}.

(** Loading the DNA to install, with the hash checked and the properties and the
    uuid put in. *)
Definition prepare_dna (path : string) (copy : bool) (expected_hash : option string)
    (properties : option JsonString) (uuid : option string) : Op HolochainError Dna :=
  files ← op_get c_dna_files;
  dna ← op_lift (map_err (λ e, HolochainError_ConfigError ("Could not load DNA file " +:+
          quoted path +:+ ", Error: " +:+ HolochainError_fmt e)) (load_dna files path));
  _ ← op_lift
    match expected_hash with
    | Some provided_hash =>
        if decide (Dna_address dna = provided_hash) then Ok ()
        else Err (HolochainError_DnaHashMismatch provided_hash (Dna_address dna))
    | None => Ok ()
    end;
  dna ← op_lift
    match properties with
    | Some props =>
        if copy then Ok (set_properties dna (json_merge (dna_properties dna) props))
        else Err (HolochainError_ConfigError
                    "Cannot install DNA with properties unless copy flag is true")
    | None => Ok dna
    end;
  mret match uuid with Some uuid => set_uuid dna uuid | None => dna end.

Definition install_dna_from_file (path id : string) (copy : bool) (expected_hash : option string)
    (properties : option JsonString) (uuid : option string) : Op HolochainError Address :=
  dna ← prepare_dna path copy expected_hash properties uuid;
  config_path ← (if copy then save_dna dna else mret path);
  config ← op_get c_config;
  let new_dna := {| dna_id := id; dna_file := config_path; dna_hash := Dna_address dna;
                    dna_config_uuid := uuid |} in
  _ ← commit_config (set_dnas config (dnas config ++ [new_dna])%list);
  mret (Dna_address dna).

(** Errors of stopping are only reported. *)
Definition stop_removed_instances (ids : list string) : Op HolochainError () :=
  op_each (λ id, _ ← op_attempt (stop_instance id); mret ()) ids.

Definition uninstall_dna (id : string) : Op HolochainError () :=
  config ← op_get c_config;
  let new_config := set_dnas config (filter (λ dna, dna_id dna ≠ id) (dnas config)) in
  let ids := instance_id <$> filter (λ instance, instance_dna instance = id) (instances new_config) in
  _ ← commit_config (fold_left save_remove_instance ids new_config);
  stop_removed_instances ids.

(** ** Instances *)

Definition storage_option (storage : option string) (storage_path : string) :
    Result HolochainError StorageConfiguration :=
  match storage with
  | None => Ok (StorageConfiguration_Lmdb storage_path None)
  | Some s =>
      if String.eqb s "memory" then Ok StorageConfiguration_Memory
      else if String.eqb s "file" then Ok (StorageConfiguration_File storage_path)
      else if String.eqb s "pickle" then Ok (StorageConfiguration_Pickle storage_path)
      else if String.eqb s "lmdb" then Ok (StorageConfiguration_Lmdb storage_path None)
      else Err (HolochainError_ConfigError ("Invalid storage option: " +:+ s))
  end.

(** Here the configuration is taken over before the instance is created, and
    saved after. *)
Definition add_instance (id dna agent : string) (storage : option string) : Op HolochainError () :=
  config ← op_get c_config;
  dir ← op_get instance_storage_dir_path;
  let storage_path := dir +:+ "/" +:+ id in
  _ ← op_lift (create_dir_all storage_path);
  storage_config ← op_lift (storage_option storage storage_path);
  let new_instance_config := {| instance_id := id; instance_dna := dna; instance_agent := agent;
                                instance_storage := storage_config |} in
  let new_config := set_instances config (instances config ++ [new_instance_config])%list in
  _ ← op_convert error_of_string (config_check new_config);
  _ ← op_modify (λ c, set_c_config c new_config);
  instance ← op_convert error_of_string (instantiate_from_config id);
  _ ← op_modify (insert_instance id instance);
  _ ← save_config;
  start_signal_multiplexer.

(** Taking an instance out of the map and killing it; who else refers to its
    cell sees it killed. *)
Definition drop_instance (id : string) (c : Conductor) : Conductor :=
  match c_instances c !! id with
  | None => c
  | Some ptr => set_c_heap (set_c_instances c (delete id (c_instances c))) (alter kill ptr (c_heap c))
  end.

Definition remove_instance (id : string) : Op HolochainError () :=
  config ← op_get c_config;
  _ ← commit_config (save_remove_instance config id);
  _ ← op_attempt (stop_instance id);
  _ ← op_modify (drop_instance id);
  start_signal_multiplexer.

(** ** Interfaces *)

Definition add_interface (interface : InterfaceConfiguration) : Op HolochainError () :=
  config ← op_get c_config;
  _ ← op_lift (ensure (bool_decide (interface_id interface ∉ (interface_id <$> interfaces config)))
        (HolochainError_ErrorGeneric ("Interface with ID '" +:+ interface_id interface +:+
           "' already exists")));
  _ ← commit_config (set_interfaces config (interfaces config ++ [interface])%list);
  _ ← op_convert error_of_string (start_interface_by_id (interface_id interface));
  start_signal_multiplexer.

Definition remove_interface (id : string) : Op HolochainError () :=
  config ← op_get c_config;
  _ ← op_lift (ensure (bool_decide (id ∈ (interface_id <$> interfaces config)))
        (HolochainError_ErrorGeneric ("No such interface: '" +:+ id +:+ "'")));
  _ ← commit_config (set_interfaces config
        (filter (λ interface, interface_id interface ≠ id) (interfaces config)));
  _ ← op_attempt (stop_interface_by_id id);
  start_signal_multiplexer.

(** Restarting an interface makes a change of its instances visible. *)
Definition restart_interface (id : string) : Op HolochainError () :=
  _ ← op_attempt (stop_interface_by_id id);
  _ ← op_convert error_of_string (start_interface_by_id id);
  start_signal_multiplexer.

Definition update_interface (id : string)
    (f : list InstanceReferenceConfiguration → list InstanceReferenceConfiguration)
    (config : Configuration) : Configuration :=
  set_interfaces config
    ((λ interface, if decide (interface_id interface = id)
                   then set_interface_instances interface (f (interface_instances interface))
                   else interface) <$> interfaces config).

Definition add_instance_to_interface (interface instance : string) (alias : option string) :
    Op HolochainError () :=
  config ← op_get c_config;
  interface_config ← op_lift (ok_or (HolochainError_ErrorGeneric ("Interface with ID " +:+ interface
                       +:+ " not found")) (interface_by_id config interface));
  _ ← op_lift (ensure (bool_decide (instance ∉ (ref_id <$> interface_instances interface_config)))
        (HolochainError_ErrorGeneric ("Instance '" +:+ instance +:+ "' already in interface '" +:+
           interface +:+ "'")));
  _ ← commit_config (update_interface interface
        (λ l, l ++ [{| ref_id := instance; ref_alias := alias |}])%list config);
  restart_interface interface.

Definition remove_instance_from_interface (interface instance : string) : Op HolochainError () :=
  config ← op_get c_config;
  interface_config ← op_lift (ok_or (HolochainError_ErrorGeneric ("Interface with ID " +:+ interface
                       +:+ " not found")) (interface_by_id config interface));
  _ ← op_lift (ensure (bool_decide (instance ∈ (ref_id <$> interface_instances interface_config)))
        (HolochainError_ErrorGeneric ("No Instance '" +:+ instance +:+ "' in interface '" +:+
           interface +:+ "'")));
  _ ← commit_config (update_interface interface (filter (λ r, ref_id r ≠ instance)) config);
  restart_interface interface.

(** ** Agents *)

(** The keystore of a new agent: made by the DPKI instance if there is one. *)
Definition new_agent_keystore (id : string) : Op HolochainError (Keystore * string) :=
  config ← op_get c_config;
  match dpki config with
  | Some d =>
      keystore ← op_lift keystore_new;
      '(_, hc) ← op_convert (λ _, none_error) (get_instance (dpki_instance d));
      _ ← op_lift (dpki_create_agent_key hc id);
      dpki_config ← op_lift (ok_or none_error (instance_by_id config (dpki_instance d)));
      dpki_keystore ← op_convert error_of_string
                        (get_keystore_for_agent (instance_agent dpki_config));
      keybundle ← op_lift (get_keybundle dpki_keystore id);
      keystore ← op_lift (add_primary_keybundle keystore keybundle);
      mret (keystore, keybundle)
  | None => op_lift keystore_new_standalone
  end.

Definition add_agent (id name : string) (holo_remote_key : option string) :
    Op HolochainError string :=
  config ← op_get c_config;
  _ ← op_lift (ensure (bool_decide (id ∉ (agent_id <$> agents config)))
        (HolochainError_ErrorGeneric ("Agent with ID '" +:+ id +:+ "' already exists")));
  '(keystore_file, public_address) ←
    match holo_remote_key with
    | Some public_address => mret ("::ignored::", public_address)
    | None =>
        '(keystore, public_address) ← new_agent_keystore id;
        dir ← op_get instance_storage_dir_path;
        let keystore_file := dir +:+ "/" +:+ public_address in
        _ ← op_lift (create_dir_all dir);
        _ ← op_lift (keystore_save keystore keystore_file);
        _ ← op_modify (add_agent_keystore id keystore);
        mret (keystore_file, public_address)
    end;
  let new_agent := {| agent_id := id; agent_config_name := name;
                      agent_public_address := public_address; agent_keystore_file := keystore_file;
                      agent_holo_remote_key := (λ _, true) <$> holo_remote_key;
                      agent_test_agent := None |} in
  _ ← commit_config (set_agents config (agents config ++ [new_agent])%list);
  mret public_address.

(** Unlike [add_agent], the keystore is kept after the configuration is taken
    over and before it is saved. *)
Definition add_test_agent (id name : string) : Op HolochainError string :=
  config ← op_get c_config;
  _ ← op_lift (ensure (bool_decide (id ∉ (agent_id <$> agents config)))
        (HolochainError_ErrorGeneric ("Agent with ID '" +:+ id +:+ "' already exists")));
  let keystore := test_keystore name in
  public_address ← op_unwrap (result_ok (primary_keybundle keystore));
  let new_agent := {| agent_id := id; agent_config_name := name;
                      agent_public_address := public_address; agent_keystore_file := name;
                      agent_holo_remote_key := None; agent_test_agent := Some true |} in
  let new_config := set_agents config (agents config ++ [new_agent])%list in
  _ ← op_convert error_of_string (config_check new_config);
  _ ← op_modify (λ c, set_c_config c new_config);
  _ ← op_modify (add_agent_keystore id keystore);
  _ ← save_config;
  mret public_address.

Definition remove_agent (id : string) : Op HolochainError () :=
  config ← op_get c_config;
  _ ← op_lift (ensure (bool_decide (id ∈ (agent_id <$> agents config)))
        (HolochainError_ErrorGeneric ("Agent with ID '" +:+ id +:+ "' does not exist")));
  let new_config := set_agents config (filter (λ agent, agent_id agent ≠ id) (agents config)) in
  let ids := instance_id <$> filter (λ instance, instance_agent instance = id) (instances new_config) in
  _ ← commit_config (fold_left save_remove_instance ids new_config);
  stop_removed_instances ids.

(** ** Bridges *)

Definition connects (caller callee : string) (b : BridgeConfiguration) : Prop :=
  caller_id b = caller ∧ callee_id b = callee.

#[global] Instance connects_dec caller callee b : Decision (connects caller callee b).
Proof. unfold connects. apply _. Defined.

Definition add_bridge (new_bridge : BridgeConfiguration) : Op HolochainError () :=
  config ← op_get c_config;
  _ ← op_lift (ensure (bool_decide (Forall (λ b, ¬ connects (caller_id new_bridge) (callee_id new_bridge) b)
                                      (bridges config)))
        (HolochainError_ErrorGeneric ("Bridge from instance '" +:+ caller_id new_bridge +:+
           "' to instance '" +:+ callee_id new_bridge +:+ "' already exists")));
  _ ← commit_config (set_bridges config (bridges config ++ [new_bridge])%list);
  new_conductor_api ← build_conductor_api (caller_id new_bridge);
  '(ptr, instance) ← op_convert (λ _, none_error) (get_instance (caller_id new_bridge));
  instance ← op_lift (map_err error_of_instance (set_conductor_api instance new_conductor_api));
  op_modify (write_instance ptr instance).

Definition remove_bridge (caller callee : string) : Op HolochainError () :=
  config ← op_get c_config;
  _ ← op_lift (ensure (bool_decide (Exists (connects caller callee) (bridges config)))
        (HolochainError_ErrorGeneric ("Bridge from instance '" +:+ caller +:+ "' to instance '" +:+
           callee +:+ "' does not exist")));
  commit_config (set_bridges config (filter (λ b, ¬ connects caller callee b) (bridges config))).

(** ** User interfaces *)

Definition install_ui_bundle_from_file (path id : string) (copy : bool) : Op HolochainError () :=
  config ← op_get c_config;
  path ←
    (if copy then
       let dest := persistence_dir config +:+ "/static/" +:+ id in
       _ ← op_lift (map_err (λ e, HolochainError_ErrorGeneric ("Error copying DNA from " +:+ path
             +:+ " to " +:+ dest +:+ ": " +:+ HolochainError_fmt e)) (copy_ui_dir path dest));
       mret dest
     else mret path);
  let new_bundle := {| bundle_id := id; bundle_root_dir := path; bundle_hash := None |} in
  commit_config (set_ui_bundles config (ui_bundles config ++ [new_bundle])%list).

Definition start_ui_interface (id : string) : Op HolochainInstanceError () :=
  servers ← op_get c_static_servers;
  server ← op_lift (ok_or InstanceError_NoSuchInstance
             ((servers : gmap string StaticServer) !! id));
  if valid_address (ui_bind_address (ss_config server)) (ui_port (ss_config server)) then
    op_modify (λ c, set_c_static_servers c
      (<[id := set_signal server true true]> (c_static_servers c)))
  else op_panic.

Definition stop_ui_interface (id : string) : Op HolochainInstanceError () := λ c,
  match c_static_servers c !! id with
  | None => Ret (Err InstanceError_NoSuchInstance, c)
  | Some server =>
      '(r, server) ← StaticServer_stop server;
      Ret (r, set_c_static_servers c (<[id := server]> (c_static_servers c)))
  end.

Definition add_ui_interface (new_interface : UiInterfaceConfiguration) : Op HolochainError () :=
  config ← op_get c_config;
  _ ← commit_config (set_ui_interfaces config (ui_interfaces config ++ [new_interface])%list);
  config ← op_get c_config;
  bundle ← op_unwrap (ui_bundle_by_id config (ui_bundle new_interface));
  op_modify (λ c, set_c_static_servers c
    (<[ui_interface_id new_interface := StaticServer_from_configs new_interface bundle None]>
       (c_static_servers c))).

Definition remove_ui_interface (id : string) : Op HolochainError () :=
  config ← op_get c_config;
  _ ← op_each (λ ui, _ ← op_attempt (stop_ui_interface (ui_interface_id ui)); mret ())
        (filter (λ ui, ui_interface_id ui = id) (ui_interfaces config));
  config ← op_get c_config;
  _ ← commit_config (set_ui_interfaces config
        (filter (λ ui, ui_interface_id ui ≠ id) (ui_interfaces config)));
  servers ← op_get c_static_servers;
  _ ← op_lift (ok_or (HolochainError_ErrorGeneric "Could not remove server")
        ((servers : gmap string StaticServer) !! id));
  op_modify (λ c, set_c_static_servers c (delete id (c_static_servers c))).

(** [new_config] is a copy made before the interfaces are removed. *)
Definition uninstall_ui_bundle (id : string) : Op HolochainError () :=
  config ← op_get c_config;
  let new_config := set_ui_bundles config (filter (λ bundle, bundle_id bundle ≠ id) (ui_bundles config)) in
  if decide (length (ui_bundles new_config) = length (ui_bundles config)) then
    op_fail (HolochainError_ConfigError ("No UI bundles match the given ID " +:+ quoted id))
  else
    _ ← op_each (λ ui, remove_ui_interface (ui_interface_id ui))
          (filter (λ ui, ui_bundle ui = id) (ui_interfaces new_config));
    commit_config new_config.

(** ** All operations *)

Inductive AdminCall : Type :=
| AdminCall_install_dna_from_file (path id : string) (copy : bool) (expected_hash : option string)
    (properties : option JsonString) (uuid : option string)
| AdminCall_uninstall_dna (id : string)
| AdminCall_add_instance (id dna agent : string) (storage : option string)
| AdminCall_remove_instance (id : string)
| AdminCall_start_instance (id : string)
| AdminCall_stop_instance (id : string)
| AdminCall_add_interface (interface : InterfaceConfiguration)
| AdminCall_remove_interface (id : string)
| AdminCall_add_instance_to_interface (interface instance : string) (alias : option string)
| AdminCall_remove_instance_from_interface (interface instance : string)
| AdminCall_add_agent (id name : string) (holo_remote_key : option string)
| AdminCall_add_test_agent (id name : string)
| AdminCall_remove_agent (id : string)
| AdminCall_add_bridge (b : BridgeConfiguration)
| AdminCall_remove_bridge (caller callee : string)
| AdminCall_install_ui_bundle_from_file (path id : string) (copy : bool)
| AdminCall_uninstall_ui_bundle (id : string)
| AdminCall_add_ui_interface (ui : UiInterfaceConfiguration)
| AdminCall_remove_ui_interface (id : string)
| AdminCall_start_ui_interface (id : string)
| AdminCall_stop_ui_interface (id : string).

(** The value the operations that return one give back, as text. *)
Definition run_admin (call : AdminCall) : Op HolochainError (option string) :=
  let unit (m : Op HolochainError ()) : Op HolochainError (option string) := _ ← m; mret None in
  let text (m : Op HolochainError string) : Op HolochainError (option string) := x ← m; mret (Some x) in
  match call with
  | AdminCall_install_dna_from_file path id copy expected_hash properties uuid =>
      text (install_dna_from_file path id copy expected_hash properties uuid)
  | AdminCall_uninstall_dna id => unit (uninstall_dna id)
  | AdminCall_add_instance id dna agent storage => unit (add_instance id dna agent storage)
  | AdminCall_remove_instance id => unit (remove_instance id)
  | AdminCall_start_instance id => unit (op_convert error_of_instance (start_instance id))
  | AdminCall_stop_instance id => unit (op_convert error_of_instance (stop_instance id))
  | AdminCall_add_interface interface => unit (add_interface interface)
  | AdminCall_remove_interface id => unit (remove_interface id)
  | AdminCall_add_instance_to_interface interface instance alias =>
      unit (add_instance_to_interface interface instance alias)
  | AdminCall_remove_instance_from_interface interface instance =>
      unit (remove_instance_from_interface interface instance)
  | AdminCall_add_agent id name holo_remote_key => text (add_agent id name holo_remote_key)
  | AdminCall_add_test_agent id name => text (add_test_agent id name)
  | AdminCall_remove_agent id => unit (remove_agent id)
  | AdminCall_add_bridge b => unit (add_bridge b)
  | AdminCall_remove_bridge caller callee => unit (remove_bridge caller callee)
  | AdminCall_install_ui_bundle_from_file path id copy =>
      unit (install_ui_bundle_from_file path id copy)
  | AdminCall_uninstall_ui_bundle id => unit (uninstall_ui_bundle id)
  | AdminCall_add_ui_interface ui => unit (add_ui_interface ui)
  | AdminCall_remove_ui_interface id => unit (remove_ui_interface id)
  | AdminCall_start_ui_interface id => unit (op_convert error_of_instance (start_ui_interface id))
  | AdminCall_stop_ui_interface id => unit (op_convert error_of_instance (stop_ui_interface id))
  end.

(** A call that returned, whatever it returned. *)
Inductive admin_step (c : Conductor) : Conductor → Prop :=
| AdminStep call r c' : run_admin call c = Ret (r, c') → admin_step c c'.

(** ** Consistency of the configuration *)

(** A file in the directory of DNAs holds the DNA it is named after. *)
Definition content_addressed (dir : string) (files : gmap string Dna) : Prop :=
  ∀ d d', files !! dna_path dir (Dna_address d) = Some d' → d' = d.

Definition config_inv (dir : string)
    (part : Configuration * option Configuration * gmap string Dna) : Prop :=
  let '(config, saved, files) := part in
  persistence_dir config = dir ∧ consistent (load_dna files) config ∧
  (∀ s, saved = Some s → consistent (load_dna files) s) ∧
  content_addressed (dir +:+ "/dna") files.

(** The conductor's configuration and the saved one are consistent. *)
Definition conductor_inv (dir : string) (c : Conductor) : Prop := config_inv dir (config_part c).

Section preservation.
Context `{!ToposortLaws} (dir : string) (address_inj : ∀ d d', Dna_address d = Dna_address d' → d = d').

Lemma inv_save c : conductor_inv dir c → conductor_inv dir (set_c_saved c (Some (c_config c))).
Proof. destruct c. intros (? & ? & ? & ?). split_and!; try done. by intros ? [= <-]. Qed.

Lemma inv_address c id key : conductor_inv dir c →
  conductor_inv dir (set_c_config c (update_agent_address_by_id (c_config c) id key)).
Proof.
  destruct c as [? ? ? ? ? cfg]. intros (? & ? & ? & ?).
  split_and!; try done; [by destruct cfg|by apply consistent_update_agent].
Qed.

Lemma inv_hash c id hash : conductor_inv dir c →
  conductor_inv dir (set_c_config c (update_dna_hash_by_id (c_config c) id hash).1).
Proof.
  destruct c as [? ? ? ? ? cfg]. intros (? & ? & ? & ?).
  split_and!; try done; [by destruct cfg|by apply consistent_update_dna_hash].
Qed.

Lemma inv_keys c keys : conductor_inv dir c → conductor_inv dir (set_c_agent_keys c keys).
Proof. by destruct c. Qed.

Lemma inv_receivers c rs : conductor_inv dir c → conductor_inv dir (set_c_signal_receivers c rs).
Proof. by destruct c. Qed.
Hint Resolve inv_save inv_address inv_hash inv_keys inv_receivers : keeps.

Lemma keeps_check_and_set {E} new_config (k : () → Op HolochainError E) :
  persistence_dir new_config = dir → (∀ x, keeps (conductor_inv dir) (k x)) →
  keeps (conductor_inv dir)
    (_ ← op_convert error_of_string (config_check new_config);
     x ← op_modify (λ c, set_c_config c new_config); k x).
Proof.
  intros Hdir Hk c r c' (Hd & Hc & Hs & Hf) Hr.
  unfold config_check in Hr. unfold_ops in Hr.
  destruct (check_consistency_total (load_dna (c_dna_files c)) new_config) as (r' & Hr' & Hok).
  rewrite Hr' in Hr. destruct r' as [[]|e]; simplify_eq/=; [|done].
  eapply Hk; [|exact Hr]. destruct c. unfold conductor_inv, config_part. cbn in *. tauto.
Qed.

Lemma keeps_commit_config new_config :
  persistence_dir new_config = dir → keeps (conductor_inv dir) (commit_config new_config).
Proof.
  intros Hdir. unfold commit_config. apply keeps_check_and_set; [done|]. intros _.
  apply keeps_save_config; eauto with keeps.
Qed.

Lemma dna_path_inj d a b : dna_path d a = dna_path d b → a = b.
Proof.
  unfold dna_path. intros Hab%(inj (String.append d))%(inj (String.append "/")).
  by apply append_inj_r in Hab.
Qed.

(** Saving a DNA adds a file or overwrites it with what it holds. *)
Lemma inv_save_dna c dna : conductor_inv dir c →
  conductor_inv dir (set_c_dna_files c
    (<[dna_path (dir +:+ "/dna") (Dna_address dna) := dna]> (c_dna_files c))).
Proof.
  intros (Hd & Hc & Hs & Hf).
  assert (Hmono : ∀ p d, load_dna (c_dna_files c) p = Ok d →
    load_dna (<[dna_path (dir +:+ "/dna") (Dna_address dna) := dna]> (c_dna_files c)) p = Ok d).
  { intros p d Hp. unfold load_dna in *. destruct (decide (p = dna_path (dir +:+ "/dna") (Dna_address dna))) as [->|].
    - rewrite lookup_insert_eq. destruct (c_dna_files c !! _) as [d'|] eqn:Hd'; [|done].
      apply Hf in Hd' as ->. done.
    - by rewrite lookup_insert_ne. }
  destruct c. unfold conductor_inv, config_part. cbn in *. split_and!; [done|..].
  - by eapply consistent_mono.
  - intros s Hsv. eapply consistent_mono; eauto.
  - intros d d'. destruct (decide (Dna_address d = Dna_address dna)) as [Heq|Hne].
    + rewrite Heq, lookup_insert_eq. intros [= <-]. by apply address_inj.
    + rewrite lookup_insert_ne by (by intros ?%dna_path_inj). apply Hf.
Qed.

Lemma keeps_save_dna dna : keeps (conductor_inv dir) (save_dna dna).
Proof.
  unfold save_dna. apply keeps_get_bind. intros c (Hd & _).
  assert (dna_dir_path c = dir +:+ "/dna") as -> by (unfold dna_dir_path; cbn in Hd; by rewrite Hd).
  solve_keeps. all: apply keeps_modify; intros; by apply inv_save_dna.
Qed.

Lemma keeps_unchanged {E} (f : Conductor → Conductor) :
  (∀ c, config_part (f c) = config_part c) → keeps (conductor_inv dir) (op_modify f : Op E ()).
Proof. apply (keeps_other (config_inv dir)). Qed.

Lemma keeps_drop_instance {E} id : keeps (conductor_inv dir) (op_modify (drop_instance id) : Op E ()).
Proof.
  apply keeps_unchanged. intros []. unfold drop_instance. cbn. by case_match.
Qed.

Lemma keeps_stop_ui_interface id : keeps (conductor_inv dir) (stop_ui_interface id).
Proof.
  intros c r c' Hc Hr. unfold stop_ui_interface in Hr.
  destruct (c_static_servers c !! id) as [s|]; [|by simplify_eq].
  destruct (StaticServer_stop s) as [[r1 s1]| |]; simplify_eq/=. by destruct c.
Qed.

Lemma persistence_dir_save_remove ids cfg :
  persistence_dir (fold_left save_remove_instance ids cfg) = persistence_dir cfg.
Proof.
  revert cfg. induction ids as [|id ids IH]; intros cfg; [done|]. cbn. rewrite IH. by destruct cfg.
Qed.

Lemma keeps_instances id : keeps (conductor_inv dir) (instantiate_from_config id).
Proof. apply keeps_instantiate; eauto with keeps. Qed.

Lemma keeps_api id : keeps (conductor_inv dir) (build_conductor_api id).
Proof. apply keeps_build_conductor_api; auto with keeps. Qed.

Lemma keeps_keystore id : keeps (conductor_inv dir) (get_keystore_for_agent id).
Proof. apply keeps_get_keystore; auto with keeps. Qed.

Lemma keeps_instance id : keeps (conductor_inv dir) (get_instance id).
Proof. by apply (keeps_get_instance (config_inv dir)). Qed.

Lemma keeps_start id : keeps (conductor_inv dir) (start_instance id).
Proof. by apply (keeps_start_instance (config_inv dir)). Qed.

Lemma keeps_stop id : keeps (conductor_inv dir) (stop_instance id).
Proof. by apply (keeps_stop_instance (config_inv dir)). Qed.

Lemma keeps_start_interface id : keeps (conductor_inv dir) (start_interface_by_id id).
Proof. by apply (keeps_start_interface_by_id (config_inv dir)). Qed.

Lemma keeps_stop_interface id : keeps (conductor_inv dir) (stop_interface_by_id id).
Proof. by apply (keeps_stop_interface_by_id (config_inv dir)). Qed.

Lemma keeps_multiplexer {E} : keeps (conductor_inv dir) (start_signal_multiplexer : Op E ()).
Proof. apply (keeps_start_signal_multiplexer (config_inv dir)). Qed.

Lemma keeps_save : keeps (conductor_inv dir) save_config.
Proof. apply keeps_save_config; eauto with keeps. Qed.

Lemma inv_dir c : conductor_inv dir c → persistence_dir (c_config c) = dir.
Proof. by intros []. Qed.
Hint Resolve keeps_instances keeps_api keeps_keystore keeps_instance keeps_start keeps_stop
  keeps_start_interface keeps_stop_interface keeps_multiplexer keeps_save keeps_save_dna
  keeps_drop_instance keeps_stop_ui_interface : keeps.

(** The change of one list of the configuration. *)
Ltac solve_dir :=
  repeat match goal with H : conductor_inv dir ?c |- _ => apply inv_dir in H end;
  rewrite ?persistence_dir_save_remove;
  match goal with |- context [c_config ?c] => by destruct (c_config c) end.

Ltac solve_admin :=
  repeat first
    [ apply keeps_commit_config; solve_dir
    | apply keeps_check_and_set; [solve_dir|intros ?]
    | apply keeps_unchanged; by intros []
    | keeps_step; cbn beta iota zeta ].

Lemma keeps_remove_ui_interface id : keeps (conductor_inv dir) (remove_ui_interface id).
Proof. unfold remove_ui_interface. solve_admin. Qed.
Hint Resolve keeps_remove_ui_interface : keeps.

Lemma keeps_run_admin call : keeps (conductor_inv dir) (run_admin call).
Proof.
  destruct call; cbn [run_admin].
  - unfold install_dna_from_file, prepare_dna. solve_admin.
  - unfold uninstall_dna, stop_removed_instances. solve_admin.
  - unfold add_instance. solve_admin.
  - unfold remove_instance. solve_admin.
  - solve_admin.
  - solve_admin.
  - unfold add_interface. solve_admin.
  - unfold remove_interface. solve_admin.
  - unfold add_instance_to_interface, restart_interface, update_interface. solve_admin.
  - unfold remove_instance_from_interface, restart_interface, update_interface. solve_admin.
  - unfold add_agent, new_agent_keystore. solve_admin.
  - unfold add_test_agent. solve_admin.
  - unfold remove_agent, stop_removed_instances. solve_admin.
  - unfold add_bridge. solve_admin.
  - unfold remove_bridge. solve_admin.
  - unfold install_ui_bundle_from_file. solve_admin.
  - unfold uninstall_ui_bundle. solve_admin.
  - unfold add_ui_interface. solve_admin.
  - solve_admin.
  - unfold start_ui_interface. solve_admin.
  - solve_admin.
Qed.

(** Along every sequence of admin calls, successful or not, the conductor's
    configuration and the one in its configuration file stay consistent.  Calls
    that panic end the sequence.  (DNAs have different addresses.) *)
Theorem admin_keeps_consistency c c' :
  conductor_inv dir c → rtc admin_step c c' → conductor_inv dir c'.
Proof.
  intros Hc Hstep. induction Hstep as [c|c c1 c2 [call r c1' Hr] _ IH]; [done|].
  apply IH. by eapply keeps_run_admin.
Qed.
End preservation.

(** ** Calls that fail *)

(** The configuration in use and the saved one. *)
Definition configs (c : Conductor) : Configuration * option Configuration := (c_config c, c_saved c).

(** An operation that changes neither; one that does not when it fails; one that
    does not fail. *)
Definition quiet {E A} (m : Op E A) : Prop := ∀ c0, keeps (λ c, configs c = configs c0) m.
Definition clean {E A} (m : Op E A) : Prop :=
  ∀ c e c', m c = Ret (Err e, c') → configs c' = configs c.
Definition sure {E A} (m : Op E A) : Prop := ∀ c e c', m c ≠ Ret (Err e, c').

Lemma quiet_clean {E A} (m : Op E A) : quiet m → clean m.
Proof. intros Hm c e c' Hr. by eapply (Hm c c). Qed.

Lemma clean_bind_quiet {E A B} (m : Op E A) (k : A → Op E B) :
  quiet m → (∀ x, clean (k x)) → clean (m ≫= k).
Proof.
  intros Hm Hk c e c' Hr. unfold mbind, Op_bind in Hr.
  destruct (m c) as [[[x|e1] c1]| |] eqn:Hm1; simplify_eq.
  - rewrite (Hk _ _ _ _ Hr). by eapply (Hm c c).
  - by eapply (Hm c c).
Qed.

Lemma clean_bind_sure {E A B} (m : Op E A) (k : A → Op E B) :
  clean m → (∀ x, sure (k x)) → clean (m ≫= k).
Proof.
  intros Hm Hk c e c' Hr. unfold mbind, Op_bind in Hr.
  destruct (m c) as [[[x|e1] c1]| |] eqn:Hm1; simplify_eq; [by apply Hk in Hr|by eapply Hm].
Qed.

Lemma sure_ret {E A} (x : A) : sure (mret x : Op E A).
Proof. done. Qed.
Lemma sure_modify {E} f : sure (op_modify f : Op E ()).
Proof. done. Qed.
Lemma sure_get {E A} (f : Conductor → A) : sure (op_get f : Op E A).
Proof. done. Qed.
Lemma sure_unwrap {E A} (o : option A) : sure (op_unwrap o : Op E A).
Proof. by destruct o. Qed.
Lemma sure_attempt {E F A} (m : Op E A) : sure (op_attempt m : Op F _).
Proof. intros c e c' Hr. unfold op_attempt in Hr. by destruct (m c) as [[]| |]. Qed.
Lemma sure_bind {E A B} (m : Op E A) (k : A → Op E B) : sure m → (∀ x, sure (k x)) → sure (m ≫= k).
Proof.
  intros Hm Hk c e c' Hr. unfold mbind, Op_bind in Hr.
  destruct (m c) as [[[x|e1] c1]| |] eqn:Hm1; simplify_eq; [by apply Hk in Hr|by apply Hm in Hm1].
Qed.
Lemma sure_each {E A} (f : A → Op E ()) l : (∀ x, sure (f x)) → sure (op_each f l).
Proof. intros Hf. induction l; [apply sure_ret|]. cbn. by apply sure_bind. Qed.

Ltac solve_sure :=
  repeat match goal with
  | |- sure (_ ≫= _) => apply sure_bind; [|intros ?]
  | |- sure (op_each _ _) => apply sure_each; intros ?
  | |- sure (op_attempt _) => apply sure_attempt
  | |- sure (op_unwrap _) => apply sure_unwrap
  | |- sure (match ?x with _ => _ end) => destruct x
  | |- sure _ => done
  end.

(** Proves that an operation changes no configuration. *)
Ltac solve_quiet :=
  intros c0; solve_keeps;
  try (apply keeps_modify; by intros []).

Section failing.
Context (write_ok : ∀ cfg, write_config cfg = Ok ()).

Lemma clean_check_and_set {A} new_config (k : () → Op HolochainError A) :
  (∀ x, sure (k x)) →
  clean (_ ← op_convert error_of_string (config_check new_config);
         x ← op_modify (λ c, set_c_config c new_config); k x).
Proof.
  intros Hk. apply clean_bind_sure; [|intros _; by apply sure_bind].
  apply quiet_clean. unfold config_check. solve_quiet.
Qed.

Lemma sure_save : sure save_config.
Proof. intros c e c' Hr. unfold save_config in Hr. unfold_ops in Hr. by rewrite write_ok in Hr. Qed.

Lemma clean_commit new_config : clean (commit_config new_config).
Proof. apply clean_check_and_set. intros _. apply sure_save. Qed.

Lemma clean_unit (m : Op HolochainError ()) : clean m → clean (_ ← m; mret None : Op _ (option string)).
Proof. intros Hm. by apply clean_bind_sure. Qed.

Lemma clean_text (m : Op HolochainError string) : clean m → clean (x ← m; mret (Some x) : Op _ (option string)).
Proof. intros Hm. by apply clean_bind_sure. Qed.

Lemma quiet_keystore id : quiet (get_keystore_for_agent id).
Proof. intros c0. apply keeps_get_keystore. intros [] keys Hc. exact Hc. Qed.

Lemma quiet_get_instance id : quiet (get_instance id).
Proof. intros c0 c r c' Hc [-> _]%get_instance_ok. done. Qed.

Lemma quiet_start_instance id : quiet (start_instance id).
Proof.
  intros c0. apply (keeps_start_instance (λ part, (part.1.1, part.1.2) = configs c0)).
Qed.

Lemma quiet_stop_instance id : quiet (stop_instance id).
Proof.
  intros c0. apply (keeps_stop_instance (λ part, (part.1.1, part.1.2) = configs c0)).
Qed.

Lemma quiet_stop_ui_interface id : quiet (stop_ui_interface id).
Proof.
  intros c0 c r c' Hc Hr. unfold stop_ui_interface in Hr.
  destruct (c_static_servers c !! id) as [s|]; [|by injection Hr as _ <-].
  destruct (StaticServer_stop s) as [[r1 s1]| |]; [|done|done].
  injection Hr as _ <-. by destruct c.
Qed.

(** The calls whose last step that can fail is taking over the configuration. *)
Definition atomic (call : AdminCall) : bool :=
  match call with
  | AdminCall_add_instance _ _ _ _ | AdminCall_add_interface _
  | AdminCall_add_instance_to_interface _ _ _ | AdminCall_remove_instance_from_interface _ _
  | AdminCall_add_bridge _ | AdminCall_uninstall_ui_bundle _ | AdminCall_remove_ui_interface _ => false
  | _ => true
  end.

Hint Extern 1 (keeps _ (get_keystore_for_agent _)) => apply quiet_keystore : keeps.
Hint Extern 1 (keeps _ (get_instance _)) => apply quiet_get_instance : keeps.

Ltac solve_clean :=
  repeat match goal with
  | |- clean (commit_config _ ≫= _) => apply clean_bind_sure; [apply clean_commit|intros ?; solve_sure]
  | |- clean (commit_config _) => apply clean_commit
  | |- clean (op_convert _ (config_check _) ≫= _) => apply clean_check_and_set; intros ?
  | |- clean (_ ≫= _) => apply clean_bind_quiet; [solve_quiet|intros ?; cbn beta iota zeta]
  | |- clean (match ?x with _ => _ end) => destruct x
  | |- clean (mret _) => done
  end.

(** C33: If one of the calls that only change the configuration and then stop
    things fails, and the configuration file can be written, then neither the
    configuration in use nor the saved one has changed. *)
Theorem failed_calls_change_nothing call c e c' : atomic call = true →
  run_admin call c = Ret (Err e, c') → c_config c' = c_config c ∧ c_saved c' = c_saved c.
Proof.
  intros Hat Hr. enough (Hc : clean (run_admin call)) by (by apply Hc in Hr as [= -> ->]).
  destruct call; try done; cbn [run_admin]; first [apply clean_unit|apply clean_text]; clear Hat Hr.
  - unfold install_dna_from_file, prepare_dna, save_dna. solve_clean.
  - unfold uninstall_dna, stop_removed_instances. solve_clean.
  - unfold remove_instance. solve_clean.
  - apply quiet_clean. intros c0. apply keeps_convert, quiet_start_instance.
  - apply quiet_clean. intros c0. apply keeps_convert, quiet_stop_instance.
  - unfold remove_interface. solve_clean.
  - unfold add_agent, new_agent_keystore. solve_clean.
  - unfold add_test_agent. solve_clean. solve_sure. apply sure_save.
  - unfold remove_agent, stop_removed_instances. solve_clean.
  - unfold remove_bridge. solve_clean.
  - unfold install_ui_bundle_from_file. solve_clean.
  - unfold add_ui_interface. solve_clean.
  - apply quiet_clean. unfold start_ui_interface. solve_quiet.
  - apply quiet_clean. intros c0. apply keeps_convert, quiet_stop_ui_interface.
Qed.
End failing.

(** ** Calls that do not do what they are for *)

(** A UI bundle that a UI interface serves cannot be uninstalled: the call
    fails whenever it returns.  It checks a copy of the configuration made before
    the interfaces were removed, in which they still refer to the bundle. *)
Theorem served_bundle_cannot_be_uninstalled `{!ToposortLaws} id ui c :
  ui ∈ ui_interfaces (c_config c) → ui_bundle ui = id →
  ∀ c', uninstall_ui_bundle id c ≠ Ret (Ok (), c').
Proof.
  intros Hui Hb c' Hr. unfold uninstall_ui_bundle in Hr.
  apply bind_ret_ok in Hr as (? & ? & [= <- <-] & Hr). cbn zeta in Hr. case_decide; [done|].
  apply bind_ret_ok in Hr as (u & c1 & _ & Hr).
  unfold commit_config in Hr. apply bind_ret_ok in Hr as (u1 & c2 & Hck%convert_ret_ok & _).
  unfold config_check in Hck. unfold_ops in Hck.
  destruct (check_consistency _ _) as [r| |] eqn:Hc; simplify_eq. destruct u1.
  apply check_consistency_ok in Hc as [Hwf _].
  destruct (ui_interfaces_fit _ _ Hwf ui) as [Hin _]; [by destruct (c_config c)|].
  destruct (c_config c); cbn in Hin. apply list_elem_of_fmap in Hin as (b & Heq & [Hne _]%list_elem_of_filter).
  congruence.
Qed.

(** Once an instance has been stopped and is still in the conductor's map, no
    instance can be added any more: every call asks all instances for their
    network endpoints, and panics on the stopped one if it gets there. *)
Theorem no_instance_added_after_stop stopped id dna agent storage c c1 :
  stop_instance stopped c = Ret (Ok (), c1) → c_p2p_config c = true →
  ∀ c', add_instance id dna agent storage c1 ≠ Ret (Ok (), c').
Proof.
  intros (ptr & hc & hc1 & Hi & Hh & Hstop & ->)%stop_instance_ok Hp c' Hr.
  assert (Hdown : hc_network hc1 = false).
  { by apply bind_ok in Hstop as ([] & _ & ([] & _ & [= <-])%bind_ok). }
  unfold add_instance in Hr. apply bind_ret_ok in Hr as (? & ? & [= <- <-] & Hr).
  apply bind_ret_ok in Hr as (? & ? & [= <- <-] & Hr). cbn zeta in Hr.
  apply bind_ret_ok in Hr as (u & ? & [= _ <-] & Hr).
  apply bind_ret_ok in Hr as (st & ? & [= _ <-] & Hr).
  apply bind_ret_ok in Hr as (u1 & c2 & Hck%convert_ret_ok & Hr).
  assert (c2 = write_instance ptr hc1 c) as ->.
  { apply (keeps_use (λ c2, c2 = write_instance ptr hc1 c) _ _ _ _ Hck eq_refl).
    unfold config_check. solve_keeps. }
  apply bind_ret_ok in Hr as (u2 & c3 & Hset & Hr).
  apply bind_ret_ok in Hr as (hc' & c4 & Hinst%convert_ret_ok & _).
  injection Hset as _ <-.
  eapply (instantiate_needs_networks _ _ _ _ stopped ptr) in Hinst; destruct c; cbn in *; [|done..].
  unfold network_is_up in Hinst. rewrite lookup_insert_eq, Hdown in Hinst.
  by rewrite andb_false_r in Hinst.
Qed.
End admin.

(** ** Examples *)

#[local] Existing Instance kahn.
#[local] Existing Instance toy_dna_addressing.
#[local] Existing Instance toy_conductor_env.

Definition toy_admin_env : AdminEnv := {|
  create_dir_all _ := Ok ();
  write_dna_file _ := Ok ();
  json_merge _ patch := patch;
  copy_ui_dir _ _ := Ok ();
  keystore_new_standalone := Ok ("key2", "key2");
  keystore_new := Ok "";
  keystore_save _ _ := Ok ();
  get_keybundle keystore _ := Ok keystore;
  add_primary_keybundle _ key := Ok key;
  dpki_create_agent_key _ _ := Ok ();
  valid_address _ _ := true;
|}.
#[local] Existing Instance toy_admin_env.

(** The stopped instance makes the next addition panic, also after its DNA was
    uninstalled. *)
Theorem adding_after_stop_panics :
  add_instance "n" "callee" "alice" (Some "memory") stopped = Panic ∧
  result_of (uninstall_dna "callee") running = Some (Ok ()) ∧
  add_instance "n" "other" "alice" (Some "memory")
    (after (install_dna_from_file "callee.dna.json" "other" false None None None)
       (after (uninstall_dna "callee") running)) = Panic.
Proof. vm_compute. split_and!; reflexivity. Qed.

Lemma no_instance_added_after_stop_witness :
  c_p2p_config running = true ∧
  ∀ c', add_instance "n" "callee" "alice" (Some "memory") stopped ≠ Ret (Ok (), c').
Proof.
  split; [reflexivity|].
  apply (no_instance_added_after_stop "b" "n" "callee" "alice" (Some "memory") running stopped).
  - vm_compute. reflexivity.
  - reflexivity.
Defined.

Definition served_config : Configuration :=
  set_ui_interfaces (set_ui_bundles (example_config [] [])
    [{| bundle_id := "ui"; bundle_root_dir := "/ui"; bundle_hash := None |}])
    [{| ui_interface_id := "web"; ui_bundle := "ui"; ui_port := 80; ui_dna_interface := None;
        ui_reroute_to_root := true; ui_bind_address := "127.0.0.1" |}].

Definition serving : Conductor := after boot_from_config (example_conductor served_config).

Lemma served_bundle_cannot_be_uninstalled_witness :
  ui_interfaces served_config ≠ [] ∧
  ∀ c', uninstall_ui_bundle "ui" (example_conductor served_config) ≠ Ret (Ok (), c').
Proof.
  split; [discriminate|].
  apply (served_bundle_cannot_be_uninstalled "ui"
    {| ui_interface_id := "web"; ui_bundle := "ui"; ui_port := 80; ui_dna_interface := None;
       ui_reroute_to_root := true; ui_bind_address := "127.0.0.1" |}).
  - by left.
  - reflexivity.
Defined.

(** The failing call has removed the interface all the same; and a static server
    that was stopped makes the removal of its interface panic. *)
Theorem uninstalling_served_bundle_removes_interface :
  ui_interfaces (c_config serving) ≠ [] ∧
  ui_interfaces (c_config (after (uninstall_ui_bundle "ui") serving)) = [] ∧
  remove_ui_interface "web" (after (_ ← start_ui_interface "web"; stop_ui_interface "web") serving) = Panic.
Proof. vm_compute. split_and!; [discriminate|reflexivity..]. Qed.

(** A call that fails because there is no such agent. *)
Lemma failed_calls_change_nothing_witness :
  result_of (run_admin (AdminCall_remove_agent "bob")) running =
    Some (Err (HolochainError_ErrorGeneric "Agent with ID 'bob' does not exist")) ∧
  c_config (after (run_admin (AdminCall_remove_agent "bob")) running) = c_config running ∧
  c_saved (after (run_admin (AdminCall_remove_agent "bob")) running) = c_saved running.
Proof.
  split; [vm_compute; reflexivity|].
  apply (failed_calls_change_nothing (λ cfg, eq_refl : @write_config toy_conductor_env cfg = Ok ()) (AdminCall_remove_agent "bob") running
    (HolochainError_ErrorGeneric "Agent with ID 'bob' does not exist")).
  - reflexivity.
  - vm_compute. reflexivity.
Defined.

(** Keystores of the full disk. *)
Definition full_disk_admin_env : @AdminEnv full_disk_env :=
  @Build_AdminEnv full_disk_env (λ _, Ok ()) (λ _, Ok ()) (λ _ patch, patch) (λ _ _, Ok ())
    (Ok ("key2", "key2")) (Ok "") (λ _ _, Ok ()) (λ keystore _, Ok keystore) (λ _ key, Ok key)
    (λ _ _, Ok ()) (λ _ _, true).

(** An instance whose storage cannot be opened: the call fails, but the instance
    stays in the configuration in use. *)
Theorem failed_addition_stays_configured :
  let c := @example_conductor full_disk_env (example_config [] []) in
  let add := @add_instance kahn toy_dna_addressing full_disk_env full_disk_admin_env
               "n" "callee" "alice" (Some "file") in
  result_of add c = Some (Err (HolochainError_ErrorGeneric "Error creating context: no space left")) ∧
  instance_ids (c_config (after add c)) = ["n"] ∧ c_saved (after add c) = None.
Proof. vm_compute. split_and!; reflexivity. Qed.

(** Agents can be added to a conductor whose DNAs have different addresses. *)
Lemma example_inv :
  @conductor_inv dna_code toy_conductor_env "/hc" (example_conductor pair_config).
Proof.
  split_and!; [done| |done|].
  - apply (@consistent_mono dna_code example_loader).
    + intros p d. unfold example_loader, load_dna. cbn.
      destruct (example_files !! p) as [d'|] eqn:Hp; [|done]. intros [= <-]. cbn.
      enough (Dna_verify d' = Ok ()) as -> by done.
      unfold example_files in Hp. apply lookup_insert_Some in Hp as [[_ <-]|[_ Hp]]; [done|].
      by apply lookup_singleton_Some in Hp as [_ <-].
    + apply (@check_consistency_ok kahn dna_code kahn_laws). vm_compute. reflexivity.
  - intros d d' Hd. cbn in Hd. unfold example_files in Hd. exfalso.
    apply lookup_insert_Some in Hd as [[Heq _]|[_ Hd]]; [discriminate Heq|].
    apply lookup_singleton_Some in Hd as [Heq _]. discriminate Heq.
Qed.

Lemma admin_keeps_consistency_witness :
  @conductor_inv dna_code toy_conductor_env "/hc"
    (after (@run_admin kahn dna_code toy_conductor_env toy_admin_env (AdminCall_add_agent "bob" "bob" None))
       (example_conductor pair_config)).
Proof.
  apply (@admin_keeps_consistency kahn dna_code toy_conductor_env toy_admin_env kahn_laws "/hc"
           dna_code_inj (example_conductor pair_config)).
  - exact example_inv.
  - apply rtc_once. apply (AdminStep _ (AdminCall_add_agent "bob" "bob" None) (Ok (Some "key2"))).
    vm_compute. reflexivity.
Defined.
