(* ===== verification/Rpc.v ===== *)
(** * Remote calls to the conductor

    Models the methods [src/crates/conductor_lib/src/interface.rs] registers: the
    parameters of the calls that administer the conductor, their dispatch, the
    lists they return, and the method that calls zome functions
    ([method_call], with [make_cap_request_for_call] of
    [src/crates/core/src/nucleus/actions/call_zome_function.rs]).

    A JSON value is an inductive type; its text is the variable [json_text].
    Signing goes through the conductor API and is the variable [sign].

    The theorems: which parameters make which call, in particular for port
    numbers; calls that are refused do not touch the conductor, and all others
    keep its configuration consistent; and with which authority the zome calls of
    an interface's clients run. *)

From S2P Require Import Prelude Errors WasmMemory CoreTypes Dna Storage Action Instances ContentStore Agent.
From S2P Require Import Nucleus ZomeCalls Config Conductor ConductorBoot ConductorAdmin.

Local Open Scope string_scope.

(** ** Values and parameters *)

Inductive Value : Type :=
| Value_Null
| Value_Bool (b : bool)
| Value_Integer (z : Z)
| Value_Float (text : string)
| Value_String (s : string)
| Value_Array (l : list Value)
| Value_Object (l : list (string * Value)).

Inductive Params : Type :=
| Params_None
| Params_Array (l : list Value)
| Params_Map (m : gmap string Value).

(** [jsonrpc_core::Error], by its code. *)
Inductive RpcError : Type :=
| RpcError_InvalidParams (message : string)
| RpcError_InternalError (message : string)
| RpcError_ServerError (code : Z) (message : string)
| RpcError_MethodNotFound.

Definition backticked (s : string) : string := "`" +:+ s +:+ "`".

Definition unwrap_params_map (params : Params) : Result RpcError (gmap string Value) :=
  match params with
  | Params_Map map => Ok map
  | _ => Err (RpcError_InvalidParams "expected params map")
  end.

Definition get_param (key : string) (params_map : gmap string Value) : Result RpcError Value :=
  ok_or (RpcError_InvalidParams (backticked key +:+ " param not provided")) (params_map !! key).

Definition as_str (v : Value) : option string :=
  match v with Value_String s => Some s | _ => None end.

(** An integer that is not in the range of [i64] is no [i64] either. *)
Definition as_i64 (v : Value) : option Z :=
  match v with
  | Value_Integer z => if bool_decide (-2 ^ 63 ≤ z < 2 ^ 63)%Z then Some z else None
  | _ => None
  end.

Definition get_as_string (key : string) (params_map : gmap string Value) : Result RpcError string :=
  v ← get_param key params_map;
  ok_or (RpcError_InvalidParams (backticked key +:+ " is not a valid json string")) (as_str v).

Definition get_as_bool (key : string) (params_map : gmap string Value) : Result RpcError bool :=
  v ← get_param key params_map;
  match v with
  | Value_Bool b => Ok b
  | _ => Err (RpcError_InvalidParams (backticked key +:+ " has to be a boolean"))
  end.

Definition get_as_int (key : string) (params_map : gmap string Value) : Result RpcError Z :=
  v ← get_param key params_map;
  ok_or (RpcError_InvalidParams (backticked key +:+ " has to be an integer")) (as_i64 v).

(** [u16::try_from(get_as_int("port", ..)?)]. *)
Definition get_port (params_map : gmap string Value) : Result RpcError Z :=
  port ← get_as_int "port" params_map;
  if bool_decide (0 ≤ port < 2 ^ 16)%Z then Ok port
  else Err (RpcError_InvalidParams "`port` has to be a 16bit integer").

Section rpc.
Variable json_text : Value → string.

(** ** The calls that administer the conductor *)

Definition parse_install_dna (m : gmap string Value) : Result RpcError AdminCall :=
  id ← get_as_string "id" m;
  path ← get_as_string "path" m;
  let copy := default false (result_ok (get_as_bool "copy" m)) in
  expected_hash ←
    match m !! "expected_hash" with
    | None => Ok None
    | Some value =>
        match as_str value with
        | Some s => Ok (Some s)
        | None => Err (RpcError_InvalidParams (backticked (json_text value) +:+
                         " is not a valid json string"))
        end
    end;
  let properties := json_text <$> m !! "properties" in
  let uuid := m !! "uuid" ≫= as_str in
  Ok (AdminCall_install_dna_from_file path id copy expected_hash properties uuid).

Definition parse_add_instance (m : gmap string Value) : Result RpcError AdminCall :=
  id ← get_as_string "id" m;
  dna ← get_as_string "dna_id" m;
  agent ← get_as_string "agent_id" m;
  Ok (AdminCall_add_instance id dna agent (result_ok (get_as_string "storage" m))).

Definition parse_add_interface (m : gmap string Value) : Result RpcError AdminCall :=
  id ← get_as_string "id" m;
  admin ← get_as_bool "admin" m;
  driver_type ← get_as_string "type" m;
  port ← get_port m;
  driver ←
    (if String.eqb driver_type "websocket" then Ok (InterfaceDriver_Websocket port)
     else if String.eqb driver_type "http" then Ok (InterfaceDriver_Http port)
     else Err (RpcError_InvalidParams "`type` has to be either `websocket` or `http`"));
  Ok (AdminCall_add_interface
        {| interface_id := id; interface_driver := driver; interface_admin := admin;
           interface_instances := []; interface_choose_free_port := None |}).

Definition parse_add_agent (m : gmap string Value) : Result RpcError AdminCall :=
  id ← get_as_string "id" m;
  name ← get_as_string "name" m;
  holo_remote_key ←
    match m !! "holo_remote_key" with
    | None => Ok None
    | Some k =>
        match as_str k with
        | Some s => Ok (Some s)
        | None => Err (RpcError_InvalidParams "holo_remote_key must be a string")
        end
    end;
  Ok (AdminCall_add_agent id name holo_remote_key).

Definition parse_add_ui_interface (m : gmap string Value) : Result RpcError AdminCall :=
  id ← get_as_string "id" m;
  port ← get_port m;
  bundle ← get_as_string "bundle" m;
  Ok (AdminCall_add_ui_interface
        {| ui_interface_id := id; ui_bundle := bundle; ui_port := port;
           ui_dna_interface := result_ok (get_as_string "dna_interface" m);
           ui_reroute_to_root := true; ui_bind_address := "127.0.0.1" |}).

(** Calls with one and two textual parameters. *)
Definition parse_1 (a : string) (f : string → AdminCall) (m : gmap string Value) :
    Result RpcError AdminCall :=
  x ← get_as_string a m; Ok (f x).
Definition parse_2 (a b : string) (f : string → string → AdminCall) (m : gmap string Value) :
    Result RpcError AdminCall :=
  x ← get_as_string a m; y ← get_as_string b m; Ok (f x y).
Definition parse_3 (a b c : string) (f : string → string → string → AdminCall) (m : gmap string Value) :
    Result RpcError AdminCall :=
  x ← get_as_string a m; y ← get_as_string b m; z ← get_as_string c m; Ok (f x y z).

(** The methods that change the conductor, with their parameters. *)
Definition admin_parsers : list (string * (gmap string Value → Result RpcError AdminCall)) :=
  [("admin/dna/install_from_file", parse_install_dna);
   ("admin/dna/uninstall", parse_1 "id" AdminCall_uninstall_dna);
   ("admin/instance/add", parse_add_instance);
   ("admin/instance/remove", parse_1 "id" AdminCall_remove_instance);
   ("admin/instance/start", parse_1 "id" AdminCall_start_instance);
   ("admin/instance/stop", parse_1 "id" AdminCall_stop_instance);
   ("admin/interface/add", parse_add_interface);
   ("admin/interface/remove", parse_1 "id" AdminCall_remove_interface);
   ("admin/interface/add_instance", λ m,
      parse_2 "interface_id" "instance_id" (λ interface instance,
        AdminCall_add_instance_to_interface interface instance (result_ok (get_as_string "alias" m))) m);
   ("admin/interface/remove_instance",
      parse_2 "interface_id" "instance_id" AdminCall_remove_instance_from_interface);
   ("admin/agent/add", parse_add_agent);
   ("admin/agent/remove", parse_1 "id" AdminCall_remove_agent);
   ("admin/bridge/add", parse_3 "caller_id" "callee_id" "handle" (λ caller callee handle,
      AdminCall_add_bridge {| caller_id := caller; callee_id := callee; bridge_handle := handle |}));
   ("admin/bridge/remove", parse_2 "caller_id" "callee_id" AdminCall_remove_bridge);
   ("admin/ui/install", parse_2 "root_dir" "id" (λ root_dir id,
      AdminCall_install_ui_bundle_from_file root_dir id false));
   ("admin/ui/uninstall", parse_1 "id" AdminCall_uninstall_ui_bundle);
   ("admin/ui_interface/add", parse_add_ui_interface);
   ("admin/ui_interface/remove", parse_1 "id" AdminCall_remove_ui_interface);
   ("admin/ui_interface/start", parse_1 "id" AdminCall_start_ui_interface);
   ("admin/ui_interface/stop", parse_1 "id" AdminCall_stop_ui_interface);
   ("test/agent/add", parse_2 "id" "name" AdminCall_add_test_agent)].

(** What the calls answer. *)
Definition admin_response (call : AdminCall) (result : option string) : Value :=
  match call, result with
  | AdminCall_install_dna_from_file _ _ _ _ _ _, Some dna_hash =>
      Value_Object [("success", Value_Bool true); ("dna_hash", Value_String dna_hash)]
  | AdminCall_add_test_agent _ _, Some agent_address =>
      Value_Object [("agent_address", Value_String agent_address)]
  | _, _ => Value_Object [("success", Value_Bool true)]
  end.

Definition info_of_instance (instance : InstanceConfiguration) : Value :=
  Value_Object [("id", Value_String (instance_id instance));
                ("dna", Value_String (instance_dna instance));
                ("agent", Value_String (instance_agent instance))].

Section conductor.
Context `{Toposort, DnaAddressing, AdminEnv}.

(** The derived serializers of the configuration. *)
Variable interface_json : InterfaceConfiguration → Value.
Variable agent_json : AgentConfiguration → Value.
Variable bridge_json : BridgeConfiguration → Value.
Variable ui_bundle_json : UiBundleConfiguration → Value.
Variable ui_interface_json : UiInterfaceConfiguration → Value.

(** [conductor_call!]: the conductor is in a static place, which may be empty.
    The errors of the conductor and those of instances are printed alike. *)
Definition conductor_call (call : AdminCall) (mounted : option Conductor) :
    Outcome (Result RpcError Value * option Conductor) :=
  match mounted with
  | None =>
      Ret (Err (RpcError_InternalError
             "Admin conductor function called without a conductor mounted as singleton!"), None)
  | Some c =>
      '(r, c) ← run_admin call c;
      Ret (match r with
           | Ok result => Ok (admin_response call result)
           | Err e => Err (RpcError_InternalError (HolochainError_fmt e))
           end, Some c)
  end.

(** A request to a method that changes the conductor; [None] for other methods. *)
Definition handle_admin (method : string) (params : Params) (mounted : option Conductor) :
    option (Outcome (Result RpcError Value * option Conductor)) :=
  parser ← btree_get admin_parsers method;
  Some match m ← unwrap_params_map params; parser m with
       | Ok call => conductor_call call mounted
       | Err e => Ret (Err e, mounted)
       end.

(** The methods that list parts of the configuration, and
    [admin/instance/running]. *)
Definition config_query (method : string) (config : Configuration) : option Value :=
  if String.eqb method "admin/dna/list" then
    Some (Value_Array ((λ dna, Value_Object
      [("id", Value_String (dna_id dna)); ("hash", Value_String (dna_hash dna))]) <$> dnas config))
  else if String.eqb method "admin/instance/list" then
    Some (Value_Array (info_of_instance <$> instances config))
  else if String.eqb method "admin/interface/list" then
    Some (Value_Array (interface_json <$> interfaces config))
  else if String.eqb method "admin/agent/list" then
    Some (Value_Array (agent_json <$> agents config))
  else if String.eqb method "admin/bridge/list" then
    Some (Value_Array (bridge_json <$> bridges config))
  else if String.eqb method "admin/ui/list" then
    Some (Value_Array (ui_bundle_json <$> ui_bundles config))
  else if String.eqb method "admin/ui_interface/list" then
    Some (Value_Array (ui_interface_json <$> ui_interfaces config))
  else None.

Definition running_instances (c : Conductor) : list string :=
  omap (λ '(id, ptr), match c_heap c !! ptr with
                      | Some hc => if hc_active hc then Some id else None
                      | None => None
                      end) (map_to_list (c_instances c)).

Definition list_running_instances (c : Conductor) : Value :=
  Value_Array (info_of_instance <$>
    filter (λ instance, instance_id instance ∈ running_instances c) (instances (c_config c))).

End conductor.

(** ** Calling zome functions *)


Section calls.
Context `{Storage} `{Addressing} `{ConductorEnv}.

(** Base64, the checks of signatures, the keys of key bundles (which may fail),
    remote services, the text of JSON-RPC errors, and the provenance a JSON value
    stands for. *)
Variable base64_encode : string → string.
Variable base64_decode : string → option string.
Variable decode_pub_key : string → Result HolochainError string.
Variable sodium_verify : string → string → string → bool.
Variable keybundle_run : CryptoMethod → string → string → option string.
Variable request_service : AgentId → string → string → Result HolochainError string.
Variable error_text : RpcError → string.
Variable provenance_of_value : Value → option Provenance.

Definition utf8_string (s : string) : bool :=
  utf8_valid ((λ a, Z.of_N (Ascii.N_of_ascii a)) <$> String.list_ascii_of_string s).

Definition get_as_crypto_string (key : string) (params_map : gmap string Value) :
    Result RpcError string :=
  payload_string ← get_as_string key params_map;
  match base64_decode payload_string with
  | Some s =>
      if utf8_string s then Ok s
      else Err (RpcError_InvalidParams (backticked key +:+ " param is invalid utf8"))
  | None => Err (RpcError_InvalidParams (backticked key +:+ " param is invalid base64"))
  end.

(** The callbacks [agent/sign], [agent/encrypt] and [agent/decrypt] over a key
    bundle; the first two panic if the keys cannot be used. *)
Definition keybundle_callback (method : CryptoMethod) (key : string) (m : gmap string Value) :
    Outcome (Result RpcError string) :=
  match get_as_crypto_string "payload" m with
  | Err e => Ret (Err e)
  | Ok payload =>
      match method with
      | CryptoMethod_Sign | CryptoMethod_Encrypt =>
          result ← unwrap (keybundle_run method key payload);
          Ret (Ok (base64_encode result))
      | CryptoMethod_Decrypt =>
          Ret (decoded ← ok_or (RpcError_InternalError "Internal error") (base64_decode payload);
               decrypted ← ok_or (RpcError_InternalError "Internal error")
                             (keybundle_run method key decoded);
               if utf8_string decrypted then Ok decrypted
               else Err (RpcError_InternalError "Internal error"))
      end
  end.

(** The callbacks over a remote service, which gets the payload as it came. *)
Definition service_callback (method : CryptoMethod) (agent : AgentId) (uri : string)
    (m : gmap string Value) : Result RpcError string :=
  payload ← get_as_string "payload" m;
  map_err (λ e, RpcError_ServerError 1
    (match method with
     | CryptoMethod_Sign => "Signing"
     | CryptoMethod_Encrypt => "Encryption"
     | CryptoMethod_Decrypt => "Decryption"
     end +:+ " service error: " +:+ HolochainError_fmt e)) (request_service agent payload uri).

(** [send_json_rpc]; only these two kinds of callbacks are registered under
    [agent/]. *)
Definition send_json_rpc (handle : ConductorApi) (payload : string) (method : CryptoMethod) :
    Outcome (Result HolochainError string) :=
  let name :=
    match method with
    | CryptoMethod_Sign => "agent/sign"
    | CryptoMethod_Encrypt => "agent/encrypt"
    | CryptoMethod_Decrypt => "agent/decrypt"
    end in
  let params := {[ "payload" := Value_String payload ]} in
  response ←
    match api_methods handle !! name with
    | Some (Method_Keybundle key) => keybundle_callback method key params
    | Some (Method_Service agent uri) => Ret (service_callback method agent uri params)
    | _ => Ret (Err RpcError_MethodNotFound)
    end;
  Ret (map_err (λ e, match e with
                     | RpcError_ServerError 1 message => HolochainError_CryptoServiceError message
                     | _ => HolochainError_ErrorGeneric (error_text e)
                     end) response).

Definition execute (self : ConductorApi) (payload : string) (method : CryptoMethod) :
    Outcome (Result HolochainError string) :=
  send_json_rpc self (base64_encode payload) method.

(** The agent's signature, or a bad one if the signing service fails. *)
Definition make_call_sig (api : ConductorApi) (function : string) (parameters : JsonString) :
    Outcome string :=
  maybe_sig ← execute api (encode_call_data_for_signing base64_encode function parameters)
                CryptoMethod_Sign;
  Ret match maybe_sig with
      | Ok sig => sig
      | Err _ => "badsig"
      end.

Definition make_cap_request_for_call (callers_context : Holochain) (token : Address)
    (function : string) (parameters : JsonString) : Outcome CapabilityRequest :=
  sig ← make_call_sig (hc_api callers_context) function parameters;
  Ret {| cap_token := token;
         cap_provenance := {| source := pub_sign_key (hc_agent callers_context);
                              signature := sig |} |}.

(** What an instance's context gives access to: its state, if there is one, and
    the content store of its chain. *)
Record InstanceView : Type := {
  view_state : option (NucleusState * AgentState);
  view_cas : Cas;
}.
Variable view : N → InstanceView.
Variable fuel : nat.

(** The text of the arguments: [null] is replaced by an empty object, and missing
    arguments are printed as the [Option] they are. *)
Definition args_string (m : gmap string Value) : JsonString :=
  match m !! "args" with
  | None => "null"
  | Some Value_Null => json_text (Value_Object [])
  | Some v => json_text v
  end.

(** The instance a call is for.  A handler has the instances by their public
    identifiers, which are their names, so the code's two lookups are one; and
    handles refer to cells that exist. *)
Definition call_instance (api : ConductorApi) (c : Conductor) (public_id : string) :
    Result RpcError (N * Holochain) :=
  id ← ok_or (RpcError_InvalidParams "instance identifier invalid: ") (api_instances api !! public_id);
  hc ← ok_or (RpcError_InvalidParams "unknown instance") (c_heap c !! id);
  _ ← map_err (λ e, RpcError_InvalidParams (HolochainInstanceError_fmt e)) (check_instance hc);
  _ ← map_err (λ e, RpcError_InvalidParams (HolochainInstanceError_fmt e)) (check_active hc);
  Ok (id, hc).

(** The capability a call is made with: without a token it is the public one, and
    without a provenance the instance's agent signs. *)
Definition call_token (m : gmap string Value) (id : N) : Outcome (Result RpcError Address) :=
  match get_as_string "token" m with
  | Ok token => Ret (Ok token)
  | Err _ =>
      token ← get_public_token (snd <$> view_state (view id)) (view_cas (view id)) fuel;
      Ret (map_err (λ err, RpcError_InvalidParams ("Public token not found: " +:+
             HolochainError_fmt err)) token)
  end.

Definition call_request (m : gmap string Value) (hc : Holochain) (token : Address)
    (func_name : string) (args : JsonString) : Outcome (Result RpcError CapabilityRequest) :=
  match m !! "provenance" with
  | None => Ok <$> make_cap_request_for_call hc token func_name args
  | Some json_provenance =>
      Ret (provenance ← ok_or (RpcError_InvalidParams "invalid provenance: ")
                          (provenance_of_value json_provenance);
           Ok {| cap_token := token; cap_provenance := provenance |})
  end.

(** [method_call] up to the point where the function is queued: the checked call,
    with the DNA's name and the code that will run.  [call_number] is the fresh
    identifier of the call. *)
Definition method_call (api : ConductorApi) (c : Conductor) (params : Params)
    (call_number : ProcessUniqueId) :
    Outcome (Result RpcError (ZomeFnCall * (string * list Z))) :=
  match
    (m ← unwrap_params_map params;
     instance_id ← get_as_string "instance_id" m;
     zome ← get_as_string "zome" m;
     func_name ← get_as_string "function" m;
     '(id, hc) ← call_instance api c instance_id;
     Ok (m, zome, func_name, id, hc))
  with
  | Err e => Ret (Err e)
  | Ok (m, zome, func_name, id, hc) =>
      let args := args_string m in
      token ← call_token m id;
      match token with
      | Err e => Ret (Err e)
      | Ok token =>
          request ← call_request m hc token func_name args;
          match request with
          | Err e => Ret (Err e)
          | Ok request =>
              let call := {| call_id := call_number; zome_name := zome; cap := request;
                             call_fn_name := func_name; call_parameters := args |} in
              checked ← validate_call base64_encode base64_decode decode_pub_key sodium_verify
                          (hc_agent hc) (view_state (view id)) (view_cas (view id)) fuel call;
              Ret match checked with
                  | Ok code => Ok (call, code)
                  | Err e => Err (RpcError_InvalidParams
                               (HolochainInstanceError_fmt (InstanceError_InternalFailure e)))
                  end
          end
      end
  end.
End calls.
End rpc.

(** ** Parameters *)

Section parameters.
Variable json_text : Value → string.
Implicit Types m : gmap string Value.

Lemma get_as_string_ok key m s : get_as_string key m = Ok s ↔ m !! key = Some (Value_String s).
Proof.
  unfold get_as_string, get_param. destruct (m !! key) as [v|]; cbn; [|done].
  destruct v; cbn; split; intros [= ->] || intros ?; simplify_eq; done.
Qed.

Lemma get_as_bool_ok key m b : get_as_bool key m = Ok b ↔ m !! key = Some (Value_Bool b).
Proof.
  unfold get_as_bool, get_param. destruct (m !! key) as [v|]; cbn; [|done].
  destruct v; cbn; split; intros [= ->] || intros ?; simplify_eq; done.
Qed.

Lemma get_port_ok m port :
  get_port m = Ok port ↔ m !! "port" = Some (Value_Integer port) ∧ (0 ≤ port < 2 ^ 16)%Z.
Proof.
  unfold get_port, get_as_int, get_param. destruct (m !! "port") as [v|]; cbn; [|naive_solver].
  destruct v as [| |z| | | |]; cbn; try (split; [done|intros [[=] _]]).
  case_bool_decide; cbn; [case_bool_decide; cbn|]; (split; [intros [= <-]|intros [[= ->] ?]]);
    try done; try lia; naive_solver lia.
Qed.

(** A request adds an interface exactly if it names the interface, says whether
    it is an admin interface, gives one of the two drivers, and a port that fits
    in 16 bits; there is then exactly one interface it asks for, with no
    instances. *)
Theorem add_interface_request m call :
  parse_add_interface m = Ok call ↔
  ∃ id admin driver_type port driver,
    m !! "id" = Some (Value_String id) ∧ m !! "admin" = Some (Value_Bool admin) ∧
    m !! "type" = Some (Value_String driver_type) ∧
    m !! "port" = Some (Value_Integer port) ∧ (0 ≤ port < 2 ^ 16)%Z ∧
    (driver_type = "websocket" ∧ driver = InterfaceDriver_Websocket port ∨
     driver_type = "http" ∧ driver = InterfaceDriver_Http port) ∧
    call = AdminCall_add_interface
      {| interface_id := id; interface_driver := driver; interface_admin := admin;
         interface_instances := []; interface_choose_free_port := None |}.
Proof.
  unfold parse_add_interface. split.
  - intros Hc. apply bind_ok in Hc as (id & Hid & Hc). apply bind_ok in Hc as (admin & Had & Hc).
    apply bind_ok in Hc as (ty & Hty & Hc). apply bind_ok in Hc as (port & Hport & Hc).
    apply bind_ok in Hc as (driver & Hd & Hc).
    apply get_as_string_ok in Hid, Hty. apply get_as_bool_ok in Had. apply get_port_ok in Hport as [Hp ?].
    injection Hc as <-. exists id, admin, ty, port, driver. split_and!; try done; try lia.
    destruct (String.eqb_spec ty "websocket"); [by simplify_eq; left|].
    destruct (String.eqb_spec ty "http"); [by simplify_eq; right|done].
  - intros (id & admin & ty & port & driver & Hid & Had & Hty & Hp & Hr & Hd & ->).
    rewrite (proj2 (get_as_string_ok _ _ _) Hid), (proj2 (get_as_bool_ok _ _ _) Had),
      (proj2 (get_as_string_ok _ _ _) Hty), (proj2 (get_port_ok _ _) (conj Hp Hr)).
    by destruct Hd as [[-> ->]|[-> ->]].
Qed.

(** Missing arguments are not treated like [null], which stands for no arguments. *)
Theorem missing_arguments m :
  args_string json_text (delete "args" m) = "null" ∧
  args_string json_text (<["args" := Value_Null]> m) = json_text (Value_Object []).
Proof. unfold args_string. by rewrite lookup_delete_eq, lookup_insert_eq. Qed.

(** ** Requests keep the conductor consistent *)

Section consistency.
Context `{Toposort, DnaAddressing, AdminEnv, !ToposortLaws} (dir : string).
Context (address_inj : ∀ d d', Dna_address d = Dna_address d' → d = d').

(** A request that was answered. *)
Inductive rpc_step (s : option Conductor) : option Conductor → Prop :=
| RpcStep method params r s' :
    handle_admin json_text method params s = Some (Ret (r, s')) → rpc_step s s'.

Lemma rpc_step_admin s s' : rpc_step s s' →
  s' = s ∨ ∃ c c', s = Some c ∧ s' = Some c' ∧ admin_step c c'.
Proof.
  intros [method params r s1 Hr]. unfold handle_admin in Hr.
  destruct (btree_get _ method) as [parser|]; cbn in Hr; [|done].
  destruct (m ← unwrap_params_map params; parser m) as [call|e]; [|left; congruence].
  destruct s as [c|]; cbn in Hr; [|left; congruence].
  destruct (run_admin call c) as [[r1 c1]| |] eqn:Hrun; simplify_eq/=.
  right. exists c, c1. split_and!; try done. by econstructor.
Qed.

(** C11: Whatever requests clients send, in whatever order and with whatever
    parameters, the configuration stays consistent and the conductor stays
    mounted, as long as the requests are answered.  (DNAs have different
    addresses.) *)
Theorem requests_keep_consistency c s :
  conductor_inv dir c → rtc rpc_step (Some c) s → ∃ c', s = Some c' ∧ conductor_inv dir c'.
Proof.
  intros Hc Hs. remember (Some c) as s0 eqn:Hs0. revert c Hc Hs0.
  induction Hs as [s|s s1 s2 Hstep _ IH]; intros c Hc ->; [by eauto|].
  destruct (rpc_step_admin _ _ Hstep) as [->|(c0 & c1 & [= <-] & -> & Hadm)]; [by eauto|].
  clear Hstep. destruct Hadm as [call r c1 Hr].
  eapply IH; [|done]. exact (keeps_run_admin dir address_inj call _ _ _ Hc Hr).
Qed.
End consistency.
End parameters.

(** ** The authority of calls through an interface *)

Section authority.
Context `{Storage} `{AddressingLaws} `{ConductorEnv}.
Variable json_text : Value → string.
Variable base64_encode : string → string.
Variable base64_decode : string → option string.
Variable decode_pub_key : string → Result HolochainError string.
Variable sodium_verify : string → string → string → bool.
Variable keybundle_run : CryptoMethod → string → string → option string.
Variable request_service : AgentId → string → string → Result HolochainError string.
Variable error_text : RpcError → string.
Variable provenance_of_value : Value → option Provenance.
Variable view : N → InstanceView.
Variable fuel : nat.

(** The agent of an instance signs with a key bundle: base64 is undone by its
    decoding and is plain text, and the signatures made with the bundle are valid
    under the agent's public key. *)
Record signs_locally (hc : Holochain) (key : string) : Prop := {
  signs_method : api_methods (hc_api hc) !! "agent/sign" = Some (Method_Keybundle key);
  signs_base64 s : base64_decode (base64_encode s) = Some s;
  signs_text s : utf8_string (base64_encode s) = true;
  signs_valid payload : ∃ sig pub_key,
    keybundle_run CryptoMethod_Sign key payload = Some sig ∧
    decode_pub_key (pub_sign_key (hc_agent hc)) = Ok pub_key ∧
    sodium_verify sig payload pub_key = true;
}.

#[local] Abbreviation make_cap_request := (make_cap_request_for_call base64_encode base64_decode
  keybundle_run request_service error_text).
#[local] Abbreviation signature_of := (call_signature base64_encode base64_decode decode_pub_key sodium_verify).
#[local] Abbreviation run_call := (method_call json_text base64_encode base64_decode decode_pub_key
  sodium_verify keybundle_run request_service error_text provenance_of_value view fuel).

(** A request the agent's key bundle signed passes the check of signatures. *)
Lemma signed_request hc key token function args :
  signs_locally hc key →
  ∃ request, make_cap_request hc token function args = Ret request ∧ cap_token request = token ∧
    source (cap_provenance request) = pub_sign_key (hc_agent hc) ∧
    ∀ n zome, signature_of {| call_id := n; zome_name := zome; cap := request;
                call_fn_name := function; call_parameters := args |} = Ok true.
Proof.
  intros [Hm Hb Ht Hv].
  destruct (Hv (encode_call_data_for_signing base64_encode function args)) as (sig & pk & Hs & Hp & Hok).
  unfold make_cap_request_for_call, make_call_sig, execute, send_json_rpc. rewrite Hm.
  unfold keybundle_callback, get_as_crypto_string, get_as_string, get_param.
  rewrite lookup_singleton_eq. cbn. rewrite Hb. unfold encode_call_data_for_signing in *.
  rewrite Ht. cbn. rewrite Hs. cbn. eexists. split_and!; [done..|]. intros n zome.
  unfold call_signature, verify, encode_call_data_for_signing. cbn. rewrite Hb, Hp. cbn.
  by rewrite Hok.
Qed.

(** The grants that [get_public_token] finds. *)
Lemma find_public_token_ok cas n cur l a :
  yields (ChainStoreTypeIterator_next cas) cur l →
  find_public_token cas n cur = Ret (Ok a) →
  ∃ h grant, h ∈ l ∧ entry_address h = a ∧
    get cas a = Ok (Some (Entry_CapTokenGrant grant)) ∧ is_public_grant grant = true.
Proof.
  intros Hy. revert n. induction Hy as [s s' Hn|s s' h l Hn Hy IH]; intros [|n]; cbn; try done;
    rewrite Hn; cbn; [done|].
  destruct (get cas (entry_address h)) as [[e|]|] eqn:Hg; try done.
  assert (Hrest : find_public_token cas n s' = Ret (Ok a) → ∃ h0 grant, h0 ∈ h :: l ∧
    entry_address h0 = a ∧ get cas a = Ok (Some (Entry_CapTokenGrant grant)) ∧ is_public_grant grant = true).
  { intros (h0 & grant & Hin & Hr)%IH. exists h0, grant. split; [by right|done]. }
  destruct e; try exact Hrest. destruct (is_public_grant grant) eqn:Hp; [|exact Hrest].
  intros [= <-]. exists h, grant. split_and!; [by left|done..].
Qed.

Lemma get_public_token_ok agent cas l a :
  chain cas l → agent_top_chain_header agent = head l → length l < fuel →
  get_public_token (Some agent) cas fuel = Ret (Ok a) →
  ∃ h grant, h ∈ l ∧ entry_address h = a ∧
    get cas a = Ok (Some (Entry_CapTokenGrant grant)) ∧ is_public_grant grant = true.
Proof.
  intros Hc Ht Hf Hr. unfold get_public_token in Hr. rewrite Ht in Hr.
  destruct l as [|top l]; cbn [head] in Hr; [done|].
  pose proof (iter_type_chain cas fuel EntryType_CapTokenGrant _ Hc Hf) as Hi. cbn [head] in Hi.
  rewrite Hi in Hr. cbn [mbind Outcome_bind] in Hr.
  eapply find_public_token_ok in Hr as (h & g & Hin & Hh); [|by apply chain_type_yields].
  exists h, g. split; [|done]. by apply list_elem_of_filter in Hin as [_ ?].
Qed.

(** A request that names a function of a running instance, whose chain is [l], and
    leaves the signing to the instance's agent. *)
Record names_call (api : ConductorApi) (c : Conductor) (m : gmap string Value)
    (zome function : string) (id : N) (hc : Holochain) (nucleus : NucleusState)
    (agent : AgentState) (l : list ChainHeader) : Prop := {
  names_zome : m !! "zome" = Some (Value_String zome);
  names_function : m !! "function" = Some (Value_String function);
  names_instance : ∃ instance, m !! "instance_id" = Some (Value_String instance) ∧
    call_instance api c instance = Ok (id, hc);
  names_unsigned : m !! "provenance" = None;
  names_state : view_state (view id) = Some (nucleus, agent);
  names_chain : chain (view_cas (view id)) l;
  names_top : agent_top_chain_header agent = head l;
  names_fuel : length l < fuel;
}.

(** What such a request leads to, once its token is known. *)
Lemma method_call_unsigned api c m zome function id hc nucleus agent l key token n :
  names_call api c m zome function id hc nucleus agent l → signs_locally hc key →
  call_token view fuel m id = Ret (Ok token) →
  ∃ call, zome_name call = zome ∧ call_fn_name call = function ∧ cap_token (cap call) = token ∧
    call_parameters call = args_string json_text m ∧
    source (cap_provenance (cap call)) = pub_sign_key (hc_agent hc) ∧
    (∀ name wasm, run_call api c (Params_Map m) n = Ret (Ok (call, (name, wasm))) ↔
       callable nucleus call name wasm ∧
       ((∃ grant, granted (view_cas (view id)) l call grant ∧ admits grant call) ∨
        token = pub_sign_key (hc_agent hc))) ∧
    (∃ r, run_call api c (Params_Map m) n = Ret r).
Proof.
  intros [Hz Hfn (instance & Hi & Hci) Hun Hst Hc Ht Hf] Hsign Htok.
  destruct (signed_request hc key token function (args_string json_text m) Hsign)
    as (request & Hreq & Hrt & Hsrc & Hsig).
  set (call := {| call_id := n; zome_name := zome; cap := request; call_fn_name := function;
                  call_parameters := args_string json_text m |}).
  exists call. split_and!; try done.
  all: unfold method_call; cbn [unwrap_params_map mbind Result_bind];
    rewrite (proj2 (get_as_string_ok _ _ _) Hi), (proj2 (get_as_string_ok _ _ _) Hz),
      (proj2 (get_as_string_ok _ _ _) Hfn); cbn [mbind Result_bind]; rewrite Hci;
    cbn [mbind Result_bind]; rewrite Htok; cbn [mbind Outcome_bind]; unfold call_request;
    rewrite Hun, Hreq; cbn [fmap Outcome_fmap mbind Outcome_bind]; fold call;
    rewrite Hst;
    destruct (validate_call_outcomes base64_encode base64_decode decode_pub_key sodium_verify
      (hc_agent hc) nucleus agent (view_cas (view id)) l fuel call Hc Ht Hf) as (Hok & Hp & Hnf);
    rewrite (Hsig n zome : signature_of call = Ok true) in Hok, Hp;
    destruct (validate_call _ _ _ _ _ _ _ _ call) as [r| |] eqn:Hv; cbn [mbind Outcome_bind].
  - intros name wasm. specialize (Hok name wasm). cbn in Hok. rewrite Hrt in Hok.
    assert (Heq : token = pub_sign_key (hc_agent hc) ↔ pub_sign_key (hc_agent hc) = token)
      by (split; congruence).
    rewrite Heq. clear -Hok. clearbody call. destruct r as [[nm w]|e]; (split; intros Hx; [|destruct Hx]).
    + injection Hx as <- <-. destruct (proj1 Hok eq_refl) as (? & _ & ?). done.
    + assert (Hr : Ret (Ok (nm, w)) = Ret (Ok (name, wasm)) :> Outcome (Result HolochainError _))
        by (apply Hok; done). congruence.
    + done.
    + assert (Hr : Ret (Err e) = Ret (Ok (name, wasm)) :> Outcome (Result HolochainError _))
        by (apply Hok; done). congruence.
  - exfalso. by destruct (proj1 Hp eq_refl) as (_ & ? & _).
  - done.
  - by eexists.
  - exfalso. by destruct (proj1 Hp eq_refl) as (_ & ? & _).
  - done.
Qed.

(** C12: The authority of a client that leaves the signing to the conductor.  Its
    call is always answered; it is made in the name of the instance's agent, and
    accepted exactly if the function exists and the token it presents is that of
    a grant that lists the function and is open to the agent, or is the agent's
    own public key, which so opens all functions to every client of the
    interface. *)
Theorem interface_call_authority api c m zome function id hc nucleus agent l key token n :
  names_call api c m zome function id hc nucleus agent l → signs_locally hc key →
  m !! "token" = Some (Value_String token) →
  ∃ call, zome_name call = zome ∧ call_fn_name call = function ∧ cap_token (cap call) = token ∧
    call_parameters call = args_string json_text m ∧
    source (cap_provenance (cap call)) = pub_sign_key (hc_agent hc) ∧
    (∀ name wasm, run_call api c (Params_Map m) n = Ret (Ok (call, (name, wasm))) ↔
       callable nucleus call name wasm ∧
       ((∃ grant, granted (view_cas (view id)) l call grant ∧ admits grant call) ∨
        token = pub_sign_key (hc_agent hc))) ∧
    (∃ r, run_call api c (Params_Map m) n = Ret r).
Proof.
  intros Hn Hs Ht. eapply method_call_unsigned; [done..|]. unfold call_token.
  by rewrite (proj2 (get_as_string_ok _ _ _) Ht).
Qed.

(** The authority of a client that presents neither a token nor a signature:
    the call uses the token of a public grant on the chain of the agent, and is
    accepted exactly if the function exists and that grant lists it.  (The token
    is the address of its grant, and no grant has the address of the agent.) *)
Theorem public_call_authority api c m zome function id hc nucleus agent l key token n :
  names_call api c m zome function id hc nucleus agent l → signs_locally hc key →
  m !! "token" = None →
  get_public_token (Some agent) (view_cas (view id)) fuel = Ret (Ok token) →
  token ≠ pub_sign_key (hc_agent hc) →
  ∃ grant call, is_public_grant grant = true ∧ (∃ h, h ∈ l ∧ entry_address h = token) ∧
    get (view_cas (view id)) token = Ok (Some (Entry_CapTokenGrant grant)) ∧
    zome_name call = zome ∧ call_fn_name call = function ∧ cap_token (cap call) = token ∧
    (CapTokenGrant_token grant = token →
     ∀ name wasm, run_call api c (Params_Map m) n = Ret (Ok (call, (name, wasm))) ↔
       callable nucleus call name wasm ∧
       ∃ fns, grant_functions grant !! zome = Some fns ∧ function ∈ fns).
Proof.
  intros Hn Hs Ht Hpub Hne. pose proof Hn as [_ _ _ _ Hst Hc Htop Hf].
  destruct (get_public_token_ok agent _ l token Hc Htop Hf Hpub) as (h & grant & Hin & Ha & Hg & Hp).
  destruct (method_call_unsigned api c m zome function id hc nucleus agent l key token n Hn Hs)
    as (call & Hz & Hfn & Htk & _ & _ & Hiff & _).
  { unfold call_token, get_as_string, get_param. rewrite Ht.
    cbn [ok_or mbind Result_bind]. rewrite Hst. change (snd <$> Some (nucleus, agent)) with (Some agent).
    by rewrite Hpub. }
  exists grant, call. split_and!; try done; [by exists h|]. intros Haddr name wasm.
  rewrite Hiff. apply and_iff_compat_l. unfold granted, admits. rewrite Htk, Hz, Hfn.
  split.
  - intros [(g & (_ & Hg' & Hfns & _) & _)|?]; [|done]. rewrite Hg in Hg'. by injection Hg' as <-.
  - intros Hfns. left. exists grant. split_and!; try done; [by exists h|].
    apply andb_prop in Hp as [Hty _]. apply bool_decide_eq_true in Hty.
    unfold CapTokenGrant_cap_type in Hty. by destruct (grant_assignees grant) as [[]|].
Qed.
End authority.

(** ** Examples *)

Section examples.
#[local] Existing Instance memory_storage.
#[local] Existing Instance toy_addressing.
#[local] Existing Instance toy_addressing_laws.
#[local] Existing Instance toy_conductor_env.

(** An encoding that is plain text: bytes as binary digits. *)
Definition bit_char (b : bool) : Ascii.ascii := Ascii.ascii_of_nat (if b then 49 else 48).
Definition char_bit (c : Ascii.ascii) : bool := Nat.eqb (Ascii.nat_of_ascii c) 49.

Fixpoint bits_encode (s : string) : string :=
  match s with
  | EmptyString => EmptyString
  | String (Ascii.Ascii a b c d e f g h) s =>
      String (bit_char a) (String (bit_char b) (String (bit_char c) (String (bit_char d)
        (String (bit_char e) (String (bit_char f) (String (bit_char g) (String (bit_char h)
          (bits_encode s))))))))
  end.

Fixpoint bits_decode (s : string) : option string :=
  match s with
  | EmptyString => Some EmptyString
  | String a (String b (String c (String d (String e (String f (String g (String h s))))))) =>
      String (Ascii.Ascii (char_bit a) (char_bit b) (char_bit c) (char_bit d) (char_bit e)
        (char_bit f) (char_bit g) (char_bit h)) <$> bits_decode s
  | _ => None
  end.

Lemma char_bit_char b : char_bit (bit_char b) = b.
Proof. by destruct b. Qed.

Lemma bits_decode_encode s : bits_decode (bits_encode s) = Some s.
Proof.
  induction s as [|[a b c d e f g h] s IH]; [done|]. cbn -[char_bit bit_char].
  by rewrite IH, !char_bit_char.
Qed.

Lemma utf8_bit b s : utf8_string (String (bit_char b) s) = utf8_string s.
Proof. by destruct b. Qed.

Lemma bits_encode_text s : utf8_string (bits_encode s) = true.
Proof.
  induction s as [|[a b c d e f g h] s IH]; [done|]. cbn [bits_encode]. by rewrite !utf8_bit.
Qed.

(** An instance of the example DNA that signs with a key bundle. *)
Definition example_hc : Holochain :=
  {| hc_set := true; hc_active := true; hc_network := true; hc_loop := true; hc_dna := Some ex_dna;
     hc_agent := {| nick := "alice"; pub_sign_key := "alice" |};
     hc_api := with_agent_signature_callback ConductorApiBuilder_new "key" |}.

Definition example_api : ConductorApi := with_named_instance ConductorApiBuilder_new "app" 0.

Definition with_example_hc : Conductor :=
  set_c_heap (example_conductor (example_config [] [])) {[ 0%N := example_hc ]}.

Definition example_request (token : option string) : gmap string Value :=
  list_to_map (("instance_id", Value_String "app") :: ("zome", Value_String "main") ::
    ("function", Value_String "greet") ::
    match token with Some t => [("token", Value_String t)] | None => [] end).

Lemma example_signs :
  signs_locally bits_encode bits_decode (λ k, Ok k) (λ _ _ _, true) (λ _ _ payload, Some payload)
    example_hc "key".
Proof.
  constructor; [reflexivity|apply bits_decode_encode|apply bits_encode_text|].
  intros payload. by exists payload, "alice".
Qed.

Definition example_view : N → InstanceView :=
  λ _, {| view_state := Some (ex_nucleus, AgentState_new "alice"); view_cas := empty_cas |}.

(** A client that knows the agent's public key calls a function nobody was
    granted. *)
Lemma interface_call_authority_witness :
  ∃ call, call_fn_name call = "greet" ∧
    method_call (λ _, "{}") bits_encode bits_decode (λ k, Ok k) (λ _ _ _, true)
      (λ _ _ payload, Some payload) (λ _ _ _, Err HolochainError_DnaMissing) (λ _, "") (λ _, None)
      example_view 1 example_api with_example_hc (Params_Map (example_request (Some "alice"))) 1 =
    Ret (Ok (call, ("app", [0%Z]))).
Proof.
  destruct (interface_call_authority (λ _, "{}") bits_encode bits_decode (λ k, Ok k) (λ _ _ _, true)
    (λ _ _ payload, Some payload) (λ _ _ _, Err HolochainError_DnaMissing) (λ _, "") (λ _, None)
    example_view 1 example_api with_example_hc (example_request (Some "alice")) "main" "greet" 0
    example_hc ex_nucleus (AgentState_new "alice") [] "key" "alice" 1)
    as (call & Hz & Hf & _ & _ & _ & Hiff & _).
  - constructor; try reflexivity; [exists "app"; split; reflexivity|constructor|cbn; lia].
  - exact example_signs.
  - reflexivity.
  - exists call. split; [exact Hf|]. apply Hiff. split; [|right; reflexivity].
    exists ex_dna, ex_zome, {| fn_name := "greet"; fn_inputs := []; fn_outputs := [] |}.
    rewrite Hz, Hf. repeat split.
Defined.

(** A chain with a public grant for the function. *)
Definition example_grant : CapTokenGrant :=
  {| grant_id := "hc_public"; grant_assignees := None;
     grant_functions := {[ "main" := ["greet"] ]} |}.

Definition grant_addressing : Addressing := {|
  encode_from_str s := s;
  entry_json e := match e with Entry_CapTokenGrant _ => "g" | e => toy_entry_json e end;
  header_json := toy_header_json;
  aspect_json := @aspect_json toy_addressing;
  entry_of_json s := if String.eqb s "g" then Some (Entry_CapTokenGrant example_grant)
                     else toy_entry_of_json s;
  header_of_json := toy_header_of_json;
|}.

Definition grant_addressing_laws : @AddressingLaws grant_addressing.
Proof.
  constructor; [done|]. apply (@header_json_inverse toy_addressing toy_addressing_laws).
Defined.

Definition grant_header : ChainHeader :=
  {| entry_type := EntryType_CapTokenGrant; entry_address := "g"; provenances := []; link := None;
     link_same_type := None; link_update_delete := None; timestamp := {| timestamp_nanos := 1 |} |}.

Definition grant_cas : @Cas memory_storage :=
  (<[@ChainHeader_address grant_addressing grant_header := toy_header_json grant_header]>
     {[ "g" := "g" ]} : gmap string string).

Definition grant_agent : AgentState := AgentState_new_with_top_chain_header (Some grant_header) "alice".

Definition grant_view : N → InstanceView :=
  λ _, {| view_state := Some (ex_nucleus, grant_agent); view_cas := grant_cas |}.

Lemma public_call_authority_witness :
  ∃ call, cap_token (cap call) = "g" ∧
    @method_call (λ _, "{}") memory_storage grant_addressing toy_conductor_env bits_encode bits_decode
      (λ k, Ok k) (λ _ _ _, true) (λ _ _ payload, Some payload)
      (λ _ _ _, Err HolochainError_DnaMissing) (λ _, "") (λ _, None) grant_view 3 example_api
      with_example_hc (Params_Map (example_request None)) 1 = Ret (Ok (call, ("app", [0%Z]))).
Proof.
  destruct (@public_call_authority memory_storage grant_addressing grant_addressing_laws
    toy_conductor_env (λ _, "{}") bits_encode bits_decode (λ k, Ok k) (λ _ _ _, true)
    (λ _ _ payload, Some payload) (λ _ _ _, Err HolochainError_DnaMissing) (λ _, "") (λ _, None)
    grant_view 3 example_api with_example_hc (example_request None) "main" "greet" 0
    example_hc ex_nucleus grant_agent [grant_header] "key" "g" 1)
    as (grant & call & _ & _ & Hg & Hz & Hf & Ht & Hiff).
  - constructor; try reflexivity; [exists "app"; split; reflexivity| |cbn; lia].
    constructor; [vm_compute; reflexivity|reflexivity|reflexivity|constructor].
  - exact example_signs.
  - reflexivity.
  - vm_compute. reflexivity.
  - discriminate.
  - assert (Hgrant : grant = example_grant) by (vm_compute in Hg; by injection Hg).
    subst grant. exists call. split; [exact Ht|]. apply Hiff; [reflexivity|].
    split; [|exists ["greet"]; split; [reflexivity|by left]].
    exists ex_dna, ex_zome, {| fn_name := "greet"; fn_inputs := []; fn_outputs := [] |}.
    rewrite Hz, Hf. repeat split.
Defined.

(** Adding an agent through a request. *)
Definition bob_added : Conductor :=
  after (@run_admin kahn dna_code toy_conductor_env toy_admin_env (AdminCall_add_agent "bob" "bob" None))
    (example_conductor pair_config).

Lemma requests_keep_consistency_witness :
  ∃ c', Some bob_added = Some c' ∧ @conductor_inv dna_code toy_conductor_env "/hc" c'.
Proof.
  apply (@requests_keep_consistency (λ _, "") kahn dna_code toy_conductor_env toy_admin_env kahn_laws
    "/hc" dna_code_inj (example_conductor pair_config)).
  - exact example_inv.
  - apply rtc_once. apply (RpcStep _ _ "admin/agent/add"
      (Params_Map (list_to_map [("id", Value_String "bob"); ("name", Value_String "bob")]))
      (Ok (Value_Object [("success", Value_Bool true)]))).
    vm_compute. reflexivity.
Defined.
End examples.
