(* ===== verification/Regex.v ===== *)
(** * Regular expressions

    What the code uses of the crate [regex]: anchored matching of Unicode text with
    named groups.  Of all matches it takes the first in the order of preference:
    repetitions and options take as much as they can, the left alternative goes
    first, and choices are undone when the rest does not match.  The matcher is
    executable, in continuation-passing style; the crate's automata are
    documented to find the same match.

    Text is a list of code points.  Character classes beyond ASCII, and the folding
    of cases, are those of the class [Unicode]. *)

From S2P Require Import Prelude.

Local Open Scope string_scope.

Class Unicode : Type := {
  wide_digit : Z → bool;
  wide_space : Z → bool;
  wide_fold : Z → Z;
}.

Definition text : Type := list Z.

(** The code points of a string literal. *)
Fixpoint text_of (s : string) : text :=
  match s with
  | EmptyString => []
  | String c s => Z.of_N (Ascii.N_of_ascii c) :: text_of s
  end.

Section classes.
Context `{Unicode}.

Definition is_digit (c : Z) : bool :=
  if Z.ltb c 128 then Z.leb 48 c && Z.leb c 57 else wide_digit c.
Definition is_space (c : Z) : bool :=
  if Z.ltb c 128 then Z.leb 9 c && Z.leb c 13 || Z.eqb c 32 else wide_space c.
Definition fold_case (c : Z) : Z :=
  if Z.ltb c 128 then if Z.leb 65 c && Z.leb c 90 then (c + 32)%Z else c else wide_fold c.
End classes.

(** A class of characters, a repetition of one (at least once or not), and the
    combinations. *)
Inductive re : Type :=
| Re_empty
| Re_class (p : Z → bool)
| Re_many (p : Z → bool)
| Re_seq (r1 r2 : re)
| Re_alt (r1 r2 : re)
| Re_group (name : string) (r : re).

Definition Re_option (r : re) : re := Re_alt r Re_empty.
Definition Re_some (p : Z → bool) : re := Re_seq (Re_class p) (Re_many p).
Definition Re_char (c : Z) : re := Re_class (Z.eqb c).
Definition Re_range (a b : Z) : re := Re_class (λ c, Z.leb a c && Z.leb c b).

Fixpoint Re_seqs (l : list re) : re :=
  match l with
  | [] => Re_empty
  | r :: l => Re_seq r (Re_seqs l)
  end.

(** A literal, and one whose case is ignored. *)
Definition Re_literal (s : string) : re := Re_seqs (Re_char <$> text_of s).
Definition Re_literal_i `{Unicode} (s : string) : re :=
  Re_seqs ((λ c, Re_class (λ c', Z.eqb (fold_case c) (fold_case c'))) <$> text_of s).

(** [(?P<name>\d+)] *)
Definition digits_group `{Unicode} (name : string) : re := Re_group name (Re_some is_digit).

(** The groups that took part, the latest first. *)
Definition captures : Type := list (string * text).

Fixpoint cap_name (cap : captures) (name : string) : option text :=
  match cap with
  | [] => None
  | (name', t) :: cap => if String.eqb name' name then Some t else cap_name cap name
  end.

Section match_.
Context {A : Type}.
Definition cont : Type := text → captures → option A.

Definition or_else (x y : option A) : option A := match x with Some _ => x | None => y end.

Fixpoint many (p : Z → bool) (s : text) (cap : captures) (k : cont) : option A :=
  match s with
  | c :: s' => if p c then or_else (many p s' cap k) (k s cap) else k s cap
  | [] => k s cap
  end.

Fixpoint re_match (r : re) (s : text) (cap : captures) (k : cont) : option A :=
  match r with
  | Re_empty => k s cap
  | Re_class p => match s with c :: s' => if p c then k s' cap else None | [] => None end
  | Re_many p => many p s cap k
  | Re_seq r1 r2 => re_match r1 s cap (λ s cap, re_match r2 s cap k)
  | Re_alt r1 r2 => or_else (re_match r1 s cap k) (re_match r2 s cap k)
  | Re_group name r =>
      re_match r s cap (λ s' cap, k s' ((name, take (length s - length s') s) :: cap))
  end.
End match_.

(** [Regex::captures] of an expression between [^] and [$]. *)
Definition re_captures (r : re) (s : text) : option captures :=
  re_match r s [] (λ s cap, match s with [] => Some cap | _ => None end).

(** ** Matching digits and units *)

Local Open Scope list_scope.

Section laws.
Context `{Unicode} {A : Type}.
Implicit Types (k : cont (A := A)) (s : text) (cap : captures).

(** ASCII digits. *)
Definition ascii_digit (c : Z) : Prop := (48 ≤ c ≤ 57)%Z.

(** A text that begins with neither a digit nor a space. *)
Definition stops (s : text) : Prop :=
  match s with [] => True | c :: _ => is_digit c = false ∧ is_space c = false end.

Lemma ascii_is_digit c : ascii_digit c → is_digit c = true.
Proof. unfold ascii_digit, is_digit. intros. case_match; lia. Qed.

Lemma ascii_not_space c : ascii_digit c → is_space c = false.
Proof. unfold ascii_digit, is_space. intros. case_match; lia. Qed.

Lemma re_match_seq r1 r2 s cap k :
  re_match (Re_seq r1 r2) s cap k = re_match r1 s cap (λ s cap, re_match r2 s cap k).
Proof. done. Qed.

Lemma re_match_alt r1 r2 s cap k :
  re_match (Re_alt r1 r2) s cap k = or_else (re_match r1 s cap k) (re_match r2 s cap k).
Proof. done. Qed.

Lemma re_match_option r s cap k :
  re_match (Re_option r) s cap k = or_else (re_match r s cap k) (k s cap).
Proof. done. Qed.

(** Nothing is taken of a text that does not begin with the class. *)
Lemma many_none p s cap k :
  match s with [] => True | c :: _ => p c = false end → many p s cap k = k s cap.
Proof. destruct s as [|c s]; [done|]. cbn. by intros ->. Qed.

Lemma spaces_digits ds rest cap k :
  Forall ascii_digit ds → stops rest → many is_space (ds ++ rest) cap k = k (ds ++ rest)%list cap.
Proof.
  intros Hd Hs. apply many_none. destruct Hd as [|c ds Hc _]; cbn.
  - destruct rest; [done|]. apply Hs.
  - by apply ascii_not_space.
Qed.

(** All the digits are taken if the rest then matches. *)
Lemma many_digits ds rest cap k x :
  Forall ascii_digit ds → stops rest → k rest cap = Some x →
  many is_digit (ds ++ rest) cap k = Some x.
Proof.
  intros Hd Hs Hk. induction Hd as [|c ds Hc Hd IH]; cbn.
  - rewrite many_none; [done|]. destruct rest; [done|]. apply Hs.
  - by rewrite ascii_is_digit, IH by done.
Qed.

(** Nothing matches if the rest does not, whatever digits are left to it. *)
Lemma many_digits_none ds rest cap k :
  Forall ascii_digit ds → stops rest →
  (∀ ds', Forall ascii_digit ds' → k (ds' ++ rest)%list cap = None) →
  many is_digit (ds ++ rest) cap k = None.
Proof.
  intros Hd Hs Hk. induction Hd as [|c ds Hc Hd IH]; cbn.
  - rewrite many_none; [apply (Hk []), Forall_nil_2|]. destruct rest; [done|]. apply Hs.
  - rewrite ascii_is_digit, IH by done. cbn. apply (Hk (c :: ds)). by constructor.
Qed.

Lemma take_prefix {B} (l l' : list B) : take (length (l ++ l') - length l') (l ++ l') = l.
Proof. rewrite length_app, Nat.add_sub. apply take_app_length. Qed.

Lemma group_match name ds rest cap k x :
  Forall ascii_digit ds → ds ≠ [] → stops rest → k rest ((name, ds) :: cap) = Some x →
  re_match (digits_group name) (ds ++ rest) cap k = Some x.
Proof.
  intros Hd Hne Hs Hk. destruct Hd as [|c ds Hc Hd]; [done|].
  cbn [digits_group re_match Re_some app]. rewrite ascii_is_digit by done.
  pose proof (take_prefix (c :: ds) rest) as E. cbn [app] in E.
  apply many_digits; [done..|]. by rewrite E.
Qed.

Lemma group_none name ds rest cap k :
  Forall ascii_digit ds → stops rest →
  (∀ ds' cap', Forall ascii_digit ds' → k (ds' ++ rest)%list cap' = None) →
  re_match (digits_group name) (ds ++ rest) cap k = None.
Proof.
  intros Hd Hs Hk. cbn [digits_group re_match Re_some]. destruct Hd as [|c ds Hc Hd]; cbn [app].
  - destruct rest as [|c rest]; [done|]. destruct Hs as [-> _]. done.
  - rewrite ascii_is_digit by done. apply many_digits_none; [done..|].
    intros ds' Hd'. by apply Hk.
Qed.
End laws.
