(* ===== verification/Times.v ===== *)
(** * Periods, timeouts and timestamps: [core_types/src/time.rs]

    A [Period] is a [std::time::Duration], seconds and nanoseconds, with a readable
    form.  Its [Display] and [FromStr] are modelled in full: the printer with its
    choice of units, the regular expression, and the 64-bit arithmetic on the
    fields.  [checks] says whether the build has overflow checks: then an overflow
    panics, otherwise it wraps.  A [Timeout] is a [usize] of milliseconds, whose
    [width] depends on the target: 64 bits for the conductor, 32 for zomes in wasm.

    [Iso8601::from_str] is modelled up to the text it hands to chrono's parser for
    RFC 3339, which is a parameter.

    The theorems: what is printed is parsed back to the same period, the conversion
    to a timeout saturates and when it does not, and which inputs the parsers take
    although they should not. *)

From S2P Require Import Prelude Errors CoreTypes Regex.

Local Open Scope string_scope.

(** ** Decimal numbers *)

(** [{}] of an unsigned number; twenty digits are enough for a [u64]. *)
Fixpoint dec_go (fuel : nat) (n : Z) (acc : text) : text :=
  let acc := (48 + n mod 10)%Z :: acc in
  match fuel with
  | O => acc
  | S fuel => if Z.ltb n 10 then acc else dec_go fuel (n / 10) acc
  end.

Definition dec (n : Z) : text := dec_go 19 n [].

Fixpoint digits_value (s : text) (acc : Z) : option Z :=
  match s with
  | [] => Some acc
  | c :: s => if Z.leb 48 c && Z.leb c 57 then digits_value s (acc * 10 + (c - 48)) else None
  end.

(** [str::parse::<u64>]: ASCII digits, perhaps after a plus. *)
Definition parse_u64 (s : text) : option Z :=
  let digits := match s with
                | c :: s' => if Z.eqb c 43 then s' else s
                | [] => s
                end in
  match digits with
  | [] => None
  | _ => n ← digits_value digits 0; if Z.ltb n (2 ^ 64) then Some n else None
  end.

(** [{:0>w}], [{:0<w.w}], [trim_end_matches('0')]. *)
Definition pad_left (w : nat) (s : text) : text := (repeat 48%Z (w - length s) ++ s)%list.
Definition pad_right (w : nat) (s : text) : text :=
  (take w s ++ repeat 48%Z (w - length (take w s)))%list.
Fixpoint trim_zeros (s : text) : text :=
  match s with
  | [] => []
  | c :: s => match trim_zeros s with
              | [] => if Z.eqb c 48 then [] else [c]
              | t => c :: t
              end
  end.

(** ** Periods *)

(** [std::time::Duration]. *)
Record Period : Type := { as_secs : Z; subsec_nanos : Z }.

Definition duration_wf (d : Period) : Prop :=
  (0 ≤ as_secs d < 2 ^ 64)%Z ∧ (0 ≤ subsec_nanos d < 1000000000)%Z.

Definition YR : Z := 31557600.
Definition WK : Z := 604800.
Definition DY : Z := 86400.
Definition HR : Z := 3600.
Definition MN : Z := 60.

(** One [if n > 0 { write!(f, "{}u", n)? }]. *)
Definition part (unit : string) (n : Z) : text :=
  if Z.ltb 0 n then (dec n ++ text_of unit)%list else [].

(** The seconds and what is below them. *)
Definition fmt_seconds (secs s nsecs : Z) : text :=
  let is_ns := Z.ltb 0 (nsecs mod 1000) in
  let is_us := Z.ltb 0 ((nsecs / 1000) mod 1000) in
  let is_ms := Z.ltb 0 (nsecs / 1000000) in
  if is_ms && (Z.ltb 0 s || is_ns) then
    (dec s ++ text_of "." ++ trim_zeros (pad_left 9 (dec nsecs)) ++ text_of "s")%list
  else if Z.ltb 0 nsecs || Z.ltb 0 s then
    (part "s" s ++
     (if is_ns then dec nsecs ++ text_of "ns"
      else if is_us then dec (nsecs / 1000) ++ text_of "us"
      else if is_ms then dec (nsecs / 1000000) ++ text_of "ms"
      else []))%list
  else if Z.eqb nsecs 0 && Z.eqb secs 0 then text_of "0s"
  else [].

Definition fmt (p : Period) : text :=
  let secs := as_secs p in
  let years := (secs / YR)%Z in
  let y_secs := (secs mod YR)%Z in
  let weeks := (y_secs / WK)%Z in
  let w_secs := (y_secs mod WK)%Z in
  let days := (w_secs / DY)%Z in
  let d_secs := (w_secs mod DY)%Z in
  let hours := (d_secs / HR)%Z in
  let h_secs := (d_secs mod HR)%Z in
  let minutes := (h_secs / MN)%Z in
  let s := (h_secs mod MN)%Z in
  (part "y" years ++ part "w" weeks ++ part "d" days ++ part "h" hours ++
   part "m" minutes ++ fmt_seconds secs s (subsec_nanos p))%list.

Section period_re.
Context `{Unicode}.

Definition spaces : re := Re_many is_space.

(** [(?:\s*(?P<name>\d+)\s*unit)?] *)
Definition period_field (name : string) (unit : re) : re :=
  Re_option (Re_seq spaces (Re_seq (digits_group name) (Re_seq spaces unit))).

(** [y((((ea)?r)s?)?)?], and the like with other letters. *)
Definition unit_re (u mid last : string) : re :=
  Re_seq (Re_literal_i u)
    (Re_option (Re_option
       (Re_seq (Re_seq (Re_option (Re_literal_i mid)) (Re_literal_i last))
          (Re_option (Re_literal_i "s"))))).

(** [m((in(ute)?)s?)?] and [s((ec(ond)?)s?)?]. *)
Definition long_unit_re (u mid last : string) : re :=
  Re_seq (Re_literal_i u)
    (Re_option
       (Re_seq (Re_seq (Re_literal_i mid) (Re_option (Re_literal_i last)))
          (Re_option (Re_literal_i "s")))).

Definition sec_re : re := long_unit_re "s" "ec" "ond".

(** [(?:\s*(?P<s_man>\d+)?[.,](?P<s_fra>\d+)\s*s((ec(ond)?)s?)?)?] *)
Definition fraction_re : re :=
  Re_option
    (Re_seq spaces
       (Re_seq (Re_option (digits_group "s_man"))
          (Re_seq (Re_alt (Re_literal_i ".") (Re_literal_i ","))
             (Re_seq (digits_group "s_fra") (Re_seq spaces sec_re))))).

(** The seconds to nanoseconds; [(:?] of the seconds is a group that starts with
    an optional colon. *)
Definition seconds_re : re :=
  Re_seq
    (Re_option
       (Re_seq (Re_option (Re_char 58))
          (Re_seq spaces (Re_seq (digits_group "s") (Re_seq spaces sec_re)))))
    (Re_seq
       (period_field "ms" (Re_seq (Re_alt (Re_literal_i "m") (Re_literal_i "milli")) sec_re))
       (Re_seq
          (period_field "us"
             (Re_seq
                (Re_alt (Re_literal_i "u")
                   (Re_alt (Re_class (λ c, Z.eqb (fold_case 956) (fold_case c)))
                      (Re_literal_i "micro"))) sec_re))
          (period_field "ns"
             (Re_seq (Re_alt (Re_literal_i "n") (Re_literal_i "nano")) sec_re)))).

Definition PERIOD_RE : re :=
  Re_seq (period_field "y" (unit_re "y" "ea" "r"))
    (Re_seq (period_field "w" (unit_re "w" "ee" "k"))
       (Re_seq (period_field "d" (unit_re "d" "a" "y"))
          (Re_seq (period_field "h" (unit_re "h" "ou" "r"))
             (Re_seq (period_field "m" (long_unit_re "m" "in" "ute"))
                (Re_seq (Re_alt fraction_re seconds_re) spaces))))).
End period_re.

(** A [u64] operation whose exact result is [z]. *)
Definition u64_arith (checks : bool) (z : Z) : Outcome Z :=
  if Z.ltb z (2 ^ 64) then Ret z else if checks then Panic else Ret (u64_wrap z).

Section from_str.
Variable checks : bool.

(** [cap.name(name).map_or("0", …).parse::<u64>().map_err(…)?] *)
Definition period_number (text : text) (what : string) : Result HolochainError Z :=
  ok_or (HolochainError_ErrorGeneric ("Invalid " +:+ what +:+ " in period")) (parse_u64 text).

Definition cap_or_zero (cap : captures) (name : string) : text :=
  default (text_of "0") (cap_name cap name).

(** [sum + scale * n], the factors from left to right. *)
Definition add_scaled (sum : Outcome (Result HolochainError Z)) (scale : Z)
    (number : Result HolochainError Z) : Outcome (Result HolochainError Z) :=
  r ← sum;
  match r, number with
  | Err e, _ => Ret (Err e)
  | Ok _, Err e => Ret (Err e)
  | Ok a, Ok n => t ← u64_arith checks (scale * n); Ok <$> u64_arith checks (a + t)
  end.

Definition period_seconds (cap : captures) : Outcome (Result HolochainError Z) :=
  let y := add_scaled (Ret (Ok 0%Z)) YR (period_number (cap_or_zero cap "y") "year(s)") in
  let w := add_scaled y WK (period_number (cap_or_zero cap "w") "week(s)") in
  let d := add_scaled w DY (period_number (cap_or_zero cap "d") "days(s)") in
  let h := add_scaled d HR (period_number (cap_or_zero cap "h") "hour(s)") in
  let m := add_scaled h MN (period_number (cap_or_zero cap "m") "minute(s)") in
  let s := match cap_name cap "s" with
           | Some s => s
           | None => cap_or_zero cap "s_man"
           end in
  add_scaled m 1 (period_number s "seconds").

Definition period_nanos (cap : captures) : Outcome (Result HolochainError Z) :=
  let fra := match cap_name cap "s_fra" with
             | Some s_fra => period_number (pad_right 9 s_fra) "fractional seconds"
             | None => Ok 0%Z
             end in
  let ms := add_scaled (Ret fra) 1000000
              (period_number (cap_or_zero cap "ms") "milliseconds") in
  let us := add_scaled ms 1000 (period_number (cap_or_zero cap "us") "microseconds") in
  add_scaled us 1 (period_number (cap_or_zero cap "ns") "nanoseconds").

(** The closure on the captures, with [Duration::new]. *)
Definition period_of_captures (cap : captures) : Outcome (Result HolochainError Period) :=
  r ← period_seconds cap;
  match r with
  | Err e => Ret (Err e)
  | Ok seconds =>
      r ← period_nanos cap;
      match r with
      | Err e => Ret (Err e)
      | Ok nanos =>
          secs ← u64_arith checks (seconds + nanos / 1000000000);
          Ret (Ok {| as_secs := secs; subsec_nanos := (nanos mod 1000000000)%Z |})
      end
  end.

Definition Period_from_str `{Unicode} (period_str : text) :
    Outcome (Result HolochainError Period) :=
  match re_captures PERIOD_RE period_str with
  | None => Ret (Err (HolochainError_ErrorGeneric "Failed to find Period specification in"))
  | Some cap => period_of_captures cap
  end.
End from_str.

(** ** Timeouts *)

Section timeout.
Variable width : Z.

Definition usize_wrap (z : Z) : Z := (z mod 2 ^ width)%Z.
Definition usize_max : Z := (2 ^ width - 1)%Z.

Definition Timeout_from (p : Period) : Z :=
  if Z.leb (usize_max / 1000) (usize_wrap (as_secs p)) then usize_max
  else (usize_wrap (as_secs p) * 1000 + subsec_nanos p / 1000000)%Z.

(** [Duration::from_millis]. *)
Definition Duration_from_timeout (millis : Z) : Period :=
  {| as_secs := (millis / 1000)%Z; subsec_nanos := (millis mod 1000 * 1000000)%Z |}.
End timeout.

(** ** Timestamps *)

Section iso_re.
Context `{Unicode}.

Definition two (p q : Z → bool) : re := Re_seq (Re_class p) (Re_class q).
Definition among (s : string) (c : Z) : bool := existsb (Z.eqb c) (text_of s).
Definition between (a b : string) (c : Z) : bool :=
  match text_of a, text_of b with
  | [a], [b] => Z.leb a c && Z.leb c b
  | _, _ => false
  end.

Definition date_re : re :=
  Re_option
    (Re_seq (Re_option (Re_literal "-"))
       (Re_seq
          (Re_option
             (Re_group "M"
                (Re_alt (two (among "0") (between "1" "9")) (two (among "1") (among "012")))))
          (Re_option
             (Re_seq (Re_option (Re_literal "-"))
                (Re_option
                   (Re_group "D"
                      (Re_alt (two (among "0") (between "1" "9"))
                         (Re_alt (two (among "12") (between "0" "9"))
                            (two (among "3") (among "01")))))))))).

Definition time_re : re :=
  Re_option
    (Re_seq (Re_alt (Re_class (among "Tt")) (Re_some is_space))
       (Re_seq
          (Re_group "h"
             (Re_alt (two (among "01") (between "0" "9")) (two (among "2") (between "0" "3"))))
          (Re_option
             (Re_seq (Re_option (Re_literal ":"))
                (Re_seq (Re_group "m" (two (between "0" "5") (between "0" "9")))
                   (Re_option
                      (Re_seq (Re_option (Re_literal ":"))
                         (Re_seq
                            (Re_group "s"
                               (Re_alt (two (between "0" "5") (between "0" "9"))
                                  (Re_literal "60")))
                            (Re_option
                               (Re_seq (Re_class (among ".,")) (digits_group "ss"))))))))))).

(** [[+-−]] is a range: from the plus, U+002B, to the minus sign, U+2212. *)
Definition zone_re : re :=
  Re_option
    (Re_group "Z"
       (Re_alt (Re_class (among "Zz"))
          (Re_seq (Re_group "Zsgn" (Re_range 43 8722))
             (Re_seq (Re_group "Zhrs" (two is_digit is_digit))
                (Re_option
                   (Re_seq (Re_option (Re_literal ":"))
                      (Re_group "Zmin" (two is_digit is_digit)))))))).

Definition ISO8601_RE : re :=
  Re_seqs [spaces; Re_group "neg" (Re_option (Re_literal "-"));
           Re_group "Y" (Re_seq (two is_digit is_digit) (two is_digit is_digit));
           date_re; time_re; spaces; zone_re; spaces].

(** The text made of the captures. *)
Definition iso_zone (cap : captures) : text :=
  match cap_name cap "Z" with
  | None => text_of "Z"
  | Some z =>
      if bool_decide (z = text_of "Z") || bool_decide (z = text_of "z") then text_of "Z"
      else ((if bool_decide (cap_name cap "Zsgn" = Some (text_of "+"))
             then text_of "+" else text_of "-") ++
            default [] (cap_name cap "Zhrs") ++ text_of ":" ++
            default (text_of "00") (cap_name cap "Zmin"))%list
  end.

Definition iso_timestamp (cap : captures) : text :=
  let get name other := default (text_of other) (cap_name cap name) in
  (get "neg" "" ++ pad_left 4 (get "Y" "") ++ text_of "-" ++
   pad_left 2 (get "M" "1") ++ text_of "-" ++ pad_left 2 (get "D" "1") ++ text_of "T" ++
   pad_left 2 (get "h" "0") ++ text_of ":" ++ pad_left 2 (get "m" "0") ++ text_of ":" ++
   pad_left 2 (get "s" "0") ++
   match cap_name cap "ss" with Some ss => text_of "." ++ ss | None => [] end ++
   iso_zone cap)%list.

Variable parse_from_rfc3339 : text → option Iso8601.

Definition Iso8601_from_str (s : text) : Result HolochainError Iso8601 :=
  match parse_from_rfc3339 s with
  | Some t => Ok t
  | None =>
      match re_captures ISO8601_RE s with
      | None => Err (HolochainError_ErrorGeneric
                       "Failed to find ISO 3339 or RFC 8601 timestamp in")
      | Some cap =>
          ok_or (HolochainError_ErrorGeneric "Attempting to convert RFC 3339 timestamp")
            (parse_from_rfc3339 (iso_timestamp cap))
      end
  end.
End iso_re.

(** ** Numbers are read back *)

Local Open Scope list_scope.

Lemma dec_go_digits fuel n acc :
  Forall ascii_digit acc → Forall ascii_digit (dec_go fuel n acc).
Proof.
  revert n acc. induction fuel as [|fuel IH]; intros n acc Hacc; cbn [dec_go]; cbv zeta.
  - constructor; [unfold ascii_digit; div_lia|done].
  - assert (Forall ascii_digit ((48 + n mod 10)%Z :: acc)).
    { constructor; [unfold ascii_digit; div_lia|done]. }
    case_match; auto.
Qed.

Lemma dec_go_not_nil fuel n acc : dec_go fuel n acc ≠ [].
Proof. revert n acc. induction fuel; intros n acc; cbn [dec_go]; cbv zeta; [done|]. by case_match. Qed.

Lemma dec_go_value fuel n acc :
  (0 ≤ n < 10 ^ Z.of_nat (S fuel))%Z →
  digits_value (dec_go fuel n acc) 0 = digits_value acc n.
Proof.
  revert n acc. induction fuel as [|fuel IH]; intros n acc Hn; cbn [dec_go]; cbv zeta.
  - cbn [digits_value]. rewrite (proj2 (andb_true_iff _ _)) by div_lia. f_equal. div_lia.
  - rewrite Nat2Z.inj_succ, Z.pow_succ_r in Hn by lia. case_match.
    + cbn [digits_value]. rewrite (proj2 (andb_true_iff _ _)) by div_lia. f_equal. div_lia.
    + rewrite IH by div_lia. cbn [digits_value].
      rewrite (proj2 (andb_true_iff _ _)) by div_lia. f_equal. div_lia.
Qed.

Lemma dec_go_length fuel n acc k :
  (0 ≤ n < 10 ^ Z.of_nat (S k))%Z → (length (dec_go fuel n acc) ≤ S k + length acc)%nat.
Proof.
  revert n acc k. induction fuel as [|fuel IH]; intros n acc k Hn; cbn [dec_go]; cbv zeta.
  - cbn. lia.
  - case_match; [cbn; lia|]. destruct k as [|k]; [cbn in Hn; lia|].
    rewrite Nat2Z.inj_succ, Z.pow_succ_r in Hn by lia.
    specialize (IH (n / 10)%Z ((48 + n mod 10)%Z :: acc) k ltac:(div_lia)). cbn in IH |- *. lia.
Qed.

Lemma dec_digits n : Forall ascii_digit (dec n).
Proof. by apply dec_go_digits. Qed.

Lemma dec_not_nil n : dec n ≠ [].
Proof. apply dec_go_not_nil. Qed.

#[export] Hint Resolve dec_digits dec_not_nil : hc.

Lemma parse_digits ds n :
  Forall ascii_digit ds → ds ≠ [] → digits_value ds 0 = Some n → (n < 2 ^ 64)%Z →
  parse_u64 ds = Some n.
Proof.
  intros Hd Hne Hv Hn. unfold parse_u64. destruct Hd as [|c ds Hc Hd]; [done|].
  unfold ascii_digit in Hc. destruct (Z.eqb_spec c 43); [lia|].
  rewrite Hv. cbn [mbind option_bind]. case_match; [done|]. lia.
Qed.

Lemma dec_value n : (0 ≤ n < 2 ^ 64)%Z → digits_value (dec n) 0 = Some n.
Proof. intros Hn. unfold dec. rewrite dec_go_value; [done|]. cbn. lia. Qed.

Lemma parse_dec n : (0 ≤ n < 2 ^ 64)%Z → parse_u64 (dec n) = Some n.
Proof. intros Hn. apply parse_digits; auto using dec_value with hc. lia. Qed.

(** Zeros in front do not count. *)
Lemma digits_value_zeros w ds : digits_value (repeat 48%Z w ++ ds) 0 = digits_value ds 0.
Proof. by induction w. Qed.

Lemma pad_left_digits w ds : Forall ascii_digit ds → Forall ascii_digit (pad_left w ds).
Proof.
  intros Hd. apply Forall_app; split; [|done]. apply Forall_forall.
  intros c ->%list_elem_of_In%repeat_spec. unfold ascii_digit. lia.
Qed.

Lemma parse_pad_dec w n : (0 ≤ n < 2 ^ 64)%Z → parse_u64 (pad_left w (dec n)) = Some n.
Proof.
  intros Hn. apply parse_digits.
  - auto using pad_left_digits with hc.
  - intros [_ ?%dec_not_nil]%app_eq_nil. done.
  - unfold pad_left. rewrite digits_value_zeros. by apply dec_value.
  - lia.
Qed.

Lemma pad_dec_length n : (0 ≤ n < 1000000000)%Z → length (pad_left 9 (dec n)) = 9.
Proof.
  intros Hn. unfold pad_left. rewrite length_app, repeat_length.
  pose proof (dec_go_length 19 n [] 8 ltac:(cbn; lia)) as Hl. fold (dec n) in Hl. cbn [length] in Hl. lia.
Qed.

(** What [trim_end_matches('0')] removes, [{:0<9.9}] puts back. *)
Lemma trim_zeros_split s : ∃ j, s = (trim_zeros s ++ repeat 48%Z j)%list.
Proof.
  induction s as [|c s [j IH]]; [by exists 0|]. cbn [trim_zeros].
  destruct (trim_zeros s) as [|c' t] eqn:E.
  - case_match.
    + exists (S j). cbn. f_equal; [lia|done].
    + exists j. cbn. by f_equal.
  - exists j. cbn. by f_equal.
Qed.

Lemma pad_trim s : pad_right (length s) (trim_zeros s) = s.
Proof.
  destruct (trim_zeros_split s) as [j E].
  assert (length s = length (trim_zeros s) + j)%nat as Hl.
  { rewrite E at 1. by rewrite length_app, repeat_length. }
  unfold pad_right. rewrite take_ge by lia. rewrite Hl.
  replace (_ + j - _)%nat with j by lia. done.
Qed.

Lemma trim_zeros_digits s : Forall ascii_digit s → Forall ascii_digit (trim_zeros s).
Proof. destruct (trim_zeros_split s) as [j E]. rewrite E at 1. by intros [? _]%Forall_app. Qed.

(** The digits after the point. *)
Definition fraction (nsecs : Z) : text := trim_zeros (pad_left 9 (dec nsecs)).

Lemma parse_fraction n :
  (0 ≤ n < 1000000000)%Z → parse_u64 (pad_right 9 (fraction n)) = Some n.
Proof.
  intros Hn. unfold fraction. rewrite <- (pad_dec_length n) at 1 by done.
  rewrite pad_trim. apply parse_pad_dec. lia.
Qed.

Lemma fraction_digits n : Forall ascii_digit (fraction n).
Proof. apply trim_zeros_digits. auto using pad_left_digits with hc. Qed.

Lemma fraction_not_nil n : (0 < n < 1000000000)%Z → fraction n ≠ [].
Proof.
  intros Hn E. pose proof (parse_fraction n ltac:(lia)) as Hp. rewrite E in Hp.
  vm_compute in Hp. simplify_eq. lia.
Qed.

(** ** The regular expression on printed periods *)

(** The micro sign of the expression, U+03BC, folds to itself. *)
Class UnicodeLaws `{Unicode} : Prop := { mu_folds : wide_fold 956 = 956%Z }.

(** A text that is empty or begins with a digit. *)
Definition digit_next (s : text) : Prop :=
  match s with [] => True | c :: _ => ascii_digit c end.

(** A text that is empty or begins with a number and one of the units [us]. *)
Definition unit_next (us : text) (s : text) : Prop :=
  s = [] ∨ ∃ ds c rest, Forall ascii_digit ds ∧ ds ≠ [] ∧ c ∈ us ∧ s = ds ++ c :: rest.

(** Decides a class on each of the ten digits. *)
Ltac digit_cases c H :=
  unfold ascii_digit in H;
  assert (c = 48 ∨ c = 49 ∨ c = 50 ∨ c = 51 ∨ c = 52 ∨
          c = 53 ∨ c = 54 ∨ c = 55 ∨ c = 56 ∨ c = 57)%Z as Hcases by lia;
  clear H; destruct_or! Hcases; subst c.

(** Decides a statement for each character of a literal. *)
Ltac char_cases Hc :=
  repeat (apply elem_of_cons in Hc as [? | Hc]; [simplify_eq|]);
  try (by apply not_elem_of_nil in Hc).

(** Membership in a literal list. *)
Ltac in_list :=
  cbn [text_of]; rewrite !elem_of_cons; repeat (first [left; reflexivity | right]).

Section printed.
Context `{Unicode} {A : Type}.
Implicit Types (k : cont (A := A)) (cap : captures).

Lemma unit_next_digit us s : unit_next us s → digit_next s.
Proof. intros [-> | (ds & c & rest & Hd & Hne & _ & ->)]; [done|]. by destruct Hd. Qed.

(** A field that is there. *)
Lemma field_hit name unit ds rest cap k x :
  Forall ascii_digit ds → ds ≠ [] → stops rest →
  re_match unit rest ((name, ds) :: cap) k = Some x →
  re_match (period_field name unit) (ds ++ rest) cap k = Some x.
Proof.
  intros Hd Hne Hs Hk. cbn [period_field Re_option re_match spaces].
  rewrite spaces_digits by done. rewrite (group_match _ _ _ _ _ x); [done..|].
  rewrite many_none; [done|]. destruct rest; [done|]. apply Hs.
Qed.

(** A field that is not: the number belongs to another unit. *)
Lemma field_miss name unit ds rest cap k :
  Forall ascii_digit ds → stops rest →
  (∀ ds' cap', Forall ascii_digit ds' → re_match unit (ds' ++ rest) cap' k = None) →
  re_match (period_field name unit) (ds ++ rest) cap k = k (ds ++ rest) cap.
Proof.
  intros Hd Hs Hk. cbn [period_field Re_option re_match spaces].
  rewrite spaces_digits by done. rewrite group_none; [done..|].
  intros ds' cap' Hd'. rewrite spaces_digits by done. by apply Hk.
Qed.

Lemma field_empty name unit cap k : re_match (period_field name unit) [] cap k = k [] cap.
Proof. done. Qed.

(** What a field adds to the captures. *)
Definition opt_cap (name : string) (n : Z) (cap : captures) : captures :=
  if Z.ltb 0 n then (name, dec n) :: cap else cap.

Lemma part_match name unit u n T cap k x :
  stops (text_of u ++ T) →
  (∀ cap', k T cap' = Some x → re_match unit (text_of u ++ T) cap' k = Some x) →
  re_match (period_field name unit) T cap k = k T cap →
  k T (opt_cap name n cap) = Some x →
  re_match (period_field name unit) (part u n ++ T) cap k = Some x.
Proof.
  intros Hs Hhit Hmiss Hk. unfold part, opt_cap in *. case_match; [|cbn [app]; by rewrite Hmiss].
  rewrite <- app_assoc. apply field_hit; auto with hc.
Qed.

(** The units on what they print. *)
Lemma unit_re_hit u mid last cap k T x :
  (u, mid, last) ∈ [("y", "ea", "r"); ("w", "ee", "k"); ("d", "a", "y"); ("h", "ou", "r")] →
  digit_next T → k T cap = Some x →
  re_match (unit_re u mid last) (text_of u ++ T) cap k = Some x.
Proof.
  intros Hu HT Hk. destruct T as [|c T]; [|cbn in HT; digit_cases c HT];
    repeat (apply elem_of_cons in Hu as [[= -> -> ->] | Hu]; [cbn; by rewrite Hk|]);
    by apply not_elem_of_nil in Hu.
Qed.

Lemma long_unit_hit u mid last cap k T x :
  (u, mid, last) ∈ [("m", "in", "ute"); ("s", "ec", "ond")] →
  digit_next T → k T cap = Some x →
  re_match (long_unit_re u mid last) (text_of u ++ T) cap k = Some x.
Proof.
  intros Hu HT Hk. destruct T as [|c T]; [|cbn in HT; digit_cases c HT];
    repeat (apply elem_of_cons in Hu as [[= -> -> ->] | Hu]; [cbn; by rewrite Hk|]);
    by apply not_elem_of_nil in Hu.
Qed.

(** An expression that begins with a letter does not match a number or another
    letter. *)
Definition other_unit (a : Ascii.ascii) (c : Z) : Prop :=
  stops [c] ∧ Z.eqb (fold_case (Z.of_N (Ascii.N_of_ascii a))) (fold_case c) = false.

Lemma literal_miss a l r ds c rest cap k :
  (57 < fold_case (Z.of_N (Ascii.N_of_ascii a)))%Z → other_unit a c → Forall ascii_digit ds →
  re_match (Re_seq (Re_literal_i (String a l)) r) (ds ++ c :: rest) cap k = None.
Proof.
  intros Ha [_ Hc] [|d ds' Hd _]; cbn -[fold_case]; [by rewrite Hc|].
  destruct (Z.eqb_spec (fold_case (Z.of_N (Ascii.N_of_ascii a))) (fold_case d)) as [E|]; [|done].
  exfalso. rewrite E in Ha. digit_cases d Hd; cbn in Ha; lia.
Qed.

Lemma field_miss_units name a l r us T cap k :
  (57 < fold_case (Z.of_N (Ascii.N_of_ascii a)))%Z → Forall (other_unit a) us → unit_next us T →
  re_match (period_field name (Re_seq (Re_literal_i (String a l)) r)) T cap k = k T cap.
Proof.
  intros Ha Hus [-> | (ds & c & rest & Hd & _ & Hc & ->)]; [done|].
  rewrite Forall_forall in Hus. specialize (Hus c Hc).
  apply field_miss; [done|apply Hus|]. intros. by apply literal_miss.
Qed.

Lemma unit_next_part us u c n T :
  text_of u = [c] → unit_next us T → unit_next (c :: us) (part u n ++ T).
Proof.
  intros Hu HT. unfold part. case_match.
  - right. exists (dec n), c, T. rewrite <- app_assoc, Hu.
    split_and!; auto with hc. apply elem_of_cons. by left.
  - destruct HT as [-> | (ds & c' & rest & ? & ? & ? & ->)]; [by left|].
    right. exists ds, c', rest. split_and!; try done. apply elem_of_cons. by right.
Qed.

Lemma fraction_miss ds c rest cap k :
  Forall ascii_digit ds → c ∈ text_of "snum" →
  re_match fraction_re (ds ++ c :: rest) cap k = k (ds ++ c :: rest) cap.
Proof.
  intros Hd Hc. assert (stops (c :: rest)) as Hs by (cbn [text_of] in Hc; char_cases Hc; done).
  assert (∀ ds' cap', Forall ascii_digit ds' →
    re_match (Re_seq (Re_alt (Re_literal_i ".") (Re_literal_i ","))
       (Re_seq (digits_group "s_fra") (Re_seq spaces sec_re))) (ds' ++ c :: rest) cap' k = None)
    as Hnone.
  { intros ds' cap' [|d ds'' Hd' _]; [cbn [text_of] in Hc; char_cases Hc; reflexivity|].
    digit_cases d Hd'; reflexivity. }
  cbn [re_match] in Hnone. unfold fraction_re. cbn [Re_option re_match spaces].
  rewrite spaces_digits, group_none by auto. by rewrite Hnone.
Qed.

Lemma point_match T cap k :
  re_match (Re_alt (Re_literal_i ".") (Re_literal_i ",")) (text_of "." ++ T) cap k =
  or_else (k T cap) None.
Proof. done. Qed.

(** The seconds after a digit or nothing: the colon is not taken. *)
Lemma seconds_field T cap k :
  digit_next T →
  re_match (Re_option (Re_seq (Re_option (Re_char 58))
     (Re_seq spaces (Re_seq (digits_group "s") (Re_seq spaces sec_re))))) T cap k =
  re_match (period_field "s" sec_re) T cap k.
Proof. destruct T as [|c T]; [done|]. intros Hc. cbn in Hc. digit_cases c Hc; reflexivity. Qed.
End printed.

(** The number that comes next has none of these units. *)
Ltac miss_units :=
  etransitivity;
  [eapply field_miss_units; [done| |eassumption]; by repeat constructor | reflexivity].

(** A field of one letter, there or not. *)
Ltac short_field :=
  rewrite re_match_seq; apply part_match;
  [done|intros; apply unit_re_hit; [in_list|by eapply unit_next_digit|done]|miss_units|].

Section tail.
Context `{UnicodeLaws}.

Definition at_end (s : text) (cap : captures) : option captures :=
  match s with [] => Some cap | _ => None end.
Definition then_spaces (s : text) (cap : captures) : option captures :=
  re_match spaces s cap at_end.
Definition tail (s : text) (cap : captures) : option captures :=
  re_match (Re_seq (Re_alt fraction_re seconds_re) spaces) s cap at_end.

Lemma tail_after_m cap : tail (text_of "s") cap = None.
Proof. reflexivity. Qed.

Lemma tail_fraction ds1 ds2 cap :
  Forall ascii_digit ds1 → ds1 ≠ [] → Forall ascii_digit ds2 → ds2 ≠ [] →
  tail (ds1 ++ text_of "." ++ ds2 ++ text_of "s") cap =
  Some (("s_fra", ds2) :: ("s_man", ds1) :: cap).
Proof.
  intros Hd1 Hn1 Hd2 Hn2. unfold tail, fraction_re.
  rewrite re_match_seq, re_match_alt, re_match_option, !re_match_seq.
  change (re_match spaces) with (many (A := captures) is_space).
  rewrite (spaces_digits ds1), re_match_seq, re_match_option by done.
  rewrite (group_match "s_man" ds1 _ _ _ (("s_fra", ds2) :: ("s_man", ds1) :: cap)); [done..|].
  rewrite re_match_seq, point_match, re_match_seq.
  rewrite (group_match "s_fra" ds2 _ _ _ (("s_fra", ds2) :: ("s_man", ds1) :: cap)); done.
Qed.

Lemma tail_seconds ds c rest cap :
  Forall ascii_digit ds → ds ≠ [] → c ∈ text_of "snum" →
  tail (ds ++ c :: rest) cap = re_match seconds_re (ds ++ c :: rest) cap then_spaces.
Proof.
  intros Hd Hne Hc. unfold tail.
  change (or_else (re_match fraction_re (ds ++ c :: rest) cap then_spaces)
            (re_match seconds_re (ds ++ c :: rest) cap then_spaces) =
          re_match seconds_re (ds ++ c :: rest) cap then_spaces).
  rewrite fraction_miss by done. unfold then_spaces at 1. cbn [re_match spaces].
  rewrite spaces_digits; [|done|cbn [text_of] in Hc; char_cases Hc; done].
  by destruct ds.
Qed.

(** Milliseconds, microseconds and nanoseconds. *)
Definition small_units : re :=
  Re_seq
    (period_field "ms" (Re_seq (Re_alt (Re_literal_i "m") (Re_literal_i "milli")) sec_re))
    (Re_seq
       (period_field "us"
          (Re_seq
             (Re_alt (Re_literal_i "u")
                (Re_alt (Re_class (λ c, Z.eqb (fold_case 956) (fold_case c)))
                   (Re_literal_i "micro"))) sec_re))
       (period_field "ns"
          (Re_seq (Re_alt (Re_literal_i "n") (Re_literal_i "nano")) sec_re))).

Lemma small_units_match u ds cap :
  u ∈ ["ms"; "us"; "ns"] → Forall ascii_digit ds → ds ≠ [] →
  re_match small_units (ds ++ text_of u) cap then_spaces = Some ((u, ds) :: cap).
Proof.
  intros Hu Hd Hne. unfold small_units. 
  apply elem_of_cons in Hu as [-> | Hu].
  { cbn [re_match]. apply field_hit; done. }
  cbn [re_match]. rewrite field_miss; [|done|..].
  2:{ char_cases Hu; done. }
  2:{ intros ds' cap' [|d ds'' Hd' _]; [char_cases Hu; done|digit_cases d Hd'; reflexivity]. }
  apply elem_of_cons in Hu as [-> | Hu].
  { apply field_hit; done. }
  apply list_elem_of_singleton in Hu as ->. rewrite field_miss; [|done..|].
  2:{ intros ds' cap' [|d ds'' Hd' _]; [|digit_cases d Hd'];
        cbn; rewrite mu_folds; reflexivity. }
  apply field_hit; done.
Qed.

(** The forms of the seconds, with what the expression captures of them. *)
Inductive seconds_form (s nsecs : Z) : text → (captures → captures) → Prop :=
| form_fraction :
    (0 < nsecs < 1000000000)%Z →
    seconds_form s nsecs (dec s ++ text_of "." ++ fraction nsecs ++ text_of "s")
      (λ cap, ("s_fra", fraction nsecs) :: ("s_man", dec s) :: cap)
| form_units u n scale :
    (u, scale) ∈ [("ms", 1000000); ("us", 1000); ("ns", 1)]%Z →
    (0 < n)%Z → (n * scale)%Z = nsecs →
    seconds_form s nsecs (part "s" s ++ dec n ++ text_of u)
      (λ cap, (u, dec n) :: opt_cap "s" s cap)
| form_seconds :
    nsecs = 0%Z → seconds_form s nsecs (part "s" s ++ []) (opt_cap "s" s)
| form_zero :
    s = 0%Z → nsecs = 0%Z →
    seconds_form s nsecs (dec 0 ++ text_of "s") (λ cap, ("s", dec 0) :: cap).

Lemma fmt_seconds_form secs s nsecs :
  (0 ≤ s)%Z → (0 ≤ nsecs < 1000000000)%Z →
  ∃ f, seconds_form s nsecs (fmt_seconds secs s nsecs) f.
Proof.
  intros Hs Hn. unfold fmt_seconds. cbv zeta. case_match eqn:E1.
  { eexists. apply form_fraction. div_lia. }
  case_match eqn:E2.
  - repeat case_match.
    + eexists. eapply (form_units _ _ _ nsecs 1); [in_list|div_lia..].
    + eexists. eapply (form_units _ _ _ (nsecs / 1000) 1000); [in_list|div_lia..].
    + eexists. eapply (form_units _ _ _ (nsecs / 1000000) 1000000);
        [in_list|div_lia..].
    + eexists. apply form_seconds. div_lia.
  - case_match.
    + eexists. change (text_of "0s") with (dec 0 ++ text_of "s"). apply form_zero; lia.
    + exists (opt_cap "s" s). replace [] with (part "s" s ++ []); [apply form_seconds; lia|].
      unfold part. by replace (0 <? s)%Z with false by lia.
Qed.

Lemma unit_next_dec us n c rest : c ∈ us → unit_next us (dec n ++ c :: rest).
Proof. intros. right. exists (dec n), c, rest. auto with hc. Qed.

Lemma form_unit_next s nsecs T f : seconds_form s nsecs T f → unit_next (text_of "s.num") T.
Proof.
  intros [Hn|u n scale Hu Hn E| |]; cbn [text_of].
  - apply unit_next_dec. in_list.
  - eapply unit_next_part; [done|]. char_cases Hu;
      apply unit_next_dec; in_list.
  - eapply unit_next_part; [done|]. by left.
  - apply unit_next_dec. in_list.
Qed.

Lemma seconds_match s T cap x :
  digit_next T →
  re_match (period_field "s" sec_re) T cap (λ s cap, re_match small_units s cap then_spaces) =
    re_match small_units T cap then_spaces →
  re_match small_units T (opt_cap "s" s cap) then_spaces = Some x →
  re_match seconds_re (part "s" s ++ T) cap then_spaces = Some x.
Proof.
  intros HT Hmiss Hx. unfold seconds_re. fold small_units. rewrite re_match_seq, seconds_field.
  - apply part_match; [done| |done..].
    intros. apply long_unit_hit; [in_list|done..].
  - unfold part. case_match; [|done].
    pose proof (dec_not_nil s). by destruct (dec_digits s).
Qed.

Lemma small_next us u scale n :
  (u, scale) ∈ [("ms", 1000000); ("us", 1000); ("ns", 1)]%Z → text_of "num" ⊆ us →
  unit_next us (dec n ++ text_of u).
Proof. intros Hu Hus. char_cases Hu; apply unit_next_dec, Hus; in_list. Qed.

Lemma tail_is_seconds T cap :
  unit_next (text_of "snum") T → T ≠ [] → tail T cap = re_match seconds_re T cap then_spaces.
Proof. intros [-> | (ds & c & rest & ? & ? & ? & ->)] ?; [done|]. by apply tail_seconds. Qed.

Lemma part_pos u n : (0 < n)%Z → part u n = dec n ++ text_of u.
Proof. intros. unfold part. by replace (0 <? n)%Z with true by lia. Qed.

Lemma form_tail s nsecs T f cap :
  (0 ≤ s)%Z → seconds_form s nsecs T f → tail T cap = Some (f cap).
Proof.
  intros Hs [Hn|u n scale Hu Hn E|Hn|Es Hn].
  - apply tail_fraction; auto using fraction_digits, fraction_not_nil with hc.
  - rewrite tail_is_seconds.
    + apply seconds_match.
      * eapply unit_next_digit, small_next; done.
      * pose proof (small_next (text_of "num") u scale n Hu (reflexivity _)). miss_units.
      * apply small_units_match; auto with hc. char_cases Hu; in_list.
    + eapply unit_next_part; [done|]. by eapply small_next.
    + by intros [_ [?%dec_not_nil _]%app_eq_nil]%app_eq_nil.
  - destruct (decide (s = 0%Z)) as [->|]; [reflexivity|].
    rewrite tail_is_seconds; [by apply seconds_match| |].
    + eapply unit_next_part; [done|]. by left.
    + rewrite part_pos by lia. by intros [[?%dec_not_nil _]%app_eq_nil _]%app_eq_nil.
  - reflexivity.
Qed.

Lemma form_minutes s nsecs T f cap :
  (0 ≤ s)%Z → seconds_form s nsecs T f →
  re_match (period_field "m" (long_unit_re "m" "in" "ute")) T cap tail = tail T cap.
Proof.
  intros Hs Hf.
  assert (unit_next (text_of "s.nu") T → 
    re_match (period_field "m" (long_unit_re "m" "in" "ute")) T cap tail = tail T cap) as Hmiss.
  { intros. miss_units. }
  destruct Hf as [Hn|u n scale Hu Hn E|Hn|Es Hn]; [apply Hmiss| |apply Hmiss..].
  - apply unit_next_dec. in_list.
  - destruct (decide (s = 0%Z)) as [->|].
    + char_cases Hu; [|apply Hmiss, unit_next_dec; in_list..].
      apply (field_miss _ _ (dec n)); [auto with hc|done|]. intros ds' cap' [|d ds'' Hd' _]; [done|].
      digit_cases d Hd'; reflexivity.
    + apply Hmiss. rewrite part_pos, <- app_assoc by lia. apply unit_next_dec. in_list.
  - destruct (decide (s = 0%Z)) as [->|]; [by left|].
    rewrite part_pos, <- app_assoc by lia. apply unit_next_dec. in_list.
  - apply unit_next_dec. in_list.
Qed.

(** The whole expression on a printed period. *)
Lemma printed_captures y w d h m s nsecs T f :
  (0 ≤ s)%Z → seconds_form s nsecs T f →
  re_captures PERIOD_RE
    (part "y" y ++ part "w" w ++ part "d" d ++ part "h" h ++ part "m" m ++ T) =
  Some (f (opt_cap "m" m (opt_cap "h" h (opt_cap "d" d (opt_cap "w" w (opt_cap "y" y [])))))).
Proof.
  intros Hs Hf. pose proof (form_unit_next _ _ _ _ Hf) as HT.
  pose proof (unit_next_part _ "m" _ m _ eq_refl HT) as Hm.
  pose proof (unit_next_part _ "h" _ h _ eq_refl Hm) as Hh.
  pose proof (unit_next_part _ "d" _ d _ eq_refl Hh) as Hd.
  pose proof (unit_next_part _ "w" _ w _ eq_refl Hd) as Hw.
  unfold re_captures, PERIOD_RE. fold at_end.
  do 4 short_field.
  rewrite re_match_seq. fold tail. apply part_match;
    [done|intros; apply long_unit_hit; [in_list|by eapply unit_next_digit|done]| |].
  { by eapply form_minutes. }
  by eapply form_tail.
Qed.
End tail.

(** ** The fields are added up *)

Section sums.
Variable checks : bool.

Lemma u64_arith_small z : (z < 2 ^ 64)%Z → u64_arith checks z = Ret z.
Proof. intros. unfold u64_arith. case_match; [done|lia]. Qed.

Lemma add_scaled_small a scale n :
  (0 ≤ a)%Z → (0 ≤ scale * n)%Z → (a + scale * n < 2 ^ 64)%Z →
  add_scaled checks (Ret (Ok a)) scale (Ok n) = Ret (Ok (a + scale * n)%Z).
Proof.
  intros. unfold add_scaled. unfold_monads.
  by rewrite !u64_arith_small by (try rewrite u64_arith_small; lia).
Qed.

Lemma number_dec n what : (0 ≤ n < 2 ^ 64)%Z → period_number (dec n) what = Ok n.
Proof. intros. unfold period_number. by rewrite parse_dec. Qed.

Lemma number_fraction n what :
  (0 ≤ n < 1000000000)%Z → period_number (pad_right 9 (fraction n)) what = Ok n.
Proof. intros. unfold period_number. by rewrite parse_fraction. Qed.

Lemma cap_name_opt name n cap name' :
  cap_name (opt_cap name n cap) name' =
  if (0 <? n)%Z && String.eqb name name' then Some (dec n) else cap_name cap name'.
Proof. unfold opt_cap. by case_match. Qed.

Lemma number_opt n o what :
  (0 ≤ n < 2 ^ 64)%Z → o = None ∨ o = Some (dec n) → (o = None → n = 0%Z) →
  period_number (default (text_of "0") o) what = Ok n.
Proof.
  intros Hn [-> | ->] H0; [|by apply number_dec].
  rewrite H0 by done. change (default (text_of "0") None) with (dec 0). by apply number_dec.
Qed.

Definition field_caps (y w d h m : Z) : captures :=
  opt_cap "m" m (opt_cap "h" h (opt_cap "d" d (opt_cap "w" w (opt_cap "y" y [])))).


Lemma field_caps_get y w d h m name n :
  (name, n) ∈ [("y", y); ("w", w); ("d", d); ("h", h); ("m", m)] →
  cap_name (field_caps y w d h m) name = if (0 <? n)%Z then Some (dec n) else None.
Proof.
  intros Hn. unfold field_caps. char_cases Hn; rewrite !cap_name_opt; cbn;
    rewrite ?andb_false_r, ?andb_true_r; by case_match.
Qed.

Lemma field_caps_fresh y w d h m name :
  name ∈ ["s"; "s_man"; "s_fra"; "ms"; "us"; "ns"] →
  cap_name (field_caps y w d h m) name = None.
Proof.
  intros Hn. unfold field_caps. char_cases Hn; rewrite !cap_name_opt; cbn;
    by rewrite !andb_false_r.
Qed.

Lemma nanos_sum cap fra ms us ns :
  match cap_name cap "s_fra" with
  | Some s_fra => period_number (pad_right 9 s_fra) "fractional seconds"
  | None => Ok 0%Z
  end = Ok fra →
  period_number (cap_or_zero cap "ms") "milliseconds" = Ok ms →
  period_number (cap_or_zero cap "us") "microseconds" = Ok us →
  period_number (cap_or_zero cap "ns") "nanoseconds" = Ok ns →
  (0 ≤ fra)%Z → (0 ≤ ms)%Z → (0 ≤ us)%Z → (0 ≤ ns)%Z →
  (fra + 1000000 * ms + 1000 * us + 1 * ns < 2 ^ 64)%Z →
  period_nanos checks cap = Ret (Ok (fra + 1000000 * ms + 1000 * us + 1 * ns)%Z).
Proof.
  intros E1 E2 E3 E4 ?????. unfold period_nanos. rewrite E1, E2, E3, E4.
  by rewrite !add_scaled_small by lia.
Qed.

Lemma seconds_sum cap y w d h m s :
  (∀ name n what, (name, n) ∈ [("y", y); ("w", w); ("d", d); ("h", h); ("m", m)] →
     period_number (cap_or_zero cap name) what = Ok n) →
  period_number (match cap_name cap "s" with
                 | Some s => s
                 | None => cap_or_zero cap "s_man"
                 end) "seconds" = Ok s →
  (0 ≤ y)%Z → (0 ≤ w)%Z → (0 ≤ d)%Z → (0 ≤ h)%Z → (0 ≤ m)%Z → (0 ≤ s)%Z →
  (YR * y + WK * w + DY * d + HR * h + MN * m + s < 2 ^ 64)%Z →
  period_seconds checks cap = Ret (Ok (YR * y + WK * w + DY * d + HR * h + MN * m + s)%Z).
Proof.
  intros Hn Es ???????. unfold period_seconds. rewrite Es.
  rewrite (Hn "y" y), (Hn "w" w), (Hn "d" d), (Hn "h" h), (Hn "m" m) by in_list.
  unfold YR, WK, DY, HR, MN in *. rewrite !add_scaled_small by lia. do 2 f_equal. lia.
Qed.

Context (s nsecs : Z) (T : text) (f : captures → captures) (Hf : seconds_form s nsecs T f).
Context (Hs : (0 ≤ s < 60)%Z) (Hnsecs : (0 ≤ nsecs < 1000000000)%Z).

Lemma form_keeps cap name :
  name ∈ ["y"; "w"; "d"; "h"; "m"] → cap_name (f cap) name = cap_name cap name.
Proof.
  intros Hn. destruct Hf as [?|u n scale Hu ? ?| |]; [|char_cases Hu| |];
    char_cases Hn; cbn; rewrite ?cap_name_opt; cbn; by rewrite ?andb_false_r.
Qed.

Lemma form_number y w d h m name n what :
  (name, n) ∈ [("y", y); ("w", w); ("d", d); ("h", h); ("m", m)] → (0 ≤ n < 2 ^ 64)%Z →
  period_number (cap_or_zero (f (field_caps y w d h m)) name) what = Ok n.
Proof.
  intros Hn Hb. unfold cap_or_zero. rewrite form_keeps.
  - rewrite (field_caps_get _ _ _ _ _ _ n) by done. apply number_opt; [done|case_match; auto|].
    case_match; [done|]. lia.
  - char_cases Hn; in_list.
Qed.

Lemma opt_seconds_number cap what :
  cap_name cap "s" = None → cap_name cap "s_man" = None →
  period_number (match cap_name (opt_cap "s" s cap) "s" with
                 | Some s => s
                 | None => cap_or_zero (opt_cap "s" s cap) "s_man"
                 end) what = Ok s.
Proof.
  intros E1 E2. unfold cap_or_zero, opt_cap.
  destruct (0 <? s)%Z eqn:E; cbn; [apply number_dec; lia|].
  rewrite E1, E2. replace s with 0%Z by lia. done.
Qed.

Lemma form_seconds_number cap what :
  cap_name cap "s" = None → cap_name cap "s_man" = None →
  period_number (match cap_name (f cap) "s" with
                 | Some s => s
                 | None => cap_or_zero (f cap) "s_man"
                 end) what = Ok s.
Proof.
  intros E1 E2. destruct Hf as [?|u n scale Hu ? ?| |Es ?].
  - cbn. rewrite E1. apply number_dec. lia.
  - char_cases Hu; by apply opt_seconds_number.
  - by apply opt_seconds_number.
  - rewrite Es. by apply number_dec.
Qed.

Lemma form_nanos cap :
  (∀ name, name ∈ ["s_fra"; "ms"; "us"; "ns"] → cap_name cap name = None) →
  period_nanos checks (f cap) = Ret (Ok nsecs).
Proof.
  intros Hc. pose proof (Hc "s_fra" ltac:(in_list)) as E1. pose proof (Hc "ms" ltac:(in_list)) as E2.
  pose proof (Hc "us" ltac:(in_list)) as E3. pose proof (Hc "ns" ltac:(in_list)) as E4.
  destruct Hf as [?|u n scale Hu ? ?| |]; [|char_cases Hu| |].
  - erewrite (nanos_sum _ nsecs 0 0 0); [do 2 f_equal; lia|by apply number_fraction|..];
      try lia; unfold cap_or_zero; cbn; by rewrite ?E2, ?E3, ?E4.
  - erewrite (nanos_sum _ 0 n 0 0); [do 2 f_equal; lia|..]; try lia;
      unfold cap_or_zero; cbn; rewrite ?cap_name_opt; cbn; rewrite ?andb_false_r, ?E1, ?E3, ?E4;
      try done. apply number_dec. lia.
  - erewrite (nanos_sum _ 0 0 n 0); [do 2 f_equal; lia|..]; try lia;
      unfold cap_or_zero; cbn; rewrite ?cap_name_opt; cbn; rewrite ?andb_false_r, ?E1, ?E2, ?E4;
      try done. apply number_dec. lia.
  - erewrite (nanos_sum _ 0 0 0 n); [do 2 f_equal; lia|..]; try lia;
      unfold cap_or_zero; cbn; rewrite ?cap_name_opt; cbn; rewrite ?andb_false_r, ?E1, ?E2, ?E3;
      try done. apply number_dec. lia.
  - erewrite (nanos_sum _ 0 0 0 0); [do 2 f_equal; lia|..]; try lia;
      unfold cap_or_zero; rewrite ?cap_name_opt; cbn; rewrite ?andb_false_r, ?E1, ?E2, ?E3, ?E4;
      done.
  - erewrite (nanos_sum _ 0 0 0 0); [do 2 f_equal; lia|..]; try lia;
      unfold cap_or_zero; cbn; rewrite ?E1, ?E2, ?E3, ?E4; done.
Qed.
End sums.

(** ** Theorems *)

Section theorems.
Context `{UnicodeLaws}.

(** C21: Every period is read back from its printed form.  For each number of seconds
    of 64 bits and each number of nanoseconds, [Period::from_str] of what [Display]
    writes finds that duration again, whichever units the printer chose, and with
    no overflow in either kind of build. *)
Theorem period_roundtrip checks p :
  duration_wf p → Period_from_str checks (fmt p) = Ret (Ok p).
Proof.
  destruct p as [secs nsecs]. intros [Hsecs Hn]. cbn in Hsecs, Hn.
  unfold fmt. cbn [as_secs subsec_nanos].
  set (y := (secs / YR)%Z). set (w := (secs mod YR / WK)%Z).
  set (d := (secs mod YR mod WK / DY)%Z). set (h := (secs mod YR mod WK mod DY / HR)%Z).
  set (m := (secs mod YR mod WK mod DY mod HR / MN)%Z).
  set (s := (secs mod YR mod WK mod DY mod HR mod MN)%Z).
  assert (0 ≤ y ∧ 0 ≤ w ∧ 0 ≤ d ∧ 0 ≤ h ∧ 0 ≤ m ∧ 0 ≤ s < 60 ∧
          YR * y + WK * w + DY * d + HR * h + MN * m + s = secs)%Z
    as (? & ? & ? & ? & ? & Hs & E).
  { subst y w d h m s. unfold YR, WK, DY, HR, MN. div_lia. }
  clearbody y w d h m s. destruct (fmt_seconds_form secs s nsecs ltac:(lia) Hn) as [f Hf].
  unfold Period_from_str. rewrite (printed_captures y w d h m s nsecs _ _ ltac:(lia) Hf).
  fold (field_caps y w d h m). unfold period_of_captures.
  rewrite (seconds_sum _ _ y w d h m s); [|..|rewrite E; lia]; try lia.
  - rewrite E. unfold_monads. rewrite (form_nanos _ _ _ _ _ Hf Hn).
    + rewrite u64_arith_small by (unfold YR, WK, DY, HR, MN in *; div_lia).
      do 3 f_equal; div_lia.
    + intros name Hname. apply field_caps_fresh. char_cases Hname; in_list.
  - intros name n what Hname. eapply form_number; [done..|]. unfold YR, WK, DY, HR, MN in *.
    char_cases Hname; lia.
  - by eapply form_seconds_number; [..|apply field_caps_fresh; in_list|apply field_caps_fresh; in_list].
Qed.

(** The zone sign is a range of characters, not one of three: any ASCII character above
    the full stop in its place makes the offset negative. *)
Theorem any_zone_sign c :
  (46 < c < 128)%Z →
  iso_timestamp <$> re_captures ISO8601_RE
    (text_of "2019-05-05T00:00:00" ++ c :: text_of "05:30") =
  Some (text_of "2019-05-05T00:00:00-05:30").
Proof.
  intros Hc.
  assert (forallb (λ c, bool_decide
    (iso_timestamp <$> re_captures ISO8601_RE
       (text_of "2019-05-05T00:00:00" ++ c :: text_of "05:30") =
     Some (text_of "2019-05-05T00:00:00-05:30"))) (seqZ 47 81) = true) as Hall by by vm_compute.
  rewrite forallb_forall in Hall. eapply bool_decide_eq_true, Hall.
  apply list_elem_of_In, elem_of_seqZ. lia.
Qed.

(** A year and three digits are a year with a zone. *)
Theorem year_with_zone :
  iso_timestamp <$> re_captures ISO8601_RE (text_of "2018123") =
  Some (text_of "2018-01-01T00:00:00-23:00").
Proof. by vm_compute. Qed.

(** Inputs on which the expression for periods differs from its documentation: the
    short units for micro- and nanoseconds are not accepted, a colon before the
    seconds and the empty text are. *)
Theorem period_inputs checks :
  is_ok <$> Period_from_str checks (text_of "5u") = Ret false ∧
  is_ok <$> Period_from_str checks (text_of "5n") = Ret false ∧
  Period_from_str checks (text_of "5m:30s") =
    Ret (Ok {| as_secs := 330; subsec_nanos := 0 |}) ∧
  Period_from_str checks [] = Ret (Ok {| as_secs := 0; subsec_nanos := 0 |}).
Proof.
  unfold Period_from_str, re_captures, PERIOD_RE, seconds_re.
  change (fold_case 956) with (wide_fold 956). rewrite mu_folds.
  split_and!; by vm_compute.
Qed.

(** A number of years that is too large is not an error: it panics in a build with
    overflow checks and is another period in one without. *)
Theorem too_many_years :
  Period_from_str true (text_of "584542046091y") = Panic ∧
  Period_from_str false (text_of "584542046091y") =
    Ret (Ok {| as_secs := 11789984; subsec_nanos := 0 |}).
Proof. by vm_compute. Qed.
End theorems.

#[local] Instance ascii_only : Unicode :=
  {| wide_digit _ := false; wide_space _ := false; wide_fold c := c |}.

#[local] Instance ascii_only_laws : UnicodeLaws.
Proof. by constructor. Qed.

Lemma period_roundtrip_witness :
  Period_from_str true (fmt {| as_secs := 18446744073709551615; subsec_nanos := 999999999 |}) =
  Ret (Ok {| as_secs := 18446744073709551615; subsec_nanos := 999999999 |}).
Proof. apply period_roundtrip. unfold duration_wf. cbn. lia. Defined.

(** The milliseconds of a period. *)
Definition as_millis (p : Period) : Z := (as_secs p * 1000 + subsec_nanos p / 1000000)%Z.

(** The conversion of a period to a timeout does not overflow and never makes the
    wait shorter than what a [usize] can hold of it: as long as the seconds fit in
    a [usize], the timeout is within it and at least the milliseconds of the
    period or the largest [usize], whichever is less.  Below the last second it
    is the exact number of milliseconds, and as a [Duration] again it is the
    period without its micro- and nanoseconds. *)
Theorem timeout_bounds width p :
  (10 ≤ width)%Z → duration_wf p → (as_secs p < 2 ^ width)%Z →
  (Z.min (as_millis p) (usize_max width) ≤ Timeout_from width p ≤ usize_max width)%Z ∧
  ((as_secs p < usize_max width / 1000)%Z →
   Timeout_from width p = as_millis p ∧
   Duration_from_timeout (Timeout_from width p) =
     {| as_secs := as_secs p;
        subsec_nanos := (subsec_nanos p / 1000000 * 1000000)%Z |}).
Proof.
  destruct p as [secs nsecs]. intros Hw [Hs Hn] Hfit. cbn [as_secs subsec_nanos] in *.
  unfold Timeout_from, as_millis, usize_wrap. cbn [as_secs subsec_nanos].
  rewrite Z.mod_small by lia.
  assert (0 ≤ nsecs / 1000000 < 1000)%Z by div_lia.
  set (ms := (nsecs / 1000000)%Z) in *. clearbody ms.
  pose proof (Z.mul_div_le (usize_max width) 1000 ltac:(lia)).
  destruct (Z.leb_spec (usize_max width / 1000) secs); split; try lia.
  intros _. split; [done|]. unfold Duration_from_timeout. f_equal; div_lia.
Qed.

Lemma timeout_bounds_witness :
  Timeout_from 32 {| as_secs := 4294966; subsec_nanos := 999999999 |} = 4294966999%Z ∧
  (Z.min 4294967000 (usize_max 32) ≤
     Timeout_from 32 {| as_secs := 4294967; subsec_nanos := 0 |} ≤ usize_max 32)%Z.
Proof.
  split.
  - by apply (timeout_bounds 32 {| as_secs := 4294966; subsec_nanos := 999999999 |}).
  - by apply (timeout_bounds 32 {| as_secs := 4294967; subsec_nanos := 0 |}).
Defined.

(** On a target of 32 bits the seconds are truncated before they are compared: a
    period of [2 ^ 32] seconds, some 136 years, is no wait at all. *)
Theorem long_timeout_is_zero :
  Timeout_from 32 {| as_secs := 2 ^ 32; subsec_nanos := 0 |} = 0%Z ∧
  Timeout_from 64 {| as_secs := 2 ^ 32; subsec_nanos := 0 |} = 4294967296000%Z.
Proof. by vm_compute. Qed.
