(* ===== verification/Lib3h.v ===== *)
(** * The messages of lib3h

    The messages with which the core, the network workers, the switchboard and
    the network in memory talk to each other, as [lib3h_protocol] defines them,
    with the fields that the code of the repository reads; what it passes on
    unread is text.  Addresses and keys are strings. *)

From S2P Require Import Prelude.

(** ** Data *)

Record SpaceData : Type := { sd_space_address : string; sd_agent_id : string }.
Record DirectMessageData : Type := {
  dm_space_address : string; dm_request_id : string; dm_to_agent_id : string;
  dm_from_agent_id : string; dm_content : string }.
Record EntryAspectData : Type := { aspect_address : string; aspect_content : string }.
Record ProvidedEntryData : Type := {
  pe_space_address : string; pe_provider_agent_id : string; pe_entry_address : string;
  pe_aspect_list : list EntryAspectData }.
Record EntryListData : Type := {
  el_space_address : string; el_provider_agent_id : string; el_request_id : string;
  el_address_map : list (string * list string) }.
Record FetchEntryResultData : Type := {
  fr_space_address : string; fr_provider_agent_id : string; fr_request_id : string;
  fr_entry_address : string; fr_aspect_list : list EntryAspectData }.
Record QueryEntryData : Type := {
  qe_space_address : string; qe_request_id : string; qe_requester_agent_id : string;
  qe_entry_address : string; qe_query : string }.
Record QueryEntryResultData : Type := {
  qr_space_address : string; qr_request_id : string; qr_requester_agent_id : string;
  qr_responder_agent_id : string; qr_entry_address : string; qr_result : string }.

(** ** Between a client and the switchboard *)

Inductive ClientToLib3h : Type :=
| ClientToLib3h_JoinSpace (data : SpaceData)
| ClientToLib3h_LeaveSpace (data : SpaceData)
| ClientToLib3h_SendDirectMessage (data : DirectMessageData)
| ClientToLib3h_PublishEntry (data : ProvidedEntryData)
| ClientToLib3h_QueryEntry (data : QueryEntryData)
| ClientToLib3h_Other.

Inductive Lib3hToClient : Type :=
| Lib3hToClient_HandleGetGossipingEntryList (space_address provider_agent_id : string)
| Lib3hToClient_HandleGetAuthoringEntryList (space_address provider_agent_id : string)
| Lib3hToClient_HandleSendDirectMessage (data : DirectMessageData)
| Lib3hToClient_SendDirectMessageResult (data : DirectMessageData)
| Lib3hToClient_HandleStoreEntryAspect (space_address provider_agent_id entry_address : string)
    (entry_aspect : EntryAspectData)
| Lib3hToClient_HandleFetchEntry (space_address provider_agent_id entry_address : string)
    (aspect_address_list : option (list string))
| Lib3hToClient_HandleQueryEntry (data : QueryEntryData).

Inductive Lib3hToClientResponse : Type :=
| Lib3hToClientResponse_HandleSendDirectMessageResult (data : DirectMessageData)
| Lib3hToClientResponse_HandleGetAuthoringEntryListResult (data : EntryListData)
| Lib3hToClientResponse_HandleGetGossipingEntryListResult (data : EntryListData)
| Lib3hToClientResponse_HandleFetchEntryResult (data : FetchEntryResultData)
| Lib3hToClientResponse_HandleQueryEntryResult (data : QueryEntryResultData)
| Lib3hToClientResponse_Other.

Inductive ClientToLib3hResponse : Type :=
| ClientToLib3hResponse_SendDirectMessageResult (data : DirectMessageData)
| ClientToLib3hResponse_QueryEntryResult (data : QueryEntryResultData)
| ClientToLib3hResponse_Other.

(** ** Between the core and a network worker *)

Record GenericResultData : Type := {
  gr_request_id : string; gr_space_address : string; gr_to_agent_id : string;
  gr_result_info : string }.

Inductive Lib3hClientProtocol : Type :=
| Lib3hClientProtocol_SuccessResult (data : GenericResultData)
| Lib3hClientProtocol_Connect (request_id : string)
| Lib3hClientProtocol_JoinSpace (data : SpaceData)
| Lib3hClientProtocol_LeaveSpace (data : SpaceData)
| Lib3hClientProtocol_SendDirectMessage (data : DirectMessageData)
| Lib3hClientProtocol_HandleSendDirectMessageResult (data : DirectMessageData)
| Lib3hClientProtocol_FetchEntry
| Lib3hClientProtocol_HandleFetchEntryResult (data : FetchEntryResultData)
| Lib3hClientProtocol_PublishEntry (data : ProvidedEntryData)
| Lib3hClientProtocol_QueryEntry (data : QueryEntryData)
| Lib3hClientProtocol_HandleQueryEntryResult (data : QueryEntryResultData)
| Lib3hClientProtocol_HandleGetAuthoringEntryListResult (data : EntryListData)
| Lib3hClientProtocol_HandleGetGossipingEntryListResult (data : EntryListData)
| Lib3hClientProtocol_Shutdown.

Inductive Lib3hServerProtocol : Type :=
| Lib3hServerProtocol_SuccessResult (data : GenericResultData)
| Lib3hServerProtocol_FailureResult (data : GenericResultData)
| Lib3hServerProtocol_HandleSendDirectMessage (data : DirectMessageData)
| Lib3hServerProtocol_SendDirectMessageResult (data : DirectMessageData)
| Lib3hServerProtocol_HandleStoreEntryAspect (request_id space_address provider_agent_id
    entry_address : string) (entry_aspect : EntryAspectData)
| Lib3hServerProtocol_HandleFetchEntry (space_address entry_address request_id
    provider_agent_id : string) (aspect_address_list : option (list string))
| Lib3hServerProtocol_HandleQueryEntry (data : QueryEntryData)
| Lib3hServerProtocol_QueryEntryResult (data : QueryEntryResultData)
| Lib3hServerProtocol_HandleGetAuthoringEntryList (request_id provider_agent_id space_address : string)
| Lib3hServerProtocol_HandleGetGossipingEntryList (request_id provider_agent_id space_address : string)
| Lib3hServerProtocol_P2pReady
| Lib3hServerProtocol_Terminated
| Lib3hServerProtocol_Other (text : string).
