(* ===== verification/Sim2h.v ===== *)
(** * The switchboard

    Models the state of sim2h, the server through which the nodes of a network
    exchange messages: [src/crates/sim2h/src/sim2h_im_state.rs] (spaces,
    connections, who holds what), [naive_sharding.rs] (who should hold what) and
    the decisions of [lib.rs] (the handling of a payload and of each message).

    Hashes, agents and addresses are strings; the shared references to them
    ([MonoRef]) are their values.  Locations come from the class [Locations], which
    stands for the functions of lib3h and hcid; 64-bit floats are those of the
    standard library's [SpecFloat].  Times (in milliseconds), random numbers and the order of a
    shuffle are arguments.  The store is changed by the entries of a log, one at
    a time; handlers read copies of it, and their tasks can run at any later
    time: they are functions of the copy they read to the effects they have.

    The theorems: the maps of a space stay in step under all log entries; the two
    computations of what an agent lacks agree; whom a query can be sent to;
    messages stay within the space of their sender; and what joining does not
    check. *)

From S2P Require Import Prelude Errors Lib3h.
From Stdlib Require Import SpecFloat.

Local Open Scope string_scope.

(** ** naive_sharding.rs *)

(** [calc_location_for_id], the base32 encoding of a hash, the distance between
    locations, and its greatest value. *)
Class Locations : Type := {
  calc_location_for_id : string → option Z;
  hcs0_of_sha256 : string → string;
  forward_distance_to : Z → Z → Z;
  ARC_LENGTH_MAX : Z;
}.

(** [as f64], products and quotients, and [as u32] and [as u64], which round
    towards zero and saturate. *)
Definition f64_of (z : Z) : spec_float := binary_normalize 53 1024 z 0 false.
Definition f64_div : spec_float → spec_float → spec_float := SFdiv 53 1024.
Definition f64_mul : spec_float → spec_float → spec_float := SFmul 53 1024.

Definition f64_to (max : Z) (f : spec_float) : Z :=
  match f with
  | S754_nan | S754_zero _ | S754_infinity true | S754_finite true _ _ => 0%Z
  | S754_infinity false => max
  | S754_finite false m e => Z.min max (Z.shiftl (Z.pos m) e)
  end.
Definition f64_to_u32 : spec_float → Z := f64_to (2 ^ 32 - 1).
Definition f64_to_u64 : spec_float → Z := f64_to (2 ^ 64 - 1).

Section sharding.
Context `{Locations}.

Definition anything_to_location (anything : string) : Outcome Z :=
  match calc_location_for_id anything with
  | Some loc => Ret loc
  | None => unwrap (calc_location_for_id (hcs0_of_sha256 anything))
  end.

Definition naive_sharding_should_store (agent_loc data_addr_loc : Z) (node_count redundant_count : Z) :
    bool :=
  if Z.leb node_count redundant_count then true
  else
    let dist := f64_div (f64_of ARC_LENGTH_MAX) (f64_div (f64_of node_count) (f64_of redundant_count)) in
    Z.ltb (forward_distance_to agent_loc data_addr_loc) (f64_to_u32 dist).

(** ** sim2h_im_state.rs *)

Definition should_store (agent_loc entry_loc : Z) (agent_count redundancy : Z) : bool :=
  if Z.eqb redundancy 0 then true
  else naive_sharding_should_store agent_loc entry_loc agent_count redundancy.
End sharding.

Record ConnectionState : Type := {
  con_agent_id : string;
  agent_loc : Z;
  con_uri : string;
  next_gossip_check : Z;
}.

Record EntryInfo : Type := {
  info_entry_hash : string;
  entry_loc : Z;
  aspects : gmap string (gset string);
}.

(** The map of all aspects has equal keys and values. *)
Record Space : Type := {
  redundancy : Z;
  all_aspects : gset string;
  entry_to_all_aspects : gmap string EntryInfo;
  connections : gmap string ConnectionState;
  uri_to_connection : gmap string string;
  disconnect_uri : list string;
  gossip_interval : Z;
}.

Record Store : Type := {
  store_redundancy : Z;
  spaces : gmap string Space;
  store_gossip_interval : Z;
}.

Definition AGENT_FETCH_ASPECTS_INTERVAL_MS : Z := 5000.

Definition Space_new (redundancy gossip_interval : Z) : Space :=
  {| redundancy := redundancy; all_aspects := ∅; entry_to_all_aspects := ∅; connections := ∅;
     uri_to_connection := ∅; disconnect_uri := []; gossip_interval := gossip_interval |}.

Definition Store_new (redundancy : Z) (gossip_interval : option Z) : Store :=
  {| store_redundancy := redundancy; spaces := ∅;
     store_gossip_interval := default AGENT_FETCH_ASPECTS_INTERVAL_MS gossip_interval |}.

Definition set_entries (self : Space) (entries : gmap string EntryInfo) (all : gset string) : Space :=
  {| redundancy := redundancy self; all_aspects := all; entry_to_all_aspects := entries;
     connections := connections self; uri_to_connection := uri_to_connection self;
     disconnect_uri := disconnect_uri self; gossip_interval := gossip_interval self |}.

Definition set_connections (self : Space) (cons : gmap string ConnectionState)
    (uris : gmap string string) (disconnect : list string) : Space :=
  {| redundancy := redundancy self; all_aspects := all_aspects self;
     entry_to_all_aspects := entry_to_all_aspects self; connections := cons;
     uri_to_connection := uris; disconnect_uri := disconnect;
     gossip_interval := gossip_interval self |}.

Definition set_spaces (self : Store) (s : gmap string Space) : Store :=
  {| store_redundancy := store_redundancy self; spaces := s;
     store_gossip_interval := store_gossip_interval self |}.

(** [thread_rng().gen_range(low, high)]: panics on an empty range; [random] is
    brought into the range. *)
Definition gen_range (random low high : Z) : Outcome Z :=
  if Z.ltb low high then Ret (low + random mod (high - low))%Z else Panic.

(** [(gossip_interval as f64 * quarters / 4) as u64]; the factors are exact. *)
Definition interval_part (interval quarters : Z) : Z :=
  f64_to_u64 (f64_mul (f64_of interval) (binary_normalize 53 1024 quarters (-2) false)).

Section spaces.
Context `{Locations}.

Definition entry_location (entry_hash : string) : Outcome Z := anything_to_location entry_hash.

Definition agent_count (self : Space) : Z := Z.of_nat (size (connections self)).

Definition get_entry_location (self : Space) (entry_hash : string) : Outcome Z :=
  match entry_to_all_aspects self !! entry_hash with
  | Some entry => Ret (entry_loc entry)
  | None => entry_location entry_hash
  end.

Definition get_agents_that_should_hold_entry (self : Space) (entry_hash : string) :
    Outcome (gset string) :=
  if Z.eqb (redundancy self) 0 then Ret (dom (connections self))
  else
    entry_loc ← get_entry_location self entry_hash;
    Ret (dom (filter (λ '(_, con), should_store (agent_loc con) entry_loc (agent_count self)
                                     (redundancy self) = true) (connections self))).

(** The agents that hold all the aspects of a non-empty map. *)
Definition get_agents_holding_entry (self : Space) (entry_hash : string) : gset string :=
  match entry_to_all_aspects self !! entry_hash with
  | None => ∅
  | Some entry =>
      match (map_to_list (aspects entry)).*2 with
      | [] => ∅
      | holding :: rest => fold_left (λ remaining h, remaining ∩ h) rest holding
      end
  end.

Definition get_agents_that_need_aspect (self : Space) (entry_hash aspect_hash : string) :
    Outcome (gset string) :=
  match entry_to_all_aspects self !! entry_hash with
  | None => Ret ∅
  | Some entry =>
      match aspects entry !! aspect_hash with
      | None => Ret ∅
      | Some holding => agents ← get_agents_that_should_hold_entry self entry_hash; Ret (agents ∖ holding)
      end
  end.

(** The keys of the result are the entries' own hashes. *)
Definition get_gossip_aspects_needed_for_agent (self : Space) (agent_id : string) :
    gmap string (gset string) :=
  match connections self !! agent_id with
  | None => ∅
  | Some c =>
      list_to_map ((λ '(_, entry), (info_entry_hash entry,
        dom (filter (λ '(_, holding), agent_id ∉ holding) (aspects entry)))) <$>
        filter (λ '(_, entry), should_store (agent_loc c) (entry_loc entry) (agent_count self)
                                 (redundancy self) = true) (map_to_list (entry_to_all_aspects self)))
  end.

Definition clear_holding (self : Space) (agent_id : string) : Space :=
  set_entries self
    ((λ entry, {| info_entry_hash := info_entry_hash entry; entry_loc := entry_loc entry;
                  aspects := (λ holding, holding ∖ {[agent_id]}) <$> aspects entry |}) <$>
       entry_to_all_aspects self) (all_aspects self).

(** An agent without a location is not connected. *)
Definition check_insert_connection (now random : Z) (self : Space) (agent_id uri : string) :
    Outcome Space :=
  match calc_location_for_id agent_id with
  | None => Ret self
  | Some loc =>
      to_add ← gen_range random 10 (interval_part (gossip_interval self) 1 + 10);
      let con := {| con_agent_id := agent_id; agent_loc := loc; con_uri := uri;
                    next_gossip_check := (now + to_add)%Z |} in
      let '(uris, disconnect) :=
        match connections self !! agent_id with
        | None => (uri_to_connection self, disconnect_uri self)
        | Some old => (delete (con_uri old) (uri_to_connection self),
                       (disconnect_uri self ++ [con_uri old])%list)
        end in
      Ret (clear_holding (set_connections self (<[agent_id := con]> (connections self))
                            (<[uri := agent_id]> uris) disconnect) agent_id)
  end.

Definition priv_check_insert_entry_hash (self : Space) (entry_hash : string) : Outcome Space :=
  match entry_to_all_aspects self !! entry_hash with
  | Some _ => Ret self
  | None =>
      entry_loc ← entry_location entry_hash;
      Ret (set_entries self (<[entry_hash := {| info_entry_hash := entry_hash;
                                                entry_loc := entry_loc; aspects := ∅ |}]>
                               (entry_to_all_aspects self)) (all_aspects self))
  end.

(** The holding sets of an entry after an agent reported aspects. *)
Definition add_holding (agent_id : string) (new : gset string) (entry : EntryInfo) : EntryInfo :=
  {| info_entry_hash := info_entry_hash entry; entry_loc := entry_loc entry;
     aspects := set_fold (λ a m, <[a := {[agent_id]} ∪ default ∅ (m !! a)]> m) (aspects entry) new |}.

Definition agent_holds_aspects (self : Space) (agent_id entry_hash : string) (new : gset string) :
    Outcome Space :=
  self ← priv_check_insert_entry_hash self entry_hash;
  Ret (set_entries self (alter (add_holding agent_id new) entry_hash (entry_to_all_aspects self))
         (all_aspects self ∪ new)).
End spaces.

(** The clock, and a random number for each agent. *)
Record Chance : Type := {
  now : Z;
  random : string → Z;
}.

(** [AolEntry], without the positions in the log and the channels for answers. *)
Inductive AolEntry : Type :=
| AolEntry_NewConnection (space_hash agent_id uri : string)
| AolEntry_DropConnectionByUri (uri : string)
| AolEntry_AgentHoldsAspects (space_hash agent_id entry_hash : string) (aspects : gset string)
| AolEntry_CheckGossip
| AolEntry_CheckDisconnected.

(** What is sent back over the channels of an entry. *)
Inductive AolResponse : Type :=
| AolResponse_None
| AolResponse_Gossip (spaces : gmap string (gset string))
| AolResponse_Disconnected (uris : list string).

Section store.
Context `{Locations} (chance : Chance).

(** The agents whose check is due get a new time for the next one. *)
Definition Space_check_gossip (self : Space) : Outcome (Space * gset string) :=
  let due := filter (λ '(_, con), (next_gossip_check con ≤ now chance)%Z) (connections self) in
  let low := interval_part (gossip_interval self) 3 in
  let high := interval_part (gossip_interval self) 5 in
  if decide (due = ∅) then Ret (self, ∅)
  else if Z.ltb low high then
    Ret (set_connections self
           (map_imap (λ a con, Some
              (if decide (is_Some (due !! a)) then
                 {| con_agent_id := con_agent_id con; agent_loc := agent_loc con;
                    con_uri := con_uri con;
                    next_gossip_check := (now chance + (low + random chance a mod (high - low)))%Z |}
               else con)) (connections self))
           (uri_to_connection self) (disconnect_uri self),
         list_to_set ((λ '(_, con), con_agent_id con) <$> map_to_list due))
  else Panic.

Definition get_space (self : Store) (space_hash : string) : option Space := spaces self !! space_hash.

(** [get_space_mut]: the space, which is created if it does not exist. *)
Definition get_space_mut (self : Store) (space_hash : string) : Space :=
  default (Space_new (store_redundancy self) (store_gossip_interval self)) (spaces self !! space_hash).

Definition new_connection (self : Store) (space_hash agent_id uri : string) : Outcome Store :=
  space ← check_insert_connection (now chance) (random chance agent_id)
            (get_space_mut self space_hash) agent_id uri;
  Ret (set_spaces self (<[space_hash := space]> (spaces self))).

Definition drop_connection_inner (space : Space) (agent_id : string) : Space :=
  let space := clear_holding space agent_id in
  match connections space !! agent_id with
  | None => space
  | Some con => set_connections space (delete agent_id (connections space))
                  (delete (con_uri con) (uri_to_connection space)) (disconnect_uri space)
  end.

Definition check_drop_spaces (self : Store) : Store :=
  set_spaces self (filter (λ '(_, space), connections space ≠ ∅) (spaces self)).

Definition drop_connection_by_uri (self : Store) (uri : string) : Store :=
  check_drop_spaces (set_spaces self
    ((λ space, match uri_to_connection space !! uri with
               | Some agent_id => drop_connection_inner space agent_id
               | None => space
               end) <$> spaces self)).

Definition Store_agent_holds_aspects (self : Store) (space_hash agent_id entry_hash : string)
    (new : gset string) : Outcome Store :=
  space ← agent_holds_aspects (get_space_mut self space_hash) agent_id entry_hash new;
  Ret (set_spaces self (<[space_hash := space]> (spaces self))).

(** One space after the other. *)
Fixpoint check_gossip_spaces (l : list (string * Space)) :
    Outcome (gmap string Space * gmap string (gset string)) :=
  match l with
  | [] => Ret (∅, ∅)
  | (space_hash, space) :: l =>
      '(space, agents) ← Space_check_gossip space;
      '(rest, data) ← check_gossip_spaces l;
      Ret (<[space_hash := space]> rest,
           if decide (agents = ∅) then data else <[space_hash := agents]> data)
  end.

Definition Store_check_gossip (self : Store) : Outcome (Store * gmap string (gset string)) :=
  '(spaces', data) ← check_gossip_spaces (map_to_list (spaces self));
  Ret (set_spaces self spaces', data).

Definition check_disconnected (self : Store) : Store * list string :=
  (set_spaces self ((λ space, set_connections space (connections space) (uri_to_connection space) [])
                      <$> spaces self),
   (map_to_list (spaces self)).*2 ≫= disconnect_uri).

Definition mutate (self : Store) (aol_entry : AolEntry) : Outcome (Store * AolResponse) :=
  match aol_entry with
  | AolEntry_NewConnection space_hash agent_id uri =>
      s ← new_connection self space_hash agent_id uri; Ret (s, AolResponse_None)
  | AolEntry_DropConnectionByUri uri => Ret (drop_connection_by_uri self uri, AolResponse_None)
  | AolEntry_AgentHoldsAspects space_hash agent_id entry_hash new =>
      s ← Store_agent_holds_aspects self space_hash agent_id entry_hash new;
      Ret (s, AolResponse_None)
  | AolEntry_CheckGossip => '(s, data) ← Store_check_gossip self; Ret (s, AolResponse_Gossip data)
  | AolEntry_CheckDisconnected =>
      let '(s, uris) := check_disconnected self in Ret (s, AolResponse_Disconnected uris)
  end.

Definition lookup_joined (self : Store) (space_hash agent_id : string) : option string :=
  space ← get_space self space_hash;
  con ← connections space !! agent_id;
  Some (con_uri con).

(** The first space in which the address is connected. *)
Definition get_space_info_from_uri (self : Store) (uri : string) : option (string * string) :=
  head (omap (λ '(space_hash, space),
          agent_id ← uri_to_connection space !! uri; Some (agent_id, space_hash))
        (map_to_list (spaces self))).

Definition Store_agents_that_need_aspect (self : Store) (space_hash entry_hash aspect_hash : string) :
    Outcome (gset string) :=
  match get_space self space_hash with
  | None => Ret ∅
  | Some space => get_agents_that_need_aspect space entry_hash aspect_hash
  end.

(** [shuffle] is the order random numbers bring a list into. *)
Definition get_agents_for_query (shuffle : list string → list string) (self : Store)
    (space_hash entry_hash : string) (requesting_agent_id : option string) : Outcome (list string) :=
  let without (s : gset string) :=
    match requesting_agent_id with Some aid => s ∖ {[aid]} | None => s end in
  let out := without (from_option (λ space, get_agents_holding_entry space entry_hash) ∅
                        (get_space self space_hash)) in
  out ←
    (if decide (out = ∅) then
       match get_space self space_hash with
       | None => Ret out
       | Some space => s ← get_agents_that_should_hold_entry space entry_hash; Ret (without s)
       end
     else Ret out);
  if decide (out = ∅) then
    Ret match requesting_agent_id with
        | None => []
        | Some aid => take 3 (shuffle [aid])
        end
  else Ret (take 3 (shuffle (elements out))).
End store.

(** ** The messages of lib.rs *)

Inductive WireError : Type :=
| WireError_MessageWhileInLimbo
| WireError_Other (message : string).

Inductive WireMessage : Type :=
| WireMessage_ClientToLib3h (data : ClientToLib3h)
| WireMessage_ClientToLib3hResponse (data : ClientToLib3hResponse)
| WireMessage_Lib3hToClient (data : Lib3hToClient)
| WireMessage_Lib3hToClientResponse (data : Lib3hToClientResponse)
| WireMessage_MultiSend (data : list Lib3hToClient)
| WireMessage_MultiSendResponse (data : list Lib3hToClientResponse)
| WireMessage_Err (error : WireError)
| WireMessage_Ping
| WireMessage_Pong
| WireMessage_Hello (version : Z)
| WireMessage_HelloResponse (redundant_count version : Z)
| WireMessage_Status
| WireMessage_StatusResponse (spaces connections joined_connections : nat) (redundant_count version : Z)
| WireMessage_Ack (hash : Z)
| WireMessage_Debug
| WireMessage_DebugResponse (spaces : gmap string string).

(** What a handler does: send, log a change of the store, close a connection.  After
    a change, the [replies] are sent when the copy of the store with it is
    written. *)
Definition Sending : Type := string * string * WireMessage.

Inductive Effect : Type :=
| Effect_Send (agent uri : string) (message : WireMessage)
| Effect_Mutate (entry : AolEntry) (replies : list Sending)
| Effect_Close (uri : string).

(** The spawned tasks, with what they have captured. *)
Inductive Task : Type :=
| Task_Status (uri signer : string) (receipt : WireMessage)
| Task_Debug (uri signer : string) (receipt : WireMessage)
| Task_Joined (uri signer : string) (message receipt : WireMessage)
| Task_Deliver (space_hash to_agent_id : string) (message : WireMessage)
| Task_Publish (space_hash signer : string) (data : ProvidedEntryData)
| Task_AuthoringList (space_hash uri signer : string) (data : EntryListData)
| Task_FetchResult (space_hash : string) (data : FetchEntryResultData)
| Task_Query (space_hash : string) (data : QueryEntryData)
| Task_Gossip (space_hash agent_id : string).

Definition Effects : Type := list Effect * list Task.

Definition no_effects : Effects := ([], []).
Definition do_effects (l : list Effect) : Effects := (l, []).
Definition spawn_task (t : Task) : Effects := ([], [t]).
Definition join_effects (l : list Effects) : Effects := ((l ≫= fst), (l ≫= snd)).

Definition disconnect (uris : list string) : list Effect :=
  uris ≫= λ d, [Effect_Mutate (AolEntry_DropConnectionByUri d) []; Effect_Close d].

Section handlers.
Context `{Locations}.

(** The version of the protocol, the redundancy of the algorithm in use (0 for full
    synchronization), the number of open connections, and the text of a space. *)
Variable WIRE_VERSION : Z.
Variable redundant_count : Z.
Variable connection_count : nat.
Variable space_json : Space → string.
Variable shuffle : list string → list string.

Definition handle_message_hello (uri signer : string) (version : Z) (receipt : WireMessage) : Effects :=
  do_effects (Effect_Send signer uri (WireMessage_HelloResponse redundant_count WIRE_VERSION) ::
              Effect_Send signer uri receipt ::
              if Z.eqb version WIRE_VERSION then [] else disconnect [uri]).

(** The receipt and the requests are sent after [new_connection] has completed. *)
Definition handle_message_join_space (uri signer : string) (data : SpaceData) (receipt : WireMessage) :
    Effects :=
  do_effects
    [Effect_Mutate (AolEntry_NewConnection (sd_space_address data) (sd_agent_id data) uri)
       [(signer, uri, receipt);
        (sd_agent_id data, uri, WireMessage_Lib3hToClient
           (Lib3hToClient_HandleGetGossipingEntryList (sd_space_address data) (sd_agent_id data)));
        (sd_agent_id data, uri, WireMessage_Lib3hToClient
           (Lib3hToClient_HandleGetAuthoringEntryList (sd_space_address data) (sd_agent_id data)))]].

Definition handle_message (uri : string) (message : WireMessage) (signer : string)
    (receipt : WireMessage) : Effects :=
  match message with
  | WireMessage_Lib3hToClient _ | WireMessage_ClientToLib3hResponse _ => no_effects
  | WireMessage_Ping =>
      do_effects [Effect_Send signer uri WireMessage_Pong; Effect_Send signer uri receipt]
  | WireMessage_Status => spawn_task (Task_Status uri signer receipt)
  | WireMessage_Debug => spawn_task (Task_Debug uri signer receipt)
  | WireMessage_Hello version => handle_message_hello uri signer version receipt
  | WireMessage_ClientToLib3h (ClientToLib3h_JoinSpace data) =>
      handle_message_join_space uri signer data receipt
  | message => spawn_task (Task_Joined uri signer message receipt)
  end.

(** [inner_spawn_handle_message_send_dmx]. *)
Definition send_dmx (to_agent_id data_space_hash space_hash : string) (message : WireMessage) : Effects :=
  if decide (data_space_hash = space_hash) then spawn_task (Task_Deliver space_hash to_agent_id message)
  else no_effects.

Definition handle_message_publish_entry (signer space_hash : string) (data : ProvidedEntryData) : Effects :=
  if decide (pe_space_address data = space_hash) then spawn_task (Task_Publish space_hash signer data)
  else no_effects.

Definition handle_message_query_entry (signer space_hash : string) (data : QueryEntryData) : Effects :=
  if decide (signer = qe_requester_agent_id data ∧ qe_space_address data = space_hash)
  then spawn_task (Task_Query space_hash data) else no_effects.

Definition client_to_lib3h (data : ClientToLib3h) (uri signer space_hash : string) : Effects :=
  match data with
  | ClientToLib3h_LeaveSpace _ => do_effects (disconnect [uri])
  | ClientToLib3h_SendDirectMessage dm =>
      send_dmx (dm_to_agent_id dm) (dm_space_address dm) space_hash
        (WireMessage_Lib3hToClient (Lib3hToClient_HandleSendDirectMessage dm))
  | ClientToLib3h_PublishEntry data => handle_message_publish_entry signer space_hash data
  | ClientToLib3h_QueryEntry data => handle_message_query_entry signer space_hash data
  | _ => no_effects
  end.

Definition handle_message_list_data (signer space_hash : string) (data : EntryListData) : Effects :=
  if decide (signer = el_provider_agent_id data ∧ el_space_address data = space_hash) then
    do_effects (el_address_map data ≫= λ '(entry_hash, aspects),
      if decide (aspects = []) then []
      else [Effect_Mutate (AolEntry_AgentHoldsAspects space_hash signer entry_hash (list_to_set aspects)) []])
  else no_effects.

Definition handle_message_authoring_entry_list (uri signer space_hash : string) (data : EntryListData) :
    Effects :=
  if decide (signer = el_provider_agent_id data ∧ el_space_address data = space_hash)
  then spawn_task (Task_AuthoringList space_hash uri signer data) else no_effects.

Definition handle_message_fetch_entry_result (signer space_hash : string)
    (data : FetchEntryResultData) : Effects :=
  if decide (signer = fr_provider_agent_id data ∧ fr_space_address data = space_hash)
  then spawn_task (Task_FetchResult space_hash data) else no_effects.

Definition handle_message_query_entry_result (signer space_hash : string)
    (data : QueryEntryResultData) : Effects :=
  if decide (signer = qr_responder_agent_id data ∧ qr_space_address data = space_hash)
  then spawn_task (Task_Deliver space_hash (qr_requester_agent_id data)
                     (WireMessage_ClientToLib3hResponse (ClientToLib3hResponse_QueryEntryResult data)))
  else no_effects.

Definition lib3h_to_client_response (data : Lib3hToClientResponse) (uri signer space_hash : string) :
    Effects :=
  match data with
  | Lib3hToClientResponse_HandleSendDirectMessageResult dm =>
      send_dmx (dm_to_agent_id dm) (dm_space_address dm) space_hash
        (WireMessage_Lib3hToClient (Lib3hToClient_SendDirectMessageResult dm))
  | Lib3hToClientResponse_HandleGetAuthoringEntryListResult list_data =>
      join_effects [handle_message_list_data signer space_hash list_data;
                    handle_message_authoring_entry_list uri signer space_hash list_data]
  | Lib3hToClientResponse_HandleGetGossipingEntryListResult list_data =>
      handle_message_list_data signer space_hash list_data
  | Lib3hToClientResponse_HandleFetchEntryResult data =>
      handle_message_fetch_entry_result signer space_hash data
  | Lib3hToClientResponse_HandleQueryEntryResult data =>
      handle_message_query_entry_result signer space_hash data
  | Lib3hToClientResponse_Other => no_effects
  end.

(** The rest of [handle_message], for clients that have joined a space. *)
Definition handle_joined (state : Store) (uri signer : string) (message receipt : WireMessage) : Effects :=
  match get_space_info_from_uri state uri with
  | None => do_effects (disconnect [uri])
  | Some (agent_id, space_hash) =>
      if decide (agent_id = signer) then
        join_effects
          [do_effects [Effect_Send signer uri receipt];
           match message with
           | WireMessage_ClientToLib3h data => client_to_lib3h data uri signer space_hash
           | WireMessage_Lib3hToClientResponse data => lib3h_to_client_response data uri signer space_hash
           | WireMessage_MultiSendResponse messages =>
               join_effects ((λ data, lib3h_to_client_response data uri signer space_hash) <$> messages)
           | _ => no_effects
           end]
      else no_effects
  end.

(** ** The tasks *)

Fixpoint each_outcome {A B} (f : A → Outcome B) (l : list A) : Outcome (list B) :=
  match l with
  | [] => Ret []
  | x :: l => y ← f x; ys ← each_outcome f l; Ret (y :: ys)
  end.

(** Sending to an agent at the address at which it has joined, if it has. *)
Definition send_joined (state : Store) (space_hash agent_id : string) (message : WireMessage) :
    list Effect :=
  match lookup_joined state space_hash agent_id with
  | Some uri => [Effect_Send agent_id uri message]
  | None => []
  end.

Definition run_status (state : Store) (uri signer : string) (receipt : WireMessage) : list Effect :=
  let joined_connections :=
    sum_list ((λ '(_, space), size (connections space)) <$> map_to_list (spaces state)) in
  [Effect_Send signer uri (WireMessage_StatusResponse (size (spaces state)) connection_count
     joined_connections redundant_count WIRE_VERSION);
   Effect_Send signer uri receipt].

(** The spaces, as texts; the list of connections that goes with them as one text, and
    the files that are written, are left out. *)
Definition run_debug (state : Store) (uri signer : string) (receipt : WireMessage) : list Effect :=
  [Effect_Send signer uri (WireMessage_DebugResponse (space_json <$> spaces state));
   Effect_Send signer uri receipt].

Definition run_publish (state : Store) (space_hash signer : string) (data : ProvidedEntryData) :
    Outcome (list Effect) :=
  let multi_message :=
    Lib3hToClient_HandleStoreEntryAspect space_hash signer (pe_entry_address data) <$> pe_aspect_list data in
  if decide (pe_aspect_list data = []) then Ret []
  else
    match get_space state space_hash with
    | None => Ret []
    | Some space =>
        send_to ← get_agents_that_should_hold_entry space (pe_entry_address data);
        Ret (elements send_to ≫= λ agent_id,
               send_joined state space_hash agent_id (WireMessage_MultiSend multi_message))
    end.

(** The aspects of an entry that somebody lacks. *)
Definition lacking (state : Store) (space_hash entry_hash : string) (aspects : list string) :
    Outcome (list string) :=
  l ← each_outcome (λ aspect,
        agents ← Store_agents_that_need_aspect state space_hash entry_hash aspect;
        Ret (aspect, agents)) aspects;
  Ret ((filter (λ '(_, agents), agents ≠ ∅) l).*1).

Definition run_authoring_list (state : Store) (space_hash uri signer : string) (data : EntryListData) :
    Outcome (list Effect) :=
  multi_message ← each_outcome (λ '(entry_hash, aspects),
    aspect_list ← lacking state space_hash entry_hash aspects;
    Ret (if decide (aspect_list = []) then []
         else [Lib3hToClient_HandleFetchEntry space_hash signer entry_hash (Some aspect_list)]))
    (el_address_map data);
  Ret (if decide (mjoin multi_message = []) then []
       else [Effect_Send signer uri (WireMessage_MultiSend (mjoin multi_message))]).

(** The aspects are collected for each agent that lacks one. *)
Definition run_fetch_result (state : Store) (space_hash : string) (data : FetchEntryResultData) :
    Outcome (list Effect) :=
  l ← each_outcome (λ aspect,
        agents ← Store_agents_that_need_aspect state space_hash (fr_entry_address data)
                   (aspect_address aspect);
        Ret (aspect, agents)) (fr_aspect_list data);
  let to_agent : gset string := ⋃ l.*2 in
  Ret (elements to_agent ≫= λ agent_id,
         send_joined state space_hash agent_id (WireMessage_MultiSend
           ((λ aspect, Lib3hToClient_HandleStoreEntryAspect space_hash agent_id
              (fr_entry_address data) aspect) <$> (filter (λ '(_, agents), agent_id ∈ agents) l).*1))).

(** [holding_agents[0]] panics on an empty list. *)
Definition run_query (state : Store) (space_hash : string) (data : QueryEntryData) :
    Outcome (list Effect) :=
  holding_agents ← get_agents_for_query shuffle state space_hash (qe_entry_address data)
                     (Some (qe_requester_agent_id data));
  query_target ← unwrap (head holding_agents);
  Ret (send_joined state space_hash query_target
         (WireMessage_Lib3hToClient (Lib3hToClient_HandleQueryEntry data))).

(** [EntriesAlreadyFetched::check]: whether the entry was fetched in the last
    second; otherwise it is now. *)
Definition check_already_fetched (now : Z) (fetched : gmap string Z) (entry : string) :
    bool * gmap string Z :=
  let recent := filter (λ '(_, t), (now - t < 1000)%Z) fetched in
  if decide (is_Some (recent !! entry)) then (true, recent) else (false, <[entry := now]> recent).

Fixpoint fetch_entry_data (now : Z) (state : Store) (space_hash : string)
    (gossip_aspects : list (string * gset string)) (fetched : gmap string Z) :
    Outcome (list Effect * gmap string Z) :=
  match gossip_aspects with
  | [] => Ret ([], fetched)
  | (entry_hash, aspects) :: rest =>
      if decide (aspects = ∅) then fetch_entry_data now state space_hash rest fetched
      else
        let '(already, fetched) := check_already_fetched now fetched entry_hash in
        if (already : bool) then fetch_entry_data now state space_hash rest fetched
        else
          query_agents ← get_agents_for_query shuffle state space_hash entry_hash None;
          let sent :=
            match query_agents with
            | [] => []
            | query_agent :: _ =>
                send_joined state space_hash query_agent (WireMessage_Lib3hToClient
                  (Lib3hToClient_HandleFetchEntry space_hash query_agent entry_hash None))
            end in
          '(more, fetched) ← fetch_entry_data now state space_hash rest fetched;
          Ret (sent ++ more, fetched)%list
  end.

(** A task over the copy of the store it reads. *)
Definition run_task (now : Z) (state : Store) (fetched : gmap string Z) (task : Task) :
    Outcome (Effects * gmap string Z) :=
  let done (l : list Effect) : Effects * gmap string Z := (do_effects l, fetched) in
  match task with
  | Task_Status uri signer receipt => Ret (done (run_status state uri signer receipt))
  | Task_Debug uri signer receipt => Ret (done (run_debug state uri signer receipt))
  | Task_Joined uri signer message receipt => Ret (handle_joined state uri signer message receipt, fetched)
  | Task_Deliver space_hash to_agent_id message =>
      Ret (done (send_joined state space_hash to_agent_id message))
  | Task_Publish space_hash signer data => done <$> run_publish state space_hash signer data
  | Task_AuthoringList space_hash uri signer data =>
      done <$> run_authoring_list state space_hash uri signer data
  | Task_FetchResult space_hash data => done <$> run_fetch_result state space_hash data
  | Task_Query space_hash data => done <$> run_query state space_hash data
  | Task_Gossip space_hash agent_id =>
      match get_space state space_hash with
      | None => Ret (done [])
      | Some space =>
          '(l, fetched) ← fetch_entry_data now state space_hash
                            (map_to_list (get_gossip_aspects_needed_for_agent space agent_id)) fetched;
          Ret (do_effects l, fetched)
      end
  end.

(** ** Payloads *)

(** A payload with the claimed source; whether its signature is valid, if it can
    be checked; and the hash of the payload for its receipt. *)
Record SignedWireMessage : Type := {
  sw_source : string;
  sw_verify : option bool;
  sw_message : WireMessage;
  sw_hash : Z;
}.

(** [handle_payload]: only the signatures of requests to join are checked.  [None]
    is a payload that cannot be read. *)
Definition handle_payload (url : string) (payload : option SignedWireMessage) : Outcome Effects :=
  match payload with
  | None => Ret (do_effects (disconnect [url]))
  | Some signed_message =>
      result ←
        match sw_message signed_message with
        | WireMessage_ClientToLib3h (ClientToLib3h_JoinSpace _) => unwrap (sw_verify signed_message)
        | _ => Ret true
        end;
      if (result : bool) then
        Ret (handle_message url (sw_message signed_message) (sw_source signed_message)
               (WireMessage_Ack (sw_hash signed_message)))
      else Ret (do_effects (disconnect [url]))
  end.
End handlers.

(** ** The system *)

(** The store and its log; the copy the handlers read, and the copies on their way
    there, with what waits for each; the tasks; the entries fetched lately; what was sent; and, for
    reference, all that was ever logged and all payloads that arrived, with where from. *)
Record System : Type := {
  sys_store : Store;
  sys_log : list (AolEntry * list Sending);
  sys_view : Store;
  sys_writes : list (Store * Effects);
  sys_tasks : list Task;
  sys_fetched : gmap string Z;
  sys_sent : list Sending;
  sys_history : list AolEntry;
  sys_received : list (string * option SignedWireMessage);
}.

Definition System_new (store : Store) : System :=
  {| sys_store := store; sys_log := []; sys_view := store; sys_writes := []; sys_tasks := [];
     sys_fetched := ∅; sys_sent := []; sys_history := []; sys_received := [] |}.

Definition logged (l : list Effect) : list (AolEntry * list Sending) :=
  omap (λ e, match e with Effect_Mutate entry replies => Some (entry, replies) | _ => None end) l.
Definition sent (l : list Effect) : list Sending :=
  omap (λ e, match e with Effect_Send a u m => Some (a, u, m) | _ => None end) l.

Definition apply_effects (sys : System) (effects : Effects) : System :=
  {| sys_store := sys_store sys; sys_log := sys_log sys ++ logged effects.1;
     sys_view := sys_view sys; sys_writes := sys_writes sys;
     sys_tasks := sys_tasks sys ++ effects.2; sys_fetched := sys_fetched sys;
     sys_sent := sys_sent sys ++ sent effects.1;
     sys_history := sys_history sys ++ (logged effects.1).*1; sys_received := sys_received sys |}%list.

(** What the periodic jobs do with the answers of the store, and the replies. *)
Definition response_effects (r : AolResponse) : Effects :=
  match r with
  | AolResponse_None => no_effects
  | AolResponse_Gossip data =>
      ([], map_to_list data ≫= λ '(space_hash, agents), Task_Gossip space_hash <$> elements agents)
  | AolResponse_Disconnected uris => do_effects (disconnect uris)
  end.

Definition completed (replies : list Sending) (r : AolResponse) : Effects :=
  join_effects [do_effects ((λ '(a, u, m), Effect_Send a u m) <$> replies); response_effects r].

Definition with_tasks (sys : System) (tasks : list Task) (fetched : gmap string Z) : System :=
  {| sys_store := sys_store sys; sys_log := sys_log sys; sys_view := sys_view sys;
     sys_writes := sys_writes sys; sys_tasks := tasks; sys_fetched := fetched;
     sys_sent := sys_sent sys; sys_history := sys_history sys; sys_received := sys_received sys |}.

Definition with_view (sys : System) (view : Store) (writes : list (Store * Effects)) : System :=
  {| sys_store := sys_store sys; sys_log := sys_log sys; sys_view := view; sys_writes := writes;
     sys_tasks := sys_tasks sys; sys_fetched := sys_fetched sys; sys_sent := sys_sent sys;
     sys_history := sys_history sys; sys_received := sys_received sys |}.

Definition with_store (sys : System) (store : Store) (log : list (AolEntry * list Sending))
    (effects : Effects) : System :=
  {| sys_store := store; sys_log := log; sys_view := sys_view sys;
     sys_writes := (sys_writes sys ++ [(store, effects)])%list; sys_tasks := sys_tasks sys;
     sys_fetched := sys_fetched sys; sys_sent := sys_sent sys; sys_history := sys_history sys;
     sys_received := sys_received sys |}.

Definition receive (sys : System) (url : string) (payload : option SignedWireMessage) : System :=
  {| sys_store := sys_store sys; sys_log := sys_log sys; sys_view := sys_view sys;
     sys_writes := sys_writes sys; sys_tasks := sys_tasks sys; sys_fetched := sys_fetched sys;
     sys_sent := sys_sent sys; sys_history := sys_history sys;
     sys_received := (sys_received sys ++ [(url, payload)])%list |}.

Section system.
Context `{Locations}.
Variable WIRE_VERSION : Z.
Variable redundant_count : Z.
Variable space_json : Space → string.

(** A payload arrives; the store takes the next entry of its log and spawns the
    writing of a copy; some copy is written, and whoever waited for it goes on;
    some task runs; a periodic check is logged; a connection is lost. *)
Inductive sim2h_step (sys : System) : System → Prop :=
| Step_payload url payload effects :
    handle_payload WIRE_VERSION redundant_count url payload = Ret effects →
    sim2h_step sys (apply_effects (receive sys url payload) effects)
| Step_mutate chance entry replies log store r :
    sys_log sys = (entry, replies) :: log → mutate chance (sys_store sys) entry = Ret (store, r) →
    sim2h_step sys (with_store sys store log (completed replies r))
| Step_write l1 copy effects l2 :
    sys_writes sys = (l1 ++ (copy, effects) :: l2)%list →
    sim2h_step sys (apply_effects (with_view sys copy (l1 ++ l2)%list) effects)
| Step_task l1 task l2 now connection_count shuffle effects fetched :
    sys_tasks sys = (l1 ++ task :: l2)%list → (∀ l, shuffle l ≡ₚ l) →
    run_task WIRE_VERSION redundant_count connection_count space_json shuffle now (sys_view sys)
      (sys_fetched sys) task = Ret (effects, fetched) →
    sim2h_step sys (apply_effects (with_tasks sys (l1 ++ l2)%list fetched) effects)
| Step_check entry :
    entry = AolEntry_CheckGossip ∨ entry = AolEntry_CheckDisconnected →
    sim2h_step sys (apply_effects sys (do_effects [Effect_Mutate entry []]))
| Step_lost uri : sim2h_step sys (apply_effects sys (do_effects (disconnect [uri]))).
End system.
