(* ===== verification/Switchboard.v ===== *)
(** * What the switchboard guarantees

    The system of store, log, copies and tasks of [Sim2h], and its theorems: the
    invariants of the store; that messages about a space stay in it
    ([messages_stay_in_their_space]), answers to debug requests apart, which reveal
    all spaces ([debug_reveals_spaces]); what joining does and that it is not
    authenticated; and what comes of copies that are written out of order. *)

From S2P Require Import Prelude Errors Lib3h Sim2h.

Local Open Scope string_scope.

(** ** Invariants of the store *)

Section invariants.
Context `{Locations}.

(** The maps of a space are in step: connections and entries are filed under their
    own names with their locations, an address belongs to the agent that is
    connected at it, and all aspects are known. *)
Record wf_space (self : Space) : Prop := {
  wf_connections a con : connections self !! a = Some con →
    con_agent_id con = a ∧ calc_location_for_id a = Some (agent_loc con);
  wf_uris u a : uri_to_connection self !! u = Some a →
    ∃ con, connections self !! a = Some con ∧ con_uri con = u;
  wf_entries e info : entry_to_all_aspects self !! e = Some info →
    info_entry_hash info = e ∧ entry_location e = Ret (entry_loc info) ∧
    dom (aspects info) ⊆ all_aspects self;
}.

Record wf_store (self : Store) : Prop := {
  wf_spaces s space : spaces self !! s = Some space →
    wf_space space ∧ redundancy space = store_redundancy self ∧
    gossip_interval space = store_gossip_interval self;
}.

Lemma Space_new_wf r i : wf_space (Space_new r i).
Proof. by split. Qed.

Lemma get_space_mut_wf self s : wf_store self →
  wf_space (get_space_mut self s) ∧ redundancy (get_space_mut self s) = store_redundancy self ∧
  gossip_interval (get_space_mut self s) = store_gossip_interval self.
Proof.
  intros [Hw]. unfold get_space_mut. destruct (spaces self !! s) as [space|] eqn:Hs; cbn; [by eapply Hw|].
  split; [apply Space_new_wf|done].
Qed.

Lemma clear_holding_wf self a : wf_space self → wf_space (clear_holding self a).
Proof.
  intros [Hc Hu He]. split; [exact Hc|exact Hu|]. intros e info Hi. cbn in Hi.
  apply lookup_fmap_Some in Hi as (info0 & <- & Hi). apply He in Hi as (? & ? & ?). cbn.
  by rewrite dom_fmap_L.
Qed.

(** After an agent is cleared, it holds nothing. *)
Lemma clear_holding_none self a e info x holding :
  entry_to_all_aspects (clear_holding self a) !! e = Some info →
  aspects info !! x = Some holding → a ∉ holding.
Proof.
  cbn. intros (info0 & <- & _)%lookup_fmap_Some. cbn.
  intros (h & <- & _)%lookup_fmap_Some. set_solver.
Qed.

Lemma check_insert_connection_wf t r self a u self' :
  wf_space self → check_insert_connection t r self a u = Ret self' → wf_space self'.
Proof.
  intros [Hc Hu He]. unfold check_insert_connection.
  destruct (calc_location_for_id a) as [loc|] eqn:Hl; [|by intros [= <-]].
  destruct (gen_range _ _ _) as [to_add| |]; cbn [mbind Outcome_bind]; [|done..].
  destruct (match connections self !! a with Some _ => _ | None => _ end) as [uris disc] eqn:Hm.
  intros [= <-]. apply clear_holding_wf. split; cbn; [| |exact He].
  - intros b con. rewrite lookup_insert. case_decide; [|apply Hc].
    subst b. by intros [= <-].
  - intros v b. rewrite lookup_insert. case_decide.
    + intros [= <-]. subst v. rewrite lookup_insert_eq. by eexists.
    + intros Hv. assert (Hold : uri_to_connection self !! v = Some b ∧ b ≠ a).
      { destruct (connections self !! a) as [old|] eqn:Ha; injection Hm as <- <-.
        - apply lookup_delete_Some in Hv as [Hne Hv]. split; [done|]. intros ->.
          apply Hu in Hv as (con & Hcon & <-). congruence.
        - split; [done|]. intros ->. apply Hu in Hv as (con & Hcon & _). congruence. }
      destruct Hold as [Hv' Hne]. apply Hu in Hv' as (con & Hcon & Hcu). exists con.
      by rewrite lookup_insert_ne.
Qed.

Lemma drop_connection_inner_wf self a : wf_space self → wf_space (drop_connection_inner self a).
Proof.
  intros Hw. apply (clear_holding_wf _ a) in Hw. unfold drop_connection_inner.
  remember (clear_holding self a) as s eqn:Hs. clear Hs self.
  destruct (connections s !! a) as [con|] eqn:Ha; [|done]. destruct Hw as [Hc Hu He].
  split; cbn; [| |exact He].
  - intros b c [_ Hb]%lookup_delete_Some. by apply Hc.
  - intros u b [Hne Hb]%lookup_delete_Some. destruct (Hu u b Hb) as (c & Hbc & <-).
    exists c. split; [|done]. apply lookup_delete_Some. split; [|done]. congruence.
Qed.

Lemma insert_entry_wf self e self' :
  wf_space self → priv_check_insert_entry_hash self e = Ret self' → wf_space self'.
Proof.
  intros [Hc Hu He]. unfold priv_check_insert_entry_hash.
  destruct (entry_to_all_aspects self !! e) as [info|] eqn:Hi; [by intros [= <-]|].
  destruct (entry_location e) as [loc| |] eqn:Hl; cbn; [|done..]. intros [= <-].
  split; [exact Hc|exact Hu|]. intros e' info. cbn. rewrite lookup_insert. case_decide; [|apply He].
  subst e'. intros [= <-]. cbn. by rewrite dom_empty_L.
Qed.

Lemma add_holding_dom a new info :
  dom (aspects (add_holding a new info)) = dom (aspects info) ∪ new.
Proof.
  unfold add_holding. cbn.
  apply (set_fold_ind_L (λ m X, dom m = dom (aspects info) ∪ X)).
  - set_solver.
  - intros x X m _ IH. rewrite dom_insert_L, IH. set_solver.
Qed.

Lemma agent_holds_aspects_wf self a e new self' :
  wf_space self → agent_holds_aspects self a e new = Ret self' → wf_space self'.
Proof.
  intros Hw. unfold agent_holds_aspects.
  destruct (priv_check_insert_entry_hash self e) as [s| |] eqn:Hs; cbn; [|done..]. intros [= <-].
  apply insert_entry_wf in Hs as [Hc Hu He]; [|done]. split; [exact Hc|exact Hu|].
  intros e' info. cbn. rewrite lookup_alter. case_decide.
  - subst e'. intros (info0 & (? & ? & ?)%He & ->)%fmap_Some. cbn [info_entry_hash entry_loc add_holding].
    split_and!; [done..|]. rewrite add_holding_dom. set_solver.
  - intros (? & ? & ?)%He. split_and!; [done..|]. set_solver.
Qed.

(** A change of the connections that keeps agents, locations and addresses. *)
Lemma reconnect_wf self (f : string → ConnectionState → ConnectionState) disc : wf_space self →
  (∀ a con, con_agent_id (f a con) = con_agent_id con ∧ agent_loc (f a con) = agent_loc con ∧
            con_uri (f a con) = con_uri con) →
  wf_space (set_connections self (map_imap (λ a con, Some (f a con)) (connections self))
              (uri_to_connection self) disc).
Proof.
  intros [Hc Hu He] Hf. split; cbn; [| |exact He].
  - intros a con. rewrite map_lookup_imap. destruct (connections self !! a) as [c|] eqn:Ha; cbn; [|done].
    intros [= <-]. destruct (Hf a c) as (-> & -> & _). by apply Hc.
  - intros u a (con & Hcon & <-)%Hu. exists (f a con). rewrite map_lookup_imap, Hcon. cbn.
    split; [done|]. apply Hf.
Qed.

(** A space of a store with the given settings. *)
Definition good_space (r i : Z) (space : Space) : Prop :=
  wf_space space ∧ redundancy space = r ∧ gossip_interval space = i.

Lemma wf_store_insert self s space : wf_store self →
  good_space (store_redundancy self) (store_gossip_interval self) space →
  wf_store (set_spaces self (<[s := space]> (spaces self))).
Proof.
  intros [Hw] Hg. split. cbn. intros t sp. rewrite lookup_insert. case_decide; [|apply Hw].
  by intros [= <-].
Qed.

Lemma wf_store_fmap self (f : Space → Space) : wf_store self →
  (∀ space, good_space (store_redundancy self) (store_gossip_interval self) space →
            good_space (store_redundancy self) (store_gossip_interval self) (f space)) →
  wf_store (set_spaces self (f <$> spaces self)).
Proof.
  intros [Hw] Hf. split. cbn. intros t sp (sp0 & <- & Hsp)%lookup_fmap_Some. by eapply Hf, Hw.
Qed.

Lemma Space_check_gossip_good chance r i self self' agents :
  good_space r i self → Space_check_gossip chance self = Ret (self', agents) → good_space r i self'.
Proof.
  intros (Hw & Hr & Hi). unfold Space_check_gossip. case_decide; [by intros [= <- _]|].
  destruct (Z.ltb _ _); [|done]. intros [= <- _]. split; [|done].
  apply reconnect_wf; [done|]. intros a con. by case_decide.
Qed.

Lemma check_gossip_spaces_good chance r i l m data :
  (∀ p, p ∈ l → good_space r i p.2) → check_gossip_spaces chance l = Ret (m, data) →
  ∀ s space, m !! s = Some space → good_space r i space.
Proof.
  revert m data. induction l as [|[s0 space0] l IH]; intros m data Hl; cbn; [by intros [= <- _]|].
  destruct (Space_check_gossip chance space0) as [[sp ags]| |] eqn:Hsp; cbn; [|done..].
  destruct (check_gossip_spaces chance l) as [[m' d']| |] eqn:Hrest; cbn; [|done..].
  intros [= <- _] s space. rewrite lookup_insert. case_decide.
  - intros [= <-]. eapply Space_check_gossip_good; [|exact Hsp]. apply (Hl (s0, space0)). by left.
  - eapply IH; [|done]. intros p Hp. apply Hl. by right.
Qed.

Lemma mutate_wf chance self entry self' r :
  wf_store self → mutate chance self entry = Ret (self', r) →
  wf_store self' ∧ store_gossip_interval self' = store_gossip_interval self.
Proof.
  intros Hw. pose proof (get_space_mut_wf self) as Hget. destruct entry; cbn.
  - unfold new_connection. destruct (check_insert_connection _ _ _ _ _) as [sp| |] eqn:Hsp; cbn; [|done..].
    intros [= <- _]. split; [|done]. apply wf_store_insert; [done|].
    destruct (Hget space_hash Hw) as (Hgw & Hr & Hi).
    split; [by eapply check_insert_connection_wf|].
    unfold check_insert_connection in Hsp. destruct (calc_location_for_id _); [|by simplify_eq].
    destruct (gen_range _ _ _); cbn in Hsp; [|done..]. by case_match; simplify_eq.
  - intros [= <- _]. split; [|done]. unfold drop_connection_by_uri, check_drop_spaces.
    assert (Hd : wf_store (set_spaces self ((λ space, match uri_to_connection space !! uri with
      | Some agent_id => drop_connection_inner space agent_id | None => space end) <$> spaces self))).
    { apply wf_store_fmap; [done|]. intros sp (Hsw & Hsr & Hsi). case_match; [|done].
      split; [by apply drop_connection_inner_wf|]. unfold drop_connection_inner. by case_match. }
    split. cbn. intros t sp [Hsp _]%map_lookup_filter_Some. by eapply (wf_spaces _ Hd).
  - unfold Store_agent_holds_aspects. destruct (agent_holds_aspects _ _ _ _) as [sp| |] eqn:Hsp; cbn; [|done..].
    intros [= <- _]. split; [|done]. apply wf_store_insert; [done|].
    destruct (Hget space_hash Hw) as (Hgw & Hr & Hi).
    split; [by eapply agent_holds_aspects_wf|].
    unfold agent_holds_aspects, priv_check_insert_entry_hash in Hsp.
    case_match; cbn in Hsp; [by simplify_eq|]. by destruct (entry_location _); simplify_eq/=.
  - unfold Store_check_gossip. destruct (check_gossip_spaces _ _) as [[m d]| |] eqn:Hm; cbn; [|done..].
    intros [= <- _]. split; [|done]. split. cbn. eapply check_gossip_spaces_good; [|exact Hm].
    intros [s sp] Hsp%elem_of_map_to_list. by eapply (wf_spaces _ Hw).
  - intros [= <- _]. split; [|done]. apply wf_store_fmap; [done|]. intros sp ([Hc Hu He] & ? & ?).
    by split.
Qed.

(** ** The log *)

(** A store after the entries of a log. *)
Fixpoint run_log (self : Store) (log : list (Chance * AolEntry)) : Outcome Store :=
  match log with
  | [] => Ret self
  | (chance, entry) :: log => '(self, _) ← mutate chance self entry; run_log self log
  end.

(** Every entry has a location. *)
Definition locatable : Prop := ∀ entry_hash, ∃ loc, entry_location entry_hash = Ret loc.

Lemma default_parts :
  interval_part AGENT_FETCH_ASPECTS_INTERVAL_MS 1 = 1250%Z ∧
  interval_part AGENT_FETCH_ASPECTS_INTERVAL_MS 3 = 3750%Z ∧
  interval_part AGENT_FETCH_ASPECTS_INTERVAL_MS 5 = 6250%Z.
Proof. by vm_compute. Qed.

Lemma check_gossip_spaces_total chance l :
  (∀ p, p ∈ l → gossip_interval p.2 = AGENT_FETCH_ASPECTS_INTERVAL_MS) →
  ∃ m, check_gossip_spaces chance l = Ret m.
Proof.
  induction l as [|[s0 sp0] l IH]; intros Hl; cbn; [by eexists|].
  assert (Hsp : ∃ x, Space_check_gossip chance sp0 = Ret x).
  { unfold Space_check_gossip. case_decide; [by eexists|].
    assert (gossip_interval sp0 = AGENT_FETCH_ASPECTS_INTERVAL_MS) as -> by (apply (Hl (s0, sp0)); by left).
    destruct default_parts as (_ & -> & ->). cbn. by eexists. }
  destruct Hsp as [[sp ags] ->]. cbn. destruct IH as [[m d] ->]; [|by eexists].
  intros p Hp. apply Hl. by right.
Qed.

Lemma mutate_total chance self entry : locatable → wf_store self →
  store_gossip_interval self = AGENT_FETCH_ASPECTS_INTERVAL_MS →
  ∃ r, mutate chance self entry = Ret r.
Proof.
  intros Hloc Hw Hi. destruct entry; cbn; try by eexists.
  - unfold new_connection, check_insert_connection. destruct (calc_location_for_id agent_id); [|by eexists].
    destruct (get_space_mut_wf self space_hash Hw) as (_ & _ & ->). rewrite Hi.
    destruct default_parts as (-> & _). cbn. case_match; by eexists.
  - unfold Store_agent_holds_aspects, agent_holds_aspects, priv_check_insert_entry_hash.
    case_match; cbn; [by eexists|]. destruct (Hloc entry_hash) as [loc ->]. cbn. by eexists.
  - unfold Store_check_gossip. destruct (check_gossip_spaces_total chance (map_to_list (spaces self)))
      as [[m d] ->]; [|by eexists].
    intros [s sp] (_ & _ & Hs)%elem_of_map_to_list%(wf_spaces _ Hw). by rewrite <- Hi.
Qed.

Lemma run_log_wf self log : locatable → wf_store self →
  store_gossip_interval self = AGENT_FETCH_ASPECTS_INTERVAL_MS →
  ∃ s, run_log self log = Ret s ∧ wf_store s.
Proof.
  intros Hloc. revert self. induction log as [|[chance entry] log IH]; intros s Hw Hi; cbn; [by eexists|].
  destruct (mutate_total chance s entry Hloc Hw Hi) as [[s' r] Hr]. rewrite Hr. cbn.
  apply mutate_wf in Hr as [Hw' Hi']; [|done]. apply IH; [done|congruence].
Qed.

Lemma Store_new_wf redundancy interval : wf_store (Store_new redundancy interval).
Proof. by split. Qed.

(** Whatever is logged, the store of a switchboard with the default gossip
    interval processes it without a panic, and its maps stay in step: in every
    space, an address leads to an agent that is connected at this address,
    connections and entries are filed under their own names with their locations,
    and every aspect of an entry is known. *)
Theorem store_stays_in_step redundancy log : locatable →
  ∃ s, run_log (Store_new redundancy None) log = Ret s ∧ wf_store s.
Proof. intros Hloc. by apply run_log_wf; [|apply Store_new_wf|]. Qed.
End invariants.

(** ** Who lacks what *)

Section gossip.
Context `{Locations}.

(** The entries an agent should hold, under their own hashes, with what it lacks. *)
Lemma gossip_aspects_lookup self a con e missing : wf_space self →
  connections self !! a = Some con →
  get_gossip_aspects_needed_for_agent self a !! e = Some missing ↔
  ∃ info, entry_to_all_aspects self !! e = Some info ∧
    should_store (agent_loc con) (entry_loc info) (agent_count self) (redundancy self) = true ∧
    missing = dom (filter (λ '(_, holding), a ∉ holding) (aspects info)).
Proof.
  intros [_ _ He] Ha. unfold get_gossip_aspects_needed_for_agent. rewrite Ha.
  set (kept := filter _ (map_to_list _)).
  assert (Hkeys : ∀ p, p ∈ kept → info_entry_hash p.2 = p.1).
  { intros [k info] [_ Hin]%list_elem_of_filter. apply elem_of_map_to_list, He in Hin. naive_solver. }
  assert (Hnd : NoDup (((λ '(_, entry), (info_entry_hash entry,
    dom (filter (λ '(_, holding), a ∉ holding) (aspects entry)))) <$> kept).*1)).
  { rewrite <- list_fmap_compose. assert (Heq : ((fst ∘ (λ '(_, entry), (info_entry_hash entry,
      dom (filter (λ '(_, holding), a ∉ holding) (aspects entry))))) <$> kept) = kept.*1).
    { apply list_fmap_ext. intros i [k info] Hi. cbn. apply (Hkeys (k, info)).
      by eapply list_elem_of_lookup_2. }
    rewrite Heq. unfold kept. eapply sublist_NoDup; [apply (NoDup_fst_map_to_list (entry_to_all_aspects self))|].
    apply fmap_sublist, sublist_filter. }
  rewrite <- (elem_of_list_to_map _ _ _ Hnd), list_elem_of_fmap. split.
  - intros ([k info] & Heq & Hin). cbn in Heq. injection Heq as -> ->.
    pose proof (Hkeys _ Hin) as Hk. cbn in Hk. rewrite Hk.
    apply list_elem_of_filter in Hin as [Hs Hin%elem_of_map_to_list]. by exists info.
  - intros (info & Hi & Hs & ->). exists (e, info). cbn.
    destruct (He e info Hi) as (-> & _). split; [done|].
    apply list_elem_of_filter. split; [done|]. by apply elem_of_map_to_list.
Qed.

(** The two computations of what is missing agree.  Asked for an aspect of an
    entry, the switchboard names exactly the agents in whose list of missing
    aspects (used for gossip) it is: connected agents that should hold the entry
    but have not reported the aspect. *)
Theorem missing_aspects_agree self e x : wf_space self →
  ∃ needing, get_agents_that_need_aspect self e x = Ret needing ∧
    ∀ a, a ∈ needing ↔ ∃ missing, get_gossip_aspects_needed_for_agent self a !! e = Some missing ∧ x ∈ missing.
Proof.
  intros Hw. unfold get_agents_that_need_aspect, get_agents_that_should_hold_entry, get_entry_location.
  assert (Hnone : ∀ a, connections self !! a = None → get_gossip_aspects_needed_for_agent self a = ∅).
  { intros a Ha. unfold get_gossip_aspects_needed_for_agent. by rewrite Ha. }
  destruct (entry_to_all_aspects self !! e) as [info|] eqn:He.
  2: { exists ∅. split; [done|]. intros a. split; [set_solver|]. intros (missing & Hm & _).
       destruct (connections self !! a) as [con|] eqn:Ha; [|by rewrite Hnone in Hm].
       destruct (proj1 (gossip_aspects_lookup self a con e missing Hw Ha) Hm) as (i & Hi & _). congruence. }
  assert (Hiff : ∀ a, (∃ missing, get_gossip_aspects_needed_for_agent self a !! e = Some missing ∧
      x ∈ missing) ↔ ∃ con holding, connections self !! a = Some con ∧
      should_store (agent_loc con) (entry_loc info) (agent_count self) (redundancy self) = true ∧
      aspects info !! x = Some holding ∧ a ∉ holding).
  { intros a. destruct (connections self !! a) as [con|] eqn:Ha.
    - setoid_rewrite (gossip_aspects_lookup _ _ _ e _ Hw Ha). split.
      + intros (? & (i & Hi & Hs & ->) & Hin). rewrite He in Hi. injection Hi as <-.
        apply elem_of_dom in Hin as (h & [Hx Hh]%map_lookup_filter_Some). by exists con, h.
      + intros (? & h & [= <-] & Hs & Hx & Hh). eexists. split; [by exists info|].
        apply elem_of_dom. exists h. by apply map_lookup_filter_Some.
    - rewrite Hnone by done. split; [intros (? & ? & _); done|intros (? & ? & ? & _); done]. }
  destruct (aspects info !! x) as [holding|] eqn:Hx.
  2: { exists ∅. split; [done|]. intros a. rewrite Hiff. split; [set_solver|]. by intros (? & ? & _ & _ & ? & _). }
  destruct (Z.eqb_spec (redundancy self) 0) as [Hz|Hz]; cbn [mbind Outcome_bind];
    eexists; (split; [reflexivity|]); intros a; rewrite Hiff, elem_of_difference, elem_of_dom.
  - unfold should_store. rewrite Hz. cbn. split.
    + intros [[con Ha] Hh]. by exists con, holding.
    + intros (con & h & Ha & _ & [= <-] & Hh). split; [by exists con|done].
  - split.
    + intros [[con [Ha Hs]%map_lookup_filter_Some] Hh]. by exists con, holding.
    + intros (con & h & Ha & Hs & [= <-] & Hh). split; [|done]. exists con.
      by apply map_lookup_filter_Some.
Qed.
End gossip.

(** ** Whom a query is sent to *)

Section queries.
Context `{Locations}.
Variable shuffle : list string → list string.
Hypothesis shuffle_permutes : ∀ l, shuffle l ≡ₚ l.

Lemma elem_of_intersections (l : list (gset string)) s a :
  a ∈ fold_left (λ remaining h, remaining ∩ h) l s ↔ a ∈ s ∧ ∀ h, h ∈ l → a ∈ h.
Proof.
  revert s. induction l as [|h l IH]; intros s; cbn.
  - split; [intros Ha; split; [done|intros h Hh; by apply not_elem_of_nil in Hh]|by intros []].
  - rewrite IH, elem_of_intersection. split.
    + intros [[Hs Hh] Hl]. split; [done|]. intros h' [->|?]%elem_of_cons; auto.
    + intros [Hs Hl]. split; [split; [done|]|]; [apply Hl; by left|]. intros h' ?. apply Hl. by right.
Qed.

(** The agents that hold an entry have reported all of its known aspects, of
    which there is at least one. *)
Lemma agents_holding_entry self e a :
  a ∈ get_agents_holding_entry self e ↔
  ∃ info, entry_to_all_aspects self !! e = Some info ∧ aspects info ≠ ∅ ∧
    ∀ x holding, aspects info !! x = Some holding → a ∈ holding.
Proof.
  unfold get_agents_holding_entry. destruct (entry_to_all_aspects self !! e) as [info|].
  2: { split; [set_solver|]. by intros (? & ? & _). }
  assert (Hall : (∀ x h, aspects info !! x = Some h → a ∈ h) ↔
                 ∀ h, h ∈ (map_to_list (aspects info)).*2 → a ∈ h).
  { split.
    - intros Hx h ([x h'] & -> & Hin%elem_of_map_to_list)%list_elem_of_fmap. by eapply Hx.
    - intros Hh x h Hx. apply Hh, list_elem_of_fmap. exists (x, h). split; [done|].
      by apply elem_of_map_to_list. }
  destruct (map_to_list (aspects info)) as [|[x0 h0] l] eqn:Hl; cbn.
  - apply map_to_list_empty_iff in Hl. split; [set_solver|]. intros (? & [= <-] & ? & _). done.
  - rewrite elem_of_intersections. split.
    + intros [H0 Hrest]. exists info. split_and!; [done| |].
      { intros He. by rewrite He, map_to_list_empty in Hl. }
      apply Hall. intros h [->|?]%elem_of_cons; [done|auto].
    + intros (? & [= <-] & _ & Hx). rewrite Hall in Hx. split; [apply Hx; by left|].
      intros h ?. apply Hx. by right.
Qed.

Lemma should_hold_total self e : locatable →
  ∃ agents, get_agents_that_should_hold_entry self e = Ret agents.
Proof.
  intros Hloc. unfold get_agents_that_should_hold_entry, get_entry_location.
  destruct (Z.eqb _ 0); [by eexists|]. case_match; cbn; [by eexists|].
  destruct (Hloc e) as [loc ->]. by eexists.
Qed.

Lemma only_requester (s : gset string) r a : s ∖ {[r]} = ∅ → a ∈ s → a = r.
Proof.
  intros He Ha. destruct (decide (a = r)); [done|]. exfalso.
  apply (not_elem_of_empty (C := gset string) a). rewrite <- He.
  apply elem_of_difference. by rewrite elem_of_singleton.
Qed.

(** What is taken of a shuffled set. *)
Lemma taken_of_set (s : gset string) : s ≠ ∅ →
  let out := take 3 (shuffle (elements s)) in
  out ≠ [] ∧ (length out ≤ 3)%nat ∧ NoDup out ∧ ∀ a, a ∈ out → a ∈ s.
Proof.
  intros Hs out. pose proof (shuffle_permutes (elements s)) as Hp.
  assert (Hin : ∀ a, a ∈ out → a ∈ s).
  { intros a Ha. apply elem_of_elements. rewrite <- Hp. unfold out in Ha.
    rewrite <- (take_drop 3 (shuffle _)), elem_of_app. by left. }
  split_and!; [|unfold out; rewrite length_take; lia| |done].
  - unfold out. destruct (shuffle (elements s)) as [|a l] eqn:He; [|done].
    apply Permutation_nil_l in Hp. symmetry in Hp. apply elements_empty_inv in Hp.
    by apply leibniz_equiv in Hp.
  - unfold out. assert (Hnd : NoDup (shuffle (elements s))) by (rewrite Hp; apply NoDup_elements).
    rewrite <- (take_drop 3 (shuffle _)) in Hnd. by apply NoDup_app in Hnd as [? _].
Qed.

(** The targets of a query: between one and three different agents.  As long as
    another agent holds the whole entry, only such agents are asked, otherwise the
    agents that should hold it; the requester itself is asked only if there is
    nobody else to ask. *)
Theorem query_targets self s e requester : locatable →
  let holders := from_option (λ space, get_agents_holding_entry space e) ∅ (get_space self s) in
  ∃ out, get_agents_for_query shuffle self s e (Some requester) = Ret out ∧
    out ≠ [] ∧ (length out ≤ 3)%nat ∧ NoDup out ∧
    ((∃ a, a ∈ holders ∧ a ≠ requester) → ∀ a, a ∈ out → a ∈ holders ∧ a ≠ requester) ∧
    (∀ a, a ∈ out → a ≠ requester → a ∈ holders ∨
       ∃ space agents, get_space self s = Some space ∧
         get_agents_that_should_hold_entry space e = Ret agents ∧ a ∈ agents) ∧
    (requester ∈ out → out = [requester] ∧
       ∀ space agents, get_space self s = Some space →
         get_agents_that_should_hold_entry space e = Ret agents → agents ⊆ {[requester]}).
Proof.
  intros Hloc holders. unfold get_agents_for_query. fold holders.
  destruct (decide (holders ∖ {[requester]} = ∅)) as [Hno|Hyes]; cbn [mbind Outcome_bind].
  2: { rewrite decide_False by done. eexists. split; [reflexivity|].
       destruct (taken_of_set _ Hyes) as (? & ? & ? & Hin).
       assert (Hin' : ∀ a, a ∈ take 3 (shuffle (elements (holders ∖ {[requester]}))) → a ∈ holders ∧ a ≠ requester).
       { intros a [Ha Hne]%Hin%elem_of_difference. by rewrite elem_of_singleton in Hne. }
       do 3 (split; [done|]). split; [intros _; exact Hin'|].
       split; [intros a [Ha _]%Hin' _; by left|]. intros [_ ?]%Hin'. done. }
  assert (Hnone : ¬ ∃ a, a ∈ holders ∧ a ≠ requester).
  { intros (a & Ha & Hne). by apply Hne, (only_requester holders). }
  assert (Hsingle : take 3 (shuffle [requester]) = [requester]).
  { pose proof (shuffle_permutes [requester]) as Hp. by apply Permutation_singleton_r in Hp as ->. }
  destruct (get_space self s) as [space|] eqn:Hsp; cbn [mbind Outcome_bind].
  2: { rewrite decide_True by done. eexists. split; [reflexivity|]. rewrite Hsingle.
       split_and!; [done|cbn; lia|apply NoDup_singleton|done| |done].
       intros a ->%list_elem_of_singleton. done. }
  destruct (should_hold_total space e Hloc) as [agents Hag]. rewrite Hag. cbn [mbind Outcome_bind].
  destruct (decide (agents ∖ {[requester]} = ∅)) as [He|Hne]; (eexists; split; [reflexivity|]).
  - rewrite Hsingle. split_and!; [done|cbn; lia|apply NoDup_singleton|done| |].
    { intros a ->%list_elem_of_singleton. done. }
    intros _. split; [done|]. intros ? ? [= <-] Heq a Ha. rewrite Hag in Heq. injection Heq as <-.
    apply elem_of_singleton. by apply (only_requester agents).
  - destruct (taken_of_set _ Hne) as (? & ? & ? & Hin). split_and!; try done.
    + intros a [Ha _]%Hin%elem_of_difference _. right. by exists space, agents.
    + intros [_ Hr]%Hin%elem_of_difference. by rewrite elem_of_singleton in Hr.
Qed.
End queries.

(** ** Messages stay in their space *)

Section spaces.
Context `{Locations}.
Variable WIRE_VERSION : Z.
Variable redundant_count : Z.
Variable space_json : Space → string.

(** The space of a message to a client. *)
Definition data_space (data : Lib3hToClient) : string :=
  match data with
  | Lib3hToClient_HandleGetGossipingEntryList s _ | Lib3hToClient_HandleGetAuthoringEntryList s _
  | Lib3hToClient_HandleStoreEntryAspect s _ _ _ | Lib3hToClient_HandleFetchEntry s _ _ _ => s
  | Lib3hToClient_HandleSendDirectMessage dm | Lib3hToClient_SendDirectMessageResult dm => dm_space_address dm
  | Lib3hToClient_HandleQueryEntry q => qe_space_address q
  end.

(** The spaces a message tells of. *)
Definition message_spaces (m : WireMessage) : list string :=
  match m with
  | WireMessage_DebugResponse spaces => (map_to_list spaces).*1
  | WireMessage_Lib3hToClient data => [data_space data]
  | WireMessage_MultiSend l => data_space <$> l
  | WireMessage_ClientToLib3hResponse (ClientToLib3hResponse_SendDirectMessageResult dm) =>
      [dm_space_address dm]
  | WireMessage_ClientToLib3hResponse (ClientToLib3hResponse_QueryEntryResult data) =>
      [qr_space_address data]
  | _ => []
  end.

Definition is_ack (m : WireMessage) : bool :=
  match m with WireMessage_Ack _ => true | _ => false end.

Definition is_debug_response (m : WireMessage) : bool :=
  match m with WireMessage_DebugResponse _ => true | _ => false end.

Section history.
Variable history : list AolEntry.
Variable received : list (string * option SignedWireMessage).

(** The agent asked to join the space at the address. *)
Definition asked_to_join (s a u : string) : Prop := AolEntry_NewConnection s a u ∈ history.

(** A request for debug information came from the address, in the name of the agent. *)
Definition asked_for_debug (a u : string) : Prop :=
  ∃ signed, (u, Some signed) ∈ received ∧ sw_message signed = WireMessage_Debug ∧ sw_source signed = a.

Definition store_joined (store : Store) : Prop :=
  ∀ s space a con, spaces store !! s = Some space → connections space !! a = Some con →
    asked_to_join s a (con_uri con).

Definition sound_store (store : Store) : Prop := wf_store store ∧ store_joined store.

Definition sound_message (a u : string) (m : WireMessage) : Prop :=
  if is_debug_response m then asked_for_debug a u
  else ∀ s, s ∈ message_spaces m → asked_to_join s a u.

Definition sound_task (t : Task) : Prop :=
  match t with
  | Task_Status _ _ receipt | Task_Joined _ _ _ receipt => is_ack receipt = true
  | Task_Debug uri signer receipt => is_ack receipt = true ∧ asked_for_debug signer uri
  | Task_Deliver s _ m => is_debug_response m = false ∧ ∀ s', s' ∈ message_spaces m → s' = s
  | Task_AuthoringList s uri signer _ => asked_to_join s signer uri
  | Task_Query s data => qe_space_address data = s
  | _ => True
  end.

(** Effects that are sound, if what they log counts as asked for. *)
Definition sound_effect (e : Effect) : Prop :=
  match e with
  | Effect_Send a u m => sound_message a u m
  | Effect_Mutate _ replies => ∀ a u m, (a, u, m) ∈ replies → sound_message a u m
  | Effect_Close _ => True
  end.

Definition sound_effects (effects : Effects) : Prop :=
  Forall sound_effect effects.1 ∧ Forall sound_task effects.2.

Lemma sound_nil : sound_effects no_effects.
Proof. by split. Qed.

Lemma sound_spawn t : sound_task t → sound_effects (spawn_task t).
Proof. intros Ht. split; [done|]. by constructor. Qed.

Lemma sound_do l : Forall sound_effect l → sound_effects (do_effects l).
Proof. by split. Qed.

Lemma sound_join l : Forall sound_effects l → sound_effects (join_effects l).
Proof. intros Hl. split; apply Forall_bind; (eapply Forall_impl; [exact Hl|]); by intros ? []. Qed.

Lemma sound_mutate entry : sound_effect (Effect_Mutate entry []).
Proof. intros a u m. by intros ?%not_elem_of_nil. Qed.

Lemma sound_disconnect uris : sound_effects (do_effects (disconnect uris)).
Proof.
  apply sound_do, Forall_bind, Forall_true. intros d. repeat constructor. apply sound_mutate.
Qed.

Lemma sound_receipt a u m : is_debug_response m = false → message_spaces m = [] → sound_message a u m.
Proof. unfold sound_message. intros -> Hm s. rewrite Hm. by intros ?%not_elem_of_nil. Qed.

Lemma sound_ack a u m : is_ack m = true → sound_message a u m.
Proof. destruct m; try done. intros _. by apply sound_receipt. Qed.

Lemma sound_send_joined store s a m :
  sound_store store → is_debug_response m = false → (∀ s', s' ∈ message_spaces m → s' = s) →
  Forall sound_effect (send_joined store s a m).
Proof.
  intros [_ Hj] Hd Hm. unfold send_joined, lookup_joined, get_space.
  destruct (spaces store !! s) as [space|] eqn:Hs; cbn; [|done].
  destruct (connections space !! a) as [con|] eqn:Hc; cbn; [|done].
  constructor; [|done]. cbn. unfold sound_message. rewrite Hd. intros s' ->%Hm. by eapply Hj.
Qed.

Lemma space_info_joined store uri a s : sound_store store →
  get_space_info_from_uri store uri = Some (a, s) → asked_to_join s a uri.
Proof.
  intros [[Hw] Hj] Hi. unfold get_space_info_from_uri in Hi.
  apply head_Some_elem_of, list_elem_of_omap in Hi as ([s0 space] & Hin%elem_of_map_to_list & Hu).
  cbn in Hu. destruct (uri_to_connection space !! uri) as [a0|] eqn:Ha; simplify_eq/=.
  destruct (Hw _ _ Hin) as ([_ Huri _] & _). destruct (Huri _ _ Ha) as (con & Hcon & <-).
  by eapply Hj.
Qed.

Lemma sound_client_to_lib3h data uri signer s : sound_effects (client_to_lib3h data uri signer s).
Proof.
  destruct data; cbn [client_to_lib3h]; try apply sound_nil; try apply sound_disconnect.
  - unfold send_dmx. case_decide; [|apply sound_nil]. apply sound_spawn. split; [done|]. cbn.
    by intros s' ->%list_elem_of_singleton.
  - unfold handle_message_publish_entry. case_decide; [|apply sound_nil]. by apply sound_spawn.
  - unfold handle_message_query_entry. case_decide; [|apply sound_nil]. apply sound_spawn. cbn. tauto.
Qed.

Lemma sound_list_data signer s data : sound_effects (handle_message_list_data signer s data).
Proof.
  unfold handle_message_list_data. case_decide; [|apply sound_nil].
  apply sound_do, Forall_bind, Forall_true. intros [e l]. cbn. case_decide; [done|].
  constructor; [apply sound_mutate|done].
Qed.

Lemma sound_response data uri signer s : asked_to_join s signer uri →
  sound_effects (lib3h_to_client_response data uri signer s).
Proof.
  intros Hj. destruct data; cbn [lib3h_to_client_response]; try apply sound_nil; try apply sound_list_data.
  - unfold send_dmx. case_decide; [|apply sound_nil]. apply sound_spawn. split; [done|]. cbn.
    by intros s' ->%list_elem_of_singleton.
  - apply sound_join. constructor; [apply sound_list_data|]. constructor; [|done].
    unfold handle_message_authoring_entry_list. case_decide; [by apply sound_spawn|apply sound_nil].
  - unfold handle_message_fetch_entry_result. case_decide; [by apply sound_spawn|apply sound_nil].
  - unfold handle_message_query_entry_result. case_decide; [|apply sound_nil]. apply sound_spawn. split; [done|]. cbn.
    intros s' ->%list_elem_of_singleton. tauto.
Qed.

Lemma sound_handle_joined store uri signer message receipt :
  sound_store store → is_ack receipt = true →
  sound_effects (handle_joined store uri signer message receipt).
Proof.
  intros Hst Hr. unfold handle_joined.
  destruct (get_space_info_from_uri store uri) as [[a s]|] eqn:Hi; [|apply sound_disconnect].
  case_decide; [subst a|apply sound_nil]. pose proof (space_info_joined _ _ _ _ Hst Hi) as Hj.
  apply sound_join. constructor; [|constructor; [|done]].
  - apply sound_do. constructor; [by apply sound_ack|done].
  - destruct message; try apply sound_nil; [apply sound_client_to_lib3h|by apply sound_response|].
    apply sound_join, Forall_fmap, Forall_true. intros d. by apply sound_response.
Qed.

(** Sends to a set of agents. *)
Lemma sound_send_all store s (l : list string) (f : string → WireMessage) :
  sound_store store → (∀ a, is_debug_response (f a) = false) → (∀ a s', s' ∈ message_spaces (f a) → s' = s) →
  Forall sound_effect (l ≫= λ a, send_joined store s a (f a)).
Proof. intros Hst Hd Hf. apply Forall_bind, Forall_true. intros b. apply sound_send_joined; eauto. Qed.

Lemma sound_fetch_entry_data shuffle t store s l fetched r fetched' : sound_store store →
  fetch_entry_data shuffle t store s l fetched = Ret (r, fetched') → Forall sound_effect r.
Proof.
  intros Hst. revert fetched r fetched'. induction l as [|[e asp] l IH]; intros fetched r fetched'; cbn.
  { by intros [= <- <-]. }
  case_decide; [apply IH|]. destruct (check_already_fetched t fetched e) as [[] fetched1]; [apply IH|].
  destruct (get_agents_for_query _ _ _ _ _) as [agents| |]; cbn; [|done..].
  destruct (fetch_entry_data _ _ _ _ l fetched1) as [[more f2]| |] eqn:Hmore; cbn; [|done..].
  intros [= <- <-]. apply Forall_app. split; [|by eapply IH].
  destruct agents as [|b agents]; [done|].
  apply sound_send_joined; [done|done|]. by intros s' ->%list_elem_of_singleton.
Qed.

Lemma sound_run_task count shuffle t store fetched task effects fetched' :
  sound_store store → sound_task task →
  run_task WIRE_VERSION redundant_count count space_json shuffle t store fetched task =
    Ret (effects, fetched') → sound_effects effects.
Proof.
  intros Hst Hok. destruct task; cbn [run_task sound_task] in *.
  - intros [= <- _]. apply sound_do. repeat constructor; [by apply sound_receipt|by apply sound_ack].
  - destruct Hok as [Hr Hasked]. intros [= <- _]. apply sound_do. repeat constructor; [done|by apply sound_ack].
  - intros [= <- _]. by apply sound_handle_joined.
  - destruct Hok. intros [= <- _]. apply sound_do. by apply sound_send_joined.
  - unfold run_publish. case_decide; cbn; [intros [= <- _]; apply sound_nil|].
    destruct (get_space store space_hash); cbn; [|intros [= <- _]; apply sound_nil].
    destruct (get_agents_that_should_hold_entry _ _) as [agents| |]; cbn; [|done..].
    intros [= <- _]. apply sound_do, sound_send_all; [done|done|].
    intros _ s' (d & -> & (asp & -> & _)%list_elem_of_fmap)%list_elem_of_fmap. done.
  - unfold run_authoring_list. destruct (each_outcome _ _) as [l| |] eqn:Hl; cbn; [|done..].
    intros [= <- _]. apply sound_do. case_decide; [done|].
    constructor; [|done]. intros s' (d & -> & Hd)%list_elem_of_fmap.
    enough (data_space d = space_hash) as -> by done. clear -Hl Hd. revert l Hl Hd.
    induction (el_address_map data) as [|[e asp] rest IH]; intros l Hl Hd; cbn in Hl.
    { injection Hl as <-. by apply not_elem_of_nil in Hd. }
    destruct (lacking _ _ _ _) as [asps| |]; cbn in Hl; [|done..].
    destruct (each_outcome _ rest) as [ys| |]; cbn in Hl; [|done..]. injection Hl as <-. cbn in Hd.
    apply elem_of_app in Hd as [Hd|Hd]; [|by eapply IH].
    case_decide; [by apply not_elem_of_nil in Hd|]. by apply list_elem_of_singleton in Hd as ->.
  - unfold run_fetch_result. destruct (each_outcome _ _) as [l| |]; cbn; [|done..].
    intros [= <- _]. apply sound_do, sound_send_all; [done|done|].
    intros a s' (d & -> & (asp & -> & _)%list_elem_of_fmap)%list_elem_of_fmap. done.
  - unfold run_query. destruct (get_agents_for_query _ _ _ _ _) as [agents| |]; cbn; [|done..].
    destruct (head agents) as [b|]; cbn; [|done]. intros [= <- _]. apply sound_do.
    apply sound_send_joined; [done|done|]. by intros s' ->%list_elem_of_singleton.
  - destruct (get_space store space_hash) as [space|]; [|intros [= <- _]; apply sound_nil].
    destruct (fetch_entry_data _ _ _ _ _ _) as [[l f]| |] eqn:Hl; cbn; [|done..].
    intros [= <- _]. apply sound_do. by eapply sound_fetch_entry_data.
Qed.
End history.

(** More history makes nothing unsound. *)
Section more.
Context (h h' : list AolEntry) (r r' : list (string * option SignedWireMessage)) (Hh : h ⊆ h') (Hr : r ⊆ r').

Lemma asked_for_debug_mono a u : asked_for_debug r a u → asked_for_debug r' a u.
Proof. intros (signed & Hin & ?). exists signed. auto. Qed.
Lemma sound_message_mono a u m : sound_message h r a u m → sound_message h' r' a u m.
Proof.
  unfold sound_message. case_match; [apply asked_for_debug_mono|]. intros Hm s Hs. by apply Hh, Hm.
Qed.
Lemma sound_effect_mono e : sound_effect h r e → sound_effect h' r' e.
Proof. destruct e; cbn; [|intros Hm a u m Hin|done]; eauto using sound_message_mono. Qed.
Lemma sound_task_mono t : sound_task h r t → sound_task h' r' t.
Proof. destruct t; cbn; try done; [intros [? ?]; eauto using asked_for_debug_mono|apply Hh]. Qed.
Lemma sound_effects_mono effects : sound_effects h r effects → sound_effects h' r' effects.
Proof.
  intros [He Ht]. split; (eapply Forall_impl; [eassumption|]);
    eauto using sound_effect_mono, sound_task_mono.
Qed.
Lemma sound_store_mono store : sound_store h store → sound_store h' store.
Proof. intros [? Hj]. split; [done|]. intros ? * Hs Hc. by eapply Hh, Hj. Qed.
End more.

Lemma space_gossip_uris chance space space' agents a con' :
  Space_check_gossip chance space = Ret (space', agents) → connections space' !! a = Some con' →
  ∃ con, connections space !! a = Some con ∧ con_uri con = con_uri con'.
Proof.
  unfold Space_check_gossip. case_decide; [intros [= <- _] ?; by eexists|].
  destruct (Z.ltb _ _); [|done]. intros [= <- _]. cbn. rewrite map_lookup_imap.
  destruct (connections space !! a) as [con|]; cbn; [|done]. intros [= <-]. exists con.
  split; [done|]. by case_decide.
Qed.

Lemma gossip_spaces_uris chance l m data s space' a con' :
  check_gossip_spaces chance l = Ret (m, data) → m !! s = Some space' → connections space' !! a = Some con' →
  ∃ space con, (s, space) ∈ l ∧ connections space !! a = Some con ∧ con_uri con = con_uri con'.
Proof.
  revert m data. induction l as [|[s0 sp0] l IH]; intros m data; cbn; [by intros [= <- _]|].
  destruct (Space_check_gossip chance sp0) as [[sp ags]| |] eqn:Hsp; cbn; [|done..].
  destruct (check_gossip_spaces chance l) as [[m' d']| |] eqn:Hrest; cbn; [|done..].
  intros [= <- _]. rewrite lookup_insert. case_decide.
  - intros [= <-] Hcon. subst s0. destruct (space_gossip_uris _ _ _ _ _ _ Hsp Hcon) as (con & ? & ?).
    exists sp0, con. split; [by left|done].
  - intros Hs Hcon. destruct (IH _ _ eq_refl Hs Hcon) as (sp1 & con & ? & ?).
    exists sp1, con. split; [by right|done].
Qed.

(** A connection after an entry was there before at the same address, or is what
    the entry asks for. *)
Lemma mutate_uris chance store entry store' r s space' a con' :
  mutate chance store entry = Ret (store', r) →
  spaces store' !! s = Some space' → connections space' !! a = Some con' →
  entry = AolEntry_NewConnection s a (con_uri con') ∨
  ∃ space con, spaces store !! s = Some space ∧ connections space !! a = Some con ∧
    con_uri con = con_uri con'.
Proof.
  assert (Hmut : ∀ sp t, connections (get_space_mut store sp) !! a = Some t →
    ∃ space con, spaces store !! sp = Some space ∧ connections space !! a = Some con ∧ con_uri con = con_uri t).
  { intros sp t. unfold get_space_mut. destruct (spaces store !! sp) as [space|]; cbn; [|done].
    intros Ht. by exists space, t. }
  destruct entry; cbn.
  - unfold new_connection, check_insert_connection.
    destruct (calc_location_for_id agent_id) as [loc|]; cbn.
    + destruct (gen_range _ _ _) as [x| |]; cbn; [|done..]. case_match eqn:Hm. cbn. intros [= <- _]. cbn.
      rewrite lookup_insert. case_decide; [subst|intros; right; by exists space', con'].
      intros [= <-]. cbn. rewrite lookup_insert. case_decide; [subst; intros [= <-]; by left|].
      intros Ht. right. by apply Hmut.
    + intros [= <- _]. cbn. rewrite lookup_insert. case_decide; [subst|intros; right; by exists space', con'].
      intros [= <-] Ht. right. by apply Hmut.
  - intros [= <- _]. cbn. intros [(sp & <- & Hsp)%lookup_fmap_Some _]%map_lookup_filter_Some.
    intros Hcon. right. exists sp, con'. split_and!; [done| |done].
    case_match; [|done]. unfold drop_connection_inner in Hcon. case_match; [|done]. cbn in Hcon.
    by apply lookup_delete_Some in Hcon as [_ ?].
  - unfold Store_agent_holds_aspects, agent_holds_aspects, priv_check_insert_entry_hash.
    intros Hr. assert (Hsp : ∃ sp, store' = set_spaces store (<[space_hash := sp]> (spaces store)) ∧
      connections sp = connections (get_space_mut store space_hash)).
    { case_match; cbn in Hr; [injection Hr as <- _; by eexists|].
      destruct (entry_location entry_hash); cbn in Hr; [|done..]. injection Hr as <- _. by eexists. }
    destruct Hsp as (sp & -> & Hc). cbn. rewrite lookup_insert.
    case_decide; [subst|intros; right; by exists space', con'].
    intros [= <-]. rewrite Hc. intros Ht. right. by apply Hmut.
  - unfold Store_check_gossip. destruct (check_gossip_spaces _ _) as [[m d]| |] eqn:Hm; cbn; [|done..].
    intros [= <- _]. cbn. intros Hs Hcon. right.
    destruct (gossip_spaces_uris _ _ _ _ _ _ _ _ Hm Hs Hcon) as (sp & con & Hin%elem_of_map_to_list & ? & ?).
    by exists sp, con.
  - intros [= <- _]. cbn. intros (sp & <- & Hsp)%lookup_fmap_Some Hcon. right. by exists sp, con'.
Qed.

Record sys_inv (sys : System) : Prop := {
  inv_store : sound_store (sys_history sys) (sys_store sys);
  inv_view : sound_store (sys_history sys) (sys_view sys);
  inv_writes copy effects : (copy, effects) ∈ sys_writes sys →
    sound_store (sys_history sys) copy ∧ sound_effects (sys_history sys) (sys_received sys) effects;
  inv_log entry replies : (entry, replies) ∈ sys_log sys →
    entry ∈ sys_history sys ∧
    sound_effect (sys_history sys) (sys_received sys) (Effect_Mutate entry replies);
  inv_tasks : Forall (sound_task (sys_history sys) (sys_received sys)) (sys_tasks sys);
  inv_sent a u m : (a, u, m) ∈ sys_sent sys → sound_message (sys_history sys) (sys_received sys) a u m;
}.

Lemma receive_inv sys url payload : sys_inv sys → sys_inv (receive sys url payload).
Proof.
  intros [Hs Hv Hw Hl Ht Hm].
  assert (Hr : sys_received sys ⊆ (sys_received sys ++ [(url, payload)])%list) by set_solver.
  split; cbn; try done.
  - intros copy effects Hin. destruct (Hw _ _ Hin). split; [done|]. by eapply sound_effects_mono.
  - intros entry replies Hin. destruct (Hl _ _ Hin) as [? He]. split; [done|].
    exact (sound_effect_mono _ _ _ _ (λ _ H, H) Hr (Effect_Mutate entry replies) He).
  - eapply Forall_impl; [exact Ht|]. intros t. by apply sound_task_mono.
  - intros a u m Hin. eapply sound_message_mono; [done|exact Hr|auto].
Qed.

Lemma apply_effects_inv sys effects : sys_inv sys →
  sound_effects (sys_history sys ++ (logged effects.1).*1) (sys_received sys) effects →
  sys_inv (apply_effects sys effects).
Proof.
  intros [Hs Hv Hw Hl Ht Hm] [Hsend Htask]. rewrite Forall_forall in Hsend.
  assert (Hh : sys_history sys ⊆ (sys_history sys ++ (logged effects.1).*1)%list).
  { intros e He. apply elem_of_app. by left. }
  pose proof (λ x (H : x ∈ sys_received sys), H) as Hr.
  split; cbn; eauto using sound_store_mono.
  - intros copy e Hin. destruct (Hw _ _ Hin). eauto using sound_store_mono, sound_effects_mono.
  - intros entry replies [He|He]%elem_of_app.
    + destruct (Hl _ _ He) as [? Hmu]. split; [auto|].
      exact (sound_effect_mono _ _ _ _ Hh Hr (Effect_Mutate entry replies) Hmu).
    + split; [apply elem_of_app; right; apply list_elem_of_fmap; by exists (entry, replies)|].
      apply list_elem_of_omap in He as (e & Hin & He). destruct e; simplify_eq. exact (Hsend _ Hin).
  - apply Forall_app. split; [|done]. eapply Forall_impl; eauto using sound_task_mono.
  - intros a u m [He|He]%elem_of_app; [eauto using sound_message_mono|].
    apply list_elem_of_omap in He as (e & Hin & He). destruct e; simplify_eq. exact (Hsend _ Hin).
Qed.

(** Effects that are sound without what they log. *)
Lemma apply_sound_inv sys effects : sys_inv sys →
  sound_effects (sys_history sys) (sys_received sys) effects → sys_inv (apply_effects sys effects).
Proof.
  intros Hi He. apply apply_effects_inv; [done|]. eapply sound_effects_mono; [|done|exact He].
  intros e Hin. apply elem_of_app. by left.
Qed.

Lemma sound_handle_message h r uri signed :
  (uri, Some signed) ∈ r →
  let effects := handle_message WIRE_VERSION redundant_count uri (sw_message signed) (sw_source signed)
                   (WireMessage_Ack (sw_hash signed)) in
  sound_effects (h ++ (logged effects.1).*1)%list r effects.
Proof.
  intros Hin. destruct (sw_message signed) as [data| | | | | | | | | | | | | | |] eqn:Hm; cbn [handle_message];
    try apply sound_nil; try by apply sound_spawn.
  - destruct data; try by apply sound_spawn. unfold handle_message_join_space. apply sound_do.
    constructor; [|done]. intros a u m Hr.
    repeat (apply elem_of_cons in Hr as [[= -> -> ->]|Hr]; [|]); [by apply sound_ack|..];
      [..|by apply not_elem_of_nil in Hr];
      (intros s ->%list_elem_of_singleton; apply elem_of_app; right; by left).
  - apply sound_do. repeat constructor; [by apply sound_receipt|by apply sound_ack].
  - unfold handle_message_hello. apply sound_do. constructor; [by apply sound_receipt|].
    constructor; [by apply sound_ack|]. case_match; [done|]. apply (sound_disconnect _ _ [uri]).
  - apply sound_spawn. split; [done|]. by exists signed.
Qed.

Lemma sound_completed h r replies entry resp :
  sound_effect h r (Effect_Mutate entry replies) → sound_effects h r (completed replies resp).
Proof.
  intros Hr. apply sound_join. constructor; [|constructor; [|done]].
  - apply sound_do, Forall_fmap, Forall_forall. intros [[a u] m]. apply Hr.
  - destruct resp; cbn; [apply sound_nil| |apply sound_disconnect]. split; [done|]. cbn.
    apply Forall_bind, Forall_true. intros [s agents]. by apply Forall_fmap, Forall_true.
Qed.

Lemma sim2h_step_inv sys sys' :
  sim2h_step WIRE_VERSION redundant_count space_json sys sys' → sys_inv sys → sys_inv sys'.
Proof.
  intros Hstep Hi. pose proof Hi as [Hs Hv Hw Hl Ht Hm].
  destruct Hstep as [url payload effects Hp|chance entry replies log store r Hlog Hmut|l1 copy effects l2 Hcopy
    |l1 task l2 t count shuffle effects fetched Htask Hsh Hrun|entry He|uri].
  - apply apply_effects_inv; [by apply receive_inv|]. unfold handle_payload in Hp.
    destruct payload as [signed|]; [|injection Hp as <-; apply (sound_disconnect _ _ [url])].
    destruct (match sw_message signed with WireMessage_ClientToLib3h _ => _ | _ => _ end)
      as [[]| |]; cbn [mbind Outcome_bind] in Hp; [| |done..]; injection Hp as <-;
      [apply sound_handle_message; cbn; set_solver|apply (sound_disconnect _ _ [url])].
  - destruct Hs as [Hwf Hj]. destruct (Hl entry replies) as [Hentry Hr]; [rewrite Hlog; by left|].
    assert (Hs' : sound_store (sys_history sys) store).
    { split; [by eapply mutate_wf|]. intros s space a con Hsp Hcon.
      destruct (mutate_uris _ _ _ _ _ _ _ _ _ Hmut Hsp Hcon) as [->|(sp & c & Hsp' & Hc & <-)];
        [done|by eapply Hj]. }
    split; cbn; try done.
    + intros c e [Hc | [= -> ->]%list_elem_of_singleton]%elem_of_app; [auto|].
      split; [done|]. by eapply sound_completed.
    + intros e l He. apply Hl. rewrite Hlog. by right.
  - destruct (Hw copy effects) as [Hcp He]; [rewrite Hcopy; apply elem_of_app; right; by left|].
    apply apply_sound_inv; [|done]. split; cbn; try done.
    intros c e Hc. apply Hw. rewrite Hcopy. rewrite elem_of_app in *. rewrite elem_of_cons. tauto.
  - rewrite Htask in Ht. apply Forall_app in Ht as [Ht1 [Htk Ht2]%Forall_cons].
    apply apply_sound_inv; [|cbn; by eapply sound_run_task].
    split; cbn; try done. by apply Forall_app.
  - apply apply_sound_inv; [done|]. apply sound_do. constructor; [apply sound_mutate|done].
  - apply apply_sound_inv; [done|]. apply (sound_disconnect _ _ [uri]).
Qed.

(** C15: However payloads, log entries, copies of the store and tasks interleave, a
    message that tells of a space is only ever sent to an agent at an address from which
    this agent was asked to be joined to that space, with one exception: the answer to a
    request for debug information has all spaces, and is sent to whoever asked for it,
    at the address from which the request came.  Nothing has to be joined for that. *)
Theorem messages_stay_in_their_space redundancy interval sys a u m s :
  rtc (sim2h_step WIRE_VERSION redundant_count space_json)
    (System_new (Store_new redundancy interval)) sys →
  (a, u, m) ∈ sys_sent sys → s ∈ message_spaces m →
  AolEntry_NewConnection s a u ∈ sys_history sys ∨
  is_debug_response m = true ∧
  ∃ signed, (u, Some signed) ∈ sys_received sys ∧ sw_message signed = WireMessage_Debug ∧ sw_source signed = a.
Proof.
  intros Hsteps Hsent Hs. assert (Hi : sys_inv sys).
  { assert (H0 : sys_inv (System_new (Store_new redundancy interval))).
    { assert (Hst : sound_store [] (Store_new redundancy interval)) by by split.
      split; cbn; try done; intros *; by intros ?%not_elem_of_nil. }
    revert H0. clear -Hsteps. induction Hsteps; eauto using sim2h_step_inv. }
  pose proof (inv_sent _ Hi _ _ _ Hsent) as Hm. unfold sound_message in Hm.
  destruct (is_debug_response m); [by right|left; by apply Hm].
Qed.

(** Whoever asks for debug information, with whatever signature, is told all spaces of
    the server. *)
Theorem debug_reveals_spaces url signed store connection_count shuffle t fetched s space :
  sw_message signed = WireMessage_Debug → spaces store !! s = Some space →
  ∃ effects task answer m,
    handle_payload WIRE_VERSION redundant_count url (Some signed) = Ret effects ∧ task ∈ effects.2 ∧
    run_task WIRE_VERSION redundant_count connection_count space_json shuffle t store fetched task =
      Ret (answer, fetched) ∧
    Effect_Send (sw_source signed) url m ∈ answer.1 ∧ s ∈ message_spaces m.
Proof.
  intros Hm Hs. unfold handle_payload. rewrite Hm. do 4 eexists. split; [reflexivity|]. cbn.
  split; [by left|]. split; [reflexivity|]. cbn. split; [by left|]. cbn.
  apply list_elem_of_fmap. exists (s, space_json space). split; [done|]. apply elem_of_map_to_list.
  by rewrite lookup_fmap, Hs.
Qed.
End spaces.

(** ** Joining *)

Section joining.
Context `{Locations}.
Variable WIRE_VERSION : Z.
Variable redundant_count : Z.

(** A connection that was made leads from the address to the agent and back. *)
Lemma new_connection_joined chance store s a uri loc store' r :
  calc_location_for_id a = Some loc →
  (∀ s' space, spaces store !! s' = Some space → s' ≠ s → uri_to_connection space !! uri = None) →
  mutate chance store (AolEntry_NewConnection s a uri) = Ret (store', r) →
  lookup_joined store' s a = Some uri ∧ get_space_info_from_uri store' uri = Some (a, s).
Proof.
  intros Hloc Hother. cbn. unfold new_connection, check_insert_connection. rewrite Hloc.
  destruct (gen_range _ _ _) as [t| |]; cbn; [|done..]. case_match eqn:Hm. cbn. intros [= <- _].
  split.
  - unfold lookup_joined, get_space. cbn. rewrite lookup_insert_eq. cbn. by rewrite lookup_insert_eq.
  - unfold get_space_info_from_uri. set (found := omap _ _).
    assert (Hall : ∀ x, x ∈ found ↔ x = (a, s)).
    { intros x. unfold found. rewrite list_elem_of_omap. split.
      - intros ([s' sp] & Hin%elem_of_map_to_list & Hx). cbn in Hin. rewrite lookup_insert in Hin.
        case_decide; [|by rewrite (Hother s' sp) in Hx by done]. subst. injection Hin as <-. cbn in Hx.
        rewrite lookup_insert_eq in Hx. cbn in Hx. congruence.
      - intros ->. eexists (s, _). split; [apply elem_of_map_to_list; cbn; apply lookup_insert_eq|].
        cbn. by rewrite lookup_insert_eq. }
    clearbody found. destruct found as [|x found].
    { exfalso. by apply (not_elem_of_nil (a, s)), Hall. }
    cbn. f_equal. apply Hall. by left.
Qed.

(** C34: Joining is not authenticated.  A request to join is accepted if its
    signature is valid for whoever signed it, not for the agent that joins: anyone
    can so connect any agent at their own address.  From then on the messages for
    this agent go to that address, and messages from that address that only claim
    to come from the agent, with no signature, are delivered as the agent's. *)
Theorem joining_is_not_authenticated attacker victim s uri hash chance store loc store' r dm :
  calc_location_for_id victim = Some loc →
  (∀ s' space, spaces store !! s' = Some space → s' ≠ s → uri_to_connection space !! uri = None) →
  mutate chance store (AolEntry_NewConnection s victim uri) = Ret (store', r) →
  dm_space_address dm = s →
  (∃ effects, handle_payload WIRE_VERSION redundant_count uri (Some
     {| sw_source := attacker; sw_verify := Some true; sw_hash := hash;
        sw_message := WireMessage_ClientToLib3h
          (ClientToLib3h_JoinSpace {| sd_space_address := s; sd_agent_id := victim |}) |}) = Ret effects ∧
     AolEntry_NewConnection s victim uri ∈ (logged effects.1).*1) ∧
  (∀ m, send_joined store' s victim m = [Effect_Send victim uri m]) ∧
  (handle_payload WIRE_VERSION redundant_count uri (Some
     {| sw_source := victim; sw_verify := None; sw_hash := hash;
        sw_message := WireMessage_ClientToLib3h (ClientToLib3h_SendDirectMessage dm) |}) =
   Ret (spawn_task (Task_Joined uri victim
     (WireMessage_ClientToLib3h (ClientToLib3h_SendDirectMessage dm)) (WireMessage_Ack hash)))) ∧
  Task_Deliver s (dm_to_agent_id dm) (WireMessage_Lib3hToClient (Lib3hToClient_HandleSendDirectMessage dm))
    ∈ (handle_joined store' uri victim (WireMessage_ClientToLib3h (ClientToLib3h_SendDirectMessage dm))
         (WireMessage_Ack hash)).2.
Proof.
  intros Hloc Hother Hmut Hdm.
  destruct (new_connection_joined _ _ _ _ _ _ _ _ Hloc Hother Hmut) as [Hj Hi].
  split_and!.
  - eexists. split; [reflexivity|]. by left.
  - intros m. unfold send_joined. by rewrite Hj.
  - done.
  - unfold handle_joined. rewrite Hi, decide_True by done. cbn [client_to_lib3h].
    unfold send_dmx. rewrite decide_True by done. by left.
Qed.

(** An agent that joins again at its address is listed to be disconnected there,
    although it is connected there now. *)
Theorem rejoining_disconnects t rnd space a con space' : connections space !! a = Some con →
  check_insert_connection t rnd space a (con_uri con) = Ret space' →
  calc_location_for_id a ≠ None →
  con_uri con ∈ disconnect_uri space' ∧
  ∃ con', connections space' !! a = Some con' ∧ con_uri con' = con_uri con.
Proof.
  intros Hc. unfold check_insert_connection. destruct (calc_location_for_id a); [|done]. intros Hr _.
  destruct (gen_range _ _ _); cbn in Hr; [|done..]. rewrite Hc in Hr. injection Hr as <-. cbn. split.
  - apply elem_of_app. right. by left.
  - rewrite lookup_insert_eq. by eexists.
Qed.
End joining.

(** ** Examples *)

Section examples.
#[local] Instance toy_locations : Locations := {
  calc_location_for_id s := Some (Z.of_nat (String.length s));
  hcs0_of_sha256 s := s;
  forward_distance_to a b := ((b - a) mod 2 ^ 32)%Z;
  ARC_LENGTH_MAX := 4294967295;
}.

Lemma toy_locatable : locatable.
Proof. intros e. by eexists. Qed.

Definition toy_chance : Chance := {| now := 0; random := λ _, 0%Z |}.

(** Two agents, one of which holds an aspect. *)
Definition example_log : list (Chance * AolEntry) :=
  [(toy_chance, AolEntry_NewConnection "app" "alice" "u1");
   (toy_chance, AolEntry_NewConnection "app" "bob" "u2");
   (toy_chance, AolEntry_AgentHoldsAspects "app" "alice" "entry" {["aspect"]})].

Definition example_store : Store :=
  match run_log (Store_new 0 None) example_log with Ret s => s | _ => Store_new 0 None end.

Lemma store_stays_in_step_witness :
  ∃ s, run_log (Store_new 0 None) example_log = Ret s ∧ wf_store s.
Proof. exact (store_stays_in_step 0 example_log toy_locatable). Defined.

Lemma example_wf : wf_space (get_space_mut example_store "app").
Proof.
  apply get_space_mut_wf. unfold example_store.
  destruct (run_log_wf (Store_new 0 None) example_log toy_locatable (Store_new_wf _ _) eq_refl)
    as (s & Hs & Hw). by rewrite Hs.
Qed.

Lemma missing_aspects_agree_witness :
  ∃ needing, get_agents_that_need_aspect (get_space_mut example_store "app") "entry" "aspect" = Ret needing ∧
    ∀ a, a ∈ needing ↔ ∃ missing,
      get_gossip_aspects_needed_for_agent (get_space_mut example_store "app") a !! "entry" = Some missing ∧
      "aspect" ∈ missing.
Proof. exact (missing_aspects_agree (get_space_mut example_store "app") "entry" "aspect" example_wf). Defined.

(** Bob lacks the aspect, and is sent to Alice for it. *)
Lemma example_missing :
  get_agents_that_need_aspect (get_space_mut example_store "app") "entry" "aspect" = Ret {["bob"]} ∧
  get_agents_for_query (λ l, l) example_store "app" "entry" (Some "bob") = Ret ["alice"].
Proof. by vm_compute. Qed.

Lemma query_targets_witness :
  ∃ out, get_agents_for_query (λ l, l) example_store "app" "entry" (Some "bob") = Ret out ∧
    out ≠ [] ∧ (length out ≤ 3)%nat.
Proof.
  destruct (query_targets (λ l, l) (λ l, reflexivity l) example_store "app" "entry" "bob" toy_locatable)
    as (out & Hout & Hne & Hlen & _).
  exists out. split; [exact Hout|]. split; [exact Hne|exact Hlen].
Defined.

(** A request to join, and what it sends. *)
Definition join_payload (source agent : string) : SignedWireMessage :=
  {| sw_source := source; sw_verify := Some true; sw_hash := 1;
     sw_message := WireMessage_ClientToLib3h
       (ClientToLib3h_JoinSpace {| sd_space_address := "app"; sd_agent_id := agent |}) |}.

Definition joining_system : System :=
  match handle_payload 1 0 "u1" (Some (join_payload "alice" "alice")) with
  | Ret effects =>
      apply_effects (receive (System_new (Store_new 0 None)) "u1" (Some (join_payload "alice" "alice"))) effects
  | _ => System_new (Store_new 0 None)
  end.

Definition joined_store : Store :=
  match mutate toy_chance (Store_new 0 None) (AolEntry_NewConnection "app" "alice" "u1") with
  | Ret (s, _) => s
  | _ => Store_new 0 None
  end.

Definition join_replies : Effects :=
  completed (sys_log joining_system ≫= snd) AolResponse_None.

Definition joined_system : System :=
  apply_effects (with_view (with_store joining_system joined_store [] join_replies) joined_store [])
    join_replies.

Lemma joined_system_reached :
  rtc (sim2h_step 1 0 (λ _, "")) (System_new (Store_new 0 None)) joined_system.
Proof.
  apply (rtc_l _ _ joining_system).
  { apply (Step_payload 1 0 (λ _, "") (System_new (Store_new 0 None)) "u1"
      (Some (join_payload "alice" "alice"))). reflexivity. }
  apply (rtc_l _ _ (with_store joining_system joined_store [] join_replies)).
  { eapply (Step_mutate 1 0 (λ _, "") joining_system toy_chance); [reflexivity|].
    vm_compute. reflexivity. }
  apply rtc_once. by apply (Step_write 1 0 (λ _, "") _ []).
Qed.

Definition alice_list : WireMessage :=
  WireMessage_Lib3hToClient (Lib3hToClient_HandleGetGossipingEntryList "app" "alice").

Lemma messages_stay_in_their_space_witness :
  ("alice", "u1", alice_list) ∈ sys_sent joined_system ∧
  AolEntry_NewConnection "app" "alice" "u1" ∈ sys_history joined_system.
Proof.
  assert (Hsent : ("alice", "u1", alice_list) ∈ sys_sent joined_system) by (cbn; right; left).
  assert (Hs : "app" ∈ message_spaces alice_list) by (cbn; left).
  split; [exact Hsent|].
  destruct (messages_stay_in_their_space 1 0 (λ _, "") 0 None joined_system "alice" "u1" alice_list "app"
    joined_system_reached Hsent Hs) as [Hj|[Hd _]]; [exact Hj|discriminate Hd].
Defined.

(** Mallory joins as Alice, who is connected, and gets her messages. *)
Definition hijacked : Store :=
  match mutate toy_chance example_store (AolEntry_NewConnection "app" "alice" "evil") with
  | Ret (s, _) => s
  | _ => example_store
  end.

Definition example_dm : DirectMessageData :=
  {| dm_space_address := "app"; dm_request_id := ""; dm_to_agent_id := "bob";
     dm_from_agent_id := "alice"; dm_content := "hi" |}.

Lemma joining_is_not_authenticated_witness :
  send_joined hijacked "app" "alice" WireMessage_Pong = [Effect_Send "alice" "evil" WireMessage_Pong].
Proof.
  apply (joining_is_not_authenticated 1 0 "mallory" "alice" "app" "evil" 1 toy_chance example_store 5
    hijacked AolResponse_None example_dm).
  - reflexivity.
  - intros s' space Hs Hne. exfalso. apply elem_of_dom_2 in Hs.
    assert (Hd : dom (spaces example_store) = {["app"]}) by (vm_compute; reflexivity).
    rewrite Hd in Hs. by apply elem_of_singleton in Hs.
  - vm_compute. reflexivity.
  - reflexivity.
Defined.

(** Two agents that joined at one address: when it is lost, the first one stays
    connected, at an address that leads nowhere. *)
Theorem shared_address_leaves_ghost :
  ∃ s, run_log (Store_new 0 None)
         [(toy_chance, AolEntry_NewConnection "app" "alice" "u");
          (toy_chance, AolEntry_NewConnection "app" "bob" "u");
          (toy_chance, AolEntry_DropConnectionByUri "u")] = Ret s ∧
    lookup_joined s "app" "alice" = Some "u" ∧ get_space_info_from_uri s "u" = None.
Proof. eexists. split; [vm_compute; reflexivity|]. by vm_compute. Qed.

(** The copies of two changes written in the other order: with nothing left to
    write, handlers go on reading a store without the second change. *)
Theorem copies_can_be_stale :
  ∃ sys, rtc (sim2h_step 1 0 (λ _, "")) (System_new (Store_new 0 None)) sys ∧
    sys_log sys = [] ∧ sys_writes sys = [] ∧
    lookup_joined (sys_store sys) "app" "bob" = Some "u2" ∧
    lookup_joined (sys_view sys) "app" "bob" = None.
Proof.
  eexists. split_and!.
  - eapply rtc_l; [apply (Step_payload 1 0 (λ _, "") _ "u1" (Some (join_payload "alice" "alice"))); reflexivity|].
    eapply rtc_l; [apply (Step_payload 1 0 (λ _, "") _ "u2" (Some (join_payload "bob" "bob"))); reflexivity|].
    eapply rtc_l; [eapply (Step_mutate 1 0 (λ _, "") _ toy_chance); [reflexivity|vm_compute; reflexivity]|].
    eapply rtc_l; [eapply (Step_mutate 1 0 (λ _, "") _ toy_chance); [reflexivity|vm_compute; reflexivity]|].
    eapply rtc_l; [eapply (Step_write 1 0 (λ _, "") _ (_ :: []) _ _ []); reflexivity|].
    eapply rtc_l; [eapply (Step_write 1 0 (λ _, "") _ [] _ _ []); reflexivity|]. apply rtc_refl.
  - reflexivity.
  - reflexivity.
  - by vm_compute.
  - by vm_compute.
Qed.
End examples.
