(* ===== verification/Sim2hWorker.v ===== *)
(** * The worker of a sim2h client

    Models [src/crates/net/src/sim2h_worker.rs], the client side of the
    switchboard of Sim2h.v, and the loop of
    [src/crates/net/src/connection/net_connection_thread.rs] that drives it: the
    queue of outgoing messages with its receipts and retries, the batches, the
    reconnecting with its backoff, the handlers for what the core and the
    server send, and [tick].  What the operating system answers (whether the
    connection is ready, the clock, reading and writing) is an environment that
    the theorems quantify over; what was written, read and handed to the core is
    recorded in a trace.

    The theorems: as long as the thread has not panicked, nothing that the core hands
    over is lost: what goes to the server waits until it was written and its receipt
    came, or, a direct message, until there is a new connection, and what goes back
    to the core waits until it is handed over ([outgoing_not_lost]); the entries that are stored by the node
    itself are those with an aspect that is not held; the worker does not panic
    as long as the connection works ([healthy_tick_returns]), does when a write fails
    ([failed_write_panics]), and its backoff doubles without the intended limit
    ([backoff_never_capped]); a message and its receipt make a round trip through
    the switchboard ([receipt_round_trip]). *)

From S2P Require Import Prelude Errors CoreTypes AspectMap Lib3h Sim2h.

Definition INITIAL_CONNECTION_TIMEOUT_MS : Z := 2000.
Definition MAX_CONNECTION_TIMEOUT_MS : Z := 60000.
Definition SIM2H_WORKER_INTERNAL_REQUEST_ID : string := "SIM2H_WORKER".
Definition RESEND_WIRE_MESSAGE_MS : Z := 10000.
Definition BATCHING_INTERVAL_MS : Z := 1000.

(** ** The state *)

(** [last_sent] in milliseconds, as all times here. *)
Record BufferedMessage : Type := {
  wire_message : WireMessage;
  hash : Z;
  last_sent : option Z;
}.

Definition BufferedMessage_from (message : WireMessage) : BufferedMessage :=
  {| wire_message := message; hash := 0; last_sent := None |}.

(** Without the handles: the handler, the conductor's API, the metrics, the
    tracer, and the frame that is being read.  A connection is known by the call
    that opened it. *)
Record Sim2hWorker : Type := {
  connection : option nat;
  inbox : list Lib3hClientProtocol;
  to_core : list Lib3hServerProtocol;
  server_url : string;
  space_data : option SpaceData;
  agent_id : string;
  time_of_last_connection_attempt : Z;
  connection_timeout_backoff : Z;
  reconnect_interval : Z;
  time_of_last_batching : Z;
  outgoing_fetch_entry_results : list Lib3hToClientResponse;
  outgoing_fat_acks : AspectMap;
  outgoing_message_buffer : list BufferedMessage;
  initial_authoring_list : option EntryListData;
  initial_gossiping_list : option EntryListData;
  has_self_stored_authored_aspects : bool;
  is_full_sync_DHT : bool;
}.

Definition set_connection (v : option nat) (w : Sim2hWorker) : Sim2hWorker :=
  {| connection := v; inbox := inbox w; to_core := to_core w; server_url := server_url w;
     space_data := space_data w; agent_id := agent_id w;
     time_of_last_connection_attempt := time_of_last_connection_attempt w;
     connection_timeout_backoff := connection_timeout_backoff w;
     reconnect_interval := reconnect_interval w; time_of_last_batching := time_of_last_batching w;
     outgoing_fetch_entry_results := outgoing_fetch_entry_results w;
     outgoing_fat_acks := outgoing_fat_acks w;
     outgoing_message_buffer := outgoing_message_buffer w;
     initial_authoring_list := initial_authoring_list w;
     initial_gossiping_list := initial_gossiping_list w;
     has_self_stored_authored_aspects := has_self_stored_authored_aspects w;
     is_full_sync_DHT := is_full_sync_DHT w |}.

Definition set_inbox (v : list Lib3hClientProtocol) (w : Sim2hWorker) : Sim2hWorker :=
  {| connection := connection w; inbox := v; to_core := to_core w; server_url := server_url w;
     space_data := space_data w; agent_id := agent_id w;
     time_of_last_connection_attempt := time_of_last_connection_attempt w;
     connection_timeout_backoff := connection_timeout_backoff w;
     reconnect_interval := reconnect_interval w; time_of_last_batching := time_of_last_batching w;
     outgoing_fetch_entry_results := outgoing_fetch_entry_results w;
     outgoing_fat_acks := outgoing_fat_acks w;
     outgoing_message_buffer := outgoing_message_buffer w;
     initial_authoring_list := initial_authoring_list w;
     initial_gossiping_list := initial_gossiping_list w;
     has_self_stored_authored_aspects := has_self_stored_authored_aspects w;
     is_full_sync_DHT := is_full_sync_DHT w |}.

Definition set_to_core (v : list Lib3hServerProtocol) (w : Sim2hWorker) : Sim2hWorker :=
  {| connection := connection w; inbox := inbox w; to_core := v; server_url := server_url w;
     space_data := space_data w; agent_id := agent_id w;
     time_of_last_connection_attempt := time_of_last_connection_attempt w;
     connection_timeout_backoff := connection_timeout_backoff w;
     reconnect_interval := reconnect_interval w; time_of_last_batching := time_of_last_batching w;
     outgoing_fetch_entry_results := outgoing_fetch_entry_results w;
     outgoing_fat_acks := outgoing_fat_acks w;
     outgoing_message_buffer := outgoing_message_buffer w;
     initial_authoring_list := initial_authoring_list w;
     initial_gossiping_list := initial_gossiping_list w;
     has_self_stored_authored_aspects := has_self_stored_authored_aspects w;
     is_full_sync_DHT := is_full_sync_DHT w |}.

Definition set_space_data (v : option SpaceData) (w : Sim2hWorker) : Sim2hWorker :=
  {| connection := connection w; inbox := inbox w; to_core := to_core w;
     server_url := server_url w; space_data := v; agent_id := agent_id w;
     time_of_last_connection_attempt := time_of_last_connection_attempt w;
     connection_timeout_backoff := connection_timeout_backoff w;
     reconnect_interval := reconnect_interval w; time_of_last_batching := time_of_last_batching w;
     outgoing_fetch_entry_results := outgoing_fetch_entry_results w;
     outgoing_fat_acks := outgoing_fat_acks w;
     outgoing_message_buffer := outgoing_message_buffer w;
     initial_authoring_list := initial_authoring_list w;
     initial_gossiping_list := initial_gossiping_list w;
     has_self_stored_authored_aspects := has_self_stored_authored_aspects w;
     is_full_sync_DHT := is_full_sync_DHT w |}.

Definition set_attempt (v : Z) (w : Sim2hWorker) : Sim2hWorker :=
  {| connection := connection w; inbox := inbox w; to_core := to_core w;
     server_url := server_url w; space_data := space_data w; agent_id := agent_id w;
     time_of_last_connection_attempt := v;
     connection_timeout_backoff := connection_timeout_backoff w;
     reconnect_interval := reconnect_interval w; time_of_last_batching := time_of_last_batching w;
     outgoing_fetch_entry_results := outgoing_fetch_entry_results w;
     outgoing_fat_acks := outgoing_fat_acks w;
     outgoing_message_buffer := outgoing_message_buffer w;
     initial_authoring_list := initial_authoring_list w;
     initial_gossiping_list := initial_gossiping_list w;
     has_self_stored_authored_aspects := has_self_stored_authored_aspects w;
     is_full_sync_DHT := is_full_sync_DHT w |}.

Definition set_backoff (v1 v2 : Z) (w : Sim2hWorker) : Sim2hWorker :=
  {| connection := connection w; inbox := inbox w; to_core := to_core w;
     server_url := server_url w; space_data := space_data w; agent_id := agent_id w;
     time_of_last_connection_attempt := time_of_last_connection_attempt w;
     connection_timeout_backoff := v1; reconnect_interval := v2;
     time_of_last_batching := time_of_last_batching w;
     outgoing_fetch_entry_results := outgoing_fetch_entry_results w;
     outgoing_fat_acks := outgoing_fat_acks w;
     outgoing_message_buffer := outgoing_message_buffer w;
     initial_authoring_list := initial_authoring_list w;
     initial_gossiping_list := initial_gossiping_list w;
     has_self_stored_authored_aspects := has_self_stored_authored_aspects w;
     is_full_sync_DHT := is_full_sync_DHT w |}.

Definition set_batching (v : Z) (w : Sim2hWorker) : Sim2hWorker :=
  {| connection := connection w; inbox := inbox w; to_core := to_core w;
     server_url := server_url w; space_data := space_data w; agent_id := agent_id w;
     time_of_last_connection_attempt := time_of_last_connection_attempt w;
     connection_timeout_backoff := connection_timeout_backoff w;
     reconnect_interval := reconnect_interval w; time_of_last_batching := v;
     outgoing_fetch_entry_results := outgoing_fetch_entry_results w;
     outgoing_fat_acks := outgoing_fat_acks w;
     outgoing_message_buffer := outgoing_message_buffer w;
     initial_authoring_list := initial_authoring_list w;
     initial_gossiping_list := initial_gossiping_list w;
     has_self_stored_authored_aspects := has_self_stored_authored_aspects w;
     is_full_sync_DHT := is_full_sync_DHT w |}.

Definition set_fetch_results (v : list Lib3hToClientResponse) (w : Sim2hWorker) : Sim2hWorker :=
  {| connection := connection w; inbox := inbox w; to_core := to_core w;
     server_url := server_url w; space_data := space_data w; agent_id := agent_id w;
     time_of_last_connection_attempt := time_of_last_connection_attempt w;
     connection_timeout_backoff := connection_timeout_backoff w;
     reconnect_interval := reconnect_interval w; time_of_last_batching := time_of_last_batching w;
     outgoing_fetch_entry_results := v; outgoing_fat_acks := outgoing_fat_acks w;
     outgoing_message_buffer := outgoing_message_buffer w;
     initial_authoring_list := initial_authoring_list w;
     initial_gossiping_list := initial_gossiping_list w;
     has_self_stored_authored_aspects := has_self_stored_authored_aspects w;
     is_full_sync_DHT := is_full_sync_DHT w |}.

Definition set_fat_acks (v : AspectMap) (w : Sim2hWorker) : Sim2hWorker :=
  {| connection := connection w; inbox := inbox w; to_core := to_core w;
     server_url := server_url w; space_data := space_data w; agent_id := agent_id w;
     time_of_last_connection_attempt := time_of_last_connection_attempt w;
     connection_timeout_backoff := connection_timeout_backoff w;
     reconnect_interval := reconnect_interval w; time_of_last_batching := time_of_last_batching w;
     outgoing_fetch_entry_results := outgoing_fetch_entry_results w; outgoing_fat_acks := v;
     outgoing_message_buffer := outgoing_message_buffer w;
     initial_authoring_list := initial_authoring_list w;
     initial_gossiping_list := initial_gossiping_list w;
     has_self_stored_authored_aspects := has_self_stored_authored_aspects w;
     is_full_sync_DHT := is_full_sync_DHT w |}.

Definition set_buffer (v : list BufferedMessage) (w : Sim2hWorker) : Sim2hWorker :=
  {| connection := connection w; inbox := inbox w; to_core := to_core w;
     server_url := server_url w; space_data := space_data w; agent_id := agent_id w;
     time_of_last_connection_attempt := time_of_last_connection_attempt w;
     connection_timeout_backoff := connection_timeout_backoff w;
     reconnect_interval := reconnect_interval w; time_of_last_batching := time_of_last_batching w;
     outgoing_fetch_entry_results := outgoing_fetch_entry_results w;
     outgoing_fat_acks := outgoing_fat_acks w; outgoing_message_buffer := v;
     initial_authoring_list := initial_authoring_list w;
     initial_gossiping_list := initial_gossiping_list w;
     has_self_stored_authored_aspects := has_self_stored_authored_aspects w;
     is_full_sync_DHT := is_full_sync_DHT w |}.

Definition set_lists (v1 v2 : option EntryListData) (w : Sim2hWorker) : Sim2hWorker :=
  {| connection := connection w; inbox := inbox w; to_core := to_core w;
     server_url := server_url w; space_data := space_data w; agent_id := agent_id w;
     time_of_last_connection_attempt := time_of_last_connection_attempt w;
     connection_timeout_backoff := connection_timeout_backoff w;
     reconnect_interval := reconnect_interval w; time_of_last_batching := time_of_last_batching w;
     outgoing_fetch_entry_results := outgoing_fetch_entry_results w;
     outgoing_fat_acks := outgoing_fat_acks w;
     outgoing_message_buffer := outgoing_message_buffer w; initial_authoring_list := v1;
     initial_gossiping_list := v2;
     has_self_stored_authored_aspects := has_self_stored_authored_aspects w;
     is_full_sync_DHT := is_full_sync_DHT w |}.

Definition set_self_stored (v : bool) (w : Sim2hWorker) : Sim2hWorker :=
  {| connection := connection w; inbox := inbox w; to_core := to_core w;
     server_url := server_url w; space_data := space_data w; agent_id := agent_id w;
     time_of_last_connection_attempt := time_of_last_connection_attempt w;
     connection_timeout_backoff := connection_timeout_backoff w;
     reconnect_interval := reconnect_interval w; time_of_last_batching := time_of_last_batching w;
     outgoing_fetch_entry_results := outgoing_fetch_entry_results w;
     outgoing_fat_acks := outgoing_fat_acks w;
     outgoing_message_buffer := outgoing_message_buffer w;
     initial_authoring_list := initial_authoring_list w;
     initial_gossiping_list := initial_gossiping_list w; has_self_stored_authored_aspects := v;
     is_full_sync_DHT := is_full_sync_DHT w |}.

Definition set_full_sync_DHT (v : bool) (w : Sim2hWorker) : Sim2hWorker :=
  {| connection := connection w; inbox := inbox w; to_core := to_core w;
     server_url := server_url w; space_data := space_data w; agent_id := agent_id w;
     time_of_last_connection_attempt := time_of_last_connection_attempt w;
     connection_timeout_backoff := connection_timeout_backoff w;
     reconnect_interval := reconnect_interval w; time_of_last_batching := time_of_last_batching w;
     outgoing_fetch_entry_results := outgoing_fetch_entry_results w;
     outgoing_fat_acks := outgoing_fat_acks w;
     outgoing_message_buffer := outgoing_message_buffer w;
     initial_authoring_list := initial_authoring_list w;
     initial_gossiping_list := initial_gossiping_list w;
     has_self_stored_authored_aspects := has_self_stored_authored_aspects w;
     is_full_sync_DHT := v |}.

(** ** The environment *)

Inductive WsFrame : Type :=
| WsFrame_Binary (payload : string)
| WsFrame_Ping
| WsFrame_Other.

Inductive ReadResult : Type :=
| Read_frame (frame : WsFrame)
| Read_would_block
| Read_error.

(** What the operating system and the conductor answer, by the number of the
    call: [check_ready] of the connection, the clock, whether a connection can be
    opened and a frame written, what is read, and the signature of a text. *)
Record Environment : Type := {
  check_ready : nat → Result unit bool;
  clock : nat → Z;
  opens : nat → bool;
  writes : nat → bool;
  reads : nat → ReadResult;
  sign : nat → string → option string;
}.

(** What happens outside of the worker. *)
Inductive Event : Type :=
| Event_connect (timeout_ms : Z)
| Event_write (payload source signature : string) (written : bool)
| Event_read (message : WireMessage)
| Event_handle (message : Lib3hServerProtocol).

Record World : Type := { worker : Sim2hWorker; calls : nat; trace : list Event }.

(** Programs over the worker; [Panic] is a panic of its thread. *)
Definition W (A : Type) : Type := World → Outcome (A * World).

#[export] Instance W_ret : MRet W := λ _ x w, Ret (x, w).
#[export] Instance W_bind : MBind W := λ _ _ f m w,
  match m w with
  | Ret (x, w) => f x w
  | Panic => Panic
  | NoFuel => NoFuel
  end.

Definition get {A} (f : Sim2hWorker → A) : W A := λ w, Ret (f (worker w), w).
Definition modify (f : Sim2hWorker → Sim2hWorker) : W unit := λ w,
  Ret ((), {| worker := f (worker w); calls := calls w; trace := trace w |}).
Definition ask {A} (f : nat → A) : W A := λ w,
  Ret (f (calls w), {| worker := worker w; calls := S (calls w); trace := trace w |}).
Definition emit (e : Event) : W unit := λ w,
  Ret ((), {| worker := worker w; calls := calls w; trace := trace w ++ [e] |})%list.
Definition panic {A} : W A := λ _, Panic.

Fixpoint for_each {A} (f : A → W unit) (l : list A) : W unit :=
  match l with
  | [] => mret ()
  | x :: l => f x;; for_each f l
  end.

(** ** The thread that drives a worker *)

Definition TICK_SLEEP_MIN_US : Z := 100.
Definition TICK_SLEEP_MAX_US : Z := 10000.

(** The messages from the core that have not been received, and the time to sleep. *)
Record NetThread (Worker Data : Type) : Type := {
  nt_channel : list Data;
  nt_worker : Worker;
  sleep_duration_us : Z;
}.
Arguments nt_channel {Worker Data} _.
Arguments nt_worker {Worker Data} _.
Arguments sleep_duration_us {Worker Data} _.

Section net_thread.
Context {Worker Data Env : Type}.
Variable receive : Data → Worker → Outcome (Result unit unit * Worker).
Variable tick : Env → Worker → Outcome (Result unit bool * Worker).

Definition next_sleep (did_something : bool) (sleep_duration_us : Z) : Z :=
  if did_something then TICK_SLEEP_MIN_US
  else
    let doubled := u64_wrap (sleep_duration_us * 2) in
    if Z.ltb TICK_SLEEP_MAX_US doubled then TICK_SLEEP_MAX_US else doubled.

(** One turn of the loop: at most one message is received, then the worker ticks;
    errors are logged. *)
Definition net_iteration (env : Env) (t : NetThread Worker Data) : Outcome (NetThread Worker Data) :=
  '(received, w) ←
    match nt_channel t with
    | [] => Ret (false, nt_worker t)
    | data :: _ => '(_, w) ← receive data (nt_worker t); Ret (true, w)
    end;
  '(ticked, w) ← tick env w;
  let did_something := received || match ticked with Ok b => b | Err _ => false end in
  Ret {| nt_channel := tail (nt_channel t); nt_worker := w;
         sleep_duration_us := next_sleep did_something (sleep_duration_us t) |}.

Fixpoint net_run (envs : list Env) (t : NetThread Worker Data) : Outcome (NetThread Worker Data) :=
  match envs with
  | [] => Ret t
  | env :: envs => t ← net_iteration env t; net_run envs t
  end.
End net_thread.

Definition RECEIPT_HASH_SEED : Z := 0.

Section worker.
(** The texts of messages, the hash of a text with a seed, the version of the
    protocol, the defaults of lib3h's addresses, and its conversions of the server's
    messages. *)
Variable to_text : WireMessage → string.
Variable from_text : string → option WireMessage.
Variable xx_hash : Z → string → Z.
Variable WIRE_VERSION : Z.
Variable default_space default_agent : string.
Variable relayed : Lib3hToClient → Lib3hServerProtocol.
Variable answered : ClientToLib3hResponse → Lib3hServerProtocol.

Definition generate_ack_receipt_hash (payload : string) : Z := xx_hash RECEIPT_HASH_SEED payload.

Section io.
Variable env : Environment.

Definition now : W Z := ask (clock env).

(** [Instant::elapsed]. *)
Definition elapsed (instant : Z) : W Z := t ← now; mret (t - instant)%Z.

Definition push_to_core (message : Lib3hServerProtocol) : W unit :=
  modify (λ w, set_to_core (to_core w ++ [message])%list w).

Definition push_outgoing (message : WireMessage) : W unit :=
  modify (λ w, set_buffer (outgoing_message_buffer w ++ [BufferedMessage_from message])%list w).

(** ** Connecting *)

Definition inner_set_backoff (backoff : Z) : W unit := modify (set_backoff backoff backoff).

(** The product wraps, as in a release build. *)
Definition backoff : W unit :=
  b ← get connection_timeout_backoff;
  let new_backoff := Z.max MAX_CONNECTION_TIMEOUT_MS (u64_wrap (b * 2)) in
  if Z.eqb b new_backoff then mret () else inner_set_backoff (u64_wrap (b * 2)).

Definition reset_backoff : W unit :=
  b ← get connection_timeout_backoff;
  if Z.ltb INITIAL_CONNECTION_TIMEOUT_MS b then inner_set_backoff INITIAL_CONNECTION_TIMEOUT_MS
  else mret ().

Definition connection_ready : W bool :=
  c ← get connection;
  match c with
  | None => mret false
  | Some _ =>
      ready ← ask (check_ready env);
      match ready with
      | Ok ready => mret ready
      | Err _ => modify (set_connection None);; mret false
      end
  end.

(** Direct messages are not kept for a new connection. *)
Definition retained (message : WireMessage) : bool :=
  match message with
  | WireMessage_ClientToLib3hResponse (ClientToLib3hResponse_SendDirectMessageResult _) => false
  | WireMessage_ClientToLib3h (ClientToLib3h_SendDirectMessage _) => false
  | _ => true
  end.

Definition unsent (b : BufferedMessage) : BufferedMessage :=
  {| wire_message := wire_message b; hash := hash b; last_sent := None |}.

Definition prepend_wire_message (message : WireMessage) : W unit :=
  modify (λ w, set_buffer
    (BufferedMessage_from message ::
     filter (λ b, retained (wire_message b) = true) (unsent <$> outgoing_message_buffer w)) w).

(** [connect]: the connection, if it can be opened. *)
Definition connect (timeout_ms : Z) : W (option nat) :=
  emit (Event_connect timeout_ms);; ask (λ n, if opens env n then Some n else None).

Definition check_reconnect : W unit :=
  ready ← connection_ready;
  if (ready : bool) then reset_backoff
  else
    attempt ← get time_of_last_connection_attempt;
    interval ← get reconnect_interval;
    e ← elapsed attempt;
    if Z.ltb e interval then mret ()
    else
      backoff;;
      t ← now;
      modify (set_attempt t);;
      modify (set_connection None);;
      timeout ← get connection_timeout_backoff;
      c ← connect timeout;
      match c with
      | None => mret ()
      | Some c =>
          modify (set_connection (Some c));;
          data ← get space_data;
          match data with
          | None => mret ()
          | Some data =>
              prepend_wire_message (WireMessage_ClientToLib3h (ClientToLib3h_JoinSpace data))
          end
      end.

(** ** Sending *)

(** What the node holds by now, if the space is known. *)
Definition fat_acks (w : Sim2hWorker) : list Lib3hToClientResponse :=
  match AspectMap_empty (outgoing_fat_acks w), space_data w with
  | false, Some data =>
      [Lib3hToClientResponse_HandleGetGossipingEntryListResult
         {| el_space_address := sd_space_address data; el_provider_agent_id := sd_agent_id data;
            el_request_id := ""; el_address_map := map_to_list (to_vec_map (outgoing_fat_acks w)) |}]
  | _, _ => []
  end.

(** The batched messages move to the outgoing buffer as one. *)
Definition batch (w : Sim2hWorker) : Sim2hWorker :=
  let acks := fat_acks w in
  let w := match acks with [] => w | _ => set_fat_acks ∅ w end in
  match (acks ++ outgoing_fetch_entry_results w)%list with
  | [] => w
  | msgs =>
      set_buffer (outgoing_message_buffer w ++
        [BufferedMessage_from (WireMessage_MultiSendResponse msgs)])%list (set_fetch_results [] w)
  end.

Definition check_batched_messages : W unit :=
  batching ← get time_of_last_batching;
  e ← elapsed batching;
  if Z.ltb e BATCHING_INTERVAL_MS then mret ()
  else t ← now; modify (set_batching t);; modify batch.

(** Only requests to join are signed. *)
Definition signature_of (message : WireMessage) (payload : string) : W (option string) :=
  match message with
  | WireMessage_ClientToLib3h (ClientToLib3h_JoinSpace _) => ask (λ n, sign env n payload)
  | _ => mret (Some "null")
  end.

(** [connection.write]: on a closed connection there is nothing to write to. *)
Definition write_frame (payload source signature : string) : W bool :=
  c ← get connection;
  match c with
  | None => panic
  | Some _ =>
      written ← ask (writes env);
      emit (Event_write payload source signature written);;
      mret written
  end.

(** The first message is marked as sent. *)
Definition mark_sent (hash now : Z) (w : Sim2hWorker) : Sim2hWorker :=
  match outgoing_message_buffer w with
  | [] => w
  | b :: rest =>
      set_buffer ({| wire_message := wire_message b; hash := hash; last_sent := Some now |} :: rest) w
  end.

(** Whether a message that was sent is to be sent again. *)
Definition due (b : BufferedMessage) : W bool :=
  match last_sent b with
  | None => mret true
  | Some instant_last_sent =>
      e ← elapsed instant_last_sent; mret (negb (Z.ltb e RESEND_WIRE_MESSAGE_MS))
  end.

Definition send_first (b : BufferedMessage) : W bool :=
  let message := wire_message b in
  let payload := to_text message in
  signature ← signature_of message payload;
  match signature with
  | None => mret false
  | Some signature =>
      source ← get agent_id;
      written ← write_frame payload source signature;
      if (written : bool) then
        t ← now; modify (mark_sent (generate_ack_receipt_hash payload) t);; mret true
      else modify (set_connection None);; check_reconnect;; mret true
  end.

Definition try_send_from_outgoing_buffer : W bool :=
  buffer ← get outgoing_message_buffer;
  match buffer with
  | [] => mret false
  | b :: _ =>
      ready ← connection_ready;
      if (ready : bool) then
        d ← due b; if (d : bool) then send_first b else mret false
      else mret false
  end.

(** The messages that are batched go to queues of their own. *)
Definition send_wire_message (message : WireMessage) : W unit :=
  match message with
  | WireMessage_Lib3hToClientResponse (Lib3hToClientResponse_HandleFetchEntryResult data) =>
      modify (λ w, set_fetch_results (outgoing_fetch_entry_results w ++
        [Lib3hToClientResponse_HandleFetchEntryResult data])%list w)
  | WireMessage_Lib3hToClientResponse
      (Lib3hToClientResponse_HandleGetGossipingEntryListResult entry_data) =>
      if String.eqb (el_request_id entry_data) "" then
        modify (λ w, set_fat_acks
          (merge (outgoing_fat_acks w) (from_vec_map (list_to_map (el_address_map entry_data)))) w)
      else push_outgoing message
  | _ => push_outgoing message
  end.

(** ** Messages from the core *)

Definition is_autonomous_node : W bool :=
  full_sync ← get is_full_sync_DHT;
  if (full_sync : bool) then mret true else ready ← connection_ready; mret (negb ready).

(** [Vec::remove_item]: without its first occurrence. *)
Fixpoint remove_item (x : string) (l : list string) : list string :=
  match l with
  | [] => []
  | y :: l => if String.eqb x y then l else y :: remove_item x l
  end.

(** Whether all aspects of an authored entry are held already. *)
Definition held_already (gossiping : list (string * list string)) (entry : string)
    (aspect_hashes : list string) : bool :=
  match (list_to_map gossiping : gmap string (list string)) !! entry with
  | None => false
  | Some gossiping_aspects =>
      match foldl (λ left aspect, remove_item aspect left) aspect_hashes gossiping_aspects with
      | [] => true
      | _ => false
      end
  end.

Definition to_fetch (authoring_list gossiping_list : EntryListData) : list Lib3hServerProtocol :=
  el_address_map authoring_list ≫= λ '(entry_hash, aspect_hashes),
    if held_already (el_address_map gossiping_list) entry_hash aspect_hashes then []
    else [Lib3hServerProtocol_HandleFetchEntry (el_space_address authoring_list) entry_hash
            SIM2H_WORKER_INTERNAL_REQUEST_ID (el_provider_agent_id authoring_list)
            (Some aspect_hashes)].

Definition self_store_authored_aspects : W unit :=
  stored ← get has_self_stored_authored_aspects;
  authoring ← get initial_authoring_list;
  gossiping ← get initial_gossiping_list;
  match stored, authoring, gossiping with
  | false, Some authoring_list, Some gossiping_list =>
      modify (set_lists None None);;
      for_each push_to_core (to_fetch authoring_list gossiping_list);;
      modify (set_self_stored true)
  | _, _, _ => mret ()
  end.

(** [HandleStoreEntryAspect] for each aspect of an entry. *)
Definition store_aspects (space provider entry : string) (aspects : list EntryAspectData) :
    list Lib3hServerProtocol :=
  Lib3hServerProtocol_HandleStoreEntryAspect "" space provider entry <$> aspects.

Definition handle_client_message (data : Lib3hClientProtocol) : W unit :=
  match data with
  | Lib3hClientProtocol_SuccessResult generic_result_data =>
      push_to_core (Lib3hServerProtocol_FailureResult generic_result_data)
  | Lib3hClientProtocol_Connect request_id =>
      push_to_core (Lib3hServerProtocol_FailureResult
        {| gr_request_id := request_id; gr_space_address := default_space;
           gr_to_agent_id := default_agent; gr_result_info := "" |})
  | Lib3hClientProtocol_JoinSpace data =>
      modify (set_space_data (Some data));;
      send_wire_message (WireMessage_ClientToLib3h (ClientToLib3h_JoinSpace data))
  | Lib3hClientProtocol_LeaveSpace data =>
      send_wire_message (WireMessage_ClientToLib3h (ClientToLib3h_LeaveSpace data))
  | Lib3hClientProtocol_SendDirectMessage dm_data =>
      send_wire_message (WireMessage_ClientToLib3h (ClientToLib3h_SendDirectMessage dm_data))
  | Lib3hClientProtocol_HandleSendDirectMessageResult dm_data =>
      send_wire_message (WireMessage_Lib3hToClientResponse
        (Lib3hToClientResponse_HandleSendDirectMessageResult dm_data))
  | Lib3hClientProtocol_FetchEntry => panic
  | Lib3hClientProtocol_HandleFetchEntryResult data =>
      if String.eqb (fr_request_id data) SIM2H_WORKER_INTERNAL_REQUEST_ID then
        for_each push_to_core (store_aspects (fr_space_address data) (fr_provider_agent_id data)
          (fr_entry_address data) (fr_aspect_list data))
      else
        send_wire_message (WireMessage_Lib3hToClientResponse
          (Lib3hToClientResponse_HandleFetchEntryResult data))
  | Lib3hClientProtocol_PublishEntry data =>
      for_each push_to_core (store_aspects (pe_space_address data) (pe_provider_agent_id data)
        (pe_entry_address data) (pe_aspect_list data));;
      send_wire_message (WireMessage_ClientToLib3h (ClientToLib3h_PublishEntry data))
  | Lib3hClientProtocol_QueryEntry data =>
      autonomous ← is_autonomous_node;
      if (autonomous : bool) then push_to_core (Lib3hServerProtocol_HandleQueryEntry data)
      else send_wire_message (WireMessage_ClientToLib3h (ClientToLib3h_QueryEntry data))
  | Lib3hClientProtocol_HandleQueryEntryResult data =>
      autonomous ← is_autonomous_node;
      if (autonomous : bool) then push_to_core (Lib3hServerProtocol_QueryEntryResult data)
      else send_wire_message (WireMessage_Lib3hToClientResponse
             (Lib3hToClientResponse_HandleQueryEntryResult data))
  | Lib3hClientProtocol_HandleGetAuthoringEntryListResult data =>
      modify (λ w, set_lists (Some data) (initial_gossiping_list w) w);;
      autonomous ← is_autonomous_node;
      (if (autonomous : bool) then self_store_authored_aspects else mret ());;
      send_wire_message (WireMessage_Lib3hToClientResponse
        (Lib3hToClientResponse_HandleGetAuthoringEntryListResult data))
  | Lib3hClientProtocol_HandleGetGossipingEntryListResult data =>
      modify (λ w, set_lists (initial_authoring_list w) (Some data) w);;
      autonomous ← is_autonomous_node;
      (if (autonomous : bool) then self_store_authored_aspects else mret ());;
      send_wire_message (WireMessage_Lib3hToClientResponse
        (Lib3hToClientResponse_HandleGetGossipingEntryListResult data))
  | Lib3hClientProtocol_Shutdown => mret ()
  end.

(** ** Messages from the server *)

Definition set_full_sync (full_sync : bool) : W unit := modify (set_full_sync_DHT full_sync).

(** The receipt of the first message takes it off the queue. *)
Definition acknowledged (receipt : Z) (w : Sim2hWorker) : Sim2hWorker :=
  match outgoing_message_buffer w with
  | b :: rest => if Z.eqb (hash b) receipt then set_buffer rest w else w
  | [] => w
  end.

Definition handle_server_message (message : WireMessage) : W unit :=
  match message with
  | WireMessage_Ping => send_wire_message WireMessage_Pong
  | WireMessage_Lib3hToClient m => push_to_core (relayed m)
  | WireMessage_MultiSend messages =>
      for_each push_to_core (relayed <$> messages)
  | WireMessage_ClientToLib3hResponse m => push_to_core (answered m)
  | WireMessage_Err WireError_MessageWhileInLimbo =>
      data ← get space_data;
      match data with
      | Some data => send_wire_message (WireMessage_ClientToLib3h (ClientToLib3h_JoinSpace data))
      | None => mret ()
      end
  | WireMessage_HelloResponse redundant_count version =>
      if Z.eqb WIRE_VERSION version then set_full_sync (Z.eqb redundant_count 0) else panic
  | WireMessage_Ack receipt => modify (acknowledged receipt)
  | _ => mret ()
  end.

(** ** The worker *)

Definition receive (data : Lib3hClientProtocol) : W unit :=
  modify (λ w, set_inbox (inbox w ++ [data])%list w).

Definition handle_frame (frame : WsFrame) : W unit :=
  match frame with
  | WsFrame_Binary payload =>
      match from_text payload with
      | Some message => emit (Event_read message);; handle_server_message message
      | None => mret ()
      end
  | WsFrame_Ping | WsFrame_Other => mret ()
  end.

(** Reading one frame; a missing connection panics ([unwrap]). *)
Definition read_frame : W bool :=
  c ← get connection;
  match c with
  | None => panic
  | Some _ =>
      r ← ask (reads env);
      match r with
      | Read_frame frame => handle_frame frame;; mret true
      | Read_would_block => mret false
      | Read_error => modify (set_connection None);; check_reconnect;; mret false
      end
  end.

Definition nonempty {A} (l : list A) : bool := match l with [] => false | _ => true end.

(** The part of [tick] that talks to the server. *)
Definition tick_connection : W bool :=
  ready ← connection_ready;
  if (ready : bool) then
    reset_backoff;;
    check_batched_messages;;
    sent ← try_send_from_outgoing_buffer;
    got ← read_frame;
    mret (sent || got)
  else check_reconnect;; mret false.

Definition tick : W bool :=
  talked ← tick_connection;
  client_messages ← get inbox;
  modify (set_inbox []);;
  for_each handle_client_message client_messages;;
  server_messages ← get to_core;
  modify (set_to_core []);;
  for_each (λ data, emit (Event_handle data)) server_messages;;
  mret (talked || nonempty client_messages || nonempty server_messages).

(** [test_close_connection_cause_reconnect]. *)
Definition test_close_connection_cause_reconnect : W unit :=
  modify (set_connection None);;
  interval ← get reconnect_interval;
  t ← now;
  modify (set_attempt (t - interval * 2)%Z).

Definition Sim2hWorker_init (sim2h_url agent_id : string) (start batching : Z) : Sim2hWorker :=
  {| connection := None; inbox := []; to_core := []; server_url := sim2h_url; space_data := None;
     agent_id := agent_id; time_of_last_connection_attempt := start - INITIAL_CONNECTION_TIMEOUT_MS;
     connection_timeout_backoff := INITIAL_CONNECTION_TIMEOUT_MS;
     reconnect_interval := INITIAL_CONNECTION_TIMEOUT_MS; time_of_last_batching := batching;
     outgoing_fetch_entry_results := []; outgoing_fat_acks := ∅; outgoing_message_buffer := [];
     initial_authoring_list := None; initial_gossiping_list := None;
     has_self_stored_authored_aspects := false; is_full_sync_DHT := false |}.

Definition Sim2hWorker_new (sim2h_url agent_id : string) : W unit :=
  start ← now;
  batching ← now;
  modify (λ _, Sim2hWorker_init sim2h_url agent_id start batching);;
  send_wire_message (WireMessage_Hello WIRE_VERSION);;
  check_reconnect.
End io.

(** ** Runs *)

Inductive Step : Type :=
| Step_receive (data : Lib3hClientProtocol)
| Step_tick (env : Environment).

Definition run_step (s : Step) : W unit :=
  match s with
  | Step_receive data => receive data
  | Step_tick env => tick env;; mret ()
  end.

Definition run (steps : list Step) : W unit := for_each run_step steps.

(** ** A program logic

    [wpw ok m Q w]: from [w], the program returns with [Q], or panics, which
    only is allowed where [ok] is. *)

Definition wpw (ok : Prop) {A} (m : W A) (Q : A → World → Prop) (w : World) : Prop :=
  match m w with
  | Ret (x, w) => Q x w
  | Panic => ok
  | NoFuel => False
  end.

Section logic.
Variable ok : Prop.

Lemma wpw_ret {A} (x : A) Q w : Q x w → wpw ok (mret x) Q w.
Proof. done. Qed.

Lemma wpw_bind {A B} (m : W A) (f : A → W B) Q w :
  wpw ok m (λ x, wpw ok (f x) Q) w → wpw ok (m ≫= f) Q w.
Proof. unfold wpw, mbind, W_bind. by destruct (m w) as [[]| |]. Qed.

Lemma wpw_mono {A} (m : W A) (Q Q' : A → World → Prop) w :
  wpw ok m Q w → (∀ x w, Q x w → Q' x w) → wpw ok m Q' w.
Proof. unfold wpw. destruct (m w) as [[]| |]; auto. Qed.

Lemma wpw_get {A} (f : Sim2hWorker → A) Q w : Q (f (worker w)) w → wpw ok (get f) Q w.
Proof. done. Qed.

Lemma wpw_modify f Q w :
  Q () {| worker := f (worker w); calls := calls w; trace := trace w |} → wpw ok (modify f) Q w.
Proof. done. Qed.

Lemma wpw_ask {A} (f : nat → A) Q w :
  Q (f (calls w)) {| worker := worker w; calls := S (calls w); trace := trace w |} → wpw ok (ask f) Q w.
Proof. done. Qed.

Lemma wpw_emit e Q w :
  Q () {| worker := worker w; calls := calls w; trace := trace w ++ [e] |}%list → wpw ok (emit e) Q w.
Proof. done. Qed.

Lemma wpw_panics {A B} (m : W A) (f : A → W B) (Q : A → World → Prop) w :
  match m w with Ret (x, w) => Q x w | Panic => True | NoFuel => False end →
  (∀ x w, Q x w → f x w = Panic) → (m ≫= f) w = Panic.
Proof. unfold mbind, W_bind. destruct (m w) as [[]| |]; naive_solver. Qed.

(** An invariant of the worker and what was recorded. *)
Definition behaves (I : Sim2hWorker → list Event → Prop) {A} (m : W A) : Prop :=
  ∀ w, I (worker w) (trace w) → wpw ok m (λ _ w, I (worker w) (trace w)) w.

Section invariant.
Variable I : Sim2hWorker → list Event → Prop.

Lemma behaves_ret {A} (x : A) : behaves I (mret x).
Proof. by intros w Hw. Qed.

Lemma behaves_bind {A B} (m : W A) (f : A → W B) :
  behaves I m → (∀ x, behaves I (f x)) → behaves I (m ≫= f).
Proof.
  intros Hm Hf w Hw. apply wpw_bind. eapply wpw_mono; [by apply Hm|]. intros x w' Hw'. by apply Hf.
Qed.

Lemma behaves_get {A} (f : Sim2hWorker → A) : behaves I (get f).
Proof. by intros w Hw. Qed.

Lemma behaves_ask {A} (f : nat → A) : behaves I (ask f).
Proof. by intros w Hw. Qed.

Lemma behaves_modify f : (∀ w tr, I w tr → I (f w) tr) → behaves I (modify f).
Proof. intros Hf w Hw. by apply Hf. Qed.

Lemma behaves_emit e : (∀ w tr, I w tr → I w (tr ++ [e])%list) → behaves I (emit e).
Proof. intros Hf w Hw. by apply Hf. Qed.

Lemma behaves_panic {A} : ok → behaves I (panic : W A).
Proof. by intros Hok w Hw. Qed.

Lemma behaves_for_each {A} (f : A → W unit) l :
  (∀ x, x ∈ l → behaves I (f x)) → behaves I (for_each f l).
Proof.
  induction l as [|x l IH]; intros Hf; [apply behaves_ret|].
  apply behaves_bind; [apply Hf; left|]. intros _. apply IH. intros y Hy. apply Hf. by right.
Qed.
End invariant.
End logic.

Create HintDb worker discriminated.
#[local] Hint Resolve behaves_ret behaves_get behaves_ask : worker.

(** Programs all of whose steps keep an invariant. *)
Ltac stepwise :=
  repeat first
    [ solve [auto with worker]
    | match goal with |- behaves _ _ (_ ≫= _) => apply behaves_bind; [|intros ?] end
    | match goal with |- behaves _ _ (match ?x with _ => _ end) => destruct x eqn:? end
    | apply behaves_panic; exact Logic.I
    | apply behaves_modify; intros ? ? Hi; exact Hi
    | apply behaves_emit; intros ? ? Hi; exact Hi
    | apply behaves_for_each; intros ? _ ].

(** Symbolic execution. *)
Ltac wstep :=
  match goal with
  | |- wpw _ (_ ≫= _) _ _ => apply wpw_bind
  | |- wpw _ (get _) _ _ => apply wpw_get
  | |- wpw _ (modify _) _ _ => apply wpw_modify
  | |- wpw _ (ask _) _ _ => apply wpw_ask
  | |- wpw _ (emit _) _ _ => apply wpw_emit
  | |- wpw _ (mret _) _ _ => apply wpw_ret
  end; cbn [worker calls trace].

(** ** Nothing is lost *)

Definition receipt (m : WireMessage) : Z := generate_ack_receipt_hash (to_text m).

Definition queued (w : Sim2hWorker) (m : WireMessage) : Prop :=
  ∃ b, b ∈ outgoing_message_buffer w ∧ wire_message b = m.

Definition wrote (tr : list Event) (m : WireMessage) : Prop :=
  ∃ source signature, Event_write (to_text m) source signature true ∈ tr.

(** The message was written, and then its receipt was read.  A queued message that
    was not written has the hash 0, so that a receipt of 0 would do, too. *)
Definition delivered (tr : list Event) (m : WireMessage) : Prop :=
  ∃ tr1 h tr2, tr = (tr1 ++ Event_read (WireMessage_Ack h) :: tr2)%list ∧
    (h = receipt m ∧ wrote tr1 m ∨ h = 0%Z).

Definition settled (w : Sim2hWorker) (tr : list Event) (m : WireMessage) : Prop :=
  queued w m ∨ delivered tr m.

(** What the worker owes: a message to the server; a direct message, until there is
    a new connection; a response in a batch; an aspect that the node holds, in a
    batch; a message to the core; a query that goes either to the server or to the
    core.  [n] is the length of the trace when the worker came to owe it, and
    [Item_time] only says that the trace is that long. *)
Inductive Item : Type :=
| Item_time (n : nat)
| Item_message (m : WireMessage)
| Item_direct (n : nat) (m : WireMessage)
| Item_response (r : Lib3hToClientResponse)
| Item_ack (entry aspect : string)
| Item_core (n : nat) (c : Lib3hServerProtocol)
| Item_query (n : nat) (m : WireMessage) (c : Lib3hServerProtocol).

Definition keepable (i : Item) : bool :=
  match i with Item_message m | Item_query _ m _ => retained m | _ => true end.

Definition settled_in_batch (w : Sim2hWorker) (tr : list Event) (r : Lib3hToClientResponse) : Prop :=
  ∃ msgs, r ∈ msgs ∧ settled w tr (WireMessage_MultiSendResponse msgs).

(** A connection was opened, or tried to, since. *)
Definition connected_since (n : nat) (tr : list Event) : Prop :=
  ∃ timeout_ms, Event_connect timeout_ms ∈ drop n tr.

(** A message waits to be handed to the core, or was handed to it since. *)
Definition to_core_since (n : nat) (w : Sim2hWorker) (tr : list Event) (c : Lib3hServerProtocol) : Prop :=
  c ∈ to_core w ∨ Event_handle c ∈ drop n tr.

Definition accounted (w : Sim2hWorker) (tr : list Event) (i : Item) : Prop :=
  match i with
  | Item_time n => n ≤ length tr
  | Item_message m => settled w tr m
  | Item_direct n m => n ≤ length tr ∧ (settled w tr m ∨ connected_since n tr)
  | Item_core n c => n ≤ length tr ∧ to_core_since n w tr c
  | Item_query n m c => n ≤ length tr ∧ (settled w tr m ∨ to_core_since n w tr c)
  | Item_response r => r ∈ outgoing_fetch_entry_results w ∨ settled_in_batch w tr r
  | Item_ack e a =>
      holds (outgoing_fat_acks w) e a ∨
      ∃ data l, (e, l) ∈ el_address_map data ∧ a ∈ l ∧ el_request_id data = "" ∧
        settled_in_batch w tr (Lib3hToClientResponse_HandleGetGossipingEntryListResult data)
  end.

(** A message with a hash was written. *)
Definition well_hashed (w : Sim2hWorker) (tr : list Event) : Prop :=
  ∀ b, b ∈ outgoing_message_buffer w →
    hash b = 0%Z ∨ (hash b = receipt (wire_message b) ∧ wrote tr (wire_message b)).

(** What a message of the core makes the worker owe: everything it asks for.  Only
    [FetchEntry], which panics, and [Shutdown], which does nothing, are left. *)
Definition owes (n : nat) (data : Lib3hClientProtocol) : list Item :=
  match data with
  | Lib3hClientProtocol_SuccessResult data => [Item_core n (Lib3hServerProtocol_FailureResult data)]
  | Lib3hClientProtocol_Connect request_id =>
      [Item_core n (Lib3hServerProtocol_FailureResult
         {| gr_request_id := request_id; gr_space_address := default_space;
            gr_to_agent_id := default_agent; gr_result_info := "" |})]
  | Lib3hClientProtocol_JoinSpace data =>
      [Item_message (WireMessage_ClientToLib3h (ClientToLib3h_JoinSpace data))]
  | Lib3hClientProtocol_LeaveSpace data =>
      [Item_message (WireMessage_ClientToLib3h (ClientToLib3h_LeaveSpace data))]
  | Lib3hClientProtocol_SendDirectMessage data =>
      [Item_direct n (WireMessage_ClientToLib3h (ClientToLib3h_SendDirectMessage data))]
  | Lib3hClientProtocol_HandleSendDirectMessageResult data =>
      [Item_message (WireMessage_Lib3hToClientResponse
         (Lib3hToClientResponse_HandleSendDirectMessageResult data))]
  | Lib3hClientProtocol_FetchEntry => []
  | Lib3hClientProtocol_HandleFetchEntryResult data =>
      if String.eqb (fr_request_id data) SIM2H_WORKER_INTERNAL_REQUEST_ID then
        Item_core n <$> store_aspects (fr_space_address data) (fr_provider_agent_id data)
          (fr_entry_address data) (fr_aspect_list data)
      else [Item_response (Lib3hToClientResponse_HandleFetchEntryResult data)]
  | Lib3hClientProtocol_PublishEntry data =>
      Item_message (WireMessage_ClientToLib3h (ClientToLib3h_PublishEntry data)) ::
      (Item_core n <$> store_aspects (pe_space_address data) (pe_provider_agent_id data)
         (pe_entry_address data) (pe_aspect_list data))
  | Lib3hClientProtocol_QueryEntry data =>
      [Item_query n (WireMessage_ClientToLib3h (ClientToLib3h_QueryEntry data))
         (Lib3hServerProtocol_HandleQueryEntry data)]
  | Lib3hClientProtocol_HandleQueryEntryResult data =>
      [Item_query n (WireMessage_Lib3hToClientResponse
           (Lib3hToClientResponse_HandleQueryEntryResult data))
         (Lib3hServerProtocol_QueryEntryResult data)]
  | Lib3hClientProtocol_HandleGetAuthoringEntryListResult data =>
      [Item_message (WireMessage_Lib3hToClientResponse
         (Lib3hToClientResponse_HandleGetAuthoringEntryListResult data))]
  | Lib3hClientProtocol_HandleGetGossipingEntryListResult data =>
      if String.eqb (el_request_id data) "" then
        map_to_list (list_to_map (el_address_map data) : gmap string (list string)) ≫=
          λ '(e, l), Item_ack e <$> l
      else [Item_message (WireMessage_Lib3hToClientResponse
              (Lib3hToClientResponse_HandleGetGossipingEntryListResult data))]
  | Lib3hClientProtocol_Shutdown => []
  end.

Lemma owes_keepable n data i : i ∈ owes n data → keepable i = true.
Proof.
  destruct data; cbn [owes]; repeat case_match; intros Hi;
    try (apply list_elem_of_singleton in Hi as ->; done); try by apply elem_of_nil in Hi.
  - by apply list_elem_of_fmap in Hi as (a & -> & _).
  - by apply elem_of_cons in Hi as [->|(a & -> & _)%list_elem_of_fmap].
  - apply list_elem_of_bind in Hi as ([e l] & Hi & _).
    by apply list_elem_of_fmap in Hi as (a & -> & _).
Qed.

(** *** What is accounted for stays so *)

Lemma wrote_app tr tr' m : wrote tr m → wrote (tr ++ tr')%list m.
Proof. intros (s & g & H). exists s, g. apply elem_of_app. by left. Qed.

Lemma delivered_app tr tr' m : delivered tr m → delivered (tr ++ tr')%list m.
Proof.
  intros (tr1 & h & tr2 & -> & H). exists tr1, h, (tr2 ++ tr')%list. by rewrite <- app_assoc.
Qed.

Lemma since_app n (tr tr' : list Event) e : e ∈ drop n tr → e ∈ drop n (tr ++ tr').
Proof. rewrite drop_app, elem_of_app. by left. Qed.

(** A worker that keeps its messages, to the server and to the core. *)
Definition keeps_messages (w w' : Sim2hWorker) (tr tr' : list Event) : Prop :=
  ∀ m, settled w tr m → settled w' tr' m.

Lemma keeps_batches w w' tr tr' r :
  (∀ msgs, settled w tr (WireMessage_MultiSendResponse msgs) →
     settled w' tr' (WireMessage_MultiSendResponse msgs)) →
  settled_in_batch w tr r → settled_in_batch w' tr' r.
Proof. intros Hk (msgs & Hr & Hs). exists msgs. split; [done|]. by apply Hk. Qed.

Lemma keeps_core n w w' tr tr' c :
  (∀ c, c ∈ to_core w → c ∈ to_core w') → to_core_since n w tr c → to_core_since n w' (tr ++ tr') c.
Proof. intros Hc [H|H]; [left; auto|right; by apply since_app]. Qed.

Lemma keeps_accounted w w' tr tr' i :
  keeps_messages w w' tr (tr ++ tr') →
  outgoing_fetch_entry_results w' = outgoing_fetch_entry_results w →
  outgoing_fat_acks w' = outgoing_fat_acks w →
  (∀ c, c ∈ to_core w → c ∈ to_core w') →
  accounted w tr i → accounted w' (tr ++ tr') i.
Proof.
  intros Hk Hf Ha Hc. assert (Hlen : ∀ n, n ≤ length tr → n ≤ length (tr ++ tr'))
    by (intros n; rewrite length_app; lia).
  destruct i as [n|m|n m|r|e a|n c|n m c]; simpl; rewrite ?Hf, ?Ha; [by auto|by apply Hk|..].
  - intros [Hn [H|[ms H]]]; (split; [by auto|]); [left; by apply Hk|right]. exists ms.
    by apply since_app.
  - intros [H|H]; [by left|]. right. revert H. apply keeps_batches. auto.
  - intros [H|(data & l & ? & ? & ? & H)]; [by left|]. right. exists data, l.
    repeat split; try done. revert H. apply keeps_batches. auto.
  - intros [Hn H]. split; [by auto|]. by eapply keeps_core.
  - intros [Hn [H|H]]; (split; [by auto|]); [left; by apply Hk|right; by eapply keeps_core].
Qed.

(** The same without new events. *)
Lemma keeps_accounted_still w w' tr i :
  keeps_messages w w' tr tr →
  outgoing_fetch_entry_results w' = outgoing_fetch_entry_results w →
  outgoing_fat_acks w' = outgoing_fat_acks w →
  (∀ c, c ∈ to_core w → c ∈ to_core w') →
  accounted w tr i → accounted w' tr i.
Proof. pose proof (keeps_accounted w w' tr [] i) as H. by rewrite app_nil_r in H. Qed.

(** The invariant: the hashes are right, and an item is accounted for. *)
Definition kept (i : Item) (w : Sim2hWorker) (tr : list Event) : Prop :=
  well_hashed w tr ∧ accounted w tr i.

Section keeping.
Variable i : Item.
Hypothesis i_keepable : keepable i = true.

Lemma kept_emit e : behaves True (kept i) (emit e).
Proof.
  apply behaves_emit. intros w tr [Hh Ha]. split.
  - intros b Hb. destruct (Hh b Hb) as [?|[? ?]]; [by left|]. right. auto using wrote_app.
  - apply (keeps_accounted w); try done. intros m [?|?]; [by left|]. right. by apply delivered_app.
Qed.

(** A change of the buffer that keeps the messages with their hashes. *)
Lemma kept_set_buffer f :
  (∀ l m, (∃ b, b ∈ l ∧ wire_message b = m) → ∃ b, b ∈ f l ∧ wire_message b = m) →
  (∀ l b, b ∈ f l → hash b = 0%Z ∨
     ∃ b', b' ∈ l ∧ hash b' = hash b ∧ wire_message b' = wire_message b) →
  ∀ w tr, kept i w tr → kept i (set_buffer (f (outgoing_message_buffer w)) w) tr.
Proof.
  intros Hf Hb w tr [Hh Ha]. split.
  - intros b Hin. destruct (Hb _ _ Hin) as [?|(b' & Hin' & <- & <-)]; [by left|]. by apply Hh.
  - apply (keeps_accounted_still w); try done.
    intros m [Hq|?]; [|by right]. left. by apply Hf.
Qed.

Lemma kept_push_outgoing m : behaves True (kept i) (push_outgoing m).
Proof.
  apply behaves_modify. apply (kept_set_buffer (λ l, l ++ [BufferedMessage_from m])%list).
  - intros l m' (b & Hb & Hm). exists b. rewrite elem_of_app. auto.
  - intros l b [Hb| ->%list_elem_of_singleton]%elem_of_app; [right; eauto|by left].
Qed.

(** The connection that direct messages do not survive. *)
Definition reconnected (tr : list Event) : Prop :=
  match i with Item_direct n _ => connected_since n tr | _ => True end.

Lemma prepend_retained m w tr m' :
  retained m' = true → settled w tr m' →
  settled (set_buffer (BufferedMessage_from m ::
    filter (λ b, retained (wire_message b) = true) (unsent <$> outgoing_message_buffer w)) w) tr m'.
Proof.
  intros Hr [(b & Hb & <-)|?]; [|by right]. left. exists (unsent b). split; [|done]. right.
  apply list_elem_of_filter. split; [done|]. apply list_elem_of_fmap. eauto.
Qed.

Lemma kept_prepend m :
  behaves True (λ w tr, kept i w tr ∧ reconnected tr) (prepend_wire_message m).
Proof.
  apply behaves_modify. intros w tr [[Hh Ha] Hc]. split; [|exact Hc]. split.
  - intros b [->|[_ (b' & -> & Hb)%list_elem_of_fmap]%list_elem_of_filter]%elem_of_cons; [by left|].
    by apply (Hh b').
  - unfold reconnected in Hc. destruct i as [n|m'|n m'|r|e a|n c|n m' c]; cbn [accounted] in *;
      [done|by apply prepend_retained| | | |done|].
    + split; [apply Ha|by right].
    + destruct Ha as [Ha|Ha]; [by left|]. right. revert Ha. apply keeps_batches.
      intros msgs. by apply prepend_retained.
    + destruct Ha as [Ha|(data & l & ? & ? & ? & Ha)]; [by left|]. right. exists data, l.
      repeat split; try done. revert Ha. apply keeps_batches. intros msgs. by apply prepend_retained.
    + destruct Ha as [Hn [Ha|Ha]]; (split; [done|]); [left; by apply prepend_retained|by right].
Qed.

Lemma kept_same f :
  (∀ w, outgoing_message_buffer (f w) = outgoing_message_buffer w ∧
     outgoing_fetch_entry_results (f w) = outgoing_fetch_entry_results w ∧
     outgoing_fat_acks (f w) = outgoing_fat_acks w ∧
     to_core w `prefix_of` to_core (f w)) →
  behaves True (kept i) (modify f).
Proof.
  intros Hf. apply behaves_modify. intros w tr [Hh Ha]. destruct (Hf w) as (Hb & Hr & Hk & Hc). split.
  - intros b. rewrite Hb. apply Hh.
  - apply (keeps_accounted_still w); try done.
    + intros m [(b & Hin & ?)|?]; [|by right]. left. exists b. by rewrite Hb.
    + intros c Hin. destruct Hc as [l ->]. apply elem_of_app. by left.
Qed.

Lemma kept_push_to_core m : behaves True (kept i) (push_to_core m).
Proof. apply kept_same. intros w. repeat split. by apply prefix_app_r. Qed.

Hint Resolve kept_emit kept_push_outgoing kept_push_to_core : worker.

(** Programs that only touch the queues through the operations above. *)
Ltac keeping :=
  repeat first
    [ solve [auto with worker]
    | match goal with |- behaves _ _ (_ ≫= _) => apply behaves_bind; [|intros ?] end
    | match goal with |- behaves _ _ (match ?x with _ => _ end) => destruct x eqn:? end
    | apply kept_same; intros ?; split_and!; reflexivity
    | apply behaves_panic; exact Logic.I
    | apply behaves_for_each; intros ? _ ].

Section io_keeping.
Variable env : Environment.

Lemma kept_connection_ready : behaves True (kept i) (connection_ready env).
Proof. unfold connection_ready. keeping. Qed.
Hint Resolve kept_connection_ready : worker.

Lemma kept_reset_backoff : behaves True (kept i) reset_backoff.
Proof. unfold reset_backoff, inner_set_backoff. keeping. Qed.
Hint Resolve kept_reset_backoff : worker.

(** Whatever comes of the attempt, there was one. *)
Lemma connect_reconnects timeout w :
  kept i (worker w) (trace w) →
  wpw True (connect env timeout) (λ _ w, kept i (worker w) (trace w) ∧ reconnected (trace w)) w.
Proof.
  intros Hk. unfold connect. do 3 wstep. split; [by apply (kept_emit _ w)|].
  unfold reconnected. destruct Hk as [_ Ha]. destruct i as [| |n m| | | |]; try done.
  exists timeout. rewrite drop_app_le by apply Ha. apply elem_of_app. right.
  by apply list_elem_of_singleton.
Qed.

Lemma kept_reconnect timeout :
  behaves True (kept i)
    (c ← connect env timeout;
     match c with
     | None => mret ()
     | Some c =>
         modify (set_connection (Some c));;
         data ← get space_data;
         match data with
         | None => mret ()
         | Some data =>
             prepend_wire_message (WireMessage_ClientToLib3h (ClientToLib3h_JoinSpace data))
         end
     end).
Proof.
  intros w Hk. apply wpw_bind. eapply wpw_mono; [by apply connect_reconnects|]. clear w Hk.
  intros [c|] w [Hk Hc]; [|exact Hk]. do 4 wstep.
  destruct (space_data _) as [data|]; [|exact Hk].
  eapply wpw_mono; [apply kept_prepend; by split|]. by intros x w' [? _].
Qed.

Lemma kept_check_reconnect : behaves True (kept i) (check_reconnect env).
Proof.
  pose proof kept_reconnect. unfold check_reconnect, backoff, inner_set_backoff, elapsed, now. keeping.
Qed.
Hint Resolve kept_check_reconnect : worker.

Lemma kept_send_wire_message m : behaves True (kept i) (send_wire_message m).
Proof.
  unfold send_wire_message. keeping; apply behaves_modify; intros w tr [Hh Ha]; (split; [exact Hh|]);
    destruct i as [| | |r|e a| |]; try exact Ha; destruct Ha as [Ha|Ha]; try (right; exact Ha); left; simpl;
    first [exact Ha | apply elem_of_app; by left | apply holds_merge; by left].
Qed.
Hint Resolve kept_send_wire_message : worker.

Lemma kept_is_autonomous_node : behaves True (kept i) (is_autonomous_node env).
Proof. unfold is_autonomous_node. keeping. Qed.
Hint Resolve kept_is_autonomous_node : worker.

Lemma kept_self_store : behaves True (kept i) self_store_authored_aspects.
Proof. unfold self_store_authored_aspects. keeping. Qed.
Hint Resolve kept_self_store : worker.

Lemma kept_handle_client_message data : behaves True (kept i) (handle_client_message env data).
Proof. destruct data; cbn [handle_client_message]; keeping. Qed.
Hint Resolve kept_handle_client_message : worker.

Lemma kept_acknowledged h w tr :
  kept i w tr → kept i (acknowledged h w) (tr ++ [Event_read (WireMessage_Ack h)])%list.
Proof.
  intros Hk. pose proof (kept_emit (Event_read (WireMessage_Ack h))
    {| worker := w; calls := 0; trace := tr |} Hk) as [Hh Ha]. cbn [worker trace] in Hh, Ha.
  unfold acknowledged. destruct (outgoing_message_buffer w) as [|b rest] eqn:Hb; [done|].
  destruct (Z.eqb (hash b) h) eqn:Heq; [|done]. apply Z.eqb_eq in Heq. split.
  - intros b' Hin. apply Hh. rewrite Hb. by right.
  - eapply keeps_accounted_still; [..|exact Ha]; try done. intros m [(b' & Hin & <-)|?]; [|by right].
    rewrite Hb in Hin. apply elem_of_cons in Hin as [->|Hin]; [|left; by exists b'].
    right. exists tr, h, []. split; [done|]. destruct Hk as [Hw _].
    destruct (Hw b) as [?|[? ?]]; [rewrite Hb; left|right|left]; subst; auto.
Qed.

Lemma kept_handle_frame frame : behaves True (kept i) (handle_frame frame).
Proof.
  unfold handle_frame. destruct frame as [payload| |]; [|keeping..].
  destruct (from_text payload) as [m|]; [|keeping].
  destruct m as [| | | | | | | | | | | | | h| |]; cbn [handle_server_message]; unfold set_full_sync;
    try by keeping.
  intros w Hw. apply (kept_acknowledged h) in Hw. exact Hw.
Qed.
Hint Resolve kept_handle_frame : worker.

Lemma kept_read_frame : behaves True (kept i) (read_frame env).
Proof. unfold read_frame. keeping. Qed.
Hint Resolve kept_read_frame : worker.

(** A batch takes what the queues had. *)
Lemma kept_moved w w1 msgs tr :
  kept i w tr →
  (∀ r, r ∈ outgoing_fetch_entry_results w → r ∈ msgs) →
  (∀ e a, holds (outgoing_fat_acks w) e a → holds (outgoing_fat_acks w1) e a ∨
     ∃ data l, (e, l) ∈ el_address_map data ∧ a ∈ l ∧ el_request_id data = "" ∧
       Lib3hToClientResponse_HandleGetGossipingEntryListResult data ∈ msgs) →
  to_core w1 = to_core w →
  kept i (set_buffer (outgoing_message_buffer w ++
    [BufferedMessage_from (WireMessage_MultiSendResponse msgs)])%list (set_fetch_results [] w1)) tr.
Proof.
  intros [Hh Ha] Hr Hf Hc. set (w' := set_buffer _ _).
  assert (Hk : ∀ m, settled w tr m → settled w' tr m).
  { intros m [(b & Hb & ?)|?]; [|by right]. left. exists b. split; [|done].
    apply elem_of_app. by left. }
  assert (Hq : settled w' tr (WireMessage_MultiSendResponse msgs)).
  { left. exists (BufferedMessage_from (WireMessage_MultiSendResponse msgs)). split; [|done].
    apply elem_of_app. right. by apply list_elem_of_singleton. }
  assert (Hcore : ∀ n c, to_core_since n w tr c → to_core_since n w' tr c)
    by (intros n c; unfold to_core_since; cbn; by rewrite Hc). split.
  - intros b [Hb| ->%list_elem_of_singleton]%elem_of_app; [by apply Hh|by left].
  - destruct i as [n|m|n m|r|e a|n c|n m c]; cbn [accounted] in *; [done|by apply Hk| | | |naive_solver..].
    + naive_solver.
    + right. destruct Ha as [Ha|Ha]; [exists msgs; auto|eauto using keeps_batches].
    + destruct Ha as [[Ha|(data & l & ? & ? & ? & ?)]%Hf|(data & l & ? & ? & ? & ?)]; [by left|..];
        right; exists data, l; repeat split; try done; [by exists msgs|eauto using keeps_batches].
Qed.

Lemma kept_batch w tr : kept i w tr → kept i (batch w) tr.
Proof.
  intros Hk. unfold batch, fat_acks.
  destruct (AspectMap_empty (outgoing_fat_acks w)), (space_data w) as [data|];
    cbn [app]; try (destruct (outgoing_fetch_entry_results w) as [|r rs] eqn:Hr; [exact Hk|]);
    (apply (kept_moved w); [exact Hk|..|done]); try (intros r' Hr'; by rewrite <- Hr); auto.
  - intros r Hr. right. exact Hr.
  - intros e a Ha. right. unfold holds in Ha.
    destruct (outgoing_fat_acks w !! e) as [s|] eqn:He; [|set_solver].
    eexists _, (elements s). split; [|split; [by apply elem_of_elements|split; [|left]]; reflexivity].
    apply elem_of_map_to_list. unfold to_vec_map. by rewrite lookup_fmap, He.
Qed.

Lemma kept_check_batched : behaves True (kept i) (check_batched_messages env).
Proof.
  unfold check_batched_messages, elapsed, now. keeping. apply behaves_modify, kept_batch.
Qed.
Hint Resolve kept_check_batched : worker.

(** The first message keeps its place and gets the hash of what was written. *)
Lemma kept_mark_sent w b rest tr t :
  outgoing_message_buffer w = b :: rest → wrote tr (wire_message b) → kept i w tr →
  kept i (mark_sent (generate_ack_receipt_hash (to_text (wire_message b))) t w) tr.
Proof.
  intros Hb Hw [Hh Ha]. unfold mark_sent. rewrite Hb. split.
  - intros b' [->|Hin]%elem_of_cons; [by right|]. apply Hh. rewrite Hb. by right.
  - eapply keeps_accounted_still; [..|exact Ha]; try done. intros m [(b' & Hin & <-)|?]; [|by right].
    rewrite Hb in Hin. left. apply elem_of_cons in Hin as [->|Hin]; [|exists b'; split; [by right|done]].
    eexists. split; [left|done].
Qed.

(** *** Sending *)

Definition first_is (b : BufferedMessage) (w : Sim2hWorker) : Prop :=
  ∃ rest, outgoing_message_buffer w = b :: rest.

(** Programs before the write leave the first message where it is. *)
Definition kept_first (b : BufferedMessage) (w : Sim2hWorker) (tr : list Event) : Prop :=
  kept i w tr ∧ first_is b w.

Lemma first_connection_ready b : behaves True (kept_first b) (connection_ready env).
Proof.
  intros w [Hk Hf]. unfold connection_ready. apply wpw_bind, wpw_get.
  destruct (connection (worker w)); [|by apply wpw_ret].
  apply wpw_bind. unfold wpw at 1. cbn [ask]. case_match; by split.
Qed.

Lemma kept_write_frame b source signature w :
  kept_first b (worker w) (trace w) →
  wpw True (write_frame env (to_text (wire_message b)) source signature)
    (λ written w, kept_first b (worker w) (trace w) ∧
       (written = true → wrote (trace w) (wire_message b))) w.
Proof.
  intros [Hk Hf]. unfold write_frame. apply wpw_bind, wpw_get.
  destruct (connection (worker w)) as [c|]; [|exact Logic.I].
  split; [split; [by apply (kept_emit _ w)|done]|]. cbn [trace]. intros ->.
  exists source, signature. apply elem_of_app. right. by apply list_elem_of_singleton.
Qed.

Lemma kept_send_first b w :
  kept_first b (worker w) (trace w) →
  wpw True (send_first env b) (λ _ w, kept i (worker w) (trace w)) w.
Proof.
  intros Hk. unfold send_first. apply wpw_bind.
  eapply (wpw_mono _ _ (λ _ w, kept_first b (worker w) (trace w))).
  { unfold signature_of. destruct (wire_message b) as [[]| | | | | | | | | | | | | | |]; exact Hk. }
  clear w Hk. intros [signature|] w Hk; [|exact (proj1 Hk)].
  apply wpw_bind, wpw_get, wpw_bind. eapply wpw_mono; [by apply kept_write_frame|].
  clear w Hk. intros [] w [[Hk [rest Hb]] Hw].
  - by eapply kept_mark_sent; [..|exact Hk]; [|apply Hw].
  - cut (behaves True (kept i) (modify (set_connection None);; check_reconnect env;; mret true));
      [by intros H; apply H|keeping].
Qed.

Lemma kept_try_send : behaves True (kept i) (try_send_from_outgoing_buffer env).
Proof.
  intros w Hk. unfold try_send_from_outgoing_buffer. apply wpw_bind, wpw_get.
  destruct (outgoing_message_buffer (worker w)) as [|b rest] eqn:Hb; [exact Hk|].
  apply wpw_bind. eapply wpw_mono; [apply (first_connection_ready b); split; [done|by exists rest]|].
  clear w Hk rest Hb. intros [] w Hk; [|exact (proj1 Hk)]. apply wpw_bind.
  eapply (wpw_mono _ _ (λ _ w, kept_first b (worker w) (trace w))).
  { unfold due. by destruct (last_sent b). }
  clear w Hk. intros [] w Hk; [by apply kept_send_first|exact (proj1 Hk)].
Qed.
Hint Resolve kept_try_send : worker.

Lemma kept_tick_connection : behaves True (kept i) (tick_connection env).
Proof. unfold tick_connection. keeping. Qed.
Hint Resolve kept_tick_connection : worker.

(** While messages are handed over to the core. *)
Definition handing (l : list Lib3hServerProtocol) (w : Sim2hWorker) (tr : list Event) : Prop :=
  kept i (set_to_core (l ++ to_core w)%list w) tr.

Lemma handing_emit c l w tr : handing (c :: l) w tr → handing l w (tr ++ [Event_handle c])%list.
Proof.
  intros [Hh Ha]. set (e := Event_handle c).
  assert (He : ∀ n, n ≤ length tr → e ∈ drop n (tr ++ [e])).
  { intros n Hn. rewrite drop_app_le by done. apply elem_of_app. right.
    by apply list_elem_of_singleton. }
  assert (Hc : ∀ n c', n ≤ length tr → to_core_since n (set_to_core ((c :: l) ++ to_core w)%list w) tr c' →
    to_core_since n (set_to_core (l ++ to_core w)%list w) (tr ++ [e]) c').
  { intros n c' Hn [[->|Hin]%elem_of_cons|Hin]; [right; by apply He|by left|right; by apply since_app]. }
  pose proof (kept_emit e {| worker := set_to_core ((c :: l) ++ to_core w)%list w; calls := 0;
    trace := tr |} (conj Hh Ha)) as [Hh' Ha']. split; [exact Hh'|]. cbn [worker trace] in Ha'.
  destruct i as [| | | | |n c'|n m c']; try exact Ha'; cbn [accounted] in *; destruct Ha' as [Hn Ha'];
    (split; [exact Hn|]); destruct Ha as [Hn' Ha]; [by apply Hc|].
  destruct Ha' as [Ha'|_]; [by left|]. destruct Ha as [Ha|Ha]; [|right; by apply Hc].
  left. destruct Ha; [by left|right; by apply delivered_app].
Qed.

Lemma handing_each l w :
  handing l (worker w) (trace w) →
  wpw True (for_each (λ data, emit (Event_handle data)) l) (λ _ w, kept i (worker w) (trace w)) w.
Proof.
  revert w. induction l as [|c l IH]; intros w Hw.
  - unfold handing in Hw. cbn in *. by destruct (worker w).
  - apply wpw_bind. wstep. apply IH. by apply handing_emit.
Qed.

Lemma kept_hand_over :
  behaves True (kept i)
    (server_messages ← get to_core;
     modify (set_to_core []);;
     for_each (λ data, emit (Event_handle data)) server_messages;;
     mret ()).
Proof.
  intros w Hw. do 5 wstep. eapply wpw_mono; [apply handing_each|by intros x w' Hw'].
  unfold handing. cbn. rewrite app_nil_r. by destruct w as [[] ? ?].
Qed.

Lemma kept_tick : behaves True (kept i) (tick env).
Proof.
  unfold tick. do 4 (apply behaves_bind; [by keeping|intros ?]).
  intros w Hw. pose proof (kept_hand_over w Hw) as Hrest. unfold wpw, mbind, W_bind in *. cbn in *.
  by destruct (for_each _ _ _) as [[]| |].
Qed.
End io_keeping.

Lemma kept_run_step s : behaves True (kept i) (run_step s).
Proof.
  destruct s as [data|env]; cbn [run_step]; [unfold receive; keeping|].
  apply behaves_bind; [apply kept_tick|keeping].
Qed.

Lemma kept_run steps : behaves True (kept i) (run steps).
Proof. apply behaves_for_each. intros s _. apply kept_run_step. Qed.
End keeping.

(** *** What the core asked for *)

Section owed.
Variable env : Environment.
Variable n : nat.

Lemma wpw_behaves_r {A B} (m : W A) (f : A → W B) I (R : Sim2hWorker → list Event → Prop) w :
  behaves True I m → (∀ x w, I (worker w) (trace w) → wpw True (f x) (λ _ w, R (worker w) (trace w)) w) →
  I (worker w) (trace w) → wpw True (m ≫= f) (λ _ w, R (worker w) (trace w)) w.
Proof. intros Hm Hf Hw. apply wpw_bind. eapply wpw_mono; [by apply Hm|]. eauto. Qed.

(** A program establishes an item, from the time on when the trace is as long as [n]. *)
Definition establishes (i : Item) {A} (m : W A) : Prop :=
  ∀ w, kept (Item_time n) (worker w) (trace w) → wpw True m (λ _ w, kept i (worker w) (trace w)) w.

Lemma establishes_after {A B} i (m : W A) (f : A → W B) :
  behaves True (kept (Item_time n)) m → (∀ x, establishes i (f x)) → establishes i (m ≫= f).
Proof. intros Hm Hf w Hw. eapply wpw_behaves_r; [exact Hm|exact Hf|exact Hw]. Qed.

(** An item that the first program establishes and the second keeps. *)
Lemma establishes_first {A B} i (m : W A) (f : A → W B) :
  establishes i m → (∀ x, behaves True (kept i) (f x)) → establishes i (m ≫= f).
Proof.
  intros Hm Hf w Hw. apply wpw_bind. eapply wpw_mono; [by apply Hm|]. intros x w' Hw'. by apply Hf.
Qed.

Lemma push_settles m w tr :
  settled (set_buffer (outgoing_message_buffer w ++ [BufferedMessage_from m])%list w) tr m.
Proof.
  left. exists (BufferedMessage_from m). split; [|done]. apply elem_of_app. right.
  by apply list_elem_of_singleton.
Qed.

(** A message in the outgoing buffer, whatever item asks for it. *)
Lemma establishes_push m i :
  i = Item_message m ∨ i = Item_direct n m ∨ (∃ c, i = Item_query n m c) →
  establishes i (push_outgoing m).
Proof.
  intros Hi w Hw. pose proof (kept_push_outgoing (Item_time n) m w Hw) as [Hh Ht].
  split; [exact Hh|]. pose proof (push_settles m (worker w) (trace w)).
  destruct Hi as [->|[->|[c ->]]]; cbn [accounted]; [done|split; [exact Ht|by left]..].
Qed.

Lemma establishes_core c i :
  i = Item_core n c ∨ (∃ m, i = Item_query n m c) → establishes i (push_to_core c).
Proof.
  intros Hi w Hw. pose proof (kept_push_to_core (Item_time n) c w Hw) as [Hh Ht].
  split; [exact Hh|]. assert (c ∈ to_core (worker w) ++ [c])
    by (apply elem_of_app; right; by apply list_elem_of_singleton).
  destruct Hi as [->|[m ->]]; cbn [accounted]; (split; [exact Ht|]); [by left|right; by left].
Qed.

Lemma establishes_core_each c l : c ∈ l → establishes (Item_core n c) (for_each push_to_core l).
Proof.
  induction l as [|c' l IH]; [by intros ?%elem_of_nil|]. cbn [for_each]. intros [<-|Hin]%elem_of_cons.
  - apply establishes_first; [apply establishes_core; by left|]. intros _. apply behaves_for_each.
    intros m _. apply kept_push_to_core.
  - apply establishes_after; [apply kept_push_to_core|]. intros _. by apply IH.
Qed.

Lemma establishes_response data :
  establishes (Item_response (Lib3hToClientResponse_HandleFetchEntryResult data))
    (send_wire_message (WireMessage_Lib3hToClientResponse
       (Lib3hToClientResponse_HandleFetchEntryResult data))).
Proof.
  intros w [Hw _]. split; [exact Hw|]. left. apply elem_of_app. right. by apply list_elem_of_singleton.
Qed.

Lemma establishes_ack data e l a :
  el_request_id data = "" → (list_to_map (el_address_map data) : gmap string (list string)) !! e = Some l →
  a ∈ l →
  establishes (Item_ack e a) (send_wire_message (WireMessage_Lib3hToClientResponse
    (Lib3hToClientResponse_HandleGetGossipingEntryListResult data))).
Proof.
  intros Hid He Ha w [Hw _]. cbn [send_wire_message]. rewrite Hid. split; [exact Hw|]. left.
  apply holds_merge. right. apply holds_from_vec_map. by rewrite He.
Qed.

Lemma kept_modify_same f :
  (∀ w, outgoing_message_buffer (f w) = outgoing_message_buffer w) →
  behaves True (kept (Item_time n)) (modify f).
Proof.
  intros Hf. apply behaves_modify. intros w tr [Hh Ht]. split; [|exact Ht]. intros b. rewrite Hf. apply Hh.
Qed.

Lemma kept_store_if (autonomous : bool) i :
  keepable i = true →
  behaves True (kept i) (if autonomous then self_store_authored_aspects else mret ()).
Proof. intros Hi. destruct autonomous; [by apply kept_self_store|apply behaves_ret]. Qed.

Lemma kept_push_each i l : keepable i = true → behaves True (kept i) (for_each push_to_core l).
Proof. intros Hi. apply behaves_for_each. intros m _. by apply kept_push_to_core. Qed.

Lemma owes_established data i : i ∈ owes n data → establishes i (handle_client_message env data).
Proof.
  destruct data; cbn [owes handle_client_message]; intros Hi; try (by apply elem_of_nil in Hi);
    try (apply list_elem_of_singleton in Hi as ->);
    try (by apply establishes_core; eauto); try (by apply establishes_push; eauto).
  all: try (repeat (apply establishes_after;
      [first [by apply kept_modify_same | by apply kept_is_autonomous_node | by apply kept_store_if]
      |intros ?]); try (by apply establishes_push; eauto)).
  - case_match.
    + apply list_elem_of_fmap in Hi as (c & -> & Hc). by apply establishes_core_each.
    + apply list_elem_of_singleton in Hi as ->. apply establishes_response.
  - apply elem_of_cons in Hi as [->|(c & -> & Hc)%list_elem_of_fmap].
    + apply establishes_after; [by apply kept_push_each|]. intros _. apply establishes_push. by left.
    + apply establishes_first; [by apply establishes_core_each|]. intros _. by apply kept_send_wire_message.
  - case_match; [apply establishes_core; eauto|apply establishes_push; eauto].
  - case_match; [apply establishes_core; eauto|apply establishes_push; eauto].
  - destruct (String.eqb (el_request_id data) "") eqn:Hid.
    + apply list_elem_of_bind in Hi as ([e l] & Hi & Hl%elem_of_map_to_list).
      apply list_elem_of_fmap in Hi as (a & -> & Ha). apply String.eqb_eq in Hid.
      by eapply establishes_ack.
    + apply list_elem_of_singleton in Hi as ->. cbn [send_wire_message]. rewrite Hid.
      apply establishes_push. by left.
Qed.

(** All messages of the inbox are handled in a tick. *)
Lemma owed_for_each data i l :
  i ∈ owes n data → data ∈ l → establishes i (for_each (handle_client_message env) l).
Proof.
  intros Hi. induction l as [|d l IH]; [by intros ?%elem_of_nil|]. cbn [for_each].
  intros [<-|Hin]%elem_of_cons.
  - intros w Hw. apply wpw_bind. eapply wpw_mono; [by apply (owes_established data)|].
    intros ? w' Hk. apply behaves_for_each; [|exact Hk]. intros d' _.
    apply kept_handle_client_message. by eapply owes_keepable.
  - apply establishes_after; [by apply kept_handle_client_message|]. intros _. by apply IH.
Qed.

Lemma behaves_and ok (I J : Sim2hWorker → list Event → Prop) {A} (m : W A) :
  behaves ok I m → behaves ok J m → behaves ok (λ w tr, I w tr ∧ J w tr) m.
Proof.
  intros HI HJ w [Hi Hj]. specialize (HI w Hi). specialize (HJ w Hj). unfold wpw in *.
  by destruct (m w) as [[]| |].
Qed.

(** Talking to the server leaves the inbox alone. *)
Section inbox.
Variable l : list Lib3hClientProtocol.

Definition inbox_is (w : Sim2hWorker) (tr : list Event) : Prop := inbox w = l.

Lemma inbox_connection_ready : behaves True inbox_is (connection_ready env).
Proof. unfold connection_ready. stepwise. Qed.

Lemma inbox_check_reconnect : behaves True inbox_is (check_reconnect env).
Proof.
  pose proof inbox_connection_ready.
  unfold check_reconnect, reset_backoff, backoff, inner_set_backoff, elapsed, now, connect,
    prepend_wire_message. stepwise.
Qed.

Lemma inbox_send_wire_message m : behaves True inbox_is (send_wire_message m).
Proof. unfold send_wire_message, push_outgoing. stepwise. Qed.

Lemma inbox_handle_frame frame : behaves True inbox_is (handle_frame frame).
Proof.
  pose proof inbox_send_wire_message.
  unfold handle_frame, handle_server_message, push_to_core, set_full_sync. stepwise.
  apply behaves_modify. intros ? ? Hi. unfold acknowledged. by repeat case_match.
Qed.

Lemma inbox_try_send : behaves True inbox_is (try_send_from_outgoing_buffer env).
Proof.
  pose proof inbox_connection_ready. pose proof inbox_check_reconnect.
  unfold try_send_from_outgoing_buffer, send_first, due, signature_of, write_frame, elapsed, now.
  stepwise. all: apply behaves_modify; intros ? ? Hi; unfold mark_sent; by case_match.
Qed.

Lemma inbox_tick_connection : behaves True inbox_is (tick_connection env).
Proof.
  pose proof inbox_connection_ready. pose proof inbox_check_reconnect. pose proof inbox_handle_frame.
  pose proof inbox_try_send.
  unfold tick_connection, read_frame, check_batched_messages, reset_backoff, inner_set_backoff,
    elapsed, now. stepwise.
  all: apply behaves_modify; intros ? ? Hi; unfold batch; by repeat case_match.
Qed.

Lemma inbox_handle_client_message data : behaves True inbox_is (handle_client_message env data).
Proof.
  pose proof inbox_send_wire_message. assert (behaves True inbox_is (is_autonomous_node env)).
  { pose proof inbox_connection_ready. unfold is_autonomous_node. stepwise. }
  unfold handle_client_message, self_store_authored_aspects, push_to_core. stepwise.
Qed.
End inbox.

(** A message waits in the inbox, or what it asks for is accounted for. *)
Definition promised (data : Lib3hClientProtocol) (i : Item) (w : Sim2hWorker) (tr : list Event) : Prop :=
  kept (Item_time n) w tr ∧ (data ∈ inbox w ∨ accounted w tr i).

(** A tick handles the inbox, and then hands over what goes to the core. *)
Lemma tick_handles data i w :
  i ∈ owes n data → kept (Item_time n) (worker w) (trace w) → data ∈ inbox (worker w) →
  wpw True (tick env) (λ _ w, kept i (worker w) (trace w)) w.
Proof.
  intros Hi Hh Hin. unfold tick. apply wpw_bind. eapply wpw_mono.
  { apply (behaves_and True (kept (Item_time n)) (inbox_is (inbox (worker w)))).
    - by apply kept_tick_connection.
    - apply inbox_tick_connection.
    - by split. }
  intros x w' [Hk' Hin']. apply wpw_bind, wpw_get, wpw_bind, wpw_modify, wpw_bind.
  eapply wpw_mono; [eapply (owed_for_each data i); [done|by rewrite Hin'|apply Hk']|].
  intros ? w2 Hw. pose proof (kept_hand_over i (owes_keepable _ _ _ Hi) w2 Hw) as Hrest. unfold wpw, mbind, W_bind in *.
  cbn in *. by destruct (for_each _ _ _) as [[]| |].
Qed.

Lemma promised_tick data i : i ∈ owes n data → behaves True (promised data i) (tick env;; mret ()).
Proof.
  intros Hi w [Hh Hor]. pose proof (owes_keepable _ _ _ Hi) as Hk.
  assert (H : wpw True (tick env) (λ _ w, kept i (worker w) (trace w)) w).
  { destruct Hor as [Hin|Ha]; [by eapply tick_handles|]. apply kept_tick; [done|]. by split; [apply Hh|]. }
  pose proof (kept_tick (Item_time n) eq_refl env w Hh) as Ht. unfold wpw, mbind, W_bind in *. cbn in *.
  destruct (tick env w) as [[]| |]; [|done..]. split; [exact Ht|right; apply H].
Qed.
End owed.

Section owed_runs.
Variable n : nat.

Lemma promised_run data i steps :
  i ∈ owes n data → behaves True (promised n data i) (run steps).
Proof.
  intros Hi. apply behaves_for_each. intros [d|env] _; [|by apply promised_tick].
  apply behaves_modify. intros w tr [Hh [Hin|Ha]]; (split; [exact Hh|]); [left|by right].
  apply elem_of_app. by left.
Qed.

Lemma promised_received data i steps w :
  i ∈ owes n data → Step_receive data ∈ steps → kept (Item_time n) (worker w) (trace w) →
  wpw True (run steps) (λ _ w, promised n data i (worker w) (trace w)) w.
Proof.
  intros Hi. revert w. induction steps as [|s steps IH]; [by intros w ?%elem_of_nil|].
  intros w [<-|Hin]%elem_of_cons Hh; apply wpw_bind.
  - apply promised_run; [done|]. split; [exact Hh|]. left. apply elem_of_app. right.
    by apply list_elem_of_singleton.
  - eapply wpw_mono; [by apply (kept_run_step (Item_time n) eq_refl s w)|].
    intros x w' Hh'. by apply IH.
Qed.

Lemma kept_runs i steps w w' :
  keepable i = true → run steps w = Ret ((), w') → kept i (worker w) (trace w) →
  kept i (worker w') (trace w').
Proof.
  intros Hi Hrun Hk. pose proof (kept_run i Hi steps w Hk) as H. unfold wpw in H. by rewrite Hrun in H.
Qed.

(** What is accounted for stays so, and what the core asks for gets so. *)
Lemma run_not_lost steps w w' :
  kept (Item_time n) (worker w) (trace w) → run steps w = Ret ((), w') →
  (∀ i, keepable i = true → accounted (worker w) (trace w) i → accounted (worker w') (trace w') i) ∧
  (∀ data i, i ∈ owes n data → data ∈ inbox (worker w) ∨ Step_receive data ∈ steps →
     data ∈ inbox (worker w') ∨ accounted (worker w') (trace w') i).
Proof.
  intros Hh Hrun. split.
  - intros i Hi Ha. eapply kept_runs; [done..|]. by split; [apply Hh|].
  - intros data i Hi [Hin|Hin].
    + pose proof (promised_run data i steps Hi w (conj Hh (or_introl Hin))) as H.
      unfold wpw in H. rewrite Hrun in H. apply H.
    + pose proof (promised_received data i steps w Hi Hin Hh) as H.
      unfold wpw in H. rewrite Hrun in H. apply H.
Qed.
End owed_runs.

(** *** The thread of the worker *)

Lemma tick_empties env w d w' : tick env w = Ret (d, w') → inbox (worker w') = [].
Proof.
  intros Ht. enough (H : wpw True (tick env) (λ _ w, inbox_is [] (worker w) (trace w)) w)
    by (unfold wpw in H; by rewrite Ht in H).
  unfold tick. wstep. eapply wpw_mono; [by apply (inbox_tick_connection env (inbox (worker w)))|].
  intros talked w1 _. do 4 wstep.
  cut (behaves True (inbox_is []) (for_each (handle_client_message env) (inbox (worker w1));;
    server_messages ← get to_core; modify (set_to_core []);;
    for_each (λ data, emit (Event_handle data)) server_messages;;
    mret (talked || nonempty (inbox (worker w1)) || nonempty server_messages))).
  { intros H. by apply H. }
  apply behaves_bind; [|intros ?; stepwise].
  apply behaves_for_each. intros data _. apply inbox_handle_client_message.
Qed.

(** [receive] and [tick] as the thread calls them; the worker returns no errors. *)
Definition worker_receive (data : Lib3hClientProtocol) (w : World) : Outcome (Result unit unit * World) :=
  (λ '(x, w), (Ok x, w)) <$> receive data w.
Definition worker_tick (env : Environment) (w : World) : Outcome (Result unit bool * World) :=
  (λ '(x, w), (Ok x, w)) <$> tick env w.

Abbreviation Thread := (NetThread World Lib3hClientProtocol) (only parsing).

(** An iteration is a run of the worker. *)
Lemma iteration_steps env (t t' : Thread) :
  net_iteration worker_receive worker_tick env t = Ret t' →
  nt_channel t' = tail (nt_channel t) ∧ inbox (worker (nt_worker t')) = [] ∧
  run ((Step_receive <$> take 1 (nt_channel t)) ++ [Step_tick env])%list (nt_worker t) =
    Ret ((), nt_worker t').
Proof.
  unfold net_iteration, worker_receive, worker_tick.
  destruct t as [[|d channel] w sleep]; cbn -[tick]; unfold mbind, W_bind, Outcome_bind; cbn -[tick];
    match goal with |- context [tick env ?v] => destruct (tick env v) as [[x w']| |] eqn:Ht end;
    cbn -[tick]; try done; intros [= <-]; (split; [done|]; split; [by eapply tick_empties|]);
    [done|]. unfold run; cbn -[tick]; unfold mbind, W_bind; cbn -[tick].
  rewrite take_0; cbn -[tick]; unfold mbind, W_bind. by rewrite Ht.
Qed.

Lemma next_sleep_bounds b s :
  (TICK_SLEEP_MIN_US ≤ s ≤ TICK_SLEEP_MAX_US)%Z →
  (TICK_SLEEP_MIN_US ≤ next_sleep b s ≤ TICK_SLEEP_MAX_US)%Z.
Proof.
  unfold next_sleep, TICK_SLEEP_MIN_US, TICK_SLEEP_MAX_US. intros Hs. destruct b; [lia|].
  rewrite u64_wrap_id by (unfold is_u64; lia). destruct (Z.ltb_spec 10000 (s * 2)); lia.
Qed.

(** The same for a thread, from any time [n] before. *)
Lemma thread_not_lost n envs (t t' : Thread) :
  let w := nt_worker t in
  let w' := nt_worker t' in
  kept (Item_time n) (worker w) (trace w) → net_run worker_receive worker_tick envs t = Ret t' →
  (∀ i, keepable i = true → accounted (worker w) (trace w) i → accounted (worker w') (trace w') i) ∧
  (∀ data i, i ∈ owes n data → data ∈ inbox (worker w) ∨ data ∈ nt_channel t →
     envs ≠ [] → length (nt_channel t) ≤ length envs → accounted (worker w') (trace w') i).
Proof.
  cbn zeta. revert t. induction envs as [|env envs IH]; intros t Hh Hrun; [by injection Hrun as ->|].
  cbn [net_run] in Hrun. unfold mbind, Outcome_bind in Hrun.
  destruct (net_iteration worker_receive worker_tick env t) as [t1| |] eqn:Hit; [|done..].
  apply iteration_steps in Hit as (Hch & Hin & Hsteps).
  destruct (run_not_lost n _ _ _ Hh Hsteps) as [Hkeep Howed].
  destruct (IH t1 (kept_runs (Item_time n) _ _ _ eq_refl Hsteps Hh) Hrun) as [Hkeep' Howed'].
  split; [by auto|].
  intros data i Hi Hdata _ Hlen. assert (Hk : keepable i = true) by by eapply owes_keepable.
  rewrite Hin in Howed. destruct (nt_channel t) as [|d channel] eqn:Ht.
  - destruct Hdata as [Hd|?%elem_of_nil]; [|done]. apply (Hkeep' i Hk).
    by destruct (Howed data i Hi (or_introl Hd)) as [?%elem_of_nil|?].
  - destruct Hdata as [Hd|[->|Hd]%elem_of_cons].
    + apply (Hkeep' i Hk). by destruct (Howed data i Hi (or_introl Hd)) as [?%elem_of_nil|?].
    + apply (Hkeep' i Hk). destruct (Howed d i Hi) as [?%elem_of_nil|?]; [|done..]. right. left.
    + apply (Howed' data i Hi); [right; by rewrite Hch| |rewrite Hch; cbn in *; lia].
      intros ->. destruct channel; [by apply elem_of_nil in Hd|cbn in Hlen; lia].
Qed.

(** C16: The worker loses nothing of what the core hands it, as long as its thread has
    not panicked (the queues are gone with the thread, and a failed write can make it
    panic): however connections open, break and are slow, whatever the worker owes
    stays accounted for.  A message to the server, a response that waits for a batch
    and an acknowledgement that an aspect is held still wait, or were written to the
    connection and then a receipt with the hash of what was written was read (a
    receipt of the hash 0, which messages that were not written have, counts as
    well).  A direct message does, too, unless a new connection was tried since, as it
    is dropped then.  A message for the core waits for it or was handed to it.  A
    query or the answer to one is accounted for as a message to the server or, when
    the node was on its own, as a message for the core.  And whatever the core handed
    over in the inbox or in the channel of the thread is owed, every kind of message
    but [FetchEntry] and [Shutdown], and accounted for once the thread has come
    round as often as there are messages in the channel. *)
Theorem outgoing_not_lost envs (t t' : Thread) :
  let w := nt_worker t in
  let w' := nt_worker t' in
  well_hashed (worker w) (trace w) → net_run worker_receive worker_tick envs t = Ret t' →
  (∀ i, keepable i = true → accounted (worker w) (trace w) i → accounted (worker w') (trace w') i) ∧
  (∀ data i, i ∈ owes (length (trace w)) data → data ∈ inbox (worker w) ∨ data ∈ nt_channel t →
     envs ≠ [] → length (nt_channel t) ≤ length envs → accounted (worker w') (trace w') i).
Proof.
  intros w w' Hh Hrun. apply (thread_not_lost (length (trace w)) envs t t'); [|exact Hrun].
  split; [exact Hh|exact (le_n _)].
Qed.

(** ** Failures of the connection *)

(** The connection is open and ready, and the server has gone. *)
Definition gone (env : Environment) : Prop :=
  (∀ n, check_ready env n = Ok true) ∧ (∀ n, writes env n = false) ∧ (∀ n, opens env n = false) ∧
  (∀ n payload, is_Some (sign env n payload)).

Lemma reconnect_fails env w :
  connection (worker w) = None → (∀ n, opens env n = false) →
  wpw False (check_reconnect env) (λ _ w, connection (worker w) = None) w.
Proof.
  intros Hc Ho. unfold check_reconnect, connection_ready, elapsed, now, connect, backoff,
    inner_set_backoff. do 3 wstep. rewrite Hc. repeat wstep.
  destruct (Z.ltb _ _); repeat wstep; [exact Hc|].
  destruct (Z.eqb _ _); repeat wstep; rewrite Ho; exact (eq_refl None).
Qed.

(** A program that surely returns with [Q], followed by one that panics. *)
Lemma panics_after {A B} (m : W A) (f : A → W B) (Q : A → World → Prop) w :
  wpw False m Q w → (∀ x w, Q x w → f x w = Panic) → (m ≫= f) w = Panic.
Proof. unfold wpw, mbind, W_bind. destruct (m w) as [[]| |]; naive_solver. Qed.

(** The connection is there, with a message to write. *)
Definition to_write (b : BufferedMessage) (w : Sim2hWorker) (tr : list Event) : Prop :=
  is_Some (connection w) ∧ first_is b w.

Lemma to_write_ready env b w :
  (∀ n, check_ready env n = Ok true) → to_write b (worker w) (trace w) →
  wpw False (connection_ready env) (λ r w, r = true ∧ to_write b (worker w) (trace w)) w.
Proof.
  intros Hr [[c Hc] Hf]. unfold connection_ready. do 2 wstep. rewrite Hc. do 2 wstep. rewrite Hr.
  wstep. split; [done|]. by split; [exists c|].
Qed.

Lemma to_write_batched env b : behaves False (to_write b) (check_batched_messages env).
Proof.
  intros w [[c Hc] [rest Hb]]. unfold check_batched_messages, elapsed, now. repeat wstep.
  destruct (Z.ltb _ _); repeat wstep; [by split; [exists c|exists rest]|].
  unfold batch. repeat case_match; (split; [by exists c|]); eexists; cbn; rewrite Hb; reflexivity.
Qed.

Lemma to_write_reset b : behaves False (to_write b) reset_backoff.
Proof.
  intros w Hw. unfold reset_backoff, inner_set_backoff. repeat wstep.
  destruct (Z.ltb _ _); repeat wstep; exact Hw.
Qed.

Lemma gone_try_send env b w :
  gone env → last_sent b = None → to_write b (worker w) (trace w) →
  wpw False (try_send_from_outgoing_buffer env) (λ _ w, connection (worker w) = None) w.
Proof.
  intros (Hr & Hw & Ho & Hs) Hl Hb. unfold try_send_from_outgoing_buffer. do 2 wstep.
  pose proof Hb as [_ [rest Hrest]]. rewrite Hrest. wstep.
  eapply wpw_mono; [by apply (to_write_ready env b)|]. clear w Hb rest Hrest.
  intros r w [-> [[c Hc] _]]. unfold due. rewrite Hl. repeat wstep. unfold send_first, signature_of.
  assert (Hrest : ∀ signature w, connection (worker w) = Some c →
    wpw False (source ← get agent_id;
       written ← write_frame env (to_text (wire_message b)) source signature;
       if (written : bool) then
         t ← now env; modify (mark_sent (generate_ack_receipt_hash (to_text (wire_message b))) t);;
         mret true
       else modify (set_connection None);; check_reconnect env;; mret true)
      (λ _ w, connection (worker w) = None) w).
  { clear w Hc. intros signature w Hc. unfold write_frame. repeat wstep. rewrite Hc. repeat wstep.
    rewrite Hw. repeat wstep. eapply wpw_mono; [by apply reconnect_fails|].
    intros ? w' Hw'. exact Hw'. }
  wstep. destruct (wire_message b) as [[]| | | | | | | | | | | | | | |];
    wstep; try by apply Hrest.
  destruct (Hs (calls w) (to_text (WireMessage_ClientToLib3h (ClientToLib3h_JoinSpace data)))) as [g ->].
  by apply Hrest.
Qed.

(** C36: A failed write takes the worker down, although connections are made to be lost:
    when the connection is open and ready, the first message was not sent, writing it
    fails and the server cannot be reached again at once, [tick] panics, as it
    unwraps the connection that [try_send_from_outgoing_buffer] has just dropped. *)
Theorem failed_write_panics env b rest w :
  gone env → is_Some (connection (worker w)) →
  outgoing_message_buffer (worker w) = b :: rest → last_sent b = None → tick env w = Panic.
Proof.
  intros Hg Hc Hb Hl. assert (Hw : to_write b (worker w) (trace w)) by (split; [done|by exists rest]).
  unfold tick. set (f := λ talked : bool, _).
  enough (Ht : tick_connection env w = Panic) by (unfold mbind, W_bind; by rewrite Ht).
  unfold tick_connection. eapply panics_after; [apply (to_write_ready env b); [apply Hg|exact Hw]|].
  clear w Hc Hb Hw. intros r w [-> Hw].
  eapply panics_after; [by apply (to_write_reset b)|]. clear w Hw. intros ? w Hw.
  eapply panics_after; [by apply (to_write_batched env b)|]. clear w Hw. intros ? w Hw.
  eapply panics_after; [by apply (gone_try_send env b)|]. clear w Hw. intros sent w Hw.
  unfold read_frame, mbind, W_bind. cbn. by rewrite Hw.
Qed.

(** The connection works: the handshake does not fail, writes succeed, and the
    server speaks the same version. *)
Definition healthy (env : Environment) : Prop :=
  (∀ n, is_ok (check_ready env n) = true) ∧ (∀ n, writes env n = true) ∧
  (∀ n payload count version, reads env n = Read_frame (WsFrame_Binary payload) →
     from_text payload = Some (WireMessage_HelloResponse count version) → version = WIRE_VERSION).

Definition connected (w : Sim2hWorker) (tr : list Event) : Prop := is_Some (connection w).
Definition anything (w : Sim2hWorker) (tr : list Event) : Prop := True.

Section healthy.
Variable env : Environment.
Hypothesis env_healthy : healthy env.

Lemma returns_connection_ready I :
  (∀ w tr, I w tr → I (set_connection None w) tr) → behaves False I (connection_ready env).
Proof.
  intros HI. unfold connection_ready. stepwise. by apply behaves_modify.
Qed.

Lemma connected_ready : behaves False connected (connection_ready env).
Proof.
  destruct env_healthy as (Hr & _). intros w Hc. unfold connection_ready. do 2 wstep.
  destruct (connection (worker w)); [|by wstep]. do 2 wstep.
  specialize (Hr (calls w)). by destruct (check_ready env (calls w)).
Qed.

Lemma ready_connected w :
  wpw False (connection_ready env) (λ r w, r = true → connected (worker w) (trace w)) w.
Proof.
  unfold connection_ready. do 2 wstep. destruct (connection (worker w)) as [c|] eqn:Hc; [|done].
  do 2 wstep. destruct (check_ready env (calls w)); repeat wstep; [intros _|done]. by exists c.
Qed.

Lemma returns_check_reconnect : behaves False anything (check_reconnect env).
Proof.
  pose proof (returns_connection_ready anything).
  unfold check_reconnect, reset_backoff, backoff, inner_set_backoff, elapsed, now, connect,
    prepend_wire_message. stepwise.
Qed.

Lemma signature_returns I message payload : behaves False I (signature_of env message payload).
Proof. unfold signature_of. stepwise. Qed.

Lemma connected_send_first b : behaves False connected (send_first env b).
Proof.
  intros w Hc. unfold send_first. wstep. eapply wpw_mono; [by apply signature_returns|].
  clear w Hc. intros [signature|] w [c Hc]; [|wstep; by exists c]. unfold write_frame, now.
  repeat wstep. rewrite Hc. destruct env_healthy as (_ & Hw & _). repeat wstep. rewrite Hw.
  repeat wstep. exists c. unfold mark_sent. by case_match.
Qed.

Lemma connected_try_send : behaves False connected (try_send_from_outgoing_buffer env).
Proof.
  pose proof connected_ready. pose proof connected_send_first.
  unfold try_send_from_outgoing_buffer, due, elapsed, now. stepwise.
Qed.

Lemma connected_batched : behaves False connected (check_batched_messages env).
Proof.
  unfold check_batched_messages, elapsed, now. stepwise.
  apply behaves_modify. intros w tr Hc. unfold batch. by repeat case_match.
Qed.

Lemma returns_handle_server_message m :
  (∀ count version, m = WireMessage_HelloResponse count version → version = WIRE_VERSION) →
  behaves False anything (handle_server_message m).
Proof.
  intros Hm. unfold handle_server_message, send_wire_message, push_outgoing, push_to_core, set_full_sync.
  stepwise. apply Z.eqb_neq in Heqb. destruct Heqb. symmetry. by eapply Hm.
Qed.

Lemma read_frame_returns w :
  connected (worker w) (trace w) → wpw False (read_frame env) (λ _ _, True) w.
Proof.
  intros [c Hc]. unfold read_frame. do 2 wstep. rewrite Hc. do 2 wstep.
  destruct (reads env (calls w)) as [frame| |] eqn:Hread; [|done|].
  - unfold handle_frame. destruct frame as [payload| |]; [|done..].
    destruct (from_text payload) as [m|] eqn:Htext; [|done]. do 3 wstep.
    eapply wpw_mono; [apply returns_handle_server_message; [|done]|done].
    intros count version ->. by eapply env_healthy.
  - do 3 wstep. eapply wpw_mono; [by apply returns_check_reconnect|done].
Qed.

Lemma returns_handle_client_message data :
  data ≠ Lib3hClientProtocol_FetchEntry → behaves False anything (handle_client_message env data).
Proof.
  intros Hd. assert (behaves False anything (is_autonomous_node env)).
  { pose proof (returns_connection_ready anything). unfold is_autonomous_node. stepwise. }
  destruct data; cbn [handle_client_message]; [..|done| | | | | | | ];
    unfold self_store_authored_aspects, send_wire_message, push_outgoing, push_to_core; stepwise.
Qed.

Lemma returns_tick_connection : behaves False anything (tick_connection env).
Proof.
  intros w _. unfold tick_connection. wstep. eapply wpw_mono; [apply ready_connected|].
  clear w. intros [] w Hc; [specialize (Hc eq_refl)|].
  - assert (Hreset : behaves False connected reset_backoff)
      by (unfold reset_backoff, inner_set_backoff; stepwise).
    wstep. eapply wpw_mono; [by apply Hreset|]. clear w Hc. intros ? w Hc.
    wstep. eapply wpw_mono; [by apply connected_batched|]. clear w Hc. intros ? w Hc.
    wstep. eapply wpw_mono; [by apply connected_try_send|]. clear w Hc. intros sent w Hc.
    wstep. by eapply wpw_mono; [apply read_frame_returns|].
  - wstep. by eapply wpw_mono; [apply returns_check_reconnect|].
Qed.
End healthy.

Lemma wpw_both {A} (m : W A) Q (J : Sim2hWorker → list Event → Prop) w :
  wpw False m Q w → behaves True J m → J (worker w) (trace w) →
  wpw False m (λ x w, Q x w ∧ J (worker w) (trace w)) w.
Proof.
  intros Hm HJ Hj. specialize (HJ w Hj). unfold wpw in *. by destruct (m w) as [[]| |].
Qed.

Definition emptied (w : Sim2hWorker) (tr : list Event) : Prop := inbox w = [] ∧ to_core w = [].

Lemma hand_over_emptied w :
  inbox (worker w) = [] →
  wpw False (server_messages ← get to_core; modify (set_to_core []);;
    for_each (λ data, emit (Event_handle data)) server_messages) (λ _ w, emptied (worker w) (trace w)) w.
Proof.
  intros Hin. do 4 wstep.
  apply (behaves_for_each False emptied (λ data, emit (Event_handle data))); [|by split].
  intros data _. by apply behaves_emit.
Qed.

(** With a connection that works, [tick] does not panic and leaves nothing in the
    inbox or on the way to the core, if the core does not ask to fetch entries. *)
Theorem healthy_tick_returns env w :
  healthy env → Lib3hClientProtocol_FetchEntry ∉ inbox (worker w) →
  ∃ did_something w', tick env w = Ret (did_something, w') ∧
    inbox (worker w') = [] ∧ to_core (worker w') = [].
Proof.
  intros He Hin. enough (H : wpw False (tick env) (λ _ w, emptied (worker w) (trace w)) w).
  { unfold wpw in H. destruct (tick env w) as [[d w']| |]; [|done..]. by exists d, w'. }
  unfold tick. wstep. eapply wpw_mono; [apply (wpw_both _ (λ _ w, anything (worker w) (trace w)) (inbox_is (inbox (worker w))));
    [by apply returns_tick_connection|apply inbox_tick_connection|done]|].
  intros talked w1 [_ Hw1]. wstep. wstep. rewrite Hw1. do 3 wstep. eapply wpw_mono.
  { apply (wpw_both _ (λ _ w, anything (worker w) (trace w)) (inbox_is [])); [| |done].
    - apply behaves_for_each; [|done]. intros data Hd. apply returns_handle_client_message.
      by intros ->.
    - apply behaves_for_each. intros data _. apply inbox_handle_client_message. }
  intros ? w2 [_ Hw2]. pose proof (hand_over_emptied w2 Hw2) as Hrest.
  unfold wpw, mbind, W_bind in *. cbn in *. by destruct (for_each _ _ _) as [[]| |].
Qed.

(** *** Backoff *)

(** The server cannot be reached, at a time. *)
Definition offline (t : Z) : Environment :=
  {| check_ready := λ _, Ok true; clock := λ _, t; opens := λ _, false; writes := λ _, false;
     reads := λ _, Read_would_block; sign := λ _ _, None |}.

(** The worker ticks each time the interval has passed. *)
Fixpoint offline_steps (n : nat) (t interval : Z) : list Step :=
  match n with
  | 0 => []
  | S n => Step_tick (offline (t + interval)) :: offline_steps n (t + interval) (interval * 2)
  end.

(** Waiting to connect, with nothing to do. *)
Definition waiting (t interval : Z) (w : Sim2hWorker) : Prop :=
  connection w = None ∧ inbox w = [] ∧ time_of_last_connection_attempt w = t ∧
  connection_timeout_backoff w = interval ∧ reconnect_interval w = interval.

Lemma offline_check t interval w :
  waiting t interval (worker w) → (0 < interval)%Z → (interval * 2 < 2 ^ 64)%Z →
  wpw False (check_reconnect (offline (t + interval)))
    (λ _ w, waiting (t + interval) (interval * 2) (worker w)) w.
Proof.
  intros (Hc & Hi & Ha & Hb & Hr) Hpos Hmax.
  unfold check_reconnect, connection_ready, elapsed, now, connect, backoff, inner_set_backoff.
  do 3 wstep. rewrite Hc. repeat wstep. rewrite Ha, Hr. cbn [clock offline].
  replace (t + interval - t)%Z with interval by lia. rewrite Z.ltb_irrefl. repeat wstep.
  rewrite Hb, u64_wrap_id by (unfold is_u64; lia).
  destruct (Z.eqb_spec interval (Z.max MAX_CONNECTION_TIMEOUT_MS (interval * 2)));
    [unfold MAX_CONNECTION_TIMEOUT_MS in *; lia|].
  repeat wstep. repeat split; done.
Qed.

Lemma offline_tick t interval w :
  waiting t interval (worker w) → (0 < interval)%Z → (interval * 2 < 2 ^ 64)%Z →
  wpw False (run_step (Step_tick (offline (t + interval))))
    (λ _ w, waiting (t + interval) (interval * 2) (worker w)) w.
Proof.
  intros Hw Hpos Hmax. cbn [run_step]. unfold tick, tick_connection. do 3 wstep.
  unfold connection_ready. do 2 wstep. rewrite (proj1 Hw). do 2 wstep.
  eapply wpw_mono; [by apply offline_check|]. clear w Hw. intros ? w Hw. do 3 wstep.
  rewrite (proj1 (proj2 Hw)). cbn [for_each]. repeat wstep.
  apply (wpw_mono _ _ (λ _ w, waiting (t + interval) (interval * 2) (worker w))); [|by intros; wstep].
  apply (behaves_for_each False (λ w _, waiting (t + interval) (interval * 2) w)
           (λ data, emit (Event_handle data))).
  { intros data _. by apply behaves_emit. }
  destruct Hw as (? & ? & ? & ? & ?). by repeat split.
Qed.

(** C40: The time between attempts to connect is not bounded by the maximum of a minute
    that is declared for it: it doubles with each failed attempt until the 64 bits are
    full, and from the initial value it exceeds the maximum at the fifth, as the maximum
    is compared with the greater instead of the lesser. *)
Theorem backoff_never_capped n t interval w :
  waiting t interval (worker w) → (0 < interval)%Z → (interval * 2 ^ Z.of_nat n < 2 ^ 64)%Z →
  ∃ w', run (offline_steps n t interval) w = Ret ((), w') ∧ connection (worker w') = None ∧
    reconnect_interval (worker w') = (interval * 2 ^ Z.of_nat n)%Z ∧
    ((INITIAL_CONNECTION_TIMEOUT_MS ≤ interval)%Z → 5 ≤ n →
       (MAX_CONNECTION_TIMEOUT_MS < reconnect_interval (worker w'))%Z).
Proof.
  intros Hw Hpos Hmax.
  enough (H : wpw False (run (offline_steps n t interval))
     (λ _ w, ∃ t, waiting t (interval * 2 ^ Z.of_nat n) (worker w)) w).
  { unfold wpw in H. destruct (run _ _) as [[[] w']| |]; [|done..].
    destruct H as (t' & Hc & _ & _ & _ & Hr). exists w'. repeat split; [done|done|].
    rewrite Hr. unfold INITIAL_CONNECTION_TIMEOUT_MS, MAX_CONNECTION_TIMEOUT_MS. intros Hi Hn.
    pose proof (Z.pow_le_mono_r 2 5 (Z.of_nat n)). lia. }
  revert t interval w Hw Hpos Hmax. induction n as [|n IH]; intros t interval w Hw Hpos Hmax.
  - exists t. by rewrite Z.mul_1_r.
  - rewrite Nat2Z.inj_succ, Z.pow_succ_r in * by lia. cbn [offline_steps].
    pose proof (Z.pow_pos_nonneg 2 (Z.of_nat n)). apply wpw_bind.
    eapply wpw_mono; [apply offline_tick; [done|done|nia]|].
    intros ? w' Hw'. rewrite Z.mul_assoc. apply (IH (t + interval)%Z); [done|lia|].
    by rewrite <- Z.mul_assoc.
Qed.

(** ** Aspects the node has authored *)

Lemma remove_item_filter x l : NoDup l → remove_item x l = filter (λ y, y ≠ x) l.
Proof.
  induction l as [|y l IH]; [done|]. intros [Hy Hl]%NoDup_cons. cbn [remove_item].
  destruct (String.eqb_spec x y) as [->|Hne].
  - rewrite filter_cons_False by auto. symmetry. apply list_filter_all. by intros z Hz ->.
  - by rewrite filter_cons_True, IH by auto.
Qed.

Lemma remove_items_filter g l :
  NoDup l → foldl (λ left aspect, remove_item aspect left) l g = filter (λ y, y ∉ g) l.
Proof.
  revert l. induction g as [|x g IH]; intros l Hl; cbn [foldl].
  - symmetry. apply list_filter_all. intros y _. apply not_elem_of_nil.
  - rewrite remove_item_filter by done. rewrite IH by by apply NoDup_filter.
    rewrite list_filter_filter. apply list_filter_iff. intros y. rewrite not_elem_of_cons. naive_solver.
Qed.

(** An entry is held with all its aspects. *)
Definition all_held (gossiping_list : EntryListData) (entry : string) (aspects : list string) : Prop :=
  ∃ held, (list_to_map (el_address_map gossiping_list) : gmap string (list string)) !! entry = Some held ∧
    ∀ a, a ∈ aspects → a ∈ held.

Lemma held_already_spec gossiping_list entry aspects :
  NoDup aspects →
  held_already (el_address_map gossiping_list) entry aspects = true ↔
    all_held gossiping_list entry aspects.
Proof.
  intros Hnd. unfold held_already, all_held. destruct (list_to_map _ !! entry) as [held|]; [|naive_solver].
  rewrite remove_items_filter by done. split.
  - destruct (filter _ aspects) as [|a l] eqn:Hf; [|done]. intros _. exists held. split; [done|].
    intros a Ha. destruct (decide (a ∈ held)) as [|Hn]; [done|].
    assert (Hin : a ∈ filter (λ y, y ∉ held) aspects) by (by apply list_elem_of_filter).
    rewrite Hf in Hin. by apply elem_of_nil in Hin.
  - intros (? & [= <-] & Hall). destruct (filter _ aspects) as [|a l] eqn:Hf; [done|].
    assert (Hin : a ∈ filter (λ y, y ∉ held) aspects) by (rewrite Hf; left).
    apply list_elem_of_filter in Hin as [Hn Ha]. by destruct (Hn (Hall a Ha)).
Qed.

Lemma push_each l w :
  for_each push_to_core l w = Ret ((), {| worker := set_to_core (to_core (worker w) ++ l)%list (worker w);
    calls := calls w; trace := trace w |}).
Proof.
  revert w. induction l as [|m l IH]; intros [w n tr].
  - cbn. rewrite app_nil_r. by destruct w.
  - cbn [for_each]. unfold mbind, W_bind, push_to_core, modify at 1. rewrite IH. cbn.
    by rewrite <- app_assoc.
Qed.

(** Once both lists of the core are known, the worker has it fetch the authored
    entries of which some aspect is not held, and no others, once. *)
Theorem self_store_spec authoring_list gossiping_list w :
  has_self_stored_authored_aspects (worker w) = false →
  initial_authoring_list (worker w) = Some authoring_list →
  initial_gossiping_list (worker w) = Some gossiping_list →
  (∀ e l, (e, l) ∈ el_address_map authoring_list → NoDup l) →
  ∃ w', self_store_authored_aspects w = Ret ((), w') ∧
    (∀ e l, (e, l) ∈ el_address_map authoring_list →
       (Lib3hServerProtocol_HandleFetchEntry (el_space_address authoring_list) e
          SIM2H_WORKER_INTERNAL_REQUEST_ID (el_provider_agent_id authoring_list) (Some l)
          ∈ to_core (worker w') ↔
        Lib3hServerProtocol_HandleFetchEntry (el_space_address authoring_list) e
          SIM2H_WORKER_INTERNAL_REQUEST_ID (el_provider_agent_id authoring_list) (Some l)
          ∈ to_core (worker w) ∨ ¬ all_held gossiping_list e l)) ∧
    self_store_authored_aspects w' = Ret ((), w').
Proof.
  intros Hs Ha Hg Hnd. unfold self_store_authored_aspects, mbind, W_bind. cbn. rewrite Hs, Ha, Hg.
  cbn. rewrite push_each. cbn. eexists. split; [reflexivity|]. split; [|by rewrite ?Hs].
  intros e l Hel. cbn. rewrite elem_of_app. apply or_iff_compat_l.
  rewrite <- held_already_spec by by eapply Hnd. unfold to_fetch. rewrite list_elem_of_bind. split.
  - intros ([e' l'] & Hin & Hel'). case_match eqn:Hh; [by apply elem_of_nil in Hin|].
    apply list_elem_of_singleton in Hin as [= -> ->]. by rewrite Hh.
  - intros Hh%not_true_is_false. exists (e, l). rewrite Hh. split; [left|done].
Qed.

(** ** What the core publishes *)

Section to_core.
Variable env : Environment.
Variable message : Lib3hServerProtocol.

Definition on_its_way (w : Sim2hWorker) (tr : list Event) : Prop := message ∈ to_core w.

Lemma on_its_way_push m : behaves True on_its_way (push_to_core m).
Proof. apply behaves_modify. intros w tr Hm. apply elem_of_app. by left. Qed.

Lemma on_its_way_handle data : behaves True on_its_way (handle_client_message env data).
Proof.
  pose proof on_its_way_push.
  unfold handle_client_message, self_store_authored_aspects, is_autonomous_node, connection_ready,
    send_wire_message, push_outgoing. stepwise.
Qed.

(** What is on its way after all messages of the inbox is handed over. *)
Lemma handed_over w :
  message ∈ to_core (worker w) →
  wpw True (server_messages ← get to_core; modify (set_to_core []);;
    for_each (λ data, emit (Event_handle data)) server_messages)
    (λ _ w, Event_handle message ∈ trace w) w.
Proof.
  intros Hm. do 4 wstep. revert Hm. generalize (to_core (worker w)) as l.
  generalize {| worker := set_to_core [] (worker w); calls := calls w; trace := trace w |} as w'.
  intros w' l. revert w'. induction l as [|m l IH]; intros w'; [by intros ?%elem_of_nil|].
  intros [->|Hm]%elem_of_cons; apply wpw_bind; wstep; [|by apply IH].
  apply (behaves_for_each True (λ _ tr, Event_handle m ∈ tr) (λ data, emit (Event_handle data))).
  - intros data _. apply behaves_emit. intros ? tr Htr. apply elem_of_app. by left.
  - apply elem_of_app. right. by apply list_elem_of_singleton.
Qed.
End to_core.

Lemma publish_pushes env data aspect l w :
  Lib3hClientProtocol_PublishEntry data ∈ l → aspect ∈ pe_aspect_list data →
  wpw True (for_each (handle_client_message env) l)
    (λ _ w, Lib3hServerProtocol_HandleStoreEntryAspect "" (pe_space_address data)
       (pe_provider_agent_id data) (pe_entry_address data) aspect ∈ to_core (worker w)) w.
Proof.
  intros Hl Ha. set (m := Lib3hServerProtocol_HandleStoreEntryAspect _ _ _ _ _).
  revert w Hl. induction l as [|d l IH]; intros w; [by intros ?%elem_of_nil|].
  intros [<-|Hl]%elem_of_cons; apply wpw_bind.
  - eapply (wpw_mono _ _ (λ _ w, on_its_way m (worker w) (trace w))).
    + cbn [handle_client_message send_wire_message]. wstep. unfold wpw at 1. rewrite push_each.
      unfold push_outgoing. wstep.
      apply elem_of_app. right. apply list_elem_of_fmap. eauto.
    + intros ? w' Hw'. apply (behaves_for_each True (on_its_way m)); [|done].
      intros d _. apply on_its_way_handle.
  - eapply (wpw_mono _ _ (λ _ w, anything (worker w) (trace w))); [|intros ? w' _; by apply IH].
    assert (Hd : behaves True anything (handle_client_message env d)); [|by apply Hd].
    unfold handle_client_message, self_store_authored_aspects, is_autonomous_node, connection_ready,
      send_wire_message, push_outgoing, push_to_core. stepwise.
Qed.

(** Each aspect of an entry that the core publishes is handed back to it to be
    stored by the tick that takes the message. *)
Theorem published_is_stored env data aspect w did_something w' :
  Lib3hClientProtocol_PublishEntry data ∈ inbox (worker w) → aspect ∈ pe_aspect_list data →
  tick env w = Ret (did_something, w') →
  Event_handle (Lib3hServerProtocol_HandleStoreEntryAspect "" (pe_space_address data)
    (pe_provider_agent_id data) (pe_entry_address data) aspect) ∈ trace w'.
Proof.
  intros Hd Ha Ht. set (m := Lib3hServerProtocol_HandleStoreEntryAspect _ _ _ _ _).
  enough (H : wpw True (tick env) (λ _ w, Event_handle m ∈ trace w) w)
    by (unfold wpw in H; by rewrite Ht in H).
  unfold tick. wstep. eapply wpw_mono; [by apply (inbox_tick_connection env (inbox (worker w)))|].
  intros talked w1 Hw1. wstep. wstep. rewrite Hw1. do 3 wstep.
  eapply wpw_mono; [by eapply (publish_pushes env data aspect)|]. intros ? w2 Hw2.
  pose proof (handed_over m w2 Hw2) as Hrest. unfold wpw, mbind, W_bind in *. cbn in *.
  by destruct (for_each _ _ _) as [[]| |].
Qed.

(** ** Receipts of the switchboard *)

(** The messages for those who have joined a space. *)
Definition for_joined (m : WireMessage) : bool :=
  match m with
  | WireMessage_ClientToLib3h (ClientToLib3h_JoinSpace _) => false
  | WireMessage_ClientToLib3h _ | WireMessage_Lib3hToClientResponse _
  | WireMessage_MultiSendResponse _ => true
  | _ => false
  end.

(** What the worker writes for a space it has joined is acknowledged by the
    switchboard with the hash the worker waits for, and the message is removed. *)
Theorem receipt_round_trip env b rest w state uri space count :
  (∀ n, check_ready env n = Ok true) → (∀ n, writes env n = true) →
  is_Some (connection (worker w)) → outgoing_message_buffer (worker w) = b :: rest →
  last_sent b = None → for_joined (wire_message b) = true →
  get_space_info_from_uri state uri = Some (agent_id (worker w), space) →
  let m := wire_message b in
  let agent := agent_id (worker w) in
  let ack := WireMessage_Ack (receipt m) in
  let payload := {| sw_source := agent; sw_verify := None; sw_message := m; sw_hash := receipt m |} in
  ∃ w', try_send_from_outgoing_buffer env w = Ret (true, w') ∧
    trace w' = (trace w ++ [Event_write (to_text m) agent "null" true])%list ∧
    handle_payload WIRE_VERSION count uri (Some payload) = Ret (spawn_task (Task_Joined uri agent m ack)) ∧
    Effect_Send agent uri ack ∈ (handle_joined state uri agent m ack).1 ∧
    outgoing_message_buffer (acknowledged (receipt m) (worker w')) = rest.
Proof.
  intros Hr Hw [c Hc] Hb Hl Hm Hj m agent ack payload.
  assert (Hsend : wpw False (try_send_from_outgoing_buffer env) (λ r w', r = true ∧
     trace w' = (trace w ++ [Event_write (to_text m) agent "null" true])%list ∧
     outgoing_message_buffer (acknowledged (receipt m) (worker w')) = rest) w).
  { unfold try_send_from_outgoing_buffer, connection_ready, due, send_first, now.
    do 2 wstep. rewrite Hb. do 3 wstep. rewrite Hc. do 2 wstep. rewrite Hr. repeat wstep. rewrite Hl.
    repeat wstep.
    apply (wpw_mono _ _ (λ s w', s = Some "null" ∧ worker w' = worker w ∧ trace w' = trace w)).
    { unfold signature_of. fold m. clear -Hm. fold m in Hm. by destruct m as [[]| | | | | | | | | | | | | | |]. }
    intros s w1 (-> & Hw1 & Ht1). unfold write_frame. repeat wstep. rewrite Hw1, Hc. repeat wstep.
    rewrite Hw. repeat wstep. split; [done|]. split; [by rewrite Ht1|].
    unfold mark_sent. rewrite Hw1, Hb. unfold acknowledged; cbn. by rewrite Z.eqb_refl. }
  unfold wpw in Hsend. destruct (try_send_from_outgoing_buffer env w) as [[r w']| |]; [|done..].
  destruct Hsend as (-> & Ht & Hack). exists w'. split; [done|]. split; [done|]. split; [|split; [|done]].
  - unfold handle_payload; cbn. fold m in Hm. by destruct m as [[]| | | | | | | | | | | | | | |].
  - unfold handle_joined. rewrite Hj, decide_True by done. left.
Qed.
End worker.

(** ** The thread *)

Section net_thread_lemmas.
Context {Worker Data Env : Type}.
Variable receive : Data → Worker → Outcome (Result unit unit * Worker).
Variable tick : Env → Worker → Outcome (Result unit bool * Worker).

(** The thread sleeps between 0.1 and 10 milliseconds. *)
Lemma net_run_sleeps envs (t t' : NetThread Worker Data) :
  (TICK_SLEEP_MIN_US ≤ sleep_duration_us t ≤ TICK_SLEEP_MAX_US)%Z →
  net_run receive tick envs t = Ret t' →
  (TICK_SLEEP_MIN_US ≤ sleep_duration_us t' ≤ TICK_SLEEP_MAX_US)%Z.
Proof.
  revert t. induction envs as [|env envs IH]; intros t Ht; cbn [net_run]; [by intros [= <-]|].
  destruct (net_iteration receive tick env t) as [t1| |] eqn:Hit; [|done..]. apply IH.
  unfold net_iteration in Hit. unfold_monads. cases_in Hit; by apply next_sleep_bounds.
Qed.
End net_thread_lemmas.

(** ** Examples *)

Definition ex_text (m : WireMessage) : string :=
  match m with
  | WireMessage_ClientToLib3h (ClientToLib3h_PublishEntry _) => "publish"
  | WireMessage_Ping => "ping"
  | _ => "message"
  end.
Definition ex_from_text (s : string) : option WireMessage :=
  if String.eqb s "ack" then Some (WireMessage_Ack 7) else None.
Definition ex_hash (seed : Z) (s : string) : Z := (seed + Z.of_nat (String.length s))%Z.
Definition ex_relayed (m : Lib3hToClient) : Lib3hServerProtocol := Lib3hServerProtocol_Other "relayed".
Definition ex_answered (m : ClientToLib3hResponse) : Lib3hServerProtocol :=
  Lib3hServerProtocol_Other "answered".

Definition ex_env (t : Z) (written : bool) (r : ReadResult) : Environment :=
  {| check_ready := λ _, Ok true; clock := λ _, t; opens := λ _, false; writes := λ _, written;
     reads := λ _, r; sign := λ _ s, Some s |}.

Definition ex_entry : ProvidedEntryData :=
  {| pe_space_address := "app"; pe_provider_agent_id := "alice"; pe_entry_address := "entry";
     pe_aspect_list := [{| aspect_address := "aspect"; aspect_content := "content" |}] |}.
Definition ex_publish : WireMessage := WireMessage_ClientToLib3h (ClientToLib3h_PublishEntry ex_entry).

Definition ex_world (c : option nat) (inbox : list Lib3hClientProtocol) (buffer : list WireMessage) :
    World :=
  {| worker := set_buffer (BufferedMessage_from <$> buffer) (set_inbox inbox (set_connection c
       (Sim2hWorker_init "url" "alice" 0 0))); calls := 0; trace := [] |}.

Lemma outgoing_not_lost_witness :
  ∃ t', net_run (worker_receive) (worker_tick ex_text ex_from_text ex_hash 1 "" "" ex_relayed ex_answered)
      [ex_env 0 true Read_would_block; ex_env 1 true (Read_frame (WsFrame_Binary "ack"))]
      {| nt_channel := [Lib3hClientProtocol_PublishEntry ex_entry];
         nt_worker := ex_world (Some 0) [] []; sleep_duration_us := 100 |} = Ret t' ∧
    outgoing_message_buffer (worker (nt_worker t')) = [] ∧
    accounted ex_text ex_hash (worker (nt_worker t')) (trace (nt_worker t')) (Item_message ex_publish).
Proof.
  eexists. split; [vm_compute; reflexivity|]. split; [reflexivity|].
  apply (λ H, proj2 (outgoing_not_lost ex_text ex_from_text ex_hash 1 "" "" ex_relayed ex_answered
    [ex_env 0 true Read_would_block; ex_env 1 true (Read_frame (WsFrame_Binary "ack"))]
    {| nt_channel := [Lib3hClientProtocol_PublishEntry ex_entry];
       nt_worker := ex_world (Some 0) [] []; sleep_duration_us := 100 |} _ H
    ltac:(vm_compute; reflexivity)) (Lib3hClientProtocol_PublishEntry ex_entry)).
  - intros b Hb. by apply elem_of_nil in Hb.
  - left.
  - right. left.
  - done.
  - cbn. lia.
Defined.

Lemma failed_write_panics_witness :
  tick ex_text ex_from_text ex_hash 1 "" "" ex_relayed ex_answered (ex_env 0 false Read_would_block)
    (ex_world (Some 0) [] [WireMessage_Ping]) = Panic.
Proof.
  apply (failed_write_panics ex_text ex_from_text ex_hash 1 "" "" ex_relayed ex_answered
    (ex_env 0 false Read_would_block) (BufferedMessage_from WireMessage_Ping) []).
  - repeat split. intros n payload. by exists payload.
  - by exists 0.
  - done.
  - done.
Defined.

Lemma healthy_tick_returns_witness :
  ∃ did_something w', tick ex_text ex_from_text ex_hash 1 "" "" ex_relayed ex_answered
      (ex_env 0 true (Read_frame (WsFrame_Binary "ack")))
      (ex_world (Some 0) [Lib3hClientProtocol_PublishEntry ex_entry] [ex_publish]) =
      Ret (did_something, w') ∧
    inbox (worker w') = [] ∧ to_core (worker w') = [].
Proof.
  apply (healthy_tick_returns ex_text ex_from_text ex_hash 1 "" "" ex_relayed ex_answered).
  - repeat split. intros n payload count version Hr. cbn in Hr. injection Hr as <-. done.
  - cbn. intros [?|?%elem_of_nil]%elem_of_cons; done.
Defined.

Lemma backoff_never_capped_witness :
  ∃ w', run ex_text ex_from_text ex_hash 1 "" "" ex_relayed ex_answered
      (offline_steps 6 (-2000) 2000) (ex_world None [] []) = Ret ((), w') ∧
    connection (worker w') = None ∧ reconnect_interval (worker w') = 128000%Z ∧
    ((INITIAL_CONNECTION_TIMEOUT_MS ≤ 2000)%Z → 5 ≤ 6 →
       (MAX_CONNECTION_TIMEOUT_MS < reconnect_interval (worker w'))%Z).
Proof.
  apply (backoff_never_capped ex_text ex_from_text ex_hash 1 "" "" ex_relayed ex_answered 6 (-2000) 2000
    (ex_world None [] [])).
  - repeat split.
  - lia.
  - vm_compute. reflexivity.
Defined.

Lemma published_is_stored_witness :
  ∃ d w', tick ex_text ex_from_text ex_hash 1 "" "" ex_relayed ex_answered (offline 0)
      (ex_world None [Lib3hClientProtocol_PublishEntry ex_entry] []) = Ret (d, w') ∧
    Event_handle (Lib3hServerProtocol_HandleStoreEntryAspect "" "app" "alice" "entry"
      {| aspect_address := "aspect"; aspect_content := "content" |}) ∈ trace w'.
Proof.
  eexists _, _. split; [vm_compute; reflexivity|].
  eapply (published_is_stored ex_text ex_from_text ex_hash 1 "" "" ex_relayed ex_answered (offline 0)
    ex_entry _ (ex_world None [Lib3hClientProtocol_PublishEntry ex_entry] [])).
  - left.
  - left.
  - vm_compute. reflexivity.
Defined.
