(* ===== verification/MemoryNet.v ===== *)
(** * The network in memory

    Models [src/crates/net/src/in_memory]: the books of [memory_book.rs], the
    server of [memory_server.rs] that routes messages between the nodes of a process,
    and the workers of [memory_worker.rs] through which the nodes use it.

    A channel is a queue, known by a number, that exists as long as its receiver
    does; sending to one that is gone is an error.  The operations of the server
    are programs over its state and the channels that may return an error or
    panic; what they have changed by then stays changed, as the lock of the
    server is not poisoned by a panic.  The order in which a map is iterated over is that
    of [map_to_list].

    The theorems: whatever clients do that answer only what they were asked and
    act for one agent each, the server does not panic ([memory_clients_are_safe]);
    what is published reaches all nodes of the application ([publish_reaches_all]),
    until one of them is gone without having left ([gone_client_blocks_publishing]). *)

From S2P Require Import Prelude Lib3h.
From stdpp Require Import pretty.
From Stdlib Require Import Ascii.

Local Open Scope string_scope.

(** ** memory_book.rs *)

Definition into_chain_id (dna_address agent_id : string) : string :=
  dna_address +:+ "::" +:+ agent_id.

(** [split("::")]. *)
Fixpoint split_colons (s : string) : list string :=
  match s with
  | "" => [""]
  | String ":"%char (String ":"%char rest) => "" :: split_colons rest
  | String c rest =>
      match split_colons rest with
      | part :: parts => String c part :: parts
      | [] => []
      end
  end.

Definition undo_chain_id (chain_id : string) : Outcome (string * string) :=
  match split_colons chain_id with
  | [dna_address; agent_id] => Ret (dna_address, agent_id)
  | _ => Panic
  end.

Abbreviation EntryBook := (gmap string (gset string)) (only parsing).
Abbreviation ChainBook := (gmap string (gmap string (gset string))) (only parsing).

Definition bookkeep_with_chain_id (chain_book : ChainBook) (chain_id entry_address aspect_address : string) :
    ChainBook :=
  match chain_book !! chain_id with
  | Some entry_book =>
      match entry_book !! entry_address with
      | Some meta_set => <[chain_id := <[entry_address := {[aspect_address]} ∪ meta_set]> entry_book]> chain_book
      | None => <[chain_id := <[entry_address := {[aspect_address]}]> entry_book]> chain_book
      end
  | None => <[chain_id := {[entry_address := {[aspect_address]}]}]> chain_book
  end.

Definition bookkeep (chain_book : ChainBook) (dna_address agent_id entry_address aspect_address : string) :
    ChainBook :=
  bookkeep_with_chain_id chain_book (into_chain_id dna_address agent_id) entry_address aspect_address.

Definition book_has_aspect (chain_book : ChainBook) (chain_id entry_address aspect_address : string) : bool :=
  match chain_book !! chain_id with
  | None => false
  | Some entry_book =>
      match entry_book !! entry_address with
      | None => false
      | Some aspect_set => bool_decide (aspect_address ∈ aspect_set)
      end
  end.

Definition book_has_entry (chain_book : ChainBook) (chain_id entry_address : string) : bool :=
  book_has_aspect chain_book chain_id entry_address entry_address.

Definition unbookkeep_address (chain_book : ChainBook)
    (dna_address agent_id entry_address aspect_address : string) : bool * ChainBook :=
  let chain_id := into_chain_id dna_address agent_id in
  match chain_book !! chain_id with
  | None => (false, chain_book)
  | Some entry_book =>
      match entry_book !! entry_address with
      | None => (false, chain_book)
      | Some aspect_set =>
          (bool_decide (aspect_address ∈ aspect_set),
           <[chain_id := <[entry_address := aspect_set ∖ {[aspect_address]}]> entry_book]> chain_book)
      end
  end.

(** ** The server *)

Record InMemoryServer : Type := {
  senders : gmap string nat;
  senders_by_dna : gmap string (gmap string nat);
  name : string;
  client_count : nat;
  authored_book : ChainBook;
  stored_book : ChainBook;
  trackdna_book : gset string;
  request_book : gmap string string;
  request_count : nat;
}.

Definition InMemoryServer_new (name : string) : InMemoryServer :=
  {| senders := ∅; senders_by_dna := ∅; name := name; client_count := 0; authored_book := ∅;
     stored_book := ∅; trackdna_book := ∅; request_book := ∅; request_count := 0 |}.

Definition set_senders (s : gmap string nat) (d : gmap string (gmap string nat)) (m : InMemoryServer) :
    InMemoryServer :=
  {| senders := s; senders_by_dna := d; name := name m; client_count := client_count m;
     authored_book := authored_book m; stored_book := stored_book m; trackdna_book := trackdna_book m;
     request_book := request_book m; request_count := request_count m |}.
Definition set_client_count (n : nat) (m : InMemoryServer) : InMemoryServer :=
  {| senders := senders m; senders_by_dna := senders_by_dna m; name := name m; client_count := n;
     authored_book := authored_book m; stored_book := stored_book m; trackdna_book := trackdna_book m;
     request_book := request_book m; request_count := request_count m |}.
Definition set_books (authored stored : ChainBook) (m : InMemoryServer) : InMemoryServer :=
  {| senders := senders m; senders_by_dna := senders_by_dna m; name := name m;
     client_count := client_count m; authored_book := authored; stored_book := stored;
     trackdna_book := trackdna_book m; request_book := request_book m; request_count := request_count m |}.
Definition set_trackdna_book (t : gset string) (m : InMemoryServer) : InMemoryServer :=
  {| senders := senders m; senders_by_dna := senders_by_dna m; name := name m;
     client_count := client_count m; authored_book := authored_book m; stored_book := stored_book m;
     trackdna_book := t; request_book := request_book m; request_count := request_count m |}.
Definition set_requests (r : gmap string string) (n : nat) (m : InMemoryServer) : InMemoryServer :=
  {| senders := senders m; senders_by_dna := senders_by_dna m; name := name m;
     client_count := client_count m; authored_book := authored_book m; stored_book := stored_book m;
     trackdna_book := trackdna_book m; request_book := r; request_count := n |}.

(** ** Programs of the server *)

Abbreviation Channels := (gmap nat (list Lib3hServerProtocol)) (only parsing).

Record MemoryState : Type := { server : InMemoryServer; channels : Channels }.

(** What is returned, or a panic, and the state then. *)
Definition Srv (A : Type) : Type := MemoryState → Outcome (Result string A) * MemoryState.

#[export] Instance Srv_ret : MRet Srv := λ _ x s, (Ret (Ok x), s).
#[export] Instance Srv_bind : MBind Srv := λ _ _ f m s,
  match m s with
  | (Ret (Ok x), s) => f x s
  | (Ret (Err e), s) => (Ret (Err e), s)
  | (Panic, s) => (Panic, s)
  | (NoFuel, s) => (NoFuel, s)
  end.

Definition gets {A} (f : InMemoryServer → A) : Srv A := λ s, (Ret (Ok (f (server s))), s).
Definition update (f : InMemoryServer → InMemoryServer) : Srv unit := λ s,
  (Ret (Ok ()), {| server := f (server s); channels := channels s |}).
Definition fail {A} (e : string) : Srv A := λ s, (Ret (Err e), s).
Definition crash {A} : Srv A := λ s, (Panic, s).

(** [expect]: an error panics; [let _ = ]: an error is ignored. *)
Definition expect {A} (m : Srv A) : Srv A := λ s,
  match m s with
  | (Ret (Err _), s) => (Panic, s)
  | r => r
  end.
Definition ignore (m : Srv unit) : Srv unit := λ s,
  match m s with
  | (Ret (Err _), s) => (Ret (Ok ()), s)
  | r => r
  end.

(** [Sender::send]. *)
Definition send (c : nat) (data : Lib3hServerProtocol) : Srv unit := λ s,
  match channels s !! c with
  | None => (Ret (Err "sending on a disconnected channel"), s)
  | Some queue =>
      (Ret (Ok ()), {| server := server s; channels := <[c := (queue ++ [data])%list]> (channels s) |})
  end.

Fixpoint each {A} (f : A → Srv unit) (l : list A) : Srv unit :=
  match l with
  | [] => mret ()
  | x :: l => f x;; each f l
  end.

(** ** memory_server.rs *)

Definition priv_generate_request_id : Srv string :=
  n ← gets request_count;
  update (λ m, set_requests (request_book m) (1 + n) m);;
  mret ("req_" +:+ pretty (1 + n)).

Definition priv_create_request_with_chain_id (chain_id : string) : Srv string :=
  req_id ← priv_generate_request_id;
  update (λ m, set_requests (<[req_id := chain_id]> (request_book m)) (request_count m) m);;
  mret req_id.

Definition priv_create_request (dna_address agent_id : string) : Srv string :=
  priv_create_request_with_chain_id (into_chain_id dna_address agent_id).

Definition priv_check_request (request_id : string) : Srv (option string) :=
  gets (λ m, request_book m !! request_id).

Definition priv_send_one_with_chain_id (chain_id : string) (data : Lib3hServerProtocol) : Srv unit :=
  n ← gets name;
  maybe_sender ← gets (λ m, senders m !! chain_id);
  match maybe_sender with
  | None => fail ("(" +:+ n +:+ ") No sender channel found for " +:+ chain_id)
  | Some sender => send sender data
  end.

Definition priv_send_one (dna_address to_agent_id : string) (data : Lib3hServerProtocol) : Srv unit :=
  priv_send_one_with_chain_id (into_chain_id dna_address to_agent_id) data.

Definition priv_send_all (dna_address : string) (data : Lib3hServerProtocol) : Srv unit :=
  arr ← gets (λ m, senders_by_dna m !! dna_address);
  match arr with
  | None => mret ()
  | Some arr => each (λ '(_, sender), send sender data) (map_to_list arr)
  end.

Definition priv_request_all_lists (dna_address agent_id : string) : Srv unit :=
  request_id ← priv_create_request dna_address agent_id;
  expect (priv_send_one dna_address agent_id
    (Lib3hServerProtocol_HandleGetAuthoringEntryList request_id agent_id dna_address));;
  request_id ← priv_create_request dna_address agent_id;
  expect (priv_send_one dna_address agent_id
    (Lib3hServerProtocol_HandleGetGossipingEntryList request_id agent_id dna_address)).

(** Whether an agent has joined; otherwise the sender is told, if it is known. *)
Definition priv_check_or_fail (dna_address agent_id : string)
    (maybe_sender_info : option (string * option string)) : Srv bool :=
  let chain_id := into_chain_id dna_address agent_id in
  tracked ← gets (λ m, bool_decide (chain_id ∈ trackdna_book m));
  if (tracked : bool) then mret true
  else
    match maybe_sender_info with
    | None => fail "DNA not tracked by agent and no sender info."
    | Some (sender_agent_id, sender_request_id) =>
        priv_send_one dna_address sender_agent_id (Lib3hServerProtocol_FailureResult
          {| gr_request_id := default "" sender_request_id; gr_space_address := dna_address;
             gr_to_agent_id := sender_agent_id; gr_result_info := "DNA not tracked by agent" |});;
        mret false
    end.

(** Relaying between two agents that both have joined. *)
Definition relay_direct (make : DirectMessageData → Lib3hServerProtocol) (msg : DirectMessageData) :
    Srv unit :=
  let sender_info := Some (dm_from_agent_id msg, Some (dm_request_id msg)) in
  is_tracking ← priv_check_or_fail (dm_space_address msg) (dm_from_agent_id msg) sender_info;
  if (is_tracking : bool) then
    is_tracking ← priv_check_or_fail (dm_space_address msg) (dm_to_agent_id msg) sender_info;
    if (is_tracking : bool) then priv_send_one (dm_space_address msg) (dm_to_agent_id msg) (make msg)
    else mret ()
  else mret ().

Definition priv_serve_SendMessage (msg : DirectMessageData) : Srv unit :=
  relay_direct Lib3hServerProtocol_HandleSendDirectMessage msg.

Definition priv_serve_HandleSendMessageResult (msg : DirectMessageData) : Srv unit :=
  relay_direct Lib3hServerProtocol_SendDirectMessageResult msg.

(** Everybody stores what is published. *)
Definition publish_aspect (msg : ProvidedEntryData) (aspect : EntryAspectData) : Srv unit :=
  let dna_address := pe_space_address msg in
  let provider := pe_provider_agent_id msg in
  let entry_address := pe_entry_address msg in
  update (λ m,
    if book_has_aspect (stored_book m) (into_chain_id dna_address provider) entry_address
         (aspect_address aspect) then m
    else set_books (bookkeep (authored_book m) dna_address provider entry_address (aspect_address aspect))
           (stored_book m) m);;
  request_id ← priv_generate_request_id;
  priv_send_all dna_address
    (Lib3hServerProtocol_HandleStoreEntryAspect request_id dna_address provider entry_address aspect).

Definition priv_serve_PublishEntry (msg : ProvidedEntryData) : Srv unit :=
  is_tracking ← priv_check_or_fail (pe_space_address msg) (pe_provider_agent_id msg)
                  (Some (pe_provider_agent_id msg, None));
  if (is_tracking : bool) then each (publish_aspect msg) (pe_aspect_list msg) else mret ().

(** The answer to a request of the server is published. *)
Definition priv_serve_HandleFetchEntryResult (msg : FetchEntryResultData) : Srv unit :=
  is_tracking ← priv_check_or_fail (fr_space_address msg) (fr_provider_agent_id msg)
                  (Some (fr_provider_agent_id msg, Some (fr_request_id msg)));
  if (is_tracking : bool) then
    ours ← gets (λ m, bool_decide (is_Some (request_book m !! fr_request_id msg)));
    if (ours : bool) then
      priv_serve_PublishEntry
        {| pe_space_address := fr_space_address msg; pe_provider_agent_id := fr_provider_agent_id msg;
           pe_entry_address := fr_entry_address msg; pe_aspect_list := fr_aspect_list msg |}
    else mret ()
  else mret ().

(** The node that asks answers itself. *)
Definition priv_serve_QueryEntry (msg : QueryEntryData) : Srv unit :=
  let dna_address := qe_space_address msg in
  let requester := qe_requester_agent_id msg in
  is_tracking ← priv_check_or_fail dna_address requester (Some (requester, Some (qe_request_id msg)));
  if (is_tracking : bool) then
    entry ← gets (λ m, senders_by_dna m !! dna_address);
    match entry with
    | None => crash
    | Some e =>
        match e !! requester with
        | Some r => send r (Lib3hServerProtocol_HandleQueryEntry msg)
        | None =>
            priv_send_one dna_address requester (Lib3hServerProtocol_QueryEntryResult
              {| qr_space_address := dna_address; qr_request_id := qe_request_id msg;
                 qr_requester_agent_id := requester; qr_responder_agent_id := requester;
                 qr_entry_address := qe_entry_address msg; qr_result := "" |})
        end
    end
  else mret ().

Definition priv_serve_HandleQueryEntryResult (msg : QueryEntryResultData) : Srv unit :=
  let dna_address := qr_space_address msg in
  let requester := qr_requester_agent_id msg in
  let sender_info := Some (qr_responder_agent_id msg, Some (qr_request_id msg)) in
  is_tracking ← priv_check_or_fail dna_address (qr_responder_agent_id msg) sender_info;
  if (is_tracking : bool) then
    is_tracking ← (if String.eqb requester "" then mret true
                   else priv_check_or_fail dna_address requester sender_info);
    if (is_tracking : bool) then
      priv_send_one dna_address requester (Lib3hServerProtocol_QueryEntryResult msg)
    else mret ()
  else mret ().

Definition outcome {A} (o : Outcome A) : Srv A := λ s, (Ok <$> o, s).

(** An aspect is asked for at the agent of a chain. *)
Definition request_aspect (chain_id space entry_address aspect_address : string) : Srv unit :=
  request_id ← priv_create_request_with_chain_id chain_id;
  '(_, agent_id) ← outcome (undo_chain_id chain_id);
  priv_send_one_with_chain_id chain_id
    (Lib3hServerProtocol_HandleFetchEntry space entry_address request_id agent_id (Some [aspect_address])).

(** The entries and aspects of a list. *)
Definition listed (msg : EntryListData) : list (string * string) :=
  el_address_map msg ≫= λ '(entry_address, aspects), (λ a, (entry_address, a)) <$> aspects.

Definition expect_request (request_id : string) : Srv string :=
  maybe_chain_id ← priv_check_request request_id;
  match maybe_chain_id with
  | Some chain_id => mret chain_id
  | None => crash
  end.

Definition priv_serve_HandleGetAuthoringEntryListResult (msg : EntryListData) : Srv unit :=
  chain_id ← expect_request (el_request_id msg);
  each (λ '(entry_address, aspect_address),
    has ← gets (λ m, book_has_aspect (authored_book m) chain_id entry_address aspect_address);
    if (has : bool) then mret ()
    else request_aspect chain_id (el_space_address msg) entry_address aspect_address) (listed msg).

Definition priv_serve_HandleGetGossipingEntryListResult (msg : EntryListData) : Srv unit :=
  chain_id ← (if String.eqb (el_request_id msg) ""
              then mret (into_chain_id (el_space_address msg) (el_provider_agent_id msg))
              else expect_request (el_request_id msg));
  each (λ '(entry_address, aspect_address),
    has ← gets (λ m, book_has_aspect (stored_book m) chain_id entry_address aspect_address);
    if (has : bool) then mret ()
    else
      update (λ m, set_books (authored_book m)
        (bookkeep_with_chain_id (stored_book m) chain_id entry_address aspect_address) m);;
      ignore (request_aspect chain_id (el_space_address msg) entry_address aspect_address)) (listed msg).

Definition clock_in : Srv unit := update (λ m, set_client_count (1 + client_count m) m).

Definition clock_out : Srv unit :=
  n ← gets client_count;
  match n with
  | 0 => crash
  | S n =>
      update (set_client_count n);;
      match n with
      | 0 => update (set_senders ∅ ∅)
      | _ => mret ()
      end
  end.

Definition register_chain (dna_address agent_id : string) (sender : nat) : Srv unit :=
  update (λ m, set_senders (<[into_chain_id dna_address agent_id := sender]> (senders m))
    (<[dna_address := <[agent_id := sender]> (default ∅ (senders_by_dna m !! dna_address))]>
       (senders_by_dna m)) m).

Definition unregister_chain (dna_address agent_id : string) : Srv unit :=
  let chain_id := into_chain_id dna_address agent_id in
  maybe_sender ← gets (λ m, senders m !! chain_id);
  match maybe_sender with
  | None => mret ()
  | Some _ =>
      update (λ m, set_senders (delete chain_id (senders m)) (senders_by_dna m) m);;
      entry ← gets (λ m, senders_by_dna m !! dna_address);
      match entry with
      | None => crash
      | Some agents =>
          update (λ m, set_senders (senders m)
            (<[dna_address := delete agent_id agents]> (senders_by_dna m)) m)
      end
  end.

Definition serve (data : Lib3hClientProtocol) : Srv unit :=
  match data with
  | Lib3hClientProtocol_SuccessResult msg =>
      is_tracked ← priv_check_or_fail (gr_space_address msg) (gr_to_agent_id msg) None;
      if (is_tracked : bool) then
        priv_send_one (gr_space_address msg) (gr_to_agent_id msg) (Lib3hServerProtocol_SuccessResult msg)
      else mret ()
  | Lib3hClientProtocol_JoinSpace msg =>
      let chain_id := into_chain_id (sd_space_address msg) (sd_agent_id msg) in
      tracked ← gets (λ m, bool_decide (chain_id ∈ trackdna_book m));
      if (tracked : bool) then mret ()
      else
        update (λ m, set_trackdna_book ({[chain_id]} ∪ trackdna_book m) m);;
        priv_request_all_lists (sd_space_address msg) (sd_agent_id msg)
  | Lib3hClientProtocol_LeaveSpace msg =>
      let chain_id := into_chain_id (sd_space_address msg) (sd_agent_id msg) in
      update (λ m, set_trackdna_book (trackdna_book m ∖ {[chain_id]}) m)
  | Lib3hClientProtocol_SendDirectMessage msg => priv_serve_SendMessage msg
  | Lib3hClientProtocol_HandleSendDirectMessageResult msg => priv_serve_HandleSendMessageResult msg
  | Lib3hClientProtocol_PublishEntry msg => priv_serve_PublishEntry msg
  | Lib3hClientProtocol_HandleFetchEntryResult msg => priv_serve_HandleFetchEntryResult msg
  | Lib3hClientProtocol_QueryEntry msg => priv_serve_QueryEntry msg
  | Lib3hClientProtocol_HandleQueryEntryResult msg => priv_serve_HandleQueryEntryResult msg
  | Lib3hClientProtocol_HandleGetAuthoringEntryListResult msg =>
      priv_serve_HandleGetAuthoringEntryListResult msg
  | Lib3hClientProtocol_HandleGetGossipingEntryListResult msg =>
      priv_serve_HandleGetGossipingEntryListResult msg
  | Lib3hClientProtocol_Connect _ | Lib3hClientProtocol_FetchEntry | Lib3hClientProtocol_Shutdown => mret ()
  end.

(** ** memory_worker.rs *)

Record InMemoryWorker : Type := {
  receiver_per_dna : gmap string nat;
  server_name : string;
  can_send_P2pReady : bool;
}.

(** A process: the servers by name ([MEMORY_SERVER_MAP]), the channels, the workers
    by a number, and what was handed to the handlers of the nodes. *)
Record Process : Type := {
  servers : gmap string InMemoryServer;
  p_channels : Channels;
  workers : gmap nat InMemoryWorker;
  handled : list (nat * Lib3hServerProtocol);
}.

Definition set_worker (i : nat) (w : InMemoryWorker) (p : Process) : Process :=
  {| servers := servers p; p_channels := p_channels p; workers := <[i := w]> (workers p);
     handled := handled p |}.
Definition set_channels (c : Channels) (p : Process) : Process :=
  {| servers := servers p; p_channels := c; workers := workers p; handled := handled p |}.
Definition hand_over (i : nat) (l : list Lib3hServerProtocol) (p : Process) : Process :=
  {| servers := servers p; p_channels := p_channels p; workers := workers p;
     handled := handled p ++ ((λ m, (i, m)) <$> l) |}%list.

(** Using the server of a name under its lock; it must exist. *)
Definition on_server {A} (n : string) (m : Srv A) (p : Process) : Outcome (Result string A) * Process :=
  match servers p !! n with
  | None => (Panic, p)
  | Some s =>
      let '(r, st) := m {| server := s; channels := p_channels p |} in
      (r, {| servers := <[n := server st]> (servers p); p_channels := channels st;
             workers := workers p; handled := handled p |})
  end.

Definition set_receivers (r : gmap string nat) (w : InMemoryWorker) : InMemoryWorker :=
  {| receiver_per_dna := r; server_name := server_name w; can_send_P2pReady := can_send_P2pReady w |}.

Definition InMemoryWorker_new (i : nat) (n : string) (p : Process) : Outcome (Result string unit) * Process :=
  let p := match servers p !! n with
           | Some _ => p
           | None => {| servers := <[n := InMemoryServer_new n]> (servers p); p_channels := p_channels p;
                        workers := workers p; handled := handled p |}
           end in
  let '(r, p) := on_server n clock_in p in
  (r, set_worker i {| receiver_per_dna := ∅; server_name := n; can_send_P2pReady := true |} p).

(** A node that joins gets a channel for the application, if it has none. *)
Definition open_channel (i : nat) (w : InMemoryWorker) (msg : SpaceData) (p : Process) :
    Outcome (Result string unit) * Process :=
  let dna := sd_space_address msg in
  match receiver_per_dna w !! dna with
  | Some _ => (Ret (Ok ()), p)
  | None =>
      let c := fresh (dom (p_channels p)) in
      let '(r, p) := on_server (server_name w) (register_chain dna (sd_agent_id msg) c)
                       (set_channels (<[c := []]> (p_channels p)) p) in
      (r, set_worker i (set_receivers (<[dna := c]> (receiver_per_dna w)) w) p)
  end.

(** A node that leaves drops its channel. *)
Definition close_channel (i : nat) (w : InMemoryWorker) (msg : SpaceData) (p : Process) :
    Outcome (Result string unit) * Process :=
  let dna := sd_space_address msg in
  match receiver_per_dna w !! dna with
  | None => (Ret (Ok ()), p)
  | Some c =>
      match on_server (server_name w) (unregister_chain dna (sd_agent_id msg)) p with
      | (Ret (Ok _), p) =>
          (Ret (Ok ()), set_channels (delete c (p_channels p))
             (set_worker i (set_receivers (delete dna (receiver_per_dna w)) w) p))
      | (r, p) => (r, p)
      end
  end.

(** Parts that follow each other unless one fails. *)
Definition and_then (m : Process → Outcome (Result string unit) * Process)
    (f : Process → Outcome (Result string unit) * Process) (p : Process) :
    Outcome (Result string unit) * Process :=
  match m p with
  | (Ret (Ok _), p) => f p
  | (r, p) => (r, p)
  end.

(** The worker as it is after the parts before. *)
Definition with_worker (i : nat) (f : InMemoryWorker → Process → Outcome (Result string unit) * Process)
    (p : Process) : Outcome (Result string unit) * Process :=
  match workers p !! i with
  | Some w => f w p
  | None => (Ret (Ok ()), p)
  end.

Definition worker_receive (i : nat) (data : Lib3hClientProtocol) : Process → Outcome (Result string unit) * Process :=
  match data with
  | Lib3hClientProtocol_Shutdown => λ p, (Ret (Ok ()), hand_over i [Lib3hServerProtocol_Terminated] p)
  | Lib3hClientProtocol_JoinSpace msg =>
      and_then (with_worker i (λ w, open_channel i w msg))
        (with_worker i (λ w, on_server (server_name w) (serve data)))
  | Lib3hClientProtocol_LeaveSpace msg =>
      and_then (with_worker i (λ w, on_server (server_name w) (serve data)))
        (with_worker i (λ w, close_channel i w msg))
  | _ => with_worker i (λ w, on_server (server_name w) (serve data))
  end.

(** [try_recv] of each receiver. *)
Definition take_one (i : nat) (p : Process) (receiver : string * nat) : Process :=
  match p_channels p !! receiver.2 with
  | Some (m :: queue) => hand_over i [m] (set_channels (<[receiver.2 := queue]> (p_channels p)) p)
  | _ => p
  end.

Definition worker_tick (i : nat) (p : Process) : Process :=
  match workers p !! i with
  | None => p
  | Some w =>
      let p :=
        if can_send_P2pReady w then
          hand_over i [Lib3hServerProtocol_P2pReady] (set_worker i
            {| receiver_per_dna := receiver_per_dna w; server_name := server_name w;
               can_send_P2pReady := false |} p)
        else p in
      foldl (take_one i) p (map_to_list (receiver_per_dna w))
  end.

(** [Drop]: the worker clocks out, and its channels are closed. *)
Definition worker_drop (i : nat) (p : Process) : Outcome (Result string unit) * Process :=
  match workers p !! i with
  | None => (Ret (Ok ()), p)
  | Some w =>
      let '(r, p) := on_server (server_name w) clock_out p in
      (r, {| servers := servers p;
             p_channels := foldr delete (p_channels p) (map_to_list (receiver_per_dna w)).*2;
             workers := delete i (workers p); handled := handled p |})
  end.

(** ** Chain ids *)

Fixpoint no_colon (s : string) : bool :=
  match s with
  | "" => true
  | String c s => negb (Ascii.eqb c ":") && no_colon s
  end.

Lemma split_cons c s :
  Ascii.eqb c ":" = false →
  split_colons (String c s) =
    match split_colons s with part :: parts => String c part :: parts | [] => [] end.
Proof. intros Hc. destruct c as [[] [] [] [] [] [] [] []]; done. Qed.

Lemma split_no_colon a : no_colon a = true → split_colons a = [a].
Proof.
  induction a as [|c a IH]; [done|]. cbn [no_colon]. intros [Hc%negb_true_iff Ha]%andb_true_iff.
  by rewrite split_cons, IH.
Qed.

Lemma split_chain_id d a :
  no_colon d = true → no_colon a = true → split_colons (into_chain_id d a) = [d; a].
Proof.
  intros Hd Ha. unfold into_chain_id. induction d as [|c d IH].
  { change (split_colons _) with ("" :: split_colons a). by rewrite split_no_colon. }
  cbn [no_colon] in Hd. apply andb_true_iff in Hd as [Hc%negb_true_iff Hd].
  change (String c d +:+ "::" +:+ a) with (String c (d +:+ "::" +:+ a)).
  by rewrite split_cons, IH.
Qed.

Lemma chain_id_inj d a d' a' :
  no_colon d = true → no_colon a = true → no_colon d' = true → no_colon a' = true →
  into_chain_id d a = into_chain_id d' a' → d = d' ∧ a = a'.
Proof.
  intros ? ? ? ? Heq. assert (Hs : [d; a] = [d'; a']); [|by injection Hs].
  rewrite <- !split_chain_id by done. by rewrite Heq.
Qed.

Lemma undo_into_chain_id d a :
  no_colon d = true → no_colon a = true → undo_chain_id (into_chain_id d a) = Ret (d, a).
Proof. intros. unfold undo_chain_id. by rewrite split_chain_id. Qed.

(** ** Programs that do not panic *)

Section safe.
Variable I : MemoryState → Prop.

Definition safe {A} (m : Srv A) : Prop :=
  ∀ s, I s → match m s with
             | (Ret _, s) => I s
             | _ => False
             end.

Lemma safe_ret {A} (x : A) : safe (mret x).
Proof. by intros s Hs. Qed.

Lemma safe_srv_bind {A B} (m : Srv A) (f : A → Srv B) : safe m → (∀ x, safe (f x)) → safe (m ≫= f).
Proof.
  intros Hm Hf s Hs. specialize (Hm s Hs). unfold mbind, Srv_bind.
  destruct (m s) as [[[x|e]| |] s']; [by apply Hf|done..].
Qed.

Lemma safe_gets {A} (f : InMemoryServer → A) : safe (gets f).
Proof. by intros s Hs. Qed.

(** Reading the state, with what the invariant says of it. *)
Lemma safe_gets_bind {A B} (f : InMemoryServer → A) (k : A → Srv B) :
  (∀ s, I s → match k (f (server s)) s with (Ret _, s) => I s | _ => False end) →
  safe (gets f ≫= k).
Proof. intros Hk s Hs. by apply Hk. Qed.

Lemma safe_fail {A} e : safe (fail e : Srv A).
Proof. by intros s Hs. Qed.

Lemma safe_update f :
  (∀ s, I s → I {| server := f (server s); channels := channels s |}) → safe (update f).
Proof. intros Hf s Hs. by apply Hf. Qed.

Lemma safe_each {A} (f : A → Srv unit) l : (∀ x, x ∈ l → safe (f x)) → safe (each f l).
Proof.
  induction l as [|x l IH]; intros Hf; [apply safe_ret|].
  apply safe_srv_bind; [apply Hf; left|]. intros _. apply IH. intros y Hy. apply Hf. by right.
Qed.

Lemma safe_ignore m : safe m → safe (ignore m).
Proof. intros Hm s Hs. specialize (Hm s Hs). unfold ignore. by destruct (m s) as [[[]| |] ?]. Qed.
End safe.

(** *** Serving leaves the routes alone *)

Definition chain_ok (chain_id : string) : Prop :=
  ∃ d a, no_colon d = true ∧ no_colon a = true ∧ chain_id = into_chain_id d a.

Section routed.
Variable routes : gmap string nat.
Variable routes_by_dna : gmap string (gmap string nat).
Variable clients : nat.
Variable open : gset nat.
Variable known : gmap string string.

Definition routed (s : MemoryState) : Prop :=
  senders (server s) = routes ∧ senders_by_dna (server s) = routes_by_dna ∧
  client_count (server s) = clients ∧ dom (channels s) = open ∧
  (∀ r, is_Some (known !! r) → is_Some (request_book (server s) !! r)) ∧
  (∀ r chain_id, request_book (server s) !! r = Some chain_id → chain_ok chain_id).

Ltac safely :=
  repeat first
    [ solve [auto with memory]
    | match goal with |- safe _ (_ ≫= _) => apply safe_srv_bind; [|intros ?] end
    | match goal with |- safe _ (match ?x with _ => _ end) => destruct x eqn:? end ].

Create HintDb memory discriminated.
Hint Resolve safe_ret safe_gets safe_fail : memory.

Lemma routed_send c data : safe routed (send c data).
Proof.
  intros s (Ha & Hb & Hc & Hd & Hr). unfold send. destruct (channels s !! c) as [queue|] eqn:Hq; [|done].
  repeat split; try done; try apply Hr. cbn. rewrite dom_insert_L, Hd.
  apply subseteq_union_1_L, singleton_subseteq_l. rewrite <- Hd. by apply elem_of_dom_2 in Hq.
Qed.
Hint Resolve routed_send : memory.

Lemma routed_update f :
  (∀ m, senders (f m) = senders m ∧ senders_by_dna (f m) = senders_by_dna m ∧
     client_count (f m) = client_count m ∧ request_book (f m) = request_book m) →
  safe routed (update f).
Proof.
  intros Hf. apply safe_update. intros s (Ha & Hb & Hc & Hd & Hr).
  destruct (Hf (server s)) as (H1 & H2 & H3 & H4). unfold routed; cbn. by rewrite H1, H2, H3, H4.
Qed.

Lemma routed_generate : safe routed priv_generate_request_id.
Proof. unfold priv_generate_request_id. safely. by apply routed_update. Qed.
Hint Resolve routed_generate : memory.

Lemma routed_create chain_id :
  chain_ok chain_id → safe routed (priv_create_request_with_chain_id chain_id).
Proof.
  intros Hok. unfold priv_create_request_with_chain_id. safely.
  apply safe_update. intros s (Ha & Hb & Hc & Hd & Hk & Hr). repeat split; try done; cbn.
  - intros r Hkr. destruct (decide (r = x)) as [->|Hne]; [by rewrite lookup_insert_eq; eexists|].
    rewrite lookup_insert_ne by done. auto.
  - intros r c. destruct (decide (r = x)) as [->|Hne]; [rewrite lookup_insert_eq; by intros [= <-]|].
    rewrite lookup_insert_ne by done. apply Hr.
Qed.
Hint Resolve routed_create : memory.

Lemma routed_send_one_with c data : safe routed (priv_send_one_with_chain_id c data).
Proof. unfold priv_send_one_with_chain_id. safely. Qed.

Lemma routed_send_one d a data : safe routed (priv_send_one d a data).
Proof. apply routed_send_one_with. Qed.
Hint Resolve routed_send_one_with routed_send_one : memory.

Lemma routed_check d a info : safe routed (priv_check_or_fail d a info).
Proof. unfold priv_check_or_fail. safely. Qed.
Hint Resolve routed_check : memory.

Lemma routed_relay make msg : safe routed (relay_direct make msg).
Proof. unfold relay_direct. safely. Qed.
Hint Resolve routed_relay : memory.

Lemma routed_publish msg : safe routed (priv_serve_PublishEntry msg).
Proof.
  unfold priv_serve_PublishEntry. safely. apply safe_each. intros aspect _.
  unfold publish_aspect, priv_send_all. safely.
  - apply routed_update. intros m. by case_match.
  - apply safe_each. intros [] _. apply routed_send.
Qed.
Hint Resolve routed_publish : memory.

Lemma routed_query msg :
  is_Some (routes_by_dna !! qe_space_address msg) → safe routed (priv_serve_QueryEntry msg).
Proof.
  intros [agents Hb]. unfold priv_serve_QueryEntry. apply safe_srv_bind; [auto with memory|].
  intros []; [|apply safe_ret]. apply safe_gets_bind. intros s Hs. rewrite (proj1 (proj2 Hs)), Hb.
  destruct (agents !! _); [by apply routed_send|by apply routed_send_one].
Qed.

Lemma routed_request_aspect chain_id space e a :
  chain_ok chain_id → safe routed (request_aspect chain_id space e a).
Proof.
  intros Hok. unfold request_aspect. apply safe_srv_bind; [by apply routed_create|]. intros request_id.
  destruct Hok as (d & agent & Hd & Ha & ->). rewrite undo_into_chain_id by done.
  apply safe_srv_bind; [by intros s Hs|]. intros []. auto with memory.
Qed.

Lemma routed_expect_request request_id (f : string → Srv unit) :
  is_Some (known !! request_id) → (∀ chain_id, chain_ok chain_id → safe routed (f chain_id)) →
  safe routed (chain_id ← expect_request request_id; f chain_id).
Proof.
  intros Hk Hf s Hs. pose proof Hs as (_ & _ & _ & _ & Hk' & Hr).
  destruct (Hk' _ Hk) as [chain_id Hc]. unfold expect_request, priv_check_request, mbind, Srv_bind; cbn.
  rewrite Hc. cbn. by eapply Hf; [eapply Hr|].
Qed.

Lemma routed_authoring msg :
  is_Some (known !! el_request_id msg) → safe routed (priv_serve_HandleGetAuthoringEntryListResult msg).
Proof.
  intros Hk. apply routed_expect_request; [done|]. intros chain_id Hok. apply safe_each.
  intros [e a] _. safely. by apply routed_request_aspect.
Qed.

Lemma routed_gossiping msg :
  (if String.eqb (el_request_id msg) ""
   then no_colon (el_space_address msg) = true ∧ no_colon (el_provider_agent_id msg) = true
   else is_Some (known !! el_request_id msg)) →
  safe routed (priv_serve_HandleGetGossipingEntryListResult msg).
Proof.
  intros Hk. unfold priv_serve_HandleGetGossipingEntryListResult. set (f := λ chain_id : string, _).
  assert (Hf : ∀ chain_id, chain_ok chain_id → safe routed (f chain_id)).
  { intros chain_id Hok. apply safe_each. intros [e a] _. safely;
      first [by apply routed_update | by apply safe_ignore, routed_request_aspect]. }
  destruct (String.eqb (el_request_id msg) "").
  - apply (Hf (into_chain_id _ _)). destruct Hk. by exists (el_space_address msg), (el_provider_agent_id msg).
  - by apply routed_expect_request.
Qed.

(** Joining, with a channel that is open. *)
Lemma routed_expect_send chain_id c data :
  routes !! chain_id = Some c → c ∈ open → safe routed (expect (priv_send_one_with_chain_id chain_id data)).
Proof.
  intros Hr Hc s Hs. pose proof (routed_send_one_with chain_id data s Hs) as H.
  unfold expect. unfold priv_send_one_with_chain_id, mbind, Srv_bind, gets in *; cbn in *.
  rewrite (proj1 Hs), Hr in *. unfold send in *.
  assert (Hq : is_Some (channels s !! c)).
  { apply elem_of_dom. by rewrite (proj1 (proj2 (proj2 (proj2 Hs)))). }
  destruct Hq as [queue Hq]. by rewrite Hq in *.
Qed.

Lemma routed_join msg c :
  let chain_id := into_chain_id (sd_space_address msg) (sd_agent_id msg) in
  no_colon (sd_space_address msg) = true → no_colon (sd_agent_id msg) = true →
  routes !! chain_id = Some c → c ∈ open → safe routed (serve (Lib3hClientProtocol_JoinSpace msg)).
Proof.
  intros chain_id Hd Ha Hr Hc. assert (Hok : chain_ok chain_id) by by exists (sd_space_address msg), (sd_agent_id msg).
  cbn [serve]. apply safe_srv_bind; [auto with memory|]. intros []; [apply safe_ret|].
  apply safe_srv_bind; [by apply routed_update|]. intros _.
  unfold priv_request_all_lists, priv_create_request, priv_send_one. safely.
  all: by eapply routed_expect_send.
Qed.

(** What is expected of a client, other than for joining. *)
Definition serveable (data : Lib3hClientProtocol) : Prop :=
  match data with
  | Lib3hClientProtocol_JoinSpace _ => False
  | Lib3hClientProtocol_QueryEntry msg => is_Some (routes_by_dna !! qe_space_address msg)
  | Lib3hClientProtocol_HandleGetAuthoringEntryListResult msg => is_Some (known !! el_request_id msg)
  | Lib3hClientProtocol_HandleGetGossipingEntryListResult msg =>
      if String.eqb (el_request_id msg) ""
      then no_colon (el_space_address msg) = true ∧ no_colon (el_provider_agent_id msg) = true
      else is_Some (known !! el_request_id msg)
  | _ => True
  end.

Lemma routed_serve data : serveable data → safe routed (serve data).
Proof.
  destruct data; cbn [serve serveable]; intros Hs; try done;
    try first [by auto with memory | by apply routed_relay].
  - safely.
  - unfold priv_serve_HandleFetchEntryResult. safely.
  - by apply routed_query.
  - unfold priv_serve_HandleQueryEntryResult. safely.
  - by apply routed_authoring.
  - by apply routed_gossiping.
Qed.
End routed.

(** ** Processes *)

(** The workers of a server. *)
Definition clients_of (n : string) (ws : gmap nat InMemoryWorker) : nat :=
  size (filter (λ iw : nat * InMemoryWorker, server_name iw.2 = n) ws).

Lemma clients_of_insert n i w ws :
  ws !! i = None →
  clients_of n (<[i := w]> ws) = (if decide (server_name w = n) then 1 else 0) + clients_of n ws.
Proof.
  intros Hi. unfold clients_of. case_decide as Hn.
  - rewrite map_filter_insert_True by done. rewrite map_size_insert_None; [done|].
    apply map_lookup_filter_None. by left.
  - by rewrite map_filter_insert_not' by naive_solver.
Qed.

Lemma clients_of_delete n i w ws :
  ws !! i = Some w →
  clients_of n ws = (if decide (server_name w = n) then 1 else 0) + clients_of n (delete i ws).
Proof.
  intros Hi. rewrite <- (clients_of_insert n i w) by apply lookup_delete_eq.
  by rewrite insert_delete_eq, insert_id.
Qed.

Lemma clients_of_update n i w w' ws :
  ws !! i = Some w → server_name w' = server_name w →
  clients_of n (<[i := w']> ws) = clients_of n ws.
Proof.
  intros Hi Hn. rewrite (clients_of_delete n i w ws Hi), <- Hn.
  rewrite <- insert_delete_eq. apply clients_of_insert, lookup_delete_eq.
Qed.

Section process.
Variable agent_of : nat → string.
Hypothesis agent_of_inj : ∀ i j, agent_of i = agent_of j → i = j.
Hypothesis agent_of_ok : ∀ i, no_colon (agent_of i) = true.

Definition chain_of (i : nat) (d : string) : string := into_chain_id d (agent_of i).

Lemma chain_of_inj i j d d' :
  no_colon d = true → no_colon d' = true → chain_of i d = chain_of j d' → i = j ∧ d = d'.
Proof.
  intros Hd Hd' Heq. apply chain_id_inj in Heq as [-> Ha]; auto.
Qed.

(** What clients do: each acts for its own agent, queries where it has joined, and
    answers the lists it was asked for. *)
Definition allowed (p : Process) (i : nat) (data : Lib3hClientProtocol) : Prop :=
  ∃ w s, workers p !! i = Some w ∧ servers p !! server_name w = Some s ∧
  match data with
  | Lib3hClientProtocol_JoinSpace msg | Lib3hClientProtocol_LeaveSpace msg =>
      sd_agent_id msg = agent_of i ∧ no_colon (sd_space_address msg) = true
  | Lib3hClientProtocol_QueryEntry msg => is_Some (receiver_per_dna w !! qe_space_address msg)
  | Lib3hClientProtocol_HandleGetAuthoringEntryListResult msg =>
      is_Some (request_book s !! el_request_id msg)
  | Lib3hClientProtocol_HandleGetGossipingEntryListResult msg =>
      if String.eqb (el_request_id msg) ""
      then no_colon (el_space_address msg) = true ∧ no_colon (el_provider_agent_id msg) = true
      else is_Some (request_book s !! el_request_id msg)
  | _ => True
  end.

Inductive process_step (p : Process) : Process → Prop :=
| Process_new i n :
    workers p !! i = None → process_step p (InMemoryWorker_new i n p).2
| Process_receive i data :
    allowed p i data → process_step p (worker_receive i data p).2
| Process_tick i : process_step p (worker_tick i p)
| Process_drop i : process_step p (worker_drop i p).2.

Definition Process_init : Process :=
  {| servers := ∅; p_channels := ∅; workers := ∅; handled := [] |}.

(** *** The invariant *)

Definition server_ok (s : InMemoryServer) : Prop :=
  (∀ d a, no_colon d = true → no_colon a = true → is_Some (senders s !! into_chain_id d a) →
     is_Some (senders_by_dna s !! d)) ∧
  (∀ r chain_id, request_book s !! r = Some chain_id → chain_ok chain_id).

(** A worker has a channel: its server sends to it. *)
Definition connected (p : Process) (i : nat) (w : InMemoryWorker) (d : string) (c : nat) : Prop :=
  no_colon d = true ∧ is_Some (p_channels p !! c) ∧
  ∃ s, servers p !! server_name w = Some s ∧ senders s !! chain_of i d = Some c.

Record process_ok (p : Process) : Prop := {
  ok_server : ∀ i w, workers p !! i = Some w → is_Some (servers p !! server_name w);
  ok_connected : ∀ i w d c, workers p !! i = Some w → receiver_per_dna w !! d = Some c →
    connected p i w d c;
  ok_servers : ∀ n s, servers p !! n = Some s →
    server_ok s ∧ client_count s = clients_of n (workers p);
  ok_owners : ∀ i j w w' d d' c, workers p !! i = Some w → workers p !! j = Some w' →
    receiver_per_dna w !! d = Some c → receiver_per_dna w' !! d' = Some c → i = j ∧ d = d';
}.

(** A server after serving. *)
Definition same_routes (s s' : InMemoryServer) : Prop :=
  senders s' = senders s ∧ senders_by_dna s' = senders_by_dna s ∧ client_count s' = client_count s ∧
  (∀ r chain_id, request_book s' !! r = Some chain_id → chain_ok chain_id).

Lemma process_ok_same p n s s' ch :
  process_ok p → servers p !! n = Some s → same_routes s s' → dom ch = dom (p_channels p) →
  process_ok {| servers := <[n := s']> (servers p); p_channels := ch; workers := workers p;
                handled := handled p |}.
Proof.
  intros Hok Hs (Ha & Hb & Hc & Hr) Hd. constructor; cbn.
  - intros i w Hw. apply lookup_insert_is_Some'. right. by eapply ok_server.
  - intros i w d c Hw Hrc. destruct (ok_connected p Hok i w d c Hw Hrc) as (Hn & Hch & s0 & Hs0 & Hsend).
    split; [done|]. split; [by apply elem_of_dom; cbn; rewrite Hd; apply elem_of_dom|]. cbn.
    destruct (decide (n = server_name w)) as [->|Hne].
    + exists s'. rewrite lookup_insert_eq. split; [done|]. rewrite Ha. by simplify_eq.
    + exists s0. by rewrite lookup_insert_ne.
  - intros m s0. destruct (decide (n = m)) as [->|Hne].
    + rewrite lookup_insert_eq. intros [= <-]. destruct (ok_servers p Hok m s Hs) as [[H1 H2] H3].
      unfold server_ok. by rewrite Ha, Hb, Hc.
    + rewrite lookup_insert_ne by done. apply (ok_servers p Hok).
  - apply (ok_owners p Hok).
Qed.

(** Serving keeps the process in order. *)
Lemma on_server_ok {A} p n s (m : Srv A) :
  process_ok p → servers p !! n = Some s →
  safe (routed (senders s) (senders_by_dna s) (client_count s) (dom (p_channels p)) (request_book s)) m →
  ∃ r p', on_server n m p = (Ret r, p') ∧ process_ok p' ∧ workers p' = workers p.
Proof.
  intros Hok Hs Hm. unfold on_server. rewrite Hs.
  specialize (Hm {| server := s; channels := p_channels p |}).
  destruct (m _) as [[r| |] st]; cbn in Hm.
  - eexists r, _. split; [done|]. split; [|done].
    destruct Hm as (Ha & Hb & Hc & Hd & _ & Hr); [|by eapply process_ok_same].
    repeat split; try done. apply (ok_servers p Hok n s Hs).
  - destruct Hm. repeat split; try done. apply (ok_servers p Hok n s Hs).
  - destruct Hm. repeat split; try done. apply (ok_servers p Hok n s Hs).
Qed.

(** Requests are served. *)
Lemma serve_ok p i w s data :
  process_ok p → workers p !! i = Some w → servers p !! server_name w = Some s →
  serveable (senders_by_dna s) (request_book s) data →
  ∃ r p', on_server (server_name w) (serve data) p = (Ret r, p') ∧ process_ok p' ∧ workers p' = workers p.
Proof. intros Hok Hw Hs Hd. eapply on_server_ok; [done..|]. by apply routed_serve. Qed.

(** The channels of all workers, after one of them has got a new one. *)
Lemma receivers_insert (ws : gmap nat InMemoryWorker) i w d c j w' d' c' :
  ws !! i = Some w → receiver_per_dna w !! d = None →
  <[i := set_receivers (<[d := c]> (receiver_per_dna w)) w]> ws !! j = Some w' →
  receiver_per_dna w' !! d' = Some c' →
  (j = i ∧ d' = d ∧ c' = c ∧ server_name w' = server_name w) ∨
  ((j, d') ≠ (i, d) ∧ ∃ w0, ws !! j = Some w0 ∧ server_name w0 = server_name w' ∧
     receiver_per_dna w0 !! d' = Some c').
Proof.
  intros Hw Hnone Hj Hr. destruct (decide (i = j)) as [<-|Hne].
  - rewrite lookup_insert_eq in Hj. injection Hj as <-. cbn in Hr.
    destruct (decide (d = d')) as [<-|Hd].
    + rewrite lookup_insert_eq in Hr. injection Hr as <-. by left.
    + rewrite lookup_insert_ne in Hr by done. right. split; [congruence|]. by exists w.
  - rewrite lookup_insert_ne in Hj by done. right. split; [congruence|]. by exists w'.
Qed.

Lemma server_ok_register s i d c :
  no_colon d = true → server_ok s →
  server_ok (set_senders (<[chain_of i d := c]> (senders s))
    (<[d := <[agent_of i := c]> (default ∅ (senders_by_dna s !! d))]> (senders_by_dna s)) s).
Proof.
  intros Hd [H1 H2]. split; [|done]. cbn. intros d' a' Hd' Ha' Hs.
  apply lookup_insert_is_Some'. destruct (decide (d = d')) as [|Hne]; [by left|right].
  apply (H1 d' a'); [done..|]. rewrite lookup_insert_ne in Hs; [done|].
  intros Heq. apply chain_id_inj in Heq as [? _]; auto.
Qed.

Lemma process_ok_register p i w s d c :
  process_ok p → workers p !! i = Some w → servers p !! server_name w = Some s →
  no_colon d = true → receiver_per_dna w !! d = None → p_channels p !! c = None →
  process_ok
    {| servers := <[server_name w := set_senders (<[chain_of i d := c]> (senders s))
         (<[d := <[agent_of i := c]> (default ∅ (senders_by_dna s !! d))]> (senders_by_dna s)) s]>
         (servers p);
       p_channels := <[c := []]> (p_channels p);
       workers := <[i := set_receivers (<[d := c]> (receiver_per_dna w)) w]> (workers p);
       handled := handled p |}.
Proof.
  intros Hok Hw Hs Hd Hnone Hc. constructor; cbn.
  - intros j w'. destruct (decide (i = j)) as [<-|Hne].
    + rewrite lookup_insert_eq. intros [= <-]. cbn. rewrite lookup_insert_eq. by eexists.
    + rewrite lookup_insert_ne by done. intros Hw'. apply lookup_insert_is_Some'. right.
      by eapply ok_server.
  - intros j w' d' c' Hj Hr.
    destruct (receivers_insert _ _ _ _ _ _ _ _ _ Hw Hnone Hj Hr)
      as [(-> & -> & -> & Hn)|(Hne & w0 & Hw0 & Hn & Hr0)].
    + split; [done|]. cbn. split; [by rewrite lookup_insert_eq|]. rewrite Hn, lookup_insert_eq.
      eexists. split; [done|]. cbn. by rewrite lookup_insert_eq.
    + destruct (ok_connected p Hok j w0 d' c' Hw0 Hr0) as (Hd' & Hch & s0 & Hs0 & Hsend).
      split; [done|]. cbn. split; [by apply lookup_insert_is_Some'; right|]. rewrite <- Hn.
      destruct (decide (server_name w = server_name w0)) as [Heq|Hns].
      * rewrite Heq, lookup_insert_eq. eexists. split; [done|]. cbn.
        rewrite lookup_insert_ne; [rewrite Heq in Hs; by simplify_eq|].
        intros Hch'. apply chain_of_inj in Hch' as [-> ->]; done.
      * rewrite lookup_insert_ne by done. by exists s0.
  - intros n s'. destruct (decide (server_name w = n)) as [<-|Hne].
    + rewrite lookup_insert_eq. intros [= <-]. destruct (ok_servers p Hok _ _ Hs) as [H1 H2].
      split; [by apply server_ok_register|]. cbn. by rewrite (clients_of_update _ i w).
    + rewrite lookup_insert_ne by done. intros Hs'. by rewrite (clients_of_update _ i w); [apply ok_servers|..].
  - intros j k w1 w2 d1 d2 c' Hj Hk Hr1 Hr2.
    assert (Hfresh : ∀ l w0 d0, workers p !! l = Some w0 → receiver_per_dna w0 !! d0 ≠ Some c).
    { intros l w0 d0 Hl Hr0. destruct (ok_connected p Hok l w0 d0 c Hl Hr0) as (_ & [q Hq] & _).
      by rewrite Hc in Hq. }
    destruct (receivers_insert _ _ _ _ _ _ _ _ _ Hw Hnone Hj Hr1)
      as [(-> & -> & -> & _)|(_ & w0 & Hw0 & _ & Hr0)],
     (receivers_insert _ _ _ _ _ _ _ _ _ Hw Hnone Hk Hr2)
      as [(-> & -> & ? & _)|(_ & w0' & Hw0' & _ & Hr0')]; subst; try done;
      try (by edestruct Hfresh). by eapply ok_owners.
Qed.

(** Joining: a channel, then the requests for the lists. *)
Lemma open_channel_ok p i w msg :
  process_ok p → workers p !! i = Some w → sd_agent_id msg = agent_of i →
  no_colon (sd_space_address msg) = true →
  ∃ p' w' c, open_channel i w msg p = (Ret (Ok ()), p') ∧ process_ok p' ∧ workers p' !! i = Some w' ∧
    receiver_per_dna w' !! sd_space_address msg = Some c.
Proof.
  intros Hok Hw Ha Hd. unfold open_channel.
  destruct (receiver_per_dna w !! sd_space_address msg) as [c|] eqn:Hr; [by exists p, w, c|].
  destruct (ok_server p Hok i w Hw) as [s Hs]. set (c := fresh (dom (p_channels p))).
  assert (Hc : p_channels p !! c = None) by (apply not_elem_of_dom, is_fresh).
  unfold on_server; cbn. rewrite Hs, Ha. cbn. eexists _, _, c. split; [reflexivity|].
  split; [by apply (process_ok_register p i w s (sd_space_address msg) c)|].
  cbn. rewrite lookup_insert_eq. split; [done|]. cbn.
  by rewrite lookup_insert_eq.
Qed.

Lemma join_ok p i msg :
  process_ok p → allowed p i (Lib3hClientProtocol_JoinSpace msg) →
  ∃ r p', worker_receive i (Lib3hClientProtocol_JoinSpace msg) p = (Ret r, p') ∧ process_ok p'.
Proof.
  intros Hok (w & s & Hw & _ & Ha & Hd).
  destruct (open_channel_ok p i w msg Hok Hw Ha Hd) as (p1 & w1 & c & Hopen & Hok1 & Hw1 & Hr).
  unfold worker_receive, and_then, with_worker. rewrite Hw, Hopen, Hw1.
  destruct (ok_connected p1 Hok1 i w1 _ c Hw1 Hr) as (_ & Hc & s1 & Hs1 & Hsend).
  destruct (on_server_ok p1 (server_name w1) s1 (serve (Lib3hClientProtocol_JoinSpace msg)) Hok1 Hs1)
    as (r & p2 & Heq & Hok2 & _); [|by exists r, p2].
  eapply routed_join; [done| |unfold chain_of in Hsend; by rewrite Ha|by apply elem_of_dom].
  by rewrite Ha.
Qed.

Lemma receivers_delete (ws : gmap nat InMemoryWorker) i w d j w' d' c' :
  ws !! i = Some w →
  <[i := set_receivers (delete d (receiver_per_dna w)) w]> ws !! j = Some w' →
  receiver_per_dna w' !! d' = Some c' →
  (j, d') ≠ (i, d) ∧ ∃ w0, ws !! j = Some w0 ∧ server_name w0 = server_name w' ∧
    receiver_per_dna w0 !! d' = Some c'.
Proof.
  intros Hw Hj Hr. destruct (decide (i = j)) as [<-|Hne].
  - rewrite lookup_insert_eq in Hj. injection Hj as <-. cbn in Hr.
    apply lookup_delete_Some in Hr as [Hd Hr]. split; [congruence|]. by exists w.
  - rewrite lookup_insert_ne in Hj by done. split; [congruence|]. by exists w'.
Qed.

Lemma server_ok_unregister s chain_id d agents :
  server_ok s → server_ok (set_senders (delete chain_id (senders s)) (<[d := agents]> (senders_by_dna s)) s).
Proof.
  intros [H1 H2]. split; [|done]. cbn. intros d' a' Hd' Ha' [c Hc].
  apply lookup_delete_Some in Hc as [_ Hc]. apply lookup_insert_is_Some'. right. by apply (H1 d' a').
Qed.

Lemma process_ok_unregister p i w s d c agents :
  process_ok p → workers p !! i = Some w → servers p !! server_name w = Some s →
  no_colon d = true → receiver_per_dna w !! d = Some c →
  process_ok
    {| servers := <[server_name w := set_senders (delete (chain_of i d) (senders s))
         (<[d := agents]> (senders_by_dna s)) s]> (servers p);
       p_channels := delete c (p_channels p);
       workers := <[i := set_receivers (delete d (receiver_per_dna w)) w]> (workers p);
       handled := handled p |}.
Proof.
  intros Hok Hw Hs Hd Hrd. constructor; cbn.
  - intros j w'. destruct (decide (i = j)) as [<-|Hne].
    + rewrite lookup_insert_eq. intros [= <-]. cbn. rewrite lookup_insert_eq. by eexists.
    + rewrite lookup_insert_ne by done. intros Hw'. apply lookup_insert_is_Some'. right.
      by eapply ok_server.
  - intros j w' d' c' Hj Hr.
    destruct (receivers_delete _ _ _ _ _ _ _ _ Hw Hj Hr) as (Hne & w0 & Hw0 & Hn & Hr0).
    destruct (ok_connected p Hok j w0 d' c' Hw0 Hr0) as (Hd' & Hch & s0 & Hs0 & Hsend).
    assert (Hcc : c ≠ c').
    { intros <-. destruct (ok_owners p Hok i j w w0 d d' c Hw Hw0 Hrd Hr0). by subst. }
    split; [done|]. cbn. split; [by rewrite lookup_delete_ne|]. rewrite <- Hn.
    destruct (decide (server_name w = server_name w0)) as [Heq|Hns].
    + rewrite Heq, lookup_insert_eq. eexists. split; [done|]. cbn.
      rewrite lookup_delete_ne; [rewrite Heq in Hs; by simplify_eq|].
      intros Hch'. apply chain_of_inj in Hch' as [-> ->]; done.
    + rewrite lookup_insert_ne by done. by exists s0.
  - intros n s'. destruct (decide (server_name w = n)) as [<-|Hne].
    + rewrite lookup_insert_eq. intros [= <-]. destruct (ok_servers p Hok _ _ Hs) as [H1 H2].
      split; [by apply server_ok_unregister|]. cbn. by rewrite (clients_of_update _ i w).
    + rewrite lookup_insert_ne by done. intros Hs'. by rewrite (clients_of_update _ i w); [apply ok_servers|..].
  - intros j k w1 w2 d1 d2 c' Hj Hk Hr1 Hr2.
    destruct (receivers_delete _ _ _ _ _ _ _ _ Hw Hj Hr1) as (_ & w0 & Hw0 & _ & Hr0).
    destruct (receivers_delete _ _ _ _ _ _ _ _ Hw Hk Hr2) as (_ & w0' & Hw0' & _ & Hr0').
    by eapply ok_owners.
Qed.

Lemma close_channel_ok p i w msg :
  process_ok p → workers p !! i = Some w → sd_agent_id msg = agent_of i →
  no_colon (sd_space_address msg) = true →
  ∃ p', close_channel i w msg p = (Ret (Ok ()), p') ∧ process_ok p'.
Proof.
  intros Hok Hw Ha Hd. unfold close_channel. set (d := sd_space_address msg) in *.
  destruct (receiver_per_dna w !! d) as [c|] eqn:Hr; [|by exists p].
  destruct (ok_connected p Hok i w d c Hw Hr) as (_ & _ & s & Hs & Hsend).
  destruct (ok_servers p Hok _ _ Hs) as [[Hby _] _].
  destruct (Hby d (agent_of i)) as [agents Hag]; [done|auto|by eexists|].
  unfold on_server. rewrite Hs, Ha. unfold unregister_chain, mbind, Srv_bind; cbn.
  unfold chain_of in Hsend. rewrite Hsend. cbn. rewrite Hag. cbn. eexists. split; [reflexivity|].
  by apply (process_ok_unregister p i w s d c (delete (agent_of i) agents)).
Qed.

Lemma leave_ok p i msg :
  process_ok p → allowed p i (Lib3hClientProtocol_LeaveSpace msg) →
  ∃ r p', worker_receive i (Lib3hClientProtocol_LeaveSpace msg) p = (Ret r, p') ∧ process_ok p'.
Proof.
  intros Hok (w & s & Hw & Hs & Ha & Hd). unfold worker_receive, and_then.
  unfold with_worker at 1. rewrite Hw.
  destruct (serve_ok p i w s (Lib3hClientProtocol_LeaveSpace msg) Hok Hw Hs Logic.I)
    as (r & p1 & -> & Hok1 & Hws).
  destruct r as [x|e]; [|by eexists _, _]. unfold with_worker. rewrite Hws, Hw.
  destruct (close_channel_ok p1 i w msg Hok1) as (p2 & -> & Hok2); [by rewrite Hws|done..|].
  by eexists _, _.
Qed.

(** Whatever is allowed is answered. *)
Lemma receive_ok p i data :
  process_ok p → allowed p i data → ∃ r p', worker_receive i data p = (Ret r, p') ∧ process_ok p'.
Proof.
  intros Hok Hall. assert (Hall' := Hall). destruct Hall' as (w & s & Hw & Hs & Hdata).
  destruct (ok_servers p Hok _ _ Hs) as [[Hby _] _].
  assert (Hserve : serveable (senders_by_dna s) (request_book s) data →
    ∃ r p', with_worker i (λ w, on_server (server_name w) (serve data)) p = (Ret r, p') ∧ process_ok p').
  { intros Hd. unfold with_worker. rewrite Hw.
    destruct (serve_ok p i w s data Hok Hw Hs Hd) as (r & p' & ? & ? & _). by exists r, p'. }
  destruct data; cbn [worker_receive]; try (by apply Hserve).
  - by apply join_ok.
  - by apply leave_ok.
  - apply Hserve. cbn. destruct Hdata as [c Hc].
    destruct (ok_connected p Hok i w _ c Hw Hc) as (Hd & _ & s' & Hs' & Hsend). simplify_eq.
    apply (Hby _ (agent_of i)); [done|auto|by eexists].
  - eexists _, _. split; [reflexivity|]. by destruct Hok.
Qed.

Lemma lookup_foldr_delete (l : list nat) (m : Channels) c :
  c ∉ l → foldr delete m l !! c = m !! c.
Proof.
  induction l as [|x l IH]; [done|]. intros [Hx Hl]%not_elem_of_cons. cbn.
  rewrite lookup_delete_ne by done. by apply IH.
Qed.

(** The server after a client has gone: without routes if it was the last. *)
Lemma clock_out_ok p i w s :
  process_ok p → workers p !! i = Some w → servers p !! server_name w = Some s →
  ∃ s', on_server (server_name w) clock_out p =
      (Ret (Ok ()), {| servers := <[server_name w := s']> (servers p); p_channels := p_channels p;
                       workers := workers p; handled := handled p |}) ∧
    server_ok s' ∧ client_count s' = clients_of (server_name w) (delete i (workers p)) ∧
    (senders s' = senders s ∨ clients_of (server_name w) (delete i (workers p)) = 0).
Proof.
  intros Hok Hw Hs. destruct (ok_servers p Hok _ _ Hs) as [[Hby Hreq] Hcount].
  rewrite (clients_of_delete _ i w) in Hcount by done. rewrite decide_True in Hcount by done.
  unfold on_server. rewrite Hs. unfold clock_out, mbind, Srv_bind; cbn. rewrite Hcount. cbn.
  destruct (clients_of (server_name w) (delete i (workers p))) as [|k]; cbn; eexists;
    (split; [reflexivity|]); (split; [split; [|exact Hreq]|]); cbn; auto.
  intros d a _ _ [c Hc]. by rewrite lookup_empty in Hc.
Qed.

Lemma drop_ok p i :
  process_ok p → ∃ p', worker_drop i p = (Ret (Ok ()), p') ∧ process_ok p'.
Proof.
  intros Hok. unfold worker_drop. destruct (workers p !! i) as [w|] eqn:Hw; [|by exists p].
  destruct (ok_server p Hok i w Hw) as [s Hs].
  destruct (clock_out_ok p i w s Hok Hw Hs) as (s' & -> & Hs' & Hcount & Hsend). cbn.
  eexists. split; [reflexivity|]. constructor; cbn.
  - intros j w' [_ Hw']%lookup_delete_Some. apply lookup_insert_is_Some'. right. by eapply ok_server.
  - intros j w' d c [Hne Hw']%lookup_delete_Some Hr.
    destruct (ok_connected p Hok j w' d c Hw' Hr) as (Hd & Hch & s0 & Hs0 & Hs0c).
    split; [done|]. cbn. split.
    + rewrite lookup_foldr_delete; [done|]. intros Hin.
      apply list_elem_of_fmap in Hin as ([d' c'] & -> & Hin%elem_of_map_to_list).
      by destruct (ok_owners p Hok i j w w' d' d c' Hw Hw' Hin Hr) as [-> _].
    + destruct (decide (server_name w = server_name w')) as [Heq|Hns];
        [|by rewrite lookup_insert_ne by done; exists s0].
      rewrite <- Heq, lookup_insert_eq. exists s'. split; [done|].
      destruct Hsend as [->|Hzero]; [rewrite Heq in Hs; by simplify_eq|].
      rewrite (clients_of_delete _ j w') in Hzero by (by apply lookup_delete_Some).
      by rewrite decide_True in Hzero by done.
  - intros n s0. destruct (decide (server_name w = n)) as [<-|Hne].
    + rewrite lookup_insert_eq. by intros [= <-].
    + rewrite lookup_insert_ne by done. intros Hs0. destruct (ok_servers p Hok n s0 Hs0) as [H1 H2].
      split; [done|]. rewrite H2, (clients_of_delete _ i w) by done. by rewrite decide_False.
  - intros j k w1 w2 d1 d2 c [_ Hj]%lookup_delete_Some [_ Hk]%lookup_delete_Some.
    by apply (ok_owners p Hok).
Qed.

Lemma new_server_ok p n :
  process_ok p → servers p !! n = None →
  process_ok {| servers := <[n := InMemoryServer_new n]> (servers p); p_channels := p_channels p;
                workers := workers p; handled := handled p |}.
Proof.
  intros Hok Hs. assert (Hnone : ∀ j w, workers p !! j = Some w → server_name w ≠ n).
  { intros j w Hw <-. destruct (ok_server p Hok j w Hw) as [s Hs']. by rewrite Hs in Hs'. }
  constructor; cbn.
  - intros j w Hw. apply lookup_insert_is_Some'. right. by eapply ok_server.
  - intros j w d c Hw Hr. destruct (ok_connected p Hok j w d c Hw Hr) as (? & ? & s & ? & ?).
    split; [done|]. split; [done|]. exists s. cbn. rewrite lookup_insert_ne; [done|].
    intros ->. by eapply Hnone.
  - intros m s. destruct (decide (n = m)) as [<-|Hne].
    + rewrite lookup_insert_eq. intros [= <-]. split.
      { split; cbn; [intros d a _ _ [c Hc]|intros r c Hc]; by rewrite lookup_empty in Hc. }
      cbn. symmetry. apply map_size_empty_iff, map_eq. intros j. rewrite lookup_empty.
      apply map_lookup_filter_None. right. intros w Hw. by eapply Hnone.
    + rewrite lookup_insert_ne by done. apply (ok_servers p Hok).
  - apply (ok_owners p Hok).
Qed.

Lemma clock_in_ok p i n s :
  process_ok p → workers p !! i = None → servers p !! n = Some s →
  process_ok {| servers := <[n := set_client_count (1 + client_count s) s]> (servers p);
                p_channels := p_channels p;
                workers := <[i := {| receiver_per_dna := ∅; server_name := n;
                                     can_send_P2pReady := true |}]> (workers p);
                handled := handled p |}.
Proof.
  intros Hok Hi Hs.
  assert (Hold : ∀ j w, <[i := {| receiver_per_dna := ∅; server_name := n; can_send_P2pReady := true |}]>
      (workers p) !! j = Some w → ∀ d c, receiver_per_dna w !! d = Some c → workers p !! j = Some w).
  { intros j w Hj d c Hr. destruct (decide (i = j)) as [<-|Hne].
    - rewrite lookup_insert_eq in Hj. injection Hj as <-. cbn in Hr; by rewrite lookup_empty in Hr.
    - by rewrite lookup_insert_ne in Hj. }
  constructor; cbn.
  - intros j w Hj. apply lookup_insert_is_Some'. destruct (decide (i = j)) as [<-|Hne].
    + rewrite lookup_insert_eq in Hj. injection Hj as <-. by left.
    + rewrite lookup_insert_ne in Hj by done. right. by eapply ok_server.
  - intros j w d c Hj Hr. pose proof (Hold j w Hj d c Hr) as Hw.
    destruct (ok_connected p Hok j w d c Hw Hr) as (? & ? & s0 & Hs0 & Hsend).
    split; [done|]. split; [done|]. cbn. destruct (decide (n = server_name w)) as [->|Hne].
    + rewrite lookup_insert_eq. eexists. split; [done|]. cbn. by simplify_eq.
    + exists s0. by rewrite lookup_insert_ne.
  - intros m s0. rewrite clients_of_insert by done. cbn. destruct (decide (n = m)) as [<-|Hne].
    + rewrite lookup_insert_eq. intros [= <-]. destruct (ok_servers p Hok n s Hs) as [? Hc].
      split; [done|]. cbn. by rewrite Hc.
    + rewrite lookup_insert_ne by done. apply (ok_servers p Hok).
  - intros j k w1 w2 d1 d2 c Hj Hk Hr1 Hr2. eapply (ok_owners p Hok); [..|exact Hr1|exact Hr2]; eauto.
Qed.

Lemma new_ok p i n :
  process_ok p → workers p !! i = None →
  ∃ p', InMemoryWorker_new i n p = (Ret (Ok ()), p') ∧ process_ok p'.
Proof.
  intros Hok Hi. unfold InMemoryWorker_new, on_server.
  destruct (servers p !! n) as [s|] eqn:Hs; cbn; [rewrite Hs|rewrite lookup_insert_eq];
    cbn; eexists; (split; [reflexivity|]).
  - by apply (clock_in_ok p i n s).
  - apply (clock_in_ok _ i n (InMemoryServer_new n) (new_server_ok p n Hok Hs)); [done|]. cbn.
    apply lookup_insert_eq.
Qed.

(** Handing over keeps the channels. *)
Lemma take_one_same i p rc :
  workers (take_one i p rc) = workers p ∧ servers (take_one i p rc) = servers p ∧
  dom (p_channels (take_one i p rc)) = dom (p_channels p).
Proof.
  unfold take_one. destruct (p_channels p !! rc.2) as [[|m queue]|] eqn:Hq; try done. cbn.
  split; [done|]. split; [done|]. rewrite dom_insert_L.
  apply subseteq_union_1_L, singleton_subseteq_l. by apply elem_of_dom_2 in Hq.
Qed.

Lemma take_all_same i l p :
  let p' := foldl (take_one i) p l in
  workers p' = workers p ∧ servers p' = servers p ∧ dom (p_channels p') = dom (p_channels p).
Proof.
  revert p. induction l as [|rc l IH]; intros p; [done|]. cbn.
  destruct (IH (take_one i p rc)) as (-> & -> & ->). apply take_one_same.
Qed.

Lemma process_ok_dom p p' :
  process_ok p → workers p' = workers p → servers p' = servers p →
  dom (p_channels p') = dom (p_channels p) → process_ok p'.
Proof.
  intros Hok Hw Hs Hd. constructor; rewrite ?Hw, ?Hs; try apply Hok.
  intros i w d c Hi Hr. destruct (ok_connected p Hok i w d c Hi Hr) as (H1 & H2 & H3).
  split; [done|]. split; [|by rewrite Hs]. apply elem_of_dom. rewrite Hd. by apply elem_of_dom.
Qed.

Lemma process_ok_worker p i w w' :
  process_ok p → workers p !! i = Some w → receiver_per_dna w' = receiver_per_dna w →
  server_name w' = server_name w → process_ok (set_worker i w' p).
Proof.
  intros Hok Hw Hr Hn.
  assert (Hold : ∀ j v, <[i := w']> (workers p) !! j = Some v → ∃ v0, workers p !! j = Some v0 ∧
    receiver_per_dna v0 = receiver_per_dna v ∧ server_name v0 = server_name v).
  { intros j v Hj. destruct (decide (i = j)) as [<-|Hne].
    - rewrite lookup_insert_eq in Hj. injection Hj as <-. by exists w.
    - rewrite lookup_insert_ne in Hj by done. by exists v. }
  constructor; cbn.
  - intros j v (v0 & Hj & _ & <-)%Hold. by eapply ok_server.
  - intros j v d c (v0 & Hj & <- & Hnv)%Hold Hrc.
    destruct (ok_connected p Hok j v0 d c Hj Hrc) as (? & ? & ?). unfold connected. by rewrite <- Hnv.
  - intros n s Hs. rewrite (clients_of_update _ i w) by done. by apply ok_servers.
  - intros j k v1 v2 d1 d2 c (v01 & H1 & <- & _)%Hold (v02 & H2 & <- & _)%Hold.
    by apply (ok_owners p Hok).
Qed.

Lemma tick_ok p i : process_ok p → process_ok (worker_tick i p).
Proof.
  intros Hok. unfold worker_tick. destruct (workers p !! i) as [w|] eqn:Hw; [|done].
  set (p0 := if can_send_P2pReady w then _ else p).
  destruct (take_all_same i (map_to_list (receiver_per_dna w)) p0) as (H1 & H2 & H3).
  eapply process_ok_dom; [|done..]. unfold p0. destruct (can_send_P2pReady w); [|done].
  eapply (process_ok_dom (set_worker i _ p)); [|done..]. by eapply process_ok_worker.
Qed.

Lemma step_ok p p' : process_ok p → process_step p p' → process_ok p'.
Proof.
  intros Hok [i n Hi|i data Ha|i|i].
  - by destruct (new_ok p i n Hok Hi) as (p1 & -> & ?).
  - by destruct (receive_ok p i data Hok Ha) as (r & p1 & -> & ?).
  - by apply tick_ok.
  - by destruct (drop_ok p i Hok) as (p1 & -> & ?).
Qed.

Lemma init_ok : process_ok Process_init.
Proof. by constructor. Qed.

(** C17: Whatever workers are created, used, ticked and dropped in a process, in any order,
    the server in memory does not panic for clients that each act for an agent of their
    own, query where they joined and answer only lists they were asked for; dropping a
    worker succeeds; and each channel of a worker is open and is the one its
    server sends to for that agent. *)
Theorem memory_clients_are_safe p :
  rtc process_step Process_init p →
  (∀ i data, allowed p i data → ∃ r, (worker_receive i data p).1 = Ret r) ∧
  (∀ i, (worker_drop i p).1 = Ret (Ok ())) ∧
  (∀ i w d c, workers p !! i = Some w → receiver_per_dna w !! d = Some c →
     ∃ s, servers p !! server_name w = Some s ∧ senders s !! into_chain_id d (agent_of i) = Some c ∧
       is_Some (p_channels p !! c)).
Proof.
  intros Hrun. assert (Hok : process_ok p).
  { revert Hrun. generalize init_ok. generalize Process_init as p0. intros p0 Hp0 Hrun.
    induction Hrun; eauto using step_ok. }
  split; [|split].
  - intros i data Ha. destruct (receive_ok p i data Hok Ha) as (r & p' & -> & _). by exists r.
  - intros i. by destruct (drop_ok p i Hok) as (p' & -> & _).
  - intros i w d c Hw Hr. destruct (ok_connected p Hok i w d c Hw Hr) as (_ & ? & s & ? & ?). by exists s.
Qed.
End process.

(** ** Publishing *)

(** The message that has a node store an aspect. *)
Definition store_message (msg : ProvidedEntryData) (request_id : string) (aspect : EntryAspectData) :
    Lib3hServerProtocol :=
  Lib3hServerProtocol_HandleStoreEntryAspect request_id (pe_space_address msg)
    (pe_provider_agent_id msg) (pe_entry_address msg) aspect.

(** The channels after the same messages were sent to some of them. *)
Definition sent_to (cs : list nat) (l : list Lib3hServerProtocol) (before after : Channels) : Prop :=
  ∀ c, after !! c = if decide (c ∈ cs) then (λ q, q ++ l)%list <$> before !! c else before !! c.

Lemma sent_to_nil cs ch : sent_to cs [] ch ch.
Proof.
  intros c. case_decide; [|done]. destruct (ch !! c); cbn; [|done]. by rewrite app_nil_r.
Qed.

Lemma sent_to_trans cs l1 l2 ch1 ch2 ch3 :
  sent_to cs l1 ch1 ch2 → sent_to cs l2 ch2 ch3 → sent_to cs (l1 ++ l2)%list ch1 ch3.
Proof.
  intros H1 H2 c. rewrite (H2 c), (H1 c). case_decide; [|done]. destruct (ch1 !! c); cbn; [|done].
  by rewrite app_assoc.
Qed.

Lemma send_each_open (data : Lib3hServerProtocol) (l : list (string * nat)) s :
  NoDup l.*2 → (∀ c, c ∈ l.*2 → is_Some (channels s !! c)) →
  ∃ s', each (λ '(_, sender), send sender data) l s = (Ret (Ok ()), s') ∧ server s' = server s ∧
    sent_to l.*2 [data] (channels s) (channels s').
Proof.
  revert s. induction l as [|[a c] l IH]; intros s Hnd Hopen.
  { exists s. split; [done|]. split; [done|]. intros c. by rewrite decide_False by apply not_elem_of_nil. }
  cbn in Hnd. apply NoDup_cons in Hnd as [Hc Hnd]. cbn [each]. unfold mbind, Srv_bind, send at 1.
  destruct (Hopen c) as [q Hq]; [left|]. rewrite Hq.
  set (s1 := {| server := server s; channels := <[c := (q ++ [data])%list]> (channels s) |}).
  destruct (IH s1 Hnd) as (s' & -> & Hs & Hsent).
  { intros c' Hc'. cbn. apply lookup_insert_is_Some'. right. apply Hopen. by right. }
  exists s'. split; [done|]. split; [done|]. intros c'. rewrite (Hsent c'). cbn [channels s1].
  destruct (decide (c = c')) as [<-|Hne].
  - rewrite decide_False by done. rewrite decide_True by left. by rewrite lookup_insert_eq, Hq.
  - rewrite lookup_insert_ne by done. change ((a, c) :: l).*2 with (c :: l.*2).
    rewrite (decide_ext (c' ∈ c :: l.*2) (c' ∈ l.*2)); [done|]. rewrite elem_of_cons. naive_solver.
Qed.

Lemma send_each_gone (data : Lib3hServerProtocol) (l : list (string * nat)) c s :
  NoDup l.*2 → c ∈ l.*2 → channels s !! c = None →
  ∃ s', each (λ '(_, sender), send sender data) l s =
      (Ret (Err "sending on a disconnected channel"), s') ∧
    ∀ c' q, channels s !! c' = Some q →
      channels s' !! c' = Some q ∨ (c' ∈ l.*2 ∧ channels s' !! c' = Some (q ++ [data])%list).
Proof.
  revert s. induction l as [|[a c0] l IH]; intros s Hnd Hin Hgone; [by apply elem_of_nil in Hin|].
  change ((a, c0) :: l).*2 with (c0 :: l.*2) in *. apply NoDup_cons in Hnd as [Hc0 Hnd].
  cbn [each]. unfold mbind, Srv_bind, send at 1.
  destruct (channels s !! c0) as [q|] eqn:Hq; [|exists s; split; [done|]; auto].
  assert (Hne : c0 ≠ c) by (intros ->; congruence).
  destruct (IH {| server := server s; channels := <[c0 := (q ++ [data])%list]> (channels s) |} Hnd)
    as (s' & -> & Hs'); [by apply elem_of_cons in Hin as [->|]| |].
  { cbn. by rewrite lookup_insert_ne. }
  exists s'. split; [done|]. intros c' q' Hq'. destruct (decide (c0 = c')) as [<-|Hne'].
  - destruct (Hs' c0 (q ++ [data])%list) as [Heq|[? _]]; [apply lookup_insert_eq| |done].
    rewrite Hq in Hq'. injection Hq' as <-. right. split; [left|done].
  - destruct (Hs' c' q') as [Heq|[? Heq]]; [cbn; by rewrite lookup_insert_ne|by left|].
    right. split; [by right|done].
Qed.

Section publishing.
Variable msg : ProvidedEntryData.
Variable agents : gmap string nat.
Hypothesis agents_channels : NoDup (map_to_list agents).*2.

Lemma publish_aspect_all aspect s :
  senders_by_dna (server s) !! pe_space_address msg = Some agents →
  (∀ a c, agents !! a = Some c → is_Some (channels s !! c)) →
  ∃ request_id s', publish_aspect msg aspect s = (Ret (Ok ()), s') ∧
    senders_by_dna (server s') = senders_by_dna (server s) ∧
    sent_to (map_to_list agents).*2 [store_message msg request_id aspect] (channels s) (channels s').
Proof.
  intros Hdna Hopen. unfold publish_aspect, priv_generate_request_id, priv_send_all, mbind, Srv_bind.
  cbn. set (m := if book_has_aspect _ _ _ _ then _ else _).
  assert (Hm : senders_by_dna m = senders_by_dna (server s)) by (unfold m; by case_match).
  rewrite Hm, Hdna. eexists.
  edestruct send_each_open as (s' & Heq & Hs & Hsent); [exact agents_channels| |].
  2:{ exists s'. split; [exact Heq|]. rewrite Hs. split; [exact Hm|exact Hsent]. }
  intros c [[a c'] [-> Hin%elem_of_map_to_list]]%list_elem_of_fmap. by apply (Hopen a).
Qed.

Lemma publish_aspects_all aspects s :
  senders_by_dna (server s) !! pe_space_address msg = Some agents →
  (∀ a c, agents !! a = Some c → is_Some (channels s !! c)) →
  ∃ ids s', each (publish_aspect msg) aspects s = (Ret (Ok ()), s') ∧
    length ids = length aspects ∧
    sent_to (map_to_list agents).*2 (zip_with (store_message msg) ids aspects) (channels s) (channels s').
Proof.
  revert s. induction aspects as [|aspect aspects IH]; intros s Hdna Hopen.
  { exists [], s. split; [done|]. split; [done|]. apply sent_to_nil. }
  destruct (publish_aspect_all aspect s Hdna Hopen) as (request_id & s1 & Heq & Hs1 & Hsent1).
  destruct (IH s1) as (ids & s' & Heq' & Hlen & Hsent).
  - by rewrite Hs1.
  - intros a c Ha. rewrite (Hsent1 c), decide_True; [by apply fmap_is_Some, (Hopen a)|].
    apply list_elem_of_fmap. exists (a, c). split; [done|]. by apply elem_of_map_to_list.
  - exists (request_id :: ids), s'. cbn [each]. unfold mbind, Srv_bind. rewrite Heq.
    split; [done|]. split; [cbn; lia|]. cbn [zip_with].
    by apply (sent_to_trans _ [_] _ _ (channels s1)).
Qed.

(** Every aspect of an entry that is published is sent, once and in order, to all
    nodes of the application, if all of them are there. *)
Theorem publish_reaches_all s :
  into_chain_id (pe_space_address msg) (pe_provider_agent_id msg) ∈ trackdna_book (server s) →
  senders_by_dna (server s) !! pe_space_address msg = Some agents →
  (∀ a c, agents !! a = Some c → is_Some (channels s !! c)) →
  ∃ ids s', serve (Lib3hClientProtocol_PublishEntry msg) s = (Ret (Ok ()), s') ∧
    length ids = length (pe_aspect_list msg) ∧
    ∀ a c q, agents !! a = Some c → channels s !! c = Some q →
      channels s' !! c = Some (q ++ zip_with (store_message msg) ids (pe_aspect_list msg))%list.
Proof.
  intros Htrack Hdna Hopen.
  destruct (publish_aspects_all (pe_aspect_list msg) s Hdna Hopen) as (ids & s' & Heq & Hlen & Hsent).
  exists ids, s'. split; [|split; [done|]].
  - cbn [serve]. unfold priv_serve_PublishEntry, priv_check_or_fail, mbind, Srv_bind; cbn.
    by rewrite bool_decide_eq_true_2.
  - intros a c q Ha Hq. rewrite (Hsent c), decide_True, Hq; [done|].
    apply list_elem_of_fmap. exists (a, c). split; [done|]. by apply elem_of_map_to_list.
Qed.

(** C20: A node that is gone without having left blocks publishing: the first aspect that
    another node publishes ends with an error when the dead channel comes up, so that
    each of the others gets that aspect or not, depending on the order of the map, and
    none of them gets the rest. *)
Theorem gone_client_blocks_publishing aspect aspects gone c s :
  into_chain_id (pe_space_address msg) (pe_provider_agent_id msg) ∈ trackdna_book (server s) →
  senders_by_dna (server s) !! pe_space_address msg = Some agents →
  pe_aspect_list msg = aspect :: aspects → agents !! gone = Some c → channels s !! c = None →
  ∃ request_id s', serve (Lib3hClientProtocol_PublishEntry msg) s =
      (Ret (Err "sending on a disconnected channel"), s') ∧
    ∀ c' q, channels s !! c' = Some q →
      channels s' !! c' = Some q ∨
      channels s' !! c' = Some (q ++ [store_message msg request_id aspect])%list.
Proof.
  intros Htrack Hdna Haspects Hgone Hc. cbn [serve].
  unfold priv_serve_PublishEntry, priv_check_or_fail, mbind, Srv_bind; cbn.
  rewrite bool_decide_eq_true_2 by done. rewrite Haspects. cbn [each].
  unfold mbind, Srv_bind, publish_aspect at 1, priv_generate_request_id, priv_send_all, mbind, Srv_bind.
  cbn. set (m := if book_has_aspect _ _ _ _ then _ else _).
  assert (Hm : senders_by_dna m = senders_by_dna (server s)) by (unfold m; by case_match).
  rewrite Hm, Hdna. exists ("req_" +:+ pretty (1 + request_count m)). cbn.
  match goal with
  | |- context [each (λ '(_, sender), send sender ?data) ?l ?st] =>
      destruct (send_each_gone data l c st agents_channels) as (s' & Heq & Hsent)
  end.
  - apply list_elem_of_fmap. exists (gone, c). split; [done|]. by apply elem_of_map_to_list.
  - exact Hc.
  - exists s'. rewrite Heq. split; [done|]. intros c' q Hq. destruct (Hsent c' q Hq) as [?|[_ ?]]; eauto.
Qed.
End publishing.

(** ** Examples *)

Fixpoint ex_agent (i : nat) : string :=
  match i with
  | 0 => "a"
  | S i => String "a" (ex_agent i)
  end.

Lemma ex_agent_inj i j : ex_agent i = ex_agent j → i = j.
Proof.
  revert j. induction i as [|i IH]; intros [|j]; cbn; try done.
  - by destruct j.
  - by destruct i.
  - intros [= Heq]. by rewrite (IH j).
Qed.

Lemma ex_agent_ok i : no_colon (ex_agent i) = true.
Proof. by induction i. Qed.

Definition ex_space (i : nat) : SpaceData := {| sd_space_address := "app"; sd_agent_id := ex_agent i |}.
Definition ex_join (i : nat) (p : Process) : Process :=
  (worker_receive i (Lib3hClientProtocol_JoinSpace (ex_space i)) (InMemoryWorker_new i "net" p).2).2.
Definition ex_process : Process := ex_join 1 (ex_join 0 Process_init).

Definition ex_published : ProvidedEntryData :=
  {| pe_space_address := "app"; pe_provider_agent_id := ex_agent 0; pe_entry_address := "entry";
     pe_aspect_list := [{| aspect_address := "content"; aspect_content := "" |};
                        {| aspect_address := "header"; aspect_content := "" |}] |}.

Definition ex_state (p : Process) : MemoryState :=
  {| server := default (InMemoryServer_new "net") (servers p !! "net"); channels := p_channels p |}.

Definition ex_list : EntryListData :=
  {| el_space_address := "app"; el_provider_agent_id := ex_agent 0; el_request_id := "req_1";
     el_address_map := [("entry", ["content"; "header"])] |}.

Lemma memory_clients_are_safe_witness :
  ∃ r, (worker_receive 0 (Lib3hClientProtocol_HandleGetAuthoringEntryListResult ex_list)
          (ex_join 0 Process_init)).1 = Ret r.
Proof.
  apply (memory_clients_are_safe ex_agent ex_agent_inj ex_agent_ok (ex_join 0 Process_init)).
  - eapply rtc_l; [by apply (Process_new ex_agent Process_init 0 "net")|]. apply rtc_once.
    apply (Process_receive ex_agent _ 0 (Lib3hClientProtocol_JoinSpace (ex_space 0))).
    eexists _, _. split; [vm_compute; reflexivity|]. split; [vm_compute; reflexivity|]. by split.
  - eexists _, _. split; [vm_compute; reflexivity|]. split; [vm_compute; reflexivity|].
    vm_compute. by eexists.
Defined.

Lemma publish_reaches_all_witness :
  ∃ ids s', serve (Lib3hClientProtocol_PublishEntry ex_published) (ex_state ex_process) =
      (Ret (Ok ()), s') ∧ length ids = 2 ∧
    ∀ a c q, ({["a" := 0; "aa" := 1]} : gmap string nat) !! a = Some c →
      channels (ex_state ex_process) !! c = Some q →
      channels s' !! c = Some (q ++ zip_with (store_message ex_published) ids
        (pe_aspect_list ex_published))%list.
Proof.
  apply (publish_reaches_all ex_published {["a" := 0; "aa" := 1]}).
  - vm_compute. repeat constructor; set_solver.
  - apply elem_of_elements. vm_compute. by repeat constructor.
  - vm_compute. reflexivity.
  - intros a c [[_ <-]|[_ [_ <-]%lookup_singleton_Some]]%lookup_insert_Some; vm_compute; by eexists.
Defined.

(** Two nodes have joined, and the second is gone without having left. *)
Definition ex_gone : Process := (worker_drop 1 ex_process).2.

Lemma gone_client_blocks_publishing_witness :
  ∃ request_id s', serve (Lib3hClientProtocol_PublishEntry ex_published) (ex_state ex_gone) =
      (Ret (Err "sending on a disconnected channel"), s') ∧
    ∀ c' q, channels (ex_state ex_gone) !! c' = Some q →
      channels s' !! c' = Some q ∨
      channels s' !! c' = Some (q ++ [store_message ex_published request_id
        {| aspect_address := "content"; aspect_content := "" |}])%list.
Proof.
  apply (gone_client_blocks_publishing ex_published {["a" := 0; "aa" := 1]})
    with (aspects := [{| aspect_address := "header"; aspect_content := "" |}]) (gone := "aa") (c := 1).
  - vm_compute. repeat constructor; set_solver.
  - apply elem_of_elements. vm_compute. by repeat constructor.
  - vm_compute. reflexivity.
  - reflexivity.
  - vm_compute. reflexivity.
  - vm_compute. reflexivity.
Defined.
