(* ===== verification/Async.v ===== *)
(** * Asynchronous code of a node

    The workflows, validation functions and action creators of [core] are
    [async] Rust: they read the state of the instance, dispatch actions, wait in
    futures for the state to change and run callbacks of the application in
    WebAssembly, while the reducers and the other tasks of the node go on.  Such
    a function is a [Prog] here: a tree of calls to its surroundings, each with a
    continuation for every answer.  Nothing ties an answer to the answers before
    it, so the state may have changed in any way between two reads; what holds
    of all answers holds under every interleaving.

    [wp] is the program logic: it says that every call a program makes is
    permitted after the calls before it, and what holds when it is done.
    [run_to] runs a program against an oracle, which is how examples evaluate.

    Models the parts of [core/src/context.rs] that such code uses; a future of
    the code is a function of what one poll observes.  The [Ping]s by which the
    futures probe the action channel change nothing and are not recorded. *)

From stdpp Require Import base strings list gmap.
From Stdlib Require Import ZArith.
From S2P Require Import Prelude Errors WasmMemory CoreTypes Dna Storage Action Agent.
From S2P Require Import Network Nucleus DhtStore Instance.

Local Open Scope list_scope.

(** ** Data passed to the callbacks of an application *)

(** [core_types/src/validation.rs] *)
Inductive EntryLifecycle : Type :=
| EntryLifecycle_Chain
| EntryLifecycle_Dht
| EntryLifecycle_Meta.

Record ValidationData : Type := {
  package : ValidationPackage;
  lifecycle : EntryLifecycle;
}.

Inductive EntryValidationData (T : Type) : Type :=
| EntryValidationData_Create (entry : T) (validation_data : ValidationData)
| EntryValidationData_Modify (new_entry old_entry : T) (old_entry_header : ChainHeader)
    (validation_data : ValidationData)
| EntryValidationData_Delete (old_entry : T) (old_entry_header : ChainHeader)
    (validation_data : ValidationData).
Arguments EntryValidationData_Create {T} entry validation_data.
Arguments EntryValidationData_Modify {T} new_entry old_entry old_entry_header validation_data.
Arguments EntryValidationData_Delete {T} old_entry old_entry_header validation_data.

Inductive LinkValidationData : Type :=
| LinkValidationData_LinkAdd (link : LinkData) (validation_data : ValidationData)
| LinkValidationData_LinkRemove (link : LinkData) (validation_data : ValidationData).

(** [wasm_utils/src/api_serialization/validation.rs] *)
Inductive LinkDirection : Type :=
| LinkDirection_To
| LinkDirection_From.

#[export] Instance LinkDirection_eq_dec : EqDecision LinkDirection.
Proof. solve_decision. Defined.

(** What a callback gets as its parameters. *)
Inductive CallbackArgs : Type :=
| Args_EntryValidation (validation_data : EntryValidationData Entry)
| Args_AgentIdValidation (validation_data : EntryValidationData AgentId)
| Args_LinkValidation (entry_type : string) (link : Link) (direction : LinkDirection)
    (validation_data : LinkValidationData)
| Args_LinkValidationPackage (entry_type link_type : string) (direction : LinkDirection)
| Args_EntryType (app_entry_type : string)
| Args_Init
| Args_Receive (from : Address) (payload : string).

(** What a module does when one of its functions is invoked: it traps, gives no
    value or one that is not a word, or gives a word, with its memory then. *)
Inductive WasmReturn : Type :=
| Wasm_Trap (message : string)
| Wasm_NoValue
| Wasm_NotBits
| Wasm_Value (bits : Z) (memory : list Z).

(** What the interpreter makes of the code of a zome; [invoke] is the function
    called, from its argument and the memory it finds. *)
Inductive WasmRun : Type :=
| Wasm_ParseError (message : string)
| Wasm_NotInstantiated
| Wasm_StartFailed
| Wasm_Instance (memory : list Z) (invoke : Z → list Z → WasmReturn).

(** ** What a poll observes *)

(** The action channel is open, closed, or was never set up. *)
Inductive ChannelStatus : Type :=
| Channel_Open
| Channel_Closed
| Channel_Missing.

(** [try_state] gives the state unless it is locked. *)
Record PollInput : Type := {
  poll_channel : ChannelStatus;
  try_state : option State;
  poll_instant : Z;
}.

Definition action_channel_error (status : ChannelStatus) (msg : string) : option HolochainError :=
  match status with
  | Channel_Open => None
  | Channel_Closed => Some (HolochainError_LifecycleError msg)
  | Channel_Missing => Some (HolochainError_InitializationFailed msg)
  end.

(** A poll is pending ([None]) or ready, with the actions it dispatched. *)
Abbreviation Poll A := (Outcome (option (A * list Action))) (only parsing).

Definition poll_ready {A} (poll : PollInput → Poll A) (i : PollInput) : bool :=
  match poll i with Ret None => false | _ => true end.

(** ** Programs *)

Section programs.
Context `{Storage}.

Inductive Call : Type :=
| Call_state
| Call_now
| Call_instant
| Call_unique_id
| Call_fresh_text
| Call_dispatch (action : Action)
| Call_wasm (zome_name fn_name : string) (parameters : CallbackArgs)
| Call_await (ready : PollInput → bool)
| Call_spawn (zome_call : ZomeFnCall)
| Call_conductor (request : string)
| Call_signal (name : string) (arguments : JsonString)
| Call_sleep (nanos : Z).

(** The state comes with the storages that the chain and the DHT share.
    Dispatching gives the id of the new [ActionWrapper]; a request to the handler
    of the conductor may get no response. *)
Definition answer (c : Call) : Type :=
  match c with
  | Call_state => option (State * World)
  | Call_now => SystemTime
  | Call_instant => Z
  | Call_unique_id => ProcessUniqueId
  | Call_fresh_text | Call_dispatch _ => string
  | Call_wasm _ _ _ => WasmRun
  | Call_await _ => PollInput
  | Call_spawn _ | Call_signal _ _ | Call_sleep _ => ()
  | Call_conductor _ => option string
  end.

(** A future resolves at a poll that is ready; otherwise every answer is
    possible. *)
Definition allowed (c : Call) : answer c → Prop :=
  match c with
  | Call_await ready => λ i, ready i = true
  | _ => λ _, True
  end.

Inductive Prog (A : Type) : Type :=
| Finish (o : Outcome A)
| Do (c : Call) (k : answer c → Prog A).
Arguments Finish {A} o.
Arguments Do {A} c k.

Definition call (c : Call) : Prog (answer c) := Do c (λ x, Finish (Ret x)).

#[export] Instance Prog_ret : MRet Prog := λ _ x, Finish (Ret x).

#[export] Instance Prog_bind : MBind Prog := λ A B f,
  fix go (p : Prog A) : Prog B :=
    match p with
    | Finish (Ret a) => f a
    | Finish Panic => Finish Panic
    | Finish NoFuel => Finish NoFuel
    | Do c k => Do c (λ x, go (k x))
    end.

#[export] Instance Prog_fmap : FMap Prog := λ A B f p, x ← p; Finish (Ret (f x)).

(** One step with the answer it got. *)
Record Event : Type := Ev { ev_call : Call; ev_answer : answer ev_call }.

(** [wp permitted p h Q]: after the events [h], every call [p] makes is
    [permitted] by the events up to it, and [Q] holds of all events and the
    outcome when [p] is done. *)
Fixpoint wp {A} (permitted : list Event → Call → Prop) (p : Prog A) (h : list Event)
    (Q : list Event → Outcome A → Prop) : Prop :=
  match p with
  | Finish o => Q h o
  | Do c k =>
      permitted h c ∧ ∀ x, allowed c x → wp permitted (k x) (h ++ [Ev c x]) Q
  end.

(** A complete run: its events and its outcome. *)
Inductive runs {A} : Prog A → list Event → Outcome A → Prop :=
| runs_finish o : runs (Finish o) [] o
| runs_do c k x h o : allowed c x → runs (k x) h o → runs (Do c k) (Ev c x :: h) o.

Definition allowedb (c : Call) : answer c → bool :=
  match c with
  | Call_await ready => λ i, ready i
  | _ => λ _, true
  end.

(** The run against an oracle, which answers from the events so far, up to the
    first dispatch of an action that [stop] selects, or to a future that the
    oracle does not make ready: the events, and the program that is left. *)
Fixpoint run_to {A} (stop : Action → bool) (oracle : list Event → ∀ c, answer c) (p : Prog A)
    (h : list Event) : list Event * Prog A :=
  match p with
  | Finish o => (h, p)
  | Do c k =>
      if match c with Call_dispatch a => stop a | _ => false end then (h, p)
      else if allowedb c (oracle h c) then
        run_to stop oracle (k (oracle h c)) (h ++ [Ev c (oracle h c)])
      else (h, p)
  end.

End programs.

Arguments Finish {_ A} o.
Arguments Do {_ A} c k.

(** [m?] in code that returns a [Result]: go on with the value, or return the
    error. *)
Definition try {S : Storage} {E A B} (m : Prog (Result E A)) (f : A → Prog (Result E B)) :
    Prog (Result E B) :=
  r ← m;
  match r with
  | Ok x => f x
  | Err e => mret (Err e)
  end.

Notation "x ←? m ; k" := (try m (λ x, k))
  (at level 20, m at level 100, k at level 200, only parsing).
Notation "' pat ←? m ; k" := (try m (λ x, match x with pat => k end))
  (at level 20, pat pattern, m at level 100, k at level 200, only parsing).

(** ** What the code does with its context *)

Section context.
Context `{Storage}.

Definition lift_outcome {A} (o : Outcome A) : Prog A := Finish o.

Definition ret_ok {E A} (x : A) : Prog (Result E A) := Finish (Ret (Ok x)).
Definition ret_err {E A} (e : E) : Prog (Result E A) := Finish (Ret (Err e)).
Definition panic {A} : Prog A := Finish Panic.

Definition dispatch_action (a : Action) : Prog string := call (Call_dispatch a).

Fixpoint dispatch_all (l : list Action) : Prog () :=
  match l with
  | [] => mret ()
  | a :: l => _ ← dispatch_action a; dispatch_all l
  end.

(** [context.state().expect(..)]. *)
Definition state_expect : Prog (State * World) :=
  s ← call Call_state;
  match s with
  | Some s => mret s
  | None => panic
  end.

(** [context.state()?]: no state is [NoneError], a generic error. *)
Definition state_or_error : Prog (Result HolochainError (State * World)) :=
  s ← call Call_state;
  match s with
  | Some s => ret_ok s
  | None => ret_err (HolochainError_ErrorGeneric "Expected Some and got None")
  end.

(** [Context::get_dna]: the state is read until it has a DNA, twelve times at
    most. *)
Fixpoint get_dna_tries (n : nat) : Prog (option Dna) :=
  '(s, _) ← state_expect;
  match Nucleus.dna (st_nucleus s), n with
  | Some d, _ => mret (Some d)
  | None, O => mret None
  | None, S n => get_dna_tries n
  end.

Definition Context_get_dna : Prog (option Dna) := get_dna_tries 11.

(** [context.get_dna().expect(..)]. *)
Definition get_dna_expect : Prog Dna :=
  d ← Context_get_dna;
  match d with
  | Some d => mret d
  | None => panic
  end.

(** [.await] on a future, with what its last poll dispatched. *)
Definition await {A} (poll : PollInput → Poll A) : Prog A :=
  i ← call (Call_await (poll_ready poll));
  match poll i with
  | Ret (Some (x, dispatched)) => _ ← dispatch_all dispatched; mret x
  | Ret None | Panic => panic
  | NoFuel => Finish NoFuel
  end.

End context.

(** ** The program logic *)

Section logic.
Context `{Storage}.
Implicit Types (P : list Event → Call → Prop) (h : list Event).

Lemma wp_mono {A} P P' (p : Prog A) h (Q Q' : list Event → Outcome A → Prop) :
  (∀ h c, P h c → P' h c) → (∀ h o, Q h o → Q' h o) → wp P p h Q → wp P' p h Q'.
Proof.
  intros HP HQ. revert h. induction p as [o|c k IH]; intros h; cbn; [by apply HQ|].
  intros [Hc Hk]. split; [by apply HP|]. intros x Hx. apply IH, Hk, Hx.
Qed.

Lemma wp_bind {A B} P (p : Prog A) (f : A → Prog B) h Q :
  wp P (p ≫= f) h Q ↔
  wp P p h (λ h o, match o with
                   | Ret a => wp P (f a) h Q
                   | Panic => Q h Panic
                   | NoFuel => Q h NoFuel
                   end).
Proof.
  revert h. induction p as [[]|c k IH]; intros h; [done..|].
  change (Do c k ≫= f) with (Do c (λ x, k x ≫= f)). cbn.
  split; (intros [? Hk]; split; [done|]; intros x Hx; apply IH, Hk, Hx).
Qed.

Lemma wp_try {E A B} P (m : Prog (Result E A)) (f : A → Prog (Result E B)) h Q :
  wp P (try m f) h Q ↔
  wp P m h (λ h o, match o with
                   | Ret (Ok x) => wp P (f x) h Q
                   | Ret (Err e) => Q h (Ret (Err e))
                   | Panic => Q h Panic
                   | NoFuel => Q h NoFuel
                   end).
Proof.
  unfold try. rewrite wp_bind.
  split; apply wp_mono; try done; by intros h' [[]| |].
Qed.

Lemma wp_ret {A} P (x : A) h (Q : list Event → Outcome A → Prop) :
  wp P (mret x) h Q ↔ Q h (Ret x).
Proof. done. Qed.

Lemma wp_call P c h Q :
  wp P (call c) h Q ↔ P h c ∧ ∀ x, allowed c x → Q (h ++ [Ev c x]) (Ret x).
Proof. done. Qed.

(** The events before stay in place. *)
Lemma wp_extends {A} P (p : Prog A) h Q :
  wp P p h Q → wp P p h (λ h' o, h `prefix_of` h' ∧ Q h' o).
Proof.
  revert h. induction p as [o|c k IH]; intros h; cbn; [done|].
  intros [? Hk]. split; [done|]. intros x Hx.
  eapply wp_mono, (IH _ _ (Hk x Hx)); [done|].
  intros h' o [Hpre ?]. split; [|done]. etrans; [|done]. by apply prefix_app_r.
Qed.

(** The rule for a call of a function about which a lemma is known: what holds
    of its own events and outcome is all that is used of it. *)
Lemma wp_frame {A} P P' (p : Prog A) h Q Q' :
  wp P p h Q → (∀ h c, P h c → P' h c) →
  (∀ h' o, h `prefix_of` h' → Q h' o → Q' h' o) → wp P' p h Q'.
Proof. intros Hp HP HQ. eapply wp_mono, wp_extends, Hp; [done|]. naive_solver. Qed.

Lemma wp_and {A} P P' (p : Prog A) h Q Q' :
  wp P p h Q → wp P' p h Q' → wp (λ h c, P h c ∧ P' h c) p h (λ h o, Q h o ∧ Q' h o).
Proof.
  revert h. induction p as [o|c k IH]; intros h; cbn; [done|].
  intros [? Hk] [? Hk']. split; [done|]. intros x Hx. by apply IH; [apply Hk|apply Hk'].
Qed.

Lemma wp_runs {A} P (p : Prog A) h Q t o : wp P p h Q → runs p t o → Q (h ++ t) o.
Proof.
  intros Hp Hr. revert h Hp. induction Hr as [o|c k x t o Hx _ IH]; intros h Hp.
  - by rewrite app_nil_r.
  - destruct Hp as [_ Hk]. specialize (IH _ (Hk x Hx)). by rewrite <- app_assoc in IH.
Qed.

(** Every call of a run, finished or not, was permitted. *)
Inductive after {A} : Prog A → list Event → Prog A → Prop :=
| after_start p : after p [] p
| after_step c k x t p : allowed c x → after (k x) t p → after (Do c k) (Ev c x :: t) p.

Lemma wp_after {A} P (p p' : Prog A) h Q t :
  wp P p h Q → after p t p' → wp P p' (h ++ t) Q.
Proof.
  intros Hp Ha. revert h Hp. induction Ha as [p|c k x t p Hx _ IH]; intros h Hp.
  - by rewrite app_nil_r.
  - destruct Hp as [_ Hk]. specialize (IH _ (Hk x Hx)). by rewrite <- app_assoc in IH.
Qed.

Lemma wp_permitted {A} P (p : Prog A) Q t c k :
  wp P p [] Q → after p t (Do c k) → P t c.
Proof. intros Hp Ha. by destruct (wp_after P p _ [] Q t Hp Ha). Qed.

(** A run against an oracle is a run. *)
Lemma run_to_after {A} stop oracle (p : Prog A) h :
  ∃ t, (run_to stop oracle p h).1 = h ++ t ∧ after p t (run_to stop oracle p h).2.
Proof.
  revert h. induction p as [o|c k IH]; intros h; cbn.
  - exists []. rewrite app_nil_r. split; [done|constructor].
  - destruct (match c with Call_dispatch a => stop a | _ => false end);
      [exists []; rewrite app_nil_r; split; [done|constructor]|].
    destruct (allowedb c (oracle h c)) eqn:Ha;
      [|exists []; rewrite app_nil_r; split; [done|constructor]].
    destruct (IH (oracle h c) (h ++ [Ev c (oracle h c)])) as (t & -> & Hr).
    exists (Ev c (oracle h c) :: t). rewrite <- app_assoc. split; [done|].
    constructor; [|done]. by destruct c.
Qed.

Lemma after_runs {A} (p : Prog A) t o : after p t (Finish o) → runs p t o.
Proof.
  remember (Finish o) as q eqn:Hq. induction 1 as [p|c k x t p Hx _ IH]; subst; constructor; auto.
Qed.

(** The action that a program is about to dispatch, and the outcome it has. *)
Definition next_dispatch {A} (p : Prog A) : option Action :=
  match p with Do (Call_dispatch a) _ => Some a | _ => None end.

Definition finished {A} (p : Prog A) : option (Outcome A) :=
  match p with Finish o => Some o | _ => None end.

Lemma next_dispatch_after {A} stop oracle (p : Prog A) a :
  next_dispatch (run_to stop oracle p []).2 = Some a →
  ∃ k, after p (run_to stop oracle p []).1 (Do (Call_dispatch a) k).
Proof.
  destruct (run_to_after stop oracle p []) as (t & Ht & Ha). cbn in Ht. rewrite Ht.
  destruct (run_to stop oracle p []).2 as [|[] k]; cbn; try done. intros [= ->]. by exists k.
Qed.

Lemma finished_runs {A} stop oracle (p : Prog A) o :
  finished (run_to stop oracle p []).2 = Some o → runs p (run_to stop oracle p []).1 o.
Proof.
  destruct (run_to_after stop oracle p []) as (t & Ht & Ha). cbn in Ht. rewrite Ht.
  destruct (run_to stop oracle p []).2; [|done]. intros [= ->]. by apply after_runs.
Qed.

(** A future resolves with what some ready poll gives; what it dispatches then
    is dispatched. *)
Lemma wp_dispatch_all P l h (Q : list Event → Outcome () → Prop) :
  (∀ h' a, a ∈ l → h `prefix_of` h' → P h' (Call_dispatch a)) →
  (∀ h', h `prefix_of` h' → Q h' (Ret ())) → wp P (dispatch_all l) h Q.
Proof.
  revert h. induction l as [|a l IH]; intros h HP HQ; cbn; [by apply HQ|].
  split; [apply HP; [apply elem_of_cons; by left|done]|]. intros x _. apply IH.
  - intros h' b Hb Hpre. apply HP; [apply elem_of_cons; by right|].
    etrans; [|done]. by apply prefix_app_r.
  - intros h' Hpre. apply HQ. etrans; [|done]. by apply prefix_app_r.
Qed.

Lemma wp_await {A} P (poll : PollInput → Poll A) h (Q : list Event → Outcome A → Prop) :
  P h (Call_await (poll_ready poll)) →
  (∀ i x l, poll i = Ret (Some (x, l)) →
    (∀ h' a, a ∈ l → h `prefix_of` h' → P h' (Call_dispatch a)) ∧
    ∀ h', (h ++ [Ev (Call_await (poll_ready poll)) i]) `prefix_of` h' → Q h' (Ret x)) →
  (∀ i, poll i = Panic → Q (h ++ [Ev (Call_await (poll_ready poll)) i]) Panic) →
  (∀ i, poll i = NoFuel → Q (h ++ [Ev (Call_await (poll_ready poll)) i]) NoFuel) →
  wp P (await poll) h Q.
Proof.
  intros HP HQ Hpanic Hfuel. unfold await. apply wp_bind, wp_call. split; [done|].
  intros i Hi. cbn in Hi. unfold poll_ready in Hi at 1.
  destruct (poll i) as [[[x l]|]| |] eqn:Hpoll; [|done|by apply Hpanic|by apply Hfuel].
  destruct (HQ i x l Hpoll) as [HPl HQx].
  apply wp_bind, wp_dispatch_all.
  - intros h' a Ha Hpre. apply HPl; [done|]. etrans; [|done]. by apply prefix_app_r.
  - intros h' Hpre. by apply HQx.
Qed.

(** Reading the state, and the DNA in it, is one kind of call only. *)
Lemma wp_state_expect P h Q :
  P h Call_state →
  (∀ s w, Q (h ++ [Ev Call_state (Some (s, w))]) (Ret (s, w))) →
  Q (h ++ [Ev Call_state None]) Panic →
  wp P state_expect h Q.
Proof. intros HP HQ Hn. split; [done|]. intros [[s w]|] _; [apply HQ|apply Hn]. Qed.

Lemma wp_state_or_error P h Q :
  P h Call_state →
  (∀ s w, Q (h ++ [Ev Call_state (Some (s, w))]) (Ret (Ok (s, w)))) →
  (∀ e, Q (h ++ [Ev Call_state None]) (Ret (Err e))) →
  wp P state_or_error h Q.
Proof. intros HP HQ Hn. split; [done|]. intros [[s w]|] _; [apply HQ|apply Hn]. Qed.

(** The DNA was in a state that was read. *)
Definition dna_read (h : list Event) (d : Dna) : Prop :=
  ∃ s w, Ev Call_state (Some (s, w)) ∈ h ∧ Nucleus.dna (st_nucleus s) = Some d.

Lemma wp_get_dna P h (Q : list Event → Outcome (option Dna) → Prop) :
  (∀ h, P h Call_state) →
  (∀ h' d, h `prefix_of` h' → dna_read h' d → Q h' (Ret (Some d))) →
  (∀ h', h `prefix_of` h' → Q h' (Ret None) ∧ Q h' Panic) → wp P Context_get_dna h Q.
Proof.
  intros HP HQ HN. unfold Context_get_dna. generalize 11%nat. intros n.
  revert h HQ HN. induction n as [|n IH]; intros h HQ HN; cbn [get_dna_tries];
    apply wp_bind, wp_state_expect; try apply HP; try (apply HN; by apply prefix_app_r);
    intros s w; destruct (Nucleus.dna (st_nucleus s)) as [d|] eqn:Hd;
    try (apply HQ; [by apply prefix_app_r|]; exists s, w; split; [|done];
         apply elem_of_app; right; by apply list_elem_of_singleton).
  - apply HN. by apply prefix_app_r.
  - apply IH.
    + intros h' d Hpre. apply HQ. etrans; [|done]. by apply prefix_app_r.
    + intros h' Hpre. apply HN. etrans; [|done]. by apply prefix_app_r.
Qed.

Lemma wp_get_dna_expect P h (Q : list Event → Outcome Dna → Prop) :
  (∀ h, P h Call_state) →
  (∀ h' d, h `prefix_of` h' → dna_read h' d → Q h' (Ret d)) →
  (∀ h', h `prefix_of` h' → Q h' Panic) → wp P get_dna_expect h Q.
Proof.
  intros HP HQ Hp. unfold get_dna_expect. apply wp_bind, wp_get_dna; [done|naive_solver|].
  intros h' Hpre. split; by apply Hp.
Qed.

End logic.
