(* ===== verification/Ribosome.v ===== *)
(** * The ribosome: running the WebAssembly of a zome

    Models [core/src/wasm_engine]: the host's view of the memory of a module
    ([memory.rs]), the exchange of JSON with it ([runtime.rs]), the run of one
    function of a zome ([run_dna.rs], [factories.rs]) and the callbacks built on
    it ([callback/mod.rs], [callback/init.rs], [callback/receive.rs]).

    The interpreter ([wasmi]) and the code of the zome are outside; what they do
    is the answer to a [Call_wasm].  Bytes are [Z]s; a JSON text is the string of
    its bytes.  Where a message of the code ends in a dump of the call, the
    model's ends before it.

    The theorems: what the host stores, the zome reads, and the reverse; and the
    messages of the errors that [run_dna] gives. *)

From stdpp Require Import base strings list gmap.
From Stdlib Require Import ZArith Ascii.
From S2P Require Import Prelude Errors WasmMemory CoreTypes Dna Storage Action Agent.
From S2P Require Import Network Nucleus DhtStore Instance Async.

(** ** Bytes and JSON *)

Definition bytes_of_string (s : string) : list Z :=
  (λ a, Z.of_N (N_of_ascii a)) <$> String.list_ascii_of_string s.

Definition string_of_bytes (l : list Z) : string :=
  String.string_of_list_ascii ((λ b, ascii_of_N (Z.to_N b)) <$> l).

(** [JsonString::null()] and [is_null]. *)
Definition json_null : JsonString := "null".
Definition json_is_null (j : JsonString) : bool := String.eqb j json_null.

(** The JSON of the parameters of a callback and of a validation package
    definition ([serde]), and [JsonString::from_json], which cleans a text up. *)
Class JsonApi : Type := {
  args_json : CallbackArgs → JsonString;
  from_json : string → JsonString;
  package_definition_json : ValidationPackageDefinition → JsonString;
  package_definition_of_json : JsonString → option ValidationPackageDefinition;
}.

(** What [serde] writes, it reads back, and a definition is never written as
    [null]. *)
Class JsonApiLaws `{JsonApi} : Prop := {
  package_definition_inverse d :
    package_definition_of_json (package_definition_json d) = Some d;
  package_definition_not_null d : package_definition_json d ≠ json_null;
}.

(** ** memory.rs *)

Record WasmPageManager : Type := {
  stack : WasmStack;
  wasm_memory : list Z;
}.

Definition WasmPageManager_new (memory : list Z) : WasmPageManager :=
  {| stack := WasmStack_new; wasm_memory := memory |}.

Definition page_allocate (self : WasmPageManager) (length : Z) :
    Result AllocationError WasmAllocation * WasmPageManager :=
  match next_allocation (stack self) length with
  | Err e => (Err e, self)
  | Ok allocation =>
      match allocate (stack self) allocation with
      | (Err e, s) => (Err e, {| stack := s; wasm_memory := wasm_memory self |})
      | (Ok top, s) =>
          (WasmAllocation_new top length, {| stack := s; wasm_memory := wasm_memory self |})
      end
  end.

(** [MemoryRef::set] and [get] of [wasmi] fail out of the memory; the code
    panics then. *)
Definition memory_set (mem : list Z) (offset : Z) (data : list Z) : option (list Z) :=
  let o := Z.to_nat offset in
  if Nat.leb (o + length data) (length mem) then
    Some (take o mem ++ data ++ drop (o + length data) mem)%list
  else None.

Definition memory_get (mem : list Z) (offset length : Z) : option (list Z) :=
  let o := Z.to_nat offset in
  let n := Z.to_nat length in
  if Nat.leb (o + n) (List.length mem) then Some (take n (drop o mem)) else None.

Definition page_write (self : WasmPageManager) (data : list Z) :
    Outcome (Result AllocationError WasmAllocation * WasmPageManager) :=
  if Z.ltb MEMORY_INT_MAX (Z.of_nat (length data)) then Ret (Err OutOfBounds, self)
  else
    match data with
    | [] => Ret (Err ZeroLength, self)
    | _ =>
        match page_allocate self (u32_wrap (Z.of_nat (length data))) with
        | (Err e, self) => Ret (Err e, self)
        | (Ok mem_buf, self) =>
            m ← unwrap (memory_set (wasm_memory self) (offset mem_buf) data);
            Ret (Ok mem_buf, {| stack := stack self; wasm_memory := m |})
        end
    end.

Definition page_read (self : WasmPageManager) (allocation : WasmAllocation) : Outcome (list Z) :=
  unwrap (memory_get (wasm_memory self) (offset allocation) (length_ allocation)).

(** ** runtime.rs *)

(** The argument of an API function of the host: the JSON the zome wrote. *)
Definition load_json_string_from_args `{JsonApi} (self : WasmPageManager) (encoded : Z) :
    Outcome JsonString :=
  return_code ← RibosomeEncodedValue_from_bits encoded;
  match return_code with
  | Success => Ret json_null
  | Failure _ => Panic
  | Allocation ribosome_allocation =>
      match WasmAllocation_try_from ribosome_allocation with
      | Err _ => Panic
      | Ok allocation =>
          bin_arg ← page_read self allocation;
          if utf8_valid bin_arg then Ret (from_json (string_of_bytes bin_arg)) else Panic
      end
  end.

(** The bytes are followed by a zero, where the zome stops reading. *)
Definition store_as_json_string (self : WasmPageManager) (j : JsonString) :
    Outcome (Z * WasmPageManager) :=
  r ← page_write self (bytes_of_string j ++ [0%Z])%list;
  Ret match r with
      | (Err _, self) => (RibosomeEncodedValue_to_bits (Failure Unspecified), self)
      | (Ok allocation, self) =>
          (RibosomeEncodedValue_to_bits (Allocation (RibosomeEncodedAllocation_from allocation)),
           self)
      end.

(** ** run_dna.rs *)

Section run.
Context `{Storage} `{JsonApi}.

(** The type name is passed as it is, everything else as JSON. *)
Definition args_bytes (parameters : CallbackArgs) : list Z :=
  match parameters with
  | Args_EntryType app_entry_type => bytes_of_string app_entry_type
  | _ => bytes_of_string (args_json parameters)
  end.

(** The word that a function of the zome returned, in the memory it left. *)
Definition decode_return (bits : Z) (memory : list Z) : Outcome (Result HolochainError JsonString) :=
  return_code ← RibosomeEncodedValue_from_bits bits;
  match return_code with
  | Success => Ret (Ok json_null)
  | Failure err_code =>
      Ret (Err (HolochainError_RibosomeFailed
                  ("Zome function failure: " +:+ RibosomeErrorCode_as_str err_code)))
  | Allocation ribosome_allocation =>
      match WasmAllocation_try_from ribosome_allocation with
      | Err _ => Ret (Err (HolochainError_RibosomeFailed "WASM return value allocation failed: "))
      | Ok allocation =>
          result ← unwrap (memory_get memory (offset allocation) (length_ allocation));
          Ret (if utf8_valid result then Ok (from_json (string_of_bytes result))
               else Err (HolochainError_RibosomeFailed "WASM failed to return value: "))
      end
  end.

(** [run_dna] on the module of the zome. *)
Definition run_wasm (input_parameters : list Z) (r : WasmRun) :
    Outcome (Result HolochainError JsonString) :=
  match r with
  | Wasm_ParseError message => Ret (Err (HolochainError_ErrorGeneric message))
  | Wasm_NotInstantiated => Panic
  | Wasm_StartFailed => Ret (Err (HolochainError_RibosomeFailed "Module failed to start"))
  | Wasm_Instance memory invoke =>
      '(maybe_allocation, manager) ← page_write (WasmPageManager_new memory) input_parameters;
      match maybe_allocation with
      | Err ZeroLength | Ok _ =>
          let encoded_allocation_of_input :=
            match maybe_allocation with
            | Ok allocation =>
                RibosomeEncodedValue_to_bits
                  (Allocation (RibosomeEncodedAllocation_from allocation))
            | Err _ => RibosomeEncodedValue_to_bits Success
            end in
          match invoke encoded_allocation_of_input (wasm_memory manager) with
          | Wasm_Trap message =>
              Ret (Err (HolochainError_RibosomeFailed
                          ("WASM invocation failed: " +:+ message +:+ ". data = ")))
          | Wasm_NoValue => Panic
          | Wasm_NotBits =>
              Ret (Err (HolochainError_RibosomeFailed "WASM return value missing. data = "))
          | Wasm_Value bits memory => decode_return bits memory
          end
      | Err _ => Ret (Err (HolochainError_RibosomeFailed "WASM Memory issue: "))
      end
  end.

(** [get_module] for a callback: the zome must be in the DNA of the nucleus. *)
Definition get_module (zome_name : string) : Prog (Result HolochainError ()) :=
  '(s, _) ←? state_or_error;
  match Nucleus.dna (st_nucleus s) with
  | None => panic
  | Some dna =>
      match btree_get (zomes dna) zome_name with
      | Some _ => ret_ok ()
      | None => ret_err (HolochainError_ErrorGeneric
                           ("No Ribosome found for Zome '" +:+ zome_name +:+ "'"))
      end
  end.

Definition run_dna (zome_name fn_name : string) (parameters : CallbackArgs) :
    Prog (Result HolochainError JsonString) :=
  _ ←? get_module zome_name;
  r ← call (Call_wasm zome_name fn_name parameters);
  lift_outcome (run_wasm (args_bytes parameters) r).

(** ** callback/mod.rs, callback/init.rs and callback/receive.rs *)

Inductive CallbackResult : Type :=
| CallbackResult_Pass
| CallbackResult_Fail (msg : string)
| CallbackResult_NotImplemented (reason : string)
| CallbackResult_ValidationPackageDefinition (def : ValidationPackageDefinition)
| CallbackResult_ReceiveResult (result : string).

Inductive Callback : Type :=
| Callback_MissingNo
| Callback_Init
| Callback_Receive.

Definition Callback_from_str (s : string) : Result string Callback :=
  if String.eqb s "init" then Ok Callback_Init
  else if String.eqb s "receive" then Ok Callback_Receive
  else if String.eqb s "" then Ok Callback_MissingNo
  else Err "Cannot convert string to Callback".

Definition Callback_as_str (c : Callback) : string :=
  match c with
  | Callback_MissingNo => ""
  | Callback_Init => "init"
  | Callback_Receive => "receive"
  end.

Definition Callback_index (c : Callback) : nat :=
  match c with
  | Callback_MissingNo => 0
  | Callback_Init => 1
  | Callback_Receive => 2
  end.

Definition Callback_str_to_index (s : string) : nat :=
  match Callback_from_str s with
  | Ok i => Callback_index i
  | Err _ => Callback_index Callback_MissingNo
  end.

Definition Callback_from_index (i : nat) : Callback :=
  match i with
  | 1 => Callback_Init
  | 2 => Callback_Receive
  | _ => Callback_MissingNo
  end.

Definition run_callback (zome_name fn_name : string) (parameters : CallbackArgs) :
    Prog CallbackResult :=
  r ← run_dna zome_name fn_name parameters;
  mret match r with
       | Ok call_result =>
           if json_is_null call_result then CallbackResult_Pass
           else CallbackResult_Fail call_result
       | Err _ => CallbackResult_NotImplemented "run_callback"
       end.

Definition Callback_call (zome : string) (function : Callback) (params : CallbackArgs) :
    Prog CallbackResult :=
  dna ← get_dna_expect;
  match get_wasm_from_zome_name dna zome with
  | None => mret (CallbackResult_NotImplemented "call/1")
  | Some [] => mret (CallbackResult_NotImplemented "call/2")
  | Some _ => run_callback zome (Callback_as_str function) params
  end.

Definition init (zome : string) (params : CallbackArgs) : Prog CallbackResult :=
  Callback_call zome Callback_Init params.

Definition receive (zome : string) (parameters : CallbackArgs) : Prog CallbackResult :=
  match parameters with
  | Args_Receive _ _ =>
      r ← run_dna zome (Callback_as_str Callback_Receive) parameters;
      mret match r with
           | Ok call_result => CallbackResult_ReceiveResult call_result
           | Err err => CallbackResult_Fail (HolochainError_fmt err)
           end
  | _ => mret (CallbackResult_NotImplemented "receive/1")
  end.

End run.

(** ** The host and the zome share the memory *)

(** A write of the host that fits takes the bytes at the top of its stack. *)
Lemma page_write_ok self data :
  is_u32 (top (stack self)) → data ≠ [] →
  (top (stack self) + Z.of_nat (length data) ≤ U32_MAX)%Z →
  (Z.to_nat (top (stack self)) + length data ≤ length (wasm_memory self))%nat →
  page_write self data =
    Ret (Ok {| offset := top (stack self); length_ := Z.of_nat (length data) |},
         {| stack := {| top := top (stack self) + Z.of_nat (length data) |};
            wasm_memory := take (Z.to_nat (top (stack self))) (wasm_memory self) ++ data ++
              drop (Z.to_nat (top (stack self)) + length data) (wasm_memory self) |}).
Proof.
  unfold is_u32. intros [Ht _] Hne Hmax Hm.
  assert (0 < Z.of_nat (length data))%Z by (destruct data; [done|simpl; lia]).
  unfold page_write. destruct (Z.ltb_spec MEMORY_INT_MAX (Z.of_nat (length data)));
    [unfold MEMORY_INT_MAX in *; lia|].
  destruct data as [|b data]; [done|]. remember (b :: data) as bs eqn:Hbs. clear Hbs b data Hne.
  rewrite u32_wrap_id by (unfold is_u32, U32_MAX in *; lia).
  unfold page_allocate, next_allocation. rewrite WasmAllocation_new_ok by lia.
  unfold allocate; cbn [offset length_]. rewrite Z.eqb_refl; cbn [negb].
  destruct (Z.ltb_spec WasmStack_max (top (stack self) + Z.of_nat (length bs)));
    [unfold WasmStack_max, MEMORY_INT_MAX in *; lia|].
  rewrite WasmAllocation_new_ok by lia. cbn [offset stack wasm_memory]. unfold memory_set.
  rewrite (proj2 (Nat.leb_le _ _)) by lia. cbn.
  by rewrite u32_wrap_id by (unfold is_u32, U32_MAX in *; lia).
Qed.

Lemma decode_allocation a :
  wf_allocation a →
  RibosomeEncodedValue_from_bits
    (RibosomeEncodedValue_to_bits (Allocation (RibosomeEncodedAllocation_from a))) =
    Ret (Allocation (RibosomeEncodedAllocation_from a)) ∧
  WasmAllocation_try_from (RibosomeEncodedAllocation_from a) = Ok a.
Proof.
  intros Hwf. pose proof (encode_decode_allocation a Hwf) as Hd.
  unfold WasmAllocation_try_from_ribosome_encoding, WasmAllocation_as_ribosome_encoding in Hd.
  cbn [RibosomeEncodedValue_to_bits RibosomeEncodedAllocation_from encoded_allocation_bits] in *.
  unfold RibosomeEncodedValue_from_bits in *.
  destruct (Z.eqb_spec (u64_merge_bits (offset a) (length_ a)) 0) as [?|Hz]; [done|].
  destruct (u64_split_bits _) as [c l].
  destruct (Z.eqb_spec l 0) as [?|Hl].
  - destruct (RibosomeErrorCode_from_code_int c); done.
  - split; [done|]. unfold RibosomeEncodedAllocation_from. by injection Hd.
Qed.

Lemma bytes_of_string_inv s : string_of_bytes (bytes_of_string s) = s.
Proof.
  unfold string_of_bytes, bytes_of_string. rewrite <- list_fmap_compose.
  rewrite <- (String.string_of_list_ascii_of_string s) at 2. f_equal.
  induction (String.list_ascii_of_string s) as [|a l IH]; [done|]. cbn.
  by rewrite N2Z.id, ascii_N_embedding, IH.
Qed.

Lemma drop_take_middle n (l m r : list Z) :
  (n ≤ length l)%nat → drop n (take n l ++ m ++ r)%list = (m ++ r)%list.
Proof. intros. by rewrite drop_app_length' by (rewrite length_take; lia). Qed.

(** A text that the host stores has room: below the 32-bit limit and inside the
    memory, with the zero that ends it. *)
Definition has_room (self : WasmPageManager) (data : list Z) : Prop :=
  is_u32 (top (stack self)) ∧
  (top (stack self) + Z.of_nat (length data) ≤ U32_MAX)%Z ∧
  (Z.to_nat (top (stack self)) + length data ≤ length (wasm_memory self))%nat.

(** JSON crosses the memory that the host and a zome share.  A JSON text
    without zero bytes that the host stores for the zome, where it has room, is
    what the zome reads at the returned word; and the non-empty UTF-8 bytes that
    the zome writes are what the host loads from the word that the zome passes,
    cleaned up by [JsonString::from_json]. *)
Theorem json_crosses_memory `{JsonApi} :
  (∀ self j,
     has_room self (bytes_of_string j ++ [0%Z])%list →
     Forall (λ b, b ≠ 0%Z) (bytes_of_string j) → utf8_valid (bytes_of_string j) = true →
     ∃ bits self', store_as_json_string self j = Ret (bits, self') ∧
       load_ribosome_encoded_string (wasm_memory self') bits = Ret (Ok (bytes_of_string j))) ∧
  (∀ st mem j host,
     is_u32 (top st) → j ≠ "" → utf8_valid (bytes_of_string j) = true →
     (top st + Z.of_nat (length (bytes_of_string j)) ≤ U32_MAX)%Z →
     (Z.to_nat (top st) + length (bytes_of_string j) ≤ length mem)%nat →
     ∃ a st' mem', write_json st mem (Some (bytes_of_string j)) = Ret (Ok a, st', mem') ∧
       load_json_string_from_args {| stack := host; wasm_memory := mem' |}
         (WasmAllocation_as_ribosome_encoding a) = Ret (from_json j)).
Proof.
  split.
  - intros self j (Ht & Hmax & Hm) Hz Hv.
    assert (Hne : (bytes_of_string j ++ [0%Z])%list ≠ []) by (by destruct (bytes_of_string j)).
    do 2 eexists. unfold store_as_json_string. rewrite page_write_ok by done.
    split; [reflexivity|]. cbn [wasm_memory].
    set (a := {| offset := _ |}).
    assert (Hwf : wf_allocation a).
    { rewrite length_app in Hmax. unfold is_u32 in Ht.
      constructor; subst a; cbn [offset length_]; rewrite ?length_app; cbn [length] in *; lia. }
    destruct (decode_allocation a Hwf) as [Hd Ht'].
    unfold load_ribosome_encoded_string. rewrite Hd. cbn. rewrite Ht'. cbn.
    erewrite read_to_string_at; [done| |done|done]. subst a; cbn [offset].
    rewrite drop_take_middle by lia. by rewrite <- (assoc_L app).
  - intros st mem j host Ht Hj Hv Hmax Hm.
    assert (Hlen : (0 < length (bytes_of_string j))%nat) by (unfold bytes_of_string; rewrite length_fmap; destruct j; [done|cbn; lia]).
    assert (Hwl : written_length (bytes_of_string j) = Z.of_nat (length (bytes_of_string j)))
      by (unfold written_length; lia).
    do 3 eexists. split; [apply write_string_ok; rewrite ?Hwl; done|].
    rewrite Hwl. set (a := {| offset := _ |}).
    assert (Hwf : wf_allocation a) by (unfold is_u32 in *; constructor; simpl; lia).
    destruct (decode_allocation a Hwf) as [Hd Ht'].
    unfold load_json_string_from_args, WasmAllocation_as_ribosome_encoding.
    rewrite Hd. cbn. rewrite Ht'. unfold page_read, memory_get. cbn.
    rewrite Nat2Z.id, !length_app, length_take, length_drop.
    rewrite (proj2 (Nat.leb_le _ _)) by lia. cbn.
    rewrite drop_take_middle, take_app_length by lia. cbn.
    by rewrite Hv, bytes_of_string_inv.
Qed.

Lemma json_crosses_memory_witness :
  let J := {| args_json := λ _, ""; from_json := id; package_definition_json := λ _, "";
              package_definition_of_json := λ _, None |} in
  (∃ bits self',
     store_as_json_string (WasmPageManager_new (replicate 8 1%Z)) "true" = Ret (bits, self') ∧
     load_ribosome_encoded_string (wasm_memory self') bits = Ret (Ok (bytes_of_string "true"))) ∧
  (∃ a st' mem',
     write_json WasmStack_new (replicate 8 1%Z) (Some (bytes_of_string "true")) =
       Ret (Ok a, st', mem') ∧
     load_json_string_from_args {| stack := WasmStack_new; wasm_memory := mem' |}
       (WasmAllocation_as_ribosome_encoding a) = Ret "true").
Proof.
  intros J. split.
  - apply (proj1 (@json_crosses_memory J)); [|by repeat constructor|done].
    repeat split; vm_compute; (done || lia).
  - apply (proj2 (@json_crosses_memory J)); [repeat split; vm_compute; done|done|done|..];
      vm_compute; (done || lia).
Defined.

(** ** What [run_dna] gives *)

Section run_dna_spec.
Context `{Storage} `{JsonApi}.

(** A failure of the ribosome is reported with one of these openings. *)
Definition ribosome_messages : list string :=
  ["Module failed to start"; "WASM Memory issue: "; "WASM invocation failed: ";
   "WASM return value missing. data = "; "Zome function failure: ";
   "WASM failed to return value: "; "WASM return value allocation failed: "].

Lemma run_wasm_failure input r s :
  run_wasm input r = Ret (Err (HolochainError_RibosomeFailed s)) →
  ∃ opening rest, opening ∈ ribosome_messages ∧ s = opening +:+ rest.
Proof.
  assert (Hm : ∀ o rest, (existsb (String.eqb o) ribosome_messages) = true →
    ∃ opening rest', opening ∈ ribosome_messages ∧ o +:+ rest = opening +:+ rest').
  { intros o rest (o' & Ho & ->%String.eqb_eq)%existsb_exists. exists o', rest.
    split; [by apply list_elem_of_In|done]. }
  assert (Hm' : ∀ o, (existsb (String.eqb o) ribosome_messages) = true →
    ∃ opening rest', opening ∈ ribosome_messages ∧ o = opening +:+ rest').
  { intros o Ho. destruct (Hm o "" Ho) as (o' & rest & ? & Heq). exists o', rest.
    split; [done|]. rewrite <- Heq. clear. induction o as [|a o IH]; [done|].
    change (String a o = String a (o +:+ "")). by rewrite <- IH. }
  unfold run_wasm, decode_return, mbind, Outcome_bind, unwrap. intros Hr.
  repeat (case_match_hyp Hr; cbn in Hr; simplify_eq; try done);
    first [by apply Hm | by apply Hm'].
Qed.

Lemma wp_get_module P zome h (Q : list Event → Outcome (Result HolochainError ()) → Prop) :
  (∀ h, P h Call_state) →
  (∀ h', h `prefix_of` h' → Q h' (Ret (Ok ())) ∧ Q h' Panic) →
  (∀ h' m, h `prefix_of` h' → Q h' (Ret (Err (HolochainError_ErrorGeneric m)))) →
  wp P (get_module zome) h Q.
Proof.
  intros HP HQ HE. unfold get_module. apply wp_try.
  split; [apply HP|]. intros [[s w]|] _; cbn; [|apply HE; by apply prefix_app_r].
  destruct (Nucleus.dna (st_nucleus s)) as [d|]; cbn; [|apply HQ; by apply prefix_app_r].
  destruct (btree_get (zomes d) zome); cbn; [apply HQ|apply HE]; by apply prefix_app_r.
Qed.

(** [run_dna] reads the state and runs the function once; unless the zome is
    missing it gives what the run decodes to. *)
Lemma wp_run_dna P zome fn params h
    (Q : list Event → Outcome (Result HolochainError JsonString) → Prop) :
  (∀ h, P h Call_state) →
  (∀ h', h `prefix_of` h' → P h' (Call_wasm zome fn params)) →
  (∀ h' r, h `prefix_of` h' → Ev (Call_wasm zome fn params) r ∈ h' →
    Q h' (run_wasm (args_bytes params) r)) →
  (∀ h' m, h `prefix_of` h' → Q h' (Ret (Err (HolochainError_ErrorGeneric m)))) →
  (∀ h', h `prefix_of` h' → Q h' Panic) →
  wp P (run_dna zome fn params) h Q.
Proof.
  intros HP Hw HQ HE Hp. unfold run_dna. apply wp_try, wp_get_module; [done| |done].
  intros h' Hpre. split; [|by apply Hp]. apply wp_bind, wp_call. split; [by apply Hw|].
  intros r _. cbn. apply HQ.
  - etrans; [done|]. by apply prefix_app_r.
  - apply elem_of_app. right. by apply list_elem_of_singleton.
Qed.

End run_dna_spec.
