(* ===== verification/Futures.v ===== *)
(** * Action creators and the futures that wait for the state

    Models the action creators of [core/src]: [agent/actions/commit.rs],
    [dht/actions], [network/actions] and the futures of
    [nucleus/actions/initialize.rs].  An action creator dispatches an action and
    waits in a future; the redux loop polls the future again after every change
    of the state, and the future is ready when the state has the result.

    [poll] functions are given what one poll observes.  Registering and removing
    wakers only decides when a future is polled again and is left out.  The
    theorems show that a future resolves exactly when the reducers have recorded
    its result, and with that result; and that two commits in flight can lose
    each other's result. *)

From stdpp Require Import base strings list gmap.
From Stdlib Require Import ZArith.
From S2P Require Import Prelude Errors CoreTypes Dna Storage Action Instances ContentStore Agent.
From S2P Require Import Network Nucleus AspectMap DhtStore DhtReducers HoldingQueue Instance Async.
From S2P Require Import Ribosome.

(** ** Polls *)

(** A poll fails when the action channel is not usable and is pending while the
    state is locked. *)
Definition poll_channel_state {A} (name : string) (i : PollInput)
    (k : State → Poll (Result HolochainError A)) : Poll (Result HolochainError A) :=
  match action_channel_error (poll_channel i) name, try_state i with
  | Some err, _ => Ret (Some (Err err, []))
  | None, None => Ret None
  | None, Some s => k s
  end.

(** The futures of the network also fail when it is not initialized. *)
Definition poll_network {A} (name : string) (i : PollInput)
    (k : NetworkState → Poll (Result HolochainError A)) : Poll (Result HolochainError A) :=
  poll_channel_state name i (λ s,
    match initialized (st_network s) with
    | Err error => Ret (Some (Err error, []))
    | Ok _ => k (st_network s)
    end).

Definition HoldAspectFuture_poll (id : HoldAspectAttemptId) (i : PollInput) :
    Poll (Result HolochainError ()) :=
  poll_channel_state "HoldAspectFuture" i (λ s,
    Ret ((λ r, (r, [])) <$> hold_aspec_request_complete (st_dht s) id)).

Definition CommitFuture_poll (action_id : string) (i : PollInput) :
    Poll (Result HolochainError Address) :=
  poll_channel_state "CommitFuture" i (λ s,
    match Agent.actions (st_agent s) !! action_id with
    | None => Ret None
    | Some r =>
        match response r with
        | AgentResponse_Commit result =>
            Ret (Some (result, [Action_ClearActionResponse action_id]))
        | _ => Panic
        end
    end).

Definition QueryFuture_poll (key : QueryKey) (i : PollInput) :
    Poll (Result HolochainError NetworkQueryResult) :=
  poll_network "GetEntryFuture" i (λ net,
    match get_query_results net !! key with
    | Some (Some result) => Ret (Some (result, [Action_ClearQueryResult key]))
    | _ => Ret None
    end).

Definition GetValidationPackageFuture_poll (key : ValidationKey) (i : PollInput) :
    Poll (Result HolochainError (option ValidationPackage)) :=
  poll_network "GetValidationPackageFuture" i (λ net,
    match get_validation_package_results net !! key with
    | Some (Some result) => Ret (Some (result, [Action_ClearValidationPackageResult key]))
    | _ => Ret None
    end).

(** This future reports the text of the network's error. *)
Definition SendResponseFuture_poll (id : string) (i : PollInput) :
    Poll (Result HolochainError string) :=
  poll_channel_state "SendResponseFuture" i (λ s,
    match initialized (st_network s) with
    | Err error =>
        Ret (Some (Err (HolochainError_ErrorGeneric (HolochainError_fmt error)), []))
    | Ok _ =>
        match custom_direct_message_replys (st_network s) !! id with
        | Some result => Ret (Some (result, [Action_ClearCustomSendResponse id]))
        | None => Ret None
        end
    end).

Definition PublishFuture_poll (action_id : string) (i : PollInput) :
    Poll (Result HolochainError Address) :=
  poll_network "PublishFuture" i (λ net,
    match net_actions net !! action_id with
    | None => Ret None
    | Some r =>
        match response r with
        | NetworkResponse_Publish result =>
            Ret (Some (result, [Action_ClearActionResponse action_id]))
        | _ => Panic
        end
    end).

Definition PublishHeaderEntryFuture_poll (action_id : string) (i : PollInput) :
    Poll (Result HolochainError Address) :=
  poll_network "PublishHeaderEntryFuture" i (λ net,
    match net_actions net !! action_id with
    | None => Ret None
    | Some r =>
        match response r with
        | NetworkResponse_PublishHeaderEntry result =>
            Ret (Some (result, [Action_ClearActionResponse action_id]))
        | _ => Panic
        end
    end).

Definition InitNetworkFuture_poll (i : PollInput) : Poll (Result HolochainError ()) :=
  poll_channel_state "InitializeNetworkFuture" i (λ s,
    match network (st_network s), dna_address (st_network s), net_agent_id (st_network s) with
    | Some _, Some _, Some _ => Ret (Some (Ok (), []))
    | _, _, _ => Ret None
    end).

(** These futures do not look at the action channel. *)
Definition ShutdownFuture_poll (i : PollInput) : Poll (Result HolochainError ()) :=
  match try_state i with
  | Some s => Ret (match network (st_network s) with
                   | Some _ => None
                   | None => Some (Ok (), [])
                   end)
  | None => Ret None
  end.

Definition RemoveQueuedHoldingWorkflowFuture_poll `{Addressing} (queueing : HoldingWorkflowQueueing)
    (pending : PendingValidation) (i : PollInput) : Poll () :=
  match try_state i with
  | Some s => Ret (if remove_queued_ready queueing pending (st_dht s) then Some ((), []) else None)
  | None => Ret None
  end.

Definition InitializingFuture_poll (i : PollInput) : Poll (Result HolochainError NucleusStatus) :=
  poll_channel_state "InitializingFuture" i (λ s,
    Ret match Nucleus.status (st_nucleus s) with
        | NucleusStatus_New => None
        | NucleusStatus_InitializationFailed error =>
            Some (Err (HolochainError_ErrorGeneric error), [])
        | status => Some (Ok status, [])
        end).

(** In seconds, and in the nanoseconds of an [Instant]. *)
Definition INITIALIZATION_TIMEOUT : Z := 60.

Definition InitializationFuture_poll (created_at : Z) (i : PollInput) :
    Poll (Result HolochainError NucleusStatus) :=
  match action_channel_error (poll_channel i) "InitializationFuture" with
  | Some err => Ret (Some (Err err, []))
  | None =>
      if Z.ltb (INITIALIZATION_TIMEOUT * 1000000000) (poll_instant i - created_at) then
        Ret (Some (Err (HolochainError_ErrorGeneric "Timeout while initializing"), []))
      else
        Ret match Nucleus.status ∘ st_nucleus <$> try_state i with
            | Some (NucleusStatus_Initialized init) =>
                Some (Ok (NucleusStatus_Initialized init), [])
            | Some (NucleusStatus_InitializationFailed error) =>
                Some (Err (HolochainError_ErrorGeneric error), [])
            | _ => None
            end
  end.

(** ** Action creators *)

(** [wasm_utils/src/api_serialization/get_links.rs] *)
Inductive LinksStatusRequestKind : Type :=
| LinksStatus_Live
| LinksStatus_Deleted
| LinksStatus_All.

Record GetLinksOptions : Type := {
  links_status_request : LinksStatusRequestKind;
  links_headers : bool;
  links_timeout : Duration;
  links_pagination : option Pagination;
  links_sort_order : option SortOrder;
}.

Record GetLinksArgs : Type := {
  links_entry_address : Address;
  args_link_type : option string;
  args_tag : option string;
  links_options : GetLinksOptions;
}.

Inductive QueryMethod : Type :=
| QueryMethod_Entry (address : Address)
| QueryMethod_Link (link_args : GetLinksArgs) (query : GetLinksNetworkQuery).

Definition crud_status_from_link_args (link_args : GetLinksArgs) : option CrudStatus :=
  match links_status_request (links_options link_args) with
  | LinksStatus_All => None
  | LinksStatus_Deleted => Some Deleted
  | LinksStatus_Live => Some Live
  end.

Section creators.
Context `{Storage} `{Addressing}.

(** The agent of the context. *)
Variable agent_id : AgentId.

Definition commit_entry (entry : Entry) (maybe_link_update_delete : option Address) :
    Prog (Result HolochainError Address) :=
  id ← dispatch_action (Action_Commit entry maybe_link_update_delete []);
  await (CommitFuture_poll id).

Definition publish (address : Address) : Prog (Result HolochainError Address) :=
  id ← dispatch_action (Action_Publish address);
  await (PublishFuture_poll id).

Definition publish_header_entry (address : Address) : Prog (Result HolochainError Address) :=
  id ← dispatch_action (Action_PublishHeaderEntry address);
  await (PublishHeaderEntryFuture_poll id).

(** The key, with a fresh id, and the payload of a query. *)
Definition query_key (method : QueryMethod) (id : string) : QueryKey * QueryPayload :=
  match method with
  | QueryMethod_Entry address =>
      (QueryKey_Entry {| entry_key_address := address; entry_key_id := id |}, QueryPayload_Entry)
  | QueryMethod_Link link_args query =>
      (QueryKey_Links {| links_base_address := links_entry_address link_args;
                         links_link_type := args_link_type link_args;
                         links_tag := args_tag link_args; links_id := id |},
       QueryPayload_Links (crud_status_from_link_args link_args) query)
  end.

Definition query (method : QueryMethod) (timeout : Duration) :
    Prog (Result HolochainError NetworkQueryResult) :=
  id ← call Call_fresh_text;
  let '(key, payload) := query_key method id in
  now ← call Call_now;
  _ ← dispatch_action (Action_Query key payload (Some (now, timeout)));
  await (QueryFuture_poll key).

Definition get_validation_package (header : ChainHeader) :
    Prog (Result HolochainError (option ValidationPackage)) :=
  fresh ← call Call_fresh_text;
  let key := {| vkey_address := entry_address header; vkey_id := fresh |} in
  _ ← dispatch_action (Action_GetValidationPackage key header);
  await (GetValidationPackageFuture_poll key).

Definition custom_send (to_agent : Address) (custom_direct_message : CustomDirectMessage)
    (timeout : Duration) : Prog (Result HolochainError string) :=
  id ← call Call_fresh_text;
  let direct_message_data :=
    {| dmd_address := to_agent; dmd_message := DirectMessage_Custom custom_direct_message;
       msg_id := id; is_response := false |} in
  now ← call Call_now;
  _ ← dispatch_action (Action_SendDirectMessage direct_message_data (Some (now, timeout)));
  await (SendResponseFuture_poll id).

(** [ack_single]: the aspect is announced as held; the address of the DNA must
    be known. *)
Definition ack_single (aspect : EntryAspect) : Prog () :=
  '(s, _) ← state_expect;
  match dna_address (st_network s) with
  | None => panic
  | Some space_address =>
      action ← lift_outcome (DhtReducers.ack_single space_address
                               (AgentId_address agent_id) aspect);
      _ ← dispatch_action action;
      mret ()
  end.

Definition hold_aspect_no_ack (pending_id : ProcessUniqueId) (aspect : EntryAspect) :
    Prog (Result HolochainError ()) :=
  attempt ← call Call_unique_id;
  _ ← dispatch_action (Action_HoldAspect aspect (pending_id, attempt));
  await (HoldAspectFuture_poll (pending_id, attempt)).

Definition hold_aspect (pending_id : ProcessUniqueId) (aspect : EntryAspect) :
    Prog (Result HolochainError ()) :=
  attempt ← call Call_unique_id;
  _ ← dispatch_action (Action_HoldAspect aspect (pending_id, attempt));
  r ← await (HoldAspectFuture_poll (pending_id, attempt));
  match r with
  | Err e => ret_err e
  | Ok _ => _ ← ack_single aspect; ret_ok ()
  end.

Definition dispatch_queue_holding_workflow (pending : PendingValidation) (delay : option Duration) :
    Prog () :=
  match delay with
  | None => _ ← dispatch_action (Action_QueueHoldingWorkflow pending None); mret ()
  | Some d =>
      now ← call Call_now;
      _ ← dispatch_action (Action_QueueHoldingWorkflow pending (Some (now, d)));
      mret ()
  end.

Definition remove_queued_holding_workflow (queueing : HoldingWorkflowQueueing)
    (pending : PendingValidation) : Prog () :=
  _ ← dispatch_action (Action_RemoveQueuedHoldingWorkflow queueing pending);
  await (RemoveQueuedHoldingWorkflowFuture_poll queueing pending).

(** [network/actions/shutdown.rs] works on the state itself. *)
Definition shutdown : Prog (Result HolochainError ()) :=
  '(s, _) ← state_expect;
  match initialized (st_network s) with
  | Ok _ => _ ← dispatch_action Action_ShutdownNetwork; await ShutdownFuture_poll
  | Err _ =>
      ret_err (HolochainError_ErrorGeneric "Tried to shutdown network that was never initialized")
  end.

End creators.

(** ** The calls of the action creators *)

(** Calls that read the state, the clocks or a source of fresh names, or wait. *)
Definition quiet `{Storage} (c : Call) : bool :=
  match c with
  | Call_state | Call_now | Call_instant | Call_unique_id | Call_fresh_text | Call_await _ => true
  | Call_dispatch _ | Call_wasm _ _ _ | Call_spawn _ | Call_conductor _ | Call_signal _ _
  | Call_sleep _ => false
  end.

(** The callbacks of a zome by which packages are defined and entries validated. *)
Definition validation_callbacks : list string :=
  ["__hdk_get_validation_package_for_entry_type"; "__hdk_get_validation_package_for_link";
   "__hdk_validate_app_entry"; "__hdk_validate_link"; "__hdk_validate_agent_entry"].

(** Actions by which a node asks others and takes their answers off the state. *)
Definition is_lookup (a : Action) : bool :=
  match a with
  | Action_Query _ _ _ | Action_ClearQueryResult _
  | Action_GetValidationPackage _ _ | Action_ClearValidationPackageResult _ => true
  | _ => false
  end.

Definition lookup_call `{Storage} (c : Call) : bool :=
  match c with
  | Call_dispatch a => is_lookup a
  | Call_wasm _ fn _ => bool_decide (fn ∈ validation_callbacks)
  | c => quiet c
  end.

(** What the polls of a future dispatch; a poll always ends. *)
Definition poll_dispatches {A} (ok : Action → bool) (poll : PollInput → Poll A) : Prop :=
  ∀ i, match poll i with
       | Ret (Some (_, l)) => forallb ok l = true
       | NoFuel => False
       | _ => True
       end.

(** One poll of a future, by cases of what it observes. *)
Ltac poll_cases :=
  intros ?;
  unfold HoldAspectFuture_poll, CommitFuture_poll, QueryFuture_poll,
    GetValidationPackageFuture_poll, PublishFuture_poll, PublishHeaderEntryFuture_poll,
    poll_network, poll_channel_state;
  repeat case_match; simplify_eq;
  repeat match goal with
         | H : _ <$> _ = Some _ |- _ => apply fmap_Some in H as (? & ? & ?)
         end; simplify_eq/=; rewrite ?String.eqb_refl; done.

Lemma QueryFuture_dispatches key : poll_dispatches is_lookup (QueryFuture_poll key).
Proof. poll_cases. Qed.

Lemma GetValidationPackageFuture_dispatches key :
  poll_dispatches is_lookup (GetValidationPackageFuture_poll key).
Proof. poll_cases. Qed.

Lemma HoldAspectFuture_dispatches id : poll_dispatches (λ _, false) (HoldAspectFuture_poll id).
Proof. poll_cases. Qed.

Definition is_clear (id : string) (a : Action) : bool :=
  match a with Action_ClearActionResponse id' => String.eqb id id' | _ => false end.

Lemma CommitFuture_dispatches id : poll_dispatches (is_clear id) (CommitFuture_poll id).
Proof. poll_cases. Qed.

Lemma PublishFuture_dispatches id : poll_dispatches (is_clear id) (PublishFuture_poll id).
Proof. poll_cases. Qed.

Lemma PublishHeaderEntryFuture_dispatches id :
  poll_dispatches (is_clear id) (PublishHeaderEntryFuture_poll id).
Proof. poll_cases. Qed.

Section calls.
Context `{Storage} `{Addressing}.
Implicit Types (P : list Event → Call → Prop) (h : list Event).

Lemma prefix_snoc h (e : Event) h' : (h ++ [e])%list `prefix_of` h' → h `prefix_of` h'.
Proof. intros. etrans; [|done]. by apply prefix_app_r. Qed.

Lemma wp_await_future {A} P ok (poll : PollInput → Poll A) h (Q : list Event → Outcome A → Prop) :
  poll_dispatches ok poll →
  P h (Call_await (poll_ready poll)) →
  (∀ h' a, h `prefix_of` h' → ok a = true → P h' (Call_dispatch a)) →
  (∀ i h' x l, (h ++ [Ev (Call_await (poll_ready poll)) i])%list `prefix_of` h' →
    poll i = Ret (Some (x, l)) → Q h' (Ret x)) →
  (∀ h', h `prefix_of` h' → Q h' Panic) →
  wp P (await poll) h Q.
Proof.
  intros Hok HP Hl HQ Hp. apply wp_await; [done|..].
  - intros i x l Hi. specialize (Hok i). rewrite Hi in Hok. split.
    + intros h' a Ha Hpre. apply Hl; [done|].
      eapply forallb_forall in Hok; [done|by apply list_elem_of_In].
    + intros h' Hpre. by eapply HQ.
  - intros i Hi. apply Hp. by apply prefix_app_r.
  - intros i Hi. specialize (Hok i). by rewrite Hi in Hok.
Qed.

(** An action creator: the action, then what its future gives. *)
Lemma wp_dispatch_await {A} P a (poll : string → PollInput → Poll A) ok h
    (Q : list Event → Outcome A → Prop) :
  (∀ id, poll_dispatches (ok id) (poll id)) →
  (∀ h c, quiet c = true → P h c) → P h (Call_dispatch a) →
  (∀ h' id b, (h ++ [Ev (Call_dispatch a) id])%list `prefix_of` h' → ok id b = true →
    P h' (Call_dispatch b)) →
  (∀ h' id i x l,
    (h ++ [Ev (Call_dispatch a) id] ++ [Ev (Call_await (poll_ready (poll id))) i])%list
      `prefix_of` h' →
    poll id i = Ret (Some (x, l)) → Q h' (Ret x)) →
  (∀ h' id, (h ++ [Ev (Call_dispatch a) id])%list `prefix_of` h' → Q h' Panic) →
  wp P (id ← dispatch_action a; await (poll id)) h Q.
Proof.
  intros Hd HP Ha Hb HQ Hp. apply wp_bind. split; [done|]. intros id _.
  eapply wp_await_future; [apply Hd|by apply HP| | |].
  - intros h' b Hpre Hok. by eapply Hb.
  - intros i h' x l Hpre Hi. eapply HQ; [|done]. by rewrite (assoc_L app).
  - intros h' Hpre. by eapply Hp.
Qed.

(** Programs that only look things up: they read, ask the network, and run
    callbacks. *)
Definition only_lookups {A} (p : Prog A) : Prop :=
  ∀ h, wp (λ _ c, lookup_call c = true) p h (λ _ _, True).

Lemma wp_lookups {A} P (p : Prog A) h (Q : list Event → Outcome A → Prop) :
  only_lookups p → (∀ h c, lookup_call c = true → P h c) →
  (∀ h' o, h `prefix_of` h' → Q h' o) → wp P p h Q.
Proof. intros Hp HP HQ. eapply wp_frame; [apply Hp|naive_solver|naive_solver]. Qed.

Lemma lookups_finish {A} (o : Outcome A) : only_lookups (Finish o).
Proof. done. Qed.

Lemma lookups_call c : lookup_call c = true → only_lookups (call c).
Proof. intros Hc h. by split. Qed.

Lemma lookups_bind {A B} (p : Prog A) (f : A → Prog B) :
  only_lookups p → (∀ x, only_lookups (f x)) → only_lookups (p ≫= f).
Proof.
  intros Hp Hf h. apply wp_bind. eapply wp_frame; [apply Hp|done|].
  intros h' [x| |] _ _; [apply Hf|done..].
Qed.

Lemma lookups_try {E A B} (p : Prog (Result E A)) (f : A → Prog (Result E B)) :
  only_lookups p → (∀ x, only_lookups (f x)) → only_lookups (try p f).
Proof.
  intros Hp Hf. apply lookups_bind; [done|]. intros [x|e]; [apply Hf|apply lookups_finish].
Qed.

Lemma lookups_await {A} (poll : PollInput → Poll A) :
  poll_dispatches is_lookup poll → only_lookups (await poll).
Proof. intros Hd h. by eapply wp_await_future. Qed.

Lemma lookups_state_expect : only_lookups state_expect.
Proof. intros h. by apply wp_state_expect. Qed.

Lemma lookups_state_or_error : only_lookups state_or_error.
Proof. intros h. by apply wp_state_or_error. Qed.

Lemma lookups_get_dna_expect : only_lookups get_dna_expect.
Proof. intros h. by apply wp_get_dna_expect. Qed.

Lemma lookups_run_dna `{JsonApi} zome fn params :
  bool_decide (fn ∈ validation_callbacks) = true → only_lookups (run_dna zome fn params).
Proof. intros Hfn h. by apply wp_run_dna. Qed.

Lemma lookups_query method timeout : only_lookups (query method timeout).
Proof.
  apply lookups_bind; [by apply lookups_call|]. intros id.
  destruct (query_key method id) as [key payload].
  apply lookups_bind; [by apply lookups_call|]. intros now.
  apply lookups_bind; [by apply lookups_call|]. intros aw.
  apply lookups_await, QueryFuture_dispatches.
Qed.

Lemma lookups_get_validation_package header : only_lookups (get_validation_package header).
Proof.
  apply lookups_bind; [by apply lookups_call|]. intros id.
  apply lookups_bind; [by apply lookups_call|]. intros aw.
  apply lookups_await, GetValidationPackageFuture_dispatches.
Qed.

(** Holding an aspect dispatches the aspect and, when it is held, the
    announcement of just that aspect. *)
Definition acks (aspect : EntryAspect) (a : Action) : Prop :=
  ∃ space provider, DhtReducers.ack_single space provider aspect = Ret a.

Lemma wp_hold_aspect P agent_id pending_id aspect h (Q : list Event → Outcome _ → Prop) :
  (∀ h c, quiet c = true → P h c) →
  (∀ h' attempt, h `prefix_of` h' →
    P h' (Call_dispatch (Action_HoldAspect aspect (pending_id, attempt)))) →
  (∀ h' a, h `prefix_of` h' → acks aspect a → P h' (Call_dispatch a)) →
  (∀ h' o, h `prefix_of` h' → Q h' o) →
  wp P (hold_aspect agent_id pending_id aspect) h Q.
Proof.
  intros HP Hh Ha HQ. unfold hold_aspect.
  apply wp_bind. split; [by apply HP|]. intros attempt _.
  apply wp_bind. split; [apply Hh; by apply prefix_app_r|]. intros id _.
  apply wp_bind. eapply wp_await_future;
    [apply HoldAspectFuture_dispatches|by apply HP|done| |].
  - intros i h' x l Hpre _. do 3 apply prefix_snoc in Hpre.
    destruct x as [[]|e]; [|by apply HQ]. apply wp_bind. unfold ack_single.
    apply wp_bind, wp_state_expect; [by apply HP|..|apply HQ; by apply prefix_app_r].
    intros s w. destruct (dna_address (st_network s)) as [space|]; cbn;
      [|apply HQ; by apply prefix_app_r].
    destruct (DhtReducers.ack_single _ _ _) as [a| |] eqn:Hack; cbn;
      [|apply HQ; by apply prefix_app_r..].
    split.
    + apply (Ha _ a); [by apply prefix_app_r|]. by exists space, (AgentId_address agent_id).
    + intros x _. apply HQ. etrans; [done|]. rewrite <- (assoc_L app). by apply prefix_app_r.
  - intros h' Hpre. apply HQ. by do 2 apply prefix_snoc in Hpre.
Qed.

End calls.

(** Programs that only look things up are recognised from their parts. *)
Create HintDb lookups.
#[export] Hint Resolve lookups_finish lookups_call lookups_bind lookups_try lookups_state_expect
  lookups_state_or_error lookups_get_dna_expect lookups_run_dna lookups_query
  lookups_get_validation_package : lookups.

Ltac lookups :=
  repeat first
    [ progress intros
    | apply lookups_finish
    | by apply lookups_call
    | apply lookups_state_expect | apply lookups_state_or_error
    | apply lookups_get_dna_expect | by apply lookups_run_dna
    | solve [eauto 2 with lookups nocore]
    | apply lookups_try
    | apply lookups_bind
    | case_match ].

(** ** Futures and reducers *)

Section resolution.
Context `{Storage} `{Addressing}.

(** What a poll observes while the action channel is open. *)
Definition observe (s : State) (t : Z) : PollInput :=
  {| poll_channel := Channel_Open; try_state := Some s; poll_instant := t |}.

Lemma State_reduce_agent env fuel s w aw s' w' :
  State_reduce env fuel s w aw = Ret (s', w') →
  ∃ cas, Agent.reduce (env_sign env) (env_now_agent env) (st_agent s) (w_cas w) fuel aw =
         Ret (st_agent s', cas).
Proof.
  unfold State_reduce. destruct (Agent.reduce _ _ _ _ _ _) as [[agent cas]| |]; [|done..].
  cbn. destruct (DhtReducers.reduce _ _ _ _) as [[dht w1]| |]; [|done..].
  cbn. destruct (Network.reduce _ _ _ _ _ _ _ _ _ _ _) as [net| |]; [|done..].
  cbn. intros [= <- <-]. by exists cas.
Qed.

(** Only a commit adds a response to the agent's state, under its own id. *)
Lemma agent_reduce_actions sign now self cas fuel aw self' cas' id :
  Agent.reduce sign now self cas fuel aw = Ret (self', cas') →
  aw_id aw ≠ id → Agent.actions self !! id = None → Agent.actions self' !! id = None.
Proof.
  unfold Agent.reduce. intros Hr Hid Hn.
  destruct (aw_action aw); simplify_eq; try done.
  - cbn. apply map_lookup_filter_None. by left.
  - cbn. apply map_lookup_filter_None. by left.
  - unfold Agent.reduce_commit_entry in Hr.
    destruct (Agent.create_new_chain_header _ _ _ _ _ _ _ _) as [header| |]; [|done..]. cbn in Hr.
    destruct (store_commit _ _ _ _) as [[r a] c] eqn:Hs. simplify_eq. cbn.
    rewrite lookup_insert_ne by done.
    unfold store_commit in Hs. repeat case_match; by simplify_eq.
Qed.

(** What a new header is about. *)
Lemma create_new_chain_header_shape sign now entry self cas fuel crud provs header :
  create_new_chain_header sign now entry self cas fuel crud provs = Ret (Ok header) →
  entry_address header = Entry_address entry ∧
  entry_type header = Entry_entry_type entry ∧
  CoreTypes.link header = ChainHeader_address <$> agent_top_chain_header self ∧
  link_update_delete header = crud ∧
  ∃ agent sig, sign (Entry_address entry) = Ok sig ∧
    provenances header = (provs ++ [{| source := agent; signature := sig |}])%list.
Proof.
  unfold create_new_chain_header.
  destruct (get_agent_address self cas fuel) as [[agent|]| |]; [|done..]. cbn.
  destruct (sign (Entry_address entry)) as [sig|] eqn:Hsig; [|done].
  destruct (Z.ltb now 0); [done|].
  destruct (first_of_type self cas fuel (Entry_entry_type entry)) as [o| |]; [|done..].
  intros [= <-]. cbn. split_and!; try done. by exists agent, sig.
Qed.

(** A sequence of actions reduced one after the other, with whatever happens to
    the environment in between. *)
Inductive reduces : State → World → list ActionWrapper → State → World → Prop :=
| reduces_nil s w : reduces s w [] s w
| reduces_cons env fuel aw l s w s1 w1 s2 w2 :
    State_reduce env fuel s w aw = Ret (s1, w1) →
    reduces s1 w1 l s2 w2 → reduces s w (aw :: l) s2 w2.

(** The same sequence as a function, in an environment that stays as it is. *)
Fixpoint reduce_all (env : Env) (fuel : nat) (s : State * World) (l : list ActionWrapper) :
    Outcome (State * World) :=
  match l with
  | [] => Ret s
  | aw :: l => s1 ← State_reduce env fuel s.1 s.2 aw; reduce_all env fuel s1 l
  end.

Lemma reduce_all_reduces env fuel s l s' :
  reduce_all env fuel s l = Ret s' → reduces s.1 s.2 l s'.1 s'.2.
Proof.
  revert s. induction l as [|aw l IH]; intros s; cbn; [intros [= ->]; constructor|].
  destruct (State_reduce env fuel s.1 s.2 aw) as [s1| |] eqn:Hs; [|done..]. cbn. intros Hl.
  apply (reduces_cons env fuel aw l s.1 s.2 s1.1 s1.2); [by destruct s1|by apply IH].
Qed.

Lemma reduces_no_response s w l s' w' id :
  reduces s w l s' w' → Forall (λ aw, aw_id aw ≠ id) l →
  Agent.actions (st_agent s) !! id = None → Agent.actions (st_agent s') !! id = None.
Proof.
  induction 1 as [|env fuel aw l s w s1 w1 s2 w2 Hr _ IH]; [done|].
  intros [Hid Hl]%Forall_cons Hn. apply IH; [done|].
  destruct (State_reduce_agent _ _ _ _ _ _ _ Hr) as [cas Ha].
  by eapply agent_reduce_actions.
Qed.

(** A commit is answered at once.  After the reduction of a commit action,
    the first poll of its future is ready.  It gives either the address of the
    entry, and then the chain's top is a header for that entry on the old top, or
    an error, and then the top is unchanged; and it asks for the response to be
    cleared. *)
Lemma commit_future_resolves env fuel s w id entry link provenances s' w' t :
  State_reduce env fuel s w
    {| aw_action := Action_Commit entry link provenances; aw_id := id |} = Ret (s', w') →
  ∃ result,
    CommitFuture_poll id (observe s' t) = Ret (Some (result, [Action_ClearActionResponse id])) ∧
    match result with
    | Ok address =>
        address = Entry_address entry ∧
        ∃ top, agent_top_chain_header (st_agent s') = Some top ∧
          entry_address top = address ∧ entry_type top = Entry_entry_type entry ∧
          CoreTypes.link top = ChainHeader_address <$> agent_top_chain_header (st_agent s) ∧
          link_update_delete top = link
    | Err _ => agent_top_chain_header (st_agent s') = agent_top_chain_header (st_agent s)
    end.
Proof.
  intros Hr. destruct (State_reduce_agent _ _ _ _ _ _ _ Hr) as [cas Ha]. clear Hr.
  cbn in Ha. unfold Agent.reduce_commit_entry in Ha.
  destruct (Agent.create_new_chain_header _ _ _ _ _ _ _ _) as [header| |] eqn:Hh; [|done..]. cbn in Ha.
  destruct (store_commit _ _ _ _) as [[r a] c] eqn:Hs. injection Ha as Ha <-.
  exists r. unfold CommitFuture_poll, poll_channel_state, observe. cbn. rewrite <- Ha. cbn.
  rewrite lookup_insert_eq. cbn. split; [done|]. unfold store_commit in Hs.
  destruct header as [header|]; [|by simplify_eq].
  destruct (add_entry _ _) as [[[]|] ?]; [|by simplify_eq].
  destruct (add_header _ _) as [[[]|] ?]; [|by simplify_eq].
  simplify_eq. cbn. split; [done|]. exists header. split; [done|].
  by apply create_new_chain_header_shape in Hh as (-> & -> & -> & -> & _).
Qed.

(** clearing the response of one commit loses those of the others.  When two
    commits have been reduced and the future of the first has resolved, which
    clears its response, the future of the second stays pending for ever: in
    every state that later actions lead to, as long as the id of the second
    commit is not used again. *)
Theorem concurrent_commits_hang s w id1 id2 e1 e2 p1 p2 link1 link2 clear_id l s' w' t :
  id1 ≠ id2 → clear_id ≠ id2 →
  reduces s w ([{| aw_action := Action_Commit e1 link1 p1; aw_id := id1 |};
                {| aw_action := Action_Commit e2 link2 p2; aw_id := id2 |};
                {| aw_action := Action_ClearActionResponse id1; aw_id := clear_id |}] ++ l)
    s' w' →
  Forall (λ aw, aw_id aw ≠ id2) l →
  CommitFuture_poll id2 (observe s' t) = Ret None.
Proof.
  intros Hid Hclear Hr Hl. unfold CommitFuture_poll, poll_channel_state, observe. cbn.
  enough (Agent.actions (st_agent s') !! id2 = None) as -> by done.
  inversion Hr as [|?????????? _ Hr1]; subst. inversion Hr1 as [|?????????? _ Hr2]; subst.
  inversion Hr2 as [|?????????? Hc Hr3]; subst. eapply reduces_no_response; [done..|].
  destruct (State_reduce_agent _ _ _ _ _ _ _ Hc) as [cas Ha]. cbn in Ha.
  injection Ha as <- _. cbn. apply map_lookup_filter_None. right. by intros x _ ?.
Qed.

End resolution.

(** ** Concrete instances *)

(** A run known to end ends in the state that a default completes. *)
Definition is_ret {A} (o : Outcome A) : bool := match o with Ret _ => true | _ => false end.

Lemma outcome_default {A B} (o : Outcome (A * B)) d :
  is_ret o = true →
  let r := match o with Ret x => x | _ => d end in o = Ret (r.1, r.2).
Proof. by destruct o as [[]| |]. Qed.

Section witnesses.
#[local] Existing Instance memory_storage.
#[local] Existing Instance dna_addressing.

Definition two_commits : list ActionWrapper :=
  [{| aw_action := Action_Commit (Entry_App "note" "a") None []; aw_id := "1" |};
   {| aw_action := Action_Commit (Entry_App "note" "b") None []; aw_id := "2" |};
   {| aw_action := Action_ClearActionResponse "1"; aw_id := "3" |}].

Definition two_notes : State * World :=
  match reduce_all ex_env 4 ex_start two_commits with Ret s => s | _ => ex_start end.

Lemma commit_future_resolves_witness :
  ∃ result,
    CommitFuture_poll "id" (observe ex_noted.1 0) =
      Ret (Some (result, [Action_ClearActionResponse "id"])) ∧
    match result with
    | Ok address =>
        address = Entry_address (Entry_App "note" "secret") ∧
        ∃ top, agent_top_chain_header (st_agent ex_noted.1) = Some top ∧
          entry_address top = address ∧
          entry_type top = Entry_entry_type (Entry_App "note" "secret") ∧
          CoreTypes.link top = ChainHeader_address <$> agent_top_chain_header (st_agent ex_start.1) ∧
          link_update_delete top = None
    | Err _ => agent_top_chain_header (st_agent ex_noted.1) =
               agent_top_chain_header (st_agent ex_start.1)
    end.
Proof.
  apply (commit_future_resolves ex_env 4 ex_start.1 ex_start.2 "id" (Entry_App "note" "secret")
           None [] ex_noted.1 ex_noted.2 0).
  apply (outcome_default _ ex_start). vm_compute. reflexivity.
Defined.

Lemma concurrent_commits_hang_witness :
  CommitFuture_poll "2" (observe two_notes.1 0) = Ret None ∧
  ∃ top, agent_top_chain_header (st_agent two_notes.1) = Some top ∧
         entry_address top = Entry_address (Entry_App "note" "b").
Proof.
  split; [|eexists; split; vm_compute; reflexivity].
  apply (concurrent_commits_hang ex_start.1 ex_start.2 "1" "2" (Entry_App "note" "a")
           (Entry_App "note" "b") [] [] None None "3" [] two_notes.1 two_notes.2 0);
    [done|done| |done].
  apply (reduce_all_reduces ex_env 4 ex_start two_commits (two_notes.1, two_notes.2)).
  apply (outcome_default _ ex_start). vm_compute. reflexivity.
Defined.

End witnesses.
