(* ===== verification/Steps.v ===== *)
(** * What a program does, step by step

    A second way to reason about the programs of [Async]: [does p R] relates what
    a program returns to the events of its run, and [steps] keeps of these what
    the code does to its node.  [did h p x] says that among the events [h] there is a
    whole run of the program [p] that returned [x]; it is how theorems say that a
    check was made and what came of it.  [live_run] runs a program on a node that reduces
    every action as soon as it is dispatched; examples use it. *)

From stdpp Require Import base strings list gmap.
From Stdlib Require Import ZArith.
From S2P Require Import Prelude Errors WasmMemory CoreTypes Dna Storage Action Instances Agent.
From S2P Require Import Network Nucleus DhtStore Instance Async Futures.


Section steps.
Context `{Storage}.

(** What is visible of a run from the outside of the code that runs: the actions
    it dispatches, and the calls of callbacks; of holding an aspect, the entry;
    the clearing of responses is left out. *)
Inductive Step : Type :=
| Step_action (a : Action)
| Step_hold (entry : Entry)
| Step_wasm (zome fn : string).

Definition action_steps (a : Action) : list Step :=
  match a with
  | Action_ClearActionResponse _ => []
  | Action_HoldAspect (Aspect_Content entry _) _ => [Step_hold entry]
  | a => [Step_action a]
  end.

Definition event_steps (e : Event) : list Step :=
  match ev_call e with
  | Call_dispatch a => action_steps a
  | Call_wasm zome fn _ => [Step_wasm zome fn]
  | _ => []
  end.

Definition steps (h : list Event) : list Step := h ≫= event_steps.

Lemma steps_app h1 h2 : steps (h1 ++ h2) = (steps h1 ++ steps h2)%list.
Proof. apply bind_app. Qed.

Lemma steps_cons e h : steps (e :: h) = (event_steps e ++ steps h)%list.
Proof. done. Qed.

(** Whenever the program returns, [R] relates its result to its events. *)
Definition does {A} (p : Prog A) (R : A → list Event → Prop) : Prop :=
  ∀ t x, runs p t (Ret x) → R x t.

Lemma wp_self {A} (p : Prog A) h :
  wp (λ _ _, True) p h (λ h' o, ∃ t, h' = (h ++ t)%list ∧ runs p t o).
Proof.
  revert h. induction p as [o|c k IH]; intros h; cbn.
  - exists []. rewrite app_nil_r. split; [done|constructor].
  - split; [done|]. intros x Hx. eapply wp_mono, IH; [done|].
    intros h' o (t & -> & Ht). exists (Ev c x :: t). rewrite <- (assoc_L app).
    split; [done|]. by constructor.
Qed.

(** Among the events is a whole run of the program, which returned [x]. *)
Definition did {A} (h : list Event) (p : Prog A) (x : A) : Prop :=
  ∃ t1 t t2, h = (t1 ++ t ++ t2)%list ∧ runs p t (Ret x).

Lemma did_prefix {A} h h' (p : Prog A) x : h `prefix_of` h' → did h p x → did h' p x.
Proof.
  intros [t' ->] (t1 & t & t2 & -> & Hr). exists t1, t, (t2 ++ t')%list. by rewrite <- !(assoc_L app).
Qed.

Lemma did_suffix {A} t h (p : Prog A) x : did h p x → did (t ++ h) p x.
Proof. intros (t1 & t' & t2 & -> & Hr). exists (t ++ t1)%list, t', t2. by rewrite <- !(assoc_L app). Qed.

Lemma runs_did {A} (p : Prog A) t x : runs p t (Ret x) → did t p x.
Proof. intros Hr. exists [], t, []. by rewrite app_nil_r. Qed.

(** A program has run when it returns. *)
Lemma wp_did {A} P (p : Prog A) h Q :
  wp P p h (λ h' o, (∀ x, o = Ret x → did h' p x) → Q h' o) → wp P p h Q.
Proof.
  intros Hp. eapply wp_mono, wp_and, (wp_self p); [by intros ? ? [? _]| |exact Hp].
  cbn. intros h' o [HQ (t & -> & Hr)]. apply HQ. intros x ->. by apply did_suffix, runs_did.
Qed.

Lemma does_bind {A B} (p : Prog A) (f : A → Prog B) R1 (R : B → list Event → Prop) :
  does p R1 → (∀ x t1, R1 x t1 → does (f x) (λ y t2, R y (t1 ++ t2)%list)) → does (p ≫= f) R.
Proof.
  intros Hp Hf t y Hr.
  refine (wp_runs (λ _ _, True) _ [] (λ t o, o = Ret y → R y t) _ _ _ Hr eq_refl).
  apply wp_bind. eapply wp_mono, wp_self; [done|].
  intros h1 o1 (t1 & -> & H1). destruct o1 as [x| |]; [|done..].
  eapply wp_mono, wp_self; [done|]. intros h2 o2 (t2 & -> & H2) ->.
  apply (Hf x t1 (Hp t1 x H1) t2 y H2).
Qed.

(** *** What has run, by the parts of the program *)

Lemma did_intro {A} (p : Prog A) x (Φ : list Event → Prop) h :
  (∀ t1 t t2, Φ t → Φ (t1 ++ t ++ t2)%list) → (∀ t, runs p t (Ret x) → Φ t) → did h p x → Φ h.
Proof. intros Happ Hp (t1 & t & t2 & -> & Hr). by apply Happ, Hp. Qed.

Lemma did_bind_inv {A B} (p : Prog A) (f : A → Prog B) h y :
  did h (p ≫= f) y → ∃ x, did h p x ∧ did h (f x) y.
Proof.
  intros (t1 & t & t2 & -> & Hr).
  assert (Hb : does (p ≫= f) (λ y t, ∃ x, did t p x ∧ did t (f x) y)).
  { apply (does_bind _ _ (λ x t, runs p t (Ret x))); [by intros t0 x|].
    intros x t' Hx t'' y' Hy. exists x. split; [eapply did_prefix, runs_did, Hx; by apply prefix_app_r|].
    by apply did_suffix, runs_did. }
  destruct (Hb t y Hr) as (x & Hx & Hy). exists x.
  split; apply did_suffix; (eapply did_prefix; [|done]); by apply prefix_app_r.
Qed.

Lemma did_finish_inv {A} (o : Outcome A) h x : did h (Finish o) x → o = Ret x.
Proof.
  intros (t1 & t & t2 & _ & Hr).
  exact (wp_runs (λ _ _, True) (Finish o) [] (λ _ o', o' = Ret x → o = Ret x) _ _ (λ H, H) Hr eq_refl).
Qed.

Lemma did_try_inv {E A B} (p : Prog (Result E A)) (f : A → Prog (Result E B)) h y :
  did h (try p f) (Ok y) → ∃ x, did h p (Ok x) ∧ did h (f x) (Ok y).
Proof.
  intros ([x|e] & Hp & Hf)%did_bind_inv; [by exists x|]. by apply did_finish_inv in Hf.
Qed.

Lemma did_call_inv c h x : did h (call c) x → Ev c x ∈ h.
Proof.
  intros (t1 & t & t2 & -> & Hr).
  refine (wp_runs (λ _ _, True) _ [] (λ t o, o = Ret x → Ev c x ∈ (t1 ++ t ++ t2)%list) _ _ _ Hr eq_refl).
  apply wp_call. split; [done|]. intros y _ [= <-]. apply elem_of_app; right. apply elem_of_app; left. by left.
Qed.

Lemma did_state_expect h s w : did h state_expect (s, w) → Ev Call_state (Some (s, w)) ∈ h.
Proof.
  intros ([sw|] & Hc & Hr)%did_bind_inv; apply did_finish_inv in Hr; [|done].
  injection Hr as ->. by apply (did_call_inv Call_state) in Hc.
Qed.

Lemma did_get_dna_tries n h d : did h (get_dna_tries n) (Some d) → dna_read h d.
Proof.
  induction n as [|n IH]; cbn [get_dna_tries]; intros ([s w] & Hs & Hd)%did_bind_inv;
    apply did_state_expect in Hs; destruct (Nucleus.dna (st_nucleus s)) as [d'|] eqn:Hn;
    try (apply did_finish_inv in Hd; simplify_eq; by exists s, w).
  by apply IH.
Qed.

Lemma did_get_dna_expect h d : did h get_dna_expect d → dna_read h d.
Proof.
  intros ([d'|] & Hd & Hr)%did_bind_inv; apply did_finish_inv in Hr; [|done]. injection Hr as ->.
  by apply did_get_dna_tries in Hd.
Qed.

Lemma does_finish {A} (o : Outcome A) (R : A → list Event → Prop) :
  (∀ x, o = Ret x → R x []) → does (Finish o) R.
Proof.
  intros HR t y Hr.
  refine (wp_runs (λ _ _, True) _ [] (λ t o, o = Ret y → R y t) _ _ _ Hr eq_refl). exact (HR y).
Qed.

Lemma does_ret {A} (x : A) (R : A → list Event → Prop) : R x [] → does (Finish (Ret x)) R.
Proof. intros HR. apply does_finish. by intros y [= <-]. Qed.

Lemma does_panic {A} (R : A → list Event → Prop) : does panic R.
Proof. by apply does_finish. Qed.

Lemma does_call c (R : answer c → list Event → Prop) :
  (∀ x, R x [Ev c x]) → does (call c) R.
Proof.
  intros HR t y Hr.
  refine (wp_runs (λ _ _, True) _ [] (λ t o, o = Ret y → R y t) _ _ _ Hr eq_refl).
  apply wp_call. split; [done|]. intros x _ [= <-]. apply HR.
Qed.

Lemma does_mono {A} (p : Prog A) (R R' : A → list Event → Prop) :
  does p R → (∀ x t, R x t → R' x t) → does p R'.
Proof. intros Hp HR t x Hr. by apply HR, Hp. Qed.

Lemma does_try {E A B} (p : Prog (Result E A)) (f : A → Prog (Result E B)) R1 R :
  does p R1 → (∀ x t1, R1 (Ok x) t1 → does (f x) (λ y t2, R y (t1 ++ t2)%list)) →
  (∀ e t1, R1 (Err e) t1 → R (Err e) t1) → does (try p f) R.
Proof.
  intros Hp Hf He. unfold try. eapply does_bind; [exact Hp|].
  intros [x|e] t1 H1; [by apply Hf|]. apply does_ret. rewrite app_nil_r. by apply He.
Qed.

(** Steps of a result: [R] for a value, anything for an error. *)
Definition ok_steps {E A} (R : A → list Step → Prop) (r : Result E A) (t : list Event) : Prop :=
  match r with Ok x => R x (steps t) | Err _ => True end.

(** Events of a result. *)
Definition ok_events {E A} (R : A → list Event → Prop) (r : Result E A) (t : list Event) : Prop :=
  match r with Ok x => R x t | Err _ => True end.

Lemma does_then {E A B} (p : Prog (Result E A)) (f : A → Prog (Result E B)) R1 R :
  does p (ok_events R1) →
  (∀ x t1, R1 x t1 → does (f x) (ok_events (λ y t2, R y (t1 ++ t2)%list))) →
  does (try p f) (ok_events R).
Proof.
  intros Hp Hf. eapply does_try; [exact Hp|..|done].
  intros x t1 H1. eapply does_mono; [by apply Hf|]. by intros [y|e] t2.
Qed.

(** Programs that only read. *)
Definition silent {A} (p : Prog A) : Prop := does p (λ _ t, steps t = []).

Lemma silent_bind {A B} (p : Prog A) (f : A → Prog B) (R : B → list Step → Prop) :
  silent p → (∀ x, does (f x) (λ y t, R y (steps t))) → does (p ≫= f) (λ y t, R y (steps t)).
Proof.
  intros Hp Hf. eapply does_bind; [exact Hp|]. intros x t1 H1.
  eapply does_mono; [apply Hf|]. intros y t2 HR. by rewrite steps_app, H1.
Qed.

Lemma does_seq {E A B} (p : Prog (Result E A)) (f : A → Prog (Result E B)) R1 R :
  does p (ok_steps R1) →
  (∀ x l1, R1 x l1 → does (f x) (ok_steps (λ y l2, R y (l1 ++ l2)%list))) →
  does (try p f) (ok_steps R).
Proof.
  intros Hp Hf. eapply does_try; [exact Hp|..|done].
  intros x t1 H1. eapply does_mono; [by apply Hf|].
  intros [y|e] t2; [|done]. unfold ok_steps. by rewrite steps_app.
Qed.

Lemma silent_then {E A B} (p : Prog A) (f : A → Prog (Result E B)) R :
  silent p → (∀ x, does (f x) (ok_steps R)) → does (p ≫= f) (ok_steps R).
Proof.
  intros Hp Hf. eapply does_bind; [exact Hp|]. intros x t1 H1.
  eapply does_mono; [apply Hf|]. intros [y|e] t2; [|done]. unfold ok_steps. by rewrite steps_app, H1.
Qed.

Lemma silent_call c : (∀ x, event_steps (Ev c x) = []) → silent (call c).
Proof. intros Hc. apply does_call. intros x. cbn. by rewrite Hc. Qed.

Ltac silent_call := match goal with |- silent (call ?c) => by apply (silent_call c) end.

Lemma silent_finish {A} (o : Outcome A) : silent (Finish o).
Proof. by apply does_finish. Qed.

(** Awaiting a future takes no step of its own. *)
Definition is_clearing (a : Action) : bool :=
  match a with Action_ClearActionResponse _ => true | _ => false end.

Lemma silent_dispatch_all l : forallb is_clearing l = true → silent (dispatch_all l).
Proof.
  induction l as [|a l IH]; cbn [dispatch_all forallb]; intros Hl; [apply silent_finish|].
  apply andb_prop in Hl as [Ha Hl]. apply (silent_bind _ _ (λ _ l, l = [])); [|intros _; by apply IH].
  apply (silent_call (Call_dispatch a)). intros x. by destruct a.
Qed.

Lemma silent_await {A} ok (poll : PollInput → Poll A) :
  poll_dispatches ok poll → (∀ a, ok a = true → is_clearing a = true) → silent (await poll).
Proof.
  intros Hpoll Hok. apply (silent_bind _ _ (λ _ l, l = [])); [silent_call|].
  intros i. specialize (Hpoll i). destruct (poll i) as [[[x l]|]| |]; try apply silent_finish.
  apply (silent_bind _ _ (λ _ l, l = [])); [|intros _; apply silent_finish].
  apply silent_dispatch_all, forallb_forall. intros a Ha. apply Hok.
  by eapply forallb_forall in Hpoll.
Qed.

Lemma silent_state_expect : silent state_expect.
Proof.
  apply (silent_bind _ _ (λ _ l, l = [])); [silent_call|].
  intros [s|]; apply silent_finish.
Qed.

Lemma silent_get_dna_tries n : silent (get_dna_tries n).
Proof.
  induction n as [|n IH]; cbn [get_dna_tries];
    (apply (silent_bind _ _ (λ _ l, l = [])); [apply silent_state_expect|]);
    intros [s w]; destruct (Nucleus.dna (st_nucleus s)); try apply silent_finish. exact IH.
Qed.

Lemma silent_get_dna_expect : silent get_dna_expect.
Proof.
  apply (silent_bind _ _ (λ _ l, l = [])); [apply silent_get_dna_tries|].
  intros [d|]; apply silent_finish.
Qed.


Lemma does_dispatch {A} (a : Action) (f : string → Prog A) (R : A → list Event → Prop) :
  (∀ id, does (f id) (λ x t, R x (Ev (Call_dispatch a) id :: t))) → does (dispatch_action a ≫= f) R.
Proof.
  intros Hf. eapply (does_bind _ _ (λ id t, t = [Ev (Call_dispatch a) id])).
  - by apply (does_call (Call_dispatch a)).
  - intros id ? ->. apply Hf.
Qed.

Lemma does_dispatch_steps {E A} (a : Action) (f : string → Prog (Result E A)) R :
  (∀ id, does (f id) (ok_steps (λ x l, R x (action_steps a ++ l)%list))) →
  does (dispatch_action a ≫= f) (ok_steps R).
Proof.
  intros Hf. apply does_dispatch. intros id. eapply does_mono; [apply Hf|]. by intros [x|e] t.
Qed.

Lemma silent_ok {E A} (p : Prog (Result E A)) : silent p → does p (ok_steps (λ _ l, l = [])).
Proof. intros Hp. eapply does_mono; [exact Hp|]. by intros [x|e] t. Qed.

End steps.

Ltac silent_step :=
  first
    [ match goal with |- silent (call ?c) => by apply (silent_call c) end
    | apply silent_finish | apply silent_state_expect | apply silent_get_dna_expect
    | apply silent_get_dna_tries ].

(** ** A node that reduces what is dispatched *)

Section live.
Context `{Storage} `{Addressing}.
Variable env : Env.
Variable wasm : string → string → CallbackArgs → WasmRun.

(** The answers of a node in the state [sw], after [n] calls. *)
Definition live_answer (n : nat) (sw : State * World) (c : Call) : answer c :=
  match c as c return answer c with
  | Call_state => Some sw
  | Call_now => 5000000000%Z
  | Call_instant => 0%Z
  | Call_unique_id => N.of_nat n
  | Call_fresh_text => pos_bits (Pos.of_succ_nat n)
  | Call_dispatch _ => pos_bits (Pos.of_succ_nat n)
  | Call_wasm zome fn params => wasm zome fn params
  | Call_await _ => {| poll_channel := Channel_Open; try_state := Some sw.1; poll_instant := 0 |}
  | Call_spawn _ | Call_signal _ _ | Call_sleep _ => ()
  | Call_conductor _ => None
  end.

Definition live_reduce (n : nat) (sw : State * World) (c : Call) : State * World :=
  match c with
  | Call_dispatch a =>
      match State_reduce env 10 sw.1 sw.2
              {| aw_action := a; aw_id := pos_bits (Pos.of_succ_nat n) |} with
      | Ret sw' => sw'
      | _ => sw
      end
  | _ => sw
  end.

Fixpoint live_run {A} (p : Prog A) (n : nat) (sw : State * World) :
    list Event * option (Outcome A) :=
  match p with
  | Finish o => ([], Some o)
  | Do c k =>
      if allowedb c (live_answer n sw c) then
        let '(t, o) := live_run (k (live_answer n sw c)) (S n) (live_reduce n sw c) in
        (Ev c (live_answer n sw c) :: t, o)
      else ([], None)
  end.

Lemma live_run_runs {A} (p : Prog A) n sw o :
  (live_run p n sw).2 = Some o → runs p (live_run p n sw).1 o.
Proof.
  revert n sw. induction p as [o'|c k IH]; intros n sw; cbn [live_run].
  - intros [= <-]. constructor.
  - destruct (allowedb c (live_answer n sw c)) eqn:Ha; [|done].
    specialize (IH (live_answer n sw c) (S n) (live_reduce n sw c)).
    destruct (live_run (k (live_answer n sw c)) (S n) (live_reduce n sw c)) as [t o'].
    intros Ho. constructor; [|by apply IH]. by destruct c.
Qed.

End live.
