(* ===== verification/Packages.v ===== *)
(** * Getting entries and building validation packages

    Models, as programs that run while the state changes:
    [workflows/get_entry_result.rs] and the readers of
    [nucleus/actions/get_entry.rs], [workflows/get_link_result.rs],
    [workflows/get_links_count.rs], [wasm_engine/callback/links_utils.rs],
    [wasm_engine/callback/validation_package.rs],
    [nucleus/actions/build_validation_package.rs],
    [nucleus/validation/build_from_dht.rs] and the first two functions of
    [workflows/mod.rs], all under [src/crates/core/src].

    A validation package is what the author of an entry gives to those who
    validate it: the header of the entry and, if the application asks for it,
    headers and public entries of the author's chain.  The theorems relate the
    package that an author builds to its chain, and the package that another node
    builds from published headers to the answers it gets; and they show that
    getting an entry is the function [GetEntry] models when the state stands
    still, and that a chain of headers need not end. *)

From stdpp Require Import base strings list gmap.
From Stdlib Require Import ZArith.
From S2P Require Import Prelude Errors WasmMemory CoreTypes Dna Storage Action Instances.
From S2P Require Import ContentStore Agent.
From S2P Require Import Network Nucleus ZomeCalls AspectMap DhtStore DhtReducers GetEntry.
From S2P Require Import NetworkHandlers Instance Async Ribosome Futures Steps.

(** ** The node that runs the code *)

(** What a node has besides its state: its agent, the signing service of the
    conductor, the primitives of its cryptography, the upper-casing of link
    types, and the number of steps that loops over its chain and over the DHT
    are followed for. *)
Class Node : Type := {
  node_agent_id : AgentId;
  node_sign : string → Result HolochainError string;
  node_base64_decode : string → option string;
  node_decode_pub_key : string → Result HolochainError string;
  node_sodium_verify : string → string → string → bool;
  node_to_uppercase : string → string;
  node_fuel : nat;
}.

(** [wasm_engine/callback/links_utils.rs] *)
Record LinkDefinitionPath : Type := {
  path_zome_name : string;
  path_entry_type_name : string;
  path_direction : LinkDirection;
  path_link_type : string;
}.

(** [wasm_utils/src/api_serialization/get_links.rs] *)
Record LinksResult : Type := {
  links_result_address : Address;
  links_result_headers : list ChainHeader;
  links_result_tag : string;
  links_result_status : CrudStatus;
}.

Section packages.
Context `{Storage} `{Addressing} `{JsonApi} `{Node}.

(** ** nucleus/actions/get_entry.rs and workflows/get_entry_result.rs *)

Definition get_entry_from_dht (address : Address) : Prog (Result HolochainError (option Entry)) :=
  '(_, w) ← state_expect;
  mret (get (w_cas w) address).

(** The entry and its meta data are read from the DHT at one moment. *)
Definition read_entry_with_meta (address : Address) :
    Prog (Result HolochainError (option EntryWithMeta)) :=
  '(_, w) ← state_expect;
  mret (get_entry_with_meta w address).

Definition read_entry_from_agent_chain (address : Address) :
    Prog (Result HolochainError (option Entry)) :=
  '(s, w) ← state_expect;
  lift_outcome (ZomeCalls.get_entry_from_agent_chain (st_agent s) (w_cas w) node_fuel address).

(** The network is asked for the entry; an answer about links is an error. *)
Definition query_entry (address : Address) (timeout : Duration) :
    Prog (Result HolochainError (option EntryWithMetaAndHeader)) :=
  response ←? query (QueryMethod_Entry address) timeout;
  match response with
  | QueryResult_Entry maybe_entry => ret_ok maybe_entry
  | _ => ret_err (HolochainError_ErrorGeneric "Wrong respond type for Entry")
  end.

Definition get_entry_with_meta_workflow (address : Address) (timeout : Duration) :
    Prog (Result HolochainError (option EntryWithMetaAndHeader)) :=
  maybe_entry_with_meta ←? read_entry_with_meta address;
  match maybe_entry_with_meta with
  | None => query_entry address timeout
  | Some entry =>
      s ← call Call_state;
      match s with
      | None => ret_err (HolochainError_ErrorGeneric "Could not get state")
      | Some (s, w) =>
          headers ← lift_outcome (State_get_headers (st_agent s) (w_cas w) w node_fuel address);
          match headers with
          | Ok headers => ret_ok (Some {| entry_with_meta := entry; ewm_headers := headers |})
          | Err _ => query_entry address timeout
          end
      end
  end.

(** The loop over the updates of an entry. *)
Fixpoint get_entry_history (options : GetEntryOptions) (timeout : Duration) (fuel : nat)
    (address : Address) (entry_result : GetEntryResultType) :
    Prog (Result HolochainError GetEntryResultType) :=
  match fuel with
  | O => Finish NoFuel
  | S fuel =>
      maybe ←? get_entry_with_meta_workflow address timeout;
      match maybe with
      | None => ret_ok entry_result
      | Some x =>
          let meta := entry_with_meta x in
          if bool_decide (status_request options = Latest) &&
             bool_decide (ewm_crud_status meta = Deleted)
          then ret_ok (GetEntryResult_clear entry_result)
          else
            let headers := if want_headers options then ewm_headers x else [] in
            let entry_result := GetEntryResult_push entry_result meta headers in
            if bool_decide (status_request options = Initial) then ret_ok entry_result
            else
              match maybe_link_update_delete meta with
              | Some link =>
                  if bool_decide (ewm_crud_status meta = Deleted) then ret_ok entry_result
                  else get_entry_history options timeout fuel link entry_result
              | None => ret_ok entry_result
              end
      end
  end.

Definition get_entry_result_workflow (address : Address) (options : GetEntryOptions)
    (timeout : Duration) : Prog (Result HolochainError GetEntryResultType) :=
  get_entry_history options timeout node_fuel address (GetEntryResult_new (status_request options)).

(** [Timeout::default()] and [GetEntryOptions::default()]. *)
Definition default_timeout : Duration := millis 60000.
Definition default_options : GetEntryOptions :=
  {| status_request := Latest; want_headers := false |}.

(** ** workflows/get_link_result.rs and workflows/get_links_count.rs *)

Definition am_i_dht_authority_for_base (base : Address) : bool :=
  String.eqb base (AgentId_address node_agent_id).

Definition LinksResult_from (link : GetLinkData) : LinksResult :=
  {| links_result_address := gld_target link;
     links_result_headers := default [] (gld_headers link);
     links_result_tag := gld_tag link; links_result_status := gld_crud_status link |}.

Definition get_link_result_workflow (link_args : GetLinksArgs) :
    Prog (Result HolochainError (list LinksResult)) :=
  let options := links_options link_args in
  let config := {| config_headers := links_headers options; pagination := links_pagination options;
                   sort_order := links_sort_order options |} in
  links ←?
    (if am_i_dht_authority_for_base (links_entry_address link_args) then
       '(s, w) ← state_expect;
       lift_outcome (query_get_links node_to_uppercase (st_agent s) (w_cas w) w node_fuel
                       (links_entry_address link_args) (args_link_type link_args)
                       (args_tag link_args) (crud_status_from_link_args link_args) config)
     else
       response ←? query (QueryMethod_Link link_args (LinksQuery_Links config))
                     (links_timeout options);
       match response with
       | QueryResult_Links (LinksResult_Links links) _ _ => ret_ok links
       | QueryResult_Links _ _ _ => ret_err (HolochainError_ErrorGeneric "Could not get links")
       | QueryResult_Entry _ =>
           ret_err (HolochainError_ErrorGeneric "Wrong type for response type Entry")
       end);
  ret_ok (LinksResult_from <$> links).

Definition get_link_result_count_workflow (link_args : GetLinksArgs) :
    Prog (Result HolochainError nat) :=
  response ←? query (QueryMethod_Link link_args LinksQuery_Count)
                (links_timeout (links_options link_args));
  match response with
  | QueryResult_Links (LinksResult_Count count) _ _ => ret_ok count
  | QueryResult_Links _ _ _ =>
      ret_err (HolochainError_ErrorGeneric "Getting wrong type of GetLinks")
  | QueryResult_Entry _ => ret_err (HolochainError_ErrorGeneric "Could not get link")
  end.

(** ** wasm_engine/callback/links_utils.rs *)

Definition get_link_entries (link : Link) : Prog (Result HolochainError (Entry * Entry)) :=
  base_entry_get_result ←? get_entry_result_workflow (base link) default_options default_timeout;
  if negb (GetEntryResult_found base_entry_get_result) then
    ret_err (HolochainError_ErrorGeneric "Base for link not found: ")
  else
    base_entry ← lift_outcome (unwrap (GetEntryResult_latest base_entry_get_result));
    target_entry_get_result ←?
      get_entry_result_workflow (target link) default_options default_timeout;
    if negb (GetEntryResult_found target_entry_get_result) then
      ret_err (HolochainError_ErrorGeneric "Target for link not found: ")
    else
      target_entry ← lift_outcome (unwrap (GetEntryResult_latest target_entry_get_result));
      ret_ok (base_entry, target_entry).

(** The first link definition of that type in an entry type of a zome. *)
Definition link_definition_in (link_type zome_name : string) (e : EntryType * EntryTypeDef) :
    option LinkDefinitionPath :=
  match e.1 with
  | EntryType_App entry_type_name =>
      let path direction :=
        Some {| path_zome_name := zome_name; path_entry_type_name := entry_type_name;
                path_direction := direction; path_link_type := link_type |} in
      if existsb (λ l, String.eqb (links_to_link_type l) link_type) (links_to e.2) then
        path LinkDirection_To
      else if existsb (λ l, String.eqb (linked_from_link_type l) link_type) (linked_from e.2) then
        path LinkDirection_From
      else None
  | _ => None
  end.

Definition find_link_definition (dna : Dna) (link_type : string) : option LinkDefinitionPath :=
  head (zomes dna ≫= λ '(zome_name, zome),
          omap (link_definition_in link_type zome_name) (entry_types zome)).

Definition find_link_definition_by_type (link_type : string) :
    Prog (Result HolochainError LinkDefinitionPath) :=
  dna ← get_dna_expect;
  mret (ok_or (HolochainError_ErrorGeneric "Unknown entry type")
          (find_link_definition dna link_type)).

(** ** wasm_engine/callback/validation_package.rs *)

(** The definition that the application gives for its links. *)
Definition link_package_definition (link : Link) : Prog (Result HolochainError JsonString) :=
  path ←? find_link_definition_by_type (link_type link);
  run_dna (path_zome_name path) "__hdk_get_validation_package_for_link"
    (Args_LinkValidationPackage (path_entry_type_name path) (path_link_type path)
       (path_direction path)).

Definition definition_of_result (result : JsonString) : Result HolochainError CallbackResult :=
  if json_is_null result then
    Err (HolochainError_SerializationError
           "__hdk_get_validation_package_for_entry_type returned empty result")
  else
    match package_definition_of_json result with
    | Some package => Ok (CallbackResult_ValidationPackageDefinition package)
    | None =>
        Err (HolochainError_SerializationError
               "validation_package result could not be deserialized as ValidationPackage")
    end.

Definition get_validation_package_definition (entry : Entry) :
    Prog (Result HolochainError CallbackResult) :=
  dna ← get_dna_expect;
  let json m := result ←? m; mret (definition_of_result result) in
  match entry with
  | Entry_App app_entry_type _ =>
      zome_name ← lift_outcome (get_zome_name_for_app_entry_type dna app_entry_type);
      match zome_name with
      | None => ret_ok (CallbackResult_NotImplemented "get_validation_package_definition/1")
      | Some zome_name =>
          json (run_dna zome_name "__hdk_get_validation_package_for_entry_type"
                  (Args_EntryType app_entry_type))
      end
  | Entry_LinkAdd link_add => json (link_package_definition (link_data_link link_add))
  | Entry_LinkRemove link_remove _ => json (link_package_definition (link_data_link link_remove))
  | Entry_Deletion _ => json (ret_ok (package_definition_json PackageDef_ChainFull))
  | Entry_CapTokenGrant _ | Entry_AgentId _ | Entry_ChainHeader _ =>
      json (ret_ok (package_definition_json PackageDef_Entry))
  | _ => ret_err (HolochainError_NotImplemented "get_validation_package_definition/3")
  end.

(** The callers' reading of the callback's result. *)
Definition package_definition (entry : Entry) :
    Prog (Result HolochainError ValidationPackageDefinition) :=
  callback_result ←? get_validation_package_definition entry;
  match callback_result with
  | CallbackResult_Fail error_string => ret_err (HolochainError_ErrorGeneric error_string)
  | CallbackResult_ValidationPackageDefinition def => ret_ok def
  | CallbackResult_NotImplemented reason =>
      ret_err (HolochainError_ErrorGeneric "ValidationPackage callback not implemented for ")
  | _ => panic
  end.

(** ** nucleus/actions/build_validation_package.rs *)

(** [EntryType::can_publish] with the DNA of the context. *)
Definition can_publish_entry_type (ty : EntryType) : Prog bool :=
  match ty with
  | EntryType_Dna | EntryType_CapTokenGrant | EntryType_CapTokenClaim => mret false
  | _ =>
      if is_sys ty then mret true
      else dna ← get_dna_expect; lift_outcome (can_publish ty (Some dna))
  end.

(** A public entry that cannot be read panics ([expect]). *)
Fixpoint public_chain_entries_from_headers (headers : list ChainHeader) : Prog (list Entry) :=
  match headers with
  | [] => mret []
  | chain_header :: headers =>
      public ← can_publish_entry_type (entry_type chain_header);
      if (public : bool) then
        '(_, w) ← state_expect;
        match get (w_cas w) (entry_address chain_header) with
        | Ok (Some entry) =>
            entries ← public_chain_entries_from_headers headers; mret (entry :: entries)
        | _ => panic
        end
      else public_chain_entries_from_headers headers
  end.

Definition all_chain_headers : Prog (list ChainHeader) :=
  '(s, w) ← state_expect;
  top ← lift_outcome (unwrap (agent_top_chain_header (st_agent s)));
  lift_outcome (run_iter (ChainStoreIterator_next (w_cas w)) (λ _, true) node_fuel 0 None
                  (Some top)).

Definition all_chain_headers_before_header (header : ChainHeader) : Prog (list ChainHeader) :=
  '(_, w) ← state_expect;
  lift_outcome (run_iter (ChainStoreIterator_next (w_cas w)) (λ _, true) node_fuel 1 None
                  (Some header)).

(** Entries of these types have a validation package. *)
Definition package_precheck (entry : Entry) : Prog (Result HolochainError ()) :=
  match entry with
  | Entry_App app_entry_type _ =>
      '(s, _) ← state_expect;
      dna ← lift_outcome (unwrap (Nucleus.dna (st_nucleus s)));
      zome_name ← lift_outcome (get_zome_name_for_app_entry_type dna app_entry_type);
      match zome_name with
      | None => ret_err (HolochainError_ValidationFailed
                           ("Unknown app entry type '" +:+ app_entry_type +:+ "'"))
      | Some _ => ret_ok ()
      end
  | Entry_LinkAdd _ | Entry_LinkRemove _ _ | Entry_Deletion _ | Entry_CapTokenGrant _
  | Entry_AgentId _ => ret_ok ()
  | _ => ret_err (HolochainError_ValidationFailed "Attempted to validate system entry type ")
  end.

(** The header of the entry on the chain, or a new one that is not stored, whose
    link to an updated or deleted entry is empty. *)
Definition package_header (entry : Entry) (provenances : list Provenance) :
    Prog (Result HolochainError ChainHeader) :=
  '(s, w) ← state_expect;
  maybe_entry_header ←
    lift_outcome (find_chain_header entry (st_agent s) (w_cas w) node_fuel);
  match maybe_entry_header with
  | Some entry_header => ret_ok entry_header
  | None =>
      '(s, w) ←? state_or_error;
      now ← call Call_now;
      lift_outcome (create_new_chain_header node_sign now entry (st_agent s) (w_cas w) node_fuel
                      None provenances)
  end.

Definition with_entries (package : ValidationPackage) (entries : list Entry) : ValidationPackage :=
  {| pkg_chain_header := pkg_chain_header package; source_chain_entries := Some entries;
     source_chain_headers := source_chain_headers package; pkg_custom := pkg_custom package |}.

Definition with_headers (package : ValidationPackage) (headers : list ChainHeader) :
    ValidationPackage :=
  {| pkg_chain_header := pkg_chain_header package;
     source_chain_entries := source_chain_entries package;
     source_chain_headers := Some headers; pkg_custom := pkg_custom package |}.

Definition with_custom (package : ValidationPackage) (custom : string) : ValidationPackage :=
  {| pkg_chain_header := pkg_chain_header package;
     source_chain_entries := source_chain_entries package;
     source_chain_headers := source_chain_headers package; pkg_custom := Some custom |}.

Definition build_validation_package (entry : Entry) (provenances : list Provenance) :
    Prog (Result HolochainError ValidationPackage) :=
  _ ←? package_precheck entry;
  entry_header ←? package_header entry provenances;
  def ←? package_definition entry;
  let package := ValidationPackage_only_header entry_header in
  match def with
  | PackageDef_Entry => ret_ok package
  | PackageDef_ChainEntries =>
      headers ← all_chain_headers_before_header entry_header;
      entries ← public_chain_entries_from_headers headers;
      ret_ok (with_entries package entries)
  | PackageDef_ChainHeaders =>
      headers ← all_chain_headers_before_header entry_header;
      ret_ok (with_headers package headers)
  | PackageDef_ChainFull =>
      headers ← all_chain_headers;
      entries ← public_chain_entries_from_headers headers;
      ret_ok (with_headers (with_entries package entries) headers)
  | PackageDef_Custom string => ret_ok (with_custom package string)
  end.

(** ** nucleus/validation/build_from_dht.rs *)

Definition GET_TIMEOUT_MS : Z := 10000.

(** The [while] loop from the header whose link is next. *)
Fixpoint all_chain_headers_before_header_dht (fuel : nat) (current_header : ChainHeader) :
    Prog (Result HolochainError (list ChainHeader)) :=
  match link current_header with
  | None => ret_ok []
  | Some next_header_addr =>
      match fuel with
      | O => Finish NoFuel
      | S fuel =>
          get_entry_result ← get_entry_with_meta_workflow next_header_addr (millis GET_TIMEOUT_MS);
          match get_entry_result with
          | Ok (Some x) =>
              match ewm_entry (entry_with_meta x) with
              | Entry_ChainHeader chain_header =>
                  headers ←? all_chain_headers_before_header_dht fuel chain_header;
                  ret_ok (chain_header :: headers)
              | _ => ret_err (HolochainError_ErrorGeneric
                  ("When building validation package from DHT, Could not retrieve a header entry at address: "
                   +:+ next_header_addr +:+ ". Got "))
              end
          | _ => ret_err (HolochainError_ErrorGeneric
              ("When building validation package from DHT, Could not retrieve a header entry at address: "
               +:+ next_header_addr +:+ ". Got "))
          end
      end
  end.

(** The headers of public entries, each looked up in the DNA. *)
Fixpoint public_headers (headers : list ChainHeader) : Prog (list ChainHeader) :=
  match headers with
  | [] => mret []
  | header :: headers =>
      public ← can_publish_entry_type (entry_type header);
      rest ← public_headers headers;
      mret (if (public : bool) then header :: rest else rest)
  end.

Fixpoint entries_of_headers_dht (headers : list ChainHeader) :
    Prog (Result HolochainError (list Entry)) :=
  match headers with
  | [] => ret_ok []
  | header :: headers =>
      get_entry_result ←?
        get_entry_with_meta_workflow (entry_address header) (millis GET_TIMEOUT_MS);
      match get_entry_result with
      | Some x =>
          entries ←? entries_of_headers_dht headers;
          ret_ok (ewm_entry (entry_with_meta x) :: entries)
      | None => ret_err (HolochainError_ErrorGeneric
          ("When building validation package from DHT, Could not retrieve entry at address: " +:+
           entry_address header +:+ ". Got: "))
      end
  end.

Definition public_chain_entries_from_headers_dht (headers : list ChainHeader) :
    Prog (Result HolochainError (list Entry)) :=
  public ← public_headers headers;
  entries_of_headers_dht public.

Definition try_make_validation_package_dht (entry_with_header : EntryWithHeader)
    (validation_package_definition : ValidationPackageDefinition) :
    Prog (Result HolochainError ValidationPackage) :=
  let entry_header := ewh_header entry_with_header in
  chain_headers ←? all_chain_headers_before_header_dht node_fuel entry_header;
  let package := ValidationPackage_only_header entry_header in
  match validation_package_definition with
  | PackageDef_Entry => ret_ok package
  | PackageDef_ChainEntries =>
      entries ←? public_chain_entries_from_headers_dht chain_headers;
      ret_ok (with_entries package entries)
  | PackageDef_ChainHeaders => ret_ok (with_headers package chain_headers)
  | PackageDef_ChainFull =>
      entries ←? public_chain_entries_from_headers_dht chain_headers;
      ret_ok (with_entries (with_headers package chain_headers) entries)
  | PackageDef_Custom string => ret_ok (with_custom package string)
  end.

(** ** workflows/mod.rs *)

Definition try_make_local_validation_package (entry_with_header : EntryWithHeader)
    (validation_package_definition : ValidationPackageDefinition) :
    Prog (Result HolochainError ValidationPackage) :=
  let entry_header := ewh_header entry_with_header in
  match validation_package_definition with
  | PackageDef_Entry => ret_ok (ValidationPackage_only_header entry_header)
  | _ =>
      '(s, w) ←? state_or_error;
      agent ←? lift_outcome (get_agent (st_agent s) (w_cas w) node_fuel);
      if existsb (λ p, String.eqb (source p) (AgentId_address agent)) (provenances entry_header)
      then build_validation_package (ewh_entry entry_with_header) (provenances entry_header)
      else ret_err (HolochainError_ErrorGeneric "Can't create validation package locally")
  end.

Definition validation_package (entry_with_header : EntryWithHeader) :
    Prog (Result HolochainError (option ValidationPackage)) :=
  let header := ewh_header entry_with_header in
  def ←? package_definition (ewh_entry entry_with_header);
  local ← try_make_local_validation_package entry_with_header def;
  match local with
  | Ok package => ret_ok (Some package)
  | Err _ =>
      '(s, _) ← state_expect;
      match provenances header with
      | [] => ret_err (HolochainError_ErrorGeneric "No source found in ChainHeader")
      | p :: _ =>
          cached ← lift_outcome (get_validation_package_from_cache (st_network s) (source p) def
                                   header);
          match cached with
          | Some package => ret_ok (Some package)
          | None =>
              response ← get_validation_package header;
              match response with
              | Ok (Some package) => ret_ok (Some package)
              | _ =>
                  result ← try_make_validation_package_dht entry_with_header def;
                  match result with
                  | Ok package => ret_ok (Some package)
                  | Err err => ret_err (HolochainError_ErrorGeneric
                      ("Could not get validation package for " +:+
                       Entry_address (ewh_entry entry_with_header) +:+ ". Error was: " +:+
                       HolochainError_fmt err))
                  end
              end
          end
      end
  end.

End packages.

(** ** Building packages only looks things up *)

Section lookups.
Context `{Storage} `{Addressing} `{JsonApi} `{Node}.

Lemma lookups_get_entry_with_meta_workflow address timeout :
  only_lookups (get_entry_with_meta_workflow address timeout).
Proof.
  unfold get_entry_with_meta_workflow, read_entry_with_meta, query_entry. lookups.
Qed.
#[local] Hint Resolve lookups_get_entry_with_meta_workflow : lookups.

Lemma lookups_get_entry_result_workflow address options timeout :
  only_lookups (get_entry_result_workflow address options timeout).
Proof.
  unfold get_entry_result_workflow. generalize (GetEntryResult_new (status_request options)).
  generalize node_fuel. intros fuel. revert address.
  induction fuel as [|fuel IH]; intros address r; cbn [get_entry_history]; [lookups|].
  lookups.
Qed.
#[local] Hint Resolve lookups_get_entry_result_workflow : lookups.

Lemma lookups_get_link_entries link : only_lookups (get_link_entries link).
Proof. unfold get_link_entries. lookups. Qed.

Lemma lookups_find_link_definition_by_type link_type :
  only_lookups (find_link_definition_by_type link_type).
Proof. unfold find_link_definition_by_type. lookups. Qed.
#[local] Hint Resolve lookups_find_link_definition_by_type : lookups.

Lemma lookups_package_definition entry : only_lookups (package_definition entry).
Proof.
  unfold package_definition, get_validation_package_definition, link_package_definition. lookups.
Qed.
#[local] Hint Resolve lookups_package_definition : lookups.

Lemma lookups_can_publish_entry_type ty : only_lookups (can_publish_entry_type ty).
Proof. unfold can_publish_entry_type. lookups. Qed.
#[local] Hint Resolve lookups_can_publish_entry_type : lookups.

Lemma lookups_public_chain_entries headers :
  only_lookups (public_chain_entries_from_headers headers).
Proof. induction headers as [|header headers IH]; cbn [public_chain_entries_from_headers];
  lookups. Qed.
#[local] Hint Resolve lookups_public_chain_entries : lookups.

Lemma lookups_build_validation_package entry provs :
  only_lookups (build_validation_package entry provs).
Proof.
  unfold build_validation_package, package_precheck, package_header, all_chain_headers,
    all_chain_headers_before_header. lookups.
Qed.
#[local] Hint Resolve lookups_build_validation_package : lookups.

Lemma lookups_chain_headers_dht fuel header :
  only_lookups (all_chain_headers_before_header_dht fuel header).
Proof.
  revert header. induction fuel as [|fuel IH]; intros header;
    cbn [all_chain_headers_before_header_dht]; lookups.
Qed.

Lemma lookups_public_entries_dht headers :
  only_lookups (public_chain_entries_from_headers_dht headers).
Proof.
  unfold public_chain_entries_from_headers_dht. apply lookups_bind.
  - induction headers as [|header headers IH]; cbn [public_headers]; lookups.
  - clear headers. intros headers.
    induction headers as [|header headers IH]; cbn [entries_of_headers_dht]; lookups.
Qed.
#[local] Hint Resolve lookups_chain_headers_dht lookups_public_entries_dht : lookups.

Lemma lookups_validation_package ewh : only_lookups (validation_package ewh).
Proof.
  unfold validation_package, try_make_local_validation_package, try_make_validation_package_dht.
  lookups.
Qed.

End lookups.

#[export] Hint Resolve lookups_get_entry_with_meta_workflow lookups_get_entry_result_workflow
  lookups_get_link_entries lookups_find_link_definition_by_type lookups_package_definition
  lookups_can_publish_entry_type lookups_build_validation_package lookups_validation_package :
  lookups.

(** ** Getting an entry while the state stands still *)

Section at_rest.
Context `{Storage} `{Addressing} `{JsonApi} `{Node}.
Variable s : State.
Variable w : World.
Variable net_query : Address → Result HolochainError NetworkQueryResult.

Definition key_address (key : QueryKey) : Address :=
  match key with
  | QueryKey_Entry key => entry_key_address key
  | QueryKey_Links key => links_base_address key
  end.

(** Every read of the state gave the same state, and every query the answer of
    [net_query]. *)
Definition at_rest (h : list Event) : Prop :=
  (∀ x, Ev Call_state x ∈ h → x = Some (s, w)) ∧
  (∀ h1 key payload timeout id ready i h2,
     h = (h1 ++ Ev (Call_dispatch (Action_Query key payload timeout)) id ::
               Ev (Call_await ready) i :: h2)%list →
     ∃ l, QueryFuture_poll key i = Ret (Some (net_query (key_address key), l))).

Lemma at_rest_prefix h h' : h `prefix_of` h' → at_rest h' → at_rest h.
Proof.
  intros [t ->] [Hs Hq]. split.
  - intros x Hx. apply Hs. apply elem_of_app. by left.
  - intros h1 key payload timeout id ready i h2 ->.
    apply (Hq h1 key payload timeout id ready i (h2 ++ t)%list). by rewrite <- (assoc_L app).
Qed.

Lemma at_rest_state h x : at_rest (h ++ [Ev Call_state x])%list → x = Some (s, w).
Proof.
  intros [Hs _]. apply Hs. apply elem_of_app. right. by apply list_elem_of_singleton.
Qed.

(** What a program gives when nothing moves. *)
Definition gives {A} (p : Prog A) (r : Outcome A) : Prop :=
  ∀ h, wp (λ _ _, True) p h (λ h' o, at_rest h' → o = r).

Lemma gives_finish {A} (o : Outcome A) : gives (Finish o) o.
Proof. by intros h _. Qed.

(** What is known in the runs in which [φ] holds. *)
Lemma wp_when {A} (φ : Prop) (p : Prog A) h Q :
  (φ → wp (λ _ _, True) p h Q) → wp (λ _ _, True) p h (λ h' o, φ → Q h' o).
Proof.
  revert h. induction p as [o|c k IH]; intros h Hp; [done|].
  split; [done|]. intros x Hx. apply IH. intros Hφ. by apply (Hp Hφ).
Qed.

(** A program that gives a value continues with it; the other continuations
    belong to runs in which something moved. *)
Lemma gives_bind {A B} (p : Prog A) (f : A → Prog B) x r :
  gives p (Ret x) → gives (f x) r → gives (p ≫= f) r.
Proof.
  intros Hp Hf h. apply wp_bind. eapply wp_frame; [apply Hp|done|].
  intros h1 [x'| |] Hpre Ho; [|by intros ?%Ho..].
  eapply wp_frame; [apply (wp_when (at_rest h1) _ _ (λ h2 o, at_rest h2 → o = r))|done|].
  - intros Hr. injection (Ho Hr) as ->. apply Hf.
  - intros h2 o Hpre2 Ho2 Hr. apply Ho2; [|done]. by eapply at_rest_prefix.
Qed.

Lemma gives_fails {A B} (p : Prog A) (f : A → Prog B) :
  (gives p Panic → gives (p ≫= f) Panic) ∧ (gives p NoFuel → gives (p ≫= f) NoFuel).
Proof.
  split; intros Hp h; apply wp_bind; (eapply wp_frame; [apply Hp|done|]);
    intros h1 [x| |] Hpre Ho; try (by intros ?%Ho);
    (eapply wp_frame; [apply (wp_when (at_rest h1) _ _ (λ _ _, False))|done|]);
    try (by intros ?%Ho); intros h2 o Hpre2 Ho2 Hr; destruct Ho2; by eapply at_rest_prefix.
Qed.

Lemma gives_state : gives (call Call_state) (Ret (Some (s, w))).
Proof.
  intros h. apply wp_call. split; [done|]. intros x _ Hr. by rewrite (at_rest_state _ _ Hr).
Qed.

Lemma gives_state_expect : gives state_expect (Ret (s, w)).
Proof.
  intros h. apply wp_state_expect; [done|..].
  - intros s' w' Hr. by injection (at_rest_state _ _ Hr) as -> ->.
  - intros Hr. by apply at_rest_state in Hr.
Qed.

Lemma QueryFuture_poll_ends key i :
  QueryFuture_poll key i ≠ Panic ∧ QueryFuture_poll key i ≠ NoFuel.
Proof.
  unfold QueryFuture_poll, poll_network, poll_channel_state. by repeat case_match.
Qed.

Lemma gives_query address timeout :
  gives (query (QueryMethod_Entry address) timeout) (Ret (net_query address)).
Proof.
  intros h. unfold query.
  apply wp_bind, wp_call. split; [done|]. intros fresh _. cbn [query_key].
  apply wp_bind, wp_call. split; [done|]. intros now _.
  apply wp_bind, wp_call. split; [done|]. intros id _.
  set (key := QueryKey_Entry _). apply wp_await; [done|..].
  - intros i x l Hi. split; [done|]. intros h' Hpre Hr.
    apply (at_rest_prefix _ _ Hpre) in Hr as [_ Hq].
    destruct (Hq ((h ++ [Ev Call_fresh_text fresh]) ++ [Ev Call_now now])%list key
      QueryPayload_Entry (Some (now, timeout)) id (poll_ready (QueryFuture_poll key)) i [])
      as [l' Hl']; [by rewrite <- (assoc_L app _ [_] [_])|].
    rewrite Hi in Hl'. by injection Hl' as ->.
  - intros i Hi. by destruct (QueryFuture_poll_ends key i).
  - intros i Hi. by destruct (QueryFuture_poll_ends key i).
Qed.

(** The same for code that returns a [Result]. *)
Lemma gives_try {E A B} (p : Prog (Result E A)) (f : A → Prog (Result E B))
    (r : Outcome (Result E A)) (g : A → Outcome (Result E B)) :
  gives p r → (∀ x, gives (f x) (g x)) →
  gives (try p f) (r ≫= λ r, match r with Ok x => g x | Err e => Ret (Err e) end).
Proof.
  intros Hp Hf. destruct r as [[x|e]| |].
  - eapply gives_bind; [done|apply Hf].
  - eapply gives_bind; [done|apply gives_finish].
  - by apply gives_fails.
  - by apply gives_fails.
Qed.

Lemma gives_lift {A B} (o : Outcome A) (f : A → Prog B) (g : A → Outcome B) :
  (∀ x, gives (f x) (g x)) → gives (lift_outcome o ≫= f) (o ≫= g).
Proof. intros Hf. destruct o as [x| |]; [apply Hf|apply gives_finish..]. Qed.

Lemma gives_query_entry address timeout :
  gives (query_entry address timeout)
    (Ret (response ← net_query address;
          match response with
          | QueryResult_Entry maybe_entry => Ok maybe_entry
          | _ => Err (HolochainError_ErrorGeneric "Wrong respond type for Entry")
          end)).
Proof.
  unfold query_entry, try. eapply gives_bind; [apply gives_query|].
  destruct (net_query address) as [[]|]; apply gives_finish.
Qed.

Lemma gives_get_entry_with_meta_workflow address timeout :
  gives (get_entry_with_meta_workflow address timeout)
    (GetEntry.get_entry_with_meta_workflow net_query (st_agent s) (w_cas w) w node_fuel address).
Proof.
  unfold get_entry_with_meta_workflow, GetEntry.get_entry_with_meta_workflow, try.
  eapply gives_bind.
  { eapply gives_bind; [apply gives_state_expect|apply gives_finish]. }
  destruct (get_entry_with_meta w address) as [[entry|]|e];
    [|apply gives_query_entry|apply gives_finish].
  eapply gives_bind; [apply gives_state|].
  apply gives_lift. intros [headers|e]; [apply gives_finish|apply gives_query_entry].
Qed.

Lemma gives_get_entry_history options timeout fuel address entry_result :
  gives (get_entry_history options timeout fuel address entry_result)
    (history_loop
       (GetEntry.get_entry_with_meta_workflow net_query (st_agent s) (w_cas w) w node_fuel)
       options fuel address entry_result).
Proof.
  revert address entry_result. induction fuel as [|fuel IH]; intros address entry_result;
    [apply gives_finish|].
  cbn [get_entry_history history_loop].
  pose proof (gives_get_entry_with_meta_workflow address timeout) as Hget.
  destruct (GetEntry.get_entry_with_meta_workflow _ _ _ _ _ address) as [[[x|]|e]| |];
    [..|by apply gives_fails|by apply gives_fails];
    (eapply gives_bind; [exact Hget|]); cbn [mbind Outcome_bind]; try apply gives_finish.
  repeat case_match; first [apply IH|apply gives_finish].
Qed.

Lemma at_rest_middle t1 t t2 : at_rest (t1 ++ t ++ t2)%list → at_rest t.
Proof.
  intros [Hs Hq]. split.
  - intros x Hx. apply Hs. rewrite !elem_of_app. auto.
  - intros h1 key payload timeout id ready i h2 ->.
    apply (Hq (t1 ++ h1)%list key payload timeout id ready i (h2 ++ t2)%list). by rewrite <- !(assoc_L app).
Qed.

(** What has run while nothing moved gave what it gives. *)
Lemma gives_did {A} (p : Prog A) x y h : gives p (Ret x) → at_rest h → did h p y → y = x.
Proof.
  intros Hp Hrest (t1 & t & t2 & -> & Hr).
  pose proof (wp_runs _ _ [] _ _ _ (Hp []) Hr (at_rest_middle _ _ _ Hrest)) as He. by injection He as ->.
Qed.

(** *** Packages built from the DHT *)

(** The entry that a node finds at an address. *)
Definition finds (address : Address) (entry : Entry) : Prop :=
  ∃ x, GetEntry.get_entry_with_meta_workflow net_query (st_agent s) (w_cas w) w node_fuel address =
         Ret (Ok (Some x)) ∧
       ewm_entry (entry_with_meta x) = entry.

Lemma finds_by_query address x :
  get_entry_with_meta w address = Ok None → net_query address = Ok (QueryResult_Entry (Some x)) →
  finds address (ewm_entry (entry_with_meta x)).
Proof.
  intros Hw Hq. exists x. split; [|done].
  unfold GetEntry.get_entry_with_meta_workflow. by rewrite Hw, Hq.
Qed.

Lemma gives_finds {B} address timeout entry
    (f : Result HolochainError (option EntryWithMetaAndHeader) → Prog B) r :
  finds address entry →
  (∀ x, ewm_entry (entry_with_meta x) = entry → gives (f (Ok (Some x))) r) →
  gives (get_entry_with_meta_workflow address timeout ≫= f) r.
Proof.
  intros (x & Hx & He) Hf. eapply gives_bind; [|by apply Hf].
  rewrite <- Hx. apply gives_get_entry_with_meta_workflow.
Qed.

(** The headers found from a header by following links. *)
Inductive header_path : ChainHeader → list ChainHeader → Prop :=
| path_end header : link header = None → header_path header []
| path_next header a next l :
    link header = Some a → finds a (Entry_ChainHeader next) → header_path next l →
    header_path header (next :: l).

Lemma gives_header_path fuel header l :
  header_path header l → length l ≤ fuel →
  gives (all_chain_headers_before_header_dht fuel header) (Ret (Ok l)).
Proof.
  intros Hp. revert fuel. induction Hp as [header Hl|header a next l Hl Hfinds _ IH];
    intros [|fuel] Hlen; cbn in Hlen; try lia; cbn [all_chain_headers_before_header_dht]; rewrite Hl;
    try apply gives_finish.
  eapply gives_finds; [done|]. intros x ->. eapply gives_bind; [apply IH; lia|apply gives_finish].
Qed.

(** Headers whose links lead from one to another of them. *)
Definition headers_lead_on (C : ChainHeader → Prop) : Prop :=
  ∀ header, C header →
    ∃ a next, link header = Some a ∧ finds a (Entry_ChainHeader next) ∧ C next.

Lemma gives_headers_lead_on C fuel header :
  headers_lead_on C → C header →
  gives (all_chain_headers_before_header_dht fuel header) NoFuel.
Proof.
  intros HC. revert header. induction fuel as [|fuel IH]; intros header Hh;
    destruct (HC header Hh) as (a & next & Hl & Hfinds & Hnext);
    cbn [all_chain_headers_before_header_dht]; rewrite Hl; [apply gives_finish|].
  eapply gives_finds; [done|]. intros x ->. by apply gives_fails, IH.
Qed.

(** *** Public entries *)

Section with_dna.
Variable dna : Dna.
Hypothesis Hdna : Nucleus.dna (st_nucleus s) = Some dna.

Lemma gives_get_dna_expect : gives get_dna_expect (Ret dna).
Proof.
  unfold get_dna_expect, Context_get_dna. cbn [get_dna_tries].
  apply (gives_bind _ _ (Some dna)); [|apply gives_finish].
  eapply gives_bind; [apply gives_state_expect|]. cbn beta iota. rewrite Hdna. apply gives_finish.
Qed.

Lemma gives_can_publish ty : gives (can_publish_entry_type ty) (can_publish ty (Some dna)).
Proof.
  unfold can_publish_entry_type, can_publish.
  assert (Hd : ∀ o : Dna → Outcome bool, gives (dna ← get_dna_expect; lift_outcome (o dna)) (o dna)).
  { intros o. eapply gives_bind; [apply gives_get_dna_expect|apply gives_finish]. }
  destruct ty; cbn [is_sys is_app negb]; try apply gives_finish.
  apply (Hd (λ dna, can_publish (EntryType_App _) (Some dna))).
Qed.

(** The headers are those of entries that are published or not, as [public]
    says, and [entry_of] gives the published entries. *)
Variable public : ChainHeader → bool.
Variable entry_of : ChainHeader → Entry.

Definition public_entries (headers : list ChainHeader) : list Entry :=
  entry_of <$> filter public headers.

Lemma gives_public_headers headers :
  (∀ header, header ∈ headers → can_publish (entry_type header) (Some dna) = Ret (public header)) →
  gives (public_headers headers) (Ret (filter public headers)).
Proof.
  induction headers as [|header headers IH]; intros Hp; [apply gives_finish|].
  cbn [public_headers]. eapply gives_bind.
  { rewrite <- (Hp header) by (by left). apply gives_can_publish. }
  eapply gives_bind; [apply IH; intros; apply Hp; by right|].
  rewrite filter_cons. destruct (public header); apply gives_finish.
Qed.

Lemma gives_entries_of_headers_dht headers :
  (∀ header, header ∈ headers → finds (entry_address header) (entry_of header)) →
  gives (entries_of_headers_dht headers) (Ret (Ok (entry_of <$> headers))).
Proof.
  induction headers as [|header headers IH]; intros Hf; [apply gives_finish|].
  cbn [entries_of_headers_dht]. unfold try at 1.
  eapply gives_finds; [apply Hf; by left|]. intros x ->.
  eapply gives_bind; [apply IH; intros; apply Hf; by right|apply gives_finish].
Qed.

Lemma gives_public_entries_dht headers :
  (∀ header, header ∈ headers → can_publish (entry_type header) (Some dna) = Ret (public header)) →
  (∀ header, header ∈ headers → public header → finds (entry_address header) (entry_of header)) →
  gives (public_chain_entries_from_headers_dht headers) (Ret (Ok (public_entries headers))).
Proof.
  intros Hp Hf. eapply gives_bind; [by apply gives_public_headers|].
  apply gives_entries_of_headers_dht. intros header [??]%list_elem_of_filter. by apply Hf.
Qed.

Lemma gives_public_entries headers :
  (∀ header, header ∈ headers → can_publish (entry_type header) (Some dna) = Ret (public header)) →
  (∀ header, header ∈ headers → public header →
     get (w_cas w) (entry_address header) = Ok (Some (entry_of header))) →
  gives (public_chain_entries_from_headers headers) (Ret (public_entries headers)).
Proof.
  induction headers as [|header headers IH]; intros Hp Hf; [apply gives_finish|].
  cbn [public_chain_entries_from_headers]. eapply gives_bind.
  { rewrite <- (Hp header) by (by left). apply gives_can_publish. }
  assert (Hrest : gives (public_chain_entries_from_headers headers) (Ret (public_entries headers))).
  { apply IH; intros; [apply Hp|apply Hf]; try done; by right. }
  unfold public_entries. rewrite filter_cons.
  destruct (public header) eqn:Hh; [|exact Hrest].
  eapply gives_bind; [apply gives_state_expect|]. cbn beta iota.
  rewrite (Hf header) by (by left || rewrite Hh). eapply gives_bind; [exact Hrest|apply gives_finish].
Qed.

End with_dna.

End at_rest.

(** ** Surroundings in which the state stands still *)

Section still.
Context `{Storage}.
Variable s : State.
Variable w : World.
Variable net_query : Address → Result HolochainError NetworkQueryResult.
Variable wasm : string → string → CallbackArgs → WasmRun.

Definition answered (key : QueryKey) : State :=
  let net := st_network s in
  {| st_nucleus := st_nucleus s; st_agent := st_agent s; st_dht := st_dht s;
     st_network :=
       {| net_actions := net_actions net; network := Some []; dna_address := Some "dna";
          net_agent_id := Some "agent";
          get_query_results := {[ key := Some (net_query (key_address key)) ]};
          query_timeouts := query_timeouts net;
          get_validation_package_results := get_validation_package_results net;
          get_validation_package_timeouts := get_validation_package_timeouts net;
          direct_message_connections := direct_message_connections net;
          direct_message_timeouts := direct_message_timeouts net;
          custom_direct_message_replys := custom_direct_message_replys net;
          validation_cache := validation_cache net |} |}.

Definition still_oracle (h : list Event) (c : Call) : answer c :=
  match c as c return answer c with
  | Call_state => Some (s, w)
  | Call_now => 0%Z
  | Call_instant => 0%Z
  | Call_unique_id => 0%N
  | Call_fresh_text => "fresh"
  | Call_dispatch _ => "id"
  | Call_wasm zome fn params => wasm zome fn params
  | Call_await _ =>
      {| poll_channel := Channel_Open; poll_instant := 0;
         try_state := match last h with
                      | Some {| ev_call := Call_dispatch (Action_Query key _ _) |} =>
                          Some (answered key)
                      | _ => None
                      end |}
  | Call_spawn _ | Call_signal _ _ | Call_sleep _ => ()
  | Call_conductor _ => None
  end.

(** The events of a run against the oracle. *)
Inductive still_history : list Event → Prop :=
| still_nil : still_history []
| still_snoc h c : still_history h → still_history (h ++ [Ev c (still_oracle h c)]).

Lemma run_to_still {A} stop (p : Prog A) h :
  still_history h → still_history (run_to stop still_oracle p h).1.
Proof.
  revert h. induction p as [o|c k IH]; intros h Hh; cbn [run_to]; [done|].
  destruct (match c with Call_dispatch a => stop a | _ => false end); [done|].
  destruct (allowedb c (still_oracle h c)); [|done]. by apply IH, still_snoc.
Qed.

Lemma still_history_at h1 e h2 :
  still_history (h1 ++ e :: h2) → ∃ c, e = Ev c (still_oracle h1 c).
Proof.
  revert e h1. induction h2 as [|e' h2 IH] using rev_ind; intros e h1 Hh.
  - inversion Hh as [Hn|h c Hh' Hn]; [by destruct h1|].
    apply app_inj_tail in Hn as [-> <-]. by eexists.
  - inversion Hh as [Hn|h c Hh' Hn]; [by destruct h1|].
    rewrite app_comm_cons, (assoc_L app) in Hn. apply app_inj_tail in Hn as [-> _]. by apply IH.
Qed.

Definition state_read (e : Event) : option (option (State * World)) :=
  match e with Ev Call_state x => Some x | _ => None end.
Definition poll_input (e : Event) : option PollInput :=
  match e with Ev (Call_await _) i => Some i | _ => None end.

Lemma still_at_rest h : still_history h → at_rest s w net_query h.
Proof.
  intros Hh. split.
  - intros x (h1 & h2 & ->)%list_elem_of_split.
    apply still_history_at in Hh as [c Hc]. apply (f_equal state_read) in Hc.
    destruct c; cbn in Hc; congruence.
  - intros h1 key payload timeout id ready i h2 ->.
    rewrite cons_middle, (assoc_L app) in Hh. apply still_history_at in Hh as [c Hc].
    apply (f_equal poll_input) in Hc. destruct c; cbn in Hc; try congruence.
    rewrite last_snoc in Hc. injection Hc as ->. eexists.
    unfold QueryFuture_poll, poll_network, poll_channel_state. cbn.
    rewrite lookup_singleton_eq. reflexivity.
Qed.

End still.

(** ** What getting entries and headers gives *)

Section getting.
Context `{Storage} `{Addressing} `{JsonApi} `{Node}.

(** The asynchronous request for an entry does what the synchronous reading
    of [GetEntry] says: in every run during which the state does not change and
    the network answers queries as [net_query] does, its outcome is that of
    [GetEntry.get_entry_result_workflow] on that state and those answers, for
    every address, every option and every timeout. *)
Theorem get_entry_refines s w net_query address options timeout t o :
  runs (get_entry_result_workflow address options timeout) t o →
  at_rest s w net_query t →
  o = GetEntry.get_entry_result_workflow net_query (st_agent s) (w_cas w) w node_fuel address
        options.
Proof.
  intros Hr. exact (wp_runs _ _ [] _ _ _
    (gives_get_entry_history s w net_query options timeout node_fuel address _ []) Hr).
Qed.

(** Following the headers of another agent's chain through the DHT ends when
    they lead to a header without a link, with the headers on the way, and does
    not end, whatever the number of steps, when the headers that are found lead
    from one to another of a set: a peer that answers each address with a header
    that has a link keeps a validator busy forever, as the address of what is
    found is not compared with the address asked for. *)
Theorem header_loop_termination s w net_query header fuel t o :
  runs (all_chain_headers_before_header_dht fuel header) t o → at_rest s w net_query t →
  (∀ l, header_path s w net_query header l → length l ≤ fuel → o = Ret (Ok l)) ∧
  (∀ C, headers_lead_on s w net_query C → C header → o = NoFuel).
Proof.
  intros Hr Hrest. split.
  - intros l Hl Hlen.
    exact (wp_runs _ _ [] _ _ _ (gives_header_path s w net_query fuel header l Hl Hlen []) Hr Hrest).
  - intros C HC Hh. exact (wp_runs _ _ [] _ _ _
      (gives_headers_lead_on s w net_query C fuel header HC Hh []) Hr Hrest).
Qed.

End getting.

(** ** Packages of the author and packages from the DHT *)

Section agreement.
Context `{Storage} `{Addressing} `{!AddressingLaws} `{JsonApi}.

(** The package for a header with the headers of a chain. *)
Definition chain_package (public : ChainHeader → bool) (entry_of : ChainHeader → Entry)
    (header : ChainHeader) (headers : list ChainHeader) (def : ValidationPackageDefinition) :
    ValidationPackage :=
  let package := ValidationPackage_only_header header in
  match def with
  | PackageDef_Entry => package
  | PackageDef_ChainEntries => with_entries package (public_entries public entry_of headers)
  | PackageDef_ChainHeaders => with_headers package headers
  | PackageDef_ChainFull =>
      with_headers (with_entries package (public_entries public entry_of headers)) headers
  | PackageDef_Custom s => with_custom package s
  end.

Section author.
Context `{Node}.
Variable s : State.
Variable w : World.
Variable net_query : Address → Result HolochainError NetworkQueryResult.
Variable dna : Dna.
Variable public : ChainHeader → bool.
Variable entry_of : ChainHeader → Entry.
Variable entry : Entry.
Variable header : ChainHeader.
Variables later before : list ChainHeader.
Let whole := (later ++ header :: before)%list.
Hypothesis Hdna : Nucleus.dna (st_nucleus s) = Some dna.
Hypothesis Hchain : chain (w_cas w) whole.
Hypothesis Htop : agent_top_chain_header (st_agent s) = head whole.
Hypothesis Hfuel : length whole < node_fuel.
Hypothesis Hfind : find_chain_header entry (st_agent s) (w_cas w) node_fuel = Ret (Some header).
Hypothesis Hpublic :
  ∀ h, h ∈ whole → can_publish (entry_type h) (Some dna) = Ret (public h).
Hypothesis Hentries :
  ∀ h, h ∈ whole → public h → get (w_cas w) (entry_address h) = Ok (Some (entry_of h)).

Lemma gives_package_header provs : gives s w net_query (package_header entry provs) (Ret (Ok header)).
Proof.
  unfold package_header. eapply gives_bind; [apply gives_state_expect|]. cbn beta iota.
  rewrite Hfind. apply (gives_bind _ _ _ _ _ (Some header)); apply gives_finish.
Qed.

Lemma gives_all_chain_headers : gives s w net_query all_chain_headers (Ret whole).
Proof.
  unfold all_chain_headers. eapply gives_bind; [apply gives_state_expect|]. cbn beta iota.
  assert (Hhead : ∃ top, head whole = Some top) by (unfold whole; destruct later; by eexists).
  destruct Hhead as [top Hhead]. rewrite Htop, Hhead.
  apply (gives_bind _ _ _ _ _ top); [apply gives_finish|].
  rewrite <- Hhead, (run_iter_yields _ _ _ _ _ _ _ (chain_yields _ _ Hchain) Hfuel).
  cbn [take_limit drop]. rewrite list_filter_all by done. apply gives_finish.
Qed.

Lemma gives_headers_before : gives s w net_query (all_chain_headers_before_header header) (Ret before).
Proof.
  unfold all_chain_headers_before_header.
  eapply gives_bind; [apply gives_state_expect|]. cbn beta iota.
  assert (Hc : chain (w_cas w) (header :: before)) by (by eapply chain_app).
  change (Some header) with (head (header :: before)).
  rewrite (run_iter_yields _ _ _ _ _ _ _ (chain_yields _ _ Hc)).
  - cbn [take_limit]. rewrite list_filter_all by done. apply gives_finish.
  - unfold whole in Hfuel. rewrite length_app in Hfuel. lia.
Qed.

(** Whatever the application asks for. *)
Lemma author_package provs t p :
  did t (build_validation_package entry provs) (Ok p) → at_rest s w net_query t →
  ∃ def, did t (package_definition entry) (Ok def) ∧
    p = chain_package public entry_of header
          match def with PackageDef_ChainFull => whole | _ => before end def.
Proof.
  assert (Hbefore : ∀ h, h ∈ before → h ∈ whole).
  { intros h Hh. apply elem_of_app. right. by right. }
  intros (_ & _ & Hd)%did_try_inv Hrest. apply did_try_inv in Hd as (header' & Hh & Hd).
  apply (gives_did _ _ _ _ _ _ _ (gives_package_header provs) Hrest) in Hh. injection Hh as ->.
  apply did_try_inv in Hd as (def & Hdef & Hd). exists def. split; [done|].
  assert (Hes : ∀ hs, (∀ h, h ∈ hs → h ∈ whole) →
    gives s w net_query (public_chain_entries_from_headers hs) (Ret (public_entries public entry_of hs)))
    by (intros hs Hhs; eapply gives_public_entries; eauto).
  destruct def as [| | | |text]; try (apply did_finish_inv in Hd; by simplify_eq);
    apply did_bind_inv in Hd as (hs & Hhs & Hd);
    (apply (gives_did _ _ _ _ _ _ _ gives_headers_before Hrest) in Hhs ||
     apply (gives_did _ _ _ _ _ _ _ gives_all_chain_headers Hrest) in Hhs); subst hs.
  - apply did_bind_inv in Hd as (es & He & Hd%did_finish_inv).
    apply (gives_did _ _ _ _ _ _ _ (Hes _ Hbefore) Hrest) in He. by simplify_eq.
  - apply did_finish_inv in Hd. by simplify_eq.
  - apply did_bind_inv in Hd as (es & He & Hd%did_finish_inv).
    apply (gives_did _ _ _ _ _ _ _ (Hes _ (λ _ Hh, Hh)) Hrest) in He. by simplify_eq.
Qed.

End author.

Lemma gives_dht_package `{Node} s w net_query dna public entry_of ewh before def :
  Nucleus.dna (st_nucleus s) = Some dna → length before ≤ node_fuel →
  header_path s w net_query (ewh_header ewh) before →
  (∀ h, h ∈ before → can_publish (entry_type h) (Some dna) = Ret (public h)) →
  (∀ h, h ∈ before → public h → finds s w net_query (entry_address h) (entry_of h)) →
  gives s w net_query (try_make_validation_package_dht ewh def)
    (Ret (Ok (chain_package public entry_of (ewh_header ewh) before def))).
Proof.
  intros Hdna Hlen Hpath Hpublic Hentries. unfold try_make_validation_package_dht.
  eapply gives_bind; [by apply gives_header_path|].
  destruct def; try apply gives_finish;
    (eapply gives_bind; [by eapply gives_public_entries_dht|apply gives_finish]).
Qed.

Lemma chain_header_path `{Node} s w net_query cas header before :
  chain cas (header :: before) →
  (∀ h, h ∈ before → finds s w net_query (ChainHeader_address h) (Entry_ChainHeader h)) →
  header_path s w net_query header before.
Proof.
  revert header. induction before as [|next before IH]; intros header Hc Hf;
    inversion Hc as [|?? _ Hl _ Hc']; subst; [by apply path_end|].
  eapply path_next; [exact Hl|apply Hf; by left|]. apply IH; [done|]. intros h Hh. apply Hf. by right.
Qed.

(** C19: A validator that finds the headers and the public entries of an author's
    chain in the DHT builds the package that the author gives for an entry on
    that chain, for the definition [def] that the author's run of the application's
    callback returned, with one exception: a package of the full chain has all headers
    (and public entries) of the author's chain, the entry's own and later ones included,
    where the one from the DHT has those before the entry.  Both runs see a state that
    stands still, of the same DNA. *)
Theorem dht_package_agrees (author validator : Node) sa wa net_a sv wv net_v dna public entry_of
    entry header later before provs ta p :
  Nucleus.dna (st_nucleus sa) = Some dna → Nucleus.dna (st_nucleus sv) = Some dna →
  chain (w_cas wa) (later ++ header :: before) →
  agent_top_chain_header (st_agent sa) = head (later ++ header :: before) →
  length (later ++ header :: before) < @node_fuel author → length before ≤ @node_fuel validator →
  find_chain_header entry (st_agent sa) (w_cas wa) (@node_fuel author) = Ret (Some header) →
  (∀ h, h ∈ later ++ header :: before → can_publish (entry_type h) (Some dna) = Ret (public h)) →
  (∀ h, h ∈ later ++ header :: before → public h →
     get (w_cas wa) (entry_address h) = Ok (Some (entry_of h))) →
  (∀ h, h ∈ before → finds sv wv net_v (ChainHeader_address h) (Entry_ChainHeader h)) →
  (∀ h, h ∈ before → public h → finds sv wv net_v (entry_address h) (entry_of h)) →
  runs (@build_validation_package _ _ _ author entry provs) ta (Ret (Ok p)) →
  at_rest sa wa net_a ta →
  ∃ def, did ta (package_definition entry) (Ok def) ∧
    p = chain_package public entry_of header
          match def with
          | PackageDef_ChainFull => later ++ header :: before
          | _ => before
          end def ∧
    ∀ tv o, runs (@try_make_validation_package_dht _ _ validator
                    {| ewh_entry := entry; ewh_header := header |} def) tv o →
      at_rest sv wv net_v tv →
      o = Ret (Ok (chain_package public entry_of header before def)).
Proof.
  intros Hda Hdv Hc Htop Hfa Hfv Hfind Hpublic Hentries Hheaders Hfound Hrun Hrest.
  destruct (author_package sa wa net_a dna public entry_of entry header later
    before Hda Hc Htop Hfa Hfind Hpublic Hentries provs ta p (runs_did _ _ _ Hrun) Hrest) as (def & Hd & Hp).
  exists def. split; [done|]. split; [done|]. intros tv o Ho.
  refine (wp_runs _ _ [] _ _ _ (gives_dht_package sv wv net_v dna public entry_of
    {| ewh_entry := entry; ewh_header := header |} before def Hdv Hfv _ _ Hfound []) Ho).
  - eapply chain_header_path; [by eapply chain_app|done].
  - intros h Hh. apply Hpublic. apply elem_of_app. right. by right.
Qed.

End agreement.

(** ** A node for examples *)

Definition ex_json_api : JsonApi := {|
  args_json _ := "{}";
  from_json s := s;
  package_definition_json d :=
    match d with
    | PackageDef_Entry => "Entry"
    | PackageDef_ChainEntries => "ChainEntries"
    | PackageDef_ChainHeaders => "ChainHeaders"
    | PackageDef_ChainFull => "ChainFull"
    | PackageDef_Custom s => "=" +:+ s
    end;
  package_definition_of_json s :=
    if String.eqb s "Entry" then Some PackageDef_Entry
    else if String.eqb s "ChainEntries" then Some PackageDef_ChainEntries
    else if String.eqb s "ChainHeaders" then Some PackageDef_ChainHeaders
    else if String.eqb s "ChainFull" then Some PackageDef_ChainFull
    else match s with String _ r => Some (PackageDef_Custom r) | EmptyString => None end;
|}.

Lemma ex_json_api_laws : @JsonApiLaws ex_json_api.
Proof. by split; intros []. Qed.

(** A signature is valid when it is the text "sig". *)
Definition ex_node : Node := {|
  node_agent_id := {| nick := "alice"; pub_sign_key := "alice" |};
  node_sign _ := Ok "sig"%string;
  node_base64_decode := Some;
  node_decode_pub_key := Ok;
  node_sodium_verify sig _ _ := String.eqb sig "sig";
  node_to_uppercase s := s;
  node_fuel := 10;
|}.

Section witnesses.
#[local] Existing Instance memory_storage.
#[local] Existing Instance memory_storage_laws.
#[local] Existing Instance toy_addressing.
#[local] Existing Instance toy_addressing_laws.
#[local] Existing Instance ex_json_api.
#[local] Existing Instance ex_node.

(** A zome that answers with a text. *)
Definition zome_answers (text : string) : WasmRun :=
  let bytes := bytes_of_string text in
  Wasm_Instance (replicate 64 0%Z) (λ _ _,
    Wasm_Value (WasmAllocation_as_ribosome_encoding
                  {| offset := 0; length_ := Z.of_nat (length bytes) |})
      (bytes ++ replicate 64 0%Z)%list).

(** The application asks for packages with the entries of the chain. *)
Definition chain_entries_zome (zome fn : string) (params : CallbackArgs) : WasmRun :=
  zome_answers "ChainEntries".

Definition still_run {A} (s : State) (w : World)
    (net_query : Address → Result HolochainError NetworkQueryResult) (p : Prog A) :
    list Event * Prog A :=
  run_to (λ _, false) (still_oracle s w net_query chain_entries_zome) p [].

Lemma still_run_at_rest {A} s w net_query (p : Prog A) : at_rest s w net_query (still_run s w net_query p).1.
Proof. apply (still_at_rest s w net_query chain_entries_zome), run_to_still, still_nil. Qed.

Definition outcome_of {A} (p : Prog A) : Outcome A := default NoFuel (finished p).

Definition ended {A} (p : Prog A) : bool := match finished p with Some _ => true | None => false end.

Lemma still_run_runs {A} s w net_query (p : Prog A) :
  ended (still_run s w net_query p).2 = true →
  runs p (still_run s w net_query p).1 (outcome_of (still_run s w net_query p).2).
Proof.
  intros Hd. apply finished_runs. unfold ended, outcome_of in *. unfold still_run in Hd.
  by destruct (finished _).
Qed.

(** A peer that holds the posts of [GetEntry]. *)
Definition peer_query (address : Address) : Result HolochainError NetworkQueryResult :=
  match get_entry_with_meta_workflow_local reader reader_cas held_b 10 address with
  | Ret (Ok x) => Ok (QueryResult_Entry x)
  | _ => Err HolochainError_DnaMissing
  end.

Definition ask_post : Prog (Result HolochainError GetEntryResultType) :=
  get_entry_result_workflow (Entry_address (post "a")) default_options default_timeout.

Lemma get_entry_refines_witness :
  let run := still_run (State_new "alice") no_world peer_query ask_post in
  is_ret (outcome_of run.2) = true ∧ length run.1 = 12 ∧
  outcome_of run.2 =
    GetEntry.get_entry_result_workflow peer_query (st_agent (State_new "alice")) (w_cas no_world)
      no_world node_fuel (Entry_address (post "a")) default_options.
Proof.
  split; [vm_compute; reflexivity|]. split; [vm_compute; reflexivity|].
  apply (get_entry_refines (State_new "alice") no_world peer_query (Entry_address (post "a"))
           default_options default_timeout (still_run (State_new "alice") no_world peer_query ask_post).1).
  - apply still_run_runs. vm_compute. reflexivity.
  - apply still_run_at_rest.
Defined.

(** A peer that answers every address with a header that links on. *)
Definition liar_header : ChainHeader :=
  {| entry_type := EntryType_App "post"; entry_address := "x"; provenances := [];
     link := Some "next"; link_same_type := None; link_update_delete := None;
     timestamp := {| timestamp_nanos := 1 |} |}.

Definition found_as (entry : Entry) : EntryWithMetaAndHeader :=
  {| entry_with_meta := {| ewm_entry := entry; ewm_crud_status := Live;
                           maybe_link_update_delete := None |};
     ewm_headers := [] |}.

Definition liar_query (address : Address) : Result HolochainError NetworkQueryResult :=
  Ok (QueryResult_Entry (Some (found_as (Entry_ChainHeader liar_header)))).

Lemma header_loop_termination_witness :
  let run := still_run (State_new "alice") no_world liar_query
               (all_chain_headers_before_header_dht 5 liar_header) in
  outcome_of run.2 = NoFuel.
Proof.
  intros run.
  apply (header_loop_termination (State_new "alice") no_world liar_query liar_header 5 run.1)
    with (C := λ h, h = liar_header).
  - apply still_run_runs. vm_compute. reflexivity.
  - apply still_run_at_rest.
  - intros ? ->. exists "next", liar_header. split; [reflexivity|]. split; [|reflexivity].
    refine (finds_by_query _ _ _ _ _ _ eq_refl). vm_compute. reflexivity.
  - reflexivity.
Defined.

(** An author's chain of two posts, of which the second is validated. *)
Definition posts_dna : Dna :=
  {| dna_name := "posts"; dna_description := ""; dna_version := "1"; dna_uuid := "0";
     dna_spec_version := "2.0"; dna_properties := "{}";
     zomes := [("main",
       {| zome_description := "";
          entry_types := [(EntryType_App "post",
            {| def_properties := "{}"; sharing := Sharing_Public; links_to := [];
               linked_from := [] |})];
          traits := []; fn_declarations := []; code := [0%Z]; zome_bridges := [] |})] |}.

Definition next_header (v : string) (previous : option ChainHeader) : ChainHeader :=
  {| entry_type := EntryType_App "post"; entry_address := Entry_address (post v);
     provenances := [{| source := "alice"; signature := "sig" |}];
     link := ChainHeader_address <$> previous; link_same_type := ChainHeader_address <$> previous;
     link_update_delete := None; timestamp := {| timestamp_nanos := 1 |} |}.
Definition post_1 : ChainHeader := next_header "a" None.
Definition post_2 : ChainHeader := next_header "b" (Some post_1).

Definition posts_world : World :=
  {| w_cas := list_to_map
       ([(Entry_address (post "a"), entry_json (post "a"));
         (Entry_address (post "b"), entry_json (post "b"));
         (ChainHeader_address post_1, ChainHeader_content post_1);
         (ChainHeader_address post_2, ChainHeader_content post_2)]) : gmap string string;
     w_eav := [] |}.

Definition posts_state (top : option ChainHeader) : State :=
  let s := State_new "alice" in
  {| st_nucleus := with_dna (st_nucleus s) (Some posts_dna);
     st_agent := AgentState_new_with_top_chain_header top "alice";
     st_dht := st_dht s; st_network := st_network s |}.

Definition posts_query (address : Address) : Result HolochainError NetworkQueryResult :=
  Ok (QueryResult_Entry (Some (found_as
    (if String.eqb address (ChainHeader_address post_1) then Entry_ChainHeader post_1
     else post "a")))).

Definition post_of (h : ChainHeader) : Entry :=
  default (post "") (toy_entry_of_json (entry_address h)).

Lemma posts_chain : chain (w_cas posts_world) [post_2; post_1].
Proof. repeat (constructor; [vm_compute; reflexivity|reflexivity|reflexivity|]). constructor. Qed.

Definition publish_post : Prog (Result HolochainError ValidationPackage) :=
  build_validation_package (post "b") [].

Definition package_of {A} (p : Prog (Result HolochainError A)) (d : A) : A :=
  match outcome_of p with Ret (Ok p) => p | _ => d end.

Lemma dht_package_agrees_witness :
  let run := still_run (posts_state (Some post_2)) posts_world liar_query publish_post in
  let p := package_of run.2 (ValidationPackage_only_header post_1) in
  source_chain_entries p = Some [post "a"] ∧
  ∃ def, did run.1 (package_definition (post "b")) (Ok def) ∧
    p = chain_package (λ _, true) post_of post_2
          match def with
          | PackageDef_ChainFull => [] ++ post_2 :: [post_1]
          | _ => [post_1]
          end def ∧
    ∀ tv o, runs (try_make_validation_package_dht
                    {| ewh_entry := post "b"; ewh_header := post_2 |} def) tv o →
      at_rest (posts_state None) no_world posts_query tv →
      o = Ret (Ok (chain_package (λ _, true) post_of post_2 [post_1] def)).
Proof.
  intros run p. split; [vm_compute; reflexivity|].
  apply (dht_package_agrees ex_node ex_node (posts_state (Some post_2)) posts_world liar_query
           (posts_state None) no_world posts_query posts_dna (λ _, true) post_of (post "b") post_2
           [] [post_1] [] run.1 p).
  - reflexivity.
  - reflexivity.
  - exact posts_chain.
  - reflexivity.
  - vm_compute. lia.
  - vm_compute. lia.
  - vm_compute. reflexivity.
  - intros h Hh. repeat (apply elem_of_cons in Hh as [->|Hh]; [vm_compute; reflexivity|]).
    by apply elem_of_nil in Hh.
  - intros h Hh _. repeat (apply elem_of_cons in Hh as [->|Hh]; [vm_compute; reflexivity|]).
    by apply elem_of_nil in Hh.
  - intros h ->%list_elem_of_singleton.
    apply (finds_by_query _ _ _ _ (found_as (Entry_ChainHeader post_1))); vm_compute; reflexivity.
  - intros h ->%list_elem_of_singleton _.
    apply (finds_by_query _ _ _ _ (found_as (post "a"))); vm_compute; reflexivity.
  - assert (Ho : outcome_of run.2 = Ret (Ok p)) by (vm_compute; reflexivity).
    rewrite <- Ho. apply still_run_runs. vm_compute. reflexivity.
  - apply still_run_at_rest.
Defined.

End witnesses.
