(* ===== verification/Validation.v ===== *)
(** * Validation of entries

    Models [core/src/nucleus/validation]: the check that a validation package
    belongs to an entry ([header_address.rs], [provenances.rs]), the validation of
    each type of entry ([app_entry.rs], [link_entry.rs], [remove_entry.rs],
    [agent_entry.rs]) with the callback into the application
    ([nucleus/actions/run_validation_callback.rs]), and what the workflows make of
    a failed validation ([mod.rs]).

    The main lemma, [did_validate_entry], says what a validation that succeeds has
    checked.  The theorems about single validations are here too: when links can
    be validated, and what happens to an entry that does not match its schema. *)

From stdpp Require Import base strings list gmap.
From Stdlib Require Import ZArith.
From S2P Require Import Prelude Errors WasmMemory CoreTypes Dna Storage Action Instances.
From S2P Require Import ContentStore Agent.
From S2P Require Import Network Nucleus ZomeCalls AspectMap DhtStore DhtReducers GetEntry.
From S2P Require Import Instance Async Ribosome Futures Steps Packages.

(** ** mod.rs *)

Inductive ValidationError : Type :=
| ValidationError_Fail (reason : string)
| ValidationError_UnresolvedDependencies (dependencies : list Address)
| ValidationError_NotImplemented
| ValidationError_Error (e : HolochainError).

Definition HolochainError_from_validation (ve : ValidationError) : HolochainError :=
  match ve with
  | ValidationError_Fail reason => HolochainError_ValidationFailed reason
  | ValidationError_UnresolvedDependencies _ =>
      HolochainError_ValidationFailed "Missing dependencies"
  | ValidationError_NotImplemented => HolochainError_NotImplemented "Validation not implemented"
  | ValidationError_Error e => e
  end.

Inductive ValidationContext : Type :=
| ValidationContext_Authoring
| ValidationContext_Holding.

Definition process_validation_err (err : ValidationError) : HolochainError :=
  match err with
  | ValidationError_UnresolvedDependencies _ => HolochainError_ValidationPending
  | ValidationError_Error (HolochainError_Timeout _) => HolochainError_ValidationPending
  | _ => HolochainError_from_validation err
  end.

(** The headers of the package that are not older than the header of the entry
    are dropped. *)
Definition cleanup_validation_data (validation_data : ValidationData) : ValidationData :=
  let p := package validation_data in
  match source_chain_headers p with
  | None => validation_data
  | Some headers =>
      let t := timestamp_nanos (timestamp (pkg_chain_header p)) in
      {| package := with_headers p
           (filter (λ h, (timestamp_nanos (timestamp h) < t)%Z) headers);
         lifecycle := lifecycle validation_data |}
  end.

(** ** header_address.rs and provenances.rs *)

Definition validate_header_address `{Addressing} (entry : Entry) (header : ChainHeader) :
    Result ValidationError () :=
  if String.eqb (Entry_address entry) (entry_address header) then Ok ()
  else Err (ValidationError_Fail "Wrong header for entry").

Section validation.
Context `{Storage} `{Addressing} `{JsonApi} `{Node}.

(** [Provenance::verify]. *)
Definition provenance_verify (p : Provenance) (data : string) : Result HolochainError bool :=
  verify node_base64_decode node_decode_pub_key node_sodium_verify (source p) data (signature p).

Definition validate_provenance (header : ChainHeader) (provenance : Provenance) :
    Result ValidationError () :=
  match provenance_verify provenance (entry_address header) with
  | Err _ => Err (ValidationError_Fail
      ("Signature of entry " +:+ entry_address header +:+ " from author " +:+ source provenance +:+
       " failed to verify public signing key. Key might be invalid."))
  | Ok false => Err (ValidationError_Fail
      ("Signature of entry " +:+ entry_address header +:+ " from author " +:+ source provenance +:+
       " invalid"))
  | Ok true => Ok ()
  end.

(** Collecting the results stops at the first error. *)
Definition validate_provenances (validation_data : ValidationData) : Result ValidationError () :=
  let header := pkg_chain_header (package validation_data) in
  foldr (λ p r, match validate_provenance header p with Ok _ => r | Err e => Err e end) (Ok ())
    (provenances header).

(** ** nucleus/actions/run_validation_callback.rs *)

(** [panic!] on what the ribosome does not explain. *)
Definition run_validation_callback (zome_name fn_name : string) (parameters : CallbackArgs) :
    Prog (Result ValidationError ()) :=
  r ← run_dna zome_name fn_name parameters;
  match r with
  | Ok call_result =>
      if json_is_null call_result then ret_ok () else ret_err (ValidationError_Fail call_result)
  | Err (HolochainError_RibosomeFailed error_string) =>
      if String.eqb error_string "Argument deserialization failed" then
        ret_err (ValidationError_Error
          (HolochainError_ErrorGeneric "JSON object does not match entry schema"))
      else panic
  | Err _ => panic
  end.

(** ** mod.rs: the data of a validation *)

Definition get_entry_with_header (address : Address) :
    Prog (Result HolochainError (EntryWithMeta * ChainHeader)) :=
  pair ←? get_entry_with_meta_workflow address default_timeout;
  match pair with
  | None => ret_err (HolochainError_ErrorGeneric "Could not get chain")
  | Some x =>
      match last (ewm_headers x) with
      | None => ret_err (HolochainError_ErrorGeneric "Could not get last entry from chain")
      | Some latest_header => ret_ok (entry_with_meta x, latest_header)
      end
  end.

(** A timeout stays one; other errors become a message. *)
Definition lookup_failed (message : string) (e : HolochainError) : HolochainError :=
  match e with
  | HolochainError_Timeout _ => e
  | _ => HolochainError_ErrorGeneric (message +:+ HolochainError_fmt e)
  end.

Definition entry_to_validation_data (entry : Entry) (maybe_link_update_delete : option Address)
    (validation_data : ValidationData) :
    Prog (Result HolochainError (EntryValidationData Entry)) :=
  match entry with
  | Entry_App _ _ =>
      match maybe_link_update_delete with
      | None => ret_ok (EntryValidationData_Create entry validation_data)
      | Some link_update =>
          r ← get_entry_with_header link_update;
          mret match r with
               | Ok (old, old_header) =>
                   Ok (EntryValidationData_Modify entry (ewm_entry old) old_header validation_data)
               | Err e =>
                   Err (lookup_failed "Could not find App Entry during validation, got err: " e)
               end
      end
  | Entry_Deletion deletion_entry =>
      r ← get_entry_with_header (deleted_entry_address deletion_entry);
      mret match r with
           | Ok (old, old_header) =>
               Ok (EntryValidationData_Delete (ewm_entry old) old_header validation_data)
           | Err e =>
               Err (lookup_failed "Could not find Delete Entry during validation, got err: " e)
           end
  | Entry_CapTokenGrant _ => ret_ok (EntryValidationData_Create entry validation_data)
  | _ => ret_err (HolochainError_NotImplemented "Not implemented")
  end.

(** ** app_entry.rs *)

(** [map_err] on the result of a program. *)
Definition map_err_p {E F A} (f : E → F) (m : Prog (Result E A)) : Prog (Result F A) :=
  r ← m; mret (map_err f r).

(** An update is looked for in the local DHT first, but only a failing storage
    matters: an entry that is missing goes on. *)
Definition validate_app_entry (entry : Entry) (app_entry_type : string) (link : option Address)
    (validation_data : ValidationData) : Prog (Result ValidationError ()) :=
  dna ← get_dna_expect;
  zome_name ← lift_outcome (get_zome_name_for_app_entry_type dna app_entry_type);
  match zome_name with
  | None => ret_err ValidationError_NotImplemented
  | Some zome_name =>
      _ ←? match link with
           | None => ret_ok ()
           | Some expected_link_update =>
               _ ←? map_err_p (λ _, ValidationError_UnresolvedDependencies [expected_link_update])
                      (get_entry_from_dht expected_link_update);
               ret_ok ()
           end;
      data ←? map_err_p ValidationError_Error
                (entry_to_validation_data entry link validation_data);
      run_validation_callback zome_name "__hdk_validate_app_entry" (Args_EntryValidation data)
  end.

(** ** remove_entry.rs *)

Definition validate_remove_entry (entry : Entry) (deletion_entry : DeletionEntry)
    (validation_data : ValidationData) : Prog (Result ValidationError ()) :=
  dna ← get_dna_expect;
  let deletion_address := deleted_entry_address deletion_entry in
  maybe_entry ←? map_err_p (λ _, ValidationError_UnresolvedDependencies [deletion_address])
                   (get_entry_from_dht deletion_address);
  match maybe_entry with
  | None => ret_err (ValidationError_Fail "Could not obtain entry for link_update_delte")
  | Some (Entry_App app_entry_type _) =>
      zome_name ← lift_outcome (get_zome_name_for_app_entry_type dna app_entry_type);
      match zome_name with
      | None => ret_err ValidationError_NotImplemented
      | Some zome_name =>
          data ←? map_err_p (λ _, ValidationError_Fail "Could not get entry validation")
                    (entry_to_validation_data entry None validation_data);
          run_validation_callback zome_name "__hdk_validate_app_entry" (Args_EntryValidation data)
      end
  | Some _ => ret_err (ValidationError_Fail "Entry type should be App Type")
  end.

(** ** agent_entry.rs *)

(** The callbacks run one after the other; all of them run. *)
Fixpoint run_agent_callbacks (zome_names : list string) (parameters : CallbackArgs) :
    Prog (list (Result ValidationError ())) :=
  match zome_names with
  | [] => mret []
  | zome_name :: rest =>
      r ← run_validation_callback zome_name "__hdk_validate_agent_entry" parameters;
      results ← run_agent_callbacks rest parameters;
      mret (r :: results)
  end.

Definition validate_agent_entry (agent_id : AgentId) (validation_data : ValidationData) :
    Prog (Result ValidationError ()) :=
  dna ← get_dna_expect;
  results ← run_agent_callbacks (fst <$> zomes dna)
              (Args_AgentIdValidation (EntryValidationData_Create agent_id validation_data));
  if forallb is_ok results then ret_ok ()
  else ret_err (ValidationError_Error
         (HolochainError_ErrorGeneric "Failed to validate agent ID on a zome, ")).

(** ** link_entry.rs *)

(** A removal is validated for holding only once the links it removes are held. *)
Fixpoint check_links_held (links_to_remove : list Address) : Prog (Result ValidationError ()) :=
  match links_to_remove with
  | [] => ret_ok ()
  | link :: rest =>
      maybe_entry_with_meta ←?
        map_err_p (λ e, ValidationError_Error (HolochainError_ErrorGeneric
                          ("Could not lookup LinkAdd locally: " +:+ HolochainError_fmt e)))
          (read_entry_with_meta link);
      match maybe_entry_with_meta with
      | None => ret_err (ValidationError_UnresolvedDependencies [link])
      | Some _ => check_links_held rest
      end
  end.

(** The types of base and target that a definition asks for; a definition that
    the DNA does not have panics ([expect]). *)
Definition link_types (dna : Dna) (path : LinkDefinitionPath) : Outcome (string * string) :=
  maybe_def ← get_entry_type_def dna (path_entry_type_name path);
  entry_def ← unwrap maybe_def;
  match path_direction path with
  | LinkDirection_To =>
      '(_, link_def) ← unwrap (list_find (λ l, links_to_link_type l = path_link_type path)
                                 (links_to entry_def));
      Ret (path_entry_type_name path, links_to_target_type link_def)
  | LinkDirection_From =>
      '(_, link_def) ← unwrap (list_find (λ l, linked_from_link_type l = path_link_type path)
                                 (linked_from entry_def));
      Ret (linked_from_base_type link_def, path_entry_type_name path)
  end.

(** The messages name the expected type as the one found, and the reverse. *)
Definition check_link_types (link : Link) (base target : Entry) (types : string * string) :
    Result ValidationError () :=
  let '(base_type, target_type) := types in
  if negb (String.eqb (EntryType_to_string (Entry_entry_type base)) base_type) then
    Err (ValidationError_Fail
      ("Wrong base type for link of type '" +:+ link_type link +:+ "'. Found '" +:+ base_type +:+
       "', but link is defined to link from '" +:+ EntryType_to_string (Entry_entry_type base) +:+
       "'s."))
  else if negb (String.eqb (EntryType_to_string (Entry_entry_type target)) target_type) then
    Err (ValidationError_Fail
      ("Wrong target type for link of type '" +:+ link_type link +:+ "'. Found '" +:+
       target_type +:+ "', but link is defined to link to '" +:+
       EntryType_to_string (Entry_entry_type target) +:+ "'s."))
  else Ok ().

Definition validate_link_entry (link_data : LinkData) (links_to_remove : option (list Address))
    (validation_data : ValidationData) (validation_context : ValidationContext) :
    Prog (Result ValidationError ()) :=
  _ ←? match links_to_remove, validation_context with
       | Some links, ValidationContext_Holding => check_links_held links
       | _, _ => ret_ok ()
       end;
  let link := link_data_link link_data in
  '(base_entry, target_entry) ←?
    map_err_p (λ _, ValidationError_UnresolvedDependencies [base link; target link])
      (get_link_entries link);
  path ←? map_err_p (λ _, ValidationError_NotImplemented)
            (find_link_definition_by_type (link_type link));
  '(s, _) ← state_expect;
  dna ← lift_outcome (unwrap (Nucleus.dna (st_nucleus s)));
  types ← lift_outcome (link_types dna path);
  _ ←? mret (check_link_types link base_entry target_entry types);
  let validation_data :=
    match links_to_remove with
    | None => LinkValidationData_LinkAdd link_data validation_data
    | Some _ => LinkValidationData_LinkRemove link_data validation_data
    end in
  run_validation_callback (path_zome_name path) "__hdk_validate_link"
    (Args_LinkValidation (path_entry_type_name path) link (path_direction path) validation_data).

(** ** mod.rs: the validation of an entry *)

Definition validate_by_type (entry : Entry) (link : option Address)
    (validation_data : ValidationData) (validation_context : ValidationContext) :
    Prog (Result ValidationError ()) :=
  match entry with
  | Entry_Dna _ => ret_ok ()
  | Entry_App app_entry_type _ => validate_app_entry entry app_entry_type link validation_data
  | Entry_LinkAdd link_data =>
      validate_link_entry link_data None validation_data validation_context
  | Entry_LinkRemove link_data links_to_remove =>
      validate_link_entry link_data (Some links_to_remove) validation_data validation_context
  | Entry_Deletion deletion => validate_remove_entry entry deletion validation_data
  | Entry_CapTokenGrant _ => ret_ok ()
  | Entry_AgentId agent_id => validate_agent_entry agent_id validation_data
  | Entry_ChainHeader _ => ret_ok ()
  | _ => ret_err ValidationError_NotImplemented
  end.

Definition validate_entry (entry : Entry) (link : option Address)
    (validation_data : ValidationData) (validation_context : ValidationContext) :
    Prog (Result ValidationError ()) :=
  let validation_data := cleanup_validation_data validation_data in
  _ ←? mret (validate_header_address entry (pkg_chain_header (package validation_data)));
  _ ←? mret (validate_provenances validation_data);
  validate_by_type entry link validation_data validation_context.

End validation.

(** ** What a successful validation has checked *)

Section checks.
Context `{Storage} `{Addressing} `{JsonApi} `{Node}.

(** A callback was run with these parameters and returned [null]. *)
Definition callback_passed (h : list Event) (zome fn : string) (params : CallbackArgs) : Prop :=
  ∃ r, Ev (Call_wasm zome fn params) r ∈ h ∧
       run_wasm (args_bytes params) r = Ret (Ok json_null).

(** A link passed the callback of the zome that defines its type, between a base and
    a target of the types in that definition. *)
Definition link_approved (h : list Event) (link : Link) (data : LinkValidationData) : Prop :=
  ∃ path dna base_entry target_entry types,
    did h (find_link_definition_by_type (link_type link)) (Ok path) ∧
    did h (get_link_entries link) (Ok (base_entry, target_entry)) ∧
    dna_read h dna ∧ link_types dna path = Ret types ∧
    check_link_types link base_entry target_entry types = Ok () ∧
    callback_passed h (path_zome_name path) "__hdk_validate_link"
      (Args_LinkValidation (path_entry_type_name path) link (path_direction path) data).

(** The application approved an entry: which callback it takes for each type, and
    with which data.  An update is shown the entry found at the address it updates, a
    deletion the one at the address it deletes. *)
Definition approved (h : list Event) (entry : Entry) (link : option Address)
    (data : ValidationData) : Prop :=
  match entry with
  | Entry_App app_entry_type _ =>
      ∃ dna zome d,
        dna_read h dna ∧ get_zome_name_for_app_entry_type dna app_entry_type = Ret (Some zome) ∧
        callback_passed h zome "__hdk_validate_app_entry" (Args_EntryValidation d) ∧
        match link with
        | None => d = EntryValidationData_Create entry data
        | Some address => ∃ old old_header,
            did h (get_entry_with_header address) (Ok (old, old_header)) ∧
            d = EntryValidationData_Modify entry (ewm_entry old) old_header data
        end
  | Entry_LinkAdd link_data =>
      link_approved h (link_data_link link_data) (LinkValidationData_LinkAdd link_data data)
  | Entry_LinkRemove link_data _ =>
      link_approved h (link_data_link link_data) (LinkValidationData_LinkRemove link_data data)
  | Entry_Deletion deletion =>
      ∃ dna app_entry_type value zome old old_header,
        did h (get_entry_from_dht (deleted_entry_address deletion)) (Ok (Some (Entry_App app_entry_type value))) ∧
        did h (get_entry_with_header (deleted_entry_address deletion)) (Ok (old, old_header)) ∧
        dna_read h dna ∧ get_zome_name_for_app_entry_type dna app_entry_type = Ret (Some zome) ∧
        callback_passed h zome "__hdk_validate_app_entry"
          (Args_EntryValidation (EntryValidationData_Delete (ewm_entry old) old_header data))
  | Entry_AgentId agent_id =>
      ∃ dna, dna_read h dna ∧
        Forall (λ zome, callback_passed h zome "__hdk_validate_agent_entry"
                          (Args_AgentIdValidation (EntryValidationData_Create agent_id data)))
          (fst <$> zomes dna)
  | Entry_Dna _ | Entry_CapTokenGrant _ | Entry_ChainHeader _ => True
  | _ => False
  end.

(** The header of the package is for the entry and carries only valid
    signatures of it, and the application approved the entry with the package. *)
Definition validated (h : list Event) (entry : Entry) (link : option Address)
    (data : ValidationData) : Prop :=
  let header := pkg_chain_header (package data) in
  entry_address header = Entry_address entry ∧
  Forall (λ p, provenance_verify p (Entry_address entry) = Ok true) (provenances header) ∧
  approved h entry link (cleanup_validation_data data).

Lemma dna_read_prefix h h' d : h `prefix_of` h' → dna_read h d → dna_read h' d.
Proof.
  intros [t ->] (s & w & Hin & Hd). exists s, w. split; [|done]. apply elem_of_app. by left.
Qed.

Lemma callback_passed_prefix h h' zome fn params :
  h `prefix_of` h' → callback_passed h zome fn params → callback_passed h' zome fn params.
Proof. intros [t ->] (r & Hin & Hr). exists r. split; [|done]. apply elem_of_app. by left. Qed.

Lemma link_approved_prefix h h' link data :
  h `prefix_of` h' → link_approved h link data → link_approved h' link data.
Proof.
  intros Hpre (path & dna & b & t & types & ? & ? & ? & ? & ? & ?). exists path, dna, b, t, types.
  eauto 10 using did_prefix, dna_read_prefix, callback_passed_prefix.
Qed.

Lemma approved_prefix h h' entry link data :
  h `prefix_of` h' → approved h entry link data → approved h' entry link data.
Proof.
  intros Hpre. pose proof (dna_read_prefix h h') as Hd. pose proof (callback_passed_prefix h h') as Hc.
  destruct entry; cbn; try done; try by apply link_approved_prefix.
  - intros (dna & zome & d & ? & ? & ? & Hl). exists dna, zome, d. split_and!; [by auto..|].
    destruct link; [|done]. destruct Hl as (old & hd & ? & ?). exists old, hd. eauto using did_prefix.
  - intros (dna & ? & Hall). exists dna. split; [auto|]. eapply Forall_impl; [done|]. auto.
  - intros (dna & ty & value & zome & old & hd & ? & ? & ? & ? & ?). exists dna, ty, value, zome, old, hd.
    eauto 10 using did_prefix.
Qed.

Lemma validated_prefix h h' entry link data :
  h `prefix_of` h' → validated h entry link data → validated h' entry link data.
Proof. intros Hpre (? & ? & ?). split_and!; [done|done|]. by eapply approved_prefix. Qed.

(** *** Validation only looks things up *)

Lemma lookups_run_validation_callback zome fn params :
  bool_decide (fn ∈ validation_callbacks) = true → only_lookups (run_validation_callback zome fn params).
Proof. intros Hfn. unfold run_validation_callback. lookups. Qed.

Lemma lookups_map_err_p {E F A} (f : E → F) (m : Prog (Result E A)) :
  only_lookups m → only_lookups (map_err_p f m).
Proof. intros. unfold map_err_p. lookups. Qed.

Lemma lookups_get_entry_with_header address : only_lookups (get_entry_with_header address).
Proof. unfold get_entry_with_header. lookups. Qed.

Lemma lookups_get_entry_from_dht address : only_lookups (get_entry_from_dht address).
Proof. unfold get_entry_from_dht. lookups. Qed.

Lemma lookups_check_links_held links : only_lookups (check_links_held links).
Proof.
  induction links as [|link links IH]; cbn [check_links_held]; unfold read_entry_with_meta, map_err_p; lookups.
Qed.

#[local] Hint Resolve lookups_run_validation_callback lookups_map_err_p lookups_get_entry_with_header
  lookups_get_entry_from_dht lookups_check_links_held : lookups.

Lemma lookups_entry_to_validation_data entry link data : only_lookups (entry_to_validation_data entry link data).
Proof. unfold entry_to_validation_data. destruct entry; lookups. Qed.

Lemma lookups_run_agent_callbacks zome_names params : only_lookups (run_agent_callbacks zome_names params).
Proof.
  induction zome_names as [|zome rest IH]; cbn [run_agent_callbacks]; lookups.
Qed.

#[local] Hint Resolve lookups_entry_to_validation_data lookups_run_agent_callbacks : lookups.

Lemma lookups_validate_entry entry link data context : only_lookups (validate_entry entry link data context).
Proof.
  unfold validate_entry, validate_by_type, validate_app_entry, validate_remove_entry, validate_agent_entry,
    validate_link_entry. destruct entry; lookups; by apply lookups_run_validation_callback.
Qed.

(** *** What has run when a validation succeeded *)

Lemma did_map_err_p {E F A} (f : E → F) (m : Prog (Result E A)) h x :
  did h (map_err_p f m) (Ok x) → did h m (Ok x).
Proof.
  intros ([y|e] & Hm & Hr)%did_bind_inv; apply did_finish_inv in Hr; [|done]. by injection Hr as ->.
Qed.

Lemma did_run_validation_callback zome fn params h :
  did h (run_validation_callback zome fn params) (Ok ()) → callback_passed h zome fn params.
Proof.
  intros (r & Hr & Hok)%did_bind_inv. destruct r as [j|e].
  - assert (j = json_null) as ->.
    { unfold json_is_null in Hok. destruct (String.eqb_spec j json_null); [done|].
      by apply did_finish_inv in Hok. }
    apply did_try_inv in Hr as (_ & _ & Hr). apply did_bind_inv in Hr as (wr & Hw & Hr).
    apply (did_call_inv (Call_wasm _ _ _)) in Hw. apply did_finish_inv in Hr. by exists wr.
  - exfalso. destruct e; try (by apply did_finish_inv in Hok).
    destruct (String.eqb _ _); by apply did_finish_inv in Hok.
Qed.

Lemma did_validate_app_entry app_entry_type value link data h :
  did h (validate_app_entry (Entry_App app_entry_type value) app_entry_type link data) (Ok ()) →
  approved h (Entry_App app_entry_type value) link data.
Proof.
  intros (dna & Hdna%did_get_dna_expect & Hr)%did_bind_inv.
  apply did_bind_inv in Hr as (zome & Hz%did_finish_inv & Hr).
  destruct zome as [zome|]; [|by apply did_finish_inv in Hr].
  apply did_try_inv in Hr as (_ & _ & Hr). apply did_try_inv in Hr as (d & Hd%did_map_err_p & Hr).
  apply did_run_validation_callback in Hr. exists dna, zome, d. split_and!; [done|done|done|].
  destruct link as [address|]; cbn [entry_to_validation_data] in Hd.
  - apply did_bind_inv in Hd as ([[old hd]|e] & Ho & Hd%did_finish_inv); simplify_eq. by exists old, hd.
  - by apply did_finish_inv in Hd; simplify_eq.
Qed.

Lemma did_validate_remove_entry deletion link data h :
  did h (validate_remove_entry (Entry_Deletion deletion) deletion data) (Ok ()) →
  approved h (Entry_Deletion deletion) link data.
Proof.
  intros (dna & Hdna%did_get_dna_expect & Hr)%did_bind_inv.
  apply did_try_inv in Hr as ([e|] & He%did_map_err_p & Hr); [|by apply did_finish_inv in Hr].
  destruct e as [ty value| | | | | | | | | |]; try by apply did_finish_inv in Hr.
  apply did_bind_inv in Hr as (zome & Hz%did_finish_inv & Hr).
  destruct zome as [zome|]; [|by apply did_finish_inv in Hr].
  apply did_try_inv in Hr as (d & Hd%did_map_err_p & Hr%did_run_validation_callback).
  apply did_bind_inv in Hd as ([[old hd]|e] & Ho & Hd%did_finish_inv); simplify_eq.
  exists dna, ty, value, zome, old, hd. by split_and!.
Qed.

Lemma did_run_agent_callbacks zome_names params results h :
  did h (run_agent_callbacks zome_names params) results → forallb is_ok results = true →
  Forall (λ zome, callback_passed h zome "__hdk_validate_agent_entry" params) zome_names.
Proof.
  revert results. induction zome_names as [|zome rest IH]; intros results; cbn [run_agent_callbacks]; [done|].
  intros (r & Hr & Hrest)%did_bind_inv. apply did_bind_inv in Hrest as (rs & Hrs & Hres%did_finish_inv).
  injection Hres as <-. cbn. intros [Hok Hoks]%andb_prop. constructor; [|by eapply IH].
  destruct r as [[]|]; [|done]. by apply did_run_validation_callback.
Qed.

Lemma did_validate_agent_entry agent_id link data h :
  did h (validate_agent_entry agent_id data) (Ok ()) → approved h (Entry_AgentId agent_id) link data.
Proof.
  intros (dna & Hdna%did_get_dna_expect & Hr)%did_bind_inv.
  apply did_bind_inv in Hr as (results & Hres & Hr).
  destruct (forallb is_ok results) eqn:Hok; [|by apply did_finish_inv in Hr].
  exists dna. split; [done|]. by eapply did_run_agent_callbacks.
Qed.

Lemma did_validate_link_entry link_data links_to_remove data context h :
  did h (validate_link_entry link_data links_to_remove data context) (Ok ()) →
  link_approved h (link_data_link link_data)
    match links_to_remove with
    | None => LinkValidationData_LinkAdd link_data data
    | Some _ => LinkValidationData_LinkRemove link_data data
    end.
Proof.
  intros (_ & _ & Hr)%did_try_inv. apply did_try_inv in Hr as ([b t] & Hbt%did_map_err_p & Hr).
  apply did_try_inv in Hr as (path & Hp%did_map_err_p & Hr).
  apply did_bind_inv in Hr as ([s w] & Hs%did_state_expect & Hr).
  apply did_bind_inv in Hr as (dna & Hd%did_finish_inv & Hr).
  apply did_bind_inv in Hr as (types & Ht%did_finish_inv & Hr).
  apply did_try_inv in Hr as ([] & Hc%did_finish_inv & Hr%did_run_validation_callback).
  injection Hc as Hc. exists path, dna, b, t, types. split_and!; [done|done| |done|done|done].
  exists s, w. split; [done|]. destruct (Nucleus.dna (st_nucleus s)); [|done]. by injection Hd as ->.
Qed.

Lemma did_validate_by_type entry link data context h :
  did h (validate_by_type entry link data context) (Ok ()) → approved h entry link data.
Proof.
  destruct entry; cbn [validate_by_type]; try (by intros Hr%did_finish_inv); try done.
  - apply did_validate_app_entry.
  - apply did_validate_agent_entry.
  - apply did_validate_remove_entry.
  - apply (did_validate_link_entry link_data None).
  - apply (did_validate_link_entry link_data (Some links_to_remove)).
Qed.

Lemma validate_provenances_ok data :
  validate_provenances data = Ok () →
  Forall (λ p, provenance_verify p (entry_address (pkg_chain_header (package data))) = Ok true)
    (provenances (pkg_chain_header (package data))).
Proof.
  unfold validate_provenances. set (header := pkg_chain_header (package data)).
  induction (provenances header) as [|p ps IH]; cbn; [constructor|].
  unfold validate_provenance at 1.
  destruct (provenance_verify p (entry_address header)) as [[]|] eqn:Hp; try done.
  intros Hr. constructor; [done|]. by apply IH.
Qed.

Lemma cleanup_header data :
  pkg_chain_header (package (cleanup_validation_data data)) = pkg_chain_header (package data).
Proof. unfold cleanup_validation_data. by destruct (source_chain_headers (package data)). Qed.

(** A validation that succeeds has checked the header of the package against the
    entry, the signatures in it, and has the approval of the application. *)
Lemma did_validate_entry entry link data context h :
  did h (validate_entry entry link data context) (Ok ()) → validated h entry link data.
Proof.
  intros ([] & Ha%did_finish_inv & Hr)%did_try_inv. apply did_try_inv in Hr as ([] & Hp%did_finish_inv & Hr).
  injection Ha as Ha. injection Hp as Hp. unfold validate_header_address in Ha. rewrite cleanup_header in Ha.
  destruct (String.eqb_spec (Entry_address entry) (entry_address (pkg_chain_header (package data))))
    as [Heq|]; [|done].
  apply validate_provenances_ok in Hp. rewrite cleanup_header, <- Heq in Hp.
  split_and!; [done|done|by eapply did_validate_by_type].
Qed.

End checks.

#[export] Hint Resolve lookups_map_err_p lookups_validate_entry : lookups.

(** ** Single validations *)

Section callbacks.
Context `{Storage} `{Addressing} `{JsonApi} `{Node}.

Lemma not_schema_message opening rest :
  opening ∈ ribosome_messages → opening +:+ rest ≠ "Argument deserialization failed".
Proof.
  intros Hin. unfold ribosome_messages in Hin. rewrite !elem_of_cons, elem_of_nil in Hin.
  by destruct Hin as [->|[->|[->|[->|[->|[->|[->|[]]]]]]]].
Qed.

(** The outcome of a run of a callback, from what the function of the zome did. *)
Definition callback_outcome (r : Outcome (Result HolochainError JsonString)) :
    Outcome (Result ValidationError ()) :=
  match r with
  | Ret (Ok j) => if json_is_null j then Ret (Ok ()) else Ret (Err (ValidationError_Fail j))
  | Ret (Err _) | Panic => Panic
  | NoFuel => NoFuel
  end.

Lemma run_validation_callback_runs zome fn params t o :
  runs (run_validation_callback zome fn params) t o →
  (∃ s, t = [Ev Call_state s] ∧ o = Panic) ∨
  (∃ s r, t = [Ev Call_state s; Ev (Call_wasm zome fn params) r] ∧
          o = callback_outcome (run_wasm (args_bytes params) r)).
Proof.
  apply (wp_runs (λ _ _, True) _ [] (λ t o,
    (∃ s, t = [Ev Call_state s] ∧ o = Panic) ∨
    (∃ s r, t = [Ev Call_state s; Ev (Call_wasm zome fn params) r] ∧
            o = callback_outcome (run_wasm (args_bytes params) r)))).
  unfold run_validation_callback, run_dna, get_module. cbn. split; [done|].
  intros [[s w]|] _; cbn; [|left; by eexists].
  destruct (Nucleus.dna (st_nucleus s)) as [dna|]; cbn; [|left; by eexists].
  destruct (btree_get (zomes dna) zome); cbn; [|left; by eexists].
  split; [done|]. intros r _.
  enough (Heq : ∀ o, o = callback_outcome (run_wasm (args_bytes params) r) →
    (∃ s0, [Ev Call_state (Some (s, w)); Ev (Call_wasm zome fn params) r] = [Ev Call_state s0] ∧
           o = Panic) ∨
    (∃ s0 r0, [Ev Call_state (Some (s, w)); Ev (Call_wasm zome fn params) r] =
              [Ev Call_state s0; Ev (Call_wasm zome fn params) r0] ∧
              o = callback_outcome (run_wasm (args_bytes params) r0))); [|by right; do 2 eexists].
  destruct (run_wasm (args_bytes params) r) as [[j|e]| |] eqn:Hw; cbn; try (by apply Heq).
  - destruct (json_is_null j) eqn:Hj; apply Heq; cbn; by rewrite Hj.
  - destruct e; try (by apply Heq). apply run_wasm_failure in Hw as (m & rest & Hm & ->).
    destruct (String.eqb_spec (m +:+ rest) "Argument deserialization failed") as [He|];
      [|by apply Heq].
    by apply not_schema_message in He.
Qed.

Lemma decode_return_no_fuel bits memory : decode_return bits memory ≠ NoFuel.
Proof.
  unfold decode_return, RibosomeEncodedValue_from_bits.
  destruct (Z.eqb bits 0); [done|]. destruct (u64_split_bits bits) as [c l].
  destruct (Z.eqb l 0).
  - unfold RibosomeErrorCode_from_code_int. by repeat case_match.
  - cbn. destruct (WasmAllocation_try_from _); [|done].
    by destruct (memory_get _ _ _); cbn; [destruct (utf8_valid _)|].
Qed.

Lemma run_wasm_no_fuel input r : run_wasm input r ≠ NoFuel.
Proof.
  destruct r as [| | |memory invoke]; try done. cbn.
  destruct (page_write (WasmPageManager_new memory) input) as [[[a|[]] m]| |] eqn:Hw; cbn; try done.
  1, 2: destruct (invoke _ _); try done; apply decode_return_no_fuel.
  unfold page_write in Hw. destruct (Z.ltb _ _); [done|]. destruct input; [done|].
  destruct (page_allocate _ _) as [[] ?]; [|done]. by destruct (memory_set _ _ _).
Qed.

(** What the run of a function was, in an event that is one. *)
Definition wasm_answer (e : Event) : option WasmRun :=
  match ev_call e as c return answer c → option WasmRun with
  | Call_wasm _ _ _ => λ r, Some r
  | _ => λ _, None
  end (ev_answer e).

(** an entry that the application cannot decode is never reported as such.
    The ribosome says so with the message "Zome function failure: Argument
    deserialization failed", but the validation compares with the part after the
    colon.  So no run of a validation callback ends in the error that "JSON
    object does not match entry schema": when the callback fails in any way the
    validation panics, and otherwise it accepts the entry or rejects it with the
    text that the callback returned. *)
Theorem schema_mismatch_panics zome fn params t o :
  runs (run_validation_callback zome fn params) t o →
  (o = Ret (Ok ()) ∨ (∃ reason, o = Ret (Err (ValidationError_Fail reason))) ∨ o = Panic) ∧
  (∀ r e, Ev (Call_wasm zome fn params) r ∈ t →
    run_wasm (args_bytes params) r = Ret (Err e) → o = Panic).
Proof.
  intros [(s & -> & ->)|(s & r & -> & ->)]%run_validation_callback_runs.
  - split; [auto|]. by intros r e [= Hin%(f_equal wasm_answer)]%list_elem_of_singleton.
  - split.
    + pose proof (run_wasm_no_fuel (args_bytes params) r) as Hn. unfold callback_outcome.
      destruct (run_wasm (args_bytes params) r) as [[j|e]| |]; [|auto..|done].
      destruct (json_is_null j); eauto.
    + intros r' e Hin He. rewrite !elem_of_cons in Hin.
      destruct Hin as [Hin|[Hin|[]%elem_of_nil]]; apply (f_equal wasm_answer) in Hin; [done|].
      injection Hin as ->. by rewrite He.
Qed.

End callbacks.

(** ** Link definitions *)

(** An entry type is defined in one way, whichever zome defines it. *)
Definition unique_entry_types (dna : Dna) : Prop :=
  ∀ z1 zome1 z2 zome2 ty d1 d2,
    (z1, zome1) ∈ zomes dna → (z2, zome2) ∈ zomes dna →
    (ty, d1) ∈ entry_types zome1 → (ty, d2) ∈ entry_types zome2 → d1 = d2.

Lemma find_def_in ty l d : find_def ty l = Some d → (ty, d) ∈ l.
Proof.
  unfold find_def. destruct (list_find _ l) as [[i [ty' d']]|] eqn:Hf; [|done]. cbn.
  intros [= ->]. apply list_find_Some in Hf as (Hl & Ht & _). cbn in Ht. subst.
  by apply list_elem_of_lookup_2 in Hl.
Qed.

Lemma find_entry_type_def_in l ty d zn zome :
  (zn, zome) ∈ l → (ty, d) ∈ entry_types zome →
  ∃ zn' zome' d', find_entry_type_def l ty = Some d' ∧ (zn', zome') ∈ l ∧
                  (ty, d') ∈ entry_types zome'.
Proof.
  induction l as [|[zn1 zome1] l IH]; [by intros ?%elem_of_nil|]. intros Hz Hd. cbn.
  destruct (find_def ty (entry_types zome1)) as [d1|] eqn:Hf.
  - exists zn1, zome1, d1. split_and!; [done|apply elem_of_cons; by left|by apply find_def_in].
  - apply elem_of_cons in Hz as [[= -> ->]|Hz].
    + apply find_def_none in Hf. exfalso. apply not_true_iff_false in Hf. apply Hf.
      apply existsb_exists. exists (ty, d). split; [by apply list_elem_of_In|].
      by apply bool_decide_eq_true.
    + destruct (IH Hz Hd) as (zn' & zome' & d' & ? & ? & ?). exists zn', zome', d'.
      split_and!; [done|apply elem_of_cons; by right|done].
Qed.

(** The search for a link type ends in a definition of that type. *)
Lemma find_link_definition_spec dna link_type path :
  find_link_definition dna link_type = Some path →
  ∃ zome d,
    (path_zome_name path, zome) ∈ zomes dna ∧
    (EntryType_App (path_entry_type_name path), d) ∈ entry_types zome ∧
    path_link_type path = link_type ∧
    match path_direction path with
    | LinkDirection_To => ∃ l, l ∈ links_to d ∧ links_to_link_type l = link_type
    | LinkDirection_From => ∃ l, l ∈ linked_from d ∧ linked_from_link_type l = link_type
    end.
Proof.
  unfold find_link_definition. intros Hh. apply head_Some_elem_of in Hh.
  apply list_elem_of_bind in Hh as ([zn zome] & Hp & Hz).
  apply list_elem_of_omap in Hp as ([ty d] & Hin & Hl). unfold link_definition_in in Hl.
  destruct ty; try done. cbn in Hl.
  destruct (existsb _ (links_to d)) eqn:Hto.
  - injection Hl as <-. exists zome, d. cbn. split_and!; try done.
    apply existsb_exists in Hto as (l & Hl & Heq%String.eqb_eq). exists l.
    split; [by apply list_elem_of_In|done].
  - destruct (existsb _ (linked_from d)) eqn:Hfrom; [|done].
    injection Hl as <-. exists zome, d. cbn. split_and!; try done.
    apply existsb_exists in Hfrom as (l & Hl & Heq%String.eqb_eq). exists l.
    split; [by apply list_elem_of_In|done].
Qed.

Lemma list_find_elem {A} (P : A → Prop) `{∀ x, Decision (P x)} l x :
  x ∈ l → P x → ∃ i y, list_find P l = Some (i, y) ∧ y ∈ l ∧ P y.
Proof.
  intros Hin HP. destruct (list_find P l) as [[i y]|] eqn:Hf.
  - exists i, y. apply list_find_Some in Hf as (Hl & Hy & _).
    split_and!; [done|by eapply list_elem_of_lookup_2|done].
  - apply list_find_None in Hf. eapply Forall_forall in Hf; [|done]. done.
Qed.

(** The definition of a link can be used.  When the entry types of the DNA
    are defined once, the definition that the search by link type finds leads to
    the types of the base and the target, so that the validation of a link never
    panics for lack of a definition. *)
Lemma link_types_defined dna link_type path :
  find_link_definition dna link_type = Some path →
  unique_entry_types dna → has_valid_app_name (path_entry_type_name path) = Ret true →
  ∃ zome d base_type target_type,
    (path_zome_name path, zome) ∈ zomes dna ∧
    (EntryType_App (path_entry_type_name path), d) ∈ entry_types zome ∧
    link_types dna path = Ret (base_type, target_type) ∧
    match path_direction path with
    | LinkDirection_To =>
        base_type = path_entry_type_name path ∧
        {| links_to_target_type := target_type; links_to_link_type := link_type |} ∈ links_to d
    | LinkDirection_From =>
        target_type = path_entry_type_name path ∧
        {| linked_from_base_type := base_type; linked_from_link_type := link_type |}
          ∈ linked_from d
    end.
Proof.
  intros (zome & d & Hz & Hd & Ht & Hl)%find_link_definition_spec Hu Hv.
  destruct (assert_valid_app_name_spec (path_entry_type_name path)) as [[Ha _]|[_ Ha]]; [|done].
  destruct (find_entry_type_def_in _ _ _ _ _ Hz Hd) as (zn' & zome' & d' & Hf & Hz' & Hd').
  pose proof (Hu _ _ _ _ _ _ _ Hz' Hz Hd' Hd) as ->.
  unfold link_types, get_entry_type_def. rewrite Ha. cbn. rewrite Hf. cbn.
  exists zome, d. destruct (path_direction path); destruct Hl as (l & Hin & Heq); rewrite Ht.
  - destruct (list_find_elem (λ l, links_to_link_type l = link_type) _ _ Hin Heq)
      as (i & l' & -> & Hin' & <-).
    exists (path_entry_type_name path), (links_to_target_type l'). by destruct l'.
  - destruct (list_find_elem (λ l, linked_from_link_type l = link_type) _ _ Hin Heq)
      as (i & l' & -> & Hin' & <-).
    exists (linked_from_base_type l'), (path_entry_type_name path). by destruct l'.
Qed.

(** Two zomes that define the same entry type, where only the second has the
    link: the search finds the second, the lookup of the type the first. *)
Definition zome_with (links : list LinksTo) : Zome :=
  {| zome_description := "";
     entry_types := [(EntryType_App "post",
       {| def_properties := "{}"; sharing := Sharing_Public; links_to := links;
          linked_from := [] |})];
     traits := []; fn_declarations := []; code := [0%Z]; zome_bridges := [] |}.

Definition comments_link : LinksTo :=
  {| links_to_target_type := "comment"; links_to_link_type := "comments" |}.

Definition dna_with (zs : list (string * Zome)) : Dna :=
  {| dna_name := "app"; dna_description := ""; dna_version := "1"; dna_uuid := "0";
     dna_spec_version := "2.0"; dna_properties := "{}"; zomes := zs |}.

Lemma duplicate_entry_type_panics :
  let dna := dna_with [("a", zome_with []); ("b", zome_with [comments_link])] in
  ∃ path, find_link_definition dna "comments" = Some path ∧ path_zome_name path = "b" ∧
          link_types dna path = Panic.
Proof. eexists. split_and!; vm_compute; reflexivity. Qed.

Lemma link_types_defined_witness :
  let dna := dna_with [("b", zome_with [comments_link])] in
  let path := {| path_zome_name := "b"; path_entry_type_name := "post";
                 path_direction := LinkDirection_To; path_link_type := "comments" |} in
  ∃ zome d base_type target_type,
    ("b", zome) ∈ zomes dna ∧ (EntryType_App "post", d) ∈ entry_types zome ∧
    link_types dna path = Ret (base_type, target_type) ∧
    base_type = "post" ∧
    {| links_to_target_type := target_type; links_to_link_type := "comments" |} ∈ links_to d.
Proof.
  intros dna path. apply (link_types_defined dna "comments" path).
  - vm_compute. reflexivity.
  - intros z1 zome1 z2 zome2 ty d1 d2 [= -> ->]%list_elem_of_singleton
      [= -> ->]%list_elem_of_singleton [= -> ->]%list_elem_of_singleton.
    by intros [= ->]%list_elem_of_singleton.
  - vm_compute. reflexivity.
Defined.

(** ** A callback that cannot decode its argument *)

Section witnesses.
#[local] Existing Instance memory_storage.
#[local] Existing Instance toy_addressing.
#[local] Existing Instance ex_json_api.
#[local] Existing Instance ex_node.

(** A state whose nucleus has a DNA, with empty storages. *)
Definition ex_state (dna : Dna) : State :=
  let s := State_new "alice" in
  {| st_nucleus := with_dna (st_nucleus s) (Some dna); st_agent := st_agent s;
     st_dht := st_dht s; st_network := st_network s |}.

Definition ex_world : World := {| w_cas := ∅ : gmap string string; w_eav := [] |}.

(** A zome that answers every call with one word. *)
Definition zome_returns (bits : Z) : WasmRun :=
  Wasm_Instance (replicate 64 0%Z) (λ _ memory, Wasm_Value bits memory).

Definition undecodable_call : list Event :=
  [Ev Call_state (Some (ex_state ex_dna, ex_world));
   Ev (Call_wasm "main" "__hdk_validate_app_entry" Args_Init)
     (zome_returns (RibosomeErrorCode_discriminant ArgumentDeserializationFailed))].

Lemma schema_mismatch_panics_witness :
  ∃ o, runs (run_validation_callback "main" "__hdk_validate_app_entry" Args_Init)
         undecodable_call o ∧
    run_wasm (args_bytes Args_Init)
      (zome_returns (RibosomeErrorCode_discriminant ArgumentDeserializationFailed)) =
      Ret (Err (HolochainError_RibosomeFailed
                  "Zome function failure: Argument deserialization failed")) ∧
    o = Panic.
Proof.
  assert (Hr : runs (run_validation_callback "main" "__hdk_validate_app_entry" Args_Init)
                 undecodable_call Panic).
  { apply (runs_do Call_state); [exact I|]. apply (runs_do (Call_wasm _ _ _)); [exact I|].
    vm_compute. constructor. }
  exists Panic. split; [exact Hr|]. split; [vm_compute; reflexivity|].
  apply (proj2 (schema_mismatch_panics "main" "__hdk_validate_app_entry" Args_Init
                  undecodable_call Panic Hr)
           (zome_returns (RibosomeErrorCode_discriminant ArgumentDeserializationFailed))
           (HolochainError_RibosomeFailed
              "Zome function failure: Argument deserialization failed")).
  - apply elem_of_cons. right. by apply list_elem_of_singleton.
  - vm_compute. reflexivity.
Defined.

End witnesses.
