(* ===== verification/Workflows.v ===== *)
(** * The workflows of an instance

    Models [core/src/workflows]: how a node comes to hold what others publish
    ([hold_entry.rs], [hold_link.rs], [remove_link.rs], [hold_entry_update.rs],
    [hold_entry_remove.rs], [run_holding_workflow] of [mod.rs]), how it authors
    an entry ([author_entry.rs]), and how it answers direct messages
    ([respond_validation_package_request.rs], [handle_custom_direct_message.rs]);
    with the task of [core/src/instance.rs] that runs a queued validation.

    The theorems hold under every interleaving with the rest of the node: nothing
    is held or committed that was not validated before, a private entry is never
    published, and every way a validation ends decides whether it is tried
    again. *)

From stdpp Require Import base strings list gmap.
From Stdlib Require Import ZArith.
From S2P Require Import Prelude Errors WasmMemory CoreTypes Dna Storage Action Instances.
From S2P Require Import ContentStore Agent.
From S2P Require Import Network Nucleus ZomeCalls AspectMap DhtStore DhtReducers GetEntry.
From S2P Require Import HoldingQueue Instance Async Ribosome Futures Steps Packages Validation.

Section workflows.
Context `{Storage} `{Addressing} `{JsonApi} `{Node}.

(** ** Holding *)

Definition hold_content_aspect (pending_id : ProcessUniqueId) (entry_with_header : EntryWithHeader) :
    Prog (Result HolochainError ()) :=
  hold_aspect node_agent_id pending_id
    (Aspect_Content (ewh_entry entry_with_header) (ewh_header entry_with_header)).

(** The first steps of every workflow: without a package the validation is
    pending; [no_package] is the error for an empty answer. *)
Definition package_or_pending (entry_with_header : EntryWithHeader) (no_package : HolochainError) :
    Prog (Result HolochainError ValidationPackage) :=
  maybe_validation_package ←?
    map_err_p (λ _, HolochainError_ValidationPending) (validation_package entry_with_header);
  mret (ok_or no_package maybe_validation_package).

Definition could_not_get_package : HolochainError :=
  HolochainError_ErrorGeneric "Could not get validation package from source".

Definition validate_for_holding (entry : Entry) (link : option Address)
    (validation_data : ValidationData) : Prog (Result HolochainError ()) :=
  map_err_p process_validation_err
    (validate_entry entry link validation_data ValidationContext_Holding).

Definition hold_entry_workflow (pending_id : ProcessUniqueId)
    (entry_with_header : EntryWithHeader) : Prog (Result HolochainError ()) :=
  validation_package ←? package_or_pending entry_with_header HolochainError_ValidationPending;
  let validation_data := {| package := validation_package; lifecycle := EntryLifecycle_Dht |} in
  _ ←? validate_for_holding (ewh_entry entry_with_header) None validation_data;
  hold_content_aspect pending_id entry_with_header.

Definition hold_link_workflow (pending_id : ProcessUniqueId)
    (entry_with_header : EntryWithHeader) : Prog (Result HolochainError ()) :=
  match ewh_entry entry_with_header with
  | Entry_LinkAdd link_add =>
      validation_package ←? package_or_pending entry_with_header HolochainError_ValidationPending;
      let validation_data := {| package := validation_package; lifecycle := EntryLifecycle_Meta |} in
      _ ←? validate_for_holding (ewh_entry entry_with_header) None validation_data;
      _ ←? hold_aspect node_agent_id pending_id
             (Aspect_LinkAdd link_add (ewh_header entry_with_header));
      hold_content_aspect pending_id entry_with_header
  | _ => ret_err (HolochainError_ErrorGeneric
                    "hold_link_workflow expects entry to be an Entry::LinkAdd")
  end.

Definition remove_link_workflow (pending_id : ProcessUniqueId)
    (entry_with_header : EntryWithHeader) : Prog (Result HolochainError ()) :=
  match ewh_entry entry_with_header with
  | Entry_LinkRemove link_data links_to_remove =>
      validation_package ←? package_or_pending entry_with_header could_not_get_package;
      let validation_data := {| package := validation_package; lifecycle := EntryLifecycle_Meta |} in
      _ ←? validate_for_holding (ewh_entry entry_with_header) None validation_data;
      _ ←? hold_aspect node_agent_id pending_id
             (Aspect_LinkRemove link_data links_to_remove (ewh_header entry_with_header));
      hold_content_aspect pending_id entry_with_header
  | _ => ret_err (HolochainError_ErrorGeneric
                    "remove_link_workflow expects entry to be an Entry::LinkRemove")
  end.

Definition hold_update_workflow (pending_id : ProcessUniqueId)
    (entry_with_header : EntryWithHeader) : Prog (Result HolochainError ()) :=
  validation_package ←? package_or_pending entry_with_header could_not_get_package;
  match link_update_delete (ewh_header entry_with_header) with
  | None => ret_err (HolochainError_ErrorGeneric "Could not get link update from header")
  | Some link =>
      let validation_data := {| package := validation_package; lifecycle := EntryLifecycle_Meta |} in
      _ ←? validate_for_holding (ewh_entry entry_with_header) (Some link) validation_data;
      hold_aspect node_agent_id pending_id
        (Aspect_Update (ewh_entry entry_with_header) (ewh_header entry_with_header))
  end.

Definition hold_remove_workflow (pending_id : ProcessUniqueId)
    (entry_with_header : EntryWithHeader) : Prog (Result HolochainError ()) :=
  validation_package ←? package_or_pending entry_with_header could_not_get_package;
  let validation_data := {| package := validation_package; lifecycle := EntryLifecycle_Meta |} in
  _ ←? validate_for_holding (ewh_entry entry_with_header) None validation_data;
  hold_aspect node_agent_id pending_id (Aspect_Deletion (ewh_header entry_with_header)).

Definition run_holding_workflow (pending : PendingValidation) : Prog (Result HolochainError ()) :=
  let run := match workflow pending with
             | HoldLink => hold_link_workflow
             | HoldEntry => hold_entry_workflow
             | RemoveLink => remove_link_workflow
             | UpdateEntry => hold_update_workflow
             | RemoveEntry => hold_remove_workflow
             end in
  run (uuid pending) (entry_with_header pending).

(** ** instance.rs: the holding loop *)

(** The task that the loop spawns for a validation it took off the queue. *)
Definition holding_task (pending : PendingValidation) (maybe_delay : option Duration) : Prog () :=
  result ← run_holding_workflow pending;
  remove_queued_holding_workflow (queueing_after result maybe_delay) pending.

(** ** author_entry.rs *)

(** The entry's address, when everything succeeded. *)
Definition author_entry (entry : Entry) (maybe_link_update_delete : option Address)
    (provenances : list Provenance) : Prog (Result HolochainError Address) :=
  _ ←? match entry with
       | Entry_LinkAdd link_data | Entry_LinkRemove link_data _ =>
           _ ←? get_link_entries (link_data_link link_data); ret_ok ()
       | _ => ret_ok ()
       end;
  validation_package ←? build_validation_package entry provenances;
  let validation_data := {| package := validation_package; lifecycle := EntryLifecycle_Chain |} in
  _ ←? map_err_p HolochainError_from_validation
         (validate_entry entry maybe_link_update_delete validation_data
            ValidationContext_Authoring);
  addr ←? commit_entry entry maybe_link_update_delete;
  public ← can_publish_entry_type (Entry_entry_type entry);
  _ ←? (if (public : bool) then _ ←? publish (Entry_address entry); ret_ok () else ret_ok ());
  _ ←? publish_header_entry (Entry_address entry);
  ret_ok addr.

(** ** respond_validation_package_request.rs *)

Definition respond_validation_package_request (to_agent_id : Address) (msg_id : string)
    (requested_entry_address : Address) (provenances : list Provenance) : Prog () :=
  entry ← read_entry_from_agent_chain requested_entry_address;
  maybe_validation_package ←
    match entry with
    | Ok (Some entry) => result_ok <$> build_validation_package entry provenances
    | _ => mret None
    end;
  now ← call Call_now;
  _ ← dispatch_action (Action_SendDirectMessage
        {| dmd_address := to_agent_id;
           dmd_message := DirectMessage_ValidationPackage maybe_validation_package;
           Action.msg_id := msg_id; is_response := true |}
        (Some (now, millis GET_VALIDATION_PACKAGE_MESSAGE_TIMEOUT_MS)));
  mret ().

(** ** handle_custom_direct_message.rs *)

Definition CUSTOM_DIRECT_MESSAGE_RESPONSE_TIMEOUT_MS : Z := 60000.

Definition handle_custom_direct_message (from_agent_id : Address) (msg_id : string)
    (custom_direct_message : CustomDirectMessage) : Prog (Result HolochainError ()) :=
  let zome := dm_zome custom_direct_message in
  match dm_payload custom_direct_message with
  | Err error => ret_err (HolochainError_ErrorGeneric
                            ("Got error in initial custom direct message: " +:+ error))
  | Ok payload =>
      result ← receive zome (Args_Receive from_agent_id payload);
      let response := match result with
                      | CallbackResult_ReceiveResult response => Ok response
                      | _ => Err "Error calling receive callback: "%string
                      end in
      now ← call Call_now;
      _ ← dispatch_action (Action_SendDirectMessage
            {| dmd_address := from_agent_id;
               dmd_message := DirectMessage_Custom {| dm_zome := zome; dm_payload := response |};
               Action.msg_id := msg_id; is_response := true |}
            (Some (now, millis CUSTOM_DIRECT_MESSAGE_RESPONSE_TIMEOUT_MS)));
      ret_ok ()
  end.

End workflows.

(** ** What is held was validated *)

Section holding.
Context `{Storage} `{Addressing} `{JsonApi} `{Node}.

(** The aspects that a validation holds when it succeeds, in order. *)
Definition held_aspects (pending : PendingValidation) : list EntryAspect :=
  let entry := ewh_entry (entry_with_header pending) in
  let header := ewh_header (entry_with_header pending) in
  match workflow pending, entry with
  | HoldEntry, _ => [Aspect_Content entry header]
  | HoldLink, Entry_LinkAdd link_add => [Aspect_LinkAdd link_add header; Aspect_Content entry header]
  | RemoveLink, Entry_LinkRemove link_data links_to_remove =>
      [Aspect_LinkRemove link_data links_to_remove header; Aspect_Content entry header]
  | UpdateEntry, _ => [Aspect_Update entry header]
  | RemoveEntry, _ => [Aspect_Deletion header]
  | _, _ => []
  end.

(** The entry that an update is validated against. *)
Definition validated_link (pending : PendingValidation) : option Address :=
  match workflow pending with
  | UpdateEntry => link_update_delete (ewh_header (entry_with_header pending))
  | _ => None
  end.

(** The data of the validation, with the package that was obtained. *)
Definition holding_data (pending : PendingValidation) (package : ValidationPackage) : ValidationData :=
  {| package := package;
     lifecycle := match workflow pending with
                  | HoldEntry => EntryLifecycle_Dht
                  | _ => EntryLifecycle_Meta
                  end |}.

(** The validation has run to its end: a package was obtained for the entry and its
    header, and the entry was found valid for holding with that package. *)
Definition validation_passed (h : list Event) (pending : PendingValidation) : Prop :=
  let entry := ewh_entry (entry_with_header pending) in
  ∃ package,
    did h (validation_package (entry_with_header pending)) (Ok (Some package)) ∧
    did h (validate_entry entry (validated_link pending) (holding_data pending package)
             ValidationContext_Holding) (Ok ()) ∧
    validated h entry (validated_link pending) (holding_data pending package).

Lemma validation_passed_prefix h h' pending :
  h `prefix_of` h' → validation_passed h pending → validation_passed h' pending.
Proof.
  intros Hpre (package & ? & ? & ?). exists package.
  split_and!; [by eapply did_prefix..|by eapply validated_prefix].
Qed.

(** What the validation of [pending] may do after the events [h]: look things
    up, and once the entry is validated hold its aspects and announce them. *)
Definition holding_permitted (pending : PendingValidation) (h : list Event) (c : Call) : Prop :=
  match c with
  | Call_dispatch a =>
      is_lookup a = true ∨
      ∃ aspect,
        aspect ∈ held_aspects pending ∧
        ((∃ attempt, a = Action_HoldAspect aspect (uuid pending, attempt)) ∨ acks aspect a) ∧
        validation_passed h pending
  | c => lookup_call c = true
  end.

Lemma holding_lookup pending h c : lookup_call c = true → holding_permitted pending h c.
Proof. destruct c; cbn; auto. Qed.

Lemma wp_hold_permitted pending aspect h (Q : list Event → Outcome _ → Prop) :
  aspect ∈ held_aspects pending → validation_passed h pending →
  (∀ h' o, h `prefix_of` h' → Q h' o) →
  wp (holding_permitted pending) (hold_aspect node_agent_id (uuid pending) aspect) h Q.
Proof.
  intros Hin Hv HQ. apply wp_hold_aspect; [|..|done].
  - intros h' c Hc. apply holding_lookup. by destruct c.
  - intros h' attempt Hpre. right. exists aspect. split_and!; [done|eauto|].
    by eapply validation_passed_prefix.
  - intros h' a Hpre Ha. right. exists aspect. split_and!; [done|by right|].
    by eapply validation_passed_prefix.
Qed.

(** Getting the package only looks things up. *)
Lemma wp_package_then {A} pending no_package
    (k : ValidationPackage → Prog (Result HolochainError A)) h
    (Q : list Event → Outcome (Result HolochainError A) → Prop) :
  (∀ h' package, did h' (validation_package (entry_with_header pending)) (Ok (Some package)) →
    wp (holding_permitted pending) (k package) h' Q) →
  (∀ h' o, (∀ x, o ≠ Ret (Ok x)) → Q h' o) →
  wp (holding_permitted pending)
    (try (package_or_pending (entry_with_header pending) no_package) k) h Q.
Proof.
  intros Hk HQ. apply wp_try, wp_did. eapply wp_lookups; [|apply holding_lookup|].
  { unfold package_or_pending. lookups. }
  intros h1 [[p|e]| |] Hpre1 Hd; [|by apply HQ..]. apply Hk.
  specialize (Hd _ eq_refl). apply did_try_inv in Hd as ([p'|] & Hd%did_map_err_p & Hp%did_finish_inv);
    by simplify_eq.
Qed.

(** What follows the validation runs after it succeeded. *)
Lemma wp_validate_then {A} pending link package data (k : () → Prog (Result HolochainError A)) h
    (Q : list Event → Outcome (Result HolochainError A) → Prop) :
  validated_link pending = link → holding_data pending package = data →
  did h (validation_package (entry_with_header pending)) (Ok (Some package)) →
  (∀ h', validation_passed h' pending → wp (holding_permitted pending) (k ()) h' Q) →
  (∀ h' o, (∀ x, o ≠ Ret (Ok x)) → Q h' o) →
  wp (holding_permitted pending)
    (try (validate_for_holding (ewh_entry (entry_with_header pending)) link data) k) h Q.
Proof.
  intros <- <- Hp Hk HQ. apply wp_try, wp_did. unfold validate_for_holding at 1.
  eapply wp_lookups; [lookups|apply holding_lookup|].
  intros h2 [[[]|e]| |] Hpre2 Hd; [|by apply HQ..]. specialize (Hd _ eq_refl). apply did_map_err_p in Hd.
  apply Hk. exists package. split_and!; [by eapply did_prefix|done|by eapply did_validate_entry].
Qed.

Lemma wp_hold_two pending aspect1 aspect2 h :
  aspect1 ∈ held_aspects pending → aspect2 ∈ held_aspects pending → validation_passed h pending →
  wp (holding_permitted pending)
    (_ ←? hold_aspect node_agent_id (uuid pending) aspect1;
     hold_aspect node_agent_id (uuid pending) aspect2) h (λ _ _, True).
Proof.
  intros H1' H2' Hv. apply wp_try. eapply wp_hold_permitted; [done..|].
  intros h' [[]| |] Hpre; try done. eapply wp_hold_permitted; [done| |done].
  by eapply validation_passed_prefix.
Qed.

Lemma wp_run_holding_workflow pending h :
  wp (holding_permitted pending) (run_holding_workflow pending) h (λ _ _, True).
Proof.
  assert (Hl : workflow pending ≠ UpdateEntry → validated_link pending = None)
    by (unfold validated_link; by destruct (workflow pending)).
  unfold run_holding_workflow. destruct (workflow pending) eqn:Hw.
  - apply wp_package_then; [|done]. intros h1 p Hp.
    eapply wp_validate_then; [by apply Hl|unfold holding_data; by rewrite Hw|done|intros h2 Hv|done].
    eapply wp_hold_permitted; [|done|done]. unfold held_aspects. rewrite Hw.
    by apply list_elem_of_singleton.
  - unfold hold_link_workflow. destruct (ewh_entry (entry_with_header pending)) eqn:He; try done.
    rewrite <- He. apply wp_package_then; [|done]. intros h1 p Hp.
    eapply wp_validate_then; [by apply Hl|unfold holding_data; by rewrite Hw|done|intros h2 Hv|done].
    eapply wp_hold_two; [..|done]; unfold held_aspects; rewrite Hw, He;
      rewrite !elem_of_cons; auto.
  - unfold remove_link_workflow. destruct (ewh_entry (entry_with_header pending)) eqn:He; try done.
    rewrite <- He. apply wp_package_then; [|done]. intros h1 p Hp.
    eapply wp_validate_then; [by apply Hl|unfold holding_data; by rewrite Hw|done|intros h2 Hv|done].
    eapply wp_hold_two; [..|done]; unfold held_aspects; rewrite Hw, He;
      rewrite !elem_of_cons; auto.
  - apply wp_package_then; [|done]. intros h1 p Hp.
    destruct (link_update_delete (ewh_header (entry_with_header pending))) as [link|] eqn:Hlink;
      [|done].
    eapply wp_validate_then; [|unfold holding_data; by rewrite Hw|done|intros h2 Hv|done].
    + unfold validated_link. by rewrite Hw.
    + eapply wp_hold_permitted; [|done|done]. unfold held_aspects. rewrite Hw.
      by apply list_elem_of_singleton.
  - apply wp_package_then; [|done]. intros h1 p Hp.
    eapply wp_validate_then; [by apply Hl|unfold holding_data; by rewrite Hw|done|intros h2 Hv|done].
    eapply wp_hold_permitted; [|done|done]. unfold held_aspects. rewrite Hw.
    by apply list_elem_of_singleton.
Qed.


End holding.

(** ** A validation that panics *)

Section stuck.
Context `{Storage} `{Addressing} `{JsonApi} `{Node}.

Lemma remove_first_other {A} (f : A → bool) l x y l' :
  remove_first f l = Some (y, l') → x ∈ l → f x = false → x ∈ l'.
Proof.
  intros [Hy Hp]%remove_first_perm Hin Hx. rewrite Hp in Hin.
  apply elem_of_cons in Hin as [->|?]; [by rewrite Hx in Hy|done].
Qed.

(** Not a removal of this validation from the ones in process. *)
Definition keeps_in_process (c : PendingValidationWithTimeout) (a : Action) : Prop :=
  ∀ queueing p, a = Action_RemoveQueuedHoldingWorkflow queueing p →
    PendingValidation_eq (pending c) p = false.

Lemma reduce_keeps_in_process now store w aw s' w' c :
  DhtReducers.reduce now store w aw = Ret (s', w') → keeps_in_process c (aw_action aw) →
  c ∈ in_process_holding_workflows store → c ∈ in_process_holding_workflows s'.
Proof.
  unfold DhtReducers.reduce. intros Hr Hk Hin. destruct (aw_action aw); cbn in Hr; try (by simplify_eq).
  - simplify_eq. unfold DhtReducers.reduce_prune. by destruct (Nat.ltb _ _).
  - unfold DhtReducers.reduce_commit_entry in Hr.
    by destruct (reduce_store_entry_inner _ _) as [[] ?]; simplify_eq.
  - unfold reduce_queue_holding_workflow in Hr.
    destruct (EntryAspect_from_pending pending) as [a| |]; cbn in Hr; try done.
    destruct (AspectMap_contains _ a) as [b| |]; cbn in Hr; try done.
    destruct b, (has_same_queued_holding_worfkow store pending),
      (has_same_in_process_holding_worfkow store pending); by simplify_eq.
  - simplify_eq. specialize (Hk _ _ eq_refl). unfold update_queued_holding_workflow.
    destruct state; destruct (remove_first _ _) as [[c' l']|] eqn:Hf; cbn; try done.
    + apply elem_of_app. by left.
    + by eapply remove_first_other.
    + by eapply remove_first_other.
  - unfold reduce_hold_aspect in Hr. destruct (hold_aspect_inner _ _ _) as [[[[]|e]|] w1];
      cbn in Hr; [|by simplify_eq..].
    destruct (mark_aspect_as_held store aspect) as [st| |] eqn:Hm; cbn in Hr; try done.
    simplify_eq. unfold mark_aspect_as_held in Hm.
    destruct (AspectMap_add _ _) as [m| |]; cbn in Hm; try done. by simplify_eq.
Qed.

Lemma State_reduce_dht env fuel s w aw s' w' :
  State_reduce env fuel s w aw = Ret (s', w') →
  ∃ w1, DhtReducers.reduce (env_now_dht env) (st_dht s) w1 aw = Ret (st_dht s', w').
Proof.
  unfold State_reduce. destruct (Agent.reduce _ _ _ _ _ _) as [[agent cas]| |]; [|done..].
  cbn. destruct (DhtReducers.reduce _ _ _ _) as [[dht w1]| |] eqn:Hd; [|done..].
  cbn. destruct (Network.reduce _ _ _ _ _ _ _ _ _ _ _) as [net| |]; [|done..].
  cbn. intros [= <- <-]. eauto.
Qed.

Lemma reduces_keep_in_process s w l s' w' c :
  reduces s w l s' w' → Forall (λ aw, keeps_in_process c (aw_action aw)) l →
  c ∈ in_process_holding_workflows (st_dht s) → c ∈ in_process_holding_workflows (st_dht s').
Proof.
  induction 1 as [|env fuel aw l s w s1 w1 s2 w2 Hr _ IH]; [done|].
  intros [Hk Hl]%Forall_cons Hin. apply IH; [done|].
  destruct (State_reduce_dht _ _ _ _ _ _ _ Hr) as [w3 Hd]. by eapply reduce_keeps_in_process.
Qed.

(** The action that an event dispatched. *)
Definition dispatched (e : Event) : option Action :=
  match ev_call e with Call_dispatch a => Some a | _ => None end.

Lemma runs_bind_panic {A B} (p : Prog A) (f : A → Prog B) t :
  runs p t Panic → runs (p ≫= f) t Panic.
Proof.
  remember Panic as o eqn:Ho. induction 1 as [|c k x t o Hx _ IH]; subst; constructor; auto.
Qed.

Lemma runs_permitted {A} P (p : Prog A) h Q t o :
  wp P p h Q → runs p t o →
  ∀ e, e ∈ t → ∃ h', P h' (ev_call e).
Proof.
  intros Hp Hr. revert h Hp. induction Hr as [|c k x t o Hx _ IH]; intros h Hp e Hin;
    [by apply elem_of_nil in Hin|].
  destruct Hp as [Hc Hk]. apply elem_of_cons in Hin as [->|Hin]; [by exists h|].
  by eapply IH; [apply Hk|].
Qed.

(** C39: a validation that panics stays in process.  When the workflow of a
    validation panics, the task that runs it ends there, without any request to
    take the validation off the list of those in process.  As long as no other
    removal of it is reduced, every later state has it in process, so that a
    request to validate the same aspect again changes nothing. *)
Theorem panicking_validation_blocks pending' delay t s w l s' w' c p now maybe_delay w1 id :
  runs (run_holding_workflow pending') t Panic →
  c ∈ in_process_holding_workflows (st_dht s) → pending c = pending' →
  reduces s w l s' w' → Forall (λ aw, keeps_in_process c (aw_action aw)) l →
  same_workflow p c = true →
  runs (holding_task pending' delay) t Panic ∧
  (∀ e a, e ∈ t → dispatched e = Some a → keeps_in_process c a) ∧
  c ∈ in_process_holding_workflows (st_dht s') ∧
  ∀ o, DhtReducers.reduce now (st_dht s') w1
         {| aw_action := Action_QueueHoldingWorkflow p maybe_delay; aw_id := id |} = Ret o →
       o = (st_dht s', w1).
Proof.
  intros Hr Hin <- Hs Hl Hsame. split_and!.
  - by apply runs_bind_panic.
  - intros e a He Ha queueing p' ->.
    destruct (runs_permitted _ _ _ _ _ _ (wp_run_holding_workflow (pending c) []) Hr e He)
      as [h Hp].
    unfold dispatched in Ha. destruct (ev_call e); try done. injection Ha as ->.
    destruct Hp as [?|(aspect & _ & [[attempt ?]|(sp & pr & Hack)] & _)]; try done.
    unfold DhtReducers.ack_single in Hack. by destruct (AspectMap_add _ _).
  - by eapply reduces_keep_in_process.
  - intros o Ho. cbn in Ho. unfold reduce_queue_holding_workflow in Ho.
    destruct (EntryAspect_from_pending p) as [a| |]; cbn in Ho; try done.
    destruct (AspectMap_contains _ a) as [b| |]; cbn in Ho; try done.
    assert (Hi : has_same_in_process_holding_worfkow (st_dht s') p = true).
    { apply existsb_exists. exists c. split; [|done]. apply list_elem_of_In.
      by eapply reduces_keep_in_process. }
    rewrite Hi in Ho.
    destruct b, (has_same_queued_holding_worfkow (st_dht s') p); cbn in Ho; by simplify_eq.
Qed.

End stuck.

(** ** What is authored was validated, and what is private stays so *)

Section authoring.
Context `{Storage} `{Addressing} `{JsonApi} `{Node}.

(** The commit of the entry was dispatched, and its future gave an address. *)
Definition committed (h : list Event) (entry : Entry) (link : option Address) (addr : Address) :
    Prop :=
  ∃ id i l,
    Ev (Call_dispatch (Action_Commit entry link [])) id ∈ h ∧
    Ev (Call_await (poll_ready (CommitFuture_poll id))) i ∈ h ∧
    CommitFuture_poll id i = Ret (Some (Ok addr, l)).

(** Entries of the type may be published, by a DNA that was read. *)
Definition may_publish (h : list Event) (ty : EntryType) : Prop :=
  match ty with
  | EntryType_Dna | EntryType_CapTokenGrant | EntryType_CapTokenClaim => False
  | EntryType_App _ => ∃ dna, dna_read h dna ∧ can_publish ty (Some dna) = Ret true
  | _ => True
  end.

(** Entries of the type are kept back, by a DNA that was read. *)
Definition may_withhold (h : list Event) (ty : EntryType) : Prop :=
  match ty with
  | EntryType_Dna | EntryType_CapTokenGrant | EntryType_CapTokenClaim => True
  | EntryType_App _ => ∃ dna, dna_read h dna ∧ can_publish ty (Some dna) = Ret false
  | _ => False
  end.

(** The entry was found valid for authoring with a package that was built for it. *)
Definition authoring_passed (h : list Event) (entry : Entry) (link : option Address)
    (provenances : list Provenance) : Prop :=
  ∃ package,
    let data := {| package := package; lifecycle := EntryLifecycle_Chain |} in
    did h (build_validation_package entry provenances) (Ok package) ∧
    did h (validate_entry entry link data ValidationContext_Authoring) (Ok ()) ∧
    validated h entry link data.

(** What authoring an entry may do after the events [h]. *)
Definition authoring_permitted (entry : Entry) (link : option Address)
    (provenances : list Provenance) (h : list Event) (c : Call) : Prop :=
  match c with
  | Call_dispatch (Action_Commit entry' link' provs) =>
      entry' = entry ∧ link' = link ∧ provs = [] ∧ authoring_passed h entry link provenances
  | Call_dispatch (Action_Publish address) =>
      address = Entry_address entry ∧ may_publish h (Entry_entry_type entry) ∧
      ∃ addr, committed h entry link addr
  | Call_dispatch (Action_PublishHeaderEntry address) =>
      address = Entry_address entry ∧ ∃ addr, committed h entry link addr
  | Call_dispatch a => is_lookup a = true ∨ ∃ id, a = Action_ClearActionResponse id
  | c => lookup_call c = true
  end.

Lemma authoring_lookup entry link provs h c :
  lookup_call c = true → authoring_permitted entry link provs h c.
Proof. destruct c as [| | | | |a| | | | | |]; cbn; try done. by destruct a; auto. Qed.

Lemma authoring_quiet entry link provs h c : quiet c = true → authoring_permitted entry link provs h c.
Proof. by destruct c. Qed.

Lemma authoring_clear entry link provs h id a :
  is_clear id a = true → authoring_permitted entry link provs h (Call_dispatch a).
Proof. destruct a; try done. intros _. right. eauto. Qed.

Lemma committed_prefix h h' entry link addr :
  h `prefix_of` h' → committed h entry link addr → committed h' entry link addr.
Proof.
  intros [t ->] (id & i & l & ? & ? & ?). exists id, i, l. rewrite !elem_of_app. auto.
Qed.

Lemma elem_of_prefix (h h' : list Event) e : h `prefix_of` h' → e ∈ h → e ∈ h'.
Proof. intros [t ->] ?. apply elem_of_app. by left. Qed.

(** A commit that gives an address is one that succeeded. *)
Lemma wp_commit P entry link h (Q : list Event → Outcome _ → Prop) :
  (∀ h c, quiet c = true → P h c) → P h (Call_dispatch (Action_Commit entry link [])) →
  (∀ h id a, is_clear id a = true → P h (Call_dispatch a)) →
  (∀ h' addr, h `prefix_of` h' → committed h' entry link addr → Q h' (Ret (Ok addr))) →
  (∀ h' o, (∀ x, o ≠ Ret (Ok x)) → Q h' o) →
  wp P (commit_entry entry link) h Q.
Proof.
  intros Hq Hc Hclear HQ HE. eapply (wp_dispatch_await _ _ CommitFuture_poll is_clear); [|done|done|..].
  - intros id. apply CommitFuture_dispatches.
  - intros h' id b _. apply Hclear.
  - intros h' id i [addr|e] l Hpre Hi; [|by apply HE].
    apply HQ; [etrans; [|done]; by apply prefix_app_r|]. exists id, i, l.
    split_and!; [..|done]; (eapply elem_of_prefix; [done|]); rewrite !elem_of_app;
      rewrite !list_elem_of_singleton; auto.
  - intros h' id _. by apply HE.
Qed.

Lemma wp_commit_entry entry link provs h (Q : list Event → Outcome _ → Prop) :
  authoring_passed h entry link provs →
  (∀ h' addr, h `prefix_of` h' → committed h' entry link addr → Q h' (Ret (Ok addr))) →
  (∀ h' o, (∀ x, o ≠ Ret (Ok x)) → Q h' o) →
  wp (authoring_permitted entry link provs) (commit_entry entry link) h Q.
Proof.
  intros Hv. apply wp_commit; [apply authoring_quiet|done|]. intros h' id a. apply authoring_clear.
Qed.

Lemma wp_publish_any entry link provs address (a : Action)
    (poll : string → PollInput → Poll (Result HolochainError Address)) h
    (Q : list Event → Outcome _ → Prop) :
  (∀ id, poll_dispatches (is_clear id) (poll id)) →
  a = Action_Publish address ∨ a = Action_PublishHeaderEntry address →
  authoring_permitted entry link provs h (Call_dispatch a) →
  (∀ h' x id, h `prefix_of` h' → Ev (Call_dispatch a) id ∈ h' → Q h' (Ret (Ok x))) →
  (∀ h' o, (∀ x, o ≠ Ret (Ok x)) → Q h' o) →
  wp (authoring_permitted entry link provs) (id ← dispatch_action a; await (poll id)) h Q.
Proof.
  intros Hd Ha HP HQ HE. eapply (wp_dispatch_await _ _ poll is_clear); [done|..].
  - apply authoring_quiet.
  - done.
  - intros h' id b _. apply authoring_clear.
  - intros h' id i [x|e] l Hpre Hi; [|by apply HE].
    apply (HQ h' x id); [etrans; [|done]; by apply prefix_app_r|].
    eapply elem_of_prefix; [done|]. rewrite !elem_of_app, !list_elem_of_singleton. auto.
  - intros h' id _. by apply HE.
Qed.

Lemma wp_can_publish_entry_type P ty h (Q : list Event → Outcome bool → Prop) :
  (∀ h, P h Call_state) →
  (∀ h', h `prefix_of` h' → may_publish h' ty → Q h' (Ret true)) →
  (∀ h', h `prefix_of` h' → may_withhold h' ty → Q h' (Ret false)) →
  (∀ h' o, (∀ x, o ≠ Ret x) → Q h' o) →
  wp P (can_publish_entry_type ty) h Q.
Proof.
  intros HP HT HF HE. destruct ty; try (by apply HF); try (by apply HT).
  unfold can_publish_entry_type, is_sys, is_app. cbn [negb].
  apply wp_bind, wp_get_dna_expect; [done| |by intros; apply HE].
  intros h' d Hpre Hd. unfold lift_outcome.
  destruct (can_publish (EntryType_App name) (Some d)) as [[]| |] eqn:Hc;
    [apply HT|apply HF|by apply HE..]; try done; by exists d.
Qed.

(** The postcondition: a result means that the entry is committed, published if
    it may be, and its header published. *)
Definition authored (entry : Entry) (link : option Address) (h : list Event)
    (o : Outcome (Result HolochainError Address)) : Prop :=
  ∀ addr, o = Ret (Ok addr) →
    committed h entry link addr ∧
    ∃ id, Ev (Call_dispatch (Action_PublishHeaderEntry (Entry_address entry))) id ∈ h.

Lemma wp_publish_header entry link provs addr h :
  committed h entry link addr →
  wp (authoring_permitted entry link provs)
    (_ ←? publish_header_entry (Entry_address entry); ret_ok addr) h (authored entry link).
Proof.
  intros Hc. apply wp_try.
  eapply (wp_publish_any entry link provs (Entry_address entry) _ PublishHeaderEntryFuture_poll);
    [apply PublishHeaderEntryFuture_dispatches|by right|by split; [|exists addr]|..].
  - intros h' x id Hpre Hin. intros addr' [= <-]. split; [by eapply committed_prefix|by exists id].
  - intros h' [[x|]| |] Hx; [by destruct (Hx x)|by intros ?..].
Qed.

Lemma wp_author_entry entry link provs h :
  wp (authoring_permitted entry link provs) (author_entry entry link provs) h (authored entry link).
Proof.
  assert (HE : ∀ h' o, (∀ x, o ≠ Ret (Ok x)) → authored entry link h' o)
    by (intros h' o Ho addr ->; by destruct (Ho addr)).
  unfold author_entry. apply wp_try. eapply wp_lookups; [|apply authoring_lookup|].
  { destruct entry; lookups. }
  intros h1 [[[]|e]| |] _; [|by apply HE..].
  apply wp_try, wp_did. eapply wp_lookups; [lookups|apply authoring_lookup|].
  intros h2 [[p|e]| |] _ Hp; [|by apply HE..]. specialize (Hp _ eq_refl).
  apply wp_try, wp_did. eapply wp_lookups; [lookups|apply authoring_lookup|].
  intros h3 [[[]|e]| |] Hpre Hv; [|by apply HE..]. specialize (Hv _ eq_refl). apply did_map_err_p in Hv.
  apply wp_try. eapply wp_commit_entry.
  { exists p. split_and!; [by eapply did_prefix|done|by eapply did_validate_entry]. }
  2: { intros h' [[x|]| |] Hx; [by destruct (Hx x)|by apply HE..]. }
  clear h1 Hp Hpre Hv. intros h4 addr _ Hc.
  apply wp_bind, wp_can_publish_entry_type; [done| | |].
  3: { intros h' [x| |] Hx; [by destruct (Hx x)|by apply HE..]. }
  - intros h5 Hpre Hmay. apply wp_try, wp_try.
    eapply (wp_publish_any entry link provs (Entry_address entry) _ PublishFuture_poll);
      [apply PublishFuture_dispatches|by left| | |].
    + split_and!; [done|done|]. exists addr. by eapply committed_prefix.
    + intros h6 x id Hpre' _. apply wp_ret. apply wp_publish_header.
      eapply committed_prefix; [|done]. by etrans.
    + intros h' [[x|]| |] Hx; [by destruct (Hx x)|by apply HE..].
  - intros h5 Hpre _. apply wp_try, wp_ret. apply wp_publish_header.
    by eapply committed_prefix.
Qed.

(** C3: authoring an entry.  Whatever the rest of the node does, whenever the
    workflow that authors an entry is about to dispatch an action after the
    events [t], the action is permitted by them: the entry is committed only
    after a package was built for it and a complete validation of it for authoring
    with that package succeeded, and without further signatures; it is
    published only when it has been committed and only if its type may be
    published, so a private entry never is; its header is published only when it
    has been committed; and everything else looks things up or clears a response.
    When the workflow returns an address, it is that of a commit that succeeded,
    and the header has been published. *)
Theorem authored_entries_are_validated entry link provs :
  (∀ t a k, after (author_entry entry link provs) t (Do (Call_dispatch a) k) →
     authoring_permitted entry link provs t (Call_dispatch a)) ∧
  (∀ t addr, runs (author_entry entry link provs) t (Ret (Ok addr)) →
     committed t entry link addr ∧
     ∃ id, Ev (Call_dispatch (Action_PublishHeaderEntry (Entry_address entry))) id ∈ t).
Proof.
  pose proof (wp_author_entry entry link provs []) as Hwp. split.
  - intros t a k Ha. exact (wp_permitted _ _ _ _ _ _ Hwp Ha).
  - intros t addr Hr. exact (wp_runs _ _ _ _ _ _ Hwp Hr addr eq_refl).
Qed.

End authoring.

(** ** Concrete runs *)

Section examples.
#[local] Existing Instance memory_storage.
#[local] Existing Instance toy_addressing.
#[local] Existing Instance ex_json_api.
#[local] Existing Instance ex_node.

(** A node that is connected; the results it was given for queries of validation
    packages. *)
Definition ex_network (results : gmap ValidationKey _) : NetworkState :=
  let n := NetworkState_new in
  {| net_actions := net_actions n; network := Some []; dna_address := Some "dna";
     net_agent_id := Some "alice"; get_query_results := ∅; query_timeouts := ∅;
     get_validation_package_results := results; get_validation_package_timeouts := ∅;
     direct_message_connections := ∅; direct_message_timeouts := ∅;
     custom_direct_message_replys := ∅; validation_cache := ∅ |}.

Definition connected (results : gmap ValidationKey _) (dht : DhtStore) : State :=
  {| st_nucleus := st_nucleus (ex_state ex_dna); st_agent := st_agent (ex_state ex_dna);
     st_dht := dht; st_network := ex_network results |}.

(** The surroundings: an application that asks for packages of the kind [def] and
    whose callbacks give [verdict], an author that answers with [package]. *)
Definition ex_oracle (verdict : WasmRun) (def : string) (package : option ValidationPackage) (h : list Event)
    (c : Call) : answer c :=
  let idle := {| poll_channel := Channel_Open; try_state := None; poll_instant := 0 |} in
  match c as c return answer c with
  | Call_state => Some (connected ∅ DhtStore_new, ex_world)
  | Call_now => 0%Z
  | Call_instant => 0%Z
  | Call_unique_id => 7%N
  | Call_fresh_text => "fresh"
  | Call_dispatch _ => "id"
  | Call_wasm _ fn _ =>
      if String.eqb fn "__hdk_validate_app_entry" then verdict else zome_answers def
  | Call_await _ =>
      match last h with
      | Some {| ev_call := Call_dispatch (Action_GetValidationPackage key _) |} =>
          {| poll_channel := Channel_Open; poll_instant := 0;
             try_state := Some (connected {[ key := Some (Ok package) ]} DhtStore_new) |}
      | _ => idle
      end
  | Call_spawn _ | Call_signal _ _ | Call_sleep _ => ()
  | Call_conductor _ => None
  end.

Definition is_hold (a : Action) : bool :=
  match a with Action_HoldAspect _ _ => true | _ => false end.

Definition note : Entry := Entry_App "note" "a".

Definition note_header (signatures : list Provenance) : ChainHeader :=
  {| entry_type := EntryType_App "note"; entry_address := Entry_address note;
     provenances := signatures; link := None; link_same_type := None; link_update_delete := None;
     timestamp := {| timestamp_nanos := 5 |} |}.

Definition bob_signed : Provenance := {| source := "bob"; signature := "sig" |}.
Definition carol_forged : Provenance := {| source := "carol"; signature := "forged" |}.

Definition hold_note (signatures : list Provenance) : PendingValidation :=
  {| entry_with_header := {| ewh_entry := note; ewh_header := note_header signatures |};
     dependencies := []; workflow := HoldEntry; uuid := 3%N |}.


Definition hold_of (signatures : list Provenance) : Action :=
  Action_HoldAspect (Aspect_Content note (note_header signatures)) (3%N, 7%N).


(** The header that is held need not be signed at all, and when the author
    supplies the package it need not be the header that was checked: its
    signatures may be forged. *)
Lemma unsigned_entry_is_held :
  (∃ t k, after (run_holding_workflow (hold_note [])) t (Do (Call_dispatch (hold_of [])) k)) ∧
  (∃ t k, after (run_holding_workflow (hold_note [bob_signed; carol_forged])) t
            (Do (Call_dispatch (hold_of [bob_signed; carol_forged])) k) ∧
          provenance_verify carol_forged (Entry_address note) = Ok false).
Proof.
  split.
  - destruct (next_dispatch_after is_hold (ex_oracle (zome_returns 0) "Entry" None)
                (run_holding_workflow (hold_note [])) (hold_of [])) as [k Hk];
      [vm_compute; reflexivity|]. do 2 eexists. exact Hk.
  - destruct (next_dispatch_after is_hold
                (ex_oracle (zome_returns 0) "ChainHeaders"
                   (Some (ValidationPackage_only_header (note_header [bob_signed]))))
                (run_holding_workflow (hold_note [bob_signed; carol_forged]))
                (hold_of [bob_signed; carol_forged])) as [k Hk]; [vm_compute; reflexivity|].
    do 2 eexists. split; [exact Hk|reflexivity].
Qed.

(** The callback cannot decode the entry. *)
Definition undecodable : WasmRun :=
  zome_returns (RibosomeErrorCode_discriminant ArgumentDeserializationFailed).

Definition note_in_process : PendingValidationWithTimeout :=
  {| pending := hold_note [bob_signed]; timeout := None |}.

Definition busy_state : State :=
  connected ∅ {| holding_map := ∅; holding_attempt_results := ∅; queued_holding_workflows := [];
                 in_process_holding_workflows := [note_in_process] |}.

Lemma panicking_validation_blocks_witness :
  let t := (run_to is_hold (ex_oracle undecodable "Entry" None)
              (run_holding_workflow (hold_note [bob_signed])) []).1 in
  runs (holding_task (hold_note [bob_signed]) None) t Panic ∧
  (∀ e a, e ∈ t → dispatched e = Some a → keeps_in_process note_in_process a) ∧
  note_in_process ∈ in_process_holding_workflows (st_dht busy_state) ∧
  ∀ o, DhtReducers.reduce 0 (st_dht busy_state) ex_world
         {| aw_action := Action_QueueHoldingWorkflow (hold_note [bob_signed]) None;
            aw_id := "id" |} = Ret o →
       o = (st_dht busy_state, ex_world).
Proof.
  intros t.
  apply (panicking_validation_blocks (hold_note [bob_signed]) None t busy_state ex_world []
           busy_state ex_world note_in_process (hold_note [bob_signed]) 0 None ex_world "id").
  - apply finished_runs. vm_compute. reflexivity.
  - by apply list_elem_of_singleton.
  - reflexivity.
  - constructor.
  - constructor.
  - vm_compute. reflexivity.
Defined.

Definition is_commit (a : Action) : bool :=
  match a with Action_Commit _ _ _ => true | _ => false end.

Definition author_events : list Event :=
  (run_to is_commit (ex_oracle (zome_returns 0) "Entry" None) (author_entry note None []) []).1.

Lemma authored_entries_are_validated_witness :
  authoring_permitted note None [] author_events (Call_dispatch (Action_Commit note None [])).
Proof.
  destruct (next_dispatch_after is_commit (ex_oracle (zome_returns 0) "Entry" None)
              (author_entry note None []) (Action_Commit note None [])) as [k Hk];
    [vm_compute; reflexivity|].
  exact (proj1 (authored_entries_are_validated note None []) _ _ k Hk).
Defined.

End examples.
