(* ===== verification/Startup.v ===== *)
(** * Starting an instance

    Models the workflow [core/src/workflows/application.rs] and what it runs:
    [core/src/nucleus/actions/initialize.rs] (the chain of a new instance),
    [core/src/network/actions/initialize_network.rs] and
    [core/src/nucleus/actions/call_init.rs], with [get_dna_and_agent] of
    [core/src/context.rs].

    The theorems give the order of what an instance does when it starts, for the
    first time and again, under every interleaving with the rest of the node. *)

From stdpp Require Import base strings list gmap.
From Stdlib Require Import ZArith.
From S2P Require Import Prelude Errors WasmMemory CoreTypes Dna Storage Action Instances Config.
From S2P Require Import ContentStore Agent.
From S2P Require Import Network Nucleus ZomeCalls AspectMap DhtStore GetEntry.
From S2P Require Import Instance Async Ribosome Futures Steps Packages Validation Workflows.

Section startup.
Context `{Storage} `{Addressing} `{DnaAddressing} `{JsonApi} `{Node}.

(** ** context.rs *)

Definition get_dna_and_agent : Prog (Result HolochainError (Address * string)) :=
  s ← call Call_state;
  match s with
  | None => ret_err (HolochainError_ErrorGeneric "Network::start() could not get application state")
  | Some (s, w) =>
      agent ←? lift_outcome (get_agent (st_agent s) (w_cas w) node_fuel);
      match Nucleus.dna (st_nucleus s) with
      | None => ret_err (HolochainError_ErrorGeneric "Network::start() called without DNA")
      | Some dna => ret_ok (Dna_address dna, pub_sign_key agent)
      end
  end.

(** ** network/actions/initialize_network.rs *)

Definition initialize_network : Prog (Result HolochainError ()) :=
  '(dna_address, agent_id) ←? get_dna_and_agent;
  _ ← dispatch_action (Action_InitNetwork
        {| settings_dna_address := dna_address; settings_agent_id := agent_id |});
  await InitNetworkFuture_poll.

(** ** nucleus/actions/initialize.rs *)

Definition dispatch_error_result (err : HolochainError) : Prog () :=
  _ ← dispatch_action (Action_ReturnInitializationResult (Err (HolochainError_fmt err)));
  mret ().

Definition header_on_chain (entry : Entry) (message : string) :
    Prog (Result HolochainError ChainHeader) :=
  '(s, w) ← state_expect;
  maybe_header ← lift_outcome (find_chain_header entry (st_agent s) (w_cas w) node_fuel);
  mret (ok_or (HolochainError_ErrorGeneric message) maybe_header).

(** A header is held as the content of an entry of its own. *)
Definition hold_header (header : ChainHeader) : Prog (Result HolochainError ()) :=
  '(s, w) ← state_expect;
  now ← call Call_now;
  ewh ←? lift_outcome (create_entry_with_header_for_header node_sign now (st_agent s) (w_cas w)
                         node_fuel header);
  id ← call Call_unique_id;
  hold_aspect_no_ack id (Aspect_Content (ewh_entry ewh) (ewh_header ewh)).

Definition commit_dna (dna : Dna) : Prog (Result HolochainError ()) :=
  dna_commit ← commit_entry (Entry_Dna dna) None;
  match dna_commit with
  | Err error =>
      _ ← dispatch_error_result error;
      ret_err (HolochainError_InitializationFailed "Error committing DNA: ")
  | Ok _ =>
      dna_header ←? header_on_chain (Entry_Dna dna) "No header found for dna entry";
      hold_header dna_header
  end.

Definition commit_agent : Prog (Result HolochainError ()) :=
  let agent_id_entry := Entry_AgentId node_agent_id in
  agent_id_commit ← commit_entry agent_id_entry None;
  match agent_id_commit with
  | Err error =>
      _ ← dispatch_error_result error;
      ret_err (HolochainError_InitializationFailed "error committing Agent")
  | Ok _ =>
      agent_id_header ←? header_on_chain agent_id_entry "No header found for agent id entry";
      id ← call Call_unique_id;
      _ ←? hold_aspect_no_ack id (Aspect_Content agent_id_entry agent_id_header);
      hold_header agent_id_header
  end.

(** The functions that each zome declares public. *)
Definition public_functions (dna : Dna) : gmap string (list string) :=
  foldl (λ cap_functions '(zome_name, zome),
           match btree_get (traits zome) "hc_public" with
           | Some cap => <[zome_name := trait_fn_names cap]> cap_functions
           | None => cap_functions
           end) ∅ (zomes dna).

Definition commit_public_grant (dna : Dna) : Prog (Result HolochainError (option Address)) :=
  let cap_functions := public_functions dna in
  if decide (cap_functions = ∅) then ret_ok None
  else
    match CapTokenGrant_create "hc_public" CapabilityType_Public None cap_functions with
    | Err error =>
        _ ← dispatch_error_result error;
        ret_err (HolochainError_InitializationFailed "error creating public cap grant")
    | Ok grant =>
        public_cap_grant_commit ← commit_entry (Entry_CapTokenGrant grant) None;
        match public_cap_grant_commit with
        | Err err =>
            _ ← dispatch_error_result err;
            ret_err (HolochainError_InitializationFailed "error committing public grant")
        | Ok addr =>
            grant_header ←? header_on_chain (Entry_CapTokenGrant grant)
                              "No header found for agent id entry";
            _ ←? hold_header grant_header;
            ret_ok (Some addr)
        end
    end.

Definition initialize_chain (dna : Dna) : Prog (Result HolochainError NucleusStatus) :=
  '(s, _) ← state_expect;
  match Nucleus.status (st_nucleus s) with
  | NucleusStatus_New =>
      _ ← dispatch_action (Action_InitializeChain dna);
      _ ← await InitializingFuture_poll;
      _ ←? commit_dna dna;
      _ ←? commit_agent;
      match zomes dna with
      | [] => ret_err (HolochainError_ErrorGeneric "Attempting to initialize DNA with zero zomes!")
      | _ =>
          public_token ←? commit_public_grant dna;
          _ ← dispatch_action (Action_ReturnInitializationResult
                (Ok {| public_token := public_token; payload := None |}));
          created_at ← call Call_instant;
          await (InitializationFuture_poll created_at)
      end
  | _ => ret_err (HolochainError_InitializationFailed
           "Can't trigger initialization: Nucleus status is not New")
  end.

(** ** nucleus/actions/call_init.rs *)

Fixpoint init_errors (zome_names : list string) : Prog (list (string * string)) :=
  match zome_names with
  | [] => mret []
  | zome_name :: zome_names =>
      result ← init zome_name Args_Init;
      errors ← init_errors zome_names;
      mret match result with
           | CallbackResult_Fail error_string => (zome_name, error_string) :: errors
           | _ => errors
           end
  end.

Definition call_init (dna : Dna) : Prog (Result HolochainError ()) :=
  errors ← init_errors (fst <$> zomes dna);
  match errors with
  | [] => ret_ok ()
  | _ => ret_err (HolochainError_ErrorGeneric "At least one zome init returned error: ")
  end.

(** ** workflows/application.rs *)

Definition dna_to_run (maybe_dna : option Dna) : Prog (Result HolochainError Dna) :=
  match maybe_dna with
  | Some dna =>
      present ← Context_get_dna;
      match present with
      | Some _ => panic
      | None => ret_ok dna
      end
  | None => present ← Context_get_dna; mret (ok_or HolochainError_DnaMissing present)
  end.

Definition initialize (maybe_dna : option Dna) : Prog (Result HolochainError ()) :=
  dna ←? dna_to_run maybe_dna;
  on_chain ← get_dna_and_agent;
  first_initialization ←?
    match on_chain with
    | Ok _ => ret_ok false
    | Err _ => _ ←? initialize_chain dna; ret_ok true
    end;
  _ ←? initialize_network;
  if (first_initialization : bool) then call_init dna else ret_ok ().

End startup.

(** ** The steps of starting an instance *)

Section startup_steps.
Context `{Storage} `{Addressing} `{DnaAddressing} `{JsonApi} `{Node}.

Definition commit_step (entry : Entry) : Step := Step_action (Action_Commit entry None []).

(** The header of an entry on the chain of a state that was read. *)
Definition header_read (t : list Event) (entry : Entry) (header : ChainHeader) : Prop :=
  ∃ s w, Ev Call_state (Some (s, w)) ∈ t ∧
    find_chain_header entry (st_agent s) (w_cas w) node_fuel = Ret (Some header).

Lemma header_read_sub t t' entry header : t ⊆ t' → header_read t entry header → header_read t' entry header.
Proof. intros Hsub (s & w & Hs & ?). exists s, w. auto. Qed.

Lemma committed_sub t t' entry addr : t ⊆ t' → committed t entry None addr → committed t' entry None addr.
Proof. intros Hsub (id & i & l & ? & ? & ?). exists id, i, l. auto. Qed.

Ltac in_events := intros ? ?; repeat first [rewrite elem_of_app | rewrite elem_of_cons]; tauto.

Lemma does_commit entry :
  does (commit_entry entry None) (λ r t, steps t = [commit_step entry] ∧
    ∀ addr, r = Ok addr → committed t entry None addr).
Proof.
  intros t r Hr. split.
  - revert t r Hr. change (does (commit_entry entry None) (λ _ t, steps t = [commit_step entry])).
    apply does_dispatch. intros id. eapply does_mono.
    + eapply silent_await; [apply CommitFuture_dispatches|]. by intros [].
    + intros x t Ht. unfold steps in *. cbn. by rewrite Ht.
  - intros addr ->.
    refine (wp_runs (λ _ _, True) _ [] (λ t o, o = Ret (Ok addr) → committed t entry None addr) _ _ _ Hr eq_refl).
    apply wp_commit; try done; [by intros ? ? _ ? [= <-]|]. by intros ? ? Ho ->; destruct (Ho addr).
Qed.

Lemma does_hold id entry header :
  does (hold_aspect_no_ack id (Aspect_Content entry header))
    (ok_steps (λ _ l, l = [Step_hold entry])).
Proof.
  unfold hold_aspect_no_ack. apply silent_then; [silent_step|]. intros attempt.
  apply does_dispatch_steps. intros _. eapply does_mono; [apply silent_ok|].
  - eapply silent_await; [apply HoldAspectFuture_dispatches|done].
  - intros [x|e] t; [|done]. unfold ok_steps. by intros ->.
Qed.

Lemma does_header_on_chain entry message :
  does (header_on_chain entry message) (ok_events (λ header t,
    steps t = [] ∧ header_read t entry header)).
Proof.
  intros t [header|e] Hr; [|done]. split.
  - revert t Hr. cut (does (header_on_chain entry message) (ok_steps (λ _ l, l = [])));
      [by intros Hd t Hr; apply (Hd t (Ok header))|].
    apply silent_then; [silent_step|]. intros [s w]. apply silent_then; [silent_step|].
    intros header'. apply silent_ok. silent_step.
  - apply runs_did in Hr. apply did_bind_inv in Hr as ([s w] & Hs%did_state_expect & Hr).
    apply did_bind_inv in Hr as ([h|] & Hf%did_finish_inv & Hr%did_finish_inv); simplify_eq/=.
    by exists s, w.
Qed.

Lemma virtual_header_entry now s w header ewh :
  create_entry_with_header_for_header node_sign now s w node_fuel header = Ret (Ok ewh) →
  ewh_entry ewh = Entry_ChainHeader header.
Proof.
  unfold create_entry_with_header_for_header.
  destruct (create_new_chain_header _ _ _ _ _ _ _ _) as [[h|e]| |]; cbn; try done. by intros [= <-].
Qed.

Lemma does_hold_header header :
  does (hold_header header) (ok_steps (λ _ l, l = [Step_hold (Entry_ChainHeader header)])).
Proof.
  apply silent_then; [silent_step|]. intros [s w]. apply silent_then; [silent_step|]. intros now.
  apply (does_seq _ _ (λ ewh l, l = [] ∧ ewh_entry ewh = Entry_ChainHeader header)).
  - apply does_finish. intros [ewh|e] Hr; [|done]. split; [done|]. by eapply virtual_header_entry.
  - intros ewh l1 [-> ->]. apply silent_then; [silent_step|]. intros id. apply does_hold.
Qed.

(** An error that ends the start is reported first. *)
Lemma does_error_result {A} err (e : HolochainError) (R : A → list Step → Prop) :
  does (_ ← dispatch_error_result err; ret_err e) (ok_steps R).
Proof.
  eapply (does_bind _ _ (λ _ _, True)); [by intros ???|]. intros ???. by apply does_ret.
Qed.

Lemma does_commit_then {A} entry (f : Result HolochainError Address → Prog (Result HolochainError A)) R :
  (∀ r t1, (∀ addr, r = Ok addr → committed t1 entry None addr) →
    does (f r) (ok_events (λ x t2, steps t1 = [commit_step entry] → R x (t1 ++ t2)%list))) →
  does (commit_entry entry None ≫= f) (ok_events R).
Proof.
  intros Hf. eapply does_bind; [apply does_commit|]. intros r t1 [Ht1 Hc].
  eapply does_mono; [by apply Hf|]. intros [x|e] t2; [|done]. cbn. auto.
Qed.

(** What holds of the steps when no error came. *)
Lemma does_steps {E A} (p : Prog (Result E A)) (R : A → list Step → Prop) :
  does p (ok_steps R) → does p (ok_events (λ x t, R x (steps t))).
Proof. intros Hp. eapply does_mono; [exact Hp|]. by intros [x|e] t. Qed.

Lemma does_failed {A} err (e : HolochainError) (R : A → list Event → Prop) :
  does (_ ← dispatch_error_result err; ret_err e) (ok_events R).
Proof. eapply does_mono; [apply (does_error_result _ _ (λ _ _, False))|]. by intros [x|?] t. Qed.

Lemma does_commit_dna dna :
  does (commit_dna dna) (ok_events (λ _ t, ∃ header, header_read t (Entry_Dna dna) header ∧
    steps t = [commit_step (Entry_Dna dna); Step_hold (Entry_ChainHeader header)])).
Proof.
  apply does_commit_then. intros [a|e] t1 _; [|apply does_failed].
  eapply does_then; [apply does_header_on_chain|]. intros header t2 [Ht2 Hh].
  eapply does_mono; [apply does_steps, does_hold_header|]. intros [x|e] t3; [|done]. cbn. intros Ht3 Ht1.
  exists header. split; [by eapply header_read_sub; [|done]; in_events|]. by rewrite !steps_app, Ht1, Ht2, Ht3.
Qed.

Lemma does_commit_agent :
  does commit_agent (ok_events (λ _ t, ∃ header, header_read t (Entry_AgentId node_agent_id) header ∧
    steps t = [commit_step (Entry_AgentId node_agent_id); Step_hold (Entry_AgentId node_agent_id);
               Step_hold (Entry_ChainHeader header)])).
Proof.
  apply does_commit_then. intros [a|e] t1 _; [|apply does_failed].
  eapply does_then; [apply does_header_on_chain|]. intros header t2 [Ht2 Hh].
  assert (Hrest : does (id ← call Call_unique_id;
      _ ←? hold_aspect_no_ack id (Aspect_Content (Entry_AgentId node_agent_id) header);
      hold_header header) (ok_steps (λ _ l, l = [Step_hold (Entry_AgentId node_agent_id);
        Step_hold (Entry_ChainHeader header)]))).
  { apply silent_then; [silent_step|]. intros id. eapply does_seq; [apply does_hold|]. intros _ ? ->.
    eapply does_mono; [apply does_hold_header|]. by intros [x|e] t; [cbn; intros ->|]. }
  eapply does_mono; [exact (does_steps _ _ Hrest)|]. intros [x|e] t3; [|done]. cbn. intros Ht3 Ht1.
  exists header. split; [by eapply header_read_sub; [|done]; in_events|]. by rewrite !steps_app, Ht1, Ht2, Ht3.
Qed.

(** The grant of all public functions, if there are any. *)
Definition public_grant (dna : Dna) : CapTokenGrant :=
  {| grant_id := "hc_public"; grant_assignees := None; grant_functions := public_functions dna |}.

(** The token is the address that the commit of the grant gave, and the steps are that
    commit and the holding of the header that the grant has on the chain. *)
Definition granted (dna : Dna) (t : list Event) (token : option Address) (l : list Step) : Prop :=
  let grant := Entry_CapTokenGrant (public_grant dna) in
  if decide (public_functions dna = ∅) then token = None ∧ l = []
  else ∃ addr header, token = Some addr ∧ committed t grant None addr ∧ header_read t grant header ∧
         l = [commit_step grant; Step_hold (Entry_ChainHeader header)].

Lemma granted_sub t t' dna token l : t ⊆ t' → granted dna t token l → granted dna t' token l.
Proof.
  intros Hsub. unfold granted. destruct (decide _); [done|]. intros (addr & header & ? & ? & ? & ?).
  exists addr, header. split_and!; eauto using committed_sub, header_read_sub.
Qed.

Lemma does_commit_public_grant dna :
  does (commit_public_grant dna) (ok_events (λ token t, granted dna t token (steps t))).
Proof.
  unfold commit_public_grant, granted. destruct (decide (public_functions dna = ∅)) as [He|He].
  { by apply does_ret. }
  apply does_commit_then. intros [addr|e] t1 Hc; [|apply does_failed].
  eapply does_then; [apply does_header_on_chain|]. intros header t2 [Ht2 Hh].
  eapply does_then; [apply does_steps, does_hold_header|]. intros ? t3 Ht3.
  apply does_ret. cbn. rewrite app_nil_r. intros Ht1. exists addr, header. split_and!.
  - done.
  - eapply committed_sub; [|by apply Hc]. in_events.
  - eapply header_read_sub; [|done]. in_events.
  - by rewrite !steps_app, Ht1, Ht2, Ht3.
Qed.

Definition startup_steps (dna : Dna) (dna_header agent_header : ChainHeader) (grant : list Step)
    (token : option Address) : list Step :=
  ([Step_action (Action_InitializeChain dna);
    commit_step (Entry_Dna dna); Step_hold (Entry_ChainHeader dna_header);
    commit_step (Entry_AgentId node_agent_id); Step_hold (Entry_AgentId node_agent_id);
    Step_hold (Entry_ChainHeader agent_header)] ++
   grant ++
   [Step_action (Action_ReturnInitializationResult
      (Ok {| public_token := token; payload := None |}))])%list.

(** The steps that create the chain of a DNA. *)
Definition chain_created (dna : Dna) (t : list Event) (l : list Step) : Prop :=
  ∃ dna_header agent_header grant token,
    zomes dna ≠ [] ∧ header_read t (Entry_Dna dna) dna_header ∧
    header_read t (Entry_AgentId node_agent_id) agent_header ∧ granted dna t token grant ∧
    l = startup_steps dna dna_header agent_header grant token.

Lemma chain_created_sub t t' dna l : t ⊆ t' → chain_created dna t l → chain_created dna t' l.
Proof.
  intros Hsub (h1 & h2 & grant & token & ? & ? & ? & ? & ?). exists h1, h2, grant, token.
  eauto 10 using header_read_sub, granted_sub.
Qed.

Lemma InitializingFuture_dispatches : poll_dispatches (λ _, false) InitializingFuture_poll.
Proof.
  intros i. unfold InitializingFuture_poll, poll_channel_state.
  destruct (action_channel_error _ _); [done|]. destruct (try_state i) as [s|]; [|done].
  by destruct (Nucleus.status (st_nucleus s)).
Qed.

Lemma InitializationFuture_dispatches created_at :
  poll_dispatches (λ _, false) (InitializationFuture_poll created_at).
Proof.
  intros i. unfold InitializationFuture_poll.
  destruct (action_channel_error _ _); [done|]. destruct (Z.ltb _ _); [done|].
  destruct (try_state i) as [s|]; [|done]. cbn. by destruct (Nucleus.status (st_nucleus s)).
Qed.

Lemma InitNetworkFuture_dispatches : poll_dispatches (λ _, false) InitNetworkFuture_poll.
Proof.
  intros i. unfold InitNetworkFuture_poll, poll_channel_state.
  destruct (action_channel_error _ _); [done|]. destruct (try_state i) as [s|]; [|done].
  by destruct (network (st_network s)), (dna_address (st_network s)), (net_agent_id (st_network s)).
Qed.

Lemma does_initialize_chain dna :
  does (initialize_chain dna) (ok_events (λ _ t, chain_created dna t (steps t))).
Proof.
  eapply does_bind; [apply silent_state_expect|]. intros [s w] t1 Ht1.
  destruct (Nucleus.status (st_nucleus s)); try (by apply does_ret).
  apply does_dispatch. intros id. eapply does_bind.
  { by eapply silent_await; [apply InitializingFuture_dispatches|]. }
  intros ? t2 Ht2. eapply does_mono; [eapply (does_then _ _ _ (λ _ t, chain_created dna
    (t1 ++ Ev (Call_dispatch (Action_InitializeChain dna)) id :: t2 ++ t)
    (Step_action (Action_InitializeChain dna) :: steps t))); [apply does_commit_dna|]|].
  - intros ? t3 (h1 & Hh1 & Ht3). eapply does_then; [apply does_commit_agent|]. intros ? t4 (h2 & Hh2 & Ht4).
    destruct (zomes dna) as [|z zs] eqn:Hz; [by apply does_ret|].
    eapply does_then; [apply does_commit_public_grant|]. intros token t5 Htoken.
    apply does_dispatch. intros id'. eapply does_bind; [by apply (silent_call Call_instant)|]. intros created_at t6 Ht6.
    eapply does_mono; [by eapply silent_await; [apply InitializationFuture_dispatches|]|].
    intros [status|e] t7; [|done]. intros Ht7. exists h1, h2, (steps t5), token. split_and!.
    + by rewrite Hz.
    + eapply header_read_sub; [|exact Hh1]. in_events.
    + eapply header_read_sub; [|exact Hh2]. in_events.
    + eapply granted_sub; [|exact Htoken]. in_events.
    + by rewrite !steps_app, Ht3, Ht4, steps_cons, steps_app, Ht6, Ht7.
  - intros [status|e] t; [|done]. cbn -[steps]. by rewrite steps_app, Ht1, steps_cons, steps_app, Ht2.
Qed.

(** The state that was read has a DNA, and its chain an agent. *)
Definition started (x : option (State * World)) (settings : NetworkSettings) : Prop :=
  ∃ s w agent dna, x = Some (s, w) ∧
    get_agent (st_agent s) (w_cas w) node_fuel = Ret (Ok agent) ∧
    Nucleus.dna (st_nucleus s) = Some dna ∧
    settings = {| settings_dna_address := Dna_address dna; settings_agent_id := pub_sign_key agent |}.

Lemma does_get_dna_and_agent :
  does get_dna_and_agent (λ r t, ∃ x, t = [Ev Call_state x] ∧
    match r with
    | Ok (a, id) => started x {| settings_dna_address := a; settings_agent_id := id |}
    | Err _ => ∀ settings, ¬ started x settings
    end).
Proof.
  eapply (does_bind _ _ (λ x t, t = [Ev Call_state x])); [by apply (does_call Call_state)|].
  intros [[s w]|] ? ->; [|apply does_ret; eexists; split; [done|]; by intros ? (?&?&?&?&?&_)].
  eapply (does_try _ _ (λ r t, t = [] ∧ get_agent (st_agent s) (w_cas w) node_fuel = Ret r)).
  - by apply does_finish.
  - intros agent ? [-> Ha]. destruct (Nucleus.dna (st_nucleus s)) as [dna|] eqn:Hd;
      apply does_ret; eexists; (split; [done|]).
    + by exists s, w, agent, dna.
    + intros ? (?&?&?&?&[= <- <-]&_&?&_). congruence.
  - intros e ? [-> Ha]. eexists. split; [done|]. intros ? (?&?&?&?&[= <- <-]&?&_). congruence.
Qed.

(** The network is started for the agent and the DNA of a state that was read. *)
Lemma does_initialize_network :
  does initialize_network (λ r t, r = Ok () → ∃ x settings, Ev Call_state x ∈ t ∧
    started x settings ∧ steps t = [Step_action (Action_InitNetwork settings)]).
Proof.
  eapply does_try; [apply does_get_dna_and_agent|..|done].
  intros [a id] ? (x & -> & Hx). apply does_dispatch. intros n. eapply does_mono.
  { by eapply silent_await; [apply InitNetworkFuture_dispatches|]. }
  intros r t Ht _. eexists x, _. split; [by left|]. split; [exact Hx|].
  unfold steps in *. cbn. by rewrite Ht.
Qed.

Lemma does_init zome :
  does (init zome Args_Init) (λ _ t, steps t `sublist_of` [Step_wasm zome "init"]).
Proof.
  apply (silent_bind _ _ (λ _ l, l `sublist_of` [Step_wasm zome "init"])); [silent_step|].
  intros dna. assert (Hnil : ∀ x, does (Finish (Ret x)) (λ (_ : CallbackResult) t,
    steps t `sublist_of` [Step_wasm zome "init"])) by (intros x; apply does_ret, sublist_nil_l).
  destruct (get_wasm_from_zome_name dna zome) as [[|]|]; [apply Hnil| |apply Hnil].
  unfold run_callback, run_dna, get_module.
  eapply (does_bind _ _ (λ _ t, steps t `sublist_of` [Step_wasm zome "init"])).
  - eapply (does_try _ _ (λ _ t, steps t = [])).
    + eapply (does_try _ _ (λ _ t, steps t = [])); [|intros [s w] t1 Ht1|done].
      * eapply (silent_bind _ _ (λ _ l, l = [])); [silent_step|]. intros []; silent_step.
      * eapply does_mono.
        -- destruct (Nucleus.dna (st_nucleus s)) as [d|]; [destruct (btree_get _ _)|]; silent_step.
        -- intros r t2 Ht2. by rewrite steps_app, Ht1, Ht2.
    + intros _ t1 Ht1.
      eapply (does_bind _ _ (λ x t, t = [Ev (Call_wasm zome "init" Args_Init) x])).
      * by apply (does_call (Call_wasm zome "init" Args_Init)).
      * intros run ? ->. apply does_finish. intros r _. by rewrite app_nil_r, steps_app, Ht1.
    + intros e t ->. apply sublist_nil_l.
  - intros r t Ht. apply does_ret. by rewrite app_nil_r.
Qed.

Lemma does_init_errors zome_names :
  does (init_errors zome_names) (λ _ t,
    steps t `sublist_of` ((λ zome, Step_wasm zome "init") <$> zome_names)).
Proof.
  induction zome_names as [|zome zome_names IH]; cbn [init_errors]; [by apply does_ret|].
  eapply does_bind; [apply does_init|]. intros r t1 Ht1.
  eapply does_bind; [apply IH|]. intros errors t2 Ht2. apply does_ret.
  rewrite app_nil_r, steps_app. by apply (sublist_app _ [_]).
Qed.

Lemma does_call_init dna :
  does (call_init dna) (λ _ t,
    steps t `sublist_of` ((λ zome, Step_wasm zome "init") <$> (zomes dna).*1)).
Proof.
  eapply does_bind; [apply does_init_errors|]. intros errors t Ht.
  destruct errors; apply does_ret; by rewrite app_nil_r.
Qed.

(** The DNA that is started: the one given, or the one that was read. *)
Definition dna_started (maybe_dna : option Dna) (t : list Event) (dna : Dna) : Prop :=
  match maybe_dna with Some d => d = dna | None => dna_read t dna end.

Lemma does_dna_to_run maybe_dna :
  does (dna_to_run maybe_dna) (ok_events (λ dna t, steps t = [] ∧ dna_started maybe_dna t dna)).
Proof.
  intros t [dna|e] Hr; [|done]. split.
  - revert t dna Hr. cut (does (dna_to_run maybe_dna) (λ _ t, steps t = []));
      [by intros Hd t dna Hr; apply (Hd t (Ok dna))|].
    destruct maybe_dna as [d|]; (eapply does_bind; [apply silent_get_dna_tries|]); intros [p|] t Ht;
      try apply does_panic; apply does_ret; by rewrite app_nil_r.
  - apply runs_did in Hr. destruct maybe_dna as [d|]; cbn [dna_to_run] in Hr;
      apply did_bind_inv in Hr as ([p|] & Hp & Hr%did_finish_inv); simplify_eq/=; [done|].
    by apply did_get_dna_tries in Hp.
Qed.

(** A start, of which [first] says whether the chain was created. *)
Definition start_steps (maybe_dna : option Dna) (first : bool) (t : list Event) : Prop :=
  ∃ x settings, Ev Call_state x ∈ t ∧ started x settings ∧
    if first then
      ∃ dna created inits,
        dna_started maybe_dna t dna ∧ chain_created dna t created ∧
        steps t = (created ++ Step_action (Action_InitNetwork settings) :: inits)%list ∧
        inits `sublist_of` ((λ zome, Step_wasm zome "init") <$> (zomes dna).*1)
    else steps t = [Step_action (Action_InitNetwork settings)].

Lemma does_initialize maybe_dna :
  does (initialize maybe_dna) (λ r t, r = Ok () → ∃ x (first : bool), Ev Call_state x ∈ t ∧
    (if first then ∀ settings, ¬ started x settings else ∃ settings, started x settings) ∧
    start_steps maybe_dna first t).
Proof.
  eapply does_try; [apply does_dna_to_run|..|done].
  intros dna t0 [Ht0 Hdna]. eapply does_bind; [apply does_get_dna_and_agent|].
  intros on_chain ? (x & -> & Hx).
  eapply (does_try _ _ (λ r t1, ∀ first : bool, r = Ok first →
    (if first then ∀ settings, ¬ started x settings else ∃ settings, started x settings) ∧
    if first then chain_created dna t1 (steps t1) else steps t1 = [])); [|intros first t1 Hfirst|done].
  - destruct on_chain as [[a id]|e]; [by apply does_ret; intros ? [= <-]; eauto|].
    eapply does_try; [apply does_initialize_chain|..|done].
    intros ? t1 Ht1. apply does_ret. intros ? [= <-]. by rewrite app_nil_r.
  - destruct (Hfirst first eq_refl) as [Hstart Hsteps].
    eapply does_try; [apply does_initialize_network|..|done].
    intros [] t2 Ht2. destruct (Ht2 eq_refl) as (y & settings & Hy & Hset & Hnet).
    assert (Hx0 : ∀ t, Ev Call_state x ∈ (t0 ++ [Ev Call_state x] ++ t)%list).
    { intros t. apply elem_of_app. right. by left. }
    assert (Hy0 : ∀ t, Ev Call_state y ∈ (t0 ++ [Ev Call_state x] ++ t1 ++ t2 ++ t)%list).
    { intros t. rewrite !elem_of_app. auto. }
    destruct first.
    + eapply does_mono; [apply does_call_init|]. intros r t3 Ht3 _.
      exists x, true. split; [apply Hx0|]. split; [done|]. exists y, settings. split; [apply Hy0|].
      split; [done|]. exists dna, (steps t1), (steps t3). split_and!; [| | |done].
      * destruct maybe_dna; [done|]. eapply dna_read_prefix; [|done]. by apply prefix_app_r.
      * eapply chain_created_sub; [|done]. in_events.
      * by rewrite !steps_app, Ht0, Hnet.
    + apply does_ret. intros _. exists x, false. split; [apply Hx0|]. split; [done|].
      exists y, settings. split; [apply Hy0|]. split; [done|].
      by rewrite !steps_app, Ht0, Hsteps, Hnet.
Qed.

(** C8: The start of an instance, under every interleaving with the rest of the
    node.  If the state that it finds has a DNA and its chain an agent, a start
    that succeeds does nothing but start the network, with the address of that
    DNA and the key of that agent.  Otherwise it creates the chain: it sets the
    DNA, commits the DNA, the agent and, exactly if some zome has public
    functions, the grant for all of them, in this order, holds the agent and the
    headers that all of these have on the chain of a state that it read, and reports
    the initialization with the address that the commit of the grant gave; then it
    starts the network, and only then the init callbacks of the zomes run, each at most
    once and in the order of the zomes.  The DNA is the one that was given, or else the
    one of the state; a chain is not created to the end for a DNA without zomes. *)
Theorem initialize_order maybe_dna t :
  runs (initialize maybe_dna) t (Ret (Ok ())) →
  ∃ x (first : bool), Ev Call_state x ∈ t ∧
    (if first then ∀ settings, ¬ started x settings else ∃ settings, started x settings) ∧
    start_steps maybe_dna first t.
Proof. intros Hr. exact (does_initialize maybe_dna t (Ok ()) Hr eq_refl). Qed.

End startup_steps.

(** ** A first start *)

Section witnesses.
#[local] Existing Instance memory_storage.
#[local] Existing Instance ex_json_api.
#[local] Existing Instance ex_node.
#[local] Existing Instance toy_dna_addressing.

(** Addresses are short; the DNA and the agent can be read back. *)
Definition start_addressing : Addressing := {|
  encode_from_str s :=
    pos_bits (Z.to_pos (foldl (λ z b, (z * 31 + b) mod 2 ^ 32)%Z 7%Z (bytes_of_string s)));
  entry_json := toy_entry_json;
  header_json := toy_header_json;
  aspect_json a := "a" +:+ EntryAspect_type_hint a;
  entry_of_json s :=
    if String.eqb s "e%dna" then Some (Entry_Dna ex_dna)
    else if String.eqb s "e%agent_id" then Some (Entry_AgentId (@node_agent_id ex_node))
    else toy_entry_of_json s;
  header_of_json := toy_header_of_json;
|}.
#[local] Existing Instance start_addressing.

Definition first_start : list Event * option (Outcome (Result HolochainError ())) :=
  live_run ex_env (λ _ _ _, zome_answers "null") (initialize (Some ex_dna)) 0 ex_start.

Lemma initialize_order_witness :
  first_start.2 = Some (Ret (Ok ())) ∧ length (steps first_start.1) = 11 ∧
  ∃ x (first : bool), Ev Call_state x ∈ first_start.1 ∧
    (if first then ∀ settings, ¬ started x settings else ∃ settings, started x settings) ∧
    start_steps (Some ex_dna) first first_start.1.
Proof.
  assert (Ho : first_start.2 = Some (Ret (Ok ()))) by (vm_compute; reflexivity).
  split; [exact Ho|]. split; [vm_compute; reflexivity|].
  apply (initialize_order (Some ex_dna)). apply live_run_runs. exact Ho.
Defined.

End witnesses.
