(* ===== verification/MessageHandler.v ===== *)
(** * Messages from the network

    Models the closure that [create_handler] of [core/src/network/handler/mod.rs]
    gives to the network thread, with [handle_send_message] of
    [handler/send.rs]; the handlers it calls are those of [NetworkHandlers].  A
    handler reads the state at one moment.  Some handlers leave their work to a
    task of the thread pool: the closure returns the tasks it spawned, and
    [run_task] is what they do.

    The theorems: only messages for the node's own DNA and agent have an effect,
    and a request for a validation package is answered once, with nothing that
    may not be published. *)

From stdpp Require Import base strings list gmap.
From Stdlib Require Import ZArith.
From S2P Require Import Prelude Errors WasmMemory CoreTypes Dna Storage Action Instances.
From S2P Require Import ContentStore Agent.
From S2P Require Import Network Nucleus ZomeCalls AspectMap DhtStore DhtReducers GetEntry.
From S2P Require Import NetworkHandlers Instance Async Ribosome Futures Steps Packages.
From S2P Require Import Validation Workflows.

(** The messages of [Lib3hServerProtocol], with the fields that the handler
    reads; [Message_Other] are those it does not look at. *)
Inductive ServerMessage : Type :=
| Message_FailureResult (space_address : Address)
| Message_HandleStoreEntryAspect (space_address : Address) (aspect : Wire EntryAspect)
| Message_HandleFetchEntry (data : FetchEntryData)
| Message_FetchEntryResult (space_address : Address)
| Message_HandleQueryEntry (data : QueryEntryData) (query : Wire NetworkQuery)
| Message_QueryEntryResult (space_address requester_agent_id : Address) (request_id : string)
    (entry_address : Address) (result : Wire NetworkQueryResult)
| Message_HandleSendDirectMessage (space_address to_agent_id from_agent_id : Address)
    (request_id : string) (content : Wire DirectMessage)
| Message_SendDirectMessageResult (space_address to_agent_id from_agent_id : Address)
    (request_id : string) (content : Wire DirectMessage)
| Message_Connected
| Message_HandleGetAuthoringEntryList (space_address provider_agent_id : Address)
    (request_id : string)
| Message_HandleGetGossipingEntryList (space_address provider_agent_id : Address)
    (request_id : string)
| Message_Other.

(** What is left to the thread pool. *)
Inductive Task : Type :=
| Task_custom_message (from_agent_id : Address) (request_id : string)
    (message : CustomDirectMessage)
| Task_validation_package (from_agent_id : Address) (request_id : string) (address : Address)
| Task_authoring_list (space provider : Address) (request_id : string)
| Task_gossip_list (space provider : Address) (request_id : string).

Section handler.
Context `{Storage} `{Addressing} `{JsonApi} `{Node}.

(** Whether debug messages are logged; only then are the texts of
    [format_store_data] and [format_message_data] made. *)
Variable debug : bool.

Definition is_my_dna (my_dna_address dna_address : Address) : bool :=
  String.eqb my_dna_address dna_address.

Definition is_my_id (agent_id : string) : bool :=
  negb (negb (String.eqb agent_id "") && negb (String.eqb (pub_sign_key node_agent_id) agent_id)).

(** [format_store_data] and [format_message_data]: what cannot be parsed panics
    ([unwrap]). *)
Definition format_content {A} (content : Wire A) : Prog () :=
  match content with
  | Wire_Value _ => mret ()
  | _ => if debug then panic else mret ()
  end.

Definition handle_store (aspect : Wire EntryAspect) : Prog () :=
  match aspect with
  | Wire_NotUtf8 => panic
  | Wire_NotJson => mret ()
  | Wire_Value aspect =>
      '(s, _) ← state_expect;
      held ← lift_outcome (AspectMap_contains (holding_map (st_dht s)) aspect);
      if (held : bool) then ack_single node_agent_id aspect
      else
        uuid ← call Call_unique_id;
        match PendingValidation_try_from aspect uuid with
        | Err _ => mret ()
        | Ok pending => dispatch_queue_holding_workflow pending None
        end
  end.

Definition handle_send_message (from_agent_id : Address) (request_id : string)
    (content : Wire DirectMessage) : list Task :=
  match content with
  | Wire_Value (DirectMessage_Custom custom_direct_message) =>
      [Task_custom_message from_agent_id request_id custom_direct_message]
  | Wire_Value (DirectMessage_RequestValidationPackage key) =>
      [Task_validation_package from_agent_id request_id (vkey_address key)]
  | _ => []
  end.

(** The handlers of [NetworkHandlers], at the state of the moment. *)
Definition at_state (handler : State → World → Outcome (list Action)) : Prog () :=
  '(s, w) ← state_expect;
  actions ← lift_outcome (handler s w);
  dispatch_all actions.

Definition ignore : Prog (list Task) := mret [].

Definition create_handler (my_dna_address : Address) (message : option ServerMessage) :
    Prog (list Task) :=
  match message with
  | None => ignore
  | Some (Message_FailureResult _) | Some (Message_FetchEntryResult _) => ignore
  | Some (Message_HandleStoreEntryAspect space_address aspect) =>
      if negb (is_my_dna my_dna_address space_address) then ignore
      else _ ← format_content aspect; _ ← handle_store aspect; ignore
  | Some (Message_HandleFetchEntry data) =>
      if negb (is_my_dna my_dna_address (fed_space_address data)) then ignore
      else
        _ ← at_state (λ s w, handle_fetch_entry (st_agent s) (w_cas w) w
                           (Nucleus.dna (st_nucleus s)) node_fuel data);
        ignore
  | Some (Message_HandleQueryEntry data query) =>
      if negb (is_my_dna my_dna_address (qed_space_address data)) then ignore
      else
        _ ← at_state (λ s w, handle_query_entry_data node_to_uppercase (st_agent s) (w_cas w) w
                                   (Nucleus.dna (st_nucleus s)) node_fuel data query);
        ignore
  | Some (Message_QueryEntryResult space_address requester_agent_id request_id entry_address result) =>
      if negb (is_my_dna my_dna_address space_address) then ignore
      else if negb (is_my_id requester_agent_id) then ignore
      else
        actions ← lift_outcome (handle_query_entry_result request_id entry_address result);
        _ ← dispatch_all actions;
        ignore
  | Some (Message_HandleSendDirectMessage space_address to_agent_id from_agent_id request_id content) =>
      if negb (is_my_dna my_dna_address space_address) then ignore
      else if negb (is_my_id to_agent_id) then ignore
      else
        _ ← format_content content;
        mret (handle_send_message from_agent_id request_id content)
  | Some (Message_SendDirectMessageResult space_address to_agent_id from_agent_id request_id content) =>
      if negb (is_my_dna my_dna_address space_address) then ignore
      else if negb (is_my_id to_agent_id) then ignore
      else
        _ ← format_content content;
        _ ← match content with
            | Wire_Value _ =>
                at_state (λ s w, handle_send_message_result
                            (direct_message_connections (st_network s)) request_id from_agent_id
                            content)
            | _ => mret ()
            end;
        ignore
  | Some Message_Connected => ignore
  | Some (Message_HandleGetAuthoringEntryList space_address provider_agent_id request_id) =>
      if negb (is_my_dna my_dna_address space_address) then ignore
      else if negb (is_my_id provider_agent_id) then ignore
      else mret [Task_authoring_list space_address provider_agent_id request_id]
  | Some (Message_HandleGetGossipingEntryList space_address provider_agent_id request_id) =>
      if negb (is_my_dna my_dna_address space_address) then ignore
      else if negb (is_my_id provider_agent_id) then ignore
      else mret [Task_gossip_list space_address provider_agent_id request_id]
  | Some Message_Other => ignore
  end.

Definition run_task (task : Task) : Prog () :=
  match task with
  | Task_custom_message from_agent_id request_id message =>
      _ ← handle_custom_direct_message from_agent_id request_id message; mret ()
  | Task_validation_package from_agent_id request_id address =>
      respond_validation_package_request from_agent_id request_id address []
  | Task_authoring_list space provider request_id =>
      now ← call Call_now;
      at_state (λ s w, handle_get_authoring_list node_sign now (st_agent s) (w_cas w)
                             (Nucleus.dna (st_nucleus s)) node_fuel space provider request_id)
  | Task_gossip_list space provider request_id =>
      at_state (λ s w, Ret (handle_get_gossip_list (st_dht s) space provider request_id))
  end.

End handler.

(** ** Whose messages have an effect *)

Section scope.
Context `{Storage} `{Addressing} `{JsonApi} `{Node}.

Definition message_space (message : ServerMessage) : option Address :=
  match message with
  | Message_FailureResult space | Message_HandleStoreEntryAspect space _
  | Message_FetchEntryResult space | Message_QueryEntryResult space _ _ _ _
  | Message_HandleSendDirectMessage space _ _ _ _ | Message_SendDirectMessageResult space _ _ _ _
  | Message_HandleGetAuthoringEntryList space _ _
  | Message_HandleGetGossipingEntryList space _ _ => Some space
  | Message_HandleFetchEntry data => Some (fed_space_address data)
  | Message_HandleQueryEntry data _ => Some (qed_space_address data)
  | Message_Connected | Message_Other => None
  end.

(** The agent that a message is for, where it names one; requests to store, to
    fetch and to query are for whoever gets them. *)
Definition message_recipient (message : ServerMessage) : option string :=
  match message with
  | Message_QueryEntryResult _ agent _ _ _ | Message_HandleSendDirectMessage _ agent _ _ _
  | Message_SendDirectMessageResult _ agent _ _ _ | Message_HandleGetAuthoringEntryList _ agent _
  | Message_HandleGetGossipingEntryList _ agent _ => Some agent
  | _ => None
  end.

Lemma is_my_id_spec agent_id :
  is_my_id agent_id = true ↔ agent_id = "" ∨ agent_id = pub_sign_key node_agent_id.
Proof.
  unfold is_my_id. destruct (String.eqb_spec agent_id ""), (String.eqb_spec (pub_sign_key node_agent_id) agent_id);
    cbn; intuition congruence.
Qed.

Lemma runs_ignore t o : runs ignore t o → t = [] ∧ o = Ret [].
Proof. intros Hr. by apply (wp_runs (λ _ _, True) ignore [] (λ t o, t = [] ∧ o = Ret []) t o). Qed.

(** A message from the network makes the node do something (read its state,
    dispatch an action, spawn a task or panic) only if it is for the DNA of the
    node and, where it names an agent, for the node's own agent or for none: all
    other messages leave no trace. *)
Theorem handler_scope debug my_dna_address message t o :
  runs (create_handler debug my_dna_address (Some message)) t o → t ≠ [] ∨ o ≠ Ret [] →
  message_space message = Some my_dna_address ∧
  ∀ agent, message_recipient message = Some agent →
    agent = "" ∨ agent = pub_sign_key node_agent_id.
Proof.
  intros Hr Hdoes.
  assert (Hno : ¬ runs ignore t o) by (intros [-> ->]%runs_ignore; naive_solver).
  destruct message; cbn [create_handler message_space message_recipient] in *; try done;
    (destruct (is_my_dna my_dna_address _) eqn:Hdna; [|done]); apply String.eqb_eq in Hdna as <-;
    (split; [done|]); intros agent [= <-]; apply is_my_id_spec; by destruct (is_my_id _).
Qed.

End scope.

(** ** Answers to requests for validation packages *)

Section answers.
Context `{Storage} `{Addressing} `{JsonApi} `{Node}.

(** The actions of a run other than lookups. *)
Definition sent (t : list Event) : list Action :=
  t ≫= λ e, match dispatched e with
            | Some a => if is_lookup a then [] else [a]
            | None => []
            end.

Lemma sent_app t1 t2 : sent (t1 ++ t2) = (sent t1 ++ sent t2)%list.
Proof. apply bind_app. Qed.

Lemma does_wp {A} (p : Prog A) (R : A → list Event → Prop) :
  wp (λ _ _, True) p [] (λ t o, ∀ x, o = Ret x → R x t) → does p R.
Proof. intros Hp t x Hr. by apply (wp_runs _ p [] _ t (Ret x) Hp Hr). Qed.

Lemma only_lookups_sends {A} (p : Prog A) : only_lookups p → does p (λ _ t, sent t = []).
Proof.
  intros Hp. apply does_wp. specialize (Hp []).
  assert (Hs : sent [] = []) by done. revert Hp Hs. generalize (@nil Event).
  induction p as [o|c k IH]; intros h Hp Hs; [by intros x _|].
  destruct Hp as [Hc Hk]. split; [done|]. intros x Hx. apply IH; [by apply Hk|].
  rewrite sent_app, Hs. destruct c; try done. unfold sent. cbn in *. by rewrite Hc.
Qed.

(** The entries that a package has for the headers of a chain, in order: of each
    header whose type may be published the entry at its address, as it was read; and
    none of a header whose type is kept back. *)
Inductive published (t : list Event) : list ChainHeader → list Entry → Prop :=
| published_nil : published t [] []
| published_entry header headers entry entries s w :
    may_publish t (entry_type header) → Ev Call_state (Some (s, w)) ∈ t →
    get (w_cas w) (entry_address header) = Ok (Some entry) →
    published t headers entries → published t (header :: headers) (entry :: entries)
| published_withheld header headers entries :
    may_withhold t (entry_type header) →
    published t headers entries → published t (header :: headers) entries.

(** The headers of the chain in the storage of a state that was read: below the header
    [from], or from the top of the chain. *)
Definition on_chain (t : list Event) (from : ChainHeader) (headers : list ChainHeader) : Prop :=
  ∃ s w, Ev Call_state (Some (s, w)) ∈ t ∧
    (run_iter (ChainStoreIterator_next (w_cas w)) (λ _, true) node_fuel 1 None (Some from) = Ret headers ∨
     ∃ top, agent_top_chain_header (st_agent s) = Some top ∧
       run_iter (ChainStoreIterator_next (w_cas w)) (λ _, true) node_fuel 0 None (Some top) = Ret headers).

(** What a package has of the chain is of the chain, without what is private. *)
Record public_package (t : list Event) (package : ValidationPackage) : Prop := {
  package_entries entries : source_chain_entries package = Some entries → ∃ headers,
    on_chain t (pkg_chain_header package) headers ∧ published t headers entries;
  package_headers headers : source_chain_headers package = Some headers →
    on_chain t (pkg_chain_header package) headers;
}.

Lemma may_publish_sub h h' ty : h ⊆ h' → may_publish h ty → may_publish h' ty.
Proof. intros Hsub. destruct ty; try done. intros (d & (s & w & ? & ?) & ?). exists d. split; [|done]. exists s, w. auto. Qed.

Lemma may_withhold_sub h h' ty : h ⊆ h' → may_withhold h ty → may_withhold h' ty.
Proof. intros Hsub. destruct ty; try done. intros (d & (s & w & ? & ?) & ?). exists d. split; [|done]. exists s, w. auto. Qed.

Lemma published_sub h h' headers entries :
  h ⊆ h' → published h headers entries → published h' headers entries.
Proof.
  intros Hsub. induction 1 as [|header headers entry entries s w Hm Hs Hg _ IH|header headers entries Hm _ IH].
  - constructor.
  - econstructor; [by eapply may_publish_sub|by apply Hsub|done|done].
  - apply published_withheld; [by eapply may_withhold_sub|done].
Qed.

Lemma on_chain_sub h h' from headers : h ⊆ h' → on_chain h from headers → on_chain h' from headers.
Proof. intros Hsub (s & w & Hs & ?). exists s, w. auto. Qed.

Lemma public_package_sub h h' p : h ⊆ h' → public_package h p → public_package h' p.
Proof.
  intros Hsub [He Hh]. split.
  - intros entries (headers & ? & ?)%He. exists headers. eauto using on_chain_sub, published_sub.
  - intros headers ?%Hh. by eapply on_chain_sub.
Qed.

Lemma prefix_sub (h h' : list Event) : h `prefix_of` h' → h ⊆ h'.
Proof. intros Hpre e. by apply elem_of_prefix. Qed.

Lemma wp_public_entries headers h :
  wp (λ _ _, True) (public_chain_entries_from_headers headers) h
    (λ h' o, ∀ es, o = Ret es → published h' headers es).
Proof.
  revert h. induction headers as [|header headers IH]; intros h; cbn [public_chain_entries_from_headers].
  { intros es [= <-]. constructor. }
  apply wp_bind, wp_can_publish_entry_type; [done| | |by intros ? [es| |] Ho; [destruct (Ho es)|..]].
  - intros h1 _ Hm. apply wp_bind, wp_state_expect; [done|intros s w|done].
    destruct (get (w_cas w) (entry_address header)) as [[entry|]|] eqn:Hg; try done.
    apply wp_bind. eapply wp_frame; [apply IH|done|].
    intros h2 [es| |] Hpre%prefix_sub Hes; [|done..]. intros ? [= <-].
    econstructor; [..|done|by apply Hes].
    + eapply may_publish_sub; [|done]. intros e He. apply Hpre, elem_of_app. by left.
    + apply Hpre, elem_of_app. right. by left.
  - intros h1 _ Hm. eapply wp_frame; [apply IH|done|]. intros h2 o Hpre%prefix_sub Hes es ->.
    apply published_withheld; [by eapply may_withhold_sub|by apply Hes].
Qed.

Lemma wp_any {A} (p : Prog A) h : wp (λ _ _, True) p h (λ _ _, True).
Proof. revert h. by induction p as [o|c k IH]; intros h; cbn. Qed.

Lemma wp_try_any {E A B} (p : Prog (Result E A)) (f : A → Prog (Result E B)) h
    (R : list Event → B → Prop) :
  (∀ x h', wp (λ _ _, True) (f x) h' (λ h' o, ∀ y, o = Ret (Ok y) → R h' y)) →
  wp (λ _ _, True) (try p f) h (λ h' o, ∀ y, o = Ret (Ok y) → R h' y).
Proof.
  intros Hf. apply wp_try. eapply wp_mono, wp_any; [done|].
  by intros h' [[x|e]| |] _; [apply Hf|..].
Qed.

Lemma wp_public_then {E} headers (p : list Entry → ValidationPackage) h :
  on_chain h (pkg_chain_header (p [])) headers →
  (∀ es, source_chain_entries (p es) = Some es ∧ pkg_chain_header (p es) = pkg_chain_header (p []) ∧
         (source_chain_headers (p es) = None ∨ source_chain_headers (p es) = Some headers)) →
  wp (λ _ _, True)
    (entries ← public_chain_entries_from_headers headers; ret_ok (E := E) (p entries)) h
    (λ h' o, ∀ q, o = Ret (Ok q) → public_package h' q).
Proof.
  intros Hc Hp. apply wp_bind. eapply wp_frame; [apply wp_public_entries|done|].
  intros h' [es| |] Hpre%prefix_sub Hes; [|done..]. intros q [= <-]. destruct (Hp es) as (He & Hh & Hs).
  assert (Hc' : on_chain h' (pkg_chain_header (p es)) headers) by (rewrite Hh; by eapply on_chain_sub).
  split.
  - intros entries. rewrite He. intros [= <-]. exists headers. split; [done|by apply Hes].
  - intros headers'. destruct Hs as [->| ->]; [done|]. by intros [= <-].
Qed.

Lemma no_chain_public h p :
  source_chain_entries p = None → source_chain_headers p = None → public_package h p.
Proof. intros He Hh. split; intros x; congruence. Qed.

Lemma wp_all_headers h (Q : list Event → Outcome (list ChainHeader) → Prop) :
  (∀ h' headers, (∀ from, on_chain h' from headers) → Q h' (Ret headers)) →
  (∀ h' o, (∀ x, o ≠ Ret x) → Q h' o) → wp (λ _ _, True) all_chain_headers h Q.
Proof.
  intros HQ HE. apply wp_bind, wp_state_expect; [done|intros s w|by apply HE].
  destruct (agent_top_chain_header (st_agent s)) as [top|] eqn:Ht; [|by apply HE].
  cbn. destruct (run_iter _ _ _ _ _ _) as [headers| |] eqn:Hr; [|by apply HE..].
  apply HQ. intros from. exists s, w. split; [apply elem_of_app; right; by left|]. right. by exists top.
Qed.

Lemma wp_headers_before from h (Q : list Event → Outcome (list ChainHeader) → Prop) :
  (∀ h' headers, on_chain h' from headers → Q h' (Ret headers)) →
  (∀ h' o, (∀ x, o ≠ Ret x) → Q h' o) → wp (λ _ _, True) (all_chain_headers_before_header from) h Q.
Proof.
  intros HQ HE. apply wp_bind, wp_state_expect; [done|intros s w|by apply HE].
  cbn. destruct (run_iter _ _ _ _ _ _) as [headers| |] eqn:Hr; [|by apply HE..].
  apply HQ. exists s, w. split; [apply elem_of_app; right; by left|]. by left.
Qed.

Lemma wp_build_public entry provs h :
  wp (λ _ _, True) (build_validation_package entry provs) h
    (λ h' o, ∀ p, o = Ret (Ok p) → public_package h' p).
Proof.
  unfold build_validation_package.
  apply wp_try_any. intros _ h1. apply wp_try_any. intros header h2.
  apply wp_try_any. intros def h3. destruct def.
  - intros p [= <-]. by apply no_chain_public.
  - apply wp_bind, wp_headers_before; [|by intros ? [x| |] Hx; [destruct (Hx x)|..]].
    intros h4 headers Hc. apply wp_public_then; [done|]. intros es. auto.
  - apply wp_bind, wp_headers_before; [|by intros ? [x| |] Hx; [destruct (Hx x)|..]].
    intros h4 headers Hc p [= <-]. split; [done|]. by intros headers' [= <-].
  - apply wp_bind, wp_all_headers; [|by intros ? [x| |] Hx; [destruct (Hx x)|..]].
    intros h4 headers Hc.
    apply (wp_public_then headers (λ entries, with_headers (with_entries (ValidationPackage_only_header header)
      entries) headers)); [apply Hc|intros es; auto].
  - intros p [= <-]. by apply no_chain_public.
Qed.

(** What a run sends when it answers a request: the package that was built for the entry
    that was read from the chain at the address, or nothing where there is none. *)
Definition answers_with (from_agent_id : Address) (request_id : string) (address : Address) (t : list Event) :
    Prop :=
  ∃ read package now,
    did t (read_entry_from_agent_chain address) read ∧
    match read with
    | Ok (Some entry) => ∃ r, did t (build_validation_package entry []) r ∧ package = result_ok r
    | _ => package = None
    end ∧
    sent t = [Action_SendDirectMessage
                {| dmd_address := from_agent_id;
                   dmd_message := DirectMessage_ValidationPackage package;
                   Action.msg_id := request_id; is_response := true |}
                (Some (now, millis GET_VALIDATION_PACKAGE_MESSAGE_TIMEOUT_MS))] ∧
    ∀ p, package = Some p → public_package t p.

Lemma does_build entry provs :
  does (result_ok <$> build_validation_package entry provs)
    (λ r t, sent t = [] ∧ (∃ b, did t (build_validation_package entry provs) b ∧ r = result_ok b) ∧
            ∀ p, r = Some p → public_package t p).
Proof.
  apply (does_bind _ _ (λ r t, sent t = [] ∧ did t (build_validation_package entry provs) r ∧
                               ∀ p, r = Ok p → public_package t p)).
  { intros t r Hr. split_and!.
    - eapply (only_lookups_sends _ (lookups_build_validation_package _ _)), Hr.
    - by apply runs_did.
    - revert t r Hr. apply (does_wp _ (λ r t, ∀ p, r = Ok p → public_package t p)).
      eapply wp_mono, wp_build_public; [done|].
      intros h o Ho x -> p ->. by apply Ho. }
  intros r t (Hs & Hd & Hp). apply does_ret. rewrite app_nil_r. split_and!; [done|by exists r|].
  intros p Hr. apply Hp. by destruct r; simplify_eq/=.
Qed.

(** C10: Every request for a validation package that is handled to its end is
    answered by one message, to the agent that asked and under the id of its
    request, and apart from lookups that is all that is dispatched.  The message has
    the package that was built for the entry read from the node's own chain at the
    address of the request, or none where there is no such entry or building failed.
    Whatever the application asks a package to contain, the headers in it are those of
    the node's chain, below the header of the entry or from the top, and the entries in it
    are, in order, those of the headers on that chain whose type may be published: of a
    header of a private type there is never an entry. *)
Theorem package_request_answered from_agent_id request_id address t :
  runs (run_task (Task_validation_package from_agent_id request_id address)) t (Ret ()) →
  answers_with from_agent_id request_id address t.
Proof.
  revert t. cut (does (run_task (Task_validation_package from_agent_id request_id address))
    (λ _ t, answers_with from_agent_id request_id address t)); [by intros Hd t Hr; apply (Hd t ())|].
  cbn [run_task]. unfold respond_validation_package_request.
  eapply (does_bind _ _ (λ r t, sent t = [] ∧ did t (read_entry_from_agent_chain address) r)).
  { intros t r Hr. split; [|by apply runs_did].
    eapply only_lookups_sends, Hr. unfold read_entry_from_agent_chain. lookups. }
  intros read t1 [Ht1 Hread]. eapply (does_bind _ _ (λ package t, sent t = [] ∧
    match read with
    | Ok (Some entry) => ∃ r, did t (build_validation_package entry []) r ∧ package = result_ok r
    | _ => package = None
    end ∧ ∀ p, package = Some p → public_package t p)).
  - destruct read as [[entry|]|e]; [apply does_build|by apply does_ret..].
  - intros package t2 (Ht2 & Hb & Hp). eapply (does_bind _ _ (λ x t, t = [Ev Call_now x])).
    { by apply (does_call Call_now). }
    intros now ? ->. apply does_dispatch. intros id. apply does_ret.
    exists read, package, now. split_and!.
    + eapply did_prefix; [|done]. by apply prefix_app_r.
    + destruct read as [[entry|]|e]; [|done..]. destruct Hb as (r & Hr & ->). exists r. split; [|done].
      apply did_suffix. eapply did_prefix; [|done]. by apply prefix_app_r.
    + by rewrite !sent_app, Ht1, Ht2.
    + intros p Hpp. eapply public_package_sub; [|by apply Hp]. intros e He. rewrite !elem_of_app. auto.
Qed.

End answers.

Section witnesses.
#[local] Existing Instance memory_storage.
#[local] Existing Instance toy_addressing.
#[local] Existing Instance ex_json_api.
#[local] Existing Instance ex_node.

Definition ask_for_gossip (agent : string) : ServerMessage :=
  Message_HandleGetGossipingEntryList "dna" agent "r1".

Lemma handler_scope_witness :
  message_space (ask_for_gossip "alice") = Some "dna" ∧
  (∀ agent, message_recipient (ask_for_gossip "alice") = Some agent →
     agent = "" ∨ agent = pub_sign_key node_agent_id) ∧
  runs (create_handler false "dna" (Some (ask_for_gossip "bob"))) [] (Ret []).
Proof.
  assert (Hr : runs (create_handler false "dna" (Some (ask_for_gossip "alice"))) []
                 (Ret [Task_gossip_list "dna" "alice" "r1"])) by constructor.
  destruct (handler_scope false "dna" (ask_for_gossip "alice") [] _ Hr) as [Hs Ha]; [by right|].
  split; [exact Hs|]. split; [exact Ha|]. constructor.
Defined.

(** The second post of [Packages] is asked for. *)
Definition answer_run : list Event * Prog () :=
  still_run (posts_state (Some post_2)) posts_world liar_query
    (run_task (Task_validation_package "bob" "r1" (Entry_address (post "b")))).

Lemma package_request_answered_witness :
  length (sent answer_run.1) = 1 ∧ answers_with "bob" "r1" (Entry_address (post "b")) answer_run.1.
Proof.
  split; [vm_compute; reflexivity|].
  apply (package_request_answered "bob" "r1" (Entry_address (post "b"))).
  assert (Ho : outcome_of answer_run.2 = Ret ()) by (vm_compute; reflexivity).
  rewrite <- Ho. apply still_run_runs. vm_compute. reflexivity.
Defined.

End witnesses.
