(* ===== verification/NestedCalls.v ===== *)
(** * Zome functions that call zome functions

    A zome function may call another function of its instance with [hdk::call]:
    [local_call] of [core/src/wasm_engine/api/call.rs] makes the call with
    [call_zome_function] and blocks the thread of the caller on its future.  The
    calls themselves run as in the file on zome calls: [MAX_ZOME_CALLS] at most at a time,
    the others queue.

    A caller keeps its place among the running calls while it waits, so calls
    that wait for calls in the queue can take all the places; then no call of the
    instance ever runs again. *)

From stdpp Require Import base strings list gmap relations.
From Stdlib Require Import ZArith.
From S2P Require Import Prelude Errors CoreTypes Dna Storage Action Instances Nucleus ZomeCalls.

(** The calls of an instance, and for each call whose thread is blocked in
    [local_call] the call it waits for. *)
Record NestedSystem : Type := {
  calls : CallSystem;
  waits : gmap ZomeFnCall ZomeFnCall;
}.

Definition NestedSystem_new (n : NucleusState) : NestedSystem :=
  {| calls := CallSystem_new n; waits := ∅ |}.

(** [call_zome_function] after the checks: the call is queued, and its future
    awaits the result. *)
Definition issue_call (s : CallSystem) (c : ZomeFnCall) : CallSystem :=
  {| nucleus := nucleus s; channel := channel s ++ [Action_QueueZomeFunctionCall c];
     futures := <[c := false]> (futures s); threads := threads s; issued := {[c]} ∪ issued s |}.

(** A thread that waits neither returns nor makes another call; it goes on when
    the future it waits for is resolved. *)
Inductive nested_step : NestedSystem → NestedSystem → Prop :=
| nested_work s calls' :
    work (calls s) calls' →
    (∀ c, c ∈ threads (calls s) → c ∉ threads calls' → waits s !! c = None) →
    nested_step s {| calls := calls'; waits := waits s |}
| nested_call s c :
    c ∉ issued (calls s) →
    nested_step s {| calls := issue_call (calls s) c; waits := waits s |}
| nested_other s a :
    call_msg a = None →
    nested_step s {| calls := {| nucleus := nucleus (calls s); channel := channel (calls s) ++ [a];
                                 futures := futures (calls s); threads := threads (calls s);
                                 issued := issued (calls s) |}; waits := waits s |}
| nested_local_call s c c' :
    c ∈ threads (calls s) → waits s !! c = None → c' ∉ issued (calls s) →
    nested_step s {| calls := issue_call (calls s) c'; waits := <[c := c']> (waits s) |}
| nested_resume s c c' :
    waits s !! c = Some c' → futures (calls s) !! c' = None →
    nested_step s {| calls := calls s; waits := delete c (waits s) |}.

Definition nested_reachable (s : NestedSystem) : Prop :=
  ∃ n, idle n ∧ rtc nested_step (NestedSystem_new n) s.

(** Every place is taken by a call whose thread waits, either for one of the
    running calls or for a call that has not started. *)
Definition waits_in_vain (s : NestedSystem) (c : ZomeFnCall) : bool :=
  bool_decide (c ∈ threads (calls s)) &&
  match waits s !! c with
  | Some c' => bool_decide (c' ∈ running_zome_calls (nucleus (calls s))) ||
               bool_decide (futures (calls s) !! c' = Some false)
  | None => false
  end.

Definition blocked (s : NestedSystem) : bool :=
  Nat.eqb (size (running_zome_calls (nucleus (calls s)))) MAX_ZOME_CALLS &&
  forallb (waits_in_vain s) (elements (running_zome_calls (nucleus (calls s)))).

(** ** Calls of an instance with nested calls are calls of an instance *)

Lemma nested_call_step s s' : nested_step s s' → rtc call_step (calls s) (calls s').
Proof.
  destruct 1 as [s' calls' Hw _|s c Hc|s a Ha|s c c' _ _ Hc|s c c' _ _]; cbn; [..|done];
    apply rtc_once.
  - by apply step_work.
  - by apply step_call.
  - by apply step_other.
  - by apply step_call.
Qed.

Lemma nested_phases s : nested_reachable s → ∃ ph, phases (calls s) ph.
Proof.
  intros (n & Hn & Hs). apply reachable_phases. exists n. split; [done|].
  change (CallSystem_new n) with (calls (NestedSystem_new n)).
  induction Hs as [|s1 s2 s3 Hstep _ IH]; [done|].
  etrans; [by apply nested_call_step|done].
Qed.

(** ** No way out *)

Lemma blocked_spec s :
  blocked s = true ↔
  size (running_zome_calls (nucleus (calls s))) = MAX_ZOME_CALLS ∧
  ∀ c, c ∈ running_zome_calls (nucleus (calls s)) →
    c ∈ threads (calls s) ∧
    ∃ c', waits s !! c = Some c' ∧
          (c' ∈ running_zome_calls (nucleus (calls s)) ∨ futures (calls s) !! c' = Some false).
Proof.
  unfold blocked. rewrite andb_true_iff, Nat.eqb_eq, forallb_forall. f_equiv.
  split; intros Hall c Hc.
  - apply elem_of_elements, list_elem_of_In, Hall in Hc. unfold waits_in_vain in Hc.
    apply andb_true_iff in Hc as [Ht Hw]. split; [by apply bool_decide_eq_true in Ht|].
    destruct (waits s !! c) as [c'|]; [|done]. exists c'. split; [done|].
    by apply orb_true_iff in Hw as [Hw|Hw]; apply bool_decide_eq_true in Hw; [left|right].
  - apply list_elem_of_In, elem_of_elements, Hall in Hc as (Ht & c' & Hw & Hc'). unfold waits_in_vain.
    rewrite bool_decide_true, Hw by done. apply orb_true_iff.
    by destruct Hc' as [?|?]; [left|right]; apply bool_decide_eq_true.
Qed.

Section blocked.
Variables (s : NestedSystem) (ph : ZomeFnCall → Phase).
Hypothesis Hph : phases (calls s) ph.
Hypothesis Hblocked : blocked s = true.

Let running := running_zome_calls (nucleus (calls s)).

Lemma running_executes c : c ∈ running → ph c = Executing.
Proof. intros Hc. apply (ph_threads _ _ Hph). by apply (proj1 (blocked_spec s) Hblocked). Qed.

Lemma thread_waits c : c ∈ threads (calls s) → waits s !! c ≠ None.
Proof.
  intros Ht%(ph_threads _ _ Hph). destruct (proj1 (blocked_spec s) Hblocked) as [_ Hb].
  destruct (Hb c) as (_ & c' & -> & _); [|done]. apply (ph_running _ _ Hph). by rewrite Ht.
Qed.

(** Reducing an action changes the running calls only when one returns. *)
Lemma blocked_reduce a rest :
  channel (calls s) = a :: rest →
  running_zome_calls (Nucleus.reduce (nucleus (calls s)) (wrap a)) = running.
Proof.
  intros Hch. destruct (call_msg a) as [m|] eqn:Ha;
    [|by destruct (reduce_no_call (nucleus (calls s)) a Ha) as (_ & ? & _)].
  assert (Hm : ph (msg_call m) = phase_of_msg m).
  { apply (ph_msgs _ _ Hph). rewrite Hch. cbn. rewrite Ha. by left. }
  destruct a; cbn in Ha; try done; injection Ha as <-; cbn in Hm |- *.
  - destruct (proj1 (blocked_spec s) Hblocked) as [Hfull _]. fold running in Hfull |- *. by rewrite Hfull.
  - assert (Hc : ph (response_call response) = Executing); [|congruence].
    apply running_executes, (ph_running _ _ Hph). by rewrite Hm.
  - fold running. assert (call ∉ running); [|set_solver].
    intros Hc%running_executes. congruence.
Qed.

(** What stays as it is: the running calls, and the calls that have not started. *)
Definition stays (s' : NestedSystem) : Prop :=
  running_zome_calls (nucleus (calls s')) = running ∧
  (∀ c, futures (calls s) !! c = Some false → futures (calls s') !! c = Some false) ∧
  blocked s' = true.

Lemma blocked_stays s' :
  running_zome_calls (nucleus (calls s')) = running →
  threads (calls s) ⊆ threads (calls s') →
  (∀ c c', waits s !! c = Some c' → c ∈ running → waits s' !! c = Some c') →
  (∀ c, futures (calls s) !! c = Some false → futures (calls s') !! c = Some false) →
  stays s'.
Proof.
  intros Hr Ht Hw Hf. split_and!; [done..|]. destruct (proj1 (blocked_spec s) Hblocked) as [Hfull Hb].
  apply blocked_spec. rewrite Hr. split; [done|]. intros c Hc.
  destruct (Hb c Hc) as (Htc & c' & Hwc & Hc'). split; [by apply Ht|]. exists c'.
  split; [by apply Hw|]. destruct Hc' as [?|?]; [by left|right; by apply Hf].
Qed.

Lemma blocked_work calls' :
  work (calls s) calls' →
  (∀ c, c ∈ threads (calls s) → c ∉ threads calls' → waits s !! c = None) →
  stays {| calls := calls'; waits := waits s |}.
Proof.
  intros Hw Hret. inversion Hw as [s0 a rest Hch|s0 c b Hf Hp|s0 c b r Hf Hp|s0 c r Hin]; subst.
  - apply blocked_stays; try done. by apply (blocked_reduce a rest).
  - rewrite (ph_futures _ _ Hph) in Hf. destruct b; cbn in Hp; [by destruct (zome_call_result _ _)|].
    case_bool_decide as Hc; [|done]. by rewrite running_executes in Hf.
  - apply blocked_stays; cbn; try done. intros c0 Hc0.
    rewrite lookup_delete_ne; [done|]. intros <-. rewrite Hf in Hc0. simplify_eq. cbn in Hp.
    by case_bool_decide.
  - exfalso. apply (thread_waits c Hin), Hret; [done|]. cbn. set_solver.
Qed.

Lemma issue_keeps_futures c c0 :
  c ∉ issued (calls s) → futures (calls s) !! c0 = Some false →
  futures (issue_call (calls s) c) !! c0 = Some false.
Proof. intros _ Hc0. cbn. by destruct (decide (c = c0)) as [->|]; simplify_map_eq. Qed.

Lemma blocked_step s' : nested_step s s' → stays s'.
Proof.
  intros Hs. inversion Hs as [s0 calls' Hw Hret|s0 c Hc|s0 a Ha|s0 c c' Hin Hn Hc|s0 c c' Hwc Hfc];
    subst.
  - by apply blocked_work.
  - apply blocked_stays; try done. intros c0. by apply issue_keeps_futures.
  - by apply blocked_stays.
  - by destruct (thread_waits c Hin).
  - apply blocked_stays; cbn; try done. intros c0 c1 Hc0 Hrun.
    destruct (proj1 (blocked_spec s) Hblocked) as [_ Hb]. destruct (Hb c0 Hrun) as (_ & c2 & Hw2 & Hc2).
    simplify_eq. rewrite lookup_delete_ne; [done|]. intros <-. simplify_eq.
    destruct Hc2 as [Hc2|Hc2]; [|congruence]. rewrite (ph_futures _ _ Hph) in Hfc.
    by rewrite running_executes in Hfc.
Qed.

End blocked.

(** C31: nested calls can block an instance for good.  Once every place is taken
    by a call that waits for another running call or for one that has not
    started, nothing that happens later helps: the same calls run, none of them
    ever gets a result, and no call that has not started ever starts. *)
Theorem nested_calls_deadlock s s' :
  nested_reachable s → blocked s = true → rtc nested_step s s' →
  running_zome_calls (nucleus (calls s')) = running_zome_calls (nucleus (calls s)) ∧
  (∀ c, c ∈ running_zome_calls (nucleus (calls s)) →
     futures (calls s') !! c = Some true ∧ zome_call_result (nucleus (calls s')) c = None) ∧
  (∀ c, futures (calls s) !! c = Some false → futures (calls s') !! c = Some false).
Proof.
  intros Hreach Hb Hs.
  assert (nested_reachable s' ∧ stays s s') as (Hreach' & Hr & Hf & Hb').
  { induction Hs as [|s1 s2 s3 Hstep _ IH]; [done|].
    destruct (nested_phases _ Hreach) as [ph Hph].
    destruct (blocked_step _ _ Hph Hb _ Hstep) as (Hr & Hf & Hb2).
    destruct IH as (H3 & Hr3 & Hf3 & Hb3); [|done|].
    { destruct Hreach as (n & Hn & Hp). exists n. split; [done|]. by eapply rtc_r. }
    split; [done|]. split_and!; [congruence|auto|done]. }
  destruct (nested_phases _ Hreach') as [ph Hph].
  split_and!; [done| |done]. intros c Hc. rewrite <- Hr in Hc.
  apply (running_executes s' ph Hph Hb') in Hc. rewrite (ph_futures _ _ Hph), Hc.
  split; [done|]. apply eq_None_not_Some. unfold zome_call_result.
  by rewrite (ph_results _ _ Hph), Hc.
Qed.

(** ** A chain of calls *)

(** Steps by which calls come to wait. *)
Inductive Cmd : Type :=
| Cmd_call (c : ZomeFnCall)
| Cmd_local_call (c c' : ZomeFnCall)
| Cmd_reduce
| Cmd_spawn (c : ZomeFnCall).

Definition exec (s : NestedSystem) (cmd : Cmd) : option NestedSystem :=
  match cmd with
  | Cmd_call c =>
      guard (c ∉ issued (calls s));; Some {| calls := issue_call (calls s) c; waits := waits s |}
  | Cmd_local_call c c' =>
      guard (c ∈ threads (calls s));; guard (waits s !! c = None);; guard (c' ∉ issued (calls s));;
      Some {| calls := issue_call (calls s) c'; waits := <[c := c']> (waits s) |}
  | Cmd_reduce =>
      match channel (calls s) with
      | a :: rest => Some {| calls := after_reduce (calls s) a rest; waits := waits s |}
      | [] => None
      end
  | Cmd_spawn c =>
      guard (futures (calls s) !! c = Some false);;
      guard (c ∈ running_zome_calls (nucleus (calls s)));;
      Some {| calls := {| nucleus := nucleus (calls s); channel := channel (calls s);
                          futures := <[c := true]> (futures (calls s));
                          threads := {[c]} ∪ threads (calls s); issued := issued (calls s) |};
              waits := waits s |}
  end.

Fixpoint exec_all (s : NestedSystem) (l : list Cmd) : option NestedSystem :=
  match l with
  | [] => Some s
  | cmd :: l => s ← exec s cmd; exec_all s l
  end.

Lemma exec_step s cmd s' : exec s cmd = Some s' → nested_step s s'.
Proof.
  destruct cmd; cbn; repeat case_guard; try done; cbn.
  - intros [= <-]. by apply nested_call.
  - intros [= <-]. by apply nested_local_call.
  - destruct (channel (calls s)) as [|a rest] eqn:Hch; [done|]. intros [= <-].
    apply nested_work; [by apply work_reduce|done].
  - intros [= <-]. apply nested_work; [|cbn; set_solver].
    eapply work_spawn; [done|]. cbn. by rewrite bool_decide_true.
Qed.

Lemma exec_all_steps s l s' : exec_all s l = Some s' → rtc nested_step s s'.
Proof.
  revert s. induction l as [|cmd l IH]; intros s; cbn; [by intros [= <-]|].
  destruct (exec s cmd) as [s1|] eqn:He; [|done]. intros Hl.
  eapply rtc_l; [by eapply exec_step|by apply IH].
Qed.

Definition hop (i : nat) : ZomeFnCall :=
  {| call_id := N.of_nat i; zome_name := "";
     cap := {| cap_token := ""; cap_provenance := {| source := ""; signature := "" |} |};
     call_fn_name := ""; call_parameters := "" |}.

(** One call from outside whose function calls another, and so on. *)
Definition chain_cmds (depth : nat) : list Cmd :=
  Cmd_call (hop 0) :: Cmd_reduce :: Cmd_spawn (hop 0) ::
  (seq 0 depth ≫= λ i,
     Cmd_local_call (hop i) (hop (S i)) :: Cmd_reduce ::
     if Nat.ltb (S i) MAX_ZOME_CALLS then [Cmd_spawn (hop (S i))] else []).

Definition ex_nested (depth : nat) : NestedSystem :=
  default (NestedSystem_new ex_nucleus)
    (exec_all (NestedSystem_new ex_nucleus) (chain_cmds depth)).

(** A single call nested eleven deep is enough. *)
Lemma nested_calls_deadlock_witness :
  let s := ex_nested MAX_ZOME_CALLS in
  let s' := {| calls := issue_call (calls s) (hop 99); waits := waits s |} in
  running_zome_calls (nucleus (calls s')) = running_zome_calls (nucleus (calls s)) ∧
  (∀ c, c ∈ running_zome_calls (nucleus (calls s)) →
     futures (calls s') !! c = Some true ∧ zome_call_result (nucleus (calls s')) c = None) ∧
  (∀ c, futures (calls s) !! c = Some false → futures (calls s') !! c = Some false).
Proof.
  intros s s'. apply (nested_calls_deadlock s s').
  - exists ex_nucleus. split; [done|]. apply (exec_all_steps _ (chain_cmds MAX_ZOME_CALLS)).
    unfold s, ex_nested. destruct (exec_all _ _) as [x|] eqn:He; [done|].
    apply (f_equal (λ o, match o with Some _ => true | None => false end)) in He.
    vm_compute in He. discriminate.
  - vm_compute. reflexivity.
  - apply rtc_once, nested_call. apply (bool_decide_eq_true_1 _). vm_compute. reflexivity.
Defined.
