(* ===== verification/ZomeApi.v ===== *)
(** * The functions a zome may call

    Models [core/src/wasm_engine/api]: the functions the host offers to the code
    of an application, with the runtime they work on ([runtime.rs]), the JSON-RPC
    requests some of them make to the conductor ([keystore.rs],
    [conductor_api/src/conductor_api.rs]), the arguments and results of
    [wasm_utils/src/api_serialization], and [call_zome_function] of
    [core/src/nucleus/actions/call_zome_function.rs] as a program.

    Each function loads its argument from the memory of the zome, does its work,
    and writes its result there.  The theorems say what a zome can make its node
    do: whatever it calls, an entry is committed only after it was validated,
    capability tokens apart, nothing private is published, a function is called only
    by a request that passed the check of its capability, and the conductor is asked
    only for what the function is for, with what the zome gave. *)

From stdpp Require Import base strings list gmap.
From Stdlib Require Import ZArith.
From S2P Require Import Prelude Errors WasmMemory CoreTypes Dna Storage Action Instances Config.
From S2P Require Import ContentStore Agent.
From S2P Require Import Network Nucleus ZomeCalls AspectMap DhtStore DhtReducers GetEntry.
From S2P Require Import Instance Async Ribosome Futures Packages Validation Workflows.

(** ** Arguments and results: wasm_utils/src/api_serialization *)

Record CommitEntryArgs : Type := {
  commit_args_entry : Entry;
  commit_args_provenance : list Provenance;
}.

Record UpdateEntryArgs : Type := {
  new_entry : Entry;
  update_address : Address;
}.

Record LinkEntriesArgs : Type := {
  le_base : Address;
  le_target : Address;
  le_link_type : string;
  le_tag : string;
}.

Definition LinkEntriesArgs_to_link (self : LinkEntriesArgs) : Link :=
  {| base := le_base self; target := le_target self; link_type := le_link_type self;
     tag := le_tag self |}.

Record GetEntryArgs : Type := {
  get_args_address : Address;
  get_args_options : GetEntryOptions;
  get_args_timeout : Duration;
}.

Inductive QueryArgsNames : Type :=
| QueryName (name : string)
| QueryList (pats : list string).

Record QueryArgs : Type := {
  entry_type_names : QueryArgsNames;
  query_start : nat;
  query_limit : nat;
  query_headers : bool;
  query_entries : bool;
}.

Inductive QueryResult : Type :=
| Query_Addresses (l : list Address)
| Query_Headers (l : list ChainHeader)
| Query_Entries (l : list (Address * Entry))
| Query_HeadersWithEntries (l : list (ChainHeader * Entry)).

Definition THIS_INSTANCE : string := "__hdk_this_instance".

Record ZomeFnCallArgs : Type := {
  instance_handle : string;
  args_zome_name : string;
  args_cap_token : Address;
  args_fn_name : string;
  fn_args : string;
}.

Record SendArgs : Type := {
  send_to_agent : Address;
  send_payload : string;
  send_timeout : Duration;
}.

Record CommitCapabilityGrantArgs : Type := {
  grant_args_id : string;
  grant_args_cap_type : CapabilityType;
  grant_args_assignees : option (list Address);
  grant_args_functions : gmap string (list string);
}.

Record CommitCapabilityClaimArgs : Type := {
  claim_args_id : string;
  claim_args_grantor : Address;
  claim_args_token : Address;
}.

Record CryptoArgs : Type := {
  crypto_payload : string;
  crypto_method : CryptoMethod;
}.

Record VerifySignatureArgs : Type := {
  verify_provenance : Provenance;
  verify_payload : string;
}.

Record EmitSignalArgs : Type := {
  signal_name : string;
  signal_arguments : JsonString;
}.

Inductive MetaMethod : Type :=
| MetaMethod_Version
| MetaMethod_Hash.

Inductive MetaResult : Type :=
| MetaResult_Version (v : string)
| MetaResult_Hash (h : string).

Record ZomeApiGlobals : Type := {
  globals_dna_name : string;
  globals_dna_address : Address;
  agent_id_str : string;
  agent_address : Address;
  agent_initial_hash : Address;
  agent_latest_hash : Address;
  globals_public_token : Address;
  cap_request : option CapabilityRequest;
  properties : JsonString;
}.

Record SignOneTimeResult : Type := {
  one_time_pub_key : string;
  one_time_signatures : list string;
}.

(** The values that the functions return to a zome. *)
Inductive ApiValue : Type :=
| Value_Unit
| Value_Bool (b : bool)
| Value_Json (j : JsonString)
| Value_Address (a : Address)
| Value_CommitEntryResult (a : Address)
| Value_GetEntryResult (r : GetEntryResultType)
| Value_GetLinksResult (l : list LinksResult)
| Value_GetLinksResultCount (n : nat)
| Value_QueryResult (r : QueryResult)
| Value_Globals (g : ZomeApiGlobals)
| Value_SignOneTimeResult (r : SignOneTimeResult)
| Value_KeystoreListResult (ids : list string)
| Value_MetaResult (r : MetaResult).

(** [ZomeApiInternalResult] of [core_types/src/error]: what is written for the
    zome; the value and the error are JSON texts. *)
Record ZomeApiInternalResult : Type := {
  ok : bool;
  value : string;
  error : string;
}.

Definition ZomeApiInternalResult_success (value : JsonString) : ZomeApiInternalResult :=
  {| ok := true; value := value; error := json_null |}.

Definition ZomeApiInternalResult_failure (error : JsonString) : ZomeApiInternalResult :=
  {| ok := false; value := json_null; error := error |}.

(** A response of JSON-RPC ([jsonrpc_lite]); results and errors are JSON texts. *)
Inductive JsonRpc : Type :=
| JsonRpc_Success (result : string)
| JsonRpc_Error (code : Z) (message text : string)
| JsonRpc_Other.

(** ** What the host takes from its libraries *)

(** The JSON of arguments and results ([serde]; the [decode_] functions give
    [None] for a text that is no such argument), the messages of JSON-RPC, glob
    patterns, base64, one-time keys made from random data, and the version of
    the build.  [json_string] reads a JSON string, [json_strings] a list of them,
    [json_field] the text of a field of a JSON value ([null] if it has none). *)
Class ZomeHost : Type := {
  decode_commit_entry : JsonString → option CommitEntryArgs;
  decode_update_entry : JsonString → option UpdateEntryArgs;
  decode_address : JsonString → option Address;
  decode_link_entries : JsonString → option LinkEntriesArgs;
  decode_get_entry : JsonString → option GetEntryArgs;
  decode_get_links : JsonString → option GetLinksArgs;
  decode_query : JsonString → option QueryArgs;
  decode_call : JsonString → option ZomeFnCallArgs;
  decode_send : JsonString → option SendArgs;
  decode_grant : JsonString → option CommitCapabilityGrantArgs;
  decode_claim : JsonString → option CommitCapabilityClaimArgs;
  decode_entry : JsonString → option Entry;
  decode_sign_one_time : JsonString → option (list string);
  decode_verify_signature : JsonString → option VerifySignatureArgs;
  decode_crypto : JsonString → option CryptoArgs;
  decode_emit_signal : JsonString → option EmitSignalArgs;
  decode_meta : JsonString → option MetaMethod;
  decode_u64 : JsonString → option Z;
  value_json : ApiValue → JsonString;
  core_error_json : HolochainError → JsonString;
  internal_result_json : ZomeApiInternalResult → JsonString;
  agent_id_json : AgentId → JsonString;
  json_string : string → option string;
  json_strings : string → option (list string);
  json_field : string → string → option string;
  crypto_request : string → string → string → string;
  rpc_parse : string → Result HolochainError JsonRpc;
  host_glob_build : list string → option (string → bool);
  host_base64_encode : string → string;
  one_time_key : string → Result HolochainError string;
  one_time_sign : string → string → Result HolochainError string;
  hdk_version : string;
  hdk_hash : string;
}.

(** ** mod.rs: the names of the functions *)

(** The list of [link_zome_api!], in the order of the enumeration. *)
Definition zome_api_functions : list (string * ZomeApiFunction) :=
  [("hc_debug", Api_Debug);
   ("hc_commit_entry", Api_CommitAppEntry);
   ("hc_get_entry", Api_GetAppEntry);
   ("hc_update_entry", Api_UpdateEntry);
   ("hc_remove_entry", Api_RemoveEntry);
   ("hc_init_globals", Api_InitGlobals);
   ("hc_call", Api_Call);
   ("hc_link_entries", Api_LinkEntries);
   ("hc_get_links", Api_GetLinks);
   ("hc_get_links_count", Api_GetLinksCount);
   ("hc_query", Api_Query);
   ("hc_entry_address", Api_EntryAddress);
   ("hc_send", Api_Send);
   ("hc_sleep", Api_Sleep);
   ("hc_remove_link", Api_RemoveLink);
   ("hc_crypto", Api_Crypto);
   ("hc_sign_one_time", Api_SignOneTime);
   ("hc_verify_signature", Api_VerifySignature);
   ("hc_keystore_list", Api_KeystoreList);
   ("hc_keystore_new_random", Api_KeystoreNewRandom);
   ("hc_keystore_derive_seed", Api_KeystoreDeriveSeed);
   ("hc_keystore_derive_key", Api_KeystoreDeriveKey);
   ("hc_keystore_sign", Api_KeystoreSign);
   ("hc_keystore_get_public_key", Api_KeystoreGetPublicKey);
   ("hc_commit_capability_grant", Api_CommitCapabilityGrant);
   ("hc_commit_capability_claim", Api_CommitCapabilityClaim);
   ("hc_emit_signal", Api_EmitSignal);
   ("hc_meta", Api_Meta)]%string.

Definition ZomeApiFunction_from_str (s : string) : Result string ZomeApiFunction :=
  if String.eqb s "abort" then Ok Api_Abort
  else ok_or "Cannot convert string to ZomeApiFunction"%string (btree_get zome_api_functions s).

Definition ZomeApiFunction_as_str (f : ZomeApiFunction) : string :=
  match f with
  | Api_MissingNo => ""
  | Api_Abort => "abort"
  | f => match list_find (λ x, x.2 = f) zome_api_functions with
         | Some (_, (name, _)) => name
         | None => ""
         end
  end.

(** [MissingNo] is 0 and [Abort] 1. *)
Definition ZomeApiFunction_from_index (i : nat) : ZomeApiFunction :=
  match i with
  | 0 => Api_MissingNo
  | 1 => Api_Abort
  | S (S i) => match zome_api_functions !! i with Some (_, f) => f | None => Api_MissingNo end
  end.

Definition ZomeApiFunction_index (f : ZomeApiFunction) : nat :=
  match f with
  | Api_MissingNo => 0
  | Api_Abort => 1
  | f => match list_find (λ x, x.2 = f) zome_api_functions with
         | Some (i, _) => S (S i)
         | None => 0
         end
  end.

Definition ZomeApiFunction_str_to_index (s : string) : nat :=
  match ZomeApiFunction_from_str s with
  | Ok f => ZomeApiFunction_index f
  | Err _ => ZomeApiFunction_index Api_MissingNo
  end.

(** A zome imports the functions by their names and calls them by their index. *)
Lemma ZomeApiFunction_names f :
  f ≠ Api_MissingNo →
  ZomeApiFunction_from_str (ZomeApiFunction_as_str f) = Ok f ∧
  ZomeApiFunction_from_index (ZomeApiFunction_str_to_index (ZomeApiFunction_as_str f)) = f.
Proof. by destruct f. Qed.

(** ** runtime.rs *)

Record CallbackFnCall : Type := {
  callback_zome_name : string;
  callback_fn_name : string;
  callback_parameters : JsonString;
}.

(** The call that a module runs for; a call without a context has only the name
    of its function. *)
Inductive WasmCallData : Type :=
| WasmCall_Zome (call : ZomeFnCall)
| WasmCall_Callback (call : CallbackFnCall)
| WasmCall_Direct (name : string).

Record CallData : Type := {
  cd_zome_name : string;
  cd_fn_name : string;
  cd_parameters : JsonString;
}.

Record Runtime : Type := {
  memory_manager : WasmPageManager;
  rt_data : WasmCallData;
}.

Inductive Trap : Type :=
| Trap_BadCall (message : string).

(** What a function returns to the interpreter of the module. *)
Abbreviation ZomeApiResult := (Result Trap (option Z)) (only parsing).

Definition WasmCallData_fn_name (self : WasmCallData) : string :=
  match self with
  | WasmCall_Zome call => call_fn_name call
  | WasmCall_Callback call => callback_fn_name call
  | WasmCall_Direct name => name
  end.

Definition zome_call_data (self : Runtime) : Result Trap ZomeFnCall :=
  match rt_data self with
  | WasmCall_Zome call => Ok call
  | _ => Err (Trap_BadCall "zome_call_data: ")
  end.

Definition callback_call_data (self : Runtime) : Result Trap CallbackFnCall :=
  match rt_data self with
  | WasmCall_Callback call => Ok call
  | _ => Err (Trap_BadCall "callback_call_data: ")
  end.

Definition call_data (self : Runtime) : Result Trap CallData :=
  match rt_data self with
  | WasmCall_Zome call =>
      Ok {| cd_zome_name := zome_name call; cd_fn_name := call_fn_name call;
            cd_parameters := call_parameters call |}
  | WasmCall_Callback call =>
      Ok {| cd_zome_name := callback_zome_name call; cd_fn_name := callback_fn_name call;
            cd_parameters := callback_parameters call |}
  | WasmCall_Direct _ => Err (Trap_BadCall "call_data: ")
  end.

(** The context itself is what the programs run in. *)
Definition runtime_context (self : Runtime) : Result Trap () :=
  match rt_data self with
  | WasmCall_Zome _ | WasmCall_Callback _ => Ok ()
  | WasmCall_Direct _ => Err (Trap_BadCall "context data: ")
  end.

Section api.
Context `{Storage} `{Addressing} `{DnaAddressing} `{JsonApi} `{Node} `{ZomeHost}.

(** A function of the API: a program that returns the runtime, whose memory it
    may have written to, and its result. *)
Abbreviation Api := (Prog (Runtime * ZomeApiResult)) (only parsing).

Definition ribosome_success (self : Runtime) : Api :=
  mret (self, Ok (Some (RibosomeEncodedValue_to_bits Success))).

Definition ribosome_error_code (self : Runtime) (code : RibosomeErrorCode) : Api :=
  mret (self, Ok (Some (RibosomeErrorCode_discriminant code))).

Definition store_result (self : Runtime) (result : Result HolochainError ApiValue) : Api :=
  '(bits, memory) ← lift_outcome (store_as_json_string (memory_manager self)
    (internal_result_json match result with
                          | Ok v => ZomeApiInternalResult_success (value_json v)
                          | Err hc_err => ZomeApiInternalResult_failure (core_error_json hc_err)
                          end));
  mret ({| memory_manager := memory; rt_data := rt_data self |}, Ok (Some bits)).

(** [runtime.context()?]. *)
Definition with_context (self : Runtime) (k : Api) : Api :=
  match runtime_context self with
  | Ok _ => k
  | Err trap => mret (self, Err trap)
  end.

(** The first steps of most functions: the argument is loaded and decoded. *)
Definition with_args {T} (self : Runtime) (args : Z) (decode : JsonString → option T)
    (k : T → Api) : Api :=
  args_str ← lift_outcome (load_json_string_from_args (memory_manager self) args);
  match decode args_str with
  | Some input => k input
  | None => ribosome_error_code self ArgumentDeserializationFailed
  end.

(** ** commit.rs, update_entry.rs and remove_entry.rs *)

Definition invoke_commit_app_entry (self : Runtime) (args : Z) : Api :=
  with_context self (with_args self args decode_commit_entry (λ commit_entry_arg,
    task_result ← author_entry (commit_args_entry commit_entry_arg) None
                    (commit_args_provenance commit_entry_arg);
    store_result self (Value_CommitEntryResult <$> task_result))).

(** The latest version of the entry, for [k]. *)
Definition with_latest (self : Runtime) (address : Address) (k : Entry → Api) : Api :=
  maybe_entry_result ← get_entry_result_workflow address default_options default_timeout;
  match maybe_entry_result with
  | Err _ => ribosome_error_code self WorkflowFailed
  | Ok entry_result =>
      if negb (GetEntryResult_found entry_result) then ribosome_error_code self EntryNotFound
      else
        latest_entry ← lift_outcome (unwrap (GetEntryResult_latest entry_result));
        k latest_entry
  end.

Definition invoke_update_entry (self : Runtime) (args : Z) : Api :=
  with_context self (with_args self args decode_update_entry (λ entry_args,
    with_latest self (update_address entry_args) (λ latest_entry,
      res ← author_entry (new_entry entry_args) (Some (Entry_address latest_entry)) [];
      store_result self (Value_Address <$> res)))).

Definition invoke_remove_entry (self : Runtime) (args : Z) : Api :=
  with_context self (with_args self args decode_address (λ address,
    with_latest self address (λ latest_entry,
      let deleted_entry_address := Entry_address latest_entry in
      let deletion_entry := Entry_Deletion {| deleted_entry_address := deleted_entry_address |} in
      res ← author_entry deletion_entry (Some deleted_entry_address) [];
      store_result self ((λ _, Value_Address (Entry_address deletion_entry)) <$> res)))).

(** ** link_entries.rs and remove_link.rs *)

(** The link that is added or removed; without a header on the chain the call
    fails as if its argument had been malformed. *)
Definition with_link_data (self : Runtime) (input : LinkEntriesArgs) (kind : LinkActionKind)
    (k : LinkData → Api) : Api :=
  '(s, _) ← state_expect;
  match agent_top_chain_header (st_agent s) with
  | None => ribosome_error_code self ArgumentDeserializationFailed
  | Some top_chain_header =>
      k (LinkData_from_link (LinkEntriesArgs_to_link input) kind top_chain_header node_agent_id)
  end.

Definition invoke_link_entries (self : Runtime) (args : Z) : Api :=
  with_context self (with_args self args decode_link_entries (λ input,
    with_link_data self input ADD (λ link_add,
      let entry := Entry_LinkAdd link_add in
      result ← author_entry entry None [];
      store_result self ((λ _, Value_Address (Entry_address entry)) <$> result)))).

(** [GetLinksArgs] for the links of the same base, type and tag. *)
Definition links_like (link : Link) : GetLinksArgs :=
  {| links_entry_address := base link; args_link_type := Some (link_type link);
     args_tag := Some (tag link);
     links_options := {| links_status_request := LinksStatus_Live; links_headers := false;
                         links_timeout := default_timeout; links_pagination := None;
                         links_sort_order := None |} |}.

Definition invoke_remove_link (self : Runtime) (args : Z) : Api :=
  with_context self (with_args self args decode_link_entries (λ input,
    with_link_data self input REMOVE (λ link_remove,
      let link := LinkEntriesArgs_to_link input in
      let config := {| config_headers := false; pagination := None; sort_order := None |} in
      response_result ← Futures.query (QueryMethod_Link (links_like link) (LinksQuery_Links config))
                          default_timeout;
      match response_result with
      | Ok (QueryResult_Links (LinksResult_Links links) _ _) =>
          let filtered_links :=
            gld_address <$> filter (λ l, gld_target l = target link) links in
          let entry := Entry_LinkRemove link_remove filtered_links in
          result ← author_entry entry None [];
          store_result self ((λ _, Value_Unit) <$> result)
      | _ => ribosome_error_code self WorkflowFailed
      end))).

(** ** get_entry.rs, get_links.rs and get_links_count.rs *)

Definition invoke_get_entry (self : Runtime) (args : Z) : Api :=
  with_context self (with_args self args decode_get_entry (λ input,
    result ← get_entry_result_workflow (get_args_address input) (get_args_options input)
               (get_args_timeout input);
    store_result self (Value_GetEntryResult <$> result))).

Definition invoke_get_links (self : Runtime) (args : Z) : Api :=
  with_context self (with_args self args decode_get_links (λ input,
    result ← get_link_result_workflow input;
    store_result self (Value_GetLinksResult <$> result))).

Definition invoke_get_links_count (self : Runtime) (args : Z) : Api :=
  with_context self (with_args self args decode_get_links (λ input,
    result ← get_link_result_count_workflow input;
    store_result self (Value_GetLinksResultCount <$> result))).

(** ** query.rs *)

Definition get_entry_from_chain (address : Address) : Prog (Result HolochainError Entry) :=
  maybe_entry ←? read_entry_from_agent_chain address;
  mret (ok_or (HolochainError_ErrorGeneric ("Failed to obtain Entry for Address " +:+ address))
          maybe_entry).

(** The DNA is left out; without headers it is fetched first. *)
Fixpoint entries_of_addresses (addresses : list Address) :
    Prog (Result HolochainError (list (Address * Entry))) :=
  match addresses with
  | [] => ret_ok []
  | address :: addresses =>
      entry ←? get_entry_from_chain address;
      entries ←? entries_of_addresses addresses;
      ret_ok (if bool_decide (Entry_entry_type entry = EntryType_Dna) then entries
              else (address, entry) :: entries)
  end.

Fixpoint entries_of_headers (headers : list ChainHeader) :
    Prog (Result HolochainError (list (ChainHeader * Entry))) :=
  match headers with
  | [] => ret_ok []
  | header :: headers =>
      if bool_decide (entry_type header = EntryType_Dna) then entries_of_headers headers
      else
        entry ←? get_entry_from_chain (entry_address header);
        entries ←? entries_of_headers headers;
        ret_ok ((header, entry) :: entries)
  end.

(** What the application gets of a result of the chain. *)
Definition query_result (entries : bool) (result : ChainStoreQueryResult) :
    Prog (Result HolochainError QueryResult) :=
  match entries, result with
  | false, Addresses addresses => ret_ok (Query_Addresses addresses)
  | false, Headers headers => ret_ok (Query_Headers headers)
  | true, Addresses addresses =>
      l ←? entries_of_addresses addresses; ret_ok (Query_Entries l)
  | true, Headers headers =>
      l ←? entries_of_headers headers; ret_ok (Query_HeadersWithEntries l)
  end.

Definition invoke_query (self : Runtime) (args : Z) : Api :=
  with_context self (with_args self args decode_query (λ query,
    '(s, w) ← state_expect;
    match agent_top_chain_header (st_agent s) with
    | None => panic
    | Some top =>
        let names := match entry_type_names query with
                     | QueryList pats => pats
                     | QueryName name => [name]
                     end in
        maybe_result ← lift_outcome
          (Agent.query host_glob_build (w_cas w) node_fuel (Some top) names
             {| start := query_start query; limit := query_limit query;
                opt_headers := query_headers query |});
        match maybe_result with
        | Err _ => ribosome_error_code self UnknownEntryType
        | Ok result =>
            r ← query_result (query_entries query) result;
            match r with
            | Ok r => store_result self (Ok (Value_QueryResult r))
            | Err _ => ribosome_error_code self UnknownEntryType
            end
        end
    end)).

(** ** conductor_api.rs: requests to the conductor *)

(** The request is answered, and the response read; [failed] is the message for
    no answer. *)
Definition rpc_call (request failed : string) : Prog (Result HolochainError JsonRpc) :=
  response ← call (Call_conductor request);
  match response with
  | None => ret_err (HolochainError_ErrorGeneric failed)
  | Some response => mret (rpc_parse response)
  end.

Definition send_json_rpc (payload : string) (request_response : string * string) :
    Prog (Result HolochainError string) :=
  let method := "agent/" +:+ request_response.1 in
  id ← call Call_fresh_text;
  response ←? rpc_call (crypto_request method payload id)
                ("Conductor request agent/" +:+ request_response.1 +:+ " failed");
  mret match response with
       | JsonRpc_Success result =>
           ok_or (HolochainError_ErrorGeneric "Expected Some and got None")
             (json_field result request_response.2 ≫= json_string)
       | JsonRpc_Error code message text =>
           if Z.eqb code 1 then Err (HolochainError_CryptoServiceError message)
           else Err (HolochainError_ErrorGeneric text)
       | JsonRpc_Other =>
           Err (HolochainError_ErrorGeneric ("agent/" +:+ request_response.1 +:+ " failed"))
       end.

(** The name of the request, and of the field of the answer. *)
Definition request_response (method : CryptoMethod) : string * string :=
  match method with
  | CryptoMethod_Sign => ("sign", "signature")
  | CryptoMethod_Encrypt => ("encrypt", "message")
  | CryptoMethod_Decrypt => ("decrypt", "message")
  end%string.

Definition execute (payload : string) (method : CryptoMethod) : Prog (Result HolochainError string) :=
  send_json_rpc (host_base64_encode payload) (request_response method).

(** The text of a request, as [format!] puts it together: nothing is escaped. *)
Definition rpc_text (method params id : string) : string :=
  "{" +:+ quoted "jsonrpc" +:+ ": " +:+ quoted "2.0" +:+ ", " +:+ quoted "method" +:+ ": " +:+
  quoted method +:+ ", " +:+ quoted "params" +:+ ": " +:+ params +:+ ", " +:+ quoted "id" +:+
  ": " +:+ quoted id +:+ "}".

(** ** nucleus/actions/call_zome_function.rs *)

Definition make_call_sig (function : string) (parameters : JsonString) : Prog string :=
  maybe_sig ← execute (encode_call_data_for_signing host_base64_encode function parameters)
                CryptoMethod_Sign;
  mret match maybe_sig with
       | Ok sig => sig
       | Err _ => "badsig"
       end.

Definition make_cap_request_for_call (token : Address) (function : string)
    (parameters : JsonString) : Prog CapabilityRequest :=
  sig ← make_call_sig function parameters;
  mret {| cap_token := token;
          cap_provenance := {| source := AgentId_address node_agent_id; signature := sig |} |}.

(** [validate_call]: the DNA and the chain are read one after the other. *)
Definition validate_call_now (fn_call : ZomeFnCall) :
    Prog (Result HolochainError (string * list Z)) :=
  s ← call Call_state;
  match s with
  | None => ret_err (HolochainError_ErrorGeneric "Context not initialized")
  | Some (s, _) =>
      match find_function (st_nucleus s) fn_call with
      | Err e => ret_err e
      | Ok dna_name_code =>
          '(s, w) ← state_expect;
          is_authorised ← lift_outcome
            (authorised host_base64_encode node_base64_decode node_decode_pub_key
               node_sodium_verify node_agent_id (st_agent s) (w_cas w) node_fuel fn_call);
          if (is_authorised : bool) then ret_ok dna_name_code
          else ret_err HolochainError_CapabilityCheckFailed
      end
  end.

(** The future of a call polls until the call may run, and spawns its thread;
    then it polls for the result.  [call_spawned] is the phase it is in. *)
Definition call_result_poll (zome_call : ZomeFnCall) (call_spawned : bool) (i : PollInput) :
    Poll (option (Result HolochainError JsonString)) :=
  match CallResultFuture_poll (action_channel_error (poll_channel i) "CallResultFuture")
          (st_nucleus <$> try_state i) zome_call call_spawned with
  | Poll_Ready result clear =>
      Ret (Some (Some result, if clear then [Action_ClearZomeFunctionCall zome_call] else []))
  | Poll_Spawn => Ret (Some (None, []))
  | Poll_Pending => Ret None
  end.

Definition call_zome_function (zome_call : ZomeFnCall) : Prog (Result HolochainError JsonString) :=
  _ ←? validate_call_now zome_call;
  _ ← dispatch_action (Action_QueueZomeFunctionCall zome_call);
  started ← await (call_result_poll zome_call false);
  match started with
  | Some result => mret result
  | None =>
      _ ← call (Call_spawn zome_call);
      done ← await (call_result_poll zome_call true);
      match done with
      | Some result => mret result
      | None => panic
      end
  end.

(** ** call.rs *)

Definition ZomeFnCall_from_args (args : ZomeFnCallArgs) : Prog ZomeFnCall :=
  cap_call ← make_cap_request_for_call (args_cap_token args) (args_fn_name args)
               (from_json (fn_args args));
  id ← call Call_unique_id;
  mret {| call_id := id; zome_name := args_zome_name args; cap := cap_call;
          call_fn_name := args_fn_name args; call_parameters := from_json (fn_args args) |}.

Definition local_call (input : ZomeFnCallArgs) : Prog (Result HolochainError JsonString) :=
  zome_call ← ZomeFnCall_from_args input;
  call_zome_function zome_call.

(** The parameters of a call over a bridge, as [format!] puts them together. *)
Definition bridge_params (input : ZomeFnCallArgs) : string :=
  "{" +:+ quoted "instance_id" +:+ ":" +:+ quoted (instance_handle input) +:+ ", " +:+
  quoted "zome" +:+ ": " +:+ quoted (args_zome_name input) +:+ ", " +:+
  quoted "function" +:+ ": " +:+ quoted (args_fn_name input) +:+ ", " +:+
  quoted "args" +:+ ": " +:+ fn_args input +:+ "}".

(** A result that is a JSON string is unwrapped. *)
Definition bridge_call (input : ZomeFnCallArgs) : Prog (Result HolochainError JsonString) :=
  id ← call Call_fresh_text;
  response ←? rpc_call (rpc_text "call" (bridge_params input) id) "Bridge call failed";
  mret match response with
       | JsonRpc_Success string_response =>
           Ok (from_json (default string_response (json_string string_response)))
       | JsonRpc_Error _ _ text => Err (HolochainError_ErrorGeneric text)
       | JsonRpc_Other => Err (HolochainError_ErrorGeneric "Bridge call failed")
       end.

Definition invoke_call (self : Runtime) (args : Z) : Api :=
  with_context self (with_args self args decode_call (λ input,
    if String.eqb (instance_handle input) THIS_INSTANCE then
      zome_call ← ZomeFnCall_from_args input;
      if match zome_call_data self with
         | Ok call => ZomeFnCall_same_fn_as zome_call call
         | Err _ => false
         end
      then ribosome_error_code self RecursiveCallForbidden
      else
        result ← local_call input;
        store_result self (Value_Json <$> result)
    else
      result ← bridge_call input;
      store_result self (Value_Json <$> result))).

(** ** send.rs and capabilities.rs *)

Definition invoke_send (self : Runtime) (args : Z) : Api :=
  match call_data self with
  | Err trap => mret (self, Err trap)
  | Ok data =>
      with_args self args decode_send (λ args,
        let message := {| dm_zome := cd_zome_name data; dm_payload := Ok (send_payload args) |} in
        result ← custom_send (send_to_agent args) message (send_timeout args);
        store_result self ((λ s, Value_Json (from_json s)) <$> result))
  end.

(** Grants and claims are committed as they are. *)
Definition invoke_commit_capability_grant (self : Runtime) (args : Z) : Api :=
  with_context self (with_args self args decode_grant (λ args,
    task_result ←
      match CapTokenGrant_create (grant_args_id args) (grant_args_cap_type args)
              (grant_args_assignees args) (grant_args_functions args) with
      | Ok grant => commit_entry (Entry_CapTokenGrant grant) None
      | Err err => ret_err (HolochainError_ErrorGeneric
                              ("Unable to commit capability grant: " +:+ HolochainError_fmt err))
      end;
    store_result self (Value_Address <$> task_result))).

Definition invoke_commit_capability_claim (self : Runtime) (args : Z) : Api :=
  with_context self (with_args self args decode_claim (λ args,
    let claim := {| claim_id := claim_args_id args; claim_grantor := claim_args_grantor args;
                    claim_token := claim_args_token args |} in
    task_result ← commit_entry (Entry_CapTokenClaim claim) None;
    store_result self (Value_Address <$> task_result))).

(** ** entry_address.rs *)

(** The word for an unknown type is returned as it is. *)
Definition get_entry_type (dna : Dna) (entry_type_name : string) :
    Outcome (Result (option Z) EntryType) :=
  let ty := EntryType_from_str entry_type_name in
  if is_app ty then
    result ← get_entry_type_def dna entry_type_name;
    Ret match result with
        | None => Err (Some (RibosomeErrorCode_discriminant UnknownEntryType))
        | Some _ => Ok ty
        end
  else Ret (Ok ty).

Definition invoke_entry_address (self : Runtime) (args : Z) : Api :=
  with_context self (with_args self args decode_entry (λ entry,
    '(s, _) ← state_expect;
    match Nucleus.dna (st_nucleus s) with
    | None => panic
    | Some dna =>
        maybe_entry_type ← lift_outcome
          (get_entry_type dna (EntryType_to_string (Entry_entry_type entry)));
        match maybe_entry_type with
        | Err err => mret (self, Ok err)
        | Ok _ => store_result self (Ok (Value_Address (Entry_address entry)))
        end
    end)).

(** ** sign.rs, verify_signature.rs and crypto.rs *)

Fixpoint sign_payloads (seed : string) (payloads : list string) :
    Result HolochainError (list string) :=
  match payloads with
  | [] => Ok []
  | data :: payloads =>
      sig ← one_time_sign seed data;
      signatures ← sign_payloads seed payloads;
      Ok (host_base64_encode sig :: signatures)
  end.

(** The key pair is made from the random data [seed]. *)
Definition sign_one_time (payloads : list string) : Prog (Result HolochainError SignOneTimeResult) :=
  seed ← call Call_fresh_text;
  mret (pub_key ← one_time_key seed;
        signatures ← sign_payloads seed payloads;
        Ok {| one_time_pub_key := pub_key; one_time_signatures := signatures |}).

Definition invoke_sign_one_time (self : Runtime) (args : Z) : Api :=
  with_context self (with_args self args decode_sign_one_time (λ payloads,
    result ← sign_one_time payloads;
    store_result self (Value_SignOneTimeResult <$> result))).

Definition invoke_verify_signature (self : Runtime) (args : Z) : Api :=
  with_context self (with_args self args decode_verify_signature (λ verification_args,
    let verification_result :=
      provenance_verify (verify_provenance verification_args) (verify_payload verification_args) in
    store_result self (Value_Bool <$> verification_result))).

Definition invoke_crypto (self : Runtime) (args : Z) : Api :=
  with_context self (with_args self args decode_crypto (λ crypto_args,
    message ← execute (crypto_payload crypto_args) (crypto_method crypto_args);
    store_result self ((λ sig, Value_Json (from_json sig)) <$> message))).

(** ** keystore.rs *)

Definition conductor_callback (method params : string) : Prog (Result HolochainError JsonString) :=
  id ← call Call_fresh_text;
  response ←? rpc_call (rpc_text method params id) "Callback failed";
  mret match response with
       | JsonRpc_Success result => Ok (from_json result)
       | JsonRpc_Error _ _ text => Err (HolochainError_ErrorGeneric text)
       | JsonRpc_Other => Err (HolochainError_ErrorGeneric (method +:+ " call failed"))
       end.

(** The functions of the keystore: a callback of the conductor with the argument
    of the zome, and what is made of its answer; [None] is a panic. *)
Definition keystore_function (self : Runtime) (args : Z) (method : string)
    (read : JsonString → option ApiValue) : Api :=
  with_context self (
    args_str ← lift_outcome (load_json_string_from_args (memory_manager self) args);
    result ← conductor_callback method args_str;
    match result with
    | Err _ => ribosome_error_code self CallbackFailed
    | Ok json => v ← lift_outcome (unwrap (read json)); store_result self (Ok v)
    end).

Definition invoke_keystore_list (self : Runtime) (_args : Z) : Api :=
  with_context self (
    result ← conductor_callback "agent/keystore/list" "{}";
    match result with
    | Err _ => ribosome_error_code self CallbackFailed
    | Ok json_array =>
        string_list ← lift_outcome (unwrap (json_strings json_array));
        store_result self (Ok (Value_KeystoreListResult string_list))
    end).

Definition invoke_keystore_new_random (self : Runtime) (args : Z) : Api :=
  keystore_function self args "agent/keystore/add_random_seed" (λ _, Some Value_Unit).

Definition invoke_keystore_derive_seed (self : Runtime) (args : Z) : Api :=
  keystore_function self args "agent/keystore/add_seed_from_seed" (λ _, Some Value_Unit).

(** A public key keeps the quotes of its JSON, a signature does not. *)
Definition invoke_keystore_derive_key (self : Runtime) (args : Z) : Api :=
  keystore_function self args "agent/keystore/add_key_from_seed" (λ json_string,
    string ← json_field json_string "pub_key"; Some (Value_Json (from_json string))).

Definition invoke_keystore_sign (self : Runtime) (args : Z) : Api :=
  keystore_function self args "agent/keystore/sign" (λ json,
    text ← json_field json "signature"; string ← json_string text;
    Some (Value_Json (from_json string))).

Definition invoke_keystore_get_public_key (self : Runtime) (args : Z) : Api :=
  keystore_function self args "agent/keystore/get_public_key" (λ json_string,
    string ← json_field json_string "pub_key"; Some (Value_Json (from_json string))).

(** ** debug.rs, emit_signal.rs, meta.rs and sleep.rs *)

Definition invoke_debug (self : Runtime) (args : Z) : Api :=
  with_context self (
    _ ← lift_outcome (load_json_string_from_args (memory_manager self) args);
    ribosome_success self).

(** Whether anyone listens to the signal makes no difference. *)
Definition invoke_emit_signal (self : Runtime) (args : Z) : Api :=
  with_context self (with_args self args decode_emit_signal (λ emit_signal_args,
    _ ← call (Call_signal (signal_name emit_signal_args) (signal_arguments emit_signal_args));
    ribosome_success self)).

Definition invoke_meta (self : Runtime) (args : Z) : Api :=
  with_context self (with_args self args decode_meta (λ method,
    let method := match method with
                  | MetaMethod_Version => MetaResult_Version hdk_version
                  | MetaMethod_Hash => MetaResult_Hash hdk_hash
                  end in
    store_result self (Ok (Value_MetaResult method)))).

Definition invoke_sleep (self : Runtime) (args : Z) : Api :=
  with_args self args decode_u64 (λ nanos,
    _ ← call (Call_sleep nanos);
    ribosome_success self).

(** ** init_globals.rs *)

Definition read_public_token : Prog (Result HolochainError Address) :=
  s ← call Call_state;
  match s with
  | None => ret_err (HolochainError_new "State uninitialized!")
  | Some (s, w) => lift_outcome (get_public_token (Some (st_agent s)) (w_cas w) node_fuel)
  end.

(** The addresses of the agent entries on the chain, the latest first. *)
Definition agent_entries (s : State) (w : World) : Outcome (list Address) :=
  match agent_top_chain_header (st_agent s) with
  | None => Ret []
  | Some top =>
      first ← iter_type (w_cas w) node_fuel (Some top) EntryType_AgentId;
      headers ← run_iter (ChainStoreTypeIterator_next (w_cas w)) (λ _, true) node_fuel 0 None first;
      Ret (entry_address <$> (headers : list ChainHeader))
  end.

(** The fields that depend on the state. *)
Definition globals_of_state (globals : ZomeApiGlobals) (s : State) (found_entries : list Address) :
    ZomeApiGlobals :=
  let latest := default (agent_latest_hash globals) (head found_entries) in
  {| globals_dna_name := globals_dna_name globals;
     globals_dna_address := match Nucleus.dna (st_nucleus s) with
                            | Some dna => Dna_address dna
                            | None => globals_dna_address globals
                            end;
     agent_id_str := agent_id_str globals;
     agent_address := default (agent_address globals) (head found_entries);
     agent_initial_hash := default (agent_initial_hash globals) (last found_entries);
     agent_latest_hash := latest;
     globals_public_token := globals_public_token globals;
     cap_request := cap_request globals; properties := properties globals |}.

Definition with_public_token (globals : ZomeApiGlobals) (token : Address) : ZomeApiGlobals :=
  {| globals_dna_name := globals_dna_name globals;
     globals_dna_address := globals_dna_address globals; agent_id_str := agent_id_str globals;
     agent_address := agent_address globals; agent_initial_hash := agent_initial_hash globals;
     agent_latest_hash := agent_latest_hash globals; globals_public_token := token;
     cap_request := cap_request globals; properties := properties globals |}.

Definition invoke_init_globals (self : Runtime) (_args : Z) : Api :=
  match call_data self with
  | Err trap => mret (self, Err trap)
  | Ok _ =>
    dna ← get_dna_expect;
    let globals :=
      {| globals_dna_name := dna_name dna; globals_dna_address := "";
         agent_id_str := agent_id_json node_agent_id;
         agent_address := AgentId_address node_agent_id;
         agent_initial_hash := ""; agent_latest_hash := ""; globals_public_token := "";
         cap_request := match zome_call_data self with Ok call => Some (cap call) | Err _ => None end;
         properties := dna_properties dna |} in
    s ← call Call_state;
    globals ← match s with
              | Some (s, w) => globals_of_state globals s <$> lift_outcome (agent_entries s w)
              | None => mret globals
              end;
    maybe_token ← read_public_token;
    let globals := match maybe_token with
                   | Ok token => with_public_token globals token
                   | Err _ => globals
                   end in
    store_result self (Ok (Value_Globals globals))
  end.

(** ** macros.rs and the dispatch of runtime.rs *)

Definition zome_api_function (f : ZomeApiFunction) (self : Runtime) (args : Z) : Api :=
  match f with
  | Api_MissingNo | Api_Abort => ribosome_success self
  | Api_Debug => invoke_debug self args
  | Api_CommitAppEntry => invoke_commit_app_entry self args
  | Api_GetAppEntry => invoke_get_entry self args
  | Api_UpdateEntry => invoke_update_entry self args
  | Api_RemoveEntry => invoke_remove_entry self args
  | Api_InitGlobals => invoke_init_globals self args
  | Api_Call => invoke_call self args
  | Api_LinkEntries => invoke_link_entries self args
  | Api_GetLinks => invoke_get_links self args
  | Api_GetLinksCount => invoke_get_links_count self args
  | Api_Query => invoke_query self args
  | Api_EntryAddress => invoke_entry_address self args
  | Api_Send => invoke_send self args
  | Api_Sleep => invoke_sleep self args
  | Api_RemoveLink => invoke_remove_link self args
  | Api_Crypto => invoke_crypto self args
  | Api_SignOneTime => invoke_sign_one_time self args
  | Api_VerifySignature => invoke_verify_signature self args
  | Api_KeystoreList => invoke_keystore_list self args
  | Api_KeystoreNewRandom => invoke_keystore_new_random self args
  | Api_KeystoreDeriveSeed => invoke_keystore_derive_seed self args
  | Api_KeystoreDeriveKey => invoke_keystore_derive_key self args
  | Api_KeystoreSign => invoke_keystore_sign self args
  | Api_KeystoreGetPublicKey => invoke_keystore_get_public_key self args
  | Api_CommitCapabilityGrant => invoke_commit_capability_grant self args
  | Api_CommitCapabilityClaim => invoke_commit_capability_claim self args
  | Api_EmitSignal => invoke_emit_signal self args
  | Api_Meta => invoke_meta self args
  end.

(** A function called for a zome call is traced in the nucleus, with the result
    left open. *)
Definition apply (f : ZomeApiFunction) (self : Runtime) (args : Z) : Api :=
  match f, rt_data self with
  | Api_MissingNo, _ | Api_Abort, _ => ribosome_success self
  | _, WasmCall_Zome zome_api_call =>
      parameters ← lift_outcome (load_json_string_from_args (memory_manager self) args);
      let hdk_fn_call := {| hdk_function := f; hdk_parameters := parameters |} in
      _ ← dispatch_action (Action_TraceInvokeHdkFunction zome_api_call hdk_fn_call);
      result ← zome_api_function f self args;
      _ ← dispatch_action (Action_TraceReturnHdkFunction zome_api_call hdk_fn_call
                             (Ok (quoted "TODO")));
      mret result
  | _, _ => zome_api_function f self args
  end.

Definition invoke_index (self : Runtime) (index : nat) (args : Z) : Api :=
  match ZomeApiFunction_from_index index with
  | Api_MissingNo => panic
  | zf => apply zf self args
  end.

End api.

(** ** What a zome can make its node do *)

Section safety.
Context `{Storage} `{Addressing} `{DnaAddressing} `{JsonApi} `{Node} `{ZomeHost}.

(** The states read so far have the function, and a chain with the authority to
    call it. *)
Definition call_checked (h : list Event) (c : ZomeFnCall) : Prop :=
  ∃ s1 w1 code s2 w2,
    Ev Call_state (Some (s1, w1)) ∈ h ∧ find_function (st_nucleus s1) c = Ok code ∧
    Ev Call_state (Some (s2, w2)) ∈ h ∧
    authorised host_base64_encode node_base64_decode node_decode_pub_key node_sodium_verify
      node_agent_id (st_agent s2) (w_cas w2) node_fuel c = Ret true.

Definition is_capability (entry : Entry) : bool :=
  match entry with Entry_CapTokenGrant _ | Entry_CapTokenClaim _ => true | _ => false end.

(** Actions that only keep the books of the node. *)
Definition is_bookkeeping (a : Action) : bool :=
  match a with
  | Action_ClearActionResponse _ | Action_ClearZomeFunctionCall _ | Action_ClearCustomSendResponse _
  | Action_TraceInvokeHdkFunction _ _ | Action_TraceReturnHdkFunction _ _ _ => true
  | _ => false
  end.

(** The argument of the zome, loaded from its memory and decoded. *)
Definition api_input {T} (self : Runtime) (args : Z) (decode : JsonString → option T) (input : T) : Prop :=
  ∃ j, load_json_string_from_args (memory_manager self) args = Ret j ∧ decode j = Some input.

(** The functions that author entries, and those that commit capabilities. *)
Definition authors (f : ZomeApiFunction) : bool :=
  match f with
  | Api_CommitAppEntry | Api_UpdateEntry | Api_RemoveEntry | Api_LinkEntries | Api_RemoveLink => true
  | _ => false
  end.
Definition grants (f : ZomeApiFunction) : bool :=
  match f with Api_CommitCapabilityGrant | Api_CommitCapabilityClaim => true | _ => false end.

(** The call of a function of the same instance, with what the zome asked for. *)
Definition called_as (input : ZomeFnCallArgs) (c : ZomeFnCall) : Prop :=
  zome_name c = args_zome_name input ∧ call_fn_name c = args_fn_name input ∧
  call_parameters c = from_json (fn_args input) ∧ cap_token (cap c) = args_cap_token input.

(** The method of the conductor that a function of the keystore calls. *)
Definition keystore_request (f : ZomeApiFunction) : option string :=
  match f with
  | Api_KeystoreNewRandom => Some "agent/keystore/add_random_seed"
  | Api_KeystoreDeriveSeed => Some "agent/keystore/add_seed_from_seed"
  | Api_KeystoreDeriveKey => Some "agent/keystore/add_key_from_seed"
  | Api_KeystoreSign => Some "agent/keystore/sign"
  | Api_KeystoreGetPublicKey => Some "agent/keystore/get_public_key"
  | _ => None
  end%string.

(** The requests to the conductor: a call signs what it calls, or is passed on over a
    bridge; cryptography and the keystore pass on the argument of the zome. *)
Definition may_ask (f : ZomeApiFunction) (self : Runtime) (args : Z) (request : string) : Prop :=
  match f with
  | Api_Call => ∃ input id, api_input self args decode_call input ∧
      if String.eqb (instance_handle input) THIS_INSTANCE
      then request = crypto_request "agent/sign" (host_base64_encode
             (encode_call_data_for_signing host_base64_encode (args_fn_name input) (from_json (fn_args input)))) id
      else request = rpc_text "call" (bridge_params input) id
  | Api_Crypto => ∃ crypto_args id, api_input self args decode_crypto crypto_args ∧
      request = crypto_request ("agent/" +:+ (request_response (crypto_method crypto_args)).1)
                  (host_base64_encode (crypto_payload crypto_args)) id
  | Api_KeystoreList => ∃ id, request = rpc_text "agent/keystore/list" "{}" id
  | f => ∃ method j id, keystore_request f = Some method ∧
      load_json_string_from_args (memory_manager self) args = Ret j ∧ request = rpc_text method j id
  end.

(** What the function [f] of the API may do after the events [h]. *)
Definition api_permitted (f : ZomeApiFunction) (self : Runtime) (args : Z) (h : list Event) (c : Call) : Prop :=
  match c with
  | Call_dispatch (Action_Commit entry link provs) =>
      provs = [] ∧
      (grants f = true ∧ link = None ∧ is_capability entry = true ∨
       authors f = true ∧ ∃ provenances, authoring_passed h entry link provenances)
  | Call_dispatch (Action_Publish address) =>
      authors f = true ∧ ∃ entry link addr,
        address = Entry_address entry ∧ may_publish h (Entry_entry_type entry) ∧
        committed h entry link addr
  | Call_dispatch (Action_PublishHeaderEntry address) =>
      authors f = true ∧ ∃ entry link addr, address = Entry_address entry ∧ committed h entry link addr
  | Call_dispatch (Action_SendDirectMessage data _) =>
      f = Api_Send ∧ is_response data = false ∧
      ∃ input call, api_input self args decode_send input ∧ call_data self = Ok call ∧
        dmd_address data = send_to_agent input ∧
        dmd_message data = DirectMessage_Custom
          {| dm_zome := cd_zome_name call; dm_payload := Ok (send_payload input) |}
  | Call_dispatch (Action_QueueZomeFunctionCall zome_call) | Call_spawn zome_call =>
      f = Api_Call ∧ call_checked h zome_call ∧
      ∃ input, api_input self args decode_call input ∧ instance_handle input = THIS_INSTANCE ∧
        called_as input zome_call
  | Call_dispatch a => is_lookup a = true ∨ is_bookkeeping a = true
  | Call_wasm _ fn _ => fn ∈ validation_callbacks
  | Call_conductor request => may_ask f self args request
  | Call_signal name arguments =>
      f = Api_EmitSignal ∧ ∃ input, api_input self args decode_emit_signal input ∧
        name = signal_name input ∧ arguments = signal_arguments input
  | Call_sleep nanos => f = Api_Sleep ∧ api_input self args decode_u64 nanos
  | Call_state | Call_now | Call_instant | Call_unique_id | Call_fresh_text | Call_await _ => True
  end.

Section permitted.
Variables (f : ZomeApiFunction) (self : Runtime) (args : Z).
#[local] Abbreviation permitted := (api_permitted f self args).

Lemma api_lookup h c : lookup_call c = true → permitted h c.
Proof.
  destruct c as [| | | | |a| | | | | |]; try done; [destruct a; cbn; by auto|].
  by intros Hfn%bool_decide_eq_true.
Qed.

Lemma api_quiet h c : quiet c = true → permitted h c.
Proof. by destruct c. Qed.

Lemma api_bookkeeping h a : is_bookkeeping a = true → permitted h (Call_dispatch a).
Proof. destruct a; cbn; by auto. Qed.

Lemma api_authoring entry link provs h c :
  authors f = true → authoring_permitted entry link provs h c → permitted h c.
Proof.
  intros Hf. destruct c as [| | | | |a| | | | | |]; try done; [|by intros Hfn%bool_decide_eq_true].
  destruct a; cbn; try done;
    first [ intros [Ha|[? Ha]]; [first [by left|done]|first [done|by simplify_eq; right]]
          | intros (-> & -> & -> & Hv); split; [done|]; right; split; [done|]; by exists provs
          | intros (-> & Hm & addr & Hc); split; [done|]; by exists entry, link, addr
          | intros (-> & addr & Hc); split; [done|]; by exists entry, link, addr ].
Qed.

(** A program whose calls are all permitted, whatever happened before. *)
Definition safe {A} (p : Prog A) : Prop :=
  ∀ h, wp permitted p h (λ _ _, True).

Lemma safe_lookups {A} (p : Prog A) : only_lookups p → safe p.
Proof. intros Hp h. eapply wp_lookups; [done|apply api_lookup|done]. Qed.

Lemma safe_finish {A} (o : Outcome A) : safe (Finish o).
Proof. done. Qed.

Lemma safe_bind {A B} (p : Prog A) (k : A → Prog B) : safe p → (∀ x, safe (k x)) → safe (p ≫= k).
Proof.
  intros Hp Hk h. apply wp_bind. eapply wp_mono; [..|apply Hp]; [done|].
  intros h' [x| |] _; [apply Hk|done..].
Qed.

Lemma safe_lift {A B} (o : Outcome A) (k : A → Prog B) :
  (∀ x, o = Ret x → safe (k x)) → safe (lift_outcome o ≫= k).
Proof. intros Hk. destruct o as [x| |]; [by apply Hk|done..]. Qed.

Lemma safe_try {E A B} (p : Prog (Result E A)) (k : A → Prog (Result E B)) :
  safe p → (∀ x, safe (k x)) → safe (try p k).
Proof. intros Hp Hk. apply safe_bind; [done|]. intros [x|e]; [apply Hk|apply safe_finish]. Qed.

Lemma safe_call c : quiet c = true → safe (call c).
Proof. intros Hc h. split; [by apply api_quiet|done]. Qed.

Lemma safe_permitted c : (∀ h, permitted h c) → safe (call c).
Proof. intros Hc h. by split. Qed.

Lemma safe_dispatch a : is_bookkeeping a = true → safe (dispatch_action a).
Proof. intros Ha h. split; [by apply api_bookkeeping|done]. Qed.

(** A future whose polls dispatch only bookkeeping. *)
Lemma safe_await {A} (poll : PollInput → Poll A) :
  poll_dispatches is_bookkeeping poll → safe (await poll).
Proof.
  intros Hd h. eapply wp_await_future; [done|done| |done|done].
  intros h' a _ Ha. by apply api_bookkeeping.
Qed.

Lemma safe_author_entry entry link provs : authors f = true → safe (author_entry entry link provs).
Proof.
  intros Hf h. eapply wp_mono; [..|apply wp_author_entry]; [|done]. intros h' c. by apply api_authoring.
Qed.

Lemma safe_commit_capability entry :
  grants f = true → is_capability entry = true → safe (commit_entry entry None).
Proof.
  intros Hf He h. apply wp_bind. split; [by split; [|left]|]. intros id _.
  apply safe_await. intros i. pose proof (CommitFuture_dispatches id i) as Hd.
  destruct (CommitFuture_poll id i) as [[[r l]|]| |]; try done.
  apply forallb_forall. intros a Ha. eapply forallb_forall in Hd; [|exact Ha]. by destruct a.
Qed.

Lemma safe_custom_send input call :
  f = Api_Send → api_input self args decode_send input → call_data self = Ok call →
  safe (custom_send (send_to_agent input) {| dm_zome := cd_zome_name call; dm_payload := Ok (send_payload input) |}
          (send_timeout input)).
Proof.
  intros Hf Hin Hc. apply safe_bind; [by apply safe_call|]. intros id.
  apply safe_bind; [by apply safe_call|]. intros now.
  apply safe_bind; [apply safe_permitted; intros h; cbn; by eauto 10|]. intros _.
  apply safe_await. intros i. unfold SendResponseFuture_poll, poll_channel_state.
  repeat case_match; simplify_eq; done.
Qed.

Lemma call_checked_prefix h h' c : h `prefix_of` h' → call_checked h c → call_checked h' c.
Proof.
  intros Hpre (s1 & w1 & code & s2 & w2 & Hr1 & Hf & Hr2 & Ha).
  exists s1, w1, code, s2, w2. split_and!; eauto using elem_of_prefix.
Qed.

Lemma wp_validate_call_now c h (Q : list Event → Outcome _ → Prop) :
  (∀ h' code, call_checked h' c → Q h' (Ret (Ok code))) →
  (∀ h' o, (∀ x, o ≠ Ret (Ok x)) → Q h' o) →
  wp permitted (validate_call_now c) h Q.
Proof.
  intros HQ HE. unfold validate_call_now. apply wp_bind. split; [done|].
  intros [[s1 w1]|] _; [|by apply HE]. cbn [wp].
  destruct (find_function (st_nucleus s1) c) as [code|e] eqn:Hf; [|by apply HE].
  apply wp_bind, wp_state_expect; [done| |by apply HE]. intros s2 w2.
  apply wp_bind. unfold lift_outcome. cbn [wp].
  destruct (authorised _ _ _ _ _ (st_agent s2) _ _ c) as [[]| |] eqn:Ha; [|by apply HE..].
  apply HQ. exists s1, w1, code, s2, w2. rewrite !elem_of_app, !list_elem_of_singleton.
  by split_and!; auto.
Qed.

Lemma call_result_dispatches c spawned :
  poll_dispatches is_bookkeeping (call_result_poll c spawned).
Proof. intros i. unfold call_result_poll. by destruct (CallResultFuture_poll _ _ _ _) as [r []| |]. Qed.

(** The call is checked, queued, and its thread started by the same program. *)
Lemma safe_call_zome_function input c :
  f = Api_Call → api_input self args decode_call input → instance_handle input = THIS_INSTANCE →
  called_as input c → safe (call_zome_function c).
Proof.
  intros Hf Hin Hi Hcall h.
  apply wp_try, wp_validate_call_now; [|by intros h' [[x|]| |] Ho; [destruct (Ho x)|..]].
  intros h1 code Hc. apply wp_bind. split; [cbn; by eauto 10|]. intros id _. cbn [wp].
  apply wp_bind. eapply wp_await_future; [apply call_result_dispatches|done| | |done].
  { intros h' a _ Ha. by apply api_bookkeeping. }
  intros i h2 [r|] l Hpre _; [done|]. apply wp_bind. split; [|intros x _; cbn [wp]].
  - split; [done|]. split; [|by eauto]. eapply call_checked_prefix; [|exact Hc]. etrans; [|exact Hpre].
    rewrite <- (assoc_L app). by apply prefix_app_r.
  - eapply safe_bind; [apply safe_await, call_result_dispatches|]. by intros [r|].
Qed.

(** Requests to the conductor. *)
Lemma safe_rpc_call request failed : may_ask f self args request → safe (rpc_call request failed).
Proof. intros Hm. apply safe_bind; [by apply safe_permitted|]. by intros []. Qed.

Lemma safe_execute payload method :
  (∀ id, may_ask f self args
    (crypto_request ("agent/" +:+ (request_response method).1) (host_base64_encode payload) id)) →
  safe (execute payload method).
Proof.
  intros Hm. apply safe_bind; [by apply safe_call|]. intros id.
  apply safe_try; [apply safe_rpc_call, Hm|]. intros r. apply safe_finish.
Qed.

Lemma safe_conductor_callback method params :
  (∀ id, may_ask f self args (rpc_text method params id)) → safe (conductor_callback method params).
Proof.
  intros Hm. apply safe_bind; [by apply safe_call|]. intros id.
  apply safe_try; [apply safe_rpc_call, Hm|]. intros r. apply safe_finish.
Qed.

Lemma wp_from_args input h (Q : list Event → Outcome ZomeFnCall → Prop) :
  f = Api_Call → api_input self args decode_call input → instance_handle input = THIS_INSTANCE →
  (∀ h' c, called_as input c → Q h' (Ret c)) → (∀ h' o, (∀ x, o ≠ Ret x) → Q h' o) →
  wp permitted (ZomeFnCall_from_args input) h Q.
Proof.
  intros Hf Hin Hi HQ HE. unfold ZomeFnCall_from_args, make_cap_request_for_call, make_call_sig.
  do 3 apply wp_bind. eapply wp_mono; [done| |].
  2: { apply safe_execute. intros id. rewrite Hf. exists input, id. split; [done|].
       by rewrite Hi, String.eqb_refl. }
  intros h' [sig| |] _; [|by apply HE..]. cbn. split; [done|]. intros id _. by apply HQ.
Qed.

Lemma safe_bridge_call input :
  f = Api_Call → api_input self args decode_call input → instance_handle input ≠ THIS_INSTANCE →
  safe (bridge_call input).
Proof.
  intros Hf Hin Hi. apply safe_bind; [by apply safe_call|]. intros id.
  apply safe_try; [apply safe_rpc_call|intros r; apply safe_finish]. rewrite Hf. exists input, id. split; [done|].
  by apply String.eqb_neq in Hi as ->.
Qed.

Lemma safe_from_args_then {B} input (k : ZomeFnCall → Prog B) :
  f = Api_Call → api_input self args decode_call input → instance_handle input = THIS_INSTANCE →
  (∀ c, called_as input c → safe (k c)) → safe (c ← ZomeFnCall_from_args input; k c).
Proof.
  intros Hf Hin Hi Hk h. apply wp_bind. apply (wp_from_args input); [done..| |].
  - intros h' c Hc. by apply Hk.
  - intros h' [c| |] Hc; [by destruct (Hc c)|done..].
Qed.

End permitted.

Lemma lookups_get_link_result_workflow args : only_lookups (get_link_result_workflow args).
Proof. unfold get_link_result_workflow. lookups. Qed.

Lemma lookups_get_link_result_count_workflow args :
  only_lookups (get_link_result_count_workflow args).
Proof. unfold get_link_result_count_workflow. lookups. Qed.

Lemma lookups_get_entry_from_chain address : only_lookups (get_entry_from_chain address).
Proof. unfold get_entry_from_chain, read_entry_from_agent_chain. lookups. Qed.

Lemma lookups_entries_of_addresses l : only_lookups (entries_of_addresses l).
Proof.
  induction l as [|x l IH]; cbn [entries_of_addresses]; [apply lookups_finish|].
  apply lookups_try; [apply lookups_get_entry_from_chain|]. intros entry.
  apply lookups_try; [done|]. intros. apply lookups_finish.
Qed.

Lemma lookups_entries_of_headers l : only_lookups (entries_of_headers l).
Proof.
  induction l as [|x l IH]; cbn [entries_of_headers]; [apply lookups_finish|].
  case_match; [done|]. apply lookups_try; [apply lookups_get_entry_from_chain|]. intros entry.
  apply lookups_try; [done|]. intros. apply lookups_finish.
Qed.

Lemma lookups_query_result entries result : only_lookups (query_result entries result).
Proof.
  destruct entries, result as [l|l]; cbn [query_result]; try apply lookups_finish;
    (apply lookups_try; [|intros; apply lookups_finish]);
    [apply lookups_entries_of_addresses|apply lookups_entries_of_headers].
Qed.

Section functions.
Variables (f : ZomeApiFunction) (self : Runtime) (args : Z).

Lemma safe_read_public_token : safe f self args read_public_token.
Proof. apply safe_lookups. unfold read_public_token. lookups. Qed.

Lemma safe_store_result result : safe f self args (store_result self result).
Proof. apply safe_bind; [done|]. by intros []. Qed.

Lemma safe_with_context k : safe f self args k → safe f self args (with_context self k).
Proof. unfold with_context. by destruct (runtime_context self). Qed.

Lemma safe_with_args {T} (decode : JsonString → option T) k :
  (∀ x, api_input self args decode x → safe f self args (k x)) →
  safe f self args (with_args self args decode k).
Proof.
  intros Hk. apply safe_lift. intros j Hj. destruct (decode j) eqn:Hd; [|done]. apply Hk. by exists j.
Qed.

Lemma safe_with_latest address k :
  (∀ x, safe f self args (k x)) → safe f self args (with_latest self address k).
Proof.
  intros Hk. apply safe_bind; [apply safe_lookups, lookups_get_entry_result_workflow|].
  intros [r|]; [|done]. case_match; [done|]. by apply safe_bind.
Qed.

Lemma safe_with_link_data input kind k :
  (∀ x, safe f self args (k x)) → safe f self args (with_link_data self input kind k).
Proof.
  intros Hk. apply safe_bind; [apply safe_lookups, lookups_state_expect|].
  intros [s w]. case_match; [apply Hk|done].
Qed.

Lemma safe_keystore_function method read :
  keystore_request f = Some method → safe f self args (keystore_function self args method read).
Proof.
  intros Hf. apply safe_with_context, safe_lift. intros j Hj. apply safe_bind; [apply safe_conductor_callback|].
  - intros id. destruct f; try done; by exists method, j, id.
  - intros [r|]; [|done]. apply safe_bind; [done|]. intros v. apply safe_store_result.
Qed.

Lemma safe_invoke_call : f = Api_Call → safe f self args (invoke_call self args).
Proof.
  intros Hf. apply safe_with_context, safe_with_args. intros input Hin.
  destruct (String.eqb_spec (instance_handle input) THIS_INSTANCE) as [Hi|Hi].
  - apply safe_from_args_then; [done..|]. intros c _. case_match; [apply safe_finish|].
    apply safe_bind; [|intros; apply safe_store_result]. apply safe_from_args_then; [done..|].
    intros c' Hc. by eapply safe_call_zome_function.
  - apply safe_bind; [by apply safe_bridge_call|]. intros; apply safe_store_result.
Qed.

End functions.

Create HintDb api.
#[local] Hint Resolve safe_finish safe_author_entry safe_commit_capability
  safe_read_public_token safe_store_result safe_keystore_function safe_lookups : api.
#[local] Hint Resolve lookups_get_link_result_workflow lookups_get_link_result_count_workflow
  lookups_query_result lookups_get_entry_result_workflow lookups_query lookups_state_expect
  lookups_get_dna_expect : api.

(** Functions of the API are safe because their parts are. *)
Ltac api_safe :=
  repeat first
    [ progress intros
    | apply safe_finish
    | by apply safe_call
    | by apply safe_commit_capability
    | by apply safe_author_entry
    | by apply safe_keystore_function
    | solve [eauto 3 with api nocore]
    | apply safe_with_context | apply safe_with_args | apply safe_with_latest
    | apply safe_with_link_data
    | apply safe_bind
    | case_match ].

Lemma safe_zome_api_function f self args : safe f self args (zome_api_function f self args).
Proof.
  destruct f; cbn [zome_api_function]; try apply safe_finish;
    unfold invoke_debug, invoke_commit_app_entry, invoke_get_entry, invoke_update_entry,
      invoke_remove_entry, invoke_init_globals, invoke_link_entries, invoke_get_links,
      invoke_get_links_count, invoke_query, invoke_entry_address, 
      invoke_remove_link, invoke_sign_one_time, invoke_verify_signature,
      invoke_keystore_new_random, invoke_keystore_derive_seed,
      invoke_keystore_derive_key, invoke_keystore_sign, invoke_keystore_get_public_key,
      invoke_commit_capability_grant, invoke_commit_capability_claim,
      invoke_meta, sign_one_time.
  all: try (by apply safe_invoke_call); try solve [api_safe].
  - unfold invoke_send. destruct (call_data self) as [data|] eqn:Hd; [|apply safe_finish].
    apply safe_with_args. intros input Hin. apply safe_bind; [by apply safe_custom_send|]. intros.
    apply safe_store_result.
  - apply safe_with_args. intros nanos Hin. apply safe_bind; [by apply safe_permitted|]. intros. apply safe_finish.
  - apply safe_with_context, safe_with_args. intros input Hin.
    apply safe_bind; [apply safe_execute; intros id; by exists input, id|]. intros. apply safe_store_result.
  - apply safe_with_context, safe_bind; [apply safe_conductor_callback; intros id; by exists id|]. api_safe.
  - apply safe_with_context, safe_with_args. intros input Hin.
    apply safe_bind; [apply safe_permitted; intros h; cbn; by eauto|]. intros. apply safe_finish.
Qed.

Lemma safe_apply f self args : safe f self args (apply f self args).
Proof.
  assert (Ht : safe f self args (zome_api_function f self args)) by apply safe_zome_api_function.
  unfold apply. destruct f; try apply safe_finish; (destruct (rt_data self) as [zome_call|c|n];
    [|exact Ht..]); (apply safe_bind; [done|]; intros parameters);
    (apply safe_bind; [by apply safe_dispatch|]; intros _); (apply safe_bind; [exact Ht|]; intros r);
    by apply safe_bind; [apply safe_dispatch|].
Qed.

(** C4: what a zome can make its node do.  Whatever function of the API a zome
    calls with whatever argument, and whatever the rest of the node does, each
    call that the function makes after the events [t] is permitted by them.  Entries
    are committed only by the functions that author them, after a package was built for
    the entry and a complete validation of it for authoring succeeded, or, by the two
    functions for capabilities, as a grant or a claim, unvalidated; and always without
    signatures of others.  An entry is published only after it was committed and if its
    type may be published.  A message is sent only by [hc_send], as a message of the
    calling zome to the agent it names; a zome function is queued and started only by
    [hc_call], as the zome asked, after its name and the capability of the request were
    checked.  Callbacks are run only to define packages and to validate.  The conductor
    is asked only by [hc_call] (to sign the call, or with the call of another instance
    over a bridge), by [hc_crypto] (to sign, encrypt or decrypt the payload) and by the
    functions of the keystore, each with its own method and the argument of the zome as
    it is; a signal is emitted only by [hc_emit_signal], with what the zome gave, and the
    node sleeps only in [hc_sleep].  Everything else that is dispatched looks things up
    or keeps the books.  In particular a zome cannot hold, drop or invalidate anything
    on the DHT directly, nor answer requests of others. *)
Theorem zome_api_safety self index args t c k :
  after (invoke_index self index args) t (Do c k) →
  api_permitted (ZomeApiFunction_from_index index) self args t c.
Proof.
  intros Ha. eapply wp_permitted; [|exact Ha].
  assert (Hs : safe (ZomeApiFunction_from_index index) self args (invoke_index self index args));
    [|exact (Hs [])].
  unfold invoke_index. by destruct (ZomeApiFunction_from_index index); try apply safe_apply.
Qed.

End safety.

(** ** Queries of the source chain *)

Section querying.
Context `{Storage} `{Addressing} `{!AddressingLaws} `{DnaAddressing} `{JsonApi} `{Node} `{ZomeHost}.

(** The answer to a query of the chain [l], whose entries [entry_of] gives:
    the selected headers, the newest first, or their addresses; with the entries
    when they are asked for, but for the DNA. *)
Definition queried (query : QueryArgs) (l : list ChainHeader) (entry_of : ChainHeader → Entry) :
    option QueryResult :=
  let names := match entry_type_names query with QueryList pats => pats | QueryName n => [n] end in
  let limit := if Nat.eqb (query_limit query) 0 then None else Some (query_limit query) in
  match query_filter host_glob_build names with
  | None => None
  | Some p =>
      let found := take_limit limit (drop (query_start query) (filter p l)) in
      let shown := filter (λ h, entry_type h ≠ EntryType_Dna) found in
      Some match query_entries query, query_headers query with
           | false, false => Query_Addresses (entry_address <$> found)
           | false, true => Query_Headers found
           | true, false => Query_Entries ((λ h, (entry_address h, entry_of h)) <$> shown)
           | true, true => Query_HeadersWithEntries ((λ h, (h, entry_of h)) <$> shown)
           end
  end.

Section chain.
Variables (s : State) (w : World) (net_query : Address → Result HolochainError NetworkQueryResult).
Variables (l : list ChainHeader) (entry_of : ChainHeader → Entry).
Hypothesis Hchain : chain (w_cas w) l.
Hypothesis Htop : agent_top_chain_header (st_agent s) = head l.
Hypothesis Hfuel : length l < node_fuel.
Hypothesis Hentries : ∀ h, h ∈ l →
  get (w_cas w) (entry_address h) = Ok (Some (entry_of h)) ∧
  Entry_entry_type (entry_of h) = entry_type h.

Lemma gives_get_entry_from_chain h :
  h ∈ l → gives s w net_query (get_entry_from_chain (entry_address h)) (Ret (Ok (entry_of h))).
Proof.
  intros Hin. destruct (Hentries h Hin) as [Hget _].
  apply (gives_bind s w net_query _ _ (Ok (Some (entry_of h)))); [|apply gives_finish].
  eapply gives_bind; [apply gives_state_expect|].
  unfold lift_outcome, get_entry_from_agent_chain. rewrite Htop.
  erewrite iter_find_yields by (eauto using chain_yields). cbn [mbind Outcome_bind].
  destruct (filter _ l) as [|h' l'] eqn:Hf; [|rewrite Hget; apply gives_finish].
  assert (Hh : h ∈ filter (λ h', bool_decide (entry_address h' = entry_address h)) l).
  { apply list_elem_of_filter. split; [|done]. by apply bool_decide_spec. }
  rewrite Hf in Hh. by apply elem_of_nil in Hh.
Qed.

Lemma gives_entries_of_addresses sub :
  sub ⊆ l →
  gives s w net_query (entries_of_addresses (entry_address <$> sub))
    (Ret (Ok ((λ h, (entry_address h, entry_of h)) <$>
              filter (λ h, entry_type h ≠ EntryType_Dna) sub))).
Proof.
  induction sub as [|h sub IH]; intros Hsub; [apply gives_finish|].
  cbn [fmap list_fmap entries_of_addresses].
  eapply gives_bind; [apply gives_get_entry_from_chain; set_solver|].
  eapply gives_bind; [apply IH; set_solver|].
  destruct (Hentries h) as [_ ->]; [set_solver|]. rewrite filter_cons.
  case_bool_decide; case_decide; try done; apply gives_finish.
Qed.

Lemma gives_entries_of_headers sub :
  sub ⊆ l →
  gives s w net_query (entries_of_headers sub)
    (Ret (Ok ((λ h, (h, entry_of h)) <$> filter (λ h, entry_type h ≠ EntryType_Dna) sub))).
Proof.
  induction sub as [|h sub IH]; intros Hsub; [apply gives_finish|].
  cbn [entries_of_headers]. rewrite filter_cons.
  case_bool_decide; case_decide; try done; [apply IH; set_solver|].
  eapply gives_bind; [apply gives_get_entry_from_chain; set_solver|].
  eapply gives_bind; [apply IH; set_solver|apply gives_finish].
Qed.

Lemma gives_query_result (entries headers : bool) found :
  found ⊆ l →
  let shown := filter (λ h, entry_type h ≠ EntryType_Dna) found in
  gives s w net_query
    (query_result entries (if headers then Headers found else Addresses (entry_address <$> found)))
    (Ret (Ok match entries, headers with
             | false, false => Query_Addresses (entry_address <$> found)
             | false, true => Query_Headers found
             | true, false => Query_Entries ((λ h, (entry_address h, entry_of h)) <$> shown)
             | true, true => Query_HeadersWithEntries ((λ h, (h, entry_of h)) <$> shown)
             end)).
Proof.
  intros Hsub shown. destruct entries, headers; cbn [query_result]; try apply gives_finish;
    (eapply gives_bind;
      [by first [apply gives_entries_of_headers|apply gives_entries_of_addresses]|apply gives_finish]).
Qed.

Lemma take_limit_drop_subseteq {A} limit n (sub : list A) : take_limit limit (drop n sub) ⊆ sub.
Proof.
  apply sublist_subseteq. etrans; [|apply sublist_drop].
  destruct limit; [apply sublist_take|done].
Qed.

Lemma store_result_finish self r : ∃ o, store_result self r = Finish o.
Proof.
  unfold store_result, lift_outcome.
  by destruct (store_as_json_string _ _) as [[]| |]; eexists.
Qed.

Lemma gives_invoke_query self args json query o :
  l ≠ [] → runtime_context self = Ok () →
  load_json_string_from_args (memory_manager self) args = Ret json →
  decode_query json = Some query →
  match queried query l entry_of with
  | Some r => store_result self (Ok (Value_QueryResult r))
  | None => ribosome_error_code self UnknownEntryType
  end = Finish o →
  gives s w net_query (invoke_query self args) o.
Proof.
  intros Hl Hctx Hload Hdec Ho. unfold invoke_query, with_context, with_args. rewrite Hctx.
  eapply gives_bind; [rewrite Hload; apply gives_finish|]. rewrite Hdec.
  eapply gives_bind; [apply gives_state_expect|]. cbn beta iota.
  assert (∃ top, head l = Some top) as [top Etop] by (destruct l; [done|by eexists]).
  rewrite Htop, Etop.
  eapply gives_bind.
  { unfold lift_outcome. rewrite <- Etop, query_is_filter by done. apply gives_finish. }
  cbn beta. unfold queried in Ho. destruct (query_filter _ _) as [p|].
  2: { unfold ribosome_error_code in *. rewrite Ho. apply gives_finish. }
  cbn [opt_headers limit start]. eapply gives_bind.
  { apply gives_query_result. etrans; [apply take_limit_drop_subseteq|].
    intros h [_ ?]%list_elem_of_filter. done. }
  cbn beta iota. rewrite Ho. apply gives_finish.
Qed.

End chain.

(** C32: the queries of an application.  While the state does not change, a query
    of a zome is answered from the whole source chain [l]: with the headers the
    names select, the newest first, after skipping and limiting them; as
    addresses, as headers, or together with their entries, without the DNA.  The
    two ways to get entries agree.  Only a malformed pattern makes it fail. *)
Theorem zome_query_spec s w net_query l entry_of self args json query t o :
  chain (w_cas w) l → agent_top_chain_header (st_agent s) = head l → length l < node_fuel →
  (∀ h, h ∈ l → get (w_cas w) (entry_address h) = Ok (Some (entry_of h)) ∧
                Entry_entry_type (entry_of h) = entry_type h) →
  l ≠ [] → runtime_context self = Ok () →
  load_json_string_from_args (memory_manager self) args = Ret json →
  decode_query json = Some query →
  runs (invoke_query self args) t o → at_rest s w net_query t →
  match queried query l entry_of with
  | Some r => store_result self (Ok (Value_QueryResult r))
  | None => ribosome_error_code self UnknownEntryType
  end = Finish o.
Proof.
  intros Hc Ht Hf He Hl Hctx Hload Hdec Hr Hrest.
  assert (∃ o', match queried query l entry_of with
                | Some r => store_result self (Ok (Value_QueryResult r))
                | None => ribosome_error_code self UnknownEntryType
                end = Finish o') as [o' Ho'].
  { destruct (queried query l entry_of); [apply store_result_finish|by eexists]. }
  rewrite Ho'. f_equal. symmetry.
  refine (wp_runs _ _ _ _ _ _ (gives_invoke_query s w net_query l entry_of _ _ _ _ self args
    json query o' _ _ _ _ _ []) Hr Hrest); done.
Qed.

End querying.

(** ** Concrete calls *)

Section witnesses.
#[local] Existing Instance memory_storage.
#[local] Existing Instance toy_addressing.
#[local] Existing Instance toy_addressing_laws.
#[local] Existing Instance toy_dna_addressing.
#[local] Existing Instance ex_json_api.
#[local] Existing Instance ex_node.

(** A host whose zomes always pass the same arguments: they commit a note, query
    for posts with their entries, and call [greet]; the conductor answers with
    the text of the result. *)
Definition ex_host : ZomeHost := {|
  decode_commit_entry _ := Some {| commit_args_entry := note; commit_args_provenance := [] |};
  decode_update_entry _ := None;
  decode_address _ := None;
  decode_link_entries _ := None;
  decode_get_entry _ := None;
  decode_get_links _ := None;
  decode_query _ := Some {| entry_type_names := QueryName "post"; query_start := 0;
                            query_limit := 0; query_headers := false; query_entries := true |};
  decode_call _ := Some {| instance_handle := THIS_INSTANCE; args_zome_name := "main";
                           args_cap_token := "alice"; args_fn_name := "greet"; fn_args := "{}" |};
  decode_send _ := None;
  decode_grant _ := None;
  decode_claim _ := None;
  decode_entry _ := None;
  decode_sign_one_time _ := None;
  decode_verify_signature _ := None;
  decode_crypto _ := None;
  decode_emit_signal _ := None;
  decode_meta _ := None;
  decode_u64 _ := None;
  value_json v := match v with Value_QueryResult (Query_Entries l) => "entries" | _ => "{}" end;
  core_error_json _ := "error";
  internal_result_json r := value r;
  agent_id_json := pub_sign_key;
  json_string := Some;
  json_strings _ := None;
  json_field text _ := Some text;
  crypto_request _ payload _ := payload;
  rpc_parse text := Ok (JsonRpc_Success text);
  host_glob_build _ := None;
  host_base64_encode s := s;
  one_time_key := Ok;
  one_time_sign _ data := Ok data;
  hdk_version := "0.0.52";
  hdk_hash := "hash";
|}.
#[local] Existing Instance ex_host.

Definition ex_runtime (sig : string) : Runtime :=
  {| memory_manager := WasmPageManager_new (replicate 64 0%Z);
     rt_data := WasmCall_Zome
       {| call_id := 1; zome_name := "main";
          cap := {| cap_token := "alice";
                    cap_provenance := {| source := "alice"; signature := sig |} |};
          call_fn_name := "greet"; call_parameters := "[1]" |} |}.

Definition api_oracle (h : list Event) (c : Call) : answer c :=
  match c as c return answer c with
  | Call_conductor _ => Some "sig"%string
  | c => ex_oracle (zome_returns 0) "Entry" None h c
  end.

(** [hc_commit_entry]. *)
Lemma zome_api_safety_witness :
  let t := (run_to is_commit api_oracle (invoke_index (ex_runtime "sig") 3 0) []).1 in
  api_permitted Api_CommitAppEntry (ex_runtime "sig") 0 t (Call_dispatch (Action_Commit note None [])).
Proof.
  destruct (next_dispatch_after is_commit api_oracle (invoke_index (ex_runtime "sig") 3 0)
              (Action_Commit note None [])) as [k Hk]; [vm_compute; reflexivity|].
  exact (zome_api_safety _ _ _ _ _ k Hk).
Defined.

(** Both posts of the chain, the newest first. *)
Lemma zome_query_spec_witness :
  let run := still_run (posts_state (Some post_2)) posts_world liar_query
               (invoke_query (ex_runtime "sig") 0) in
  queried {| entry_type_names := QueryName "post"; query_start := 0; query_limit := 0;
             query_headers := false; query_entries := true |} [post_2; post_1] post_of =
    Some (Query_Entries [(entry_address post_2, post "b"); (entry_address post_1, post "a")]) ∧
  store_result (ex_runtime "sig") (Ok (Value_QueryResult (Query_Entries
    [(entry_address post_2, post "b"); (entry_address post_1, post "a")]))) =
    Finish (outcome_of run.2).
Proof.
  intros run. split; [vm_compute; reflexivity|].
  refine (zome_query_spec (posts_state (Some post_2)) posts_world liar_query [post_2; post_1] post_of
           (ex_runtime "sig") 0 json_null _ run.1 (outcome_of run.2) posts_chain eq_refl _ _ _ eq_refl
           eq_refl eq_refl _ _).
  - vm_compute. lia.
  - intros h Hh. repeat (apply elem_of_cons in Hh as [->|Hh]; [vm_compute; done|]).
    by apply elem_of_nil in Hh.
  - done.
  - apply still_run_runs. vm_compute. reflexivity.
  - apply still_run_at_rest.
Defined.

Definition is_queue (a : Action) : bool :=
  match a with Action_QueueZomeFunctionCall _ => true | _ => false end.

(** A function may call itself: the check against recursion compares the signed
    requests, and the signature covers the parameters. *)
Lemma recursion_with_other_parameters :
  (∃ t c k, after (invoke_index (ex_runtime "other") 8 0) t
              (Do (Call_dispatch (Action_QueueZomeFunctionCall c)) k) ∧
            zome_name c = "main" ∧ call_fn_name c = "greet") ∧
  outcome_of (run_to is_queue api_oracle (invoke_index (ex_runtime "sig") 8 0) []).2 =
    Ret (ex_runtime "sig", Ok (Some (RibosomeErrorCode_discriminant RecursiveCallForbidden))).
Proof.
  split; [|vm_compute; reflexivity].
  destruct (next_dispatch_after is_queue api_oracle (invoke_index (ex_runtime "other") 8 0)
              (Action_QueueZomeFunctionCall
                 {| call_id := 7; zome_name := "main";
                    cap := {| cap_token := "alice";
                              cap_provenance := {| source := "alice"; signature := "sig" |} |};
                    call_fn_name := "greet"; call_parameters := "{}" |})) as [k Hk];
    [vm_compute; reflexivity|].
  do 3 eexists. split; [exact Hk|done].
Qed.

End witnesses.
