(* ===== verification/Dpki.v ===== *)
(** * Keys, seeds and their encryption

    Models the crate [src/crates/dpki/src]: encryption with a passphrase
    ([password_encryption.rs], [utils.rs]), key pairs ([keypair.rs], [key_bundle.rs]),
    seeds and their mnemonics ([seed.rs]), and the blobs in which keys and seeds are
    stored ([key_blob.rs]).

    Buffers are lists of bytes ([Z]s).  libsodium, the HCID encoding of public keys,
    BIP39, and JSON with base64 come from the class [Sodium]; what the code relies
    on of them is in [SodiumLaws], which the theorems that need it assume and which
    [toy_sodium] shows to be satisfiable.  Random bytes are arguments.
    [Panic] is a failed assertion or [expect].

    The theorems: all kinds of keys and seeds are read back from their blobs
    ([blobs_read_back]), an encrypted seed is read back from its mnemonic
    ([mnemonic_reads_back]), and what a key pair signs verifies. *)

From S2P Require Import Prelude Errors Ribosome.
From stdpp Require Import pretty.
From Stdlib Require Import Ascii.

Local Open Scope string_scope.
Local Open Scope nat_scope.

Abbreviation bytes := (list Z) (only parsing).

(** ** Constants *)

Definition CONTEXT_SIZE : nat := 8.
Definition SEED_SIZE : nat := 32.
Definition AGENT_ID_CTX : bytes := bytes_of_string "HCAGNTID".
Definition SIGNATURE_SIZE : nat := 64.

(** [pwhash::SALTBYTES], [aead::NONCEBYTES], [aead::ABYTES], and the sizes of keys
    for signing and for key exchange. *)
Definition SALTBYTES : nat := 16.
Definition NONCEBYTES : nat := 24.
Definition ABYTES : nat := 16.
Definition sign_PUBLICKEYBYTES : nat := 32.
Definition sign_SECRETKEYBYTES : nat := 64.
Definition kx_PUBLICKEYBYTES : nat := 32.
Definition kx_SECRETKEYBYTES : nat := 32.
Definition kx_SESSIONKEYBYTES : nat := 32.
Definition pwhash_HASHBYTES : nat := 32.

(** ** What is taken from libraries *)

Record PwHashConfig : Type := { ops_limit : Z; mem_limit : Z; pw_hash_algo : Z }.

Record EncryptedData : Type := { salt : bytes; nonce : bytes; cipher : bytes }.

(** [CODEC_HCS0] and [CODEC_HCK0]. *)
Inductive Codec : Type := CODEC_HCS0 | CODEC_HCK0.

Class Sodium : Type := {
  (** Buffers: a new one, [from_array] into one of a size, [write] at an offset. *)
  secbuf : nat → bytes;
  from_array : nat → bytes → Result HolochainError bytes;
  write : bytes → nat → bytes → Result HolochainError bytes;
  pwhash_sensitive : PwHashConfig;
  pwhash_hash : nat → bytes → PwHashConfig → bytes → Result HolochainError bytes;
  aead_enc : bytes → bytes → bytes → Result HolochainError bytes;
  (** The buffer that decryption was to write into, and whether it failed. *)
  aead_dec : bytes → bytes → bytes → bytes → bytes * Result HolochainError ();
  sign_seed_keypair : bytes → Result HolochainError (bytes * bytes);
  kx_seed_keypair : bytes → Result HolochainError (bytes * bytes);
  sign_sign : bytes → bytes → Result HolochainError bytes;
  sign_verify : bytes → bytes → bytes → bool;
  kdf_derive : nat → Z → bytes → bytes → Result HolochainError bytes;
  hcid_encode : Codec → bytes → Result HolochainError string;
  hcid_decode : Codec → string → Result HolochainError bytes;
  (** Base64 of the JSON of encrypted data, and back. *)
  encrypted_text : EncryptedData → string;
  text_encrypted : string → Result HolochainError EncryptedData;
  (** [Mnemonic::from_entropy], whose phrase is the words with a space between
      them, and [Mnemonic::from_phrase]. *)
  from_entropy : bytes → Result string (list string);
  from_phrase : string → Result string bytes;
}.

Definition has_space (word : string) : bool :=
  bool_decide (" "%char ∈ String.list_ascii_of_string word).

(** What they promise. *)
Class SodiumLaws `{Sodium} : Prop := {
  secbuf_length : ∀ n, length (secbuf n) = n;
  from_array_ok : ∀ n b, length b = n → from_array n b = Ok b;
  write_ok : ∀ buf offset b, offset + length b ≤ length buf →
    write buf offset b = Ok (take offset buf ++ b ++ drop (offset + length b) buf)%list;
  aead_round_trip : ∀ data key nonce c buf, aead_enc data key nonce = Ok c →
    length data ≤ length buf →
    aead_dec buf key nonce c = ((data ++ drop (length data) buf)%list, Ok ());
  aead_enc_size : ∀ data key nonce c, aead_enc data key nonce = Ok c →
    length c = length data + ABYTES;
  aead_dec_size : ∀ buf key nonce c, length (fst (aead_dec buf key nonce c)) = length buf;
  pwhash_size : ∀ n password config salt b, pwhash_hash n password config salt = Ok b → length b = n;
  kdf_size : ∀ n index context seed b, kdf_derive n index context seed = Ok b → length b = n;
  sign_keypair_size : ∀ seed pub priv, sign_seed_keypair seed = Ok (pub, priv) →
    length pub = sign_PUBLICKEYBYTES ∧ length priv = sign_SECRETKEYBYTES;
  kx_keypair_size : ∀ seed pub priv, kx_seed_keypair seed = Ok (pub, priv) →
    length pub = kx_PUBLICKEYBYTES ∧ length priv = kx_SECRETKEYBYTES;
  sign_verifies : ∀ seed pub priv data signature, sign_seed_keypair seed = Ok (pub, priv) →
    sign_sign data priv = Ok signature → sign_verify signature data pub = true;
  hcid_round_trip : ∀ codec b t, hcid_encode codec b = Ok t → hcid_decode codec t = Ok b;
  encrypted_round_trip : ∀ d, text_encrypted (encrypted_text d) = Ok d;
  mnemonic_round_trip : ∀ entropy words, from_entropy entropy = Ok words →
    from_phrase (String.concat " " words) = Ok entropy;
  mnemonic_total : ∀ entropy, length entropy = SEED_SIZE → ∃ words, from_entropy entropy = Ok words;
  mnemonic_words : ∀ entropy words, from_entropy entropy = Ok words →
    length entropy = SEED_SIZE → length words = 24 ∧ Forall (λ word, has_space word = false) words;
}.

(** ** Results that may be panics *)

Definition Hc (A : Type) : Type := Outcome (Result HolochainError A).

#[export] Instance Hc_ret : MRet Hc := λ _ x, Ret (Ok x).
#[export] Instance Hc_bind : MBind Hc := λ _ _ f m,
  match m with
  | Ret (Ok x) => f x
  | Ret (Err e) => Ret (Err e)
  | Panic => Panic
  | NoFuel => NoFuel
  end.

Definition lift {A} (r : Result HolochainError A) : Hc A := Ret r.
Definition failing {A} (message : string) : Hc A := Ret (Err (HolochainError_ErrorGeneric message)).

(** [expect] and [assert!]. *)
Definition expected {E A} (r : Result E A) : Hc A :=
  match r with Ok x => mret x | Err _ => Panic end.
Definition asserted (b : bool) : Hc unit := if b then mret () else Panic.

(** [&buf[i..j]]. *)
Definition slice (buf : bytes) (i j : nat) : Hc bytes :=
  if Nat.leb i j && Nat.leb j (length buf) then mret (take (j - i) (drop i buf)) else Panic.

Definition byte_at (buf : bytes) (i : nat) : Hc Z :=
  match buf !! i with Some b => mret b | None => Panic end.

(** ** password_encryption.rs *)

Section password_encryption.
Context `{Sodium}.

(** The hash fills a buffer of the given size. *)
Definition pw_hash (size : nat) (password salt : bytes) (config : option PwHashConfig) : Hc bytes :=
  let config := default pwhash_sensitive config in
  lift (pwhash_hash size password config salt).

Definition pw_enc_base (data passphrase salt nonce : bytes) (config : option PwHashConfig) : Hc EncryptedData :=
  secret ← pw_hash kx_SESSIONKEYBYTES passphrase salt config;
  cipher ← lift (aead_enc data secret nonce);
  mret {| salt := salt; nonce := nonce; cipher := cipher |}.

Definition pw_enc (salt nonce data passphrase : bytes) (config : option PwHashConfig) : Hc EncryptedData :=
  pw_enc_base data passphrase salt nonce config.

Definition pw_enc_zero_nonce (salt data passphrase : bytes) (config : option PwHashConfig) : Hc EncryptedData :=
  nonce ← lift (write (secbuf NONCEBYTES) 0 (replicate NONCEBYTES 0%Z));
  pw_enc_base data passphrase salt nonce config.

(** The buffer after decryption into it. *)
Definition pw_dec (encrypted_data : EncryptedData) (passphrase decrypted_data : bytes)
    (config : option PwHashConfig) : Hc bytes :=
  salt ← expected (from_array SALTBYTES (salt encrypted_data));
  nonce ← expected (from_array (length (nonce encrypted_data)) (nonce encrypted_data));
  cipher ← expected (from_array (length (cipher encrypted_data)) (cipher encrypted_data));
  secret ← pw_hash kx_SESSIONKEYBYTES passphrase salt config;
  match aead_dec decrypted_data secret nonce cipher with
  | (decrypted_data, Ok _) => mret decrypted_data
  | (_, Err e) => lift (Err e)
  end.

(** ** utils.rs *)

Definition decode_pub_key (pub_key_b32 : string) (codec : Codec) : Hc bytes :=
  pub_key ← lift (hcid_decode codec pub_key_b32);
  lift (from_array sign_PUBLICKEYBYTES pub_key).

Definition encode_pub_key (pub_key_sec : bytes) (codec : Codec) : Hc string :=
  key ← slice pub_key_sec 0 SEED_SIZE;
  lift (hcid_encode codec key).

Definition verify_bufs (pub_sign_key_b32 : string) (data signature : bytes) : Hc bool :=
  pub_key ← decode_pub_key pub_sign_key_b32 CODEC_HCS0;
  mret (sign_verify signature data pub_key).

Definition SeedContext_new (data : bytes) : Hc bytes :=
  asserted (Nat.eqb (length data) CONTEXT_SIZE);;
  asserted (forallb (λ b, (b <? 128)%Z) data);;
  mret data.

Definition to_sec_buf (seed_context : bytes) : Hc bytes :=
  expected (write (secbuf 8) 0 seed_context).

Definition generate_derived_seed_buf (src_seed seed_context : bytes) (index : Z) (size : nat) : Hc bytes :=
  if (index =? 0)%Z then failing "Invalid index"
  else
    context ← to_sec_buf seed_context;
    lift (kdf_derive size index context src_seed).

Definition encrypt_with_passphrase_buf (salt nonce data_buf passphrase : bytes)
    (config : option PwHashConfig) : Hc string :=
  encrypted_blob ← pw_enc salt nonce data_buf passphrase config;
  mret (encrypted_text encrypted_blob).

Definition decrypt_with_passphrase_buf (blob : string) (passphrase : bytes)
    (config : option PwHashConfig) (size : nat) : Hc bytes :=
  encrypted_blob ← lift (text_encrypted blob);
  decrypted_data ← pw_dec encrypted_blob passphrase (secbuf size) config;
  if negb (Nat.eqb (length decrypted_data) size) then failing "Invalid Blob size"
  else mret decrypted_data.

End password_encryption.

(** ** keypair.rs

    The trait of key pairs; [generate] is the function of libsodium that
    [new_from_seed] calls, with the sizes of its keys. *)

Class KeyPair (K : Type) `{Sodium} : Type := {
  public : K → string;
  private : K → bytes;
  new : string → bytes → K;
  codec : Codec;
  generate : bytes → Result HolochainError (bytes * bytes);
  public_size : nat;
  private_size : nat;
}.

Record SigningKeyPair : Type := SigningKeyPair_new
  { sign_public : string; sign_private : bytes }.
Record EncryptingKeyPair : Type := EncryptingKeyPair_new
  { enc_public : string; enc_private : bytes }.

#[export] Instance SigningKeyPair_KeyPair `{Sodium} : KeyPair SigningKeyPair := {|
  public := sign_public; private := sign_private; new := SigningKeyPair_new;
  codec := CODEC_HCS0; generate := sign_seed_keypair;
  public_size := sign_PUBLICKEYBYTES; private_size := sign_SECRETKEYBYTES;
|}.

#[export] Instance EncryptingKeyPair_KeyPair `{Sodium} : KeyPair EncryptingKeyPair := {|
  public := enc_public; private := enc_private; new := EncryptingKeyPair_new;
  codec := CODEC_HCK0; generate := kx_seed_keypair;
  public_size := kx_PUBLICKEYBYTES; private_size := kx_SECRETKEYBYTES;
|}.

Section keypair.
Context `{Sodium} {K : Type} `{!KeyPair K}.

Definition pair_encode_pub_key (pub_key_sec : bytes) : Hc string :=
  match encode_pub_key pub_key_sec codec with
  | Ret r => expected r
  | Panic => Panic
  | NoFuel => NoFuel
  end.

(** [KeyPair::decode_pub_key] and [decode_pub_key_into_secbuf]. *)
Definition pair_decode_pub_key (self : K) : Hc bytes :=
  expected (hcid_decode codec (public self)).

Definition decode_pub_key_into_secbuf (self : K) : Hc bytes :=
  match decode_pub_key (public self) codec with
  | Ret r => expected r
  | Panic => Panic
  | NoFuel => NoFuel
  end.

Definition is_same (self other : K) : bool :=
  bool_decide (public self = public other) && bool_decide (private self = private other).

Definition new_from_seed (seed : bytes) : Hc K :=
  asserted (Nat.eqb (length seed) SEED_SIZE);;
  keys ← lift (generate seed);
  pub_key_b32 ← encode_pub_key (fst keys) codec;
  mret (new pub_key_b32 (snd keys)).

Definition new_from_self (self : K) : Hc K := mret (new (public self) (private self)).

End keypair.

Section pairs.
Context `{Sodium}.

Definition SigningKeyPair_sign (self : SigningKeyPair) (data : bytes) : Hc bytes :=
  lift (sign_sign data (sign_private self)).

Definition SigningKeyPair_verify (self : SigningKeyPair) (data signature : bytes) : Hc bool :=
  pub_key ← decode_pub_key_into_secbuf self;
  mret (sign_verify signature data pub_key).

(** The buffers after encryption and decryption, and whether they failed; an error
    of [from_array] at the end of [encrypt] is not looked at. *)
Definition EncryptingKeyPair_encrypt (self : EncryptingKeyPair) (nonce data encrypted_data : bytes) :
    bytes * Result HolochainError () :=
  match aead_enc data (enc_private self) nonce with
  | Err e => (encrypted_data, Err e)
  | Ok cipher =>
      match from_array (length encrypted_data) (cipher ++ nonce)%list with
      | Ok b => (b, Ok ())
      | Err _ => (encrypted_data, Ok ())
      end
  end.

(** [usize] subtraction wraps: of a cipher shorter than a nonce, nothing is left
    after the skipped bytes, and the buffer for the cipher cannot be allocated. *)
Definition EncryptingKeyPair_decrypt (self : EncryptingKeyPair) (cipher decrypted_message : bytes) :
    Outcome (bytes * Result HolochainError ()) :=
  let wraps := Nat.ltb (length cipher) NONCEBYTES in
  let cipher_length := length cipher - NONCEBYTES in
  let nonce_slice_from_cipher := if wraps then [] else drop cipher_length cipher in
  match from_array NONCEBYTES nonce_slice_from_cipher with
  | Err e => Ret (decrypted_message, Err e)
  | Ok nonce =>
      if wraps then Panic
      else
        match from_array cipher_length (take cipher_length cipher) with
        | Err e => Ret (decrypted_message, Err e)
        | Ok cipher_no_nonce => Ret (aead_dec decrypted_message (enc_private self) nonce cipher_no_nonce)
        end
  end.

(** ** key_bundle.rs *)

Record KeyBundle : Type := { sign_keys : SigningKeyPair; enc_keys : EncryptingKeyPair }.

Definition KeyBundle_new_from_seed_buf (seed_buf : bytes) : Hc KeyBundle :=
  asserted (Nat.eqb (length seed_buf) SEED_SIZE);;
  sign_keys ← new_from_seed seed_buf;
  enc_keys ← new_from_seed seed_buf;
  mret {| sign_keys := sign_keys; enc_keys := enc_keys |}.

Definition get_id (self : KeyBundle) : string := sign_public (sign_keys self).

Definition KeyBundle_sign (self : KeyBundle) (data : bytes) : Hc bytes :=
  SigningKeyPair_sign (sign_keys self) data.

(** What the pairs report is not looked at. *)
Definition KeyBundle_encrypt (self : KeyBundle) (nonce data : bytes) : Hc bytes :=
  let encrypted_data := secbuf (length data + ABYTES + NONCEBYTES) in
  mret (fst (EncryptingKeyPair_encrypt (enc_keys self) nonce data encrypted_data)).

(** [(cipher.len() - NONCEBYTES) + ABYTES], wrapping; below zero it is more than
    can be allocated. *)
Definition KeyBundle_decrypt (self : KeyBundle) (cipher : bytes) : Hc bytes :=
  if Nat.ltb (length cipher + ABYTES) NONCEBYTES then Panic
  else
    let decrypted_data := secbuf (length cipher + ABYTES - NONCEBYTES) in
    match EncryptingKeyPair_decrypt (enc_keys self) cipher decrypted_data with
    | Ret (decrypted_data, _) => mret decrypted_data
    | Panic => Panic
    | NoFuel => NoFuel
    end.

Definition KeyBundle_verify (self : KeyBundle) (data signature : bytes) : Hc bool :=
  SigningKeyPair_verify (sign_keys self) data signature.

Definition KeyBundle_is_same (self other : KeyBundle) : bool :=
  is_same (sign_keys self) (sign_keys other) && is_same (enc_keys self) (enc_keys other).

End pairs.

(** ** seed.rs *)

Inductive SeedType : Type :=
| SeedType_Root
| SeedType_Revocation
| SeedType_Device
| SeedType_DevicePin
| SeedType_DNA
| SeedType_OneShot
| SeedType_Mock.

Record Seed : Type := { kind : SeedType; buf : bytes }.

Inductive SeedInitializer : Type :=
| SeedInitializer_Seed (seed_buf : bytes)
| SeedInitializer_Mnemonic (phrase : string).

(** [RootSeed], [DeviceSeed] and [DevicePinSeed] hold a seed each. *)
Inductive TypedSeed : Type :=
| TypedSeed_Root (inner : Seed)
| TypedSeed_Device (inner : Seed)
| TypedSeed_DevicePin (inner : Seed).

Record EncryptedSeed : Type := { encrypted_kind : SeedType; encrypted_seed : EncryptedData }.

(** [split(' ')] and [chunks(n)]. *)
Fixpoint split_spaces (s : string) : list string :=
  match s with
  | "" => [""]
  | String " "%char rest => "" :: split_spaces rest
  | String c rest =>
      match split_spaces rest with
      | part :: parts => String c part :: parts
      | [] => []
      end
  end.

Fixpoint chunks_from {A} (fuel n : nat) (l : list A) : list (list A) :=
  match fuel, l with
  | _, [] => []
  | O, _ => []
  | S fuel, _ => take n l :: chunks_from fuel n (drop n l)
  end.

(** There are at most as many chunks as elements. *)
Definition chunks {A} (n : nat) (l : list A) : list (list A) := chunks_from (length l) n l.

Fixpoint each {A B} (f : A → Hc B) (l : list A) : Hc (list B) :=
  match l with
  | [] => mret []
  | x :: l =>
      y ← f x;
      ys ← each f l;
      mret (y :: ys)
  end.

Section seed.
Context `{Sodium}.

Definition Seed_new (seed_buf : bytes) (seed_type : SeedType) : Hc Seed :=
  asserted (Nat.eqb (length seed_buf) SEED_SIZE);;
  mret {| kind := seed_type; buf := seed_buf |}.

Definition Seed_new_with_mnemonic (phrase : string) (seed_type : SeedType) : Hc Seed :=
  entropy ← lift (map_err (λ e, HolochainError_ErrorGeneric ("Error loading Mnemonic phrase: " +:+ e))
    (from_phrase phrase));
  asserted (Nat.eqb (length entropy) SEED_SIZE);;
  seed_buf ← lift (from_array (length entropy) entropy);
  mret {| kind := seed_type; buf := seed_buf |}.

Definition Seed_get_mnemonic (self : Seed) : Hc string :=
  words ← lift (map_err (λ e, HolochainError_ErrorGeneric ("Error generating Mnemonic phrase: " +:+ e))
    (from_entropy (buf self)));
  mret (String.concat " " words).

Definition new_with_initializer (initializer : SeedInitializer) (seed_type : SeedType) : Hc Seed :=
  match initializer with
  | SeedInitializer_Seed seed_buf => Seed_new seed_buf seed_type
  | SeedInitializer_Mnemonic phrase =>
      match Seed_new_with_mnemonic phrase seed_type with
      | Ret r => expected r
      | Panic => Panic
      | NoFuel => NoFuel
      end
  end.

Definition RootSeed_new (seed_buf : bytes) : Hc Seed :=
  new_with_initializer (SeedInitializer_Seed seed_buf) SeedType_Root.
Definition DeviceSeed_new (seed_buf : bytes) : Hc Seed :=
  new_with_initializer (SeedInitializer_Seed seed_buf) SeedType_Device.
Definition DevicePinSeed_new (seed_buf : bytes) : Hc Seed :=
  new_with_initializer (SeedInitializer_Seed seed_buf) SeedType_DevicePin.

Definition into_typed (self : Seed) : Hc TypedSeed :=
  match kind self with
  | SeedType_Root => inner ← RootSeed_new (buf self); mret (TypedSeed_Root inner)
  | SeedType_Device => inner ← DeviceSeed_new (buf self); mret (TypedSeed_Device inner)
  | SeedType_DevicePin => inner ← DevicePinSeed_new (buf self); mret (TypedSeed_DevicePin inner)
  | _ => failing "Seed does have specific behavior for its type"
  end.

(** [RootSeed::generate_device_seed], [DeviceSeed::generate_device_pin_seed] and
    [DevicePinSeed::generate_dna_key]. *)
Definition generate_device_seed (self : Seed) (seed_context : bytes) (index : Z) : Hc Seed :=
  device_seed_buf ← generate_derived_seed_buf (buf self) seed_context index SEED_SIZE;
  DeviceSeed_new device_seed_buf.

Definition generate_device_pin_seed (self : Seed) (pin : bytes) (config : option PwHashConfig) : Hc Seed :=
  hash ← pw_hash pwhash_HASHBYTES pin (buf self) config;
  DevicePinSeed_new hash.

Definition generate_dna_key (self : Seed) (index : Z) : Hc KeyBundle :=
  if (index =? 0)%Z then failing "Invalid index"
  else
    context ← SeedContext_new AGENT_ID_CTX;
    context ← to_sec_buf context;
    dna_seed_buf ← lift (kdf_derive SEED_SIZE index context (buf self));
    KeyBundle_new_from_seed_buf dna_seed_buf.

(** [SeedTrait::encrypt] and [EncryptedSeed::decrypt]. *)
Definition Seed_encrypt (salt : bytes) (self : Seed) (passphrase : string) (config : option PwHashConfig) :
    Hc EncryptedSeed :=
  encrypted_data ← pw_enc_zero_nonce salt (buf self) (bytes_of_string passphrase) config;
  mret {| encrypted_kind := kind self; encrypted_seed := encrypted_data |}.

Definition EncryptedSeed_decrypt (self : EncryptedSeed) (passphrase : string) (config : option PwHashConfig) :
    Hc TypedSeed :=
  decrypted_data ← pw_dec (encrypted_seed self) (bytes_of_string passphrase) (secbuf SEED_SIZE) config;
  seed ← new_with_initializer (SeedInitializer_Seed decrypted_data) (encrypted_kind self);
  into_typed seed.

Definition EncryptedSeed_new_with_mnemonic (phrase : string) (seed_type : SeedType) : Hc EncryptedSeed :=
  entropies ← each (λ chunk, expected (from_phrase (String.concat " " chunk)))
    (chunks 24 (split_spaces phrase));
  let entropy := concat entropies in
  asserted (Nat.eqb (length entropy) (SEED_SIZE + ABYTES + SALTBYTES));;
  mret {| encrypted_kind := seed_type;
          encrypted_seed := {| nonce := replicate NONCEBYTES 0%Z;
                     cipher := take (SEED_SIZE + ABYTES) entropy;
                     salt := drop (SEED_SIZE + ABYTES) entropy |} |}.

Definition EncryptedSeed_get_mnemonic (self : EncryptedSeed) : Hc string :=
  let entropy := (cipher (encrypted_seed self) ++ salt (encrypted_seed self))%list in
  asserted (Nat.eqb (length entropy) (SEED_SIZE + ABYTES + SALTBYTES));;
  phrases ← each (λ sub_entropy,
    words ← expected (from_entropy sub_entropy);
    mret (String.concat " " words)) (chunks SEED_SIZE entropy);
  mret (String.concat " " phrases).

End seed.

(** ** key_blob.rs *)

Inductive BlobType : Type :=
| BlobType_Seed
| BlobType_KeyBundle
| BlobType_SigningKey
| BlobType_EncryptingKey.

#[export] Instance BlobType_eq_dec : EqDecision BlobType.
Proof. solve_decision. Defined.

Record KeyBlob : Type := {
  blob_type : BlobType;
  blob_seed_type : SeedType;
  hint : string;
  blob_data : string;
}.

(** The trait of what can be put in a blob. *)
Class Blobbable (T : Type) : Type := {
  type_of_blob : BlobType;
  blob_size : nat;
  from_blob : KeyBlob → bytes → option PwHashConfig → Hc T;
  (** The first two arguments are the salt and the nonce. *)
  as_blob : bytes → bytes → T → bytes → string → option PwHashConfig → Hc KeyBlob;
}.

Definition aligned (size : nat) : nat := (size + 8 - 1) / 8 * 8.

Definition KEYBUNDLE_BLOB_FORMAT_VERSION : Z := 2.
Definition KEYBUNDLE_BLOB_SIZE : nat :=
  1 + sign_PUBLICKEYBYTES + kx_PUBLICKEYBYTES + sign_SECRETKEYBYTES + kx_SECRETKEYBYTES.
Definition KEYBUNDLE_BLOB_SIZE_ALIGNED : nat := aligned KEYBUNDLE_BLOB_SIZE.

Definition SIGNING_KEY_BLOB_FORMAT_VERSION : Z := 1.
Definition SIGNING_KEY_BLOB_SIZE : nat := 1 + sign_PUBLICKEYBYTES + sign_SECRETKEYBYTES.
Definition SIGNING_KEY_BLOB_SIZE_ALIGNED : nat := aligned SIGNING_KEY_BLOB_SIZE.

Definition ENCRYPTING_KEY_BLOB_FORMAT_VERSION : Z := 1.
Definition ENCRYPTING_KEY_BLOB_SIZE : nat := 1 + kx_PUBLICKEYBYTES + kx_SECRETKEYBYTES.
Definition ENCRYPTING_KEY_BLOB_SIZE_ALIGNED : nat := aligned ENCRYPTING_KEY_BLOB_SIZE.

Section key_blob.
Context `{Sodium}.

Definition finalize_blobbing (size : nat) (salt nonce data_buf passphrase : bytes)
    (config : option PwHashConfig) : Hc string :=
  if negb (Nat.eqb (length data_buf) size) then failing "Invalid buf size for Blobbing"
  else encrypt_with_passphrase_buf salt nonce data_buf passphrase config.

Definition unblob (type : BlobType) (size : nat) (blob : KeyBlob) (passphrase : bytes)
    (config : option PwHashConfig) : Hc bytes :=
  if bool_decide (blob_type blob ≠ type) then failing "Blob type mismatch while unblobbing"
  else decrypt_with_passphrase_buf (blob_data blob) passphrase config size.

Definition Seed_from_blob (blob : KeyBlob) (passphrase : bytes) (config : option PwHashConfig) : Hc Seed :=
  seed_buf ← unblob BlobType_Seed SEED_SIZE blob passphrase config;
  Seed_new seed_buf (blob_seed_type blob).

Definition Seed_as_blob (salt nonce : bytes) (self : Seed) (passphrase : bytes) (hint : string)
    (config : option PwHashConfig) : Hc KeyBlob :=
  encoded_blob ← finalize_blobbing SEED_SIZE salt nonce (buf self) passphrase config;
  mret {| blob_seed_type := kind self; blob_type := BlobType_Seed; hint := hint;
          blob_data := encoded_blob |}.

(** The blobs of the two kinds of pairs have the same layout: a version, the public
    key and the private key. *)
Definition pair_write {K} `{!KeyPair K} (version : Z) (size : nat) (self : K) : Hc bytes :=
  data_buf ← expected (write (secbuf size) 0 [version]);
  key ← pair_decode_pub_key self;
  asserted (Nat.eqb public_size (length key));;
  data_buf ← expected (write data_buf 1 key);
  expected (write data_buf (1 + public_size) (private self)).

Definition pair_read {K} `{!KeyPair K} (name : string) (version : Z) (blob : bytes) : Hc K :=
  found ← byte_at blob 0;
  if negb (found =? version)%Z then
    failing ("Invalid " +:+ name +:+ " Blob Format: v" +:+ pretty found +:+ " != v" +:+ pretty version)
  else
    pub ← slice blob 1 (1 + public_size);
    pub ← lift (write (secbuf public_size) 0 pub);
    priv ← slice blob (1 + public_size) (1 + public_size + private_size);
    priv ← lift (write (secbuf private_size) 0 priv);
    public ← pair_encode_pub_key pub;
    mret (new public priv).

Definition SigningKeyPair_as_blob (salt nonce : bytes) (self : SigningKeyPair) (passphrase : bytes)
    (hint : string) (config : option PwHashConfig) : Hc KeyBlob :=
  data_buf ← pair_write SIGNING_KEY_BLOB_FORMAT_VERSION SIGNING_KEY_BLOB_SIZE_ALIGNED self;
  encoded_blob ← finalize_blobbing SIGNING_KEY_BLOB_SIZE_ALIGNED salt nonce data_buf passphrase config;
  mret {| blob_seed_type := SeedType_Mock; blob_type := BlobType_SigningKey; hint := hint;
          blob_data := encoded_blob |}.

Definition SigningKeyPair_from_blob (blob : KeyBlob) (passphrase : bytes) (config : option PwHashConfig) :
    Hc SigningKeyPair :=
  keybundle_blob ← unblob BlobType_SigningKey SIGNING_KEY_BLOB_SIZE_ALIGNED blob passphrase config;
  pair_read "SigningKey" SIGNING_KEY_BLOB_FORMAT_VERSION keybundle_blob.

Definition EncryptingKeyPair_as_blob (salt nonce : bytes) (self : EncryptingKeyPair) (passphrase : bytes)
    (hint : string) (config : option PwHashConfig) : Hc KeyBlob :=
  data_buf ← pair_write ENCRYPTING_KEY_BLOB_FORMAT_VERSION ENCRYPTING_KEY_BLOB_SIZE_ALIGNED self;
  encoded_blob ← finalize_blobbing ENCRYPTING_KEY_BLOB_SIZE_ALIGNED salt nonce data_buf passphrase config;
  mret {| blob_seed_type := SeedType_Mock; blob_type := BlobType_EncryptingKey; hint := hint;
          blob_data := encoded_blob |}.

Definition EncryptingKeyPair_from_blob (blob : KeyBlob) (passphrase : bytes)
    (config : option PwHashConfig) : Hc EncryptingKeyPair :=
  keybundle_blob ← unblob BlobType_EncryptingKey ENCRYPTING_KEY_BLOB_SIZE_ALIGNED blob passphrase config;
  pair_read "EncryptingKey" ENCRYPTING_KEY_BLOB_FORMAT_VERSION keybundle_blob.

Definition KeyBundle_as_blob (salt nonce : bytes) (self : KeyBundle) (passphrase : bytes)
    (hint : string) (config : option PwHashConfig) : Hc KeyBlob :=
  data_buf ← expected (write (secbuf KEYBUNDLE_BLOB_SIZE_ALIGNED) 0 [KEYBUNDLE_BLOB_FORMAT_VERSION]);
  let offset := 1 in
  key ← pair_decode_pub_key (sign_keys self);
  asserted (Nat.eqb sign_PUBLICKEYBYTES (length key));;
  data_buf ← expected (write data_buf offset key);
  let offset := offset + sign_PUBLICKEYBYTES in
  key ← pair_decode_pub_key (enc_keys self);
  asserted (Nat.eqb kx_PUBLICKEYBYTES (length key));;
  data_buf ← expected (write data_buf offset key);
  let offset := offset + kx_PUBLICKEYBYTES in
  data_buf ← expected (write data_buf offset (sign_private (sign_keys self)));
  let offset := offset + sign_SECRETKEYBYTES in
  data_buf ← expected (write data_buf offset (enc_private (enc_keys self)));
  let offset := offset + kx_SECRETKEYBYTES in
  asserted (Nat.eqb offset KEYBUNDLE_BLOB_SIZE);;
  encoded_blob ← finalize_blobbing KEYBUNDLE_BLOB_SIZE_ALIGNED salt nonce data_buf passphrase config;
  mret {| blob_seed_type := SeedType_Mock; blob_type := BlobType_KeyBundle; hint := hint;
          blob_data := encoded_blob |}.

Definition KeyBundle_from_blob (blob : KeyBlob) (passphrase : bytes) (config : option PwHashConfig) :
    Hc KeyBundle :=
  keybundle_blob ← unblob BlobType_KeyBundle KEYBUNDLE_BLOB_SIZE_ALIGNED blob passphrase config;
  found ← byte_at keybundle_blob 0;
  if negb (found =? KEYBUNDLE_BLOB_FORMAT_VERSION)%Z then
    failing ("Invalid KeyBundle Blob Format: v" +:+ pretty found +:+ " != v" +:+
             pretty KEYBUNDLE_BLOB_FORMAT_VERSION)
  else
    pub_sign ← slice keybundle_blob 1 33;
    pub_sign ← lift (write (secbuf sign_PUBLICKEYBYTES) 0 pub_sign);
    pub_enc ← slice keybundle_blob 33 65;
    pub_enc ← lift (write (secbuf kx_PUBLICKEYBYTES) 0 pub_enc);
    priv_sign ← slice keybundle_blob 65 129;
    priv_sign ← lift (write (secbuf sign_SECRETKEYBYTES) 0 priv_sign);
    priv_enc ← slice keybundle_blob 129 161;
    priv_enc ← lift (write (secbuf kx_SECRETKEYBYTES) 0 priv_enc);
    sign_public ← pair_encode_pub_key (K := SigningKeyPair) pub_sign;
    enc_public ← pair_encode_pub_key (K := EncryptingKeyPair) pub_enc;
    mret {| sign_keys := SigningKeyPair_new sign_public priv_sign;
            enc_keys := EncryptingKeyPair_new enc_public priv_enc |}.

#[export] Instance Seed_Blobbable : Blobbable Seed := {|
  type_of_blob := BlobType_Seed; blob_size := SEED_SIZE;
  from_blob := Seed_from_blob; as_blob := Seed_as_blob;
|}.
#[export] Instance SigningKeyPair_Blobbable : Blobbable SigningKeyPair := {|
  type_of_blob := BlobType_SigningKey; blob_size := SIGNING_KEY_BLOB_SIZE_ALIGNED;
  from_blob := SigningKeyPair_from_blob; as_blob := SigningKeyPair_as_blob;
|}.
#[export] Instance EncryptingKeyPair_Blobbable : Blobbable EncryptingKeyPair := {|
  type_of_blob := BlobType_EncryptingKey; blob_size := ENCRYPTING_KEY_BLOB_SIZE_ALIGNED;
  from_blob := EncryptingKeyPair_from_blob; as_blob := EncryptingKeyPair_as_blob;
|}.
#[export] Instance KeyBundle_Blobbable : Blobbable KeyBundle := {|
  type_of_blob := BlobType_KeyBundle; blob_size := KEYBUNDLE_BLOB_SIZE_ALIGNED;
  from_blob := KeyBundle_from_blob; as_blob := KeyBundle_as_blob;
|}.

End key_blob.

(** ** Lemmas *)

(** What succeeds or returns an error, but does not panic. *)
Definition settles {A} (r : Hc A) : Prop := ∃ x, r = Ret x.

Create HintDb dpki.

(** Evaluates the binds whose results are known. *)
Ltac hc := cbn [mbind Hc_bind mret Hc_ret expected lift asserted failing fst snd].

Section hc_lemmas.

Lemma hc_ok_bind {A B} (m : Hc A) (f : A → Hc B) (b : B) :
  (x ← m; f x) = Ret (Ok b) → ∃ a, m = Ret (Ok a) ∧ f a = Ret (Ok b).
Proof. destruct m as [[]| |]; naive_solver. Qed.

Lemma settles_bind {A B} (m : Hc A) (f : A → Hc B) :
  settles m → (∀ a, m = Ret (Ok a) → settles (f a)) → settles (x ← m; f x).
Proof. intros [[x|e] ->] Hf; [by apply Hf|by eexists]. Qed.

Lemma settles_ret {A} (x : Result HolochainError A) : settles (Ret x : Hc A).
Proof. by eexists. Qed.

Lemma asserted_true b : b = true → asserted b = Ret (Ok ()).
Proof. by intros ->. Qed.

Lemma slice_app (pre b rest : bytes) i j :
  i = length pre → j = length pre + length b →
  slice (pre ++ b ++ rest)%list i j = Ret (Ok b).
Proof.
  intros -> ->. unfold slice. rewrite drop_app_length, !length_app.
  replace (length pre + length b - length pre) with (length b) by lia. rewrite take_app_length.
  by destruct (Nat.leb_spec (length pre) (length pre + length b)),
    (Nat.leb_spec (length pre + length b) (length pre + (length b + length rest))); try lia.
Qed.

End hc_lemmas.

#[export] Hint Extern 1 (settles _) => by eexists : dpki.

Section crypt_lemmas.
Context `{SodiumLaws}.

Lemma write_app (pre rest b : bytes) i :
  i = length pre → length b ≤ length rest →
  write (pre ++ rest)%list i b = Ok (pre ++ b ++ drop (length b) rest)%list.
Proof.
  intros -> Hl. rewrite write_ok by (rewrite length_app; lia).
  by rewrite take_app_length, drop_app_add.
Qed.

Lemma write_front (buf' b : bytes) :
  length b ≤ length buf' → write buf' 0 b = Ok (b ++ drop (length b) buf')%list.
Proof. intros. by rewrite write_ok. Qed.

Lemma write_secbuf n (b : bytes) : length b = n → write (secbuf n) 0 b = Ok b.
Proof.
  intros Hl. rewrite write_ok by (rewrite secbuf_length; simpl; lia).
  simpl. by rewrite drop_ge, app_nil_r by (rewrite secbuf_length; lia).
Qed.

Lemma pw_round_trip salt' nonce' plain passphrase config d buf' :
  length salt' = SALTBYTES → length buf' = length plain →
  pw_enc_base plain passphrase salt' nonce' config = Ret (Ok d) →
  pw_dec d passphrase buf' config = Ret (Ok plain).
Proof.
  intros Hs Hb (secret & Hh & Hc)%hc_ok_bind. apply hc_ok_bind in Hc as (c & He & [= <-]).
  unfold pw_dec. cbn [salt nonce cipher]. rewrite !from_array_ok by done. hc.
  injection He as He. rewrite Hh. hc.
  rewrite (aead_round_trip _ _ _ _ _ He) by lia.
  by rewrite drop_ge, app_nil_r by lia.
Qed.

Lemma encrypt_settles salt' nonce' b passphrase config :
  settles (encrypt_with_passphrase_buf salt' nonce' b passphrase config).
Proof.
  unfold encrypt_with_passphrase_buf, pw_enc, pw_enc_base, pw_hash.
  repeat (apply settles_bind; [|intros]); auto with dpki.
Qed.

(** What is encrypted is read back with the same passphrase. *)
Lemma passphrase_round_trip salt' nonce' b passphrase config t :
  length salt' = SALTBYTES →
  encrypt_with_passphrase_buf salt' nonce' b passphrase config = Ret (Ok t) →
  decrypt_with_passphrase_buf t passphrase config (length b) = Ret (Ok b).
Proof.
  intros Hs (d & Hd & [= <-])%hc_ok_bind. unfold decrypt_with_passphrase_buf, lift.
  rewrite encrypted_round_trip. simpl.
  rewrite (pw_round_trip _ _ b _ _ _ (secbuf (length b)) Hs ltac:(by rewrite secbuf_length) Hd). simpl.
  by rewrite Nat.eqb_refl.
Qed.

Lemma unblob_finalized type size salt' nonce' b passphrase config t blob :
  length salt' = SALTBYTES → length b = size →
  finalize_blobbing size salt' nonce' b passphrase config = Ret (Ok t) →
  blob_type blob = type → blob_data blob = t →
  unblob type size blob passphrase config = Ret (Ok b).
Proof.
  intros Hs <- Ht <- <-. unfold finalize_blobbing in Ht. rewrite Nat.eqb_refl in Ht. simpl in Ht.
  unfold unblob. rewrite bool_decide_eq_false_2 by naive_solver. eauto using passphrase_round_trip.
Qed.

Lemma finalize_settles size salt' nonce' b passphrase config :
  settles (finalize_blobbing size salt' nonce' b passphrase config).
Proof. unfold finalize_blobbing. case_match; [apply settles_ret|apply encrypt_settles]. Qed.

End crypt_lemmas.

#[export] Hint Resolve encrypt_settles finalize_settles : dpki.

(** *** Key pairs *)

(** What the two kinds of pairs have in common. *)
Class KeyPairLaws (K : Type) `{KeyPair K} : Prop := {
  new_eta : ∀ k : K, new (public k) (private k) = k;
  public_new : ∀ t b, public (new t b : K) = t;
  private_new : ∀ t b, private (new t b : K) = b;
  public_size_seed : public_size = SEED_SIZE;
  generate_size : ∀ seed pub priv, generate seed = Ok (pub, priv) →
    length pub = public_size ∧ length priv = private_size;
}.

#[export] Instance SigningKeyPair_laws `{SodiumLaws} : KeyPairLaws SigningKeyPair.
Proof. split; try done; [by intros []|apply sign_keypair_size]. Qed.

#[export] Instance EncryptingKeyPair_laws `{SodiumLaws} : KeyPairLaws EncryptingKeyPair.
Proof. split; try done; [by intros []|apply kx_keypair_size]. Qed.

(** A pair whose public key is the encoding of one and whose private key has the
    right size. *)
Definition pair_ok {K} `{KeyPair K} (k : K) : Prop :=
  (∃ pub, length pub = public_size ∧ hcid_encode codec pub = Ok (public k)) ∧
  length (private k) = private_size.

Section pair_lemmas.
Context `{SodiumLaws} {K : Type} `{!KeyPair K} `{!KeyPairLaws K}.

Lemma encode_whole pub : length pub = public_size →
  encode_pub_key pub codec = Ret (hcid_encode codec pub).
Proof.
  intros Hl. unfold encode_pub_key.
  pose proof (slice_app [] pub [] 0 SEED_SIZE eq_refl ltac:(rewrite Hl, public_size_seed; done)) as Hs.
  simpl in Hs. rewrite app_nil_r in Hs. by rewrite Hs.
Qed.

(** Pairs made from a seed. *)
Lemma new_from_seed_ok seed (k : K) :
  new_from_seed seed = Ret (Ok k) →
  pair_ok k ∧ ∃ pub, generate seed = Ok (pub, private k) ∧ hcid_encode codec pub = Ok (public k).
Proof.
  intros (? & _ & Hk)%hc_ok_bind. apply hc_ok_bind in Hk as ([pub priv] & Hg & Hk).
  injection Hg as Hg. destruct (generate_size _ _ _ Hg) as [Hpub Hpriv].
  apply hc_ok_bind in Hk as (t & Ht & [= <-]). simpl in *.
  rewrite encode_whole in Ht by done. injection Ht as Ht.
  unfold pair_ok. rewrite public_new, private_new. naive_solver.
Qed.

Lemma pair_written version size (k : K) :
  pair_ok k → 1 + public_size + private_size ≤ size →
  ∃ pub rest, length pub = public_size ∧ hcid_encode codec pub = Ok (public k) ∧
    length ([version] ++ pub ++ private k ++ rest)%list = size ∧
    pair_write version size k = Ret (Ok ([version] ++ pub ++ private k ++ rest)%list).
Proof.
  intros [(pub & Hpub & Henc) Hpriv] Hsize.
  exists pub, (drop (length (private k)) (drop (length pub) (drop 1 (secbuf size)))).
  split_and!; try done.
  { rewrite !length_app, !length_drop, secbuf_length. simpl. lia. }
  unfold pair_write, pair_decode_pub_key. rewrite (hcid_round_trip _ _ _ Henc).
  rewrite write_front by (rewrite ?secbuf_length; simpl; lia). hc.
  rewrite asserted_true by (rewrite Hpub; apply Nat.eqb_refl). hc.
  rewrite (write_app [version]) by (rewrite ?length_drop, ?secbuf_length; simpl; lia).
  hc. rewrite app_assoc.
  rewrite (write_app ([version] ++ pub)) by (rewrite ?length_app, ?length_drop, ?secbuf_length; simpl; lia).
  by rewrite <- app_assoc.
Qed.

Lemma pair_read_written name version pub (k : K) rest :
  length pub = public_size → hcid_encode codec pub = Ok (public k) →
  length (private k) = private_size →
  pair_read name version ([version] ++ pub ++ private k ++ rest)%list = Ret (Ok k).
Proof.
  intros Hpub Henc Hpriv. unfold pair_read.
  assert (byte_at ([version] ++ pub ++ private k ++ rest)%list 0 = Ret (Ok version)) as -> by done. hc. rewrite Z.eqb_refl.
  hc.
  rewrite (slice_app [version] pub _ 1) by (simpl; lia). hc.
  unfold lift. rewrite write_secbuf by done. hc.
  rewrite (app_assoc [version]). rewrite (slice_app ([version] ++ pub)) by (rewrite length_app; simpl; lia).
  hc. rewrite write_secbuf by done.
  unfold pair_encode_pub_key. rewrite encode_whole by done. rewrite Henc. simpl. by rewrite new_eta.
Qed.

Lemma slice_length (b : bytes) i j r : slice b i j = Ret (Ok r) → length r = j - i.
Proof.
  unfold slice. destruct (Nat.leb_spec i j), (Nat.leb_spec j (length b)); try done. intros [= <-].
  rewrite length_take, length_drop. lia.
Qed.

(** Whatever is read as a pair is well formed. *)
Lemma pair_read_ok name version b (k : K) : pair_read name version b = Ret (Ok k) → pair_ok k.
Proof.
  intros (found & _ & Hk)%hc_ok_bind. destruct (negb _); [done|].
  apply hc_ok_bind in Hk as (pub & Hpub%slice_length & Hk). apply hc_ok_bind in Hk as (pub' & Hw & Hk).
  apply hc_ok_bind in Hk as (priv & Hpriv%slice_length & Hk). apply hc_ok_bind in Hk as (priv' & Hw' & Hk).
  unfold lift in *. rewrite write_secbuf in Hw, Hw' by lia. simplify_eq.
  apply hc_ok_bind in Hk as (t & Ht & [= <-]). unfold pair_encode_pub_key in Ht.
  rewrite encode_whole in Ht by lia. unfold pair_ok. rewrite public_new, private_new.
  split; [|lia]. exists pub'. split; [lia|]. by destruct (hcid_encode codec pub'); [injection Ht as ->|discriminate Ht].
Qed.

End pair_lemmas.

(** ** Blobs are read back *)

(** What a kind of secret promises to those who store it: making a blob of a
    well-formed one does not panic, and reading the blob gives it back. *)
Class BlobLaws (T : Type) `{Blobbable T} (wf : T → Prop) : Prop := {
  as_blob_settles : ∀ salt nonce x passphrase hint config,
    wf x → settles (as_blob salt nonce x passphrase hint config);
  blob_read_back : ∀ salt nonce x passphrase hint config blob,
    wf x → length salt = SALTBYTES →
    as_blob salt nonce x passphrase hint config = Ret (Ok blob) →
    from_blob blob passphrase config = Ret (Ok x) ∧ blob_type blob = type_of_blob;
}.

Definition seed_ok (seed : Seed) : Prop := length (buf seed) = SEED_SIZE.
Definition bundle_ok `{Sodium} (bundle : KeyBundle) : Prop :=
  pair_ok (sign_keys bundle) ∧ pair_ok (enc_keys bundle).

Section blob_lemmas.
Context `{SodiumLaws}.

#[export] Instance Seed_blobs : BlobLaws Seed seed_ok.
Proof.
  split.
  - intros. apply settles_bind; auto with dpki.
  - intros salt' nonce' [ty b] passphrase h config blob Hb Hs (t & Ht & [= <-])%hc_ok_bind.
    split; [|done]. cbn [from_blob Seed_Blobbable]. unfold Seed_from_blob.
    erewrite unblob_finalized by done. hc. unfold Seed_new. by rewrite asserted_true by by apply Nat.eqb_eq.
Qed.

#[export] Instance SigningKeyPair_blobs : BlobLaws SigningKeyPair pair_ok.
Proof.
  split.
  - intros salt' nonce' k passphrase h config Hk. cbn [as_blob SigningKeyPair_Blobbable].
    unfold SigningKeyPair_as_blob.
    destruct (pair_written SIGNING_KEY_BLOB_FORMAT_VERSION SIGNING_KEY_BLOB_SIZE_ALIGNED k Hk)
      as (pub & rest & _ & _ & _ & ->); [by vm_compute; lia|]. hc. apply settles_bind; auto with dpki.
  - intros salt' nonce' k passphrase h config blob Hk Hs. cbn [as_blob from_blob SigningKeyPair_Blobbable].
    unfold SigningKeyPair_as_blob, SigningKeyPair_from_blob.
    destruct (pair_written SIGNING_KEY_BLOB_FORMAT_VERSION SIGNING_KEY_BLOB_SIZE_ALIGNED k Hk)
      as (pub & rest & Hpub & Henc & Hlen & ->); [by vm_compute; lia|]. hc.
    intros (t & Ht & [= <-])%hc_ok_bind. split; [|done].
    erewrite unblob_finalized by done. hc. apply pair_read_written; [done..|]. apply Hk.
Qed.

#[export] Instance EncryptingKeyPair_blobs : BlobLaws EncryptingKeyPair pair_ok.
Proof.
  split.
  - intros salt' nonce' k passphrase h config Hk. cbn [as_blob EncryptingKeyPair_Blobbable].
    unfold EncryptingKeyPair_as_blob.
    destruct (pair_written ENCRYPTING_KEY_BLOB_FORMAT_VERSION ENCRYPTING_KEY_BLOB_SIZE_ALIGNED k Hk)
      as (pub & rest & _ & _ & _ & ->); [by vm_compute; lia|]. hc. apply settles_bind; auto with dpki.
  - intros salt' nonce' k passphrase h config blob Hk Hs. cbn [as_blob from_blob EncryptingKeyPair_Blobbable].
    unfold EncryptingKeyPair_as_blob, EncryptingKeyPair_from_blob.
    destruct (pair_written ENCRYPTING_KEY_BLOB_FORMAT_VERSION ENCRYPTING_KEY_BLOB_SIZE_ALIGNED k Hk)
      as (pub & rest & Hpub & Henc & Hlen & ->); [by vm_compute; lia|]. hc.
    intros (t & Ht & [= <-])%hc_ok_bind. split; [|done].
    erewrite unblob_finalized by done. hc. apply pair_read_written; [done..|]. apply Hk.
Qed.

Lemma bundle_written salt' nonce' b passphrase h config :
  bundle_ok b → ∃ sign_pub enc_pub rest,
    let data_buf := ([KEYBUNDLE_BLOB_FORMAT_VERSION] ++ sign_pub ++ enc_pub ++
      sign_private (sign_keys b) ++ enc_private (enc_keys b) ++ rest)%list in
    length sign_pub = sign_PUBLICKEYBYTES ∧ hcid_encode CODEC_HCS0 sign_pub = Ok (sign_public (sign_keys b)) ∧
    length enc_pub = kx_PUBLICKEYBYTES ∧ hcid_encode CODEC_HCK0 enc_pub = Ok (enc_public (enc_keys b)) ∧
    length data_buf = KEYBUNDLE_BLOB_SIZE_ALIGNED ∧
    KeyBundle_as_blob salt' nonce' b passphrase h config =
      (encoded_blob ← finalize_blobbing KEYBUNDLE_BLOB_SIZE_ALIGNED salt' nonce' data_buf passphrase config;
       mret {| blob_seed_type := SeedType_Mock; blob_type := BlobType_KeyBundle; hint := h;
               blob_data := encoded_blob |}).
Proof.
  intros [[(ps & Hps & Hes) Hs] [(pe & Hpe & Hee) He]].
  cbn [public private public_size private_size codec SigningKeyPair_KeyPair EncryptingKeyPair_KeyPair] in *.
  pose (sp := sign_private (sign_keys b)). pose (ep := enc_private (enc_keys b)). fold sp ep in Hs, He |- *.
  pose (r1 := drop 1 (secbuf KEYBUNDLE_BLOB_SIZE_ALIGNED)).
  assert (Hr1 : length r1 = 167) by (unfold r1; rewrite length_drop, secbuf_length; done).
  exists ps, pe, (drop (length ep) (drop (length sp) (drop (length pe) (drop (length ps) r1)))).
  unfold sign_PUBLICKEYBYTES, kx_PUBLICKEYBYTES, sign_SECRETKEYBYTES, kx_SECRETKEYBYTES in *.
  split_and!; try done.
  { rewrite !length_app, !length_drop. change KEYBUNDLE_BLOB_SIZE_ALIGNED with 168. simpl. lia. }
  unfold KeyBundle_as_blob, pair_decode_pub_key. cbn [public codec SigningKeyPair_KeyPair EncryptingKeyPair_KeyPair].
  rewrite (hcid_round_trip _ _ _ Hes), (hcid_round_trip _ _ _ Hee). fold sp ep.
  rewrite write_front by (rewrite secbuf_length; vm_compute; lia).
  change (drop (length [KEYBUNDLE_BLOB_FORMAT_VERSION]) (secbuf KEYBUNDLE_BLOB_SIZE_ALIGNED)) with r1. hc.
  unfold sign_PUBLICKEYBYTES, kx_PUBLICKEYBYTES, sign_SECRETKEYBYTES, kx_SECRETKEYBYTES.
  rewrite !(asserted_true (Nat.eqb 32 _)) by (rewrite ?Hps, ?Hpe; done). hc.
  rewrite (write_app [KEYBUNDLE_BLOB_FORMAT_VERSION] _ ps) by (simpl; lia). hc.
  rewrite (app_assoc [_] ps), (write_app _ _ pe) by (rewrite ?length_app, ?length_drop; simpl; lia). hc.
  rewrite (app_assoc _ pe), (write_app _ _ sp) by (rewrite ?length_app, ?length_drop; simpl; lia). hc.
  rewrite (app_assoc _ sp), (write_app _ _ ep) by (rewrite ?length_app, ?length_drop; simpl; lia). hc.
  by rewrite <- !app_assoc.
Qed.

#[export] Instance KeyBundle_blobs : BlobLaws KeyBundle bundle_ok.
Proof.
  split; intros salt' nonce' b passphrase h config.
  - intros Hb. cbn [as_blob KeyBundle_Blobbable].
    destruct (bundle_written salt' nonce' b passphrase h config Hb) as (? & ? & ? & _ & _ & _ & _ & _ & ->).
    apply settles_bind; auto with dpki.
  - intros blob Hb Hs. cbn [as_blob from_blob KeyBundle_Blobbable].
    destruct (bundle_written salt' nonce' b passphrase h config Hb)
      as (ps & pe & rest & Hps & Hes & Hpe & Hee & Hlen & ->).
    intros (t & Ht & [= <-])%hc_ok_bind. split; [|done]. unfold KeyBundle_from_blob.
    erewrite unblob_finalized by done. hc. clear Ht Hlen t.
    destruct b as [[tps sp] [tpe ep]], Hb as [[_ Hsp] [_ Hep]]. cbn [sign_keys enc_keys sign_private enc_private sign_public enc_public] in *.
    cbn [private private_size SigningKeyPair_KeyPair EncryptingKeyPair_KeyPair sign_private enc_private] in Hsp, Hep.
    assert (∀ l, byte_at ([KEYBUNDLE_BLOB_FORMAT_VERSION] ++ l)%list 0 = Ret (Ok KEYBUNDLE_BLOB_FORMAT_VERSION))
      as -> by done. hc. rewrite Z.eqb_refl. cbn [negb].
    unfold sign_PUBLICKEYBYTES, kx_PUBLICKEYBYTES, sign_SECRETKEYBYTES, kx_SECRETKEYBYTES in *.
    rewrite (slice_app [_] ps _ 1 33) by (simpl; lia). hc. rewrite write_secbuf by done. hc.
    rewrite (app_assoc [_] ps), (slice_app _ pe _ 33 65) by (rewrite ?length_app; simpl; lia). hc.
    rewrite write_secbuf by done. hc.
    rewrite (app_assoc _ pe), (slice_app _ sp _ 65 129) by (rewrite ?length_app; simpl; lia). hc.
    rewrite write_secbuf by done. hc.
    rewrite (app_assoc _ sp), (slice_app _ ep _ 129 161) by (rewrite ?length_app; simpl; lia). hc.
    rewrite write_secbuf by done. hc.
    unfold pair_encode_pub_key. rewrite !encode_whole by done.
    cbn [codec SigningKeyPair_KeyPair EncryptingKeyPair_KeyPair]. by rewrite Hes, Hee.
Qed.

End blob_lemmas.

Section dpki_theorems.
Context `{SodiumLaws}.

(** What is put in a blob under a passphrase is read back under it. *)
Definition kept {T} `{Blobbable T} (salt nonce passphrase : bytes) (hint : string)
    (config : option PwHashConfig) (x : T) : Prop :=
  settles (as_blob salt nonce x passphrase hint config) ∧
  ∀ blob, as_blob salt nonce x passphrase hint config = Ret (Ok blob) →
    from_blob blob passphrase config = Ret (Ok x).

Lemma blob_kept {T} `{BlobLaws T} salt' nonce' passphrase h config x :
  wf x → length salt' = SALTBYTES → kept salt' nonce' passphrase h config x.
Proof. split; [by apply as_blob_settles|]. intros blob Hb. by eapply blob_read_back. Qed.

(** Seeds, signing keys, encrypting keys and bundles of keys that are well formed
    (a seed of 32 bytes; pairs whose public key is the encoding of one and whose
    private key has its size) are kept by blobs: making the blob does not panic, and
    when it returns a blob, reading that with the same passphrase and the same hash
    settings returns the very secret. *)
Theorem blobs_read_back (salt nonce passphrase : bytes) (hint : string) (config : option PwHashConfig) :
  length salt = SALTBYTES →
  (∀ seed : Seed, length (buf seed) = SEED_SIZE → kept salt nonce passphrase hint config seed) ∧
  (∀ keys : SigningKeyPair, pair_ok keys → kept salt nonce passphrase hint config keys) ∧
  (∀ keys : EncryptingKeyPair, pair_ok keys → kept salt nonce passphrase hint config keys) ∧
  (∀ keys : KeyBundle, bundle_ok keys → kept salt nonce passphrase hint config keys).
Proof. intros Hs. split_and!; intros; eapply blob_kept; done. Qed.

(** *** Signatures *)

(** The key pair that a seed gives: what it signs verifies under its public key. *)
Lemma seed_pair_signs seed (keys : SigningKeyPair) message signature :
  new_from_seed seed = Ret (Ok keys) → SigningKeyPair_sign keys message = Ret (Ok signature) →
  verify_bufs (sign_public keys) message signature = Ret (Ok true) ∧
  SigningKeyPair_verify keys message signature = Ret (Ok true).
Proof.
  intros (_ & pub & Hg & Hp)%new_from_seed_ok [= Hs].
  assert (Hd : decode_pub_key (sign_public keys) CODEC_HCS0 = Ret (Ok pub)).
  { unfold decode_pub_key, lift. rewrite (hcid_round_trip CODEC_HCS0 pub (sign_public keys) Hp). hc.
    rewrite from_array_ok; [done|]. by apply sign_keypair_size in Hg as []. }
  unfold verify_bufs, SigningKeyPair_verify, decode_pub_key_into_secbuf. rewrite Hd.
  cbn [public codec SigningKeyPair_KeyPair]. rewrite Hd. hc.
  by rewrite (sign_verifies _ _ _ _ _ Hg Hs).
Qed.

Lemma bundle_from_seed seed b :
  KeyBundle_new_from_seed_buf seed = Ret (Ok b) →
  new_from_seed seed = Ret (Ok (sign_keys b)) ∧ new_from_seed seed = Ret (Ok (enc_keys b)) ∧ bundle_ok b.
Proof.
  intros (? & _ & Hb)%hc_ok_bind. apply hc_ok_bind in Hb as (sk & Hs & Hb).
  apply hc_ok_bind in Hb as (ek & He & [= <-]). cbn [sign_keys enc_keys].
  split_and!; try done. split; eapply new_from_seed_ok; done.
Qed.

(** The keys derived for an application from the seed of a device and a pin: when
    [generate_dna_key] returns a bundle, the index was not zero, the bundle is well
    formed, and all it signs is accepted by [verify_bufs] under the identifier of the
    bundle, as by the bundle itself. *)
Theorem derived_keys_sign (pin : Seed) (index : Z) (b : KeyBundle) (message signature : bytes) :
  generate_dna_key pin index = Ret (Ok b) → KeyBundle_sign b message = Ret (Ok signature) →
  index ≠ 0%Z ∧ bundle_ok b ∧ verify_bufs (get_id b) message signature = Ret (Ok true) ∧
  KeyBundle_verify b message signature = Ret (Ok true).
Proof.
  unfold generate_dna_key. destruct (Z.eqb_spec index 0) as [|Hi]; [done|]. intros Hb Hs.
  apply hc_ok_bind in Hb as (? & _ & Hb). apply hc_ok_bind in Hb as (? & _ & Hb).
  apply hc_ok_bind in Hb as (seed & _ & Hb). apply bundle_from_seed in Hb as (Hk & _ & Hok).
  by destruct (seed_pair_signs _ _ _ _ Hk Hs).
Qed.

(** *** Encryption with a bundle *)

(** A bundle does not decrypt what it encrypted to the message: the buffer it
    returns is 32 bytes longer, as its size is computed by adding the size of the
    authentication tag where it should be subtracted.  The message is followed by
    whatever these bytes of the new buffer were. *)
Theorem decrypted_is_padded (b : KeyBundle) (nonce message cipher : bytes) :
  length nonce = NONCEBYTES → aead_enc message (enc_private (enc_keys b)) nonce = Ok cipher →
  ∃ encrypted padding, KeyBundle_encrypt b nonce message = Ret (Ok encrypted) ∧
    KeyBundle_decrypt b encrypted = Ret (Ok (message ++ padding)%list) ∧ length padding = 32.
Proof.
  intros Hn He. pose proof (aead_enc_size _ _ _ _ He) as Hc.
  pose (size := length (cipher ++ nonce)%list + ABYTES - NONCEBYTES).
  assert (Hlen : length (cipher ++ nonce)%list = length message + ABYTES + NONCEBYTES)
    by (rewrite length_app; lia).
  exists (cipher ++ nonce)%list, (drop (length message) (secbuf size)). split_and!.
  - unfold KeyBundle_encrypt, EncryptingKeyPair_encrypt. rewrite He.
    by rewrite from_array_ok by (by rewrite secbuf_length).
  - unfold KeyBundle_decrypt, EncryptingKeyPair_decrypt. fold size.
    replace (Nat.ltb (length (cipher ++ nonce)%list + ABYTES) NONCEBYTES) with false
      by (symmetry; apply Nat.ltb_ge; lia).
    replace (Nat.ltb (length (cipher ++ nonce)%list) NONCEBYTES) with false
      by (symmetry; apply Nat.ltb_ge; lia).
    replace (length (cipher ++ nonce)%list - NONCEBYTES) with (length cipher) by lia.
    rewrite drop_app_length, take_app_length, !from_array_ok by done.
    rewrite (aead_round_trip _ _ _ _ _ He); [done|].
    rewrite secbuf_length. unfold size, ABYTES, NONCEBYTES in *. lia.
  - rewrite length_drop, secbuf_length. unfold size, ABYTES, NONCEBYTES in *. lia.
Qed.

(** *** Mnemonics *)

Lemma has_space_cons c word :
  has_space (String c word) = false ↔ c ≠ " "%char ∧ has_space word = false.
Proof.
  unfold has_space. rewrite !bool_decide_eq_false. cbn [String.list_ascii_of_string].
  rewrite not_elem_of_cons. by split; intros [? ?].
Qed.

Lemma split_spaces_cons c s : c ≠ " "%char →
  split_spaces (String c s) = match split_spaces s with
                              | part :: parts => String c part :: parts
                              | [] => []
                              end.
Proof. intros Hc. destruct c as [[] [] [] [] [] [] [] []]; done. Qed.

Lemma split_spaces_word word : has_space word = false → split_spaces word = [word].
Proof.
  induction word as [|c word IH]; [done|]. intros [Hc Hw]%has_space_cons.
  by rewrite split_spaces_cons, (IH Hw).
Qed.

Lemma split_spaces_app word rest : has_space word = false →
  split_spaces (word +:+ String " " rest) = word :: split_spaces rest.
Proof.
  induction word as [|c word IH]; [done|]. intros [Hc Hw]%has_space_cons.
  change (String c word +:+ String " " rest) with (String c (word +:+ String " " rest)).
  by rewrite split_spaces_cons, (IH Hw).
Qed.

Lemma split_spaces_concat words : words ≠ [] → Forall (λ word, has_space word = false) words →
  split_spaces (String.concat " " words) = words.
Proof.
  intros Hne. induction 1 as [|word words Hw Hws IH]; [done|].
  destruct words as [|word' words]; [by apply split_spaces_word|].
  change (String.concat " " (word :: word' :: words))
    with (word +:+ String " " (String.concat " " (word' :: words))).
  rewrite split_spaces_app by done. f_equal. by apply IH.
Qed.

Lemma string_app_assoc (a b c : string) : (a +:+ b) +:+ c = a +:+ b +:+ c.
Proof. induction a as [|x a IH]; [done|].
  change ((String x a +:+ b) +:+ c) with (String x ((a +:+ b) +:+ c)). by rewrite IH.
Qed.

Lemma concat_two a b : a ≠ [] → b ≠ [] →
  String.concat " " [String.concat " " a; String.concat " " b] = String.concat " " (a ++ b)%list.
Proof.
  intros Ha Hb. cbn [String.concat]. induction a as [|x a IH]; [done|].
  destruct a as [|y a].
  - destruct b; [done|]. done.
  - change (String.concat " " ((x :: y :: a) ++ b)%list)
      with (x +:+ " " +:+ String.concat " " ((y :: a) ++ b)%list).
    rewrite <- IH by done.
    change (String.concat " " (x :: y :: a)) with (x +:+ " " +:+ String.concat " " (y :: a)).
    by rewrite !string_app_assoc.
Qed.

Lemma chunks_two {A} n (a b : list A) : 0 < n → length a = n → length b = n →
  chunks n (a ++ b)%list = [a; b].
Proof.
  intros Hn Ha Hb. unfold chunks. rewrite length_app, Ha, Hb.
  destruct n as [|n]; [lia|]. destruct a as [|x a]; [done|]. destruct b as [|y b]; [done|].
  replace (S n + S n) with (S (S (n + n))) by lia. cbn [chunks_from app].
  rewrite <- Ha. change (x :: a ++ y :: b)%list with ((x :: a) ++ y :: b)%list.
  rewrite take_app_length, drop_app_length. rewrite Ha, <- Hb.
  rewrite take_ge, drop_ge by done. by destruct (n + n).
Qed.

(** The mnemonic of 64 bytes: two phrases of 24 words each. *)
Lemma phrases_of (entropy : bytes) : length entropy = SEED_SIZE + ABYTES + SALTBYTES →
  ∃ phrases words,
    each (λ sub_entropy, words ← expected (from_entropy sub_entropy); mret (String.concat " " words))
      (chunks SEED_SIZE entropy) = Ret (Ok phrases) ∧
    split_spaces (String.concat " " phrases) = words ∧ length words = 48 ∧
    ∃ entropies, each (λ chunk, expected (from_phrase (String.concat " " chunk))) (chunks 24 words) =
      Ret (Ok entropies) ∧ concat entropies = entropy.
Proof.
  intros Hl. pose (a := take SEED_SIZE entropy). pose (b := drop SEED_SIZE entropy).
  assert (Ha : length a = SEED_SIZE) by (unfold a; rewrite length_take, Hl; done).
  assert (Hb : length b = SEED_SIZE) by (unfold b; rewrite length_drop, Hl; done).
  assert (Hab : entropy = (a ++ b)%list) by (symmetry; apply take_drop).
  destruct (mnemonic_total a Ha) as [wa Hwa], (mnemonic_total b Hb) as [wb Hwb].
  destruct (mnemonic_words _ _ Hwa Ha) as [Hla Hsa], (mnemonic_words _ _ Hwb Hb) as [Hlb Hsb].
  assert (wa ≠ [] ∧ wb ≠ []) as [Hna Hnb] by (by destruct wa, wb).
  exists [String.concat " " wa; String.concat " " wb], (wa ++ wb)%list. split_and!.
  - rewrite Hab, chunks_two by (done || by vm_compute; lia). cbn [each]. rewrite Hwa, Hwb. done.
  - rewrite concat_two by done. apply split_spaces_concat; [by destruct wa|]. by apply Forall_app.
  - rewrite length_app. lia.
  - exists [a; b]. rewrite chunks_two by (done || lia). cbn [each].
    rewrite (mnemonic_round_trip _ _ Hwa), (mnemonic_round_trip _ _ Hwb). split; [done|].
    rewrite Hab. cbn [concat]. by rewrite app_nil_r.
Qed.

(** C22: An encrypted seed survives being written down: whatever a seed of 32 bytes is
    encrypted to has a mnemonic (no assertion fails), of 48 words; the encrypted seed
    made from the mnemonic is the same; and decrypting it with the passphrase gives
    the seed, as a seed of its type where there is one. *)
Theorem mnemonic_reads_back (salt : bytes) (seed : Seed) (passphrase : string)
    (config : option PwHashConfig) (e : EncryptedSeed) :
  length salt = SALTBYTES → length (buf seed) = SEED_SIZE →
  Seed_encrypt salt seed passphrase config = Ret (Ok e) →
  ∃ phrase, EncryptedSeed_get_mnemonic e = Ret (Ok phrase) ∧ length (split_spaces phrase) = 48 ∧
    EncryptedSeed_new_with_mnemonic phrase (kind seed) = Ret (Ok e) ∧
    EncryptedSeed_decrypt e passphrase config = into_typed seed.
Proof.
  intros Hs Hl (d & Hd & [= <-])%hc_ok_bind. unfold pw_enc_zero_nonce in Hd.
  rewrite write_secbuf in Hd by done. cbn [mbind Hc_bind lift] in Hd.
  assert (Hr : pw_dec d (bytes_of_string passphrase) (secbuf SEED_SIZE) config = Ret (Ok (buf seed))).
  { eapply pw_round_trip; [done| |done]. by rewrite secbuf_length. }
  apply hc_ok_bind in Hd as (secret & _ & Hd). apply hc_ok_bind in Hd as (c & Hc & [= <-]).
  injection Hc as Hc. apply aead_enc_size in Hc.
  assert (Hlen : length (c ++ salt)%list = SEED_SIZE + ABYTES + SALTBYTES) by (rewrite length_app; lia).
  destruct (phrases_of _ Hlen) as (phrases & words & Hp & Hw & Hn & entropies & He & Hcat).
  exists (String.concat " " phrases). split_and!.
  - unfold EncryptedSeed_get_mnemonic. cbn [encrypted_seed Dpki.cipher Dpki.salt].
    rewrite asserted_true by by apply Nat.eqb_eq. hc. by rewrite Hp.
  - by rewrite Hw.
  - unfold EncryptedSeed_new_with_mnemonic. rewrite Hw, He. hc. rewrite Hcat.
    rewrite asserted_true by by apply Nat.eqb_eq. hc.
    by rewrite take_app_length', drop_app_length' by lia.
  - unfold EncryptedSeed_decrypt. cbn [encrypted_seed encrypted_kind]. rewrite Hr. hc.
    cbn [new_with_initializer]. unfold Seed_new. rewrite asserted_true by by apply Nat.eqb_eq. hc.
    by destruct seed.
Qed.

End dpki_theorems.

(** ** A library that keeps the promises

    Encryption shifts the bytes by the sum of those of the key; texts are binary
    digits. *)

Fixpoint digits (p : positive) : string :=
  match p with
  | xH => ""
  | xO p => String "0" (digits p)
  | xI p => String "1" (digits p)
  end.

Fixpoint of_digits (s : string) : positive :=
  match s with
  | "" => xH
  | String "0" s => xO (of_digits s)
  | String _ s => xI (of_digits s)
  end.

Lemma of_digits_digits p : of_digits (digits p) = p.
Proof. induction p as [p IH|p IH|]; cbn; by rewrite ?IH. Qed.

Lemma digits_no_space p : has_space (digits p) = false.
Proof. induction p; [by apply has_space_cons..|done]. Qed.

Definition padded (n : nat) (b : bytes) : bytes := take n (b ++ replicate n 0%Z)%list.

Lemma length_padded n b : length (padded n b) = n.
Proof. unfold padded. rewrite length_take, length_app, length_replicate. lia. Qed.

Definition key_sum (key : bytes) : Z := foldr Z.add 0%Z key.

Lemma shift_back k (b : bytes) : Z.add (- k) <$> (Z.add k <$> b) = b.
Proof. induction b as [|x b IH]; [done|]. rewrite !fmap_cons, IH. f_equal. lia. Qed.

Definition toy_tag : bytes := replicate ABYTES 0%Z.

Lemma length_toy_tag : length toy_tag = ABYTES.
Proof. done. Qed.

Definition toy_error : HolochainError := HolochainError_ErrorGeneric "sodium".

Definition toy_decode {A} `{Countable A} (s : string) : Result HolochainError A :=
  match decode (of_digits s) with Some x => Ok x | None => Err toy_error end.

Lemma toy_decode_digits `{Countable A} (x : A) : toy_decode (digits (encode x)) = Ok x.
Proof. unfold toy_decode. by rewrite of_digits_digits, decode_encode. Qed.

#[export] Instance toy_sodium : Sodium := {|
  secbuf n := replicate n 0%Z;
  from_array n b := if Nat.eqb (length b) n then Ok b else Err toy_error;
  write buf offset b :=
    if Nat.leb (offset + length b) (length buf)
    then Ok (take offset buf ++ b ++ drop (offset + length b) buf)%list else Err toy_error;
  pwhash_sensitive := {| ops_limit := 4; mem_limit := 1024; pw_hash_algo := 2 |};
  pwhash_hash n password _ _ := Ok (padded n password);
  aead_enc plain key _ := Ok ((Z.add (key_sum key) <$> plain) ++ toy_tag)%list;
  aead_dec buf key _ c :=
    let plain := Z.add (- key_sum key) <$> take (length c - ABYTES) c in
    (if Nat.leb (length plain) (length buf) then (plain ++ drop (length plain) buf)%list else buf, Ok ());
  sign_seed_keypair seed := Ok (padded 32 seed, padded 64 (padded 32 seed));
  kx_seed_keypair seed := Ok (padded 32 seed, padded 32 seed);
  sign_sign message priv := Ok (take 32 priv ++ message)%list;
  sign_verify signature message pub := bool_decide (signature = (pub ++ message)%list);
  kdf_derive n index _ seed := Ok (padded n (Z.add index <$> seed));
  hcid_encode codec b :=
    Ok (match codec with CODEC_HCS0 => "HcS" | CODEC_HCK0 => "HcK" end +:+ digits (encode b));
  hcid_decode _ t :=
    match t with
    | String _ (String _ (String _ s)) => toy_decode s
    | _ => Err toy_error
    end;
  encrypted_text d := digits (encode (salt d, nonce d, cipher d));
  text_encrypted s :=
    '(s, n, c) ← toy_decode s;
    Ok {| salt := s; nonce := n; cipher := c |};
  from_entropy entropy := Ok (digits (encode entropy) :: replicate 23 "zoo");
  from_phrase phrase :=
    match split_spaces phrase with
    | word :: _ => map_err (λ _, "mnemonic") (toy_decode word)
    | [] => Err "mnemonic"
    end;
|}.

#[export] Instance toy_sodium_laws : SodiumLaws.
Proof.
  split; cbn -[padded digits encode decode toy_decode toy_tag replicate ABYTES split_spaces String.concat].
  - intros n. by rewrite length_replicate.
  - intros n b <-. by rewrite Nat.eqb_refl.
  - intros buf' offset b Hl. by destruct (Nat.leb_spec (offset + length b) (length buf')); [|lia].
  - intros plain key ? c buf' [= <-] Hl. rewrite length_app, length_fmap, length_toy_tag, Nat.add_sub.
    rewrite take_app_length' by by rewrite length_fmap. rewrite shift_back, ?length_fmap.
    by destruct (Nat.leb_spec (length plain) (length buf')); [|lia].
  - intros plain key ? c [= <-]. by rewrite length_app, length_fmap, length_toy_tag.
  - intros buf' key ? c. case_match eqn:He; [|done]. apply Nat.leb_le in He.
    rewrite length_app, length_drop. lia.
  - intros n ? ? ? b [= <-]. apply length_padded.
  - intros n ? ? ? b [= <-]. apply length_padded.
  - intros seed pub priv [= <- <-]. by rewrite !length_padded.
  - intros seed pub priv [= <- <-]. by rewrite !length_padded.
  - intros seed pub priv message signature [= <- <-] [= <-]. apply bool_decide_eq_true_2. f_equal.
    unfold padded at 1. rewrite take_take, take_app_le by (rewrite length_padded; simpl; lia).
    by rewrite take_ge by (rewrite length_padded; simpl; lia).
  - intros codec b t [= <-]. destruct codec; apply toy_decode_digits.
  - intros [s n c]. by rewrite toy_decode_digits.
  - intros entropy words [= <-]. rewrite split_spaces_concat.
    + by rewrite toy_decode_digits.
    + done.
    + constructor; [apply digits_no_space|]. by repeat constructor.
  - intros entropy _. by eexists.
  - intros entropy words [= <-] _. split; [done|].
    constructor; [apply digits_no_space|]. by repeat constructor.
Qed.

(** *** Examples *)

Definition toy_salt : bytes := replicate SALTBYTES 1%Z.
Definition toy_nonce : bytes := replicate NONCEBYTES 2%Z.
Definition toy_seed : Seed := {| kind := SeedType_Root; buf := replicate SEED_SIZE 7%Z |}.
Definition toy_pin : Seed := {| kind := SeedType_DevicePin; buf := replicate SEED_SIZE 5%Z |}.

Definition toy_bundle : KeyBundle :=
  match generate_dna_key toy_pin 1 with
  | Ret (Ok b) => b
  | _ => {| sign_keys := SigningKeyPair_new "" []; enc_keys := EncryptingKeyPair_new "" [] |}
  end.

Lemma blobs_read_back_witness :
  length toy_salt = SALTBYTES ∧ kept toy_salt toy_nonce [3%Z] "" None toy_seed.
Proof. split; [done|]. by apply (blobs_read_back toy_salt toy_nonce [3%Z] "" None). Defined.

Lemma derived_keys_sign_witness :
  generate_dna_key toy_pin 1 = Ret (Ok toy_bundle) ∧
  KeyBundle_sign toy_bundle [9%Z] = Ret (Ok (replicate 32 6%Z ++ [9%Z])%list) ∧
  verify_bufs (get_id toy_bundle) [9%Z] (replicate 32 6%Z ++ [9%Z])%list = Ret (Ok true).
Proof.
  assert (Hg : generate_dna_key toy_pin 1 = Ret (Ok toy_bundle)) by (vm_compute; reflexivity).
  assert (Hs : KeyBundle_sign toy_bundle [9%Z] = Ret (Ok (replicate 32 6%Z ++ [9%Z])%list))
    by (vm_compute; reflexivity).
  split; [done|]. split; [done|]. apply (derived_keys_sign toy_pin 1 toy_bundle _ _ Hg Hs).
Defined.

Lemma decrypted_is_padded_witness :
  length toy_nonce = NONCEBYTES ∧ ∃ encrypted padding,
    KeyBundle_encrypt toy_bundle toy_nonce [72%Z; 105%Z] = Ret (Ok encrypted) ∧
    KeyBundle_decrypt toy_bundle encrypted = Ret (Ok ([72%Z; 105%Z] ++ padding)%list) ∧
    length padding = 32.
Proof.
  split; [done|]. by eapply (decrypted_is_padded toy_bundle toy_nonce [72%Z; 105%Z]).
Defined.

Lemma mnemonic_reads_back_witness : ∃ e phrase,
  Seed_encrypt toy_salt toy_seed "pass" None = Ret (Ok e) ∧
  EncryptedSeed_get_mnemonic e = Ret (Ok phrase) ∧
  EncryptedSeed_new_with_mnemonic phrase SeedType_Root = Ret (Ok e) ∧
  EncryptedSeed_decrypt e "pass" None = Ret (Ok (TypedSeed_Root toy_seed)).
Proof.
  eexists. edestruct (mnemonic_reads_back toy_salt toy_seed "pass" None) as (phrase & Hp & _ & Hn & Hd);
    [done|done|reflexivity|].
  exists phrase. split; [reflexivity|]. split; [exact Hp|]. split; [exact Hn|]. exact Hd.
Defined.
