(* ===== verification/Keystores.v ===== *)
(** * Keystores

    Models [src/crates/conductor_lib/src/keystore.rs], the passphrase manager of
    [conductor/passphrase_manager.rs], [key_loaders.rs], and the remote calls of
    [with_agent_keystore_functions] in [interface.rs].

    An operation is a program over a [World]: the keystore at hand, the passphrase
    manager it shares with others, how many random buffers were drawn, and the files.
    It returns a value or an error or panics; what it changed by then stays changed.
    Secrets are never changed once made, so [Arc<Mutex<Secret>>] is the secret.
    Passphrase services, random bytes, base64 and JSON are operations of the class
    [KeystoreEnv].

    The theorems: as long as the service gives the same passphrase, no sequence of
    operations, [change_passphrase] included, changes or loses a secret ([keystores_keep_secrets]), restarting
    included ([secrets_survive_restart]), and what a key derived from a seed signs
    verifies under the public key it was announced with ([keystore_signatures_verify]).
    A wrong passphrase is not refused when a secret is added
    ([wrong_passphrase_not_refused]), changing the passphrase leaves the secrets behind
    when the service then gives the new one ([changed_passphrase_strands_secrets]), and a seed of another size than 32 bytes
    panics ([odd_seed_panics]). *)

From S2P Require Import Prelude Errors Ribosome Rpc Dpki.
From Stdlib Require Import Ascii.

Local Open Scope string_scope.
Local Open Scope nat_scope.

(** ** Secrets and keystores *)

Definition PCHECK_HEADER_SIZE : nat := 8.
Definition PCHECK_HEADER : bytes := bytes_of_string "PHCCHECK".
Definition PCHECK_RANDOM_SIZE : nat := 32.
Definition PCHECK_SIZE : nat := PCHECK_RANDOM_SIZE + PCHECK_HEADER_SIZE.
Definition KEYBUNDLE_SIGNKEY_SUFFIX : string := ":sign_key".
Definition KEYBUNDLE_ENCKEY_SUFFIX : string := ":enc_key".
Definition PRIMARY_KEYBUNDLE_ID : string := "primary_keybundle".
Definition STANDALONE_ROOT_SEED : string := "root_seed".
Definition DEFAULT_PASSPHRASE : string := "convenient and insecure keystore".
Definition PASSPHRASE_CACHE_DURATION_SECS : Z := 600.

Inductive Secret : Type :=
| Secret_SigningKey (keys : SigningKeyPair)
| Secret_EncryptingKey (keys : EncryptingKeyPair)
| Secret_Seed (seed : bytes).

Inductive KeyType : Type := KeyType_Signing | KeyType_Encrypting.

(** Whether the manager is set is all that [passphrase_manager] holds here; the
    manager is in the world. *)
Record Keystore : Type := {
  passphrase_check : string;
  secrets : gmap string KeyBlob;
  cache : gmap string Secret;
  passphrase_manager : bool;
  hash_config : option PwHashConfig;
}.

(** [requests] counts what the service was asked; instants are in nanoseconds. *)
Record PassphraseManager : Type := {
  passphrase_cache : option bytes;
  requests : nat;
  last_read : Z;
}.

Record World : Type := {
  keystore : Keystore;
  manager : PassphraseManager;
  draws : nat;
  files : gmap string string;
  now : Z;
}.

Class KeystoreEnv : Type := {
  (** The answer of the passphrase service to its n-th request. *)
  request_passphrase : nat → Result HolochainError bytes;
  (** The n-th random buffer, of a size. *)
  random : nat → nat → bytes;
  hash_interactive : PwHashConfig;
  base64 : bytes → string;
  base64_bytes : string → option bytes;
  error_debug : HolochainError → string;
  error_text : HolochainError → string;
  params_debug : gmap string Value → string;
  (** [serde_json] of the fields of a keystore that are saved. *)
  keystore_text : string → gmap string KeyBlob → string;
  text_keystore : string → Result HolochainError (string * gmap string KeyBlob);
  (** The error of opening a file that does not exist, and creating one. *)
  open_error : string → HolochainError;
  create_file : string → Result HolochainError ();
  sha256 : nat → bytes → Result HolochainError bytes;
}.

(** ** Programs *)

Definition K (E A : Type) : Type := World → Outcome (Result E A) * World.

#[export] Instance K_ret {E} : MRet (K E) := λ _ x w, (Ret (Ok x), w).
#[export] Instance K_bind {E} : MBind (K E) := λ _ _ f m w,
  match m w with
  | (Ret (Ok x), w) => f x w
  | (Ret (Err e), w) => (Ret (Err e), w)
  | (Panic, w) => (Panic, w)
  | (NoFuel, w) => (NoFuel, w)
  end.

Definition read {E A} (f : World → A) : K E A := λ w, (Ret (Ok (f w)), w).
Definition fails {E A} (e : E) : K E A := λ w, (Ret (Err e), w).
Definition panics {E A} : K E A := λ w, (Panic, w).
Definition from {E A} (r : Result E A) : K E A := λ w, (Ret r, w).
Definition run {A} (m : Hc A) : K HolochainError A := λ w, (m, w).

(** [map_err] and [==] on the result of a call. *)
Definition mapping_err {E F A} (f : E → F) (m : K E A) : K F A := λ w,
  match m w with
  | (Ret r, w) => (Ret (map_err f r), w)
  | (Panic, w) => (Panic, w)
  | (NoFuel, w) => (NoFuel, w)
  end.

Definition attempt {E A} (m : K E A) : K E (Result E A) := λ w,
  match m w with
  | (Ret r, w) => (Ret (Ok r), w)
  | (Panic, w) => (Panic, w)
  | (NoFuel, w) => (NoFuel, w)
  end.

(** [unwrap] on the result of a call. *)
Definition unwrapped {E F A} (m : K E A) : K F A := λ w,
  match m w with
  | (Ret (Ok x), w) => (Ret (Ok x), w)
  | (Ret (Err _), w) => (Panic, w)
  | (Panic, w) => (Panic, w)
  | (NoFuel, w) => (NoFuel, w)
  end.

Definition set_keystore {E} (k : Keystore) : K E () := λ w,
  (Ret (Ok ()), {| keystore := k; manager := manager w; draws := draws w; files := files w; now := now w |}).
Definition set_manager {E} (m : PassphraseManager) : K E () := λ w,
  (Ret (Ok ()), {| keystore := keystore w; manager := m; draws := draws w; files := files w; now := now w |}).
Definition set_file {E} (path contents : string) : K E () := λ w,
  (Ret (Ok ()), {| keystore := keystore w; manager := manager w; draws := draws w;
                   files := <[path := contents]> (files w); now := now w |}).

Definition cache_insert {E} (id : string) (secret : Secret) : K E () :=
  k ← read keystore;
  set_keystore {| passphrase_check := passphrase_check k; secrets := secrets k;
                  cache := <[id := secret]> (cache k);
                  passphrase_manager := passphrase_manager k; hash_config := hash_config k |}.
Definition secrets_insert {E} (id : string) (blob : KeyBlob) : K E () :=
  k ← read keystore;
  set_keystore {| passphrase_check := passphrase_check k; secrets := <[id := blob]> (secrets k);
                  cache := cache k;
                  passphrase_manager := passphrase_manager k; hash_config := hash_config k |}.
Definition set_passphrase_check {E} (check : string) : K E () :=
  k ← read keystore;
  set_keystore {| passphrase_check := check; secrets := secrets k; cache := cache k;
                  passphrase_manager := passphrase_manager k; hash_config := hash_config k |}.

Section keystore.
Context `{Sodium} `{KeystoreEnv}.

(** A random buffer of a size. *)
Definition draw {E} (size : nat) : K E bytes := λ w,
  (Ret (Ok (random (draws w) size)),
   {| keystore := keystore w; manager := manager w; draws := S (draws w); files := files w; now := now w |}).

(** ** passphrase_manager.rs *)

Definition PassphraseManager_new (now : Z) : PassphraseManager :=
  {| passphrase_cache := None; requests := 0; last_read := now |}.

Definition get_passphrase : K HolochainError bytes :=
  m ← read manager;
  passphrase ←
    match passphrase_cache m with
    | Some passphrase => mret passphrase
    | None =>
        set_manager {| passphrase_cache := None; requests := S (requests m); last_read := last_read m |};;
        from (request_passphrase (requests m))
    end;
  m ← read manager;
  now ← read now;
  set_manager {| passphrase_cache := Some passphrase; requests := requests m; last_read := now |};;
  run (lift (write (secbuf (length passphrase)) 0 passphrase)).

Definition forget_passphrase {E} : K E () :=
  m ← read manager;
  set_manager {| passphrase_cache := None; requests := requests m; last_read := last_read m |}.

(** An iteration of the thread of the manager. *)
Definition manager_iteration {E} : K E () :=
  m ← read manager;
  now ← read now;
  match passphrase_cache m with
  | Some _ =>
      if (PASSPHRASE_CACHE_DURATION_SECS * 1000000000 <? now - last_read m)%Z
      then forget_passphrase else mret ()
  | None => mret ()
  end.

(** ** keystore.rs *)

Definition error {A} (message : string) : K HolochainError A := fails (HolochainError_ErrorGeneric message).

(** [passphrase_manager.as_ref()?.get_passphrase()?] *)
Definition ask_passphrase : K HolochainError bytes :=
  k ← read keystore;
  if passphrase_manager k then get_passphrase else error "Expected Some and got None".

Definition test_hash_config : option PwHashConfig := Some hash_interactive.

Definition make_passphrase_check (passphrase : bytes) (hash_config : option PwHashConfig) :
    K HolochainError string :=
  check_buf ← draw PCHECK_SIZE;
  check_buf ← run (expected (write check_buf 0 PCHECK_HEADER));
  salt ← draw SALTBYTES;
  nonce ← draw NONCEBYTES;
  run (encrypt_with_passphrase_buf salt nonce check_buf passphrase hash_config).

Definition Keystore_new (hash_config : option PwHashConfig) : K HolochainError Keystore :=
  let hash_config := match hash_config with None => test_hash_config | Some _ => hash_config end in
  passphrase ← get_passphrase;
  passphrase_check ← make_passphrase_check passphrase hash_config;
  mret {| passphrase_check := passphrase_check; secrets := ∅; cache := ∅;
          passphrase_manager := true; hash_config := hash_config |}.

Definition new_from_file (path : string) (hash_config : option PwHashConfig) : K HolochainError Keystore :=
  files ← read files;
  contents ← from (ok_or (open_error path) (files !! path));
  '(passphrase_check, secrets) ← from (text_keystore contents);
  mret {| passphrase_check := passphrase_check; secrets := secrets; cache := ∅;
          passphrase_manager := true;
          hash_config := match hash_config with Some _ => hash_config | None => test_hash_config end |}.

Definition check_passphrase (self : Keystore) (passphrase : bytes) : Hc bool :=
  decrypted_buf ← decrypt_with_passphrase_buf (passphrase_check self) passphrase (hash_config self) PCHECK_SIZE;
  header ← slice decrypted_buf 0 PCHECK_HEADER_SIZE;
  decrypted_header ← lift (write (secbuf PCHECK_HEADER_SIZE) 0 header);
  expected_header ← lift (write (secbuf PCHECK_HEADER_SIZE) 0 PCHECK_HEADER);
  mret (bool_decide (decrypted_header = expected_header)).

Definition change_passphrase (old_passphrase new_passphrase : bytes) : K HolochainError () :=
  k ← read keystore;
  good ← run (check_passphrase k old_passphrase);
  if negb good then error "Bad passphrase"
  else
    check ← make_passphrase_check new_passphrase (hash_config k);
    set_passphrase_check check.

Definition inner_decrypt (self : Keystore) (blob : KeyBlob) (passphrase : bytes) : Hc Secret :=
  match blob_type blob with
  | BlobType_Seed =>
      seed ← Seed_from_blob blob passphrase (hash_config self);
      mret (Secret_Seed (buf seed))
  | BlobType_SigningKey =>
      keys ← SigningKeyPair_from_blob blob passphrase (hash_config self);
      mret (Secret_SigningKey keys)
  | BlobType_EncryptingKey =>
      keys ← EncryptingKeyPair_from_blob blob passphrase (hash_config self);
      mret (Secret_EncryptingKey keys)
  | BlobType_KeyBundle => failing "Tried to decrypt unsupported BlobType in Keystore: {}"
  end.

Definition decrypt (id_str : string) : K HolochainError () :=
  k ← read keystore;
  blob ← from (ok_or (HolochainError_new "Secret not found") (secrets k !! id_str));
  let default_passphrase := bytes_of_string DEFAULT_PASSPHRASE in
  checked ← attempt (run (check_passphrase k default_passphrase));
  maybe_secret ←
    match checked with
    | Ok true => attempt (run (inner_decrypt k blob default_passphrase))
    | _ =>
        passphrase ← ask_passphrase;
        attempt (run (inner_decrypt k blob passphrase))
    end;
  secret ← from (map_err (λ err, HolochainError_ErrorGeneric
    ("Could not decrypt '" +:+ id_str +:+ "': " +:+ error_debug err)) maybe_secret);
  cache_insert id_str secret.

(** The salt and the nonce are drawn by [as_blob]. *)
Definition encrypt (id_str : string) : K HolochainError () :=
  k ← read keystore;
  secret ← from (ok_or (HolochainError_new "Secret not found") (cache k !! id_str));
  passphrase ← ask_passphrase;
  _ ← run (check_passphrase k passphrase);
  salt ← draw SALTBYTES;
  nonce ← draw NONCEBYTES;
  blob ←
    match secret with
    | Secret_Seed buf =>
        owned_buf ← run (lift (write (secbuf (length buf)) 0 buf));
        seed ← run (Seed_new owned_buf SeedType_OneShot);
        run (as_blob salt nonce seed passphrase "" (hash_config k))
    | Secret_SigningKey key => run (as_blob salt nonce key passphrase "" (hash_config k))
    | Secret_EncryptingKey key => run (as_blob salt nonce key passphrase "" (hash_config k))
    end;
  secrets_insert id_str blob.

Definition save (path : string) : K HolochainError () :=
  k ← read keystore;
  let json_string := keystore_text (passphrase_check k) (secrets k) in
  from (create_file path);;
  set_file path json_string.

(** The keys of a [BTreeMap] come in order. *)
Fixpoint insert_in_order (x : string) (l : list string) : list string :=
  match l with
  | [] => [x]
  | y :: l' => if String.leb x y then x :: l else y :: insert_in_order x l'
  end.

Definition list_secrets (self : Keystore) : list string :=
  foldr insert_in_order [] (map_to_list (secrets self)).*1.

Definition check_dst_identifier (dst_id_str : string) : K HolochainError string :=
  k ← read keystore;
  match secrets k !! dst_id_str with
  | Some _ => error "identifier already exists"
  | None => mret dst_id_str
  end.

Definition add (dst_id_str : string) (secret : Secret) : K HolochainError () :=
  dst_id ← check_dst_identifier dst_id_str;
  cache_insert dst_id secret;;
  encrypt dst_id.

Definition add_random_seed (dst_id_str : string) (size : nat) : K HolochainError () :=
  seed_buf ← draw size;
  add dst_id_str (Secret_Seed seed_buf).

Definition add_seed (dst_id_str : string) (seed : bytes) : K HolochainError () :=
  seed_buf ← from (from_array (length seed) seed);
  add dst_id_str (Secret_Seed seed_buf).

Definition get (src_id_str : string) : K HolochainError Secret :=
  k ← read keystore;
  match secrets k !! src_id_str with
  | None => error "unknown source identifier"
  | Some _ =>
      match cache k !! src_id_str with
      | None => decrypt src_id_str
      | Some _ => mret ()
      end;;
      k ← read keystore;
      match cache k !! src_id_str with
      | Some secret => mret secret
      | None => panics
      end
  end.

Definition check_identifiers (src_id_str dst_id_str : string) : K HolochainError (Secret * string) :=
  dst_id ← check_dst_identifier dst_id_str;
  src_secret ← get src_id_str;
  mret (src_secret, dst_id).

Definition add_seed_from_seed (src_id_str dst_id_str : string) (context : bytes) (index : Z) :
    K HolochainError () :=
  '(src_secret, dst_id) ← check_identifiers src_id_str dst_id_str;
  secret ←
    match src_secret with
    | Secret_Seed src =>
        seed ← run (generate_derived_seed_buf src context index SEED_SIZE);
        mret (Secret_Seed seed)
    | _ => error "source secret is not a root seed"
    end;
  cache_insert dst_id secret;;
  encrypt dst_id.

Definition add_key_from_seed (src_id_str dst_id_str : string) (key_type : KeyType) :
    K HolochainError string :=
  '(src_secret, dst_id) ← check_identifiers src_id_str dst_id_str;
  '(secret, public_key) ←
    match src_secret with
    | Secret_Seed seed_buf =>
        match key_type with
        | KeyType_Signing =>
            key_pair ← run (new_from_seed seed_buf);
            mret (Secret_SigningKey key_pair, sign_public key_pair)
        | KeyType_Encrypting =>
            key_pair ← run (new_from_seed seed_buf);
            mret (Secret_EncryptingKey key_pair, enc_public key_pair)
        end
    | _ => error "source secret is not a seed"
    end;
  cache_insert dst_id secret;;
  encrypt dst_id;;
  mret public_key.

Definition add_signing_key_from_seed (src_id_str dst_id_str : string) : K HolochainError string :=
  add_key_from_seed src_id_str dst_id_str KeyType_Signing.

Definition add_encrypting_key_from_seed (src_id_str dst_id_str : string) : K HolochainError string :=
  add_key_from_seed src_id_str dst_id_str KeyType_Encrypting.

Definition add_keybundle_from_seed (src_id_str dst_id_prefix_str : string) :
    K HolochainError (string * string) :=
  let dst_sign_id_str := dst_id_prefix_str +:+ KEYBUNDLE_SIGNKEY_SUFFIX in
  let dst_enc_id_str := dst_id_prefix_str +:+ KEYBUNDLE_ENCKEY_SUFFIX in
  sign_pub_key ← add_key_from_seed src_id_str dst_sign_id_str KeyType_Signing;
  enc_pub_key ← add_key_from_seed src_id_str dst_enc_id_str KeyType_Encrypting;
  mret (sign_pub_key, enc_pub_key).

Definition add_keybundle (dst_id_prefix_str : string) (keybundle : KeyBundle) : K HolochainError () :=
  let dst_sign_id_str := dst_id_prefix_str +:+ KEYBUNDLE_SIGNKEY_SUFFIX in
  let dst_enc_id_str := dst_id_prefix_str +:+ KEYBUNDLE_ENCKEY_SUFFIX in
  sign_keypair ← run (new_from_self (sign_keys keybundle));
  enc_keypair ← run (new_from_self (enc_keys keybundle));
  add dst_sign_id_str (Secret_SigningKey sign_keypair);;
  add dst_enc_id_str (Secret_EncryptingKey enc_keypair).

Definition get_keybundle (src_id_prefix_str : string) : K HolochainError KeyBundle :=
  let src_sign_id_str := src_id_prefix_str +:+ KEYBUNDLE_SIGNKEY_SUFFIX in
  let src_enc_id_str := src_id_prefix_str +:+ KEYBUNDLE_ENCKEY_SUFFIX in
  sign_secret ← get src_sign_id_str;
  sign_key ←
    match sign_secret with
    | Secret_SigningKey key_pair => run (new_from_self key_pair)
    | _ => error "source secret is not a signing key"
    end;
  enc_secret ← get src_enc_id_str;
  enc_key ←
    match enc_secret with
    | Secret_EncryptingKey key_pair => run (new_from_self key_pair)
    | _ => error "source secret is not an encrypting key"
    end;
  mret {| sign_keys := sign_key; enc_keys := enc_key |}.

Definition sign (src_id_str data : string) : K HolochainError string :=
  src_secret ← get src_id_str;
  match src_secret with
  | Secret_SigningKey key_pair =>
      signature_buf ← run (SigningKeyPair_sign key_pair (bytes_of_string data));
      mret (base64 signature_buf)
  | _ => error "source secret is not a signing key"
  end.

(** The keystore of the world is the new one from here on. *)
Definition new_standalone (hash_config : option PwHashConfig) : K HolochainError (Keystore * string) :=
  keystore' ← Keystore_new hash_config;
  set_keystore keystore';;
  add_random_seed STANDALONE_ROOT_SEED SEED_SIZE;;
  '(pub_key, _) ← add_keybundle_from_seed STANDALONE_ROOT_SEED PRIMARY_KEYBUNDLE_ID;
  keystore' ← read keystore;
  mret (keystore', pub_key).

(** ** key_loaders.rs *)

(** The manager of the world is the one of a mock service. *)
Definition test_keystore (agent_name : string) : K HolochainError Keystore :=
  keystore' ← unwrapped (Keystore_new test_hash_config);
  set_keystore keystore';;
  seed ← run (expected (sha256 SEED_SIZE (bytes_of_string agent_name)));
  unwrapped (add "root_seed" (Secret_Seed seed));;
  _ ← unwrapped (add_keybundle_from_seed "root_seed" PRIMARY_KEYBUNDLE_ID);
  read keystore.

End keystore.

(** ** with_agent_keystore_functions of interface.rs *)

Definition ascii_lower (c : ascii) : ascii :=
  let n := N_of_ascii c in
  if (65 <=? n)%N && (n <=? 90)%N then ascii_of_N (n + 32) else c.

(** [to_lowercase] as far as the names of the key types go: no other letters become
    theirs. *)
Fixpoint to_lowercase (s : string) : string :=
  match s with
  | "" => ""
  | String c s => String (ascii_lower c) (to_lowercase s)
  end.

Definition ISIZE_MAX : Z := 2 ^ 63 - 1.

Section rpc.
Context `{Sodium} `{KeystoreEnv}.

Definition internal_error : RpcError := RpcError_InternalError "Internal error".
Definition success : Value := Value_Object [("success", Value_Bool true)].

Definition rpc_list (params : Params) : K RpcError Value :=
  k ← read keystore;
  mret (Value_Array (Value_String <$> list_secrets k)).

(** [generate_random_buf] cannot allocate more than [isize::MAX] bytes. *)
Definition rpc_add_random_seed (params : Params) : K RpcError Value :=
  params_map ← from (unwrap_params_map params);
  id ← from (get_as_string "dst_id" params_map);
  size ← from (get_as_int "size" params_map);
  let size := u64_wrap size in
  if (ISIZE_MAX <? size)%Z then panics
  else
    mapping_err (λ _, internal_error) (add_random_seed id (Z.to_nat size));;
    mret success.

Definition rpc_add_seed_from_seed (params : Params) : K RpcError Value :=
  params_map ← from (unwrap_params_map params);
  src_id ← from (get_as_string "src_id" params_map);
  dst_id ← from (get_as_string "dst_id" params_map);
  context ← from (get_as_string "context" params_map);
  index ← from (get_as_int "index" params_map);
  let context_bytes := bytes_of_string context in
  if negb (Nat.eqb (length context_bytes) 8) then
    fails (RpcError_InvalidParams "`context` has to be 8 bytes")
  else
    seed_context ← mapping_err (λ _, internal_error) (run (SeedContext_new context_bytes));
    mapping_err (λ _, internal_error) (add_seed_from_seed src_id dst_id seed_context (u64_wrap index));;
    mret success.

Definition rpc_add_key_from_seed (params : Params) : K RpcError Value :=
  params_map ← from (unwrap_params_map params);
  src_id ← from (get_as_string "src_id" params_map);
  dst_id ← from (get_as_string "dst_id" params_map);
  key_type_string ← from (get_as_string "key_type" params_map);
  key_type ←
    (if decide (to_lowercase key_type_string = "signing") then mret KeyType_Signing
     else if decide (to_lowercase key_type_string = "encrypting") then mret KeyType_Encrypting
     else fails (RpcError_InvalidParams
       ("`key_type` has to be one of 'signing' or 'encrypting'. params were: " +:+ params_debug params_map)));
  pub_key ← mapping_err (λ _, internal_error) (add_key_from_seed src_id dst_id key_type);
  mret (Value_Object [("pub_key", Value_String pub_key)]).

Definition rpc_sign (params : Params) : K RpcError Value :=
  params_map ← from (unwrap_params_map params);
  src_id ← from (get_as_string "src_id" params_map);
  payload ← from (get_as_string "payload" params_map);
  signature ← mapping_err (λ _, internal_error) (sign src_id payload);
  mret (Value_Object [("signature", Value_String signature)]).

Definition in_quotes (s : string) : string :=
  String (ascii_of_nat 34) (s +:+ String (ascii_of_nat 34) "").

Definition rpc_get_public_key (params : Params) : K RpcError Value :=
  params_map ← from (unwrap_params_map params);
  src_id ← from (get_as_string "src_id" params_map);
  secret ← mapping_err (λ err, RpcError_InvalidParams
    ("error getting " +:+ in_quotes src_id +:+ ": " +:+ error_text err)) (get src_id);
  pub_key ←
    match secret with
    | Secret_SigningKey keypair => mret (sign_public keypair)
    | Secret_EncryptingKey keypair => mret (enc_public keypair)
    | _ => fails (RpcError_InvalidParams (in_quotes src_id +:+ " must be a signing or encrypting key"))
    end;
  mret (Value_Object [("pub_key", Value_String pub_key)]).

(** The methods by their names. *)
Definition keystore_method (method : string) (params : Params) : K RpcError Value :=
  if decide (method = "agent/keystore/list") then rpc_list params
  else if decide (method = "agent/keystore/add_random_seed") then rpc_add_random_seed params
  else if decide (method = "agent/keystore/add_seed_from_seed") then rpc_add_seed_from_seed params
  else if decide (method = "agent/keystore/add_key_from_seed") then rpc_add_key_from_seed params
  else if decide (method = "agent/keystore/sign") then rpc_sign params
  else if decide (method = "agent/keystore/get_public_key") then rpc_get_public_key params
  else fails RpcError_MethodNotFound.

End rpc.

(** ** Keystores with one passphrase *)

(** What is relied on of the environment. *)
Class KeystoreLaws `{KeystoreEnv} : Prop := {
  random_length : ∀ i n, length (random i n) = n;
  base64_round_trip : ∀ b, base64_bytes (base64 b) = Some b;
  keystore_round_trip : ∀ check blobs, text_keystore (keystore_text check blobs) = Ok (check, blobs);
}.

(** Pairs in the cache are well formed; seeds may have any size. *)
Definition secret_ok `{Sodium} (s : Secret) : Prop :=
  match s with
  | Secret_SigningKey keys => pair_ok keys
  | Secret_EncryptingKey keys => pair_ok keys
  | Secret_Seed _ => True
  end.

(** A keystore holds a secret under a name if its blob can be read with the passphrase. *)
Definition stored `{Sodium} (p : bytes) (k : Keystore) (id : string) (s : Secret) : Prop :=
  ∃ blob, secrets k !! id = Some blob ∧ inner_decrypt k blob p = Ret (Ok s).

(** [passphrase_check] was made with a passphrase. *)
Definition made_with `{Sodium} (c : bytes) (k : Keystore) : Prop :=
  ∃ salt nonce b, length salt = SALTBYTES ∧ length b = PCHECK_SIZE ∧
    take PCHECK_HEADER_SIZE b = PCHECK_HEADER ∧
    encrypt_with_passphrase_buf salt nonce b c (hash_config k) = Ret (Ok (passphrase_check k)).

(** [passphrase_check] was made with some passphrase, and the default passphrase
    passes it only if it is the one the service gives. *)
Record check_ok `{Sodium} (p : bytes) (k : Keystore) : Prop := {
  check_made : ∃ c, made_with c k;
  check_default : check_passphrase k (bytes_of_string DEFAULT_PASSPHRASE) = Ret (Ok true) →
    bytes_of_string DEFAULT_PASSPHRASE = p;
}.

(** The invariant of a keystore with the passphrase [p]: every blob can be read, and
    what is cached for it is what it holds. *)
Record coherent `{Sodium} (p : bytes) (w : World) : Prop := {
  co_manager : passphrase_manager (keystore w) = true;
  co_passphrase : ∀ q, passphrase_cache (manager w) = Some q → q = p;
  co_check : check_ok p (keystore w);
  co_secrets : map_Forall (λ id _, ∃ s, stored p (keystore w) id s ∧
    (∀ c, cache (keystore w) !! id = Some c → c = s)) (secrets (keystore w));
  co_cache : map_Forall (λ _ s, secret_ok s) (cache (keystore w));
}.

(** What operations leave of a keystore: nothing that was stored is lost or changed. *)
Record grows (k k' : Keystore) : Prop := {
  grows_config : hash_config k' = hash_config k;
  grows_secrets : secrets k ⊆ secrets k';
}.

#[export] Instance grows_preorder : PreOrder grows.
Proof.
  split; [by intros k|]. intros k1 k2 k3 [H1 H2] [H3 H4]. split; [congruence|by etrans].
Qed.

(** From a coherent world, a program ends in a coherent one that has grown, also when
    it fails or panics; and if it returns, [Q] holds. *)
Definition spec `{Sodium} {E A} (p : bytes) (m : K E A) (w : World) (Q : A → World → Prop) : Prop :=
  coherent p (m w).2 ∧ grows (keystore w) (keystore (m w).2) ∧
  match (m w).1 with Ret (Ok x) => Q x (m w).2 | _ => True end.

Section spec_lemmas.
Context `{Sodium} (p : bytes).

Lemma stored_grows k k' id s : grows k k' → stored p k id s → stored p k' id s.
Proof.
  intros [Hc Hs] (blob & Hb & Hd). exists blob. split; [by eapply lookup_weaken|].
  unfold inner_decrypt in *. by rewrite Hc.
Qed.

Lemma spec_ret {E A} (x : A) w (Q : A → World → Prop) : coherent p w → Q x w → spec (E := E) p (mret x) w Q.
Proof. intros. by split; [|split]. Qed.

Lemma spec_from {E A} (r : Result E A) w (Q : A → World → Prop) :
  coherent p w → (∀ x, r = Ok x → Q x w) → spec p (from r) w Q.
Proof. intros Hw HQ. split; [done|]. split; [done|]. destruct r; naive_solver. Qed.

Lemma spec_run {A} (m : Hc A) w (Q : A → World → Prop) :
  coherent p w → (∀ x, m = Ret (Ok x) → Q x w) → spec p (run m) w Q.
Proof. intros Hw HQ. split; [done|]. split; [done|]. destruct m as [[]| |]; naive_solver. Qed.

Lemma spec_fails {E A} (e : E) w (Q : A → World → Prop) : coherent p w → spec p (fails e) w Q.
Proof. intros. by split; [|split]. Qed.

Lemma spec_panics {E A} w (Q : A → World → Prop) : coherent p w → spec (E := E) p panics w Q.
Proof. intros. by split; [|split]. Qed.

Lemma spec_read {E A} (f : World → A) w (Q : A → World → Prop) :
  coherent p w → Q (f w) w → spec (E := E) p (read f) w Q.
Proof. intros. by split; [|split]. Qed.

Lemma spec_bind {E A B} (m : K E A) (f : A → K E B) w (Q : B → World → Prop) :
  spec p m w (λ x w', spec p (f x) w' Q) → spec p (x ← m; f x) w Q.
Proof.
  unfold spec, mbind, K_bind. destruct (m w) as [[[x|e]| |] w']; cbn; try done.
  intros (_ & Hg & Hc' & Hg' & HQ). split; [done|]. split; [by etrans|done].
Qed.

Lemma spec_assoc {E A B C} (m : K E A) (f : A → K E B) (g : B → K E C) w (Q : C → World → Prop) :
  spec p (y ← (x ← m; f x); g y) w Q → spec p (x ← m; y ← f x; g y) w Q.
Proof. unfold spec, mbind, K_bind. by destruct (m w) as [[[x|e]| |] w']. Qed.

Lemma spec_read_bind {E A B} (g : World → A) (f : A → K E B) w (Q : B → World → Prop) :
  spec p (f (g w)) w Q → spec p (x ← read g; f x) w Q.
Proof. done. Qed.

Lemma spec_mono {E A} (m : K E A) w (Q Q' : A → World → Prop) :
  (∀ x w', coherent p w' → grows (keystore w) (keystore w') → Q x w' → Q' x w') →
  spec p m w Q → spec p m w Q'.
Proof.
  intros HQ (Hc & Hg & H'). split; [done|]. split; [done|].
  destruct (m w) as [[[]| |] w']; cbn in *; try done. by apply HQ.
Qed.

Lemma spec_attempt {E A} (m : K E A) w (Q : Result E A → World → Prop) :
  spec p m w (λ x, Q (Ok x)) → (∀ e w', Q (Err e) w') → spec p (attempt m) w Q.
Proof.
  unfold spec, attempt. destruct (m w) as [[[]| |] w']; cbn; intros (? & ? & ?) ?; by split; [|split].
Qed.

Lemma spec_mapping_err {E F A} (f : E → F) (m : K E A) w (Q : A → World → Prop) :
  spec p m w Q → spec p (mapping_err f m) w Q.
Proof. unfold spec, mapping_err. by destruct (m w) as [[[]| |] w']. Qed.

End spec_lemmas.

(** Runs a program up to the next operation that has a specification of its own. *)
Ltac kstep :=
  lazymatch goal with
  | |- spec _ (mret _) _ _ => apply spec_ret; [done|]
  | |- spec _ (fails _) _ _ => apply spec_fails; done
  | |- spec _ (error _) _ _ => apply spec_fails; done
  | |- spec _ panics _ _ => apply spec_panics; done
  | |- spec _ (run _) _ _ => apply spec_run; [done|]; let x := fresh "x" in intros x ?
  | |- spec _ (from _) _ _ => apply spec_from; [done|]; let x := fresh "x" in intros x ?
  | |- spec _ (mbind _ (read _)) _ _ => apply spec_read_bind
  | |- spec _ (mbind _ _) _ _ => apply spec_bind
  | |- spec _ (mapping_err _ _) _ _ => apply spec_mapping_err
  end.

(** The passphrase service answers with the passphrase, if it answers. *)
Definition service_says `{KeystoreEnv} (p : bytes) : Prop :=
  ∀ n q, request_passphrase n = Ok q → q = p.

Section op_lemmas.
Context `{SodiumLaws} `{KeystoreLaws} (p : bytes) (Hservice : service_says p).

Lemma coherent_rest w w' :
  keystore w' = keystore w → (∀ q, passphrase_cache (manager w') = Some q → q = p) →
  coherent p w → coherent p w'.
Proof. intros Hk Hm []. split; by rewrite ?Hk. Qed.

Lemma spec_set_manager {E} m w (Q : () → World → Prop) :
  coherent p w → (∀ q, passphrase_cache m = Some q → q = p) →
  (∀ w', coherent p w' → keystore w' = keystore w → manager w' = m → now w' = now w → Q () w') →
  spec (E := E) p (set_manager m) w Q.
Proof.
  intros Hw Hm HQ. assert (coherent p (set_manager (E := E) m w).2) by by apply (coherent_rest w).
  split; [done|]. split; [done|]. by apply HQ.
Qed.

Lemma get_passphrase_spec w : coherent p w →
  spec p get_passphrase w (λ q w', q = p ∧ keystore w' = keystore w).
Proof.
  intros Hw. unfold get_passphrase. kstep. kstep.
  apply (spec_mono p _ _ (λ q w', q = p ∧ keystore w' = keystore w)).
  - intros q w' Hw' _ [-> Hk]. do 2 kstep. kstep. apply spec_set_manager; [done|by intros ? [= <-]|].
    intros w2 Hw2 Hk2 _ _. kstep. unfold lift in *. rewrite write_secbuf in * by done. split; congruence.
  - destruct (passphrase_cache (manager w)) as [q|] eqn:Hq.
    + kstep. split; [by eapply co_passphrase|done].
    + kstep. apply spec_set_manager; [done|done|]. intros w2 Hw2 Hk2 _ _. kstep. eauto.
Qed.

Lemma ask_passphrase_spec w : coherent p w →
  spec p ask_passphrase w (λ q w', q = p ∧ keystore w' = keystore w).
Proof.
  intros Hw. unfold ask_passphrase. kstep. rewrite (co_manager _ _ Hw). by apply get_passphrase_spec.
Qed.

Lemma draw_spec {E} n w : coherent p w →
  spec (E := E) p (draw n) w (λ b w', length b = n ∧ keystore w' = keystore w).
Proof.
  intros Hw. assert (coherent p (draw (E := E) n w).2) by (apply (coherent_rest w); [done|apply Hw|done]).
  split; [done|]. split; [done|]. split; [apply random_length|done].
Qed.

Lemma stored_unique k id s s' : stored p k id s → stored p k id s' → s = s'.
Proof. intros (b & Hb & Hs) (b' & Hb' & Hs'). congruence. Qed.

Lemma cache_insert_spec {E} id s w : coherent p w → secret_ok s →
  (secrets (keystore w) !! id = None ∨ stored p (keystore w) id s) →
  spec (E := E) p (cache_insert id s) w (λ _ w',
    secrets (keystore w') = secrets (keystore w) ∧ cache (keystore w') !! id = Some s).
Proof.
  intros [Hm Hp Hk Hs Hc] Hok Hid. unfold cache_insert. kstep.
  split; [|split; [done|]; split; [done|apply lookup_insert_eq]].
  split; [done|done| | |].
  - destruct Hk as [? ?]. by split.
  - cbn. intros id' blob Hb. destruct (Hs id' blob Hb) as (s' & Hs' & Hc'). exists s'. split; [done|].
    intros c. destruct (decide (id' = id)) as [->|Hne].
    + rewrite lookup_insert_eq. intros [= <-]. destruct Hid as [Hn|Hst]; [congruence|].
      by eapply stored_unique.
    + rewrite lookup_insert_ne by done. apply Hc'.
  - cbn. by apply map_Forall_insert_2.
Qed.

Lemma secrets_insert_spec {E} id blob s w : coherent p w →
  secrets (keystore w) !! id = None → cache (keystore w) !! id = Some s →
  inner_decrypt (keystore w) blob p = Ret (Ok s) →
  spec (E := E) p (secrets_insert id blob) w (λ _ w', stored p (keystore w') id s).
Proof.
  intros [Hm Hp Hk Hs Hc] Hid Hin Hd. pose (w' := (secrets_insert (E := E) id blob w).2).
  assert (Hg : grows (keystore w) (keystore w')) by (split; [done|by apply insert_subseteq]).
  assert (Hst : stored p (keystore w') id s) by (exists blob; split; [apply lookup_insert_eq|done]).
  split; [|by split]. split; [done|done| | |done].
  - destruct Hk as [? ?]. by split.
  - apply map_Forall_insert_2.
    + exists s. split; [done|]. intros c Hcc. change (cache (keystore w) !! id = Some c) in Hcc. congruence.
    + intros id' blob' Hb. destruct (Hs id' blob' Hb) as (s' & Hs' & Hc'). exists s'.
      split; [by eapply stored_grows|done].
Qed.

Lemma seed_new_ok b ty s : Seed_new b ty = Ret (Ok s) → s = {| kind := ty; buf := b |} ∧ seed_ok s.
Proof.
  unfold Seed_new. destruct (Nat.eqb (length b) SEED_SIZE) eqn:He; [|done]. intros [= <-].
  split; [done|]. by apply Nat.eqb_eq in He.
Qed.

Lemma encrypt_spec id w : coherent p w → secrets (keystore w) !! id = None →
  spec p (encrypt id) w (λ _ w', ∃ s, cache (keystore w) !! id = Some s ∧ stored p (keystore w') id s).
Proof.
  intros Hw Hid. unfold encrypt. kstep. kstep.
  destruct (cache (keystore w) !! id) as [s|] eqn:Hs; [|by kstep].
  apply spec_from; [done|]. intros ? [= <-].
  kstep. eapply spec_mono, ask_passphrase_spec; [|done]. intros q w1 Hw1 _ [-> Hk1]. rewrite <- Hk1 in *.
  kstep. kstep. kstep. eapply spec_mono, draw_spec; [|done]. intros salt w2 Hw2 _ [Hsalt Hk2]. rewrite <- Hk2 in *.
  kstep. eapply spec_mono, draw_spec; [|done]. intros nonce w3 Hw3 _ [_ Hk3]. rewrite <- Hk3 in *.
  pose proof (co_cache _ _ Hw3 id s Hs) as Hok.
  kstep. apply (spec_mono p _ _ (λ blob w', w' = w3 ∧ inner_decrypt (keystore w3) blob p = Ret (Ok s))).
  { intros blob w' _ _ [-> Hd]. eapply spec_mono, secrets_insert_spec; [|done..]. eauto. }
  destruct s as [keys|keys|seed]; repeat kstep.
  - destruct (blob_read_back (wf := pair_ok) _ _ _ _ _ _ _ Hok Hsalt ltac:(done)) as [Hb Ht].
    split; [done|]. unfold inner_decrypt. rewrite Ht. cbn [from_blob type_of_blob SigningKeyPair_Blobbable] in *.
    by rewrite Hb.
  - destruct (blob_read_back (wf := pair_ok) _ _ _ _ _ _ _ Hok Hsalt ltac:(done)) as [Hb Ht].
    split; [done|]. unfold inner_decrypt. rewrite Ht. cbn [from_blob type_of_blob EncryptingKeyPair_Blobbable] in *.
    by rewrite Hb.
  - split; [done|]. unfold lift in *. rewrite write_secbuf in * by done. simplify_eq.
    match goal with Hn : Seed_new _ _ = _ |- _ => apply seed_new_ok in Hn as [-> Hl] end.
    destruct (blob_read_back (wf := seed_ok) _ _ _ _ _ _ _ Hl Hsalt ltac:(done)) as [Hb Ht].
    unfold inner_decrypt. rewrite Ht. cbn [from_blob type_of_blob Seed_Blobbable] in *. by rewrite Hb.
Qed.

Lemma inner_decrypt_ok k blob s : inner_decrypt k blob p = Ret (Ok s) → secret_ok s.
Proof.
  unfold inner_decrypt. destruct (blob_type blob); [|done|..]; intros (x & Hx & [= <-])%hc_ok_bind; [done|..];
    apply hc_ok_bind in Hx as (b & _ & Hx); by eapply pair_read_ok.
Qed.

Lemma decrypt_spec id w : coherent p w →
  spec p (decrypt id) w (λ _ w', secrets (keystore w') = secrets (keystore w) ∧
    ∃ s, cache (keystore w') !! id = Some s ∧ stored p (keystore w') id s).
Proof.
  intros Hw. unfold decrypt. kstep. kstep.
  destruct (secrets (keystore w) !! id) as [blob|] eqn:Hb; [|by kstep].
  apply spec_from; [done|]. intros ? [= <-].
  destruct (co_secrets _ _ Hw id blob Hb) as (s & Hst & _).
  assert (Hd : inner_decrypt (keystore w) blob p = Ret (Ok s)) by (destruct Hst as (? & ? & ?); congruence).
  kstep. apply (spec_mono p _ _ (λ checked w', keystore w' = keystore w ∧
    (checked = Ok true → bytes_of_string DEFAULT_PASSPHRASE = p))).
  - intros checked w1 Hw1 _ [Hk1 Hdef]. rewrite <- Hk1 in *. kstep.
    apply (spec_mono p _ _ (λ m w', keystore w' = keystore w1 ∧ m = Ok s)).
    + intros m w2 Hw2 _ [Hk2 ->]. rewrite <- Hk2 in *. kstep. apply spec_from; [done|]. intros ? [= <-].
      eapply spec_mono, cache_insert_spec; [|done|by eapply inner_decrypt_ok|by right].
      intros _ w3 _ Hg [Hs3 Hc3]. split; [done|]. exists s. split; [done|]. by eapply stored_grows.
    + assert (Hrun : ∀ w2, coherent p w2 → keystore w2 = keystore w1 →
        spec p (attempt (run (inner_decrypt (keystore w1) blob p))) w2 (λ m w', keystore w' = keystore w1 ∧ m = Ok s)).
      { intros w2 Hw2 Hk2. rewrite Hd. by split; [|split]. }
      assert (Hask : spec p (passphrase ← ask_passphrase; attempt (run (inner_decrypt (keystore w1) blob passphrase)))
        w1 (λ m w', keystore w' = keystore w1 ∧ m = Ok s)).
      { kstep. eapply spec_mono, ask_passphrase_spec; [|done]. intros q w2 Hw2 _ [-> Hk2]. by apply Hrun. }
      destruct checked as [[]|]; [|done..]. rewrite Hdef by done. by apply Hrun.
  - unfold attempt, run. destruct (check_passphrase (keystore w) _) as [r| |] eqn:Hc; [|by split; [|split]..].
    split; [done|]. split; [done|]. split; [done|]. intros ->. by apply (check_default _ _ (co_check _ _ Hw)).
Qed.

Lemma get_spec id w : coherent p w → 
  spec p (get id) w (λ s w', secrets (keystore w') = secrets (keystore w) ∧
    stored p (keystore w') id s ∧ secret_ok s).
Proof.
  intros Hw. unfold get. kstep. destruct (secrets (keystore w) !! id) as [blob|] eqn:Hb; [|kstep].
  kstep. destruct (cache (keystore w) !! id) as [c|] eqn:Hc.
  - kstep. kstep. rewrite Hc. kstep. destruct (co_secrets _ _ Hw id blob Hb) as (s & Hst & Hcs).
    split; [done|]. split; [|by eapply co_cache]. by rewrite (Hcs c Hc).
  - eapply spec_mono, decrypt_spec; [|done]. intros _ w1 Hw1 _ (Hsec & s & Hs & Hst). kstep. rewrite Hs. kstep.
    split; [done|]. split; [done|]. by eapply co_cache.
Qed.

(** Adding a secret under a name that is not taken. *)
Lemma insert_spec id s w : coherent p w → secret_ok s → secrets (keystore w) !! id = None →
  spec p (cache_insert id s;; encrypt id) w (λ _ w', stored p (keystore w') id s).
Proof.
  intros Hw Hok Hid. kstep. eapply spec_mono, cache_insert_spec; [|done|done|by left].
  intros _ w1 Hw1 _ [Hs1 Hc1]. eapply spec_mono, encrypt_spec; [|done|congruence].
  intros _ w2 _ _ (s' & Hs' & Hst). congruence.
Qed.

Lemma dst_spec id w : coherent p w →
  spec p (check_dst_identifier id) w (λ id' w', id' = id ∧ w' = w ∧ secrets (keystore w) !! id = None).
Proof. intros Hw. unfold check_dst_identifier. kstep. destruct (secrets (keystore w) !! id) eqn:Hs; kstep. done. Qed.

Lemma add_spec id s w : coherent p w → secret_ok s →
  spec p (add id s) w (λ _ w', stored p (keystore w') id s).
Proof.
  intros Hw Hok. unfold add. kstep. eapply spec_mono, dst_spec; [|done].
  intros ? ? _ _ (-> & -> & Hid). by apply insert_spec.
Qed.

Lemma identifiers_spec src dst w : coherent p w →
  spec p (check_identifiers src dst) w (λ '(s, id) w', id = dst ∧
    secrets (keystore w') !! dst = None ∧ stored p (keystore w') src s).
Proof.
  intros Hw. unfold check_identifiers. kstep. eapply spec_mono, dst_spec; [|done].
  intros ? ? _ _ (-> & -> & Hid). kstep.
  eapply spec_mono, get_spec; [|done]. intros s w1 Hw1 _ (Hs1 & Hst & _). kstep. split; [done|]. by rewrite Hs1.
Qed.

Lemma add_seed_from_seed_spec src dst context index w : coherent p w →
  spec p (add_seed_from_seed src dst context index) w (λ _ w', ∃ s, stored p (keystore w') dst s).
Proof.
  intros Hw. unfold add_seed_from_seed. kstep. eapply spec_mono, identifiers_spec; [|done].
  intros [s id] w1 Hw1 _ (-> & Hid & _). kstep.
  apply (spec_mono p _ _ (λ s' w', w' = w1 ∧ secret_ok s')).
  - intros s' ? _ _ [-> Hok]. eapply spec_mono, insert_spec; [|done..].
    intros ? w2 _ _ Hst. by exists s'.
  - destruct s; repeat kstep. done.
Qed.

(** The keys made from a seed. *)
Definition made_from (seed : bytes) (key_type : KeyType) (s : Secret) (public_key : string) : Prop :=
  match key_type, s with
  | KeyType_Signing, Secret_SigningKey keys => new_from_seed seed = Ret (Ok keys) ∧ public_key = sign_public keys
  | KeyType_Encrypting, Secret_EncryptingKey keys => new_from_seed seed = Ret (Ok keys) ∧ public_key = enc_public keys
  | _, _ => False
  end.

Lemma made_from_ok seed key_type s public_key : made_from seed key_type s public_key → secret_ok s.
Proof. destruct key_type, s; cbn; try done; intros [? _]; by eapply new_from_seed_ok. Qed.

Lemma add_key_from_seed_spec src dst key_type w : coherent p w →
  spec p (add_key_from_seed src dst key_type) w (λ public_key w', ∃ seed s,
    stored p (keystore w') src (Secret_Seed seed) ∧ made_from seed key_type s public_key ∧
    stored p (keystore w') dst s).
Proof.
  intros Hw. unfold add_key_from_seed. kstep. eapply spec_mono, identifiers_spec; [|done].
  intros [s id] w1 Hw1 _ (-> & Hid & Hsrc). kstep.
  apply (spec_mono p _ _ (λ '(s', public_key) w', w' = w1 ∧ ∃ seed, s = Secret_Seed seed ∧
    made_from seed key_type s' public_key)).
  - intros [s' public_key] ? _ _ (-> & seed & -> & Hm).
    apply spec_assoc. kstep. eapply spec_mono, insert_spec; [|done|by eapply made_from_ok|done].
    intros ? w2 Hw2 Hg Hst. kstep. exists seed, s'. split; [by eapply stored_grows|done].
  - destruct s as [| |seed]; [kstep..|]. destruct key_type; repeat kstep; (split; [done|]; by exists seed).
Qed.

Lemma add_keybundle_from_seed_spec src prefix w : coherent p w →
  spec p (add_keybundle_from_seed src prefix) w (λ _ _, True).
Proof.
  intros Hw. unfold add_keybundle_from_seed. kstep.
  eapply spec_mono, add_key_from_seed_spec; [|done]. intros sign_key w1 Hw1 _ _.
  kstep. eapply spec_mono, add_key_from_seed_spec; [|done]. intros enc_key w2 Hw2 _ _. by kstep.
Qed.

Lemma add_keybundle_spec prefix keybundle w : coherent p w → bundle_ok keybundle →
  spec p (add_keybundle prefix keybundle) w (λ _ w',
    stored p (keystore w') (prefix +:+ KEYBUNDLE_SIGNKEY_SUFFIX) (Secret_SigningKey (sign_keys keybundle)) ∧
    stored p (keystore w') (prefix +:+ KEYBUNDLE_ENCKEY_SUFFIX) (Secret_EncryptingKey (enc_keys keybundle))).
Proof.
  intros Hw [Hs He]. unfold add_keybundle, new_from_self. rewrite !new_eta.
  kstep. apply spec_run; [done|]. intros ? [= <-]. kstep. apply spec_run; [done|]. intros ? [= <-].
  kstep. eapply spec_mono, add_spec; [|done..]. intros ? w1 Hw1 _ Hst.
  eapply spec_mono, add_spec; [|done..]. intros ? w2 _ Hg Hst'. split; [by eapply stored_grows|done].
Qed.

Lemma get_keybundle_spec prefix w : coherent p w →
  spec p (get_keybundle prefix) w (λ keybundle w', bundle_ok keybundle ∧
    stored p (keystore w') (prefix +:+ KEYBUNDLE_SIGNKEY_SUFFIX) (Secret_SigningKey (sign_keys keybundle)) ∧
    stored p (keystore w') (prefix +:+ KEYBUNDLE_ENCKEY_SUFFIX) (Secret_EncryptingKey (enc_keys keybundle))).
Proof.
  intros Hw. unfold get_keybundle. kstep. eapply spec_mono, get_spec; [|done].
  intros s w1 Hw1 _ (_ & Hst & Hok). kstep. destruct s as [keys| |]; [|kstep..].
  apply spec_run; [done|]. unfold new_from_self. rewrite new_eta. intros ? [= <-].
  kstep. eapply spec_mono, get_spec; [|done]. intros s' w2 Hw2 Hg (_ & Hst' & Hok').
  kstep. destruct s' as [|keys'|]; [kstep| |kstep].
  apply spec_run; [done|]. rewrite new_eta. intros ? [= <-]. kstep.
  split; [done|]. split; [by eapply stored_grows|done].
Qed.

Lemma sign_spec id message w : coherent p w →
  spec p (sign id message) w (λ signature w', ∃ keys b, stored p (keystore w') id (Secret_SigningKey keys) ∧
    SigningKeyPair_sign keys (bytes_of_string message) = Ret (Ok b) ∧ signature = base64 b).
Proof.
  intros Hw. unfold sign. kstep. eapply spec_mono, get_spec; [|done]. intros s w1 Hw1 _ (_ & Hst & _).
  destruct s as [keys| |]; [|kstep..]. do 3 kstep. eauto.
Qed.

Lemma manager_spec {E} w : coherent p w →
  spec (E := E) p manager_iteration w (λ _ w', keystore w' = keystore w).
Proof.
  intros Hw. unfold manager_iteration. do 2 kstep. destruct (passphrase_cache (manager w)); [|by kstep].
  case_match; [|by kstep]. unfold forget_passphrase. kstep. by apply spec_set_manager.
Qed.

Lemma keystore_save_spec path w : coherent p w → spec p (save path) w (λ _ w', keystore w' = keystore w ∧
  files w' !! path = Some (keystore_text (passphrase_check (keystore w)) (secrets (keystore w)))).
Proof.
  intros Hw. unfold save. do 2 kstep. apply spec_from; [done|]. intros _ _.
  split; [by apply (coherent_rest w); [|apply Hw|]|]. split; [done|]. split; [done|apply lookup_insert_eq].
Qed.

(** *** Sequences of operations *)

Inductive Op : Type :=
| Op_Add (id : string) (secret : Secret)
| Op_AddRandomSeed (id : string) (size : nat)
| Op_AddSeed (id : string) (seed : bytes)
| Op_AddSeedFromSeed (src dst : string) (context : bytes) (index : Z)
| Op_AddKeyFromSeed (src dst : string) (key_type : KeyType)
| Op_AddKeybundleFromSeed (src prefix : string)
| Op_AddKeybundle (prefix : string) (keybundle : KeyBundle)
| Op_Get (id : string)
| Op_GetKeybundle (prefix : string)
| Op_Sign (id message : string)
| Op_Save (path : string)
| Op_ChangePassphrase (old_passphrase new_passphrase : bytes)
| Op_ManagerIteration
| Op_Method (method : string) (params : Params).

(** The world after an operation, however it ended. *)
Definition after {E A} (m : K E A) (w : World) : World := (m w).2.

Definition perform (op : Op) (w : World) : World :=
  match op with
  | Op_Add id secret => after (add id secret) w
  | Op_AddRandomSeed id size => after (add_random_seed id size) w
  | Op_AddSeed id seed => after (add_seed id seed) w
  | Op_AddSeedFromSeed src dst context index => after (add_seed_from_seed src dst context index) w
  | Op_AddKeyFromSeed src dst key_type => after (add_key_from_seed src dst key_type) w
  | Op_AddKeybundleFromSeed src prefix => after (add_keybundle_from_seed src prefix) w
  | Op_AddKeybundle prefix keybundle => after (add_keybundle prefix keybundle) w
  | Op_Get id => after (get id) w
  | Op_GetKeybundle prefix => after (get_keybundle prefix) w
  | Op_Sign id message => after (sign id message) w
  | Op_Save path => after (save path) w
  | Op_ChangePassphrase old_passphrase new_passphrase => after (change_passphrase old_passphrase new_passphrase) w
  | Op_ManagerIteration => after (E := HolochainError) manager_iteration w
  | Op_Method method params => after (keystore_method method params) w
  end.

(** The default passphrase passes a check made with [c] only if it is [p]. *)
Definition default_told_apart (c : bytes) : Prop :=
  ∀ k, made_with c k → check_passphrase k (bytes_of_string DEFAULT_PASSPHRASE) = Ret (Ok true) →
  bytes_of_string DEFAULT_PASSPHRASE = p.

(** Secrets that callers bring are well formed, and a new passphrase is told apart from
    the default one. *)
Definition op_ok (op : Op) : Prop :=
  match op with
  | Op_ChangePassphrase _ new_passphrase => default_told_apart new_passphrase
  | Op_Add _ secret => secret_ok secret
  | Op_AddKeybundle _ keybundle => bundle_ok keybundle
  | _ => True
  end.

Definition perform_all (ops : list Op) (w : World) : World := foldl (λ w op, perform op w) w ops.

Lemma spec_after {E A} (m : K E A) w Q : spec p m w Q →
  coherent p (after m w) ∧ grows (keystore w) (keystore (after m w)).
Proof. by intros (? & ? & _). Qed.

Lemma add_random_seed_spec id size w : coherent p w → spec p (add_random_seed id size) w (λ _ _, True).
Proof.
  intros Hw. unfold add_random_seed. kstep. eapply spec_mono, draw_spec; [|done]. intros b w1 Hw1 _ _.
  by eapply spec_mono, add_spec.
Qed.

Lemma keystore_method_spec method params w : coherent p w →
  spec p (keystore_method method params) w (λ _ _, True).
Proof.
  intros Hw. unfold keystore_method. repeat case_decide; [| | | | | |kstep].
  - unfold rpc_list. kstep. by kstep.
  - unfold rpc_add_random_seed. repeat kstep. case_match; [kstep|]. do 2 kstep.
    eapply spec_mono, add_random_seed_spec; [|done]. intros _ w1 Hw1 _ _. by kstep.
  - unfold rpc_add_seed_from_seed. repeat kstep. case_match; [kstep|]. repeat kstep.
    eapply spec_mono, add_seed_from_seed_spec; [|done]. intros _ w1 Hw1 _ _. by kstep.
  - unfold rpc_add_key_from_seed. repeat kstep.
    apply (spec_mono p _ _ (λ _ w', True)); [intros key_type w1 Hw1 _ _|repeat case_decide; by kstep].
    do 2 kstep. eapply spec_mono, add_key_from_seed_spec; [|done]. intros pub w2 Hw2 _ _. by kstep.
  - unfold rpc_sign. repeat kstep. eapply spec_mono, sign_spec; [|done]. intros signature w1 Hw1 _ _. by kstep.
  - unfold rpc_get_public_key. repeat kstep. eapply spec_mono, get_spec; [|done].
    intros s w1 Hw1 _ _. kstep. apply (spec_mono p _ _ (λ _ w', True)); [|destruct s; by kstep].
    intros key w2 Hw2 _ _. by kstep.
Qed.

(** The check that [make_passphrase_check] makes. *)
Lemma make_check_ok c config w check w' :
  make_passphrase_check c config w = (Ret (Ok check), w') →
  ∃ salt nonce b, length salt = SALTBYTES ∧ length b = PCHECK_SIZE ∧
    take PCHECK_HEADER_SIZE b = PCHECK_HEADER ∧
    encrypt_with_passphrase_buf salt nonce b c config = Ret (Ok check).
Proof.
  unfold make_passphrase_check, mbind, K_bind, draw, run. cbn -[write encrypt_with_passphrase_buf].
  rewrite write_front by (rewrite random_length; vm_compute; lia).
  cbn -[encrypt_with_passphrase_buf PCHECK_HEADER].
  intros Hc. exists (random (S (draws w)) SALTBYTES), (random (S (S (draws w))) NONCEBYTES),
    (PCHECK_HEADER ++ drop (length PCHECK_HEADER) (random (draws w) PCHECK_SIZE))%list.
  split_and!; [apply random_length| | |].
  - rewrite length_app, length_drop, random_length. by vm_compute.
  - by apply take_app_length'.
  - by injection Hc.
Qed.

Lemma make_check_rest c config w :
  keystore (make_passphrase_check c config w).2 = keystore w ∧ manager (make_passphrase_check c config w).2 = manager w.
Proof.
  unfold make_passphrase_check, mbind, K_bind, draw, run. cbn -[write encrypt_with_passphrase_buf].
  by destruct (expected _) as [[]| |].
Qed.

Lemma make_check_spec c config w : coherent p w →
  spec p (make_passphrase_check c config) w (λ check w', keystore w' = keystore w ∧
    ∃ salt nonce b, length salt = SALTBYTES ∧ length b = PCHECK_SIZE ∧
      take PCHECK_HEADER_SIZE b = PCHECK_HEADER ∧
      encrypt_with_passphrase_buf salt nonce b c config = Ret (Ok check)).
Proof.
  intros Hw. destruct (make_check_rest c config w) as [Hk Hm].
  split; [apply (coherent_rest w); [done|rewrite Hm; apply Hw|done]|]. split; [by rewrite Hk|].
  repeat case_match; try done. split; [done|]. eapply make_check_ok.
  by apply injective_projections.
Qed.

Lemma change_passphrase_spec old_passphrase new_passphrase w : coherent p w → default_told_apart new_passphrase →
  spec p (change_passphrase old_passphrase new_passphrase) w (λ _ w',
    secrets (keystore w') = secrets (keystore w)).
Proof.
  intros Hw Hnew. unfold change_passphrase. kstep. kstep. kstep. case_match; [kstep|]. kstep.
  eapply spec_mono, make_check_spec; [|done]. intros check w1 [Hm Hp Hk Hs Hc] _ (Hk1 & Hmade).
  unfold set_passphrase_check. kstep. split; [|by split; [|cbn; rewrite Hk1]].
  split; [done|done| |done|done]. cbn. split; [exists new_passphrase|apply Hnew]; cbn; by rewrite Hk1.
Qed.

Lemma perform_spec op w : coherent p w → op_ok op →
  coherent p (perform op w) ∧ grows (keystore w) (keystore (perform op w)).
Proof.
  intros Hw Hop. destruct op; cbn [perform op_ok] in *.
  - eapply spec_after, add_spec; done.
  - eapply spec_after, add_random_seed_spec; done.
  - eapply (spec_after _ _ (λ _ _, True)). unfold add_seed. repeat kstep. by eapply spec_mono, add_spec.
  - eapply spec_after, add_seed_from_seed_spec; done.
  - eapply spec_after, add_key_from_seed_spec; done.
  - eapply spec_after, add_keybundle_from_seed_spec; done.
  - eapply spec_after, add_keybundle_spec; done.
  - eapply spec_after, get_spec; done.
  - eapply spec_after, get_keybundle_spec; done.
  - eapply spec_after, sign_spec; done.
  - eapply spec_after, keystore_save_spec; done.
  - eapply spec_after, change_passphrase_spec; done.
  - eapply spec_after, manager_spec; done.
  - eapply spec_after, keystore_method_spec; done.
Qed.

Lemma perform_all_spec ops w : coherent p w → Forall op_ok ops →
  coherent p (perform_all ops w) ∧ grows (keystore w) (keystore (perform_all ops w)).
Proof.
  intros Hw Hops. revert w Hw. induction Hops as [|op ops Hop _ IH]; intros w Hw; [done|].
  destruct (perform_spec op w Hw Hop) as [Hc Hg]. destruct (IH _ Hc) as [Hc' Hg'].
  split; [done|by etrans].
Qed.

End op_lemmas.

(** ** Theorems *)

Definition with_keystore (k : Keystore) (w : World) : World :=
  {| keystore := k; manager := manager w; draws := draws w; files := files w; now := now w |}.

(** A process that starts anew: a manager that knows no passphrase, and the files. *)
Definition reboot (w : World) : World :=
  {| keystore := {| passphrase_check := ""; secrets := ∅; cache := ∅; passphrase_manager := false;
                    hash_config := None |};
     manager := PassphraseManager_new (now w); draws := draws w; files := files w; now := now w |}.

Section theorems.
Context `{SodiumLaws} `{KeystoreLaws}.

Lemma check_settles p k q : check_ok p k → settles (check_passphrase k q).
Proof.
  intros [(c' & salt' & nonce' & b & Hs & _ & _ & Ht) _]. unfold check_passphrase.
  apply hc_ok_bind in Ht as (d & Hd & [= Ht]). apply hc_ok_bind in Hd as (secret & _ & Hd).
  apply hc_ok_bind in Hd as (c & _ & [= <-]).
  assert (Hdec : ∀ b, decrypt_with_passphrase_buf (passphrase_check k) q (hash_config k) PCHECK_SIZE
    = Ret (Ok b) → length b = PCHECK_SIZE).
  { intros r (e & _ & Hr)%hc_ok_bind. apply hc_ok_bind in Hr as (b' & _ & Hr).
    destruct (Nat.eqb_spec (length b') PCHECK_SIZE); [by injection Hr as <-|done]. }
  apply settles_bind.
  - unfold decrypt_with_passphrase_buf, pw_dec, lift. rewrite <- Ht, encrypted_round_trip. hc.
    cbn [salt nonce cipher]. rewrite !from_array_ok by done. hc.
    apply settles_bind; [|intros; case_match; auto with dpki].
    apply settles_bind; [unfold pw_hash; auto with dpki|]. intros. repeat case_match; auto with dpki.
  - intros r Hr%Hdec. unfold slice. rewrite Hr. hc. apply settles_bind; [auto with dpki|].
    intros. repeat case_match; auto with dpki.
Qed.

Lemma grows_coherent_get p w id s s' : service_says p → coherent p w → stored p (keystore w) id s →
  (get id w).1 = Ret (Ok s') → s' = s.
Proof.
  intros Hsvc Hw Hst Hs'. destruct (get_spec p Hsvc id w Hw) as (_ & Hg & HQ). rewrite Hs' in HQ.
  destruct HQ as (_ & Hst' & _). by eapply stored_unique, stored_grows.
Qed.

Lemma K_bind_ret {E A B} (m : K E A) (f : A → K E B) w x w' :
  m w = (Ret (Ok x), w') → (x ← m; f x) w = f x w'.
Proof. unfold mbind, K_bind. by intros ->. Qed.

Lemma ask_returns p w : (∀ n, request_passphrase n = Ok p) → coherent p w →
  ∃ w', ask_passphrase w = (Ret (Ok p), w') ∧ keystore w' = keystore w.
Proof.
  intros Hsvc Hw. assert (Hret : ∃ q w', ask_passphrase w = (Ret (Ok q), w')).
  { unfold ask_passphrase. rewrite (K_bind_ret _ _ _ (keystore w) w) by done.
    rewrite (co_manager _ _ Hw). unfold get_passphrase, mbind, K_bind, read, set_manager, from, run, lift.
    cbn -[write]. destruct (passphrase_cache (manager w)) as [q|]; cbn -[write]; rewrite ?Hsvc; cbn -[write];
      rewrite write_secbuf by done; by eexists _, _. }
  destruct Hret as (q & w' & Hq). exists w'.
  assert (Hsays : service_says p) by (intros n q'; rewrite Hsvc; congruence).
  destruct (ask_passphrase_spec p Hsays w Hw) as (_ & _ & HQ). rewrite Hq in HQ |- *. by destruct HQ as [-> ?].
Qed.

Lemma decrypt_returns p w id s : (∀ n, request_passphrase n = Ok p) → coherent p w →
  stored p (keystore w) id s → (decrypt id w).1 = Ret (Ok ()).
Proof.
  intros Hsvc Hw (blob & Hb & Hd). unfold decrypt.
  rewrite (K_bind_ret _ _ _ (keystore w) w) by done.
  rewrite (K_bind_ret _ _ _ blob w) by (unfold from; by rewrite Hb).
  destruct (check_settles p (keystore w) (bytes_of_string DEFAULT_PASSPHRASE) (co_check _ _ Hw)) as [r Hr].
  rewrite (K_bind_ret _ _ _ r w) by (unfold attempt, run; by rewrite Hr).
  assert (Hm : ∃ w', keystore w' = keystore w ∧ match r with
    | Ok true => attempt (run (inner_decrypt (keystore w) blob (bytes_of_string DEFAULT_PASSPHRASE)))
    | _ => passphrase ← ask_passphrase; attempt (run (inner_decrypt (keystore w) blob passphrase))
    end w = (Ret (Ok (Ok s)), w')).
  { destruct (ask_returns p w Hsvc Hw) as (w' & Hask & Hk').
    destruct r as [[]|]; [|exists w'; split; [done|]; rewrite (K_bind_ret _ _ _ _ _ Hask);
      unfold attempt, run; by rewrite Hd..].
    exists w. split; [done|]. rewrite (check_default _ _ (co_check _ _ Hw) Hr). unfold attempt, run. by rewrite Hd. }
  destruct Hm as (w' & Hk' & Hm). by rewrite (K_bind_ret _ _ _ _ _ Hm).
Qed.

(** Where the passphrase service answers, what is stored can be got. *)
Lemma get_returns p w id s : (∀ n, request_passphrase n = Ok p) → coherent p w →
  stored p (keystore w) id s → (get id w).1 = Ret (Ok s).
Proof.
  intros Hsvc Hw Hst. assert (Hsays : service_says p) by (intros n q; rewrite Hsvc; congruence).
  assert (Hret : ∃ s', (get id w).1 = Ret (Ok s')).
  { pose proof (decrypt_returns p w id s Hsvc Hw Hst) as Hret.
    destruct (decrypt_spec p Hsays id w Hw) as (_ & _ & HQ). rewrite Hret in HQ.
    destruct HQ as (_ & s' & Hs' & _), Hst as (blob & Hb & _).
    unfold get. rewrite (K_bind_ret _ _ _ (keystore w) w) by done. rewrite Hb.
    destruct (cache (keystore w) !! id) as [c|] eqn:Hc.
    - rewrite (K_bind_ret _ _ _ () w), (K_bind_ret _ _ _ (keystore w) w) by done. rewrite Hc. by exists c.
    - rewrite (K_bind_ret _ _ _ () (decrypt id w).2) by (rewrite <- Hret; apply surjective_pairing).
      rewrite (K_bind_ret _ _ _ (keystore (decrypt id w).2) (decrypt id w).2) by done. rewrite Hs'. by exists s'. }
  destruct Hret as [s' Hs']. rewrite Hs'. do 2 f_equal. by eapply grows_coherent_get.
Qed.

Lemma K_ok_bind {E A B} (m : K E A) (f : A → K E B) w b w' :
  (x ← m; f x) w = (Ret (Ok b), w') → ∃ a w1, m w = (Ret (Ok a), w1) ∧ f a w1 = (Ret (Ok b), w').
Proof. unfold mbind, K_bind. destruct (m w) as [[[]| |] w1]; naive_solver. Qed.

Lemma get_passphrase_ok p w q w' : service_says p →
  (∀ q, passphrase_cache (manager w) = Some q → q = p) →
  get_passphrase w = (Ret (Ok q), w') → q = p ∧ passphrase_cache (manager w') = Some p.
Proof.
  intros Hsvc Hc. unfold get_passphrase, mbind, K_bind, read, set_manager, from, run, lift. cbn -[write].
  destruct (passphrase_cache (manager w)) as [q'|]; cbn -[write].
  - rewrite write_secbuf by done. intros [= <- <-]. by rewrite (Hc q').
  - destruct (request_passphrase _) as [q'|] eqn:Hq; cbn -[write]; [|done].
    rewrite write_secbuf by done. intros [= <- <-]. by rewrite (Hsvc _ _ Hq).
Qed.

(** A new keystore. *)
Lemma new_coherent p config w k w' : service_says p →
  (∀ q, passphrase_cache (manager w) = Some q → q = p) →
  Keystore_new config w = (Ret (Ok k), w') →
  (check_passphrase k (bytes_of_string DEFAULT_PASSPHRASE) = Ret (Ok true) →
   bytes_of_string DEFAULT_PASSPHRASE = p) →
  coherent p (with_keystore k w').
Proof.
  intros Hsvc Hc (q & w1 & Hq & Hk)%K_ok_bind Hdef.
  apply (get_passphrase_ok p) in Hq as [-> Hp]; [|done..].
  apply K_ok_bind in Hk as (check & w2 & Hcheck & [= <- <-]).
  pose proof (make_check_ok _ _ _ _ _ Hcheck) as Hmade.
  pose proof (proj2 (make_check_rest p (match config with None => test_hash_config | Some _ => config end) w1)) as Hm.
  rewrite Hcheck in Hm. cbn in Hm.
  split; cbn; [done| |by split; [exists p|]|apply map_Forall_empty..].
  rewrite Hm, Hp. by intros ? [= <-].
Qed.

Lemma new_config config w k w' : Keystore_new config w = (Ret (Ok k), w') →
  match config with Some _ => config | None => test_hash_config end = hash_config k.
Proof. intros (q & w1 & _ & (check & w2 & _ & [= <- _])%K_ok_bind)%K_ok_bind. by destruct config. Qed.

(** What [get] returned is stored. *)
Lemma got_stored p w id s : service_says p → coherent p w → (get id w).1 = Ret (Ok s) →
  stored p (keystore w) id s.
Proof.
  intros Hsvc Hw Hs. destruct (get_spec p Hsvc id w Hw) as (_ & [Hcfg _] & HQ). rewrite Hs in HQ.
  destruct HQ as (Hsec & (blob & Hb & Hd) & _). exists blob. split; [congruence|].
  unfold inner_decrypt in *. by rewrite <- Hcfg.
Qed.

(** C9: A keystore made by [Keystore::new] keeps its secrets as long as the passphrase
    service, where it answers, always gives the same passphrase, whatever the keystore is
    used for: any sequence of its operations ([change_passphrase] included) and of the
    remote calls to it, failing and panicking ones too, with well-formed keys added by
    callers.  At any time every blob can be read with that passphrase and agrees with the
    cache; no blob is ever changed or removed; and when [get] returned a secret for a
    name, a later [get] returns no other.  [change_passphrase] replaces the check only:
    what is stored stays encrypted with the passphrase that the service gave, so a
    service that then gives the new passphrase is outside of this theorem.  The default
    passphrase, tried before asking, is assumed not to pass a check, the first one or one
    that a change makes, unless it is the passphrase of the service. *)
Theorem keystores_keep_secrets (p : bytes) (config : option PwHashConfig) (w0 w1 : World) (k : Keystore)
    (ops1 ops2 : list Op) (id : string) (s : Secret) :
  service_says p → passphrase_cache (manager w0) = None →
  Keystore_new config w0 = (Ret (Ok k), w1) →
  (check_passphrase k (bytes_of_string DEFAULT_PASSPHRASE) = Ret (Ok true) →
   bytes_of_string DEFAULT_PASSPHRASE = p) →
  Forall (op_ok p) ops1 → Forall (op_ok p) ops2 →
  let w := perform_all ops1 (with_keystore k w1) in
  (get id w).1 = Ret (Ok s) →
  let w' := perform_all ops2 w in
  coherent p w' ∧ grows (keystore w) (keystore w') ∧
  ∀ s', (get id w').1 = Ret (Ok s') → s' = s.
Proof.
  intros Hsvc Hc Hnew Hdef Hops1 Hops2 w Hs w'.
  assert (Hw0 : coherent p (with_keystore k w1)) by (eapply new_coherent; [done|by rewrite Hc|done|done]).
  destruct (perform_all_spec p Hsvc ops1 _ Hw0 Hops1) as [Hw _]. fold w in Hw.
  destruct (perform_all_spec p Hsvc ops2 _ Hw Hops2) as [Hw' Hg]. fold w' in Hw', Hg.
  split; [done|]. split; [done|]. intros s'. apply (grows_coherent_get p); [done|done|].
  by eapply stored_grows, got_stored.
Qed.

(** What is read of a keystore that was saved. *)
Definition reloaded_from (k : Keystore) : Keystore :=
  {| passphrase_check := passphrase_check k; secrets := secrets k; cache := ∅;
     passphrase_manager := true; hash_config := hash_config k |}.

Lemma reloaded_coherent p w w' : coherent p w → passphrase_cache (manager w') = None →
  coherent p (with_keystore (reloaded_from (keystore w)) w').
Proof.
  intros [Hm Hp Hk Hs Hc] Hn. split; [done|by cbn; rewrite Hn| |  |apply map_Forall_empty].
  - destruct Hk as [Hmade Hdef]. by split.
  - intros id blob Hb. destruct (Hs id blob Hb) as (s & (b & Hb' & Hd) & _). exists s.
    split; [by exists b|done].
Qed.

(** What is stored in a coherent keystore is read back from its file. *)
Lemma stored_survives (p : bytes) (w : World) (id : string) (s : Secret) (ops : list Op)
    (path : string) (config : option PwHashConfig) :
  (∀ n, request_passphrase n = Ok p) → coherent p w → stored p (keystore w) id s → Forall (op_ok p) ops →
  match config with Some _ => config | None => test_hash_config end = hash_config (keystore w) →
  create_file path = Ok () →
  let w' := reboot (after (save path) (perform_all ops w)) in
  ((reloaded ← new_from_file path config; set_keystore reloaded;; get id) w').1 = Ret (Ok s).
Proof.
  intros Hsvc Hw Hst Hops Hcfg Hfile w'. assert (Hsays : service_says p) by (intros n q; rewrite Hsvc; congruence).
  destruct (perform_all_spec p Hsays ops w Hw Hops) as [Hw1 Hg].
  pose proof (stored_grows p _ _ _ _ Hg Hst) as Hst1. set (w1 := perform_all ops w) in *.
  assert (Hload : new_from_file path config w' = (Ret (Ok (reloaded_from (keystore w1))), w')).
  { unfold new_from_file. rewrite (K_bind_ret _ _ _ (files w') w') by done.
    assert (Hf : files w' !! path = Some (keystore_text (passphrase_check (keystore w1)) (secrets (keystore w1)))).
    { unfold w', after, save, mbind, K_bind, read, from. cbn -[lookup insert]. rewrite Hfile.
      cbn -[lookup insert]. apply lookup_insert_eq. }
    rewrite Hf. rewrite (K_bind_ret _ _ _ _ w') by done.
    rewrite (K_bind_ret _ _ _ (passphrase_check (keystore w1), secrets (keystore w1)) w')
      by (unfold from; by rewrite keystore_round_trip).
    unfold reloaded_from. by rewrite Hcfg, (grows_config _ _ Hg). }
  rewrite (K_bind_ret _ _ _ _ _ Hload), (K_bind_ret _ _ _ () (with_keystore (reloaded_from (keystore w1)) w')) by done.
  apply (get_returns p); [done| |].
  - by apply (reloaded_coherent p w1).
  - destruct Hst1 as (blob & Hb & Hd). by exists blob.
Qed.

(** C25: Secrets survive a restart: take a keystore made by [Keystore::new], used for any
    operations, which has returned a secret for a name; after any further operations,
    saving it to a file, starting anew with a manager that knows no passphrase and
    loading the file with the same hash settings, [get] returns that secret.  The
    passphrase service always answers, with the same passphrase before and after the
    restart, also where [change_passphrase] was among the operations; the file can be
    written; callers add well-formed keys; and the default passphrase passes a check only
    if it is the passphrase of the service. *)
Theorem secrets_survive_restart (p : bytes) (config : option PwHashConfig) (w0 w1 : World) (k : Keystore)
    (ops1 ops2 : list Op) (id : string) (s : Secret) (path : string) :
  (∀ n, request_passphrase n = Ok p) → passphrase_cache (manager w0) = None →
  Keystore_new config w0 = (Ret (Ok k), w1) →
  (check_passphrase k (bytes_of_string DEFAULT_PASSPHRASE) = Ret (Ok true) →
   bytes_of_string DEFAULT_PASSPHRASE = p) →
  Forall (op_ok p) ops1 → Forall (op_ok p) ops2 → create_file path = Ok () →
  let w := perform_all ops1 (with_keystore k w1) in
  (get id w).1 = Ret (Ok s) →
  let w' := reboot (after (save path) (perform_all ops2 w)) in
  ((reloaded ← new_from_file path config; set_keystore reloaded;; get id) w').1 = Ret (Ok s).
Proof.
  intros Hsvc Hc Hnew Hdef Hops1 Hops2 Hfile w Hs w'.
  assert (Hsays : service_says p) by (intros n q; rewrite Hsvc; congruence).
  assert (Hw0 : coherent p (with_keystore k w1)) by (eapply new_coherent; [done|by rewrite Hc|done|done]).
  destruct (perform_all_spec p Hsays ops1 _ Hw0 Hops1) as [Hw Hg]. fold w in Hw, Hg.
  apply (stored_survives p w); [done|done|by apply got_stored|done| |done].
  rewrite (grows_config _ _ Hg). by apply (new_config _ _ _ _ Hnew).
Qed.

(** C26: The public key that [add_signing_key_from_seed] returns is the one of the
    signatures: whatever happens to the keystore in between, a signature that [sign]
    returns under the name of the key decodes from base64 and verifies under that
    public key. *)
Theorem keystore_signatures_verify (p : bytes) (w w1 : World) (src dst message public_key signature : string)
    (ops : list Op) :
  service_says p → coherent p w → Forall (op_ok p) ops →
  add_signing_key_from_seed src dst w = (Ret (Ok public_key), w1) →
  (sign dst message (perform_all ops w1)).1 = Ret (Ok signature) →
  ∃ b, base64_bytes signature = Some b ∧
    verify_bufs public_key (bytes_of_string message) b = Ret (Ok true).
Proof.
  intros Hsvc Hw Hops Hadd Hsign.
  destruct (add_key_from_seed_spec p Hsvc src dst KeyType_Signing w Hw) as (Hw1 & _ & HQ).
  unfold add_signing_key_from_seed in Hadd. rewrite Hadd in Hw1, HQ. cbn [fst snd] in Hw1, HQ.
  destruct HQ as (seed & s & _ & Hmade & Hst). destruct s as [keys| |]; [|done..]. destruct Hmade as [Hnew ->].
  destruct (perform_all_spec p Hsvc ops _ Hw1 Hops) as [Hw2 Hg].
  destruct (sign_spec p Hsvc dst message _ Hw2) as (_ & Hg' & HQ). rewrite Hsign in HQ.
  destruct HQ as (keys' & b & Hst' & Hb & ->). exists b. split; [apply base64_round_trip|].
  assert (Secret_SigningKey keys = Secret_SigningKey keys') as [= <-].
  { eapply stored_unique; [|exact Hst']. eapply stored_grows; [exact Hg'|]. by eapply stored_grows. }
  by destruct (seed_pair_signs _ _ _ _ Hnew Hb).
Qed.

(** *** What is not checked *)

Lemma ask_cached w q : passphrase_manager (keystore w) = true → passphrase_cache (manager w) = Some q →
  ∃ w', ask_passphrase w = (Ret (Ok q), w') ∧ keystore w' = keystore w.
Proof.
  intros Hm Hq. unfold ask_passphrase. rewrite (K_bind_ret _ _ _ (keystore w) w) by done. rewrite Hm.
  unfold get_passphrase, mbind, K_bind, read, set_manager, run, lift. cbn -[write]. rewrite Hq. cbn -[write].
  rewrite write_secbuf by done. by eexists.
Qed.

(** [encrypt] of a seed, up to the blob. *)
Lemma encrypt_seed w id seed q b : passphrase_manager (keystore w) = true →
  passphrase_cache (manager w) = Some q → check_passphrase (keystore w) q = Ret (Ok b) →
  cache (keystore w) !! id = Some (Secret_Seed seed) →
  ∃ salt nonce w', length salt = SALTBYTES ∧ keystore w' = keystore w ∧
    encrypt id w = (blob ← (s ← run (Seed_new seed SeedType_OneShot);
                            run (as_blob salt nonce s q "" (hash_config (keystore w))));
                    secrets_insert id blob) w'.
Proof.
  intros Hm Hq Hc Hs. destruct (ask_cached w q Hm Hq) as (w1 & Hask & Hk1).
  exists (random (draws w1) SALTBYTES), (random (S (draws w1)) NONCEBYTES), (draw (E := ()) 0 (draw (E := ()) 0 w1).2).2.
  split; [apply random_length|]. split; [done|]. unfold encrypt.
  rewrite (K_bind_ret _ _ _ (keystore w) w) by done.
  rewrite (K_bind_ret _ _ _ (Secret_Seed seed) w) by (unfold from; by rewrite Hs).
  rewrite (K_bind_ret _ _ _ q w1) by done. rewrite (K_bind_ret _ _ _ b w1) by (unfold run; by rewrite Hc).
  rewrite (K_bind_ret (draw SALTBYTES) _ w1 _ _ eq_refl).
  rewrite (K_bind_ret (draw NONCEBYTES) _ _ _ _ eq_refl). unfold run at 1, lift at 1. rewrite write_secbuf by done. done.
Qed.

Lemma add_seed_unfold w id seed : secrets (keystore w) !! id = None →
  ∃ w', add id (Secret_Seed seed) w = encrypt id w' ∧ manager w' = manager w ∧
    passphrase_manager (keystore w') = passphrase_manager (keystore w) ∧
    (∀ q, check_passphrase (keystore w') q = check_passphrase (keystore w) q) ∧
    hash_config (keystore w') = hash_config (keystore w) ∧
    secrets (keystore w') = secrets (keystore w) ∧ cache (keystore w') !! id = Some (Secret_Seed seed).
Proof.
  intros Hid. exists (cache_insert (E := ()) id (Secret_Seed seed) w).2. split.
  - unfold add. rewrite (K_bind_ret _ _ _ id w); [done|]. unfold check_dst_identifier, mbind, K_bind, read.
    by rewrite Hid.
  - split_and!; try done. apply lookup_insert_eq.
Qed.

(** C35: A wrong passphrase is not refused when a secret is added, although all secrets
    are said to be encrypted with the same one: with a passphrase that fails the check
    of the keystore, [add_seed] succeeds and stores the seed encrypted with the wrong
    passphrase, as [encrypt] looks only at errors of the check and not at its answer. *)
Theorem wrong_passphrase_not_refused (w : World) (id : string) (seed q : bytes) :
  passphrase_manager (keystore w) = true → passphrase_cache (manager w) = Some q →
  check_passphrase (keystore w) q = Ret (Ok false) →
  secrets (keystore w) !! id = None → length seed = SEED_SIZE →
  (∀ salt nonce b, ∃ t, encrypt_with_passphrase_buf salt nonce b q (hash_config (keystore w)) = Ret (Ok t)) →
  (add_seed id seed w).1 = Ret (Ok ()) ∧
  stored q (keystore (after (add_seed id seed) w)) id (Secret_Seed seed).
Proof.
  intros Hm Hq Hc Hid Hl Henc. unfold after, add_seed.
  rewrite (K_bind_ret _ _ _ seed w) by (unfold from; by rewrite from_array_ok).
  destruct (add_seed_unfold w id seed Hid) as (w1 & -> & Hm1 & Hp1 & Hc1 & Hcfg1 & Hs1 & Hca1).
  destruct (encrypt_seed w1 id seed q false) as (salt & nonce & w2 & Hsalt & Hk2 & ->);
    [congruence|congruence|by rewrite Hc1|done|].
  assert (Hnew : Seed_new seed SeedType_OneShot = Ret (Ok {| kind := SeedType_OneShot; buf := seed |}))
    by (unfold Seed_new; by rewrite asserted_true by by apply Nat.eqb_eq).
  destruct (Henc salt nonce seed) as [t Ht]. rewrite <- Hcfg1 in Ht.
  pose (blob := {| blob_seed_type := SeedType_OneShot; blob_type := BlobType_Seed; hint := ""; blob_data := t |}).
  assert (Hblob : as_blob salt nonce {| kind := SeedType_OneShot; buf := seed |} q "" (hash_config (keystore w1))
    = Ret (Ok blob)).
  { cbn [as_blob Seed_Blobbable]. unfold Seed_as_blob, finalize_blobbing. cbn [buf kind].
    rewrite Hl. cbn [Nat.eqb negb SEED_SIZE]. by rewrite Ht. }
  rewrite (K_bind_ret _ _ _ blob w2).
  - split; [done|]. exists blob. split; [apply lookup_insert_eq|].
    destruct (blob_read_back (wf := seed_ok) _ _ {| kind := SeedType_OneShot; buf := seed |} _ _ _ _ Hl Hsalt Hblob)
      as [Hb _].
    change (inner_decrypt (keystore w2) blob q = Ret (Ok (Secret_Seed seed))). rewrite Hk2.
    cbn [from_blob Seed_Blobbable] in Hb. unfold inner_decrypt. cbn [blob_type blob]. by rewrite Hb.
  - rewrite Hnew. unfold run, mbind, K_bind. by rewrite Hblob.
Qed.

(** The remote call [agent/keystore/add_random_seed] panics for every size but 32
    bytes, once the passphrase is known: the size is not checked before [Seed::new]
    asserts it. *)
Theorem odd_seed_panics (w : World) (params_map : gmap string Value) (id : string) (size : Z) (q : bytes) (b : bool) :
  passphrase_manager (keystore w) = true → passphrase_cache (manager w) = Some q →
  check_passphrase (keystore w) q = Ret (Ok b) → secrets (keystore w) !! id = None →
  params_map !! "dst_id" = Some (Value_String id) → params_map !! "size" = Some (Value_Integer size) →
  (0 ≤ size ≤ ISIZE_MAX)%Z → size ≠ Z.of_nat SEED_SIZE →
  (keystore_method "agent/keystore/add_random_seed" (Params_Map params_map) w).1 = Panic.
Proof.
  intros Hm Hq Hc Hid Hdst Hsize Hrange Hne.
  change (keystore_method "agent/keystore/add_random_seed" (Params_Map params_map) w)
    with (rpc_add_random_seed (Params_Map params_map) w). unfold rpc_add_random_seed.
  rewrite (K_bind_ret _ _ _ params_map w) by done.
  rewrite (K_bind_ret _ _ _ id w) by (unfold from, get_as_string, get_param; by rewrite Hdst).
  rewrite (K_bind_ret _ _ _ size w); cycle 1.
  { unfold from, get_as_int, get_param. rewrite Hsize. cbn -[bool_decide].
    by rewrite bool_decide_eq_true_2 by (unfold ISIZE_MAX in Hrange; lia). }
  rewrite u64_wrap_id by (unfold is_u64, ISIZE_MAX in *; lia).
  destruct (Z.ltb_spec ISIZE_MAX size); [lia|].
  pose (w0 := (draw (E := HolochainError) (Z.to_nat size) w).2).
  assert (Hpanic : (add id (Secret_Seed (random (draws w) (Z.to_nat size))) w0).1 = Panic).
  { destruct (add_seed_unfold w0 id (random (draws w) (Z.to_nat size)) Hid)
      as (w1 & -> & Hm1 & Hp1 & Hc1 & Hcfg1 & Hs1 & Hca1).
    destruct (encrypt_seed w1 id (random (draws w) (Z.to_nat size)) q b) as (salt & nonce & w2 & _ & _ & ->);
      [by rewrite Hp1|by rewrite Hm1|by rewrite Hc1|done|].
    unfold Seed_new. rewrite random_length.
    destruct (Nat.eqb_spec (Z.to_nat size) SEED_SIZE); [lia|]. done. }
  unfold mapping_err, add_random_seed, mbind at 1, K_bind at 1. rewrite (K_bind_ret (draw (Z.to_nat size)) _ w _ w0 eq_refl).
  destruct (add id _ w0) as [o w']. cbn in Hpanic. by subst.
Qed.

End theorems.

(** ** An environment that keeps the promises *)

#[local] Existing Instance toy_sodium.
#[local] Existing Instance toy_sodium_laws.

#[local] Instance SeedType_eq_dec : EqDecision SeedType.
Proof. solve_decision. Defined.

Definition seed_type_number (t : SeedType) : nat :=
  match t with
  | SeedType_Root => 0 | SeedType_Revocation => 1 | SeedType_Device => 2 | SeedType_DevicePin => 3
  | SeedType_DNA => 4 | SeedType_OneShot => 5 | SeedType_Mock => 6
  end.
Definition number_seed_type (n : nat) : SeedType :=
  match n with
  | 0 => SeedType_Root | 1 => SeedType_Revocation | 2 => SeedType_Device | 3 => SeedType_DevicePin
  | 4 => SeedType_DNA | 5 => SeedType_OneShot | _ => SeedType_Mock
  end.

#[local] Instance SeedType_countable : Countable SeedType.
Proof. apply (inj_countable' seed_type_number number_seed_type). by intros []. Defined.

Definition blob_type_number (t : BlobType) : nat :=
  match t with
  | BlobType_Seed => 0 | BlobType_KeyBundle => 1 | BlobType_SigningKey => 2 | BlobType_EncryptingKey => 3
  end.
Definition number_blob_type (n : nat) : BlobType :=
  match n with
  | 0 => BlobType_Seed | 1 => BlobType_KeyBundle | 2 => BlobType_SigningKey | _ => BlobType_EncryptingKey
  end.

#[local] Instance BlobType_countable : Countable BlobType.
Proof. apply (inj_countable' blob_type_number number_blob_type). by intros []. Defined.

#[local] Instance KeyBlob_eq_dec : EqDecision KeyBlob.
Proof. solve_decision. Defined.

#[local] Instance KeyBlob_countable : Countable KeyBlob.
Proof.
  apply (inj_countable' (λ b, (blob_type b, blob_seed_type b, hint b, blob_data b))
    (λ '(t, s, h, d), {| blob_type := t; blob_seed_type := s; hint := h; blob_data := d |})).
  by intros [].
Defined.

(** The service answers with [p]. *)
Definition toy_keystore_env (p : bytes) : KeystoreEnv := {|
  request_passphrase _ := Ok p;
  random i n := replicate n (Z.of_nat i);
  hash_interactive := {| ops_limit := 2; mem_limit := 64; pw_hash_algo := 2 |};
  base64 b := digits (encode b);
  base64_bytes s := result_ok (toy_decode s);
  error_debug _ := "error";
  error_text _ := "error";
  params_debug _ := "params";
  keystore_text check blobs := digits (encode (check, blobs));
  text_keystore s := toy_decode s;
  open_error path := HolochainError_IoError path;
  create_file _ := Ok ();
  sha256 n b := Ok (padded n b);
|}.

Lemma toy_keystore_laws p : @KeystoreLaws (toy_keystore_env p).
Proof.
  split.
  - intros. apply length_replicate.
  - intros b. cbn [base64 base64_bytes toy_keystore_env]. by rewrite toy_decode_digits.
  - intros check blobs. cbn [keystore_text text_keystore toy_keystore_env]. by rewrite toy_decode_digits.
Qed.

(** *** Examples *)

Definition alice : bytes := [1%Z; 2%Z; 3%Z].
Definition mallory : bytes := [4%Z; 5%Z; 6%Z].

#[local] Instance alice_env : KeystoreEnv := toy_keystore_env alice.
#[local] Instance alice_laws : KeystoreLaws := toy_keystore_laws alice.

Definition blank_world : World := reboot
  {| keystore := {| passphrase_check := ""; secrets := ∅; cache := ∅; passphrase_manager := false;
                    hash_config := None |};
     manager := PassphraseManager_new 0; draws := 0; files := ∅; now := 0 |}.

Definition alice_keystore : Keystore :=
  match (Keystore_new None blank_world).1 with
  | Ret (Ok k) => k
  | _ => keystore blank_world
  end.

Definition alice_created : World := (Keystore_new None blank_world).2.

Lemma alice_new : Keystore_new None blank_world = (Ret (Ok alice_keystore), alice_created).
Proof. vm_compute. reflexivity. Qed.

Lemma alice_default : check_passphrase alice_keystore (bytes_of_string DEFAULT_PASSPHRASE) = Ret (Ok true) →
  bytes_of_string DEFAULT_PASSPHRASE = alice.
Proof. vm_compute. discriminate. Qed.

Definition example_seed : bytes := replicate SEED_SIZE 9%Z.
Definition alice_ops : list Op :=
  [Op_AddSeed "seed" example_seed; Op_AddKeyFromSeed "seed" "key" KeyType_Signing].
Definition alice_world : World := perform_all alice_ops (with_keystore alice_keystore alice_created).

Lemma alice_says : service_says alice.
Proof. by intros n q [= <-]. Qed.

Lemma alice_coherent : coherent alice alice_world.
Proof.
  eapply perform_all_spec; [apply alice_says| |by repeat constructor].
  apply (new_coherent alice None blank_world _ alice_created); [apply alice_says|done|apply alice_new|apply alice_default].
Qed.

Lemma alice_stored : stored alice (keystore alice_world) "seed" (Secret_Seed example_seed).
Proof. eexists. split; vm_compute; reflexivity. Qed.

(** What a check made with [c] decrypts to with another passphrase. *)
Lemma toy_check_decrypts salt nonce b c config check q : length salt = SALTBYTES → length b = PCHECK_SIZE →
  encrypt_with_passphrase_buf salt nonce b c config = Ret (Ok check) →
  decrypt_with_passphrase_buf check q config PCHECK_SIZE =
  Ret (Ok (Z.add (key_sum (padded kx_SESSIONKEYBYTES c) - key_sum (padded kx_SESSIONKEYBYTES q)) <$> b)).
Proof.
  intros Hs Hb Ht. apply hc_ok_bind in Ht as (d & Hd & Ht).
  assert (check = encrypted_text d) as -> by by injection Ht. clear Ht.
  apply hc_ok_bind in Hd as (secret & Hsecret & Hd). injection Hsecret as <-.
  apply hc_ok_bind in Hd as (cipher & Hcipher & Hd). injection Hd as <-.
  unfold decrypt_with_passphrase_buf, pw_dec, lift. rewrite encrypted_round_trip. hc.
  cbn [Dpki.salt Dpki.nonce Dpki.cipher]. rewrite !from_array_ok by done. hc. clear Hs.
  set (kc := padded kx_SESSIONKEYBYTES c) in *. set (kq := padded kx_SESSIONKEYBYTES q).
  change (pw_hash kx_SESSIONKEYBYTES q salt config) with (Ret (Ok (E := HolochainError) kq)). hc.
  change (aead_dec (secbuf PCHECK_SIZE) kq nonce cipher) with
    (let plain := Z.add (- key_sum kq) <$> take (length cipher - ABYTES) cipher in
     (if Nat.leb (length plain) (length (secbuf PCHECK_SIZE))
      then (plain ++ drop (length plain) (secbuf PCHECK_SIZE))%list else secbuf PCHECK_SIZE,
      Ok (E := HolochainError) ())).
  assert (cipher = ((Z.add (key_sum kc) <$> b) ++ toy_tag)%list) as -> by by injection Hcipher. cbv zeta.
  rewrite length_app, length_fmap, length_toy_tag, Nat.add_sub, take_app_length' by by rewrite length_fmap.
  rewrite <- list_fmap_compose, length_fmap, Hb, secbuf_length, Nat.leb_refl, drop_ge by by rewrite secbuf_length.
  rewrite app_nil_r. hc. rewrite length_fmap, Hb, Nat.eqb_refl. cbn [negb].
  unfold mret, Hc_ret. do 2 f_equal.
  apply list_fmap_ext. intros _ x _. cbn. lia.
Qed.

(** The default passphrase does not pass a check that was made with [mallory]. *)
Lemma mallory_told_apart : default_told_apart alice mallory.
Proof.
  intros k (salt & nonce & b & Hs & Hb & Hh & He) Hc. exfalso. unfold check_passphrase in Hc.
  rewrite (toy_check_decrypts _ _ _ _ _ _ (bytes_of_string DEFAULT_PASSPHRASE) Hs Hb He) in Hc.
  unfold slice in Hc. cbn [mbind Hc_bind mret Hc_ret] in Hc. rewrite length_fmap, Hb in Hc. cbn [Nat.leb andb] in Hc. 
  change (PCHECK_HEADER_SIZE <=? PCHECK_SIZE) with true in Hc. cbn [andb] in Hc. cbn [mbind Hc_bind mret Hc_ret] in Hc.
  rewrite drop_0, Nat.sub_0_r, <- fmap_take, Hh in Hc. vm_compute in Hc. discriminate Hc.
Qed.

Lemma alice_ops_ok : Forall (op_ok alice)
  [Op_Sign "key" "hello"; Op_ChangePassphrase alice mallory; Op_AddRandomSeed "other" 32].
Proof. repeat constructor. apply mallory_told_apart. Qed.

Lemma keystores_keep_secrets_witness :
  (get "seed" alice_world).1 = Ret (Ok (Secret_Seed example_seed)) ∧
  coherent alice (perform_all
    [Op_Sign "key" "hello"; Op_ChangePassphrase alice mallory; Op_AddRandomSeed "other" 32] alice_world).
Proof.
  assert (Hg : (get "seed" alice_world).1 = Ret (Ok (Secret_Seed example_seed))) by (vm_compute; reflexivity).
  assert (Hops : Forall (op_ok alice) alice_ops) by by repeat constructor.
  split; [exact Hg|].
  exact (proj1 (keystores_keep_secrets alice None blank_world alice_created alice_keystore alice_ops
    _ "seed" (Secret_Seed example_seed) alice_says eq_refl alice_new alice_default Hops alice_ops_ok Hg)).
Defined.

Lemma secrets_survive_restart_witness :
  (get "seed" alice_world).1 = Ret (Ok (Secret_Seed example_seed)) ∧
  ((reloaded ← new_from_file "keys" None; set_keystore reloaded;; get "seed")
    (reboot (after (save "keys") (perform_all
      [Op_Sign "key" "hello"; Op_ChangePassphrase alice mallory; Op_AddRandomSeed "other" 32] alice_world)))).1 =
  Ret (Ok (Secret_Seed example_seed)).
Proof.
  assert (Hg : (get "seed" alice_world).1 = Ret (Ok (Secret_Seed example_seed))) by (vm_compute; reflexivity).
  assert (Hops : Forall (op_ok alice) alice_ops) by by repeat constructor.
  split; [exact Hg|].
  exact (secrets_survive_restart alice None blank_world alice_created alice_keystore alice_ops
    _ "seed" (Secret_Seed example_seed) "keys" (λ _, eq_refl) eq_refl alice_new alice_default Hops alice_ops_ok
    eq_refl Hg).
Defined.

Lemma keystore_signatures_verify_witness : ∃ public_key signature b,
  (add_signing_key_from_seed "seed" "key2" alice_world).1 = Ret (Ok public_key) ∧
  (sign "key2" "hello" (perform_all [Op_ManagerIteration] (add_signing_key_from_seed "seed" "key2" alice_world).2)).1
    = Ret (Ok signature) ∧
  base64_bytes signature = Some b ∧ verify_bufs public_key (bytes_of_string "hello") b = Ret (Ok true).
Proof.
  edestruct (keystore_signatures_verify alice alice_world
    (add_signing_key_from_seed "seed" "key2" alice_world).2 "seed" "key2" "hello") as (b & Hb & Hv);
    [exact alice_says|exact alice_coherent|by repeat constructor| | |].
  - vm_compute. reflexivity.
  - vm_compute. reflexivity.
  - eexists _, _, b. split; [|split; [|split; [exact Hb|exact Hv]]]; vm_compute; reflexivity.
Defined.

(** The manager has another passphrase than the keystore was made with. *)
Definition mallory_asked : World :=
  (set_manager (E := ()) {| passphrase_cache := Some mallory; requests := 1; last_read := 0 |} alice_world).2.

Lemma wrong_passphrase_not_refused_witness :
  check_passphrase (keystore mallory_asked) mallory = Ret (Ok false) ∧
  (add_seed "other" example_seed mallory_asked).1 = Ret (Ok ()).
Proof.
  assert (Hc : check_passphrase (keystore mallory_asked) mallory = Ret (Ok false)) by (vm_compute; reflexivity).
  assert (Hm : passphrase_manager (keystore mallory_asked) = true) by (vm_compute; reflexivity).
  assert (Hid : secrets (keystore mallory_asked) !! "other" = None) by (vm_compute; reflexivity).
  assert (He : ∀ salt nonce b, ∃ t,
    encrypt_with_passphrase_buf salt nonce b mallory (hash_config (keystore mallory_asked)) = Ret (Ok t))
    by (clear; intros; eexists; reflexivity).
  split; [exact Hc|].
  exact (proj1 (wrong_passphrase_not_refused mallory_asked "other" example_seed mallory
    Hm eq_refl Hc Hid eq_refl He)).
Defined.

Definition short_seed_params : gmap string Value :=
  {["dst_id" := Value_String "short"; "size" := Value_Integer 16]}.

Lemma odd_seed_panics_witness :
  check_passphrase (keystore alice_world) alice = Ret (Ok true) ∧
  (keystore_method "agent/keystore/add_random_seed"
    (Params_Map short_seed_params) alice_world).1 = Panic.
Proof.
  assert (Hc : check_passphrase (keystore alice_world) alice = Ret (Ok true)) by (vm_compute; reflexivity).
  assert (Hm : passphrase_manager (keystore alice_world) = true) by (vm_compute; reflexivity).
  assert (Hq : passphrase_cache (manager alice_world) = Some alice) by (vm_compute; reflexivity).
  assert (Hid : secrets (keystore alice_world) !! "short" = None) by (vm_compute; reflexivity).
  assert (Hr : (0 ≤ 16 ≤ ISIZE_MAX)%Z) by (clear; vm_compute; split; discriminate).
  assert (Hn : 16%Z ≠ Z.of_nat SEED_SIZE) by discriminate.
  split; [exact Hc|].
  exact (odd_seed_panics alice_world short_seed_params "short" 16 alice true Hm Hq Hc Hid eq_refl eq_refl Hr Hn).
Defined.

(** After [change_passphrase] the keystore accepts the new passphrase, but what was
    stored was not encrypted again: read with it, a seed is another one. *)
Definition changed_world : World := after (change_passphrase alice mallory) alice_world.

Example changed_passphrase_strands_secrets :
  (change_passphrase alice mallory alice_world).1 = Ret (Ok ()) ∧
  check_passphrase (keystore changed_world) mallory = Ret (Ok true) ∧
  stored alice (keystore changed_world) "seed" (Secret_Seed example_seed) ∧
  (@get toy_sodium (toy_keystore_env mallory) "seed"
    (with_keystore (reloaded_from (keystore changed_world)) (reboot changed_world))).1 =
    Ret (Ok (Secret_Seed (replicate SEED_SIZE 0%Z))).
Proof.
  split; [vm_compute; reflexivity|]. split; [vm_compute; reflexivity|].
  split; [eexists; split; vm_compute; reflexivity|]. vm_compute. reflexivity.
Qed.
