(* ===== verification/Streams.v ===== *)
(** * Streams

    Models the crate [src/crates/in_stream]: streams that do not block, stacked on
    each other, with which a node talks to the switchboard of Sim2h.v:
    [tcp.rs], [tls.rs] and [ws.rs] (with [ws/frame.rs]).  Each has a handshake that
    goes on with every call, and a buffer for what is written before it is over.

    What lies between these layers is not part of the repository: the sockets of
    the operating system and the encryption of native_tls are instances of the
    class [ByteStream], the web sockets of tungstenite of [Tungstenite], addresses
    of [Urls].  Their operations take the number of the call, so that what is
    proved holds whatever the network does in between.

    The theorems: each layer hands on what was written, in order and exactly once
    ([tcp_writes_in_order], [tls_writes_in_order], [frames_in_order]); when a peer
    is considered gone ([slow_peer_times_out], [timely_peer_is_kept]); and that
    flushing a web socket whose handshake failed does not return
    ([failed_flush_hangs]). *)

From S2P Require Import Prelude.
From Stdlib Require Import Strings.Byte.
From stdpp Require Import pretty.

Local Open Scope string_scope.

(** ** error.rs *)

Inductive ErrorKind : Type :=
| ErrorKind_WouldBlock
| ErrorKind_NotConnected
| ErrorKind_TimedOut
| ErrorKind_ConnectionRefused
| ErrorKind_BrokenPipe
| ErrorKind_AddrInUse
| ErrorKind_InvalidInput
| ErrorKind_Other.

#[export] Instance ErrorKind_eq_dec : EqDecision ErrorKind.
Proof. solve_decision. Defined.

Record IoError : Type := {
  error_kind : ErrorKind;
  error_text : string;
  raw_os_error : option Z;
}.

Definition io_error (kind : ErrorKind) (text : string) : IoError :=
  {| error_kind := kind; error_text := text; raw_os_error := None |}.

Definition with_would_block : IoError := io_error ErrorKind_WouldBlock "".
Definition not_connected : IoError := io_error ErrorKind_NotConnected "".

Definition would_block (e : IoError) : bool := bool_decide (error_kind e = ErrorKind_WouldBlock).

(** ** Programs

    A stream and the number of calls to the outside so far.  What happened before
    an error or a panic stays. *)

Record Io (S : Type) : Type := { stream : S; calls : nat }.
Arguments stream {S} _.
Arguments calls {S} _.

Definition IO (S A : Type) : Type := Io S → Outcome (Result IoError A) * Io S.

#[export] Instance IO_ret {S} : MRet (IO S) := λ _ x w, (Ret (Ok x), w).
#[export] Instance IO_bind {S} : MBind (IO S) := λ _ _ f m w,
  match m w with
  | (Ret (Ok x), w) => f x w
  | (Ret (Err e), w) => (Ret (Err e), w)
  | (Panic, w) => (Panic, w)
  | (NoFuel, w) => (NoFuel, w)
  end.

Definition get {S A} (f : S → A) : IO S A := λ w, (Ret (Ok (f (stream w))), w).
Definition modify {S} (f : S → S) : IO S () := λ w,
  (Ret (Ok ()), {| stream := f (stream w); calls := calls w |}).
Definition throw {S A} (e : IoError) : IO S A := λ w, (Ret (Err e), w).
Definition panic {S A} : IO S A := λ w, (Panic, w).
Definition out_of_fuel {S A} : IO S A := λ w, (NoFuel, w).
Definition returns {S A} (r : Result IoError A) : IO S A := λ w, (Ret r, w).

(** A call to the outside, and [match] on the result of a call. *)
Definition call {S A} (f : nat → S → A * S) : IO S A := λ w,
  let '(x, s) := f (calls w) (stream w) in (Ret (Ok x), {| stream := s; calls := Datatypes.S (calls w) |}).
Definition attempt {S A} (m : IO S A) : IO S (Result IoError A) := λ w,
  match m w with
  | (Ret r, w) => (Ret (Ok r), w)
  | (Panic, w) => (Panic, w)
  | (NoFuel, w) => (NoFuel, w)
  end.

(** The loop of the callers of a handshake: an error that would block is none. *)
Definition unless_blocked {S} (m : IO S ()) : IO S () :=
  r ← attempt m;
  match r with
  | Ok _ => mret ()
  | Err e => if would_block e then mret () else throw e
  end.

(** ** What is outside *)

(** [std::net::TcpStream] and [native_tls::TlsStream]; [taken] is what was
    written, for the laws. *)
Class ByteStream (T : Type) : Type := {
  sink_write : nat → T → list byte → Result IoError nat * T;
  sink_read : nat → T → nat → Result IoError (list byte) * T;
  sink_flush : nat → T → Result IoError () * T;
  taken : T → list byte;
}.

(** [write] returns how many of the first bytes were written, none if it failed. *)
Class ByteStreamLaws (T : Type) `{!ByteStream T} : Prop := {
  write_taken n t data r t' : sink_write n t data = (r, t') →
    match r with
    | Ok k => (k ≤ length data)%nat ∧ taken t' = (taken t ++ take k data)%list
    | Err _ => taken t' = taken t
    end;
  read_taken n t k : taken (sink_read n t k).2 = taken t;
  flush_taken n t : taken (sink_flush n t).2 = taken t;
}.

Class Urls : Type := {
  scheme : string → string;
  host_str : string → option string;
  port : string → option Z;
  set_scheme : string → string → option string;
}.

(** The clock, in milliseconds, by the number of the call. *)
Class Clock : Type := instant : nat → Z.

Definition now `{Clock} {S} : IO S Z := call (λ n s, (instant n, s)).

(** [validate_url_scheme] of the layers, with the text as it is. *)
Definition validate_url_scheme `{Urls} {S} (SCHEME url : string) : IO S () :=
  if decide (scheme url = SCHEME) then mret ()
  else throw (io_error ErrorKind_InvalidInput ("got: '" +:+ SCHEME +:+ "', expected: '" +:+ url +:+ "://...'")).

(** ** The buffer of a byte stream

    The code that tcp.rs and tls.rs share, word for word. *)

Section buffer.
Context {T : Type} `{ByteStream T}.
Context {S : Type}.

(** Where a stream has its sink and its buffer. *)
Variable put : T → list byte → S → S.

(** The end of [priv_write_pending]: [drain] panics if there is less. *)
Definition drain_pending (t : T) (buf : list byte) : IO S () :=
  '(r, t) ← call (λ n s, let '(r, t) := sink_write n t buf in ((r, t), put t buf s));
  match r with
  | Ok written => if Nat.ltb (length buf) written then panic else modify (put t (drop written buf))
  | Err e => if would_block e then mret () else throw e
  end.

(** [write] when nothing is pending: what is not taken is buffered. *)
Definition write_through (t : T) (data : list byte) : IO S nat :=
  '(r, t) ← call (λ n s, let '(r, t) := sink_write n t data in ((r, t), put t [] s));
  match r with
  | Ok written =>
      _ ← (if Nat.ltb written (length data) then modify (put t (drop written data)) else mret ());
      mret (length data)
  | Err e =>
      if would_block e then _ ← modify (put t data); mret (length data) else throw e
  end.
End buffer.

(** ** tcp.rs *)

Definition TCP_SCHEME : string := "tcp".

Inductive SocketAddr : Type :=
| SocketAddr_V4 (addr : string)
| SocketAddr_V6 (addr : string).

Definition is_ipv4 (addr : SocketAddr) : bool :=
  match addr with SocketAddr_V4 _ => true | SocketAddr_V6 _ => false end.

Record TcpConnectingData : Type := { addr : SocketAddr; connect_timeout : option Z }.

Record InStreamTcp (T : Type) : Type := {
  tcp : T;
  tcp_url : string;
  tcp_connecting : option TcpConnectingData;
  tcp_write_buf : list byte;
}.
Arguments tcp {T} _.
Arguments tcp_url {T} _.
Arguments tcp_connecting {T} _.
Arguments tcp_write_buf {T} _.

(** The first address of version 4, or the last one. *)
Fixpoint preferred_addr (fallback : option SocketAddr) (addrs : list SocketAddr) : option SocketAddr :=
  match addrs with
  | [] => fallback
  | tmp :: addrs => if is_ipv4 tmp then Some tmp else preferred_addr (Some tmp) addrs
  end.

Section tcp.
Context {T : Type} `{ByteStream T} `{Urls} `{Clock}.

(** Resolving [host:port], connecting a socket, and making one. *)
Variable to_socket_addrs : string → option (list SocketAddr).
Variable socket_connect : nat → T → SocketAddr → Result IoError () * T.

Definition tcp_url_to_socket_addr (url : string) : Result IoError SocketAddr :=
  match bool_decide (scheme url = TCP_SCHEME), host_str url, port url with
  | true, Some host, Some port =>
      let rendered := host +:+ ":" +:+ pretty port in
      ok_or (io_error ErrorKind_InvalidInput ("could not parse '" +:+ rendered +:+ "', as 'host:port'"))
        (to_socket_addrs rendered ≫= preferred_addr None)
  | _, _, _ =>
      Err (io_error ErrorKind_InvalidInput
             ("got: '" +:+ TCP_SCHEME +:+ "', expected: '" +:+ url +:+ "://host:port'"))
  end.

Definition tcp_put (t : T) (buf : list byte) (s : InStreamTcp T) : InStreamTcp T :=
  {| tcp := t; tcp_url := tcp_url s; tcp_connecting := tcp_connecting s; tcp_write_buf := buf |}.
Definition tcp_set_connecting (c : option TcpConnectingData) (s : InStreamTcp T) : InStreamTcp T :=
  {| tcp := tcp s; tcp_url := tcp_url s; tcp_connecting := c; tcp_write_buf := tcp_write_buf s |}.

Definition tcp_priv_new (t : T) (url : string) (connecting : option TcpConnectingData) : InStreamTcp T :=
  {| tcp := t; tcp_url := url; tcp_connecting := connecting; tcp_write_buf := [] |}.

(** [raw_connect] from the socket on: a failed attempt is tried again later. *)
Definition connect_socket (t : T) (n m : nat) (url : string) (addr : SocketAddr)
    (connect_timeout_ms : option Z) : InStreamTcp T :=
  match socket_connect n t addr with
  | (Err _, t) =>
      tcp_priv_new t url (Some {| addr := addr; connect_timeout := (λ ms, (instant m + ms)%Z) <$> connect_timeout_ms |})
  | (Ok _, t) => tcp_priv_new t url None
  end.

(** 56 is the code of a socket that is connected already, on some systems. *)
Definition tcp_priv_process : IO (InStreamTcp T) () :=
  c ← get tcp_connecting;
  _ ← match c with
      | Some cdata =>
          r ← call (λ n s, let '(r, t) := socket_connect n (tcp s) (addr cdata) in (r, tcp_put t (tcp_write_buf s) s));
          match r with
          | Err e => if decide (raw_os_error e = Some 56%Z) then modify (tcp_set_connecting None) else mret ()
          | Ok _ => modify (tcp_set_connecting None)
          end
      | None => mret ()
      end;
  c ← get tcp_connecting;
  match c ≫= connect_timeout with
  | Some timeout => t ← now; if Z.leb timeout t then throw (io_error ErrorKind_TimedOut "") else mret ()
  | None => mret ()
  end.

Definition tcp_priv_write_pending : IO (InStreamTcp T) () :=
  s ← get id;
  match tcp_write_buf s, tcp_connecting s with
  | [], _ | _, Some _ => mret ()
  | buf, None => drain_pending tcp_put (tcp s) buf
  end.

Definition tcp_check_ready : IO (InStreamTcp T) bool :=
  _ ← tcp_priv_process; c ← get tcp_connecting; mret (match c with None => true | Some _ => false end).

Definition tcp_read (len : nat) : IO (InStreamTcp T) (list byte) :=
  _ ← tcp_priv_process;
  _ ← tcp_priv_write_pending;
  c ← get tcp_connecting;
  match c with
  | None =>
      r ← call (λ n s, let '(r, t) := sink_read n (tcp s) len in (r, tcp_put t (tcp_write_buf s) s));
      returns r
  | Some _ => throw with_would_block
  end.

Definition tcp_write (data : list byte) : IO (InStreamTcp T) nat :=
  _ ← tcp_priv_process;
  s ← get id;
  match tcp_connecting s, tcp_write_buf s with
  | None, [] => write_through tcp_put (tcp s) data
  | None, buf =>
      _ ← modify (tcp_put (tcp s) (buf ++ data)%list);
      _ ← tcp_priv_write_pending;
      mret (length data)
  | Some _, buf => _ ← modify (tcp_put (tcp s) (buf ++ data)%list); mret (length data)
  end.

Fixpoint tcp_flush (fuel : nat) : IO (InStreamTcp T) () :=
  match fuel with
  | 0 => out_of_fuel
  | S fuel =>
      _ ← tcp_priv_process;
      c ← get tcp_connecting;
      _ ← match c with
          | None =>
              _ ← tcp_priv_write_pending;
              r ← call (λ n s, let '(r, t) := sink_flush n (tcp s) in (r, tcp_put t (tcp_write_buf s) s));
              returns r
          | Some _ => mret ()
          end;
      buf ← get tcp_write_buf;
      match buf with [] => mret () | _ => tcp_flush fuel end
  end.
End tcp.

(** ** tls.rs *)

(** What a handshake gives. *)
Inductive Handshake (Done Mid : Type) : Type :=
| Handshake_Done (done : Done)
| Handshake_Interrupted (mid : Mid)
| Handshake_Failure (text : string).
Arguments Handshake_Done {Done Mid} _.
Arguments Handshake_Interrupted {Done Mid} _.
Arguments Handshake_Failure {Done Mid} _.

Definition TLS_SCHEME : string := "tls".

Inductive TlsState (T Mid : Type) : Type :=
| TlsState_MidHandshake (mid : Mid)
| TlsState_Ready (tls : T).
Arguments TlsState_MidHandshake {T Mid} _.
Arguments TlsState_Ready {T Mid} _.

Record InStreamTls (T Mid : Type) : Type := {
  tls_state : option (TlsState T Mid);
  tls_remote_url : string;
  tls_write_buf : list byte;
}.
Arguments tls_state {T Mid} _.
Arguments tls_remote_url {T Mid} _.
Arguments tls_write_buf {T Mid} _.

Section tls.
Context {T Mid : Type} `{ByteStream T} `{Urls}.

(** The address of the stream below, and going on with a handshake. *)
Variable tls_peer_url : T → string.
Variable mid_peer_url : Mid → string.
Variable handshake : nat → Mid → Handshake T Mid.

Definition tls_set_state (st : option (TlsState T Mid)) (s : InStreamTls T Mid) : InStreamTls T Mid :=
  {| tls_state := st; tls_remote_url := tls_remote_url s; tls_write_buf := tls_write_buf s |}.
Definition tls_set_remote_url (url : string) (s : InStreamTls T Mid) : InStreamTls T Mid :=
  {| tls_state := tls_state s; tls_remote_url := url; tls_write_buf := tls_write_buf s |}.
Definition tls_set_write_buf (buf : list byte) (s : InStreamTls T Mid) : InStreamTls T Mid :=
  {| tls_state := tls_state s; tls_remote_url := tls_remote_url s; tls_write_buf := buf |}.
Definition tls_put (t : T) (buf : list byte) (s : InStreamTls T Mid) : InStreamTls T Mid :=
  tls_set_write_buf buf (tls_set_state (Some (TlsState_Ready t)) s).

Definition tls_priv_new : InStreamTls T Mid := {| tls_state := None; tls_remote_url := ""; tls_write_buf := [] |}.

(** [self.remote_url = url; self.remote_url.set_scheme(SCHEME).unwrap()]. *)
Definition tls_assign_remote_url (url : string) : IO (InStreamTls T Mid) () :=
  _ ← modify (tls_set_remote_url url);
  match set_scheme TLS_SCHEME url with
  | Some url => modify (tls_set_remote_url url)
  | None => panic
  end.

Definition priv_proc_tls_result (result : Handshake T Mid) : IO (InStreamTls T Mid) () :=
  match result with
  | Handshake_Done tls =>
      _ ← tls_assign_remote_url (tls_peer_url tls);
      modify (tls_set_state (Some (TlsState_Ready tls)))
  | Handshake_Interrupted mid =>
      _ ← tls_assign_remote_url (mid_peer_url mid);
      _ ← modify (tls_set_state (Some (TlsState_MidHandshake mid)));
      throw with_would_block
  | Handshake_Failure text => throw (io_error ErrorKind_ConnectionRefused ("tls: " +:+ text))
  end.

(** The end of [accept] and [raw_connect], after the first step of the handshake. *)
Definition tls_open (result : Handshake T Mid) : IO (InStreamTls T Mid) () :=
  unless_blocked (priv_proc_tls_result result).

Definition tls_priv_process : IO (InStreamTls T Mid) () :=
  st ← get tls_state;
  match st with
  | None | Some (TlsState_Ready _) => mret ()
  | Some (TlsState_MidHandshake mid) =>
      result ← call (λ n s, (handshake n mid, tls_set_state None s));
      unless_blocked (priv_proc_tls_result result)
  end.

Definition tls_priv_write_pending : IO (InStreamTls T Mid) () :=
  s ← get id;
  match tls_write_buf s, tls_state s with
  | [], _ => mret ()
  | _, None => throw not_connected
  | buf, Some (TlsState_Ready tls) => drain_pending tls_put tls buf
  | _, Some (TlsState_MidHandshake _) => mret ()
  end.

Definition tls_check_ready : IO (InStreamTls T Mid) bool :=
  _ ← tls_priv_process;
  st ← get tls_state;
  mret (match st with Some (TlsState_Ready _) => true | _ => false end).

Definition tls_read (len : nat) : IO (InStreamTls T Mid) (list byte) :=
  _ ← tls_priv_process;
  _ ← tls_priv_write_pending;
  st ← get tls_state;
  match st with
  | None => throw not_connected
  | Some (TlsState_MidHandshake _) => throw with_would_block
  | Some (TlsState_Ready tls) =>
      r ← call (λ n s, let '(r, t) := sink_read n tls len in (r, tls_put t (tls_write_buf s) s));
      returns r
  end.

Definition tls_write (data : list byte) : IO (InStreamTls T Mid) nat :=
  _ ← tls_priv_process;
  s ← get id;
  match tls_state s, tls_write_buf s with
  | None, _ => throw not_connected
  | Some (TlsState_MidHandshake _), buf => _ ← modify (tls_set_write_buf (buf ++ data)%list); mret (length data)
  | Some (TlsState_Ready tls), [] => write_through tls_put tls data
  | Some (TlsState_Ready _), buf =>
      _ ← modify (tls_set_write_buf (buf ++ data)%list);
      _ ← tls_priv_write_pending;
      mret (length data)
  end.

Fixpoint tls_flush (fuel : nat) : IO (InStreamTls T Mid) () :=
  match fuel with
  | 0 => out_of_fuel
  | S fuel =>
      _ ← tls_priv_process;
      _ ← tls_priv_write_pending;
      st ← get tls_state;
      _ ← match st with
          | Some (TlsState_Ready tls) =>
              r ← call (λ n s, let '(r, t) := sink_flush n tls in (r, tls_put t (tls_write_buf s) s));
              returns r
          | _ => mret ()
          end;
      buf ← get tls_write_buf;
      match buf with [] => mret () | _ => tls_flush fuel end
  end.
End tls.

(** ** ws/frame.rs *)

Record CloseData : Type := { code : Z; reason : string }.

Inductive WsFrame : Type :=
| WsFrame_Text (s : string)
| WsFrame_Binary (b : list byte)
| WsFrame_Ping (b : list byte)
| WsFrame_Pong (b : list byte)
| WsFrame_Close (c : CloseData).

(** [tungstenite::protocol::Message], and its errors as far as they are told
    apart. *)
Inductive Message (CloseCode : Type) : Type :=
| Message_Text (s : string)
| Message_Binary (b : list byte)
| Message_Ping (b : list byte)
| Message_Pong (b : list byte)
| Message_Close (c : option (CloseCode * string)).
Arguments Message_Text {CloseCode} _.
Arguments Message_Binary {CloseCode} _.
Arguments Message_Ping {CloseCode} _.
Arguments Message_Pong {CloseCode} _.
Arguments Message_Close {CloseCode} _.

Inductive WsError : Type :=
| WsError_Io (e : IoError)
| WsError_Other (text : string).

(** Web sockets with their handshakes, as a client and as a server; [posted] is
    what was given to [write_message] and not refused, for the laws. *)
Class Tungstenite : Type := {
  CloseCode : Type;
  close_code : Z → CloseCode;
  close_number : CloseCode → Z;
  WebSocket : Type;
  MidCli : Type;
  MidSrv : Type;
  write_message : nat → WebSocket → Message CloseCode → Result WsError () * WebSocket;
  read_message : nat → WebSocket → Result WsError (Message CloseCode) * WebSocket;
  write_pending : nat → WebSocket → Result WsError () * WebSocket;
  cli_handshake : nat → MidCli → Handshake WebSocket MidCli;
  srv_handshake : nat → MidSrv → Handshake WebSocket MidSrv;
  socket_url : WebSocket → string;
  srv_mid_url : MidSrv → string;
  posted : WebSocket → list (Message CloseCode);
}.

Section frame.
Context `{Tungstenite}.

Definition frame_of (m : Message CloseCode) : WsFrame :=
  match m with
  | Message_Text s => WsFrame_Text s
  | Message_Binary b => WsFrame_Binary b
  | Message_Ping b => WsFrame_Ping b
  | Message_Pong b => WsFrame_Pong b
  | Message_Close None => WsFrame_Close {| code := 1005; reason := "" |}
  | Message_Close (Some (c, r)) => WsFrame_Close {| code := close_number c; reason := r |}
  end.

Definition message_of (f : WsFrame) : Message CloseCode :=
  match f with
  | WsFrame_Text s => Message_Text s
  | WsFrame_Binary b => Message_Binary b
  | WsFrame_Ping b => Message_Ping b
  | WsFrame_Pong b => Message_Pong b
  | WsFrame_Close c => Message_Close (Some (close_code (code c), reason c))
  end.
End frame.

(** ** ws.rs *)

Definition WSS_SCHEME : string := "ws".

Section wss.
Context `{Tungstenite} `{Urls} `{Clock}.

Inductive WssState : Type :=
| WssState_MidCliHandshake (mid : MidCli)
| WssState_MidSrvHandshake (mid : MidSrv)
| WssState_Ready (wss : WebSocket).

Record InStreamWss : Type := {
  wss_state : option WssState;
  wss_remote_url : string;
  wss_write_buf : list WsFrame;
  last_ping : Z;
  last_pong : Z;
  disconnect_on_slow_pong_ms : option Z;
}.

Definition wss_set_state (st : option WssState) (s : InStreamWss) : InStreamWss :=
  {| wss_state := st; wss_remote_url := wss_remote_url s; wss_write_buf := wss_write_buf s; last_ping := last_ping s;
     last_pong := last_pong s; disconnect_on_slow_pong_ms := disconnect_on_slow_pong_ms s |}.
Definition wss_set_remote_url (url : string) (s : InStreamWss) : InStreamWss :=
  {| wss_state := wss_state s; wss_remote_url := url; wss_write_buf := wss_write_buf s; last_ping := last_ping s;
     last_pong := last_pong s; disconnect_on_slow_pong_ms := disconnect_on_slow_pong_ms s |}.
Definition wss_set_write_buf (buf : list WsFrame) (s : InStreamWss) : InStreamWss :=
  {| wss_state := wss_state s; wss_remote_url := wss_remote_url s; wss_write_buf := buf; last_ping := last_ping s;
     last_pong := last_pong s; disconnect_on_slow_pong_ms := disconnect_on_slow_pong_ms s |}.
Definition wss_set_last_ping (t : Z) (s : InStreamWss) : InStreamWss :=
  {| wss_state := wss_state s; wss_remote_url := wss_remote_url s; wss_write_buf := wss_write_buf s; last_ping := t;
     last_pong := last_pong s; disconnect_on_slow_pong_ms := disconnect_on_slow_pong_ms s |}.
Definition wss_set_last_pong (t : Z) (s : InStreamWss) : InStreamWss :=
  {| wss_state := wss_state s; wss_remote_url := wss_remote_url s; wss_write_buf := wss_write_buf s; last_ping := last_ping s;
     last_pong := t; disconnect_on_slow_pong_ms := disconnect_on_slow_pong_ms s |}.

(** A call to the web socket. *)
Definition wss_call {A} (f : nat → WebSocket → A * WebSocket) (wss : WebSocket) : IO InStreamWss A :=
  call (λ n s, let '(x, wss) := f n wss in (x, wss_set_state (Some (WssState_Ready wss)) s)).

Definition io_of (e : WsError) : IoError :=
  match e with
  | WsError_Io e => e
  | WsError_Other text => io_error ErrorKind_Other ("tungstenite error: " +:+ text)
  end.

(** A write that would block is queued by tungstenite. *)
Definition priv_write_wss_frame (wss : WebSocket) (frame : WsFrame) : IO InStreamWss () :=
  res ← wss_call (λ n wss, write_message n wss (message_of frame)) wss;
  match res with
  | Ok _ => mret ()
  | Err (WsError_Io e) => if would_block e then mret () else throw e
  | Err e => throw (io_of e)
  end.

Definition wss_priv_new (t1 t2 : Z) (remote_url : string) (disconnect_on_slow_pong_ms : option Z) : InStreamWss :=
  {| wss_state := None; wss_remote_url := remote_url; wss_write_buf := []; last_ping := t1; last_pong := t2;
     disconnect_on_slow_pong_ms := disconnect_on_slow_pong_ms |}.

(** A frame leaves the buffer before it is written. *)
Fixpoint write_frames (buf : list WsFrame) : IO InStreamWss () :=
  match buf with
  | [] => mret ()
  | frame :: buf =>
      st ← get wss_state;
      match st with
      | None => throw not_connected
      | Some (WssState_Ready wss) =>
          _ ← modify (wss_set_write_buf buf);
          _ ← priv_write_wss_frame wss frame;
          write_frames buf
      | Some _ => mret ()
      end
  end.

Definition wss_priv_write_pending : IO InStreamWss () := buf ← get wss_write_buf; write_frames buf.

(** The common end of the two handshakes. *)
Definition wss_ready (wss : WebSocket) : IO InStreamWss () :=
  _ ← modify (wss_set_state (Some (WssState_Ready wss)));
  t ← now; _ ← modify (wss_set_last_ping t);
  t ← now; _ ← modify (wss_set_last_pong t);
  wss_priv_write_pending.

Definition priv_proc_wss_cli_result (result : Handshake WebSocket MidCli) : IO InStreamWss () :=
  match result with
  | Handshake_Done wss => wss_ready wss
  | Handshake_Interrupted mid =>
      _ ← modify (wss_set_state (Some (WssState_MidCliHandshake mid))); throw with_would_block
  | Handshake_Failure text => throw (io_error ErrorKind_ConnectionRefused ("wss_cli: " +:+ text))
  end.

Definition wss_assign_remote_url (url : string) : IO InStreamWss () :=
  _ ← modify (wss_set_remote_url url);
  match set_scheme WSS_SCHEME url with
  | Some url => modify (wss_set_remote_url url)
  | None => panic
  end.

Definition priv_proc_wss_srv_result (result : Handshake WebSocket MidSrv) : IO InStreamWss () :=
  match result with
  | Handshake_Done wss => _ ← wss_assign_remote_url (socket_url wss); wss_ready wss
  | Handshake_Interrupted mid =>
      _ ← wss_assign_remote_url (srv_mid_url mid);
      _ ← modify (wss_set_state (Some (WssState_MidSrvHandshake mid))); throw with_would_block
  | Handshake_Failure text => throw (io_error ErrorKind_ConnectionRefused ("ws_srv: " +:+ text))
  end.

(** The ends of [accept] and [raw_connect], after the first step of the handshake. *)
Definition accept_with (result : Handshake WebSocket MidSrv) : IO InStreamWss () :=
  unless_blocked (priv_proc_wss_srv_result result).
Definition connect_with (result : Handshake WebSocket MidCli) : IO InStreamWss () :=
  unless_blocked (priv_proc_wss_cli_result result).

(** While a web socket is open, it is pinged twice as often as a pong is expected;
    until then the handshake goes on. *)
Definition wss_priv_process : IO InStreamWss () :=
  st ← get wss_state;
  match st with
  | None => mret ()
  | Some (WssState_Ready wss) =>
      slow ← get disconnect_on_slow_pong_ms;
      match slow with
      | Some pong_ms =>
          let ping_ms := (pong_ms / 2)%Z in
          last ← get last_ping; t ← now;
          if Z.ltb ping_ms (t - last) then
            _ ← priv_write_wss_frame wss (WsFrame_Ping []);
            t ← now; modify (wss_set_last_ping t)
          else mret ()
      | None => mret ()
      end
  | Some (WssState_MidCliHandshake mid) =>
      result ← call (λ n s, (cli_handshake n mid, wss_set_state None s));
      unless_blocked (priv_proc_wss_cli_result result)
  | Some (WssState_MidSrvHandshake mid) =>
      result ← call (λ n s, (srv_handshake n mid, wss_set_state None s));
      unless_blocked (priv_proc_wss_srv_result result)
  end.

Definition wss_check_ready : IO InStreamWss bool :=
  _ ← wss_priv_process;
  st ← get wss_state;
  mret (match st with Some (WssState_Ready _) => true | _ => false end).

(** [read] once a message is there: a ping is answered at once. *)
Definition received (msg : Message CloseCode) : IO InStreamWss WsFrame :=
  let data := frame_of msg in
  st ← get wss_state;
  _ ← match data, st with
      | WsFrame_Ping _, Some (WssState_Ready wss) => priv_write_wss_frame wss (WsFrame_Pong [])
      | _, _ => mret ()
      end;
  t ← now;
  _ ← modify (wss_set_last_pong t);
  mret data.

(** [read] when there is nothing to read: a silent peer is given up. *)
Definition nothing_read (e : IoError) : IO InStreamWss WsFrame :=
  slow ← get disconnect_on_slow_pong_ms;
  match would_block e, slow with
  | true, Some pong_ms =>
      last ← get last_pong; t ← now;
      if Z.ltb pong_ms (t - last) then
        throw (io_error ErrorKind_TimedOut ("no messages received in " +:+ pretty pong_ms +:+ " ms"))
      else throw e
  | _, _ => throw e
  end.

Definition wss_read : IO InStreamWss WsFrame :=
  _ ← wss_priv_process;
  st ← get wss_state;
  match st with
  | None => throw not_connected
  | Some (WssState_Ready wss) =>
      r ← wss_call read_message wss;
      match r with
      | Ok msg => received msg
      | Err (WsError_Io e) => nothing_read e
      | Err e => throw (io_of e)
      end
  | Some _ => throw with_would_block
  end.

Definition wss_write (data : WsFrame) : IO InStreamWss nat :=
  _ ← wss_priv_process;
  buf ← get wss_write_buf;
  _ ← modify (wss_set_write_buf (buf ++ [data])%list);
  _ ← wss_priv_write_pending;
  mret 1.

Fixpoint wss_flush (fuel : nat) : IO InStreamWss () :=
  match fuel with
  | 0 => out_of_fuel
  | S fuel =>
      _ ← wss_priv_process;
      _ ← wss_priv_write_pending;
      st ← get wss_state;
      match st with
      | Some (WssState_Ready wss) =>
          r ← wss_call write_pending wss;
          buf ← get wss_write_buf;
          match r, buf with
          | Ok _, [] => mret ()
          | Ok _, _ => wss_flush fuel
          | Err (WsError_Io e), _ => if would_block e then wss_flush fuel else throw e
          | Err e, _ => throw (io_of e)
          end
      | _ => wss_flush fuel
      end
  end.
End wss.

(** ** What holds after a call

    [io_wp E m Q s]: [m] does not panic on the stream [s]; if it returns a value, [Q]
    holds, and if it would block, [E].  After any other error the stream is not
    used any more. *)

Definition io_wp {S A} (E : S → Prop) (m : IO S A) (Q : A → S → Prop) (s : S) : Prop := ∀ n,
  match m {| stream := s; calls := n |} with
  | (Ret (Ok x), w) => Q x (stream w)
  | (Ret (Err e), w) => would_block e = true → E (stream w)
  | (Panic, _) => False
  | (NoFuel, _) => True
  end.

Section rules.
Context {S : Type}.
Implicit Types E : S → Prop.

Lemma io_ret {A} E (x : A) Q s : Q x s → io_wp E (mret x) Q s.
Proof. by intros ? n. Qed.

Lemma io_bind {A B} E (m : IO S A) (f : A → IO S B) Q s :
  io_wp E m (λ x, io_wp E (f x) Q) s → io_wp E (m ≫= f) Q s.
Proof.
  intros Hm n. specialize (Hm n). unfold mbind, IO_bind.
  destruct (m _) as [[[x|e]| |] [s' n']]; [exact (Hm n')|done..].
Qed.

Lemma io_mono {A} E E' (m : IO S A) (Q Q' : A → S → Prop) s :
  io_wp E' m Q' s → (∀ s', E' s' → E s') → (∀ x s', Q' x s' → Q x s') → io_wp E m Q s.
Proof.
  intros Hm HE HQ n. specialize (Hm n). destruct (m _) as [[[x|e]| |] w]; auto.
Qed.

Lemma io_post {A} E (m : IO S A) (Q Q' : A → S → Prop) s :
  io_wp E m Q' s → (∀ x s', Q' x s' → Q x s') → io_wp E m Q s.
Proof. intros Hm. by apply (io_mono E E). Qed.

Lemma io_seq {A B} E (m : IO S A) (f : A → IO S B) Q Q' s :
  io_wp E m Q' s → (∀ x s', Q' x s' → io_wp E (f x) Q s') → io_wp E (m ≫= f) Q s.
Proof. intros Hm Hf. by eapply io_bind, io_post. Qed.

Lemma io_get {A} E (f : S → A) Q s : Q (f s) s → io_wp E (get f) Q s.
Proof. by intros ? n. Qed.

Lemma io_modify E f Q s : Q () (f s) → io_wp E (modify f) Q s.
Proof. by intros ? n. Qed.

Lemma io_throw {A} E e (Q : A → S → Prop) s : (would_block e = true → E s) → io_wp E (throw e) Q s.
Proof. by intros ? n. Qed.

Lemma io_fuel {A} E (Q : A → S → Prop) s : io_wp E out_of_fuel Q s.
Proof. by intros n. Qed.

Lemma io_returns {A} E (r : Result IoError A) Q s :
  match r with Ok x => Q x s | Err e => would_block e = true → E s end → io_wp E (returns r) Q s.
Proof. intros ? n. by destruct r. Qed.

Lemma io_call {A} E (f : nat → S → A * S) Q s :
  (∀ n x s', f n s = (x, s') → Q x s') → io_wp E (call f) Q s.
Proof. intros Hf n. unfold call. cbn. destruct (f n s) as [x s'] eqn:Heq. by apply (Hf n). Qed.

Lemma io_now `{Clock} E Q s : (∀ t, Q t s) → io_wp E now Q s.
Proof. intros HQ. apply io_call. intros n x s' [= <- <-]. apply HQ. Qed.

Lemma io_unless_blocked E m (Q : () → S → Prop) s : io_wp (Q ()) m Q s → io_wp E (unless_blocked m) Q s.
Proof.
  intros Hm n. specialize (Hm n). unfold unless_blocked, mbind, IO_bind, attempt.
  destruct (m _) as [[[[]|e]| |] w]; [done| |done..].
  destruct (would_block e) eqn:He; [by apply Hm|]. cbn. congruence.
Qed.
End rules.

(** ** The trait

    [InStream], and what its documentation promises to those who write: [sent] is
    what the layer has handed on, [owed] also what it has buffered. *)

Class InStream (S D R : Type) : Type := {
  in_check_ready : IO S bool;
  in_read : nat → IO S R;
  in_write : D → IO S nat;
  in_flush : nat → IO S ();
}.

Class Ordered (S D R B : Type) `{!InStream S D R} : Type := {
  content : D → list B;
  sent : S → list B;
  owed : S → list B;
  check_ready_keeps l s : owed s = l → io_wp (λ s', owed s' = l) in_check_ready (λ _ s', owed s' = l) s;
  read_keeps n l s : owed s = l → io_wp (λ s', owed s' = l) (in_read n) (λ _ s', owed s' = l) s;
  write_adds d l s : owed s = l →
    io_wp (λ _, False) (in_write d) (λ _ s', owed s' = l ++ content d)%list s;
  flush_sends n l s : owed s = l →
    io_wp (λ s', owed s' = l) (in_flush n) (λ _ s', owed s' = l ∧ sent s' = l) s;
}.

Inductive Op (D : Type) : Type :=
| Op_check_ready
| Op_read (len : nat)
| Op_write (data : D)
| Op_flush (fuel : nat).
Arguments Op_check_ready {D}.
Arguments Op_read {D} _.
Arguments Op_write {D} _.
Arguments Op_flush {D} _.

Section runs.
Context {S D R : Type} `{!InStream S D R}.

Definition perform (op : Op D) : IO S () :=
  match op with
  | Op_check_ready => _ ← in_check_ready; mret ()
  | Op_read len => unless_blocked (_ ← in_read len; mret ())
  | Op_write data => _ ← in_write data; mret ()
  | Op_flush fuel => in_flush fuel
  end.

(** A user of a stream, who gives it up at the first error. *)
Fixpoint run (ops : list (Op D)) : IO S () :=
  match ops with
  | [] => mret ()
  | op :: ops => _ ← perform op; run ops
  end.

Definition written (ops : list (Op D)) : list D :=
  omap (λ op, match op with Op_write data => Some data | _ => None end) ops.

Context {B : Type} `{!Ordered S D R B}.

Lemma perform_owed op l s : owed s = l →
  io_wp (λ s', owed s' = l) (perform op) (λ _ s', owed s' = l ++ (written [op] ≫= content))%list s.
Proof.
  intros Hl. destruct op as [|len|data|fuel]; cbn [perform written omap list_omap mbind list_bind];
    rewrite ?app_nil_r.
  - apply io_bind. eapply io_mono; [by apply check_ready_keeps|done|]. intros ? s' ?. by apply io_ret.
  - apply io_unless_blocked, io_bind. eapply io_mono; [by apply read_keeps|done|].
    intros ? s' ?. by apply io_ret.
  - apply io_bind. eapply io_mono; [by apply write_adds|done|]. intros ? s' ?. by apply io_ret.
  - eapply io_mono; [by apply flush_sends|done|]. by intros ? s' [].
Qed.

Lemma run_owed ops l s : owed s = l →
  io_wp (λ _, True) (run ops) (λ _ s', owed s' = l ++ (written ops ≫= content))%list s.
Proof.
  revert l s. induction ops as [|op ops IH]; intros l s Hl; cbn [run].
  { apply io_ret. cbn. by rewrite app_nil_r. }
  apply io_bind. eapply io_mono; [by apply perform_owed|done|]. intros ? s' Hs'.
  eapply io_mono; [exact (IH _ _ Hs')|done|]. cbn beta. intros ? s'' ->. rewrite <- app_assoc. f_equal.
  destruct op; cbn; by rewrite ?app_nil_r.
Qed.

(** What a run ends with, in terms of the outcome. *)
Lemma run_in_order ops w r w' : run ops w = (r, w') →
  r ≠ Panic ∧
  (r = Ret (Ok ()) → owed (stream w') = owed (stream w) ++ (written ops ≫= content) ∧
    ∀ fuel w'', in_flush fuel w' = (Ret (Ok ()), w'') →
      sent (stream w'') = owed (stream w) ++ (written ops ≫= content))%list.
Proof.
  intros Hrun. destruct w as [s n].
  pose proof (run_owed ops (owed s) s eq_refl n) as Hw. rewrite Hrun in Hw.
  split; [by intros ->|]. intros ->. split; [done|]. intros fuel w'' Hfl. destruct w' as [s' n'].
  pose proof (flush_sends fuel _ s' eq_refl n') as Hf. rewrite Hfl in Hf. cbn in *. destruct Hf as [_ ->]. done.
Qed.
End runs.

Create HintDb streams.
#[export] Hint Resolve io_ret io_get io_modify io_throw io_fuel io_now : streams.

(** One step through a program: binds and the primitives whose rule decides. *)
Ltac io_step :=
  match goal with
  | |- io_wp _ (_ ≫= _) _ _ => apply io_bind
  | |- io_wp _ (mret _) _ _ => apply io_ret
  | |- io_wp _ (get _) _ _ => apply io_get
  | |- io_wp _ (modify _) _ _ => apply io_modify
  | |- io_wp _ (throw _) _ _ => apply io_throw
  | |- io_wp _ (returns _) _ _ => apply io_returns
  | |- io_wp _ out_of_fuel _ _ => apply io_fuel
  | |- io_wp _ now _ _ => apply io_now; intros ?
  | |- io_wp _ (unless_blocked _) _ _ => apply io_unless_blocked
  end; cbn beta.
Ltac io_steps := repeat io_step.

(** ** The layers of bytes *)

Lemma bind_id {A} (l : list (list A)) : l ≫= id = mjoin l.
Proof. induction l as [|x l IH]; [done|]. cbn in *. by rewrite IH. Qed.

Section buffered.
Context {T S : Type} `{ByteStreamLaws T}.
Variable put : T → list byte → S → S.
Variable owes : S → list byte.
Hypothesis owes_put : ∀ t buf s, owes (put t buf s) = (taken t ++ buf)%list.

Lemma drain_keeps E t buf s :
  io_wp E (drain_pending put t buf) (λ _ s', owes s' = taken t ++ buf)%list s.
Proof.
  unfold drain_pending. io_step. apply io_call. intros n [r t'] s'.
  destruct (sink_write n t buf) as [r0 t0] eqn:Hw. intros [= -> -> <-].
  pose proof (write_taken _ _ _ _ _ Hw) as Hr. destruct r as [k|e].
  - destruct Hr as [Hk Ht]. rewrite (proj2 (Nat.ltb_ge _ _) Hk). io_steps.
    rewrite owes_put, Ht, <- app_assoc, take_drop. done.
  - destruct (would_block e) eqn:He; io_steps; [by rewrite owes_put, Hr|congruence].
Qed.

Lemma write_through_adds t data s :
  io_wp (λ _, False) (write_through put t data) (λ _ s', owes s' = taken t ++ data)%list s.
Proof.
  unfold write_through. io_step. apply io_call. intros n [r t'] s'.
  destruct (sink_write n t data) as [r0 t0] eqn:Hw. intros [= -> -> <-].
  pose proof (write_taken _ _ _ _ _ Hw) as Hr. destruct r as [k|e].
  - destruct Hr as [Hk Ht]. io_step. destruct (Nat.ltb_spec k (length data)); io_steps;
      rewrite owes_put, Ht, ?app_nil_r, <- ?app_assoc, ?take_drop; [done|]. by rewrite take_ge.
  - destruct (would_block e) eqn:He; io_steps; [by rewrite owes_put, Hr|congruence].
Qed.
End buffered.

Section tcp_order.
Context {T : Type} `{ByteStreamLaws T} `{Clock}.
Variable socket_connect : nat → T → SocketAddr → Result IoError () * T.
Hypothesis connect_taken : ∀ n t addr, taken (socket_connect n t addr).2 = taken t.

#[local] Instance tcp_in_stream : InStream (InStreamTcp T) (list byte) (list byte) := {
  in_check_ready := tcp_check_ready socket_connect;
  in_read := tcp_read socket_connect;
  in_write := tcp_write socket_connect;
  in_flush := tcp_flush socket_connect;
}.

Definition tcp_owed (s : InStreamTcp T) : list byte := (taken (tcp s) ++ tcp_write_buf s)%list.

Lemma tcp_process E l s : tcp_owed s = l →
  io_wp E (tcp_priv_process socket_connect) (λ _ s', tcp_owed s' = l) s.
Proof.
  intros Hl. unfold tcp_priv_process. io_steps.
  assert (Hend : ∀ s', tcp_owed s' = l → io_wp E
    (c ← get tcp_connecting;
     match c ≫= connect_timeout with
     | Some timeout => t ← now; if Z.leb timeout t then throw (io_error ErrorKind_TimedOut "") else mret ()
     | None => mret ()
     end) (λ _ s', tcp_owed s' = l) s').
  { intros s' Hs'. io_steps. destruct (tcp_connecting s' ≫= _); io_steps; [|done].
    destruct (Z.leb _ _); by io_steps. }
  destruct (tcp_connecting s) as [cdata|]; io_steps; [|by apply Hend].
  apply io_call. intros n r s'. pose proof (connect_taken n (tcp s) (addr cdata)) as Ht.
  destruct (socket_connect n (tcp s) (addr cdata)) as [r0 t]. cbn in Ht. intros [= -> <-].
  assert (tcp_owed (tcp_put t (tcp_write_buf s) s) = l) by (unfold tcp_owed in *; cbn; by rewrite Ht).
  destruct r as [[]|e]; [|case_decide]; io_steps; by apply Hend.
Qed.

Lemma tcp_pending E l s : tcp_owed s = l → io_wp E tcp_priv_write_pending (λ _ s', tcp_owed s' = l) s.
Proof.
  intros Hl. unfold tcp_priv_write_pending. io_steps. unfold id.
  destruct (tcp_write_buf s) as [|b buf] eqn:Hb; [by io_steps|]. destruct (tcp_connecting s); [by io_steps|].
  eapply io_post; [apply (drain_keeps tcp_put tcp_owed); done|]. cbn beta. intros _ s' ->.
  unfold tcp_owed in Hl. by rewrite Hb in Hl.
Qed.

(** A call to the socket that does not write. *)
Lemma tcp_other {A} E (f : nat → T → A * T) l s (Q : A → InStreamTcp T → Prop) :
  (∀ n t, taken (f n t).2 = taken t) → tcp_owed s = l → (∀ x s', tcp_owed s' = l →
    tcp_write_buf s' = tcp_write_buf s → Q x s') →
  io_wp E (call (λ n s, let '(r, t) := f n (tcp s) in (r, tcp_put t (tcp_write_buf s) s))) Q s.
Proof.
  intros Hf Hl HQ. apply io_call. intros n x s'. specialize (Hf n (tcp s)).
  destruct (f n (tcp s)) as [r t]. intros [= -> <-]. apply HQ; [|done].
  unfold tcp_owed in *. cbn in *. by rewrite Hf.
Qed.

Lemma tcp_write_adds d l s : tcp_owed s = l →
  io_wp (λ _, False) (tcp_write socket_connect d) (λ _ s', tcp_owed s' = l ++ d)%list s.
Proof.
  intros Hl. unfold tcp_write. eapply io_seq; [by apply tcp_process|]. cbn beta.
  intros _ s' Hs'. io_steps. unfold id. unfold tcp_owed in Hs'.
  destruct (tcp_connecting s'); [io_steps; unfold tcp_owed; cbn; by rewrite app_assoc, Hs'|].
  destruct (tcp_write_buf s') as [|b buf].
  - eapply io_post; [apply (write_through_adds tcp_put tcp_owed); done|]. cbn beta.
    intros _ s'' ->. by rewrite app_nil_r in Hs'; rewrite Hs'.
  - io_steps. eapply io_post; [apply tcp_pending; reflexivity|]. cbn beta. intros _ s'' Hs''.
    io_steps. rewrite Hs''. unfold tcp_owed. cbn [tcp tcp_write_buf tcp_put]. by rewrite app_assoc, Hs'.
Qed.

Lemma tcp_flush_sends n l s : tcp_owed s = l →
  io_wp (λ s', tcp_owed s' = l) (tcp_flush socket_connect n) (λ _ s', tcp_owed s' = l ∧ taken (tcp s') = l) s.
Proof.
  revert s. induction n as [|n IH]; intros s Hl; cbn [tcp_flush]; [apply io_fuel|].
  eapply io_seq; [by apply tcp_process|]. cbn beta. intros _ s1 H1. io_steps.
  assert (Hend : ∀ s', tcp_owed s' = l → io_wp (λ s', tcp_owed s' = l)
    (buf ← get tcp_write_buf; match buf with [] => mret () | _ => tcp_flush socket_connect n end)
    (λ _ s', tcp_owed s' = l ∧ taken (tcp s') = l) s').
  { intros s' Hs'. io_steps. destruct (tcp_write_buf s') eqn:Hb; [|by apply IH]. io_steps.
    split; [done|]. unfold tcp_owed in Hs'. by rewrite Hb, app_nil_r in Hs'. }
  destruct (tcp_connecting s1); io_steps; [by apply Hend|].
  eapply io_post; [by apply tcp_pending|]. cbn beta. intros _ s2 H2. io_steps.
  eapply (tcp_other _ _ _ _ _ flush_taken H2). intros r s3 H3 _. io_steps.
  destruct r; [by apply Hend|done].
Qed.

#[local] Program Instance tcp_ordered : Ordered (InStreamTcp T) (list byte) (list byte) byte := {
  content := id;
  Streams.sent s := taken (tcp s);
  owed := tcp_owed;
}.
Next Obligation.
  intros l s Hl. cbn. unfold tcp_check_ready. eapply io_seq; [by apply tcp_process|].
  cbn beta. intros _ s' Hs'. by io_steps.
Qed.
Next Obligation.
  intros n l s Hl. cbn. unfold tcp_read. eapply io_seq; [by apply tcp_process|].
  cbn beta. intros _ s1 H1. eapply io_seq; [by apply tcp_pending|].
  cbn beta. intros _ s2 H2. io_steps. destruct (tcp_connecting s2); io_steps; [done|].
  eapply (tcp_other _ (λ n t, sink_read n t _) _ _ _ (λ n t, read_taken n t _) H2).
  intros r s3 H3 _. io_steps. by destruct r.
Qed.
Next Obligation. intros d l s Hl. by apply tcp_write_adds. Qed.
Next Obligation. intros n l s Hl. by apply tcp_flush_sends. Qed.
(** Whatever the network does: a run without a final error leaves what was written,
    in order and once, with the operating system or in the buffer; a flush that
    returns leaves nothing in the buffer.  No call panics. *)
Theorem tcp_writes_in_order ops w r w' : run ops w = (r, w') →
  r ≠ Panic ∧
  (r = Ret (Ok ()) → tcp_owed (stream w') = tcp_owed (stream w) ++ mjoin (written ops) ∧
    ∀ fuel w'', tcp_flush socket_connect fuel w' = (Ret (Ok ()), w'') →
      taken (tcp (stream w'')) = tcp_owed (stream w) ++ mjoin (written ops))%list.
Proof. rewrite <- bind_id. exact (run_in_order ops w r w'). Qed.
End tcp_order.

Section tls_order.
Context {T Mid : Type} `{ByteStreamLaws T} `{Urls}.
Variable tls_peer_url : T → string.
Variable mid_peer_url : Mid → string.
Variable handshake : nat → Mid → Handshake T Mid.
Hypothesis renamed : ∀ url, is_Some (set_scheme TLS_SCHEME url).
Hypothesis fresh : ∀ n mid t, handshake n mid = Handshake_Done t → taken t = [].

#[local] Instance tls_in_stream : InStream (InStreamTls T Mid) (list byte) (list byte) := {
  in_check_ready := tls_check_ready tls_peer_url mid_peer_url handshake;
  in_read := tls_read tls_peer_url mid_peer_url handshake;
  in_write := tls_write tls_peer_url mid_peer_url handshake;
  in_flush := tls_flush tls_peer_url mid_peer_url handshake;
}.

Definition tls_sent (s : InStreamTls T Mid) : list byte :=
  match tls_state s with Some (TlsState_Ready t) => taken t | _ => [] end.
Definition tls_owed (s : InStreamTls T Mid) : list byte := (tls_sent s ++ tls_write_buf s)%list.

Lemma tls_assign E url (Q : () → InStreamTls T Mid → Prop) s :
  (∀ url, Q () (tls_set_remote_url url s)) → io_wp E (tls_assign_remote_url url) Q s.
Proof.
  intros HQ. unfold tls_assign_remote_url. io_steps. destruct (renamed url) as [url' ->]. io_steps.
  exact (HQ url').
Qed.

Lemma tls_result E result s : (∀ t, result = Handshake_Done t → taken t = []) → tls_sent s = [] →
  io_wp E (unless_blocked (priv_proc_tls_result tls_peer_url mid_peer_url result))
    (λ _ s', tls_owed s' = tls_write_buf s) s.
Proof.
  intros Hf Hs. io_steps. unfold priv_proc_tls_result. destruct result as [t|mid|text].
  - io_step. apply tls_assign. intros url. io_steps. unfold tls_owed, tls_sent. cbn. by rewrite Hf.
  - io_step. apply tls_assign. intros url. by io_steps.
  - by io_steps.
Qed.

Lemma tls_process E l s : tls_owed s = l →
  io_wp E (tls_priv_process tls_peer_url mid_peer_url handshake) (λ _ s', tls_owed s' = l) s.
Proof.
  intros <-. unfold tls_priv_process. io_steps. destruct (tls_state s) as [[mid|t]|] eqn:Hst; [|by io_steps..].
  io_steps. apply io_call. intros n result s' [= <- <-].
  eapply io_post; [apply tls_result; [apply fresh|done]|]. cbn beta. intros _ s' ->.
  unfold tls_owed, tls_sent. by rewrite Hst.
Qed.

Lemma tls_pending E l s : tls_owed s = l → io_wp E tls_priv_write_pending (λ _ s', tls_owed s' = l) s.
Proof.
  intros <-. unfold tls_priv_write_pending. io_steps. unfold id.
  destruct (tls_write_buf s) as [|b buf] eqn:Hb; [by io_steps|].
  destruct (tls_state s) as [[mid|t]|] eqn:Hst; [by io_steps| |by io_steps].
  eapply io_post; [apply (drain_keeps tls_put tls_owed); done|]. cbn beta. intros _ s' ->.
  unfold tls_owed, tls_sent. by rewrite Hst, Hb.
Qed.

Lemma tls_other {A} E (f : nat → T → A * T) t l s (Q : A → InStreamTls T Mid → Prop) :
  (∀ n t, taken (f n t).2 = taken t) → tls_state s = Some (TlsState_Ready t) → tls_owed s = l →
  (∀ x s', tls_owed s' = l → Q x s') →
  io_wp E (call (λ n s, let '(r, t) := f n t in (r, tls_put t (tls_write_buf s) s))) Q s.
Proof.
  intros Hf Hst <- HQ. apply io_call. intros n x s'. specialize (Hf n t).
  destruct (f n t) as [r t']. intros [= -> <-]. apply HQ.
  unfold tls_owed, tls_sent. cbn in *. by rewrite Hf, Hst.
Qed.

Lemma tls_write_adds d l s : tls_owed s = l →
  io_wp (λ _, False) (tls_write tls_peer_url mid_peer_url handshake d) (λ _ s', tls_owed s' = l ++ d)%list s.
Proof.
  intros Hl. unfold tls_write. eapply io_seq; [by apply tls_process|]. cbn beta. intros _ s' <-.
  io_steps. unfold id. destruct (tls_state s') as [[mid|t]|] eqn:Hst; [| |by io_steps].
  - io_steps. unfold tls_owed, tls_sent. cbn. by rewrite Hst.
  - destruct (tls_write_buf s') as [|b buf] eqn:Hb.
    + eapply io_post; [apply (write_through_adds tls_put tls_owed); done|]. cbn beta.
      intros _ s'' ->. unfold tls_owed, tls_sent. by rewrite Hst, Hb, app_nil_r.
    + io_steps. eapply io_post; [apply tls_pending; reflexivity|]. cbn beta. intros _ s'' Hs''.
      io_steps. rewrite Hs''. unfold tls_owed, tls_sent. cbn [tls_state tls_write_buf tls_set_write_buf].
      by rewrite Hst, Hb, app_assoc.
Qed.

Lemma tls_flush_sends n l s : tls_owed s = l →
  io_wp (λ s', tls_owed s' = l) (tls_flush tls_peer_url mid_peer_url handshake n)
    (λ _ s', tls_owed s' = l ∧ tls_sent s' = l) s.
Proof.
  revert s. induction n as [|n IH]; intros s Hl; cbn [tls_flush]; [apply io_fuel|].
  eapply io_seq; [by apply tls_process|]. cbn beta. intros _ s1 H1.
  eapply io_seq; [by apply tls_pending|]. cbn beta. intros _ s2 H2. io_steps.
  assert (Hend : ∀ s', tls_owed s' = l → io_wp (λ s', tls_owed s' = l)
    (buf ← get tls_write_buf;
     match buf with [] => mret () | _ => tls_flush tls_peer_url mid_peer_url handshake n end)
    (λ _ s', tls_owed s' = l ∧ tls_sent s' = l) s').
  { intros s' Hs'. io_steps. destruct (tls_write_buf s') eqn:Hb; [|by apply IH]. io_steps.
    split; [done|]. unfold tls_owed in Hs'. by rewrite Hb, app_nil_r in Hs'. }
  destruct (tls_state s2) as [[mid|t]|] eqn:Hst; io_steps; try by apply Hend.
  eapply (tls_other _ _ _ _ _ _ flush_taken Hst H2). intros r s3 H3. io_steps.
  destruct r; [by apply Hend|done].
Qed.

#[local] Program Instance tls_ordered : Ordered (InStreamTls T Mid) (list byte) (list byte) byte := {
  content := id;
  Streams.sent := tls_sent;
  owed := tls_owed;
}.
Next Obligation.
  intros l s Hl. cbn. unfold tls_check_ready. eapply io_seq; [by apply tls_process|].
  cbn beta. intros _ s' Hs'. by io_steps.
Qed.
Next Obligation.
  intros n l s Hl. cbn. unfold tls_read. eapply io_seq; [by apply tls_process|].
  cbn beta. intros _ s1 H1. eapply io_seq; [by apply tls_pending|].
  cbn beta. intros _ s2 H2. io_steps. destruct (tls_state s2) as [[mid|t]|] eqn:Hst; io_steps; [done| |done].
  eapply (tls_other _ (λ n t, sink_read n t _) _ _ _ _ (λ n t, read_taken n t _) Hst H2).
  intros r s3 H3. io_steps. by destruct r.
Qed.
Next Obligation. intros d l s Hl. by apply tls_write_adds. Qed.
Next Obligation. intros n l s Hl. by apply tls_flush_sends. Qed.
(** The same for the bytes that are encrypted. *)
Theorem tls_writes_in_order ops w r w' : run ops w = (r, w') →
  r ≠ Panic ∧
  (r = Ret (Ok ()) → tls_owed (stream w') = tls_owed (stream w) ++ mjoin (written ops) ∧
    ∀ fuel w'', tls_flush tls_peer_url mid_peer_url handshake fuel w' = (Ret (Ok ()), w'') →
      tls_sent (stream w'') = tls_owed (stream w) ++ mjoin (written ops))%list.
Proof. rewrite <- bind_id. exact (run_in_order ops w r w'). Qed.
End tls_order.

(** ** The layer of frames *)

(** A message is posted, too, if writing it would block; after a handshake nothing
    is. *)
Class TungsteniteLaws `{!Tungstenite} : Prop := {
  write_posts n wss m r wss' : write_message n wss m = (r, wss') →
    match r with
    | Ok _ => True
    | Err (WsError_Io e) => would_block e = true
    | Err (WsError_Other _) => False
    end → posted wss' = (posted wss ++ [m])%list;
  read_posts n wss : posted (read_message n wss).2 = posted wss;
  write_pending_posts n wss : posted (write_pending n wss).2 = posted wss;
  cli_posts n mid wss : cli_handshake n mid = Handshake_Done wss → posted wss = [];
  srv_posts n mid wss : srv_handshake n mid = Handshake_Done wss → posted wss = [];
}.

Section wss_order.
Context `{HT : TungsteniteLaws} `{HU : Urls} `{HC : Clock}.
Hypothesis renamed : ∀ url, is_Some (set_scheme WSS_SCHEME url).

#[local] Instance wss_in_stream : InStream InStreamWss WsFrame WsFrame := {
  in_check_ready := wss_check_ready;
  in_read _ := wss_read;
  in_write := wss_write;
  in_flush := wss_flush;
}.

(** Pings and pongs skip the buffer. *)
Definition heartbeat (m : Message CloseCode) : bool :=
  match m with Message_Ping _ | Message_Pong _ => true | _ => false end.
Definition payloads (l : list (Message CloseCode)) : list (Message CloseCode) :=
  filter (λ m, heartbeat m = false) l.

Definition wss_posted (s : InStreamWss) : list (Message CloseCode) :=
  match wss_state s with Some (WssState_Ready wss) => posted wss | _ => [] end.
Definition wss_owed (s : InStreamWss) : list (Message CloseCode) :=
  payloads (wss_posted s ++ (message_of <$> wss_write_buf s)).

Lemma wss_assign E url (Q : () → InStreamWss → Prop) s :
  (∀ url, Q () (wss_set_remote_url url s)) → io_wp E (wss_assign_remote_url url) Q s.
Proof.
  intros HQ. unfold wss_assign_remote_url. io_steps. destruct (renamed url) as [url' ->]. io_steps.
  exact (HQ url').
Qed.

Lemma wss_write_frame E wss frame s : wss_state s = Some (WssState_Ready wss) →
  io_wp E (priv_write_wss_frame wss frame)
    (λ _ s', ∃ wss', s' = wss_set_state (Some (WssState_Ready wss')) s ∧
       posted wss' = (posted wss ++ [message_of frame])%list) s.
Proof.
  intros Hst. unfold priv_write_wss_frame, wss_call. io_step. apply io_call. intros n r s'.
  destruct (write_message n wss (message_of frame)) as [r0 wss'] eqn:Hw. intros [= -> <-].
  pose proof (write_posts _ _ _ _ _ Hw) as Hp.
  destruct r as [[]|[e|text]]; [|destruct (would_block e) eqn:He|]; io_steps; [eauto..|congruence|done].
Qed.

Lemma payloads_app l l' : payloads (l ++ l') = (payloads l ++ payloads l')%list.
Proof. apply filter_app. Qed.

Lemma wss_write_frames E buf l s : wss_write_buf s = buf → wss_owed s = l →
  io_wp E (write_frames buf) (λ _ s', wss_owed s' = l ∧
    (wss_write_buf s' = [] ∨ match wss_state s' with Some (WssState_Ready _) => False | _ => True end)) s.
Proof.
  revert s. induction buf as [|frame buf IH]; intros s Hb Hl; cbn [write_frames]; io_steps; [auto|].
  destruct (wss_state s) as [[mid|mid|wss]|] eqn:Hst; io_steps; try done.
  1-2: split; [done|]; right; by rewrite Hst.
  eapply io_post; [by apply wss_write_frame|]. cbn beta. intros _ s' (wss' & -> & Hp).
  apply IH; [done|]. rewrite <- Hl. unfold wss_owed, wss_posted. cbn [wss_state wss_write_buf wss_set_state wss_set_write_buf].
  by rewrite Hst, Hb, Hp, fmap_cons, <- app_assoc.
Qed.

Lemma wss_pending E l s : wss_owed s = l →
  io_wp E wss_priv_write_pending (λ _ s', wss_owed s' = l ∧
    (wss_write_buf s' = [] ∨ match wss_state s' with Some (WssState_Ready _) => False | _ => True end)) s.
Proof. intros Hl. unfold wss_priv_write_pending. io_steps. by apply wss_write_frames. Qed.

Lemma wss_ready_owed E wss l s : posted wss = [] → payloads (message_of <$> wss_write_buf s) = l →
  io_wp E (wss_ready wss) (λ _ s', wss_owed s' = l) s.
Proof.
  intros Hp Hl. unfold wss_ready. io_steps. eapply io_post; [apply wss_pending; reflexivity|].
  cbn beta. intros _ s' [-> _]. unfold wss_owed, wss_posted. cbn. by rewrite Hp, app_nil_l.
Qed.

Lemma wss_process E l s : wss_owed s = l → io_wp E wss_priv_process (λ _ s', wss_owed s' = l) s.
Proof.
  intros Hl. unfold wss_priv_process. io_steps.
  destruct (wss_state s) as [[mid|mid|wss]|] eqn:Hst; io_steps; [| | |done].
  - apply io_call. intros n result s' [= <- <-]. unfold wss_owed, wss_posted in Hl. rewrite Hst in Hl.
    io_steps. unfold priv_proc_wss_cli_result. destruct (cli_handshake n mid) as [wss|mid'|text] eqn:Hh.
    + apply wss_ready_owed; [by eapply cli_posts|done].
    + by io_steps.
    + by io_steps.
  - apply io_call. intros n result s' [= <- <-]. unfold wss_owed, wss_posted in Hl. rewrite Hst in Hl.
    io_steps. unfold priv_proc_wss_srv_result. destruct (srv_handshake n mid) as [wss|mid'|text] eqn:Hh.
    + io_step. apply wss_assign. intros url. apply wss_ready_owed; [by eapply srv_posts|done].
    + io_step. apply wss_assign. intros url. by io_steps.
    + by io_steps.
  - destruct (disconnect_on_slow_pong_ms s) as [pong_ms|]; io_steps; [|done].
    destruct (Z.ltb _ _); io_steps; [|done].
    eapply io_post; [by apply wss_write_frame|]. cbn beta. intros _ s' (wss' & -> & Hp). io_steps.
    rewrite <- Hl. unfold wss_owed, wss_posted. cbn. rewrite Hst, Hp, !payloads_app. cbn.
    by rewrite app_nil_r.
Qed.

Lemma wss_read_keeps l s : wss_owed s = l →
  io_wp (λ s', wss_owed s' = l) wss_read (λ _ s', wss_owed s' = l) s.
Proof.
  intros Hl. unfold wss_read. eapply io_seq; [by apply wss_process|]. cbn beta. intros _ s1 H1. io_steps.
  destruct (wss_state s1) as [[mid|mid|wss]|] eqn:Hst; io_steps; try done.
  unfold wss_call. apply io_call. intros n r s'. pose proof (read_posts n wss) as Hp.
  destruct (read_message n wss) as [r0 wss']. intros [= -> <-]. cbn in Hp.
  set (s2 := wss_set_state (Some (WssState_Ready wss')) s1).
  assert (H2 : wss_owed s2 = l).
  { rewrite <- H1. unfold wss_owed, wss_posted. cbn. by rewrite Hst, Hp. }
  destruct r as [msg|[e|text]]; [| |by io_steps].
  - unfold received. io_steps. cbn [wss_state s2 wss_set_state].
    destruct (frame_of msg); io_steps; try done.
    eapply io_post; [by apply wss_write_frame|]. cbn beta. intros _ s3 (wss3 & -> & Hp3). io_steps.
    rewrite <- H2. unfold wss_owed, wss_posted. cbn. rewrite Hp3, !payloads_app. cbn. by rewrite app_nil_r.
  - unfold nothing_read. io_steps. destruct (would_block e), (disconnect_on_slow_pong_ms s2); io_steps; try done.
    destruct (Z.ltb _ _); by io_steps.
Qed.

Lemma wss_write_adds d l s : wss_owed s = l →
  io_wp (λ _, False) (wss_write d) (λ _ s', wss_owed s' = l ++ payloads [message_of d])%list s.
Proof.
  intros Hl. unfold wss_write. eapply io_seq; [by apply wss_process|]. cbn beta. intros _ s1 <-. io_steps.
  eapply io_post; [apply wss_pending; reflexivity|]. cbn beta. intros _ s2 [Hs2 _]. io_steps.
  rewrite Hs2. unfold wss_owed, wss_posted. cbn [wss_state wss_write_buf wss_set_write_buf].
  by rewrite fmap_app, app_assoc, payloads_app.
Qed.

Lemma wss_flush_sends n l s : wss_owed s = l →
  io_wp (λ s', wss_owed s' = l) (wss_flush n) (λ _ s', wss_owed s' = l ∧ payloads (wss_posted s') = l) s.
Proof.
  revert s. induction n as [|n IH]; intros s Hl; cbn [wss_flush]; [apply io_fuel|].
  eapply io_seq; [by apply wss_process|]. cbn beta. intros _ s1 H1.
  eapply io_seq; [by apply wss_pending|]. cbn beta. intros _ s2 [H2 _]. io_steps.
  destruct (wss_state s2) as [[mid|mid|wss]|] eqn:Hst; [by apply IH..| |by apply IH].
  io_steps. unfold wss_call. apply io_call. intros k r s'. pose proof (write_pending_posts k wss) as Hp.
  destruct (write_pending k wss) as [r0 wss']. intros [= -> <-]. cbn in Hp. io_steps.
  set (s3 := wss_set_state (Some (WssState_Ready wss')) s2).
  assert (H3 : wss_owed s3 = l).
  { rewrite <- H2. unfold wss_owed, wss_posted. cbn. by rewrite Hst, Hp. }
  destruct r as [[]|[e|text]]; [|destruct (would_block e); [by apply IH|by io_steps]|by io_steps].
  destruct (wss_write_buf s3) eqn:Hb; [|by apply IH]. io_steps. split; [done|].
  unfold wss_owed in H3. by rewrite Hb, app_nil_r in H3.
Qed.

#[local] Program Instance wss_ordered : Ordered InStreamWss WsFrame WsFrame (Message CloseCode) := {
  content f := payloads [message_of f];
  Streams.sent s := payloads (wss_posted s);
  owed := wss_owed;
}.
Next Obligation.
  intros l s Hl. cbn. unfold wss_check_ready. eapply io_seq; [by apply wss_process|].
  cbn beta. intros _ s' Hs'. by io_steps.
Qed.
Next Obligation. intros n l s Hl. by apply wss_read_keeps. Qed.
Next Obligation. intros d l s Hl. by apply wss_write_adds. Qed.
Next Obligation. intros n l s Hl. by apply wss_flush_sends. Qed.
(** C18: Whatever the network does, and however its handshake, pings and pongs come
    in between, a web socket stream that is used without an error has handed the
    frames written to it to the web socket, or buffered them, in the order of the
    calls and each once; after a flush that returns, all of them are handed on; and
    no call panics. *)
Theorem frames_in_order ops w r w' : run ops w = (r, w') →
  r ≠ Panic ∧
  (r = Ret (Ok ()) →
    wss_owed (stream w') = wss_owed (stream w) ++ payloads (message_of <$> written ops) ∧
    ∀ fuel w'', wss_flush fuel w' = (Ret (Ok ()), w'') →
      payloads (wss_posted (stream w'')) = wss_owed (stream w) ++ payloads (message_of <$> written ops))%list.
Proof.
  intros Hrun. assert (Hc : written ops ≫= content = payloads (message_of <$> written ops)).
  { induction (written ops) as [|f l IH]; [done|]. rewrite fmap_cons. cbn [mbind list_bind] in *.
    rewrite IH. exact (eq_sym (payloads_app [message_of f] _)). }
  rewrite <- Hc. exact (run_in_order ops w r w' Hrun).
Qed.
End wss_order.

(** ** Silent peers and failed handshakes *)

Section wss_errors.
Context `{HT : Tungstenite} `{HU : Urls} `{HC : Clock}.

(** A web socket that neither fails nor has anything to read. *)
Definition quiet : Prop :=
  (∀ n wss, ∃ e, (read_message n wss).1 = Err (WsError_Io e) ∧ would_block e = true) ∧
  (∀ n wss m, (write_message n wss m).1 = Ok ()).

Definition open_since (pong pong_ms : Z) (s : InStreamWss) : Prop :=
  (∃ wss, wss_state s = Some (WssState_Ready wss)) ∧ last_pong s = pong ∧
  disconnect_on_slow_pong_ms s = Some pong_ms.

Lemma quiet_process pong pong_ms w : quiet → open_since pong pong_ms (stream w) →
  ∃ w', wss_priv_process w = (Ret (Ok ()), w') ∧ open_since pong pong_ms (stream w').
Proof.
  intros [_ Hw] [[wss Hst] [Hl Hd]]. destruct w as [s n].
  unfold wss_priv_process, mbind, IO_bind, get, now, call. cbn in *. rewrite Hst. cbn. rewrite Hd. cbn.
  destruct (Z.ltb _ _); [|eexists; split; [done|]; split; eauto].
  unfold priv_write_wss_frame, wss_call, call, mbind, IO_bind. cbn.
  specialize (Hw (S n) wss (message_of (WsFrame_Ping []))). cbn in Hw.
  destruct (write_message _ _ _) as [r wss']. cbn in Hw. subst r. cbn.
  eexists; split; [done|]. split; eauto.
Qed.

(** Reading from a silent peer asks the clock once whether to give up. *)
Lemma quiet_read pong pong_ms w : quiet → open_since pong pong_ms (stream w) →
  ∃ n e w', wss_read w = (Ret (Err e), w') ∧
    if Z.ltb pong_ms (instant n - pong) then error_kind e = ErrorKind_TimedOut else would_block e = true.
Proof.
  intros Hq Ho. destruct (quiet_process _ _ w Hq Ho) as (w1 & Hp & [wss Hst] & Hl & Hd).
  destruct w1 as [s1 n1]. destruct (proj1 Hq n1 wss) as (e & Hr & He). cbn in *.
  destruct (read_message n1 wss) as [r wss'] eqn:Hread. cbn in Hr. subst r.
  exists (S n1). unfold wss_read. unfold mbind at 1, IO_bind at 1. rewrite Hp.
  unfold mbind, IO_bind, get, wss_call, call. cbn. rewrite Hst. cbn. rewrite Hread. cbn.
  unfold nothing_read, mbind, IO_bind, get, now, call. cbn. rewrite He, Hd. cbn. rewrite Hl.
  destruct (Z.ltb _ _); cbn; eauto.
Qed.

(** A peer from which nothing came for longer than allowed is given up. *)
Theorem slow_peer_times_out pong pong_ms w : quiet → open_since pong pong_ms (stream w) →
  (∀ n, pong + pong_ms < instant n)%Z →
  ∃ e w', wss_read w = (Ret (Err e), w') ∧ error_kind e = ErrorKind_TimedOut.
Proof.
  intros Hq Ho Ht. destruct (quiet_read _ _ w Hq Ho) as (n & e & w' & Hr & He).
  exists e, w'. split; [done|]. rewrite (proj2 (Z.ltb_lt _ _)) in He; [done|]. specialize (Ht n). lia.
Qed.

(** One that was heard of in time is not. *)
Theorem timely_peer_is_kept pong pong_ms w : quiet → open_since pong pong_ms (stream w) →
  (∀ n, instant n ≤ pong + pong_ms)%Z →
  ∃ e w', wss_read w = (Ret (Err e), w') ∧ would_block e = true.
Proof.
  intros Hq Ho Ht. destruct (quiet_read _ _ w Hq Ho) as (n & e & w' & Hr & He).
  exists e, w'. split; [done|]. rewrite (proj2 (Z.ltb_ge _ _)) in He; [done|]. specialize (Ht n). lia.
Qed.

Lemma closed_flush fuel w : wss_state (stream w) = None → wss_write_buf (stream w) = [] →
  wss_flush fuel w = (NoFuel, w).
Proof.
  intros Hs Hb. induction fuel as [|fuel IH]; [done|]. cbn [wss_flush].
  unfold wss_priv_process, wss_priv_write_pending, mbind, IO_bind, get. rewrite Hs. cbn. rewrite Hb. cbn.
  by rewrite Hs.
Qed.

(** When the handshake of a web socket fails, [check_ready] reports it and the
    stream forgets its state; a [flush] after that, with nothing to write, does
    not return, however long it runs. *)
Theorem failed_flush_hangs w mid text :
  wss_state (stream w) = Some (WssState_MidCliHandshake mid) → wss_write_buf (stream w) = [] →
  cli_handshake (calls w) mid = Handshake_Failure text →
  ∃ e w', wss_check_ready w = (Ret (Err e), w') ∧ error_kind e = ErrorKind_ConnectionRefused ∧
    ∀ fuel, wss_flush fuel w' = (NoFuel, w').
Proof.
  intros Hst Hb Hh. destruct w as [s n]. cbn in *.
  unfold wss_check_ready, wss_priv_process, unless_blocked, attempt, mbind, IO_bind, get, call. cbn.
  rewrite Hst. cbn. rewrite Hh. cbn. eexists _, _. split; [done|]. split; [done|].
  intros fuel. by apply closed_flush.
Qed.

Lemma frame_roundtrip (f : WsFrame) : (∀ c, close_number (close_code c) = c) → frame_of (message_of f) = f.
Proof. intros Hc. destruct f as [| | | |[c r]]; cbn; by rewrite ?Hc. Qed.
End wss_errors.

(** An encrypted stream in the same state has nothing to wait for. *)
Lemma failed_tls_flush {T Mid} `{!ByteStream T} `{!Urls} tls_url mid_url handshake fuel
    (w : Io (InStreamTls T Mid)) :
  tls_state (stream w) = None → tls_write_buf (stream w) = [] →
  tls_flush tls_url mid_url handshake (S fuel) w = (Ret (Ok ()), w).
Proof.
  intros Hs Hb. cbn [tls_flush]. unfold tls_priv_process, tls_priv_write_pending, mbind, IO_bind, get.
  rewrite Hs. cbn. rewrite Hb. cbn. rewrite Hs. cbn. by rewrite Hb.
Qed.

(** ** Examples *)

Section examples.

(** A socket that takes at most two bytes at a time, and blocks at every third call. *)
#[local] Instance toy_socket : ByteStream (list byte) := {
  sink_write n t data :=
    if Nat.eqb (Nat.modulo n 3) 2 then (Err with_would_block, t) else (Ok (length (take 2 data)), t ++ take 2 data)%list;
  sink_read n t k := (Err with_would_block, t);
  sink_flush n t := (Ok (), t);
  taken t := t;
}.

#[local] Instance toy_socket_laws : ByteStreamLaws (list byte).
Proof.
  split; [|done..]. intros n t data r t'. cbn. destruct (Nat.eqb _ _); intros [= <- <-]; [done|].
  rewrite length_take. split; [lia|]. by destruct data as [|? [|]].
Qed.

#[local] Instance toy_urls : Urls := {
  scheme _ := "ws"; host_str _ := Some "host"; port _ := None; set_scheme _ url := Some url;
}.

#[local] Instance toy_clock : Clock := λ n, Z.of_nat n.

(** Web sockets as what was posted; a handshake that takes [mid] more steps, and
    fails with [None]; nothing to read but a ping at every fourth call. *)
#[local] Instance toy_tungstenite : Tungstenite := {
  CloseCode := Z;
  close_code c := c;
  close_number c := c;
  WebSocket := list (Message Z);
  MidCli := option nat;
  MidSrv := nat;
  write_message n wss m := (Ok (), wss ++ [m])%list;
  read_message n wss :=
    if Nat.eqb (Nat.modulo n 4) 3 then (Ok (Message_Ping []), wss) else (Err (WsError_Io with_would_block), wss);
  write_pending n wss := (Ok (), wss);
  cli_handshake n mid :=
    match mid with
    | None => Handshake_Failure "refused"
    | Some 0 => Handshake_Done []
    | Some (S mid) => Handshake_Interrupted (Some mid)
    end;
  srv_handshake n mid := Handshake_Done [];
  socket_url _ := "ws://host";
  srv_mid_url _ := "ws://host";
  posted wss := wss;
}.

#[local] Instance toy_tungstenite_laws : TungsteniteLaws.
Proof.
  split; cbn.
  - by intros n wss m r wss' [= <- <-].
  - intros n wss. by destruct (Nat.eqb _ _).
  - done.
  - by intros n [[|mid]|] wss [= <-].
  - by intros n mid wss [= <-].
Qed.

Lemma toy_renamed SCHEME url : is_Some (set_scheme SCHEME url).
Proof. by eexists. Qed.

Definition connecting_to (mid : option nat) : Io InStreamWss :=
  {| stream := wss_set_state (Some (WssState_MidCliHandshake mid)) (wss_priv_new 0 0 "ws://host" (Some 12%Z));
     calls := 0 |}.

Definition example_ops : list (Op WsFrame) :=
  [Op_write (WsFrame_Text "a"); Op_read 1; Op_write (WsFrame_Binary [x00]); Op_read 1; Op_check_ready;
   Op_read 1; Op_write (WsFrame_Text "b"); Op_flush 3].

Definition example_run : Outcome (Result IoError ()) * Io InStreamWss :=
  @run _ _ _ wss_in_stream example_ops (connecting_to (Some 2)).

Lemma frames_in_order_witness :
  wss_state (stream example_run.2) =
    Some (WssState_Ready [Message_Text "a"; Message_Binary [x00]; Message_Ping []; Message_Text "b"]) ∧
  wss_owed (stream example_run.2) = [Message_Text "a"; Message_Binary [x00]; Message_Text "b"].
Proof.
  split; [vm_compute; reflexivity|].
  assert (Hr : example_run.1 = Ret (Ok ())) by (vm_compute; reflexivity).
  exact (proj1 (proj2 (frames_in_order (toy_renamed _) example_ops (connecting_to (Some 2))
    example_run.1 example_run.2 (surjective_pairing _)) Hr)).
Defined.

Lemma failed_flush_hangs_witness :
  ∃ e w', wss_check_ready (connecting_to None) = (Ret (Err e), w') ∧ error_kind e = ErrorKind_ConnectionRefused ∧
    ∀ fuel, wss_flush fuel w' = (NoFuel, w').
Proof. exact (failed_flush_hangs (connecting_to None) None "refused" eq_refl eq_refl eq_refl). Defined.

Definition example_tcp : Io (InStreamTcp (list byte)) :=
  {| stream := tcp_priv_new [] "tcp://host:1" None; calls := 0 |}.
Definition connects (n : nat) (t : list byte) (addr : SocketAddr) : Result IoError () * list byte := (Ok (), t).

Definition example_tcp_ops : list (Op (list byte)) := [Op_write [x00; x01; x02]; Op_write [x03]; Op_flush 9].
Definition example_tcp_run : Outcome (Result IoError ()) * Io (InStreamTcp (list byte)) :=
  @run _ _ _ (tcp_in_stream connects) example_tcp_ops example_tcp.

Lemma tcp_writes_in_order_witness :
  tcp (stream example_tcp_run.2) = [x00; x01; x02; x03] ∧
  tcp_owed (stream example_tcp_run.2) = [x00; x01; x02; x03].
Proof.
  split; [vm_compute; reflexivity|].
  assert (Hr : example_tcp_run.1 = Ret (Ok ())) by (vm_compute; reflexivity).
  exact (proj1 (proj2 (tcp_writes_in_order connects (λ _ _ _, eq_refl) example_tcp_ops example_tcp
    example_tcp_run.1 example_tcp_run.2 (surjective_pairing _)) Hr)).
Defined.

End examples.

Section silent_examples.

(** Without the pings of the peer. *)
#[local] Instance silent_tungstenite : Tungstenite :=
  {| CloseCode := Z; close_code c := c; close_number c := c; WebSocket := list (Message Z);
     MidCli := option nat; MidSrv := nat; write_message n wss m := (Ok (), wss ++ [m])%list;
     read_message n wss := (Err (WsError_Io with_would_block), wss); write_pending n wss := (Ok (), wss);
     cli_handshake n mid := Handshake_Done []; srv_handshake n mid := Handshake_Done [];
     socket_url _ := "ws://host"; srv_mid_url _ := "ws://host"; posted wss := wss |}.

Definition silent_stream : Io (@InStreamWss silent_tungstenite) :=
  {| stream := wss_set_state (Some (WssState_Ready [])) (wss_priv_new 0 0 "ws://host" (Some 4%Z)); calls := 0 |}.

Lemma silent_is_quiet : @quiet silent_tungstenite.
Proof. split; [|done]. intros n wss. by exists with_would_block. Qed.

Lemma silent_open : @open_since silent_tungstenite 0 4 (stream silent_stream).
Proof. split; [by exists []|done]. Qed.

Lemma slow_peer_times_out_witness :
  ∃ e w', @wss_read silent_tungstenite toy_urls (λ _, 5%Z) silent_stream = (Ret (Err e), w') ∧
    error_kind e = ErrorKind_TimedOut.
Proof.
  exact (@slow_peer_times_out silent_tungstenite toy_urls (λ _, 5%Z) 0 4 silent_stream silent_is_quiet silent_open
    (λ _, eq_refl)).
Defined.

Lemma timely_peer_is_kept_witness :
  ∃ e w', @wss_read silent_tungstenite toy_urls (λ _, 4%Z) silent_stream = (Ret (Err e), w') ∧
    would_block e = true.
Proof.
  exact (@timely_peer_is_kept silent_tungstenite toy_urls (λ _, 4%Z) 0 4 silent_stream silent_is_quiet silent_open
    (λ _, Z.le_refl _)).
Defined.
End silent_examples.
